(* ===== verification/_CoqProject ===== *)
-Q . S2P
Prelude.v
GoStrings.v
Url.v
Sets.v
Backoff.v
Provider.v
FileStore.v
Health.v
Service.v
Json.v
Effects.v
Routing.v
Topics.v
Retry.v
RetryLife.v
Samples.v
RouterSpec.v
RetrySpec.v
Discipline.v
Messaging.v
Interleaving.v
Cancel.v
Dcm.v
Config.v
Agent.v
Debounce.v
Encoding.v
Codec.v
ApiTypes.v
K8s.v
StatusMon.v
NetworkStore.v
StorageStore.v
ContainerStore.v
Monitors.v
Kubevirt.v
AcmMonitor.v
AcmCluster.v
Embedded.v
Http.v
Api.v
Transition.v
Database.v
Apps.v
Watch.v
ApiClient.v
ControlPlane.v
Client.v
ClientSpec.v
Server.v
Main.v
