(* ===== verification/Prelude.v ===== *)
(** * Environment agent: verification library

    ** The program

    The environment agent (cmd/environment-agent) receives create, delete and
    cancel requests for resources as CloudEvents on NATS JetStream topics,
    forwards them to service providers (external HTTP services or handlers in
    the same process) and answers with CloudEvents.  Providers register over
    an HTTP API; the agent persists them, gives each service type to one
    provider, and checks their health.  While a provider is unhealthy its
    requests wait on a retry topic, which is emptied when the provider's health
    changes and when the agent restarts.  A registrar goroutine keeps the
    control plane (DCM) informed of the service types on offer and sends
    heartbeats.  The handlers in the same process are the embedded providers:
    they create networks, volumes, containers, virtual machines and clusters on
    a Kubernetes cluster, watch what they created and publish its status.

    ** Files and sources

    - Prelude, GoStrings: machine integers, durations, errors ([error],
      [result]), generic lemmas, tactics and the hint database [agent]; the
      functions of Go's strings and regexp packages the agent uses.  Url:
      net/url (escaping, parsing, references, printing, queries).
    - Sets: internal/routing/resourceset.go (LRU-bounded deny list and claimed
      set, [Module ResourceSet]) and keylock.go ([Module KeyLock]).
    - Backoff: internal/backoff, internal/dcm/backoff.go and [computeBackoff]
      of internal/dcm/registrar.go.
    - Provider: internal/provider (field validators, [Module Registry],
      [Module HealthTracker]).
    - FileStore: internal/provider/store; [Class Store]/[StoreOk] is the
      interface store.go promises, the JSON file of file.go, modelled down to
      its system calls with a crash model of the disk, is an instance.
    - Health: internal/health/monitor (state machine, checkers, monitor).
      State machines are heap objects since the code compares their addresses.
    - Service: internal/provider/service and the part of main.go that boots the
      providers, over any [Store].
    - Json: encoding/json's rules for the payload structures.
    - Effects: programs of atomic operations, in which the concurrent code is
      written.  [exec] gives the executions under arbitrary answers of the
      outside and of concurrently running code, [run] the sequential run in a
      given outside world, [pool_step] the interleavings of a pool of programs;
      a monitor ([mwp], [keeps]) is the logic for all executions.
    - Routing: internal/cloudevent, internal/routing/types.go, resolve.go,
      forwarder.go and router.go.  Topics: internal/messaging/topics.go.
      Retry: internal/routing/retry/processor.go, whose life (Stop, the wait
      group) is RetryLife.  Messaging: internal/messaging/handlers.go, the
      configuration and the cancel drain of client.go.  One definition per
      function or method, with its early returns, deferred calls ([deferred])
      and panics ([Panicked]).
    - Client: internal/messaging/client.go.  Each method is code of atomic
      actions on the client, its two mutexes and its atomics, JetStream, timers
      and channels; a scheduler interleaves any number of goroutines, the
      callbacks of the NATS library and the passing of time.  ClientSpec: a
      rely-guarantee logic for this code and the theorems.
    - Dcm: internal/dcm (client.go, token.go, and registrar.go as a state
      machine whose steps lie between two blocking points, [Module Registrar]).
      ControlPlane: client.go down to the HTTP requests it makes.
    - Config: internal/config.  Agent: start-up and wiring of main.go.  Main:
      [run] and [mainRun] as a whole, with the deferred functions and exit code.
    - Samples: a small deployment on which definitions are evaluated.
    - RouterSpec, RetrySpec, Discipline, Interleaving, Cancel: the theorems on
      the message path.
    - Transition: internal/health/cepublisher.go and the callbacks main.go wires
      between Health, Service and Dcm, composed into the running agent.
    - Http: internal/apiserver/middleware.go, internal/requestctx,
      internal/httperror, internal/auth.  Api: the generated server
      (internal/api/server), internal/handler, internal/health/service.go and the
      reading side of pkg/client, inside Http and on Service.  ApiClient:
      pkg/client (requests, options, editors, calls).  Server: the life of
      [Server.Run] of internal/apiserver/server.go, the edit of the OpenAPI
      document, [NewOIDCValidator] of internal/auth.
    - Codec, ApiTypes: the types of api/ with their JSON codecs, one Module per
      API.  Encoding: decimal and base64 text of page tokens, name order.
    - K8s: the Kubernetes objects and the classes [KubeLib], [KubeAPI] (client
      library and API server, parameters) and [KubeLaws], [KubeLibLaws],
      [KubeFrame] (their documented behaviour); [Module FakeKube] is a server
      that satisfies them, on which the stores are run.
    - NetworkStore, StorageStore, ContainerStore, Kubevirt, AcmCluster, Database:
      internal/openshift/network, storage, container, kubevirtvm, acmcluster and
      database (validation, conversion and store of each provider).
    - Debounce, StatusMon, Monitors, AcmMonitor: the monitoring packages of those
      providers: debouncers, change suppression, informer callbacks, publishing.
    - Embedded: internal/embedded (request parsing, handlers, error mapping,
      set-up) and internal/openshift/worker.  Apps: the app, config, client and
      publisher code of each provider (app and config under internal/openshift,
      shared, kubeconfig, the publishers) on a record of the connections that are
      open.  Watch: Start of the status monitors and the apps on their workers.

    ** What is shown

    - Requests (RouterSpec, Messaging): on every execution a request is answered
      once and for a reason, the message is settled exactly once, provider calls
      are bounded and retried only when retryable, the claim of a resource is
      kept exactly when a provider accepted it.
    - Concurrency (Interleaving): in every interleaving of any number of message
      handlers, transition goroutines and restart drains, at most one provider
      call per resource is outstanding, and no lock is left behind.
    - Messaging client (ClientSpec): in every interleaving, and whatever the
      broker answers, the fields are accessed under their mutex, at most one loop
      per durable consumer takes messages, none before the restart processing has
      ended, set-up is retried until it succeeds or the client is stopped, and
      after Stop nothing consumes any more.
    - Retries (RetrySpec, RetryLife): fetching ends, create/delete pairs are removed
      exactly, every message taken from the retry topic is settled once and
      justified by what was called and emitted; after Stop no transition
      goroutine runs.
    - Cancels (Cancel): one answer; an acknowledged cancel stops a later create;
      an accepted create makes a later cancel fail; and three interleavings or
      inputs on which the code does not do what its requirements say.
    - Providers (Sets, Provider, FileStore, Health, Service): refinement of the
      LRU set and of the monitor to abstract specifications, slot exclusivity,
      consistency of records, slots and trackers in every reachable state of the
      service, atomicity of failed registrations, crash safety and round trip of
      the provider file.
    - Control plane (Dcm, ControlPlane, Backoff, Transition): in the running agent,
      composed of service, monitor, callbacks and registrar with registrations
      split into their critical sections, the service types the control plane
      holds converge to those of the stored providers that are available (unless a
      re-registration was given up or the store could not be read), and outside a
      registration a health event is published exactly for a change of a shown
      status to degraded or unavailable; heartbeats carry the identity last assigned, the
      registrar stops when cancelled, tokens are never used near or past their
      expiry, the requests go to the configured address, exact backoff on 64-bit
      integers.
    - HTTP API (Http, Api, ApiClient, Server): every request that is answered is
      logged once with the status the client got; without a valid token nothing about the state
      is learnt; every outcome of a registration has its documented answer; what
      the generated client registers, under whatever identifier, it can read
      back; the server, told to stop, returns once its shutdown
      timeout has passed and leaves no kept-alive connection.
    - Documents (Codec, ApiTypes): decoding and encoding again any document of an
      API yields a fixed normal form, members a type does not declare are kept,
      and every declared member goes to its field and back.
    - Embedded providers (the stores, Embedded): creation is all or nothing with
      an API server that keeps its documented behaviour, what was created is
      read back and deleted exactly, pages are complete and in bounds, an
      instance is unique when handlers share a provider, errors are classified
      as the router expects, conversion of VM and database specifications; set-up
      leaks no connection and shutting down goes in order (Apps, Watch).
    - Status (Debounce, StatusMon, Monitors, AcmMonitor, Database): the last
      status submitted is the one published, published statuses are those the
      API declares and agree with what the store answers, the status of an
      instance is the worst of its parts.
    - Defects found while modelling are theorems on concrete inputs next to the
      definitions they concern (for instance in [Database.DatabaseRun]).
    - Start-up and exit (Topics, Config, Agent, Main): safe topic names, the
      configuration file's format, that what starts satisfies the hypotheses of
      the theorems on the message path (router and retry processor hold the same
      objects), and that on every path the process gives back what it acquired,
      in reverse order.

    ** Arguments, bounds and fuel

    Code outside the repository is an argument: decoding of CloudEvents, URL
    parsing where only its outcome matters (elsewhere it is Url, with the check
    of bracketed IP addresses as argument), HTTP date parsing, jitter, the environment parser, and
    the answers of providers, broker, store, clock and contexts, the Kubernetes
    client library and API server (for the apps, with nats.go and the CloudEvents
    SDK, the class [Libs]), chi's routing, the OpenAPI validator, the parameter
    styling and binding of the oapi-codegen runtime, discovery and token
    verification by go-oidc, floating point, and the text of numbers and times in JSON.  Hypotheses on
    them are the laws of a class or named definitions ([clean_errors], [converts]),
    and each theorem that uses one has a witness with a concrete instance.
    Contexts are tokens; the outside decides when one is done.  A model of the order of Go's
    map iteration is an argument where the result depends on it.

    [fetch_loop] of Retry runs on fuel: the number of pending messages the
    consumer reported; every further round fetches at least one of them or stops,
    so the fuel is never what ends the loop (RetrySpec).  The doubling loop of
    Backoff has 64 rounds: the value is positive and doubles below a 64-bit
    bound, so it ends earlier (Backoff).  [drainCancelTopic] is indexed by the
    number of rounds the drain timeout allows.  The wait for the control plane's
    stream ([Client.create_loop]) has [request_attempts] rounds: each waits a
    fixed interval and the deadline passes before they are used up, so running
    out, which is a fault of the run, never happens (ClientSpec).  The other
    recursions are structural.

    [ContainerStore.walk] is a client that follows page tokens on fuel; the
    theorem on it shows that one more than the number of deployments suffices.

    ** Not modelled

    The inside of the libraries above: the bytes on net/http's connections,
    client-go's caches, the connection handling of nats.go, the environment parser.  The
    clients and the health probe of the database provider, which the agent does
    not set up.  The OpenAPI documents embedded in the generated files and the
    constants no code uses, logging other than the audit of requests, test
    helpers.  In Routing and Retry a goroutine is a program of the pool, in
    Client a goroutine may start others.  In Transition each critical section of
    a registration and the recording of a check are one step, as is the reading
    of the service types to advertise; the interleaving inside the monitor is the
    subject of Health.  Of net/http's server the connections and their states are
    modelled (Server), the bytes on them are not: the body of a status that
    allows none is kept, and handlers answer with final statuses (Http). *)

From stdpp Require Export base tactics gmap strings list pretty.
From Stdlib Require Export ZArith Lia.

#[global] Open Scope Z_scope.

(** ** Notations of the development *)

Declare Scope agent_scope.
Delimit Scope agent_scope with agent.

(** String equality as the source's [==] on strings. *)
Notation "s =s? t" := (bool_decide (s =@{string} t))
  (at level 70, no associativity) : agent_scope.
#[global] Open Scope agent_scope.

(** ** Machine integers

    [int64] (Go's [int] on the supported platforms, [int64] and
    [time.Duration]) is a [Z] kept in range by [wrap64]. *)

Definition int64_min : Z := -2 ^ 63.
Definition int64_max : Z := 2 ^ 63 - 1.
Definition in_int64 (z : Z) : Prop := int64_min ≤ z ≤ int64_max.
Definition wrap64 (z : Z) : Z := (z + 2 ^ 63) mod 2 ^ 64 - 2 ^ 63.

Lemma wrap64_id z : in_int64 z → wrap64 z = z.
Proof.
  unfold in_int64, wrap64, int64_min, int64_max. intros H.
  rewrite Z.mod_small; lia.
Qed.

Lemma wrap64_range z : in_int64 (wrap64 z).
Proof.
  unfold in_int64, wrap64, int64_min, int64_max.
  pose proof (Z.mod_pos_bound (z + 2 ^ 63) (2 ^ 64)). lia.
Qed.

(** [int32(z)] *)
Definition wrap32 (z : Z) : Z := (z + 2 ^ 31) mod 2 ^ 32 - 2 ^ 31.

Lemma wrap32_id z : -2 ^ 31 ≤ z < 2 ^ 31 → wrap32 z = z.
Proof. unfold wrap32. intros H. rewrite Z.mod_small; lia. Qed.

(** [time.Duration] values are nanoseconds. *)
Definition Millisecond : Z := 1000000.
Definition Second : Z := 1000 * Millisecond.
Definition Minute : Z := 60 * Second.
Definition Hour : Z := 60 * Minute.

(** [time.Time]: nanoseconds since the zero time. *)
Definition time_zero : Z := 0.
Definition time_is_zero (t : Z) : bool := bool_decide (t = time_zero).

(** ** Go errors

    One constructor per dynamic type the agent's code inspects with
    [errors.As], [errors.Is] or a type assertion; [EWrap] is
    [fmt.Errorf] with [%w]. *)

Inductive ErrorCode := ErrCodeConflict | ErrCodeNotFound | ErrCodeValidation.

Inductive error :=
  | ENew (msg : string)
  | EWrap (msg : string) (cause : error)
  | EIO (msg : string)
  | EContext (msg : string)
  | EURL (cause : error)
  | ESPResponse (StatusCode : Z) (Message : string)
  | EForwarder (statusCode : Z) (message : string)
  | EDomain (Code : ErrorCode) (Message : string)
  | EForwardInFlight
  | ENonRetryable
  | ERateLimit (RetryAfter : Z) (HasRetryAfter : bool).

#[export] Instance ErrorCode_eq_dec : EqDecision ErrorCode.
Proof. solve_decision. Defined.
#[export] Instance error_eq_dec : EqDecision error.
Proof. solve_decision. Defined.

(** [errors.As]: the first error of the unwrap chain that [f] accepts. *)
Fixpoint errors_as {X} (f : error → option X) (e : error) : option X :=
  match f e with
  | Some x => Some x
  | None =>
      match e with
      | EWrap _ c | EURL c => errors_as f c
      | _ => None
      end
  end.

(** [errors.Is] against a sentinel. *)
Definition errors_is (target e : error) : bool :=
  match errors_as (λ e', if decide (e' = target) then Some tt else None) e with
  | Some _ => true
  | None => false
  end.

(** A [(value, error)] pair of which exactly one side is meaningful. *)
Inductive result (A : Type) :=
  | Ok (a : A)
  | Err (e : error).
Arguments Ok {A} a.
Arguments Err {A} e.

#[export] Instance result_ret : MRet result := λ A a, Ok a.
#[export] Instance result_bind : MBind result := λ A B f m,
  match m with Ok a => f a | Err e => Err e end.

(** A sequence of checks that each may return an error: the first one wins
    ([if err := check(); err != nil { return err }] repeated). *)
Fixpoint first_error (checks : list (option error)) : option error :=
  match checks with
  | [] => None
  | Some e :: _ => Some e
  | None :: rest => first_error rest
  end.

Lemma first_error_None checks :
  first_error checks = None ↔ Forall (λ c, c = None) checks.
Proof.
  induction checks as [|[e|] cs IH]; simpl.
  - split; [constructor | done].
  - split; [done | intros H; by inversion H].
  - rewrite IH. split; [by constructor | intros H; by inversion H].
Qed.

(** ** Tactics *)

(** Case analysis on the scrutinee of the first match or conditional of the
    goal, recording the equation. *)
Ltac case_step :=
  match goal with
  | |- context [match ?x with _ => _ end] =>
      lazymatch x with
      | context [match _ with _ => _ end] => fail
      | _ => let E := fresh "E" in destruct x eqn:E
      end
  end.

Ltac case_step_in H :=
  match type of H with
  | context [match ?x with _ => _ end] =>
      lazymatch x with
      | context [match _ with _ => _ end] => fail
      | _ => let E := fresh "E" in destruct x eqn:E
      end
  end.

Ltac cases := repeat (case_step; simplify_eq/=).
Ltac cases_in H := repeat (case_step_in H; simplify_eq/=).

(** Boolean tests of the model turned into propositions. *)
Ltac breflect :=
  repeat match goal with
  | H : bool_decide _ = true |- _ => apply bool_decide_eq_true in H
  | H : bool_decide _ = false |- _ => apply bool_decide_eq_false in H
  | H : (_ && _) = true |- _ => apply andb_true_iff in H; destruct H
  | H : (_ || _) = false |- _ => apply orb_false_iff in H; destruct H
  | H : negb _ = true |- _ => apply negb_true_iff in H
  | H : negb _ = false |- _ => apply negb_false_iff in H
  | H : (_ <? _) = true |- _ => apply Z.ltb_lt in H
  | H : (_ <? _) = false |- _ => apply Z.ltb_ge in H
  | H : (_ <=? _) = true |- _ => apply Z.leb_le in H
  | H : (_ <=? _) = false |- _ => apply Z.leb_gt in H
  | H : (_ =? _) = true |- _ => apply Z.eqb_eq in H
  | H : (_ =? _) = false |- _ => apply Z.eqb_neq in H
  end.

(** ** Hint databases

    [agent] collects the invariant-preservation lemmas of the components,
    [agent_simpl] their rewriting equations. *)
Create HintDb agent.
Create Rewrite HintDb agent_simpl.
#[export] Hint Resolve wrap64_range : agent.

(** ** Lists *)

(** The first element satisfying [p] ([for i := range l { if p { return } }]). *)
Lemma find_Some_elem {A} (p : A → bool) (l : list A) x :
  List.find p l = Some x → x ∈ l ∧ p x = true.
Proof. intros H%find_some. by rewrite list_elem_of_In. Qed.

Lemma find_None_elem {A} (p : A → bool) (l : list A) x :
  List.find p l = None → x ∈ l → p x = false.
Proof. intros H Hx. eapply find_none; [done | by rewrite <-list_elem_of_In]. Qed.

Lemma NoDup_take {A} (n : nat) (l : list A) : NoDup l → NoDup (take n l).
Proof. intros H. eapply sublist_NoDup; [exact H|apply sublist_take]. Qed.

Lemma elem_of_take_elem {A} (x : A) (n : nat) (l : list A) : x ∈ take n l → x ∈ l.
Proof. rewrite elem_of_take. intros (i & Hi & _). by eapply list_elem_of_lookup_2. Qed.

(** Filters by boolean tests, split and put together again. *)
Lemma filter_split {A} (p q : A → bool) (l : list A) :
  (∀ x, p x = true → q x = true → False) →
  filter (λ x, p x = true) l ++ filter (λ x, q x = true) l ≡ₚ filter (λ x, p x || q x = true) l.
Proof.
  intros Hd. induction l as [|x l IH]; [done|].
  rewrite !filter_cons. specialize (Hd x). destruct (p x) eqn:Ep, (q x) eqn:Eq; simpl in *.
  - by destruct Hd.
  - by rewrite IH.
  - by rewrite <-Permutation_middle, IH.
  - done.
Qed.

Lemma bind_app_perm {A B} (g h : A → list B) (l : list A) :
  (l ≫= λ k, g k ++ h k) ≡ₚ (l ≫= g) ++ (l ≫= h).
Proof.
  induction l as [|k l IH]; [done|]. rewrite !bind_cons, IH, <-!(assoc_L (++)).
  f_equiv. rewrite !(assoc_L (++)). f_equiv. apply Permutation_app_comm.
Qed.

Lemma bind_one_key {A} (b : bool) (x : A) (key : string) (L : list string) :
  NoDup L → (b = true → key ∈ L) →
  (L ≫= λ k, if bool_decide (key = k) && b then [x] else []) = if b then [x] else [].
Proof.
  assert (∀ L', key ∉ L' ∨ b = false → (L' ≫= λ k, if bool_decide (key = k) && b then [x] else []) = []) as Hno.
  { induction L' as [|k L' IH]; intros H; [done|]. rewrite bind_cons, IH by set_solver.
    destruct b; [|by rewrite andb_false_r]. rewrite bool_decide_eq_false_2 by set_solver. done. }
  intros Hnd Hin. destruct b; [|apply Hno; auto].
  induction Hnd as [|k L Hk Hnd IH]; [by specialize (Hin eq_refl); set_solver|].
  rewrite bind_cons. destruct (bool_decide_reflect (key = k)) as [->|Hne]; simpl.
  - rewrite Hno by auto. done.
  - apply IH. intros _. specialize (Hin eq_refl). set_solver.
Qed.

(** Collecting the elements that satisfy [p] key by key. *)
Lemma filter_by_key {A} (key : A → string) (p : A → bool) (L : list string) (l : list A) :
  NoDup L → (∀ x, x ∈ l → p x = true → key x ∈ L) →
  (L ≫= λ k, filter (λ x, bool_decide (key x = k) && p x = true) l) ≡ₚ filter (λ x, p x = true) l.
Proof.
  intros Hnd. induction l as [|x l IH]; intros Hin.
  { simpl. clear. induction L as [|k L IH]; [done|]. by rewrite bind_cons, IH. }
  trans (L ≫= λ k, (if bool_decide (key x = k) && p x then [x] else []) ++
                   filter (λ x, bool_decide (key x = k) && p x = true) l).
  { erewrite list_bind_ext; [done| |done]. intros k. rewrite filter_cons.
    destruct (bool_decide (key x = k) && p x); simpl; done. }
  rewrite bind_app_perm, bind_one_key, IH by set_solver.
  rewrite filter_cons. by destruct (p x).
Qed.

Lemma filter_not_nil {A} (P : A → Prop) `{!∀ x, Decision (P x)} (l : list A) :
  filter P l ≠ [] ↔ ∃ x, x ∈ l ∧ P x.
Proof.
  split.
  - intros Hne. destruct (filter P l) as [|x l'] eqn:E; [done|]. exists x.
    assert (x ∈ filter P l) as Hx by (rewrite E; left). apply list_elem_of_filter in Hx as [? ?]. done.
  - intros (x & Hx & HP) Hnil. assert (x ∈ filter P l) as Hf by by apply list_elem_of_filter.
    rewrite Hnil in Hf. by apply elem_of_nil in Hf.
Qed.

Lemma filter_true_false {A} (p : A → bool) (l : list A) :
  filter (λ x, p x = true) l ++ filter (λ x, p x = false) l ≡ₚ l.
Proof.
  induction l as [|x l IH]; [done|]. rewrite !filter_cons. destruct (p x); simpl; [by rewrite IH|].
  by rewrite <-Permutation_middle, IH.
Qed.

(** Replacing one element changes one segment of a concatenation. *)
Lemma bind_insert_split {A B} (f : A → list B) (l : list A) i x :
  l !! i = Some x → ∃ a b, l ≫= f = a ++ f x ++ b ∧ ∀ y, <[i := y]> l ≫= f = a ++ f y ++ b.
Proof.
  intros Hi. exists (take i l ≫= f), (drop (S i) l ≫= f).
  assert (∀ y, (take i l ++ y :: drop (S i) l) ≫= f = (take i l ≫= f) ++ f y ++ (drop (S i) l ≫= f)) as H.
  { intros y. by rewrite bind_app, bind_cons. }
  split; [by rewrite <-H, take_drop_middle|]. intros y. rewrite <-H. f_equal.
  apply insert_take_drop. by eapply lookup_lt_Some.
Qed.

Lemma app_singleton_inv {A} (a b : list A) x y : a ++ [x] ++ b = [y] → a = [] ∧ b = [] ∧ x = y.
Proof. destruct a as [|? [|]]; [|done..]. intros H. by simplify_eq/=. Qed.

(** Checks in sequence: the first that reports something wins. *)
Fixpoint first_some {A} (checks : list (option A)) : option A :=
  match checks with
  | [] => None
  | Some e :: _ => Some e
  | None :: rest => first_some rest
  end.

Lemma first_some_None {A} (checks : list (option A)) : first_some checks = None ↔ Forall (λ c, c = None) checks.
Proof.
  induction checks as [|[e|] cs IH]; simpl.
  - split; [constructor | done].
  - split; [done | intros H; by inversion H].
  - rewrite IH. split; [by constructor | intros H; by inversion H].
Qed.

(** [if cond { return fmt.Errorf(msg) }] *)
Definition check_that {A} (bad : bool) (msg : A) : option A := if bad then Some msg else None.

Lemma check_that_None {A} bad (msg : A) : check_that bad msg = None ↔ bad = false.
Proof. by destruct bad. Qed.

(** The order in which Go ranges over a map is not specified. *)
Definition map_range := ∀ A : Type, gmap string A → list (string * A).
Definition map_range_ok (range : map_range) : Prop := ∀ A (m : gmap string A), range A m ≡ₚ map_to_list m.

Lemma map_range_elem (range : map_range) A (m : gmap string A) k v :
  map_range_ok range → (k, v) ∈ range A m ↔ m !! k = Some v.
Proof. intros H. by rewrite (H A m), elem_of_map_to_list. Qed.

(** A check made on every entry of a map. *)
Lemma map_range_checks (range : map_range) A B (m : gmap string A) (f : string * A → option B) k v :
  map_range_ok range → first_some (f <$> range A m) = None → m !! k = Some v → f (k, v) = None.
Proof.
  intros Hr Hf Hk. apply first_some_None in Hf. rewrite Forall_fmap, Forall_forall in Hf.
  apply Hf. by apply map_range_elem.
Qed.

Lemma Forall2_strengthen {A B} (P : A → Prop) (R R' : A → B → Prop) l k :
  Forall P l → Forall2 R l k → (∀ x y, P x → R x y → R' x y) → Forall2 R' l k.
Proof.
  intros HP HR Himp. induction HR as [|x y l k Hxy _ IH]; [constructor|].
  apply Forall_cons in HP as [Hx HP]. constructor; auto.
Qed.
