(* ===== verification/GoStrings.v ===== *)
(** * Strings of the Go standard library

    Go strings are byte strings; they are modelled by [string].  This file
    models the functions of package [strings] and the regular expressions of
    package [regexp] that the agent uses, with the lemmas the validators of
    the other components rely on. *)

From S2P Require Import Prelude.
From Stdlib Require Import Ascii.

Local Open Scope string_scope.
#[local] Arguments String.append : simpl nomatch.

(** ** Package [strings] *)

Definition HasPrefix (s p : string) : bool := String.prefix p s.

Fixpoint chars (s : string) : list ascii :=
  match s with EmptyString => [] | String c s' => c :: chars s' end.

Fixpoint of_chars (l : list ascii) : string :=
  match l with [] => EmptyString | c :: l' => String c (of_chars l') end.

Definition srev (s : string) : string := of_chars (reverse (chars s)).

Definition HasSuffix (s p : string) : bool := HasPrefix (srev s) (srev p).

Fixpoint drop_str (n : nat) (s : string) : string :=
  match n, s with
  | S n', String _ s' => drop_str n' s'
  | _, _ => s
  end.

(** [strings.Contains(s, sub)]. *)
Fixpoint Contains (s sub : string) : bool :=
  HasPrefix s sub ||
  match s with EmptyString => false | String _ s' => Contains s' sub end.

Definition CutPrefix (s p : string) : option string :=
  if HasPrefix s p then Some (drop_str (String.length p) s) else None.

(** UTF-8 encodings of the runes [unicode.IsSpace] accepts. *)
Definition bytes (l : list nat) : string := of_chars (map ascii_of_nat l).

Definition space_runes : list string :=
  map bytes
    ([[9]; [10]; [11]; [12]; [13]; [32]; [194; 133]; [194; 160];
      [225; 154; 128]; [226; 128; 168]; [226; 128; 169]; [226; 128; 175];
      [226; 129; 159]; [227; 128; 128]]%nat
     ++ map (λ k, [226; 128; 128 + k]%nat) (seq 0 11)).

(** One leading (for the reversed string: trailing) space rune removed. *)
Fixpoint strip_one (spaces : list string) (s : string) : option string :=
  match spaces with
  | [] => None
  | r :: rs =>
      match CutPrefix s r with
      | Some s' => Some s'
      | None => strip_one rs s
      end
  end.

Fixpoint trim_left (fuel : nat) (spaces : list string) (s : string) : string :=
  match fuel with
  | O => s
  | S fuel' =>
      match strip_one spaces s with
      | Some s' => trim_left fuel' spaces s'
      | None => s
      end
  end.

(** [strings.TrimSpace]; every removed rune has at least one byte, so the
    length of the string bounds the number of removals. *)
Definition TrimSpace (s : string) : string :=
  let l := trim_left (String.length s) space_runes s in
  srev (trim_left (String.length l) (map srev space_runes) (srev l)).

(** [strings.ToLower] and [strings.ToUpper] on ASCII bytes. *)
Definition lower_ascii (c : ascii) : ascii :=
  let n := nat_of_ascii c in
  if (65 <=? n)%nat && (n <=? 90)%nat then ascii_of_nat (n + 32) else c.
Definition upper_ascii (c : ascii) : ascii :=
  let n := nat_of_ascii c in
  if (97 <=? n)%nat && (n <=? 122)%nat then ascii_of_nat (n - 32) else c.
Definition ToLower (s : string) : string := of_chars (map lower_ascii (chars s)).
Definition ToUpper (s : string) : string := of_chars (map upper_ascii (chars s)).

(** ** Formatting *)

Definition hex_digit (n : nat) : ascii := ascii_of_nat (if n <? 10 then 48 + n else 87 + n)%nat.

(** One byte of a [%q] literal: the escapes of [strconv.Quote] for ASCII; the
    bytes of other characters are left as they are. *)
Definition quote_byte (c : ascii) : list ascii :=
  let n := nat_of_ascii c in
  let esc (k : nat) : list ascii := [ascii_of_nat 92%nat; ascii_of_nat k] in
  if (n =? 34)%nat then esc 34%nat
  else if (n =? 92)%nat then esc 92%nat
  else if (n =? 7)%nat then esc 97%nat
  else if (n =? 8)%nat then esc 98%nat
  else if (n =? 12)%nat then esc 102%nat
  else if (n =? 10)%nat then esc 110%nat
  else if (n =? 13)%nat then esc 114%nat
  else if (n =? 9)%nat then esc 116%nat
  else if (n =? 11)%nat then esc 118%nat
  else if (n <? 32)%nat || (n =? 127)%nat then
    esc 120%nat ++ [hex_digit (n / 16); hex_digit (n mod 16)]%nat
  else [c].

(** The verb [%q]. *)
Definition Quote (s : string) : string :=
  of_chars (ascii_of_nat 34%nat :: mjoin (quote_byte <$> chars s) ++ [ascii_of_nat 34%nat]).

(** Lemmas on these functions. *)

Lemma chars_of_chars l : chars (of_chars l) = l.
Proof. induction l; simpl; congruence. Qed.

Lemma of_chars_chars s : of_chars (chars s) = s.
Proof. induction s; simpl; congruence. Qed.

Lemma chars_inj s t : chars s = chars t → s = t.
Proof. intros H. by rewrite <-(of_chars_chars s), H, of_chars_chars. Qed.

Lemma chars_app s t : chars (s +:+ t) = (chars s ++ chars t)%list.
Proof. induction s; simpl; congruence. Qed.

Lemma length_chars s : length (chars s) = String.length s.
Proof. induction s; simpl; congruence. Qed.

Lemma length_string_app s t :
  String.length (s +:+ t) = (String.length s + String.length t)%nat.
Proof. rewrite <-!length_chars, chars_app. apply length_app. Qed.

Lemma HasPrefix_spec s p : HasPrefix s p = true ↔ ∃ t, s = p +:+ t.
Proof.
  unfold HasPrefix. revert s. induction p as [|c p IH]; intros s; simpl.
  - split; [by exists s|by destruct s].
  - destruct s as [|d s]; simpl.
    + split; [done|by intros [t Ht]].
    + destruct (ascii_dec c d) as [->|Hne].
      * rewrite IH. split; intros [t Ht]; exists t; simpl in *; congruence.
      * split; [done|intros [t Ht]; simpl in Ht; congruence].
Qed.

Lemma chars_srev s : chars (srev s) = reverse (chars s).
Proof. apply chars_of_chars. Qed.

Lemma srev_app s t : srev (s +:+ t) = srev t +:+ srev s.
Proof.
  apply chars_inj. by rewrite chars_app, !chars_srev, chars_app, reverse_app.
Qed.

Lemma srev_involutive s : srev (srev s) = s.
Proof. apply chars_inj. by rewrite !chars_srev, reverse_involutive. Qed.

Lemma HasSuffix_spec s p : HasSuffix s p = true ↔ ∃ t, s = t +:+ p.
Proof.
  unfold HasSuffix. rewrite HasPrefix_spec. split; intros [t Ht].
  - exists (srev t). rewrite <-(srev_involutive s), Ht, srev_app.
    by rewrite srev_involutive.
  - exists (srev t). by rewrite Ht, srev_app.
Qed.

Lemma Contains_spec s sub : Contains s sub = true ↔ ∃ a b, s = a +:+ sub +:+ b.
Proof.
  induction s as [|c s IH]; cbn [Contains].
  - rewrite orb_false_r, HasPrefix_spec. split.
    + intros [t Ht]. by exists "", t.
    + intros (a & b & Hab). destruct a; [by exists b|done].
  - rewrite orb_true_iff, HasPrefix_spec, IH. split.
    + intros [[t Ht]|(a & b & Hab)].
      * by exists "", t.
      * exists (String c a), b. simpl. by rewrite Hab.
    + intros ([|d a] & b & Hab); simpl in *.
      * left. by exists b.
      * right. exists a, b. congruence.
Qed.

(** A single byte is contained when it occurs. *)
Lemma Contains_char s c : Contains s (String c "") = true ↔ c ∈ chars s.
Proof.
  rewrite Contains_spec. split.
  - intros (a & b & ->). rewrite !chars_app. set_solver.
  - intros (l1 & l2 & H)%list_elem_of_split.
    exists (of_chars l1), (of_chars l2). apply chars_inj.
    rewrite !chars_app, !chars_of_chars. by rewrite H.
Qed.

(** ** Package [regexp]

    Regular expressions over byte classes, matched against a whole string
    (every pattern of the agent is anchored with [^] and [$]) by
    derivatives. *)

Inductive regex :=
  | RNone
  | REps
  | RClass (p : ascii → bool)
  | RCat (r1 r2 : regex)
  | RAlt (r1 r2 : regex)
  | RStar (r : regex).

Fixpoint nullable (r : regex) : bool :=
  match r with
  | RNone | RClass _ => false
  | REps | RStar _ => true
  | RCat a b => nullable a && nullable b
  | RAlt a b => nullable a || nullable b
  end.

(** Smart constructors, so that derivatives do not grow with the input. *)
Definition mk_cat (a b : regex) : regex :=
  match a with RNone => RNone | REps => b | _ => RCat a b end.
Definition mk_alt (a b : regex) : regex :=
  match a, b with RNone, _ => b | _, RNone => a | _, _ => RAlt a b end.

Fixpoint deriv (c : ascii) (r : regex) : regex :=
  match r with
  | RNone | REps => RNone
  | RClass p => if p c then REps else RNone
  | RCat a b =>
      if nullable a then mk_alt (mk_cat (deriv c a) b) (deriv c b)
      else mk_cat (deriv c a) b
  | RAlt a b => mk_alt (deriv c a) (deriv c b)
  | RStar a => mk_cat (deriv c a) (RStar a)
  end.

Fixpoint rmatch_chars (r : regex) (l : list ascii) : bool :=
  match l with
  | [] => nullable r
  | c :: l' => rmatch_chars (deriv c r) l'
  end.

(** [re.MatchString(s)]. *)
Definition MatchString (r : regex) (s : string) : bool := rmatch_chars r (chars s).

(** The language a pattern denotes. *)
Inductive lang : regex → list ascii → Prop :=
  | lang_eps : lang REps []
  | lang_class p c : p c = true → lang (RClass p) [c]
  | lang_cat a b l1 l2 : lang a l1 → lang b l2 → lang (RCat a b) (l1 ++ l2)
  | lang_alt_l a b l : lang a l → lang (RAlt a b) l
  | lang_alt_r a b l : lang b l → lang (RAlt a b) l
  | lang_star_nil a : lang (RStar a) []
  | lang_star_cons a l1 l2 :
      l1 ≠ [] → lang a l1 → lang (RStar a) l2 → lang (RStar a) (l1 ++ l2).

#[local] Hint Constructors lang : core.

Lemma lang_cat_inv a b l :
  lang (RCat a b) l ↔ ∃ l1 l2, l = (l1 ++ l2)%list ∧ lang a l1 ∧ lang b l2.
Proof. split; [inversion 1; subst; eauto|intros (?&?&->&?&?); eauto]. Qed.

Lemma lang_alt_inv a b l : lang (RAlt a b) l ↔ lang a l ∨ lang b l.
Proof. split; [inversion 1; subst; eauto|intros [|]; eauto]. Qed.

Lemma lang_class_inv p l : lang (RClass p) l ↔ ∃ c, l = [c] ∧ p c = true.
Proof. split; [inversion 1; subst; eauto|intros (?&->&?); eauto]. Qed.

Lemma lang_eps_inv l : lang REps l ↔ l = [].
Proof. split; [by inversion 1|intros ->; eauto]. Qed.

Lemma lang_none_inv l : ¬ lang RNone l.
Proof. by inversion 1. Qed.

Lemma nullable_spec r : nullable r = true ↔ lang r [].
Proof.
  induction r; simpl.
  - split; [done|by intros ?%lang_none_inv].
  - split; eauto.
  - split; [done|]. rewrite lang_class_inv. by intros (?&?&?).
  - rewrite andb_true_iff, IHr1, IHr2, lang_cat_inv. split.
    + intros [??]. by exists [], [].
    + intros (l1&l2&H&?&?). symmetry in H. apply app_eq_nil in H as [-> ->]. done.
  - by rewrite orb_true_iff, IHr1, IHr2, lang_alt_inv.
  - split; eauto.
Qed.

Lemma mk_cat_lang a b l : lang (mk_cat a b) l ↔ lang (RCat a b) l.
Proof.
  destruct a; simpl; try done; rewrite lang_cat_inv.
  - split; [by intros ?%lang_none_inv|by intros (?&?&?&?%lang_none_inv&?)].
  - split.
    + intros ?. exists [], l. eauto.
    + intros (?&?&->&->%lang_eps_inv&?). done.
Qed.

Lemma mk_alt_lang a b l : lang (mk_alt a b) l ↔ lang (RAlt a b) l.
Proof.
  assert (Hn : ∀ r, lang (RAlt r RNone) l ↔ lang r l).
  { intros r. rewrite lang_alt_inv. split; [|eauto].
    intros [|?%lang_none_inv]; done. }
  destruct a; simpl.
  { rewrite lang_alt_inv. split; [eauto|]. by intros [?%lang_none_inv|]. }
  all: destruct b; simpl; try done; symmetry; apply Hn.
Qed.

Lemma lang_star_uncons a c l :
  lang (RStar a) (c :: l) ↔
  ∃ l1 l2, l = (l1 ++ l2)%list ∧ lang a (c :: l1) ∧ lang (RStar a) l2.
Proof.
  split.
  - inversion 1 as [| | | | | |? l1 l2 Hne ? ? [Heq]]; subst.
    destruct l1 as [|d l1]; [done|]. simplify_eq/=. eauto.
  - intros (l1&l2&->&?&?). rewrite app_comm_cons. eauto.
Qed.

Lemma deriv_spec r c l : lang (deriv c r) l ↔ lang r (c :: l).
Proof.
  revert l. induction r; intros l; simpl.
  - split; by intros ?%lang_none_inv.
  - split; [by intros ?%lang_none_inv|by intros ?%lang_eps_inv].
  - rewrite lang_class_inv. destruct (p c) eqn:Hp.
    + rewrite lang_eps_inv. split; [intros ->; eauto|by intros (?&?&?); simplify_eq].
    + split; [by intros ?%lang_none_inv|intros (?&?&?); congruence].
  - assert (Hcat : lang (mk_cat (deriv c r1) r2) l ↔
      ∃ l1 l2, l = (l1 ++ l2)%list ∧ lang r1 (c :: l1) ∧ lang r2 l2).
    { rewrite mk_cat_lang, lang_cat_inv. by setoid_rewrite IHr1. }
    destruct (nullable r1) eqn:Hn; rewrite lang_cat_inv.
    + rewrite mk_alt_lang, lang_alt_inv, Hcat, IHr2. split.
      * intros [(l1&l2&->&?&?)|?].
        -- exists (c :: l1), l2. eauto.
        -- exists [], (c :: l). rewrite <-nullable_spec. eauto.
      * intros ([|d l1]&l2&?&?&?); simplify_eq/=; eauto 6.
    + rewrite Hcat. split.
      * intros (l1&l2&->&?&?). exists (c :: l1), l2. eauto.
      * intros ([|d l1]&l2&?&Hl&?); simplify_eq/=; [|eauto].
        apply nullable_spec in Hl. congruence.
  - rewrite mk_alt_lang, !lang_alt_inv. by rewrite IHr1, IHr2.
  - rewrite mk_cat_lang, lang_cat_inv, lang_star_uncons. by setoid_rewrite IHr.
Qed.

(** The matcher decides the language. *)
Lemma rmatch_lang r l : rmatch_chars r l = true ↔ lang r l.
Proof.
  revert r. induction l as [|c l IH]; intros r; simpl.
  - apply nullable_spec.
  - by rewrite IH, deriv_spec.
Qed.

(** Derived pattern forms and what they match. *)

Fixpoint rliteral (l : list ascii) : regex :=
  match l with
  | [] => REps
  | c :: l' => RCat (RClass (Ascii.eqb c)) (rliteral l')
  end.
Definition rlit (s : string) : regex := rliteral (chars s).
Definition ropt (r : regex) : regex := RAlt REps r.
Definition rplus (r : regex) : regex := RCat r (RStar r).
(** [r{0,n}]. *)
Fixpoint rupto (n : nat) (r : regex) : regex :=
  match n with O => REps | S n' => ropt (RCat r (rupto n' r)) end.

Lemma lang_lit s l : lang (rlit s) l ↔ l = chars s.
Proof.
  unfold rlit. generalize (chars s) as cs. intros cs. revert l.
  induction cs as [|c cs IH]; intros l; simpl.
  - apply lang_eps_inv.
  - rewrite lang_cat_inv. setoid_rewrite lang_class_inv. setoid_rewrite IH. split.
    + intros (?&?&->&(d&->&Hd)&->). apply Ascii.eqb_eq in Hd. by subst.
    + intros ->. exists [c], cs. split; [done|]. split; [|done].
      exists c. by rewrite Ascii.eqb_refl.
Qed.

Lemma lang_star_class p l :
  lang (RStar (RClass p)) l ↔ Forall (λ c, p c = true) l.
Proof.
  induction l as [|c l IH].
  - split; eauto.
  - rewrite lang_star_uncons, Forall_cons, <-IH. setoid_rewrite lang_class_inv. split.
    + intros (?&?&->&(?&?&?)&?). by simplify_eq/=.
    + intros [??]. exists [], l. eauto 6.
Qed.

Lemma lang_upto_class n p l :
  lang (rupto n (RClass p)) l ↔ (length l ≤ n)%nat ∧ Forall (λ c, p c = true) l.
Proof.
  revert l. induction n as [|n IH]; intros l; simpl.
  - rewrite lang_eps_inv. split; [intros ->; eauto|]. intros [? _]. by destruct l; simpl in *; [|lia].
  - unfold ropt. rewrite lang_alt_inv, lang_eps_inv, lang_cat_inv.
    setoid_rewrite lang_class_inv. setoid_rewrite IH. split.
    + intros [->|(?&?&->&(c&->&?)&?&?)]; simpl; [split; [lia|constructor]|].
      split; [lia|]. by constructor.
    + intros [Hlen HF]. destruct l as [|c l]; [by left|right].
      inversion HF; subst. simpl in Hlen. exists [c], l. split; [done|].
      split; [eauto|]. split; [lia|done].
Qed.

(** Byte classes. *)
Definition between (lo hi c : ascii) : bool :=
  (nat_of_ascii lo <=? nat_of_ascii c)%nat && (nat_of_ascii c <=? nat_of_ascii hi)%nat.
Definition is_lower : ascii → bool := between "a" "z".
Definition is_upper : ascii → bool := between "A" "Z".
Definition is_digit : ascii → bool := between "0" "9".
Definition is_char (c d : ascii) : bool := Ascii.eqb c d.

Example trim_ex : TrimSpace "  a b	" = "a b".
Proof. reflexivity. Qed.
Example trim_nbsp : TrimSpace (bytes [194; 160]%nat +:+ "x" +:+ bytes [226; 128; 131]%nat) = "x".
Proof. reflexivity. Qed.

(** ** [strconv.ParseInt(s, 10, 64)]

    [None] is a syntax or range error. *)
Definition digit_val (c : ascii) : Z := Z.of_nat (nat_of_ascii c) - 48.

Fixpoint parse_digits (acc : Z) (l : list ascii) : option Z :=
  match l with
  | [] => Some acc
  | c :: l' => if is_digit c then parse_digits (acc * 10 + digit_val c) l' else None
  end.

Definition ParseInt64 (s : string) : option Z :=
  let '(neg, ds) :=
    match chars s with
    | c :: l => if is_char "-" c then (true, l) else if is_char "+" c then (false, l) else (false, c :: l)
    | [] => (false, [])
    end in
  match ds with
  | [] => None
  | _ =>
      match parse_digits 0 ds with
      | None => None
      | Some n =>
          let v := if neg : bool then - n else n in
          if ((int64_min <=? v) && (v <=? int64_max))%Z then Some v else None
      end
  end.

Lemma ParseInt64_range s v : ParseInt64 s = Some v → in_int64 v.
Proof.
  unfold ParseInt64, in_int64. intros H. repeat case_match; simplify_eq; breflect; lia.
Qed.

Example parse_int_ex : ParseInt64 "-42" = Some (-42) ∧ ParseInt64 "9223372036854775808" = None
  ∧ ParseInt64 "+7" = Some 7 ∧ ParseInt64 "" = None ∧ ParseInt64 "1_0" = None.
Proof. by vm_compute. Qed.
