(* ===== verification/Url.v ===== *)
(** * URLs: the part of net/url that the agent's code uses

    Escaping and unescaping, [url.Parse], [URL.ResolveReference],
    [URL.String], query parameters, as in Go 1.26.  URLs are lists of
    characters.  Bracketed IP addresses in a host are read by package netip:
    that reading is an argument.  The lemmas give the round trips: what is
    escaped is read back, for path segments and query components of any bytes,
    and a URL made of a server's address, a path and a query is parsed into
    these parts. *)

From Stdlib Require Import Ascii.
From S2P Require Import Prelude GoStrings.
#[local] Open Scope list_scope.

Abbreviation text := (list ascii).

(** ** Cutting *)

(** [strings.Cut] at the first [c]. *)
Fixpoint cut (c : ascii) (l : text) : text * option text :=
  match l with
  | [] => ([], None)
  | d :: rest => if is_char c d then ([], Some rest) else let '(a, b) := cut c rest in (d :: a, b)
  end.

(** [strings.LastIndex]: what stands before and after the last [c]. *)
Definition cut_last (c : ascii) (l : text) : option (text * text) :=
  match cut c (reverse l) with
  | (after, Some before) => Some (reverse before, reverse after)
  | (_, None) => None
  end.

(** [strings.Split] at [c]. *)
Fixpoint split_at (c : ascii) (l : text) : list text :=
  match l with
  | [] => [[]]
  | d :: rest =>
      if is_char c d then [] :: split_at c rest
      else match split_at c rest with
           | seg :: segs => (d :: seg) :: segs
           | [] => [[d]]
           end
  end.

(** [strings.Join] *)
Fixpoint join_with (c : ascii) (l : list text) : text :=
  match l with
  | [] => []
  | [x] => x
  | x :: rest => x ++ c :: join_with c rest
  end.

Definition has (c : ascii) (l : text) : bool := existsb (is_char c) l.
Definition starts (p l : text) : bool := bool_decide (p `prefix_of` l).

(** ** Escaping *)

Inductive encoding := encodePath | encodePathSegment | encodeHost | encodeUserPassword | encodeQueryComponent | encodeFragment.

#[export] Instance encoding_eq_dec : EqDecision encoding.
Proof. solve_decision. Defined.

Definition in_set (s : string) (c : ascii) : bool := existsb (is_char c) (chars s).

Definition shouldEscape (c : ascii) (mode : encoding) : bool :=
  if is_lower c || is_upper c || is_digit c then false
  else if bool_decide (mode = encodeHost) && (in_set "!$&'()*+,;=:[]<>" c || is_char (ascii_of_nat 34) c) then false
  else if in_set "-_.~" c then false
  else if in_set "$&+,/:;=?@" c then
    match mode with
    | encodePath => is_char "?" c
    | encodePathSegment => in_set "/;,?" c
    | encodeUserPassword => in_set "@/?:" c
    | encodeQueryComponent => true
    | encodeFragment => false
    | encodeHost => true
    end
  else if bool_decide (mode = encodeFragment) && in_set "!()*" c then false
  else true.

Definition upperhex (n : nat) : ascii := upper_ascii (hex_digit n).

Definition escape_char (mode : encoding) (c : ascii) : text :=
  if shouldEscape c mode then
    if is_char " " c && bool_decide (mode = encodeQueryComponent) then ["+"%char]
    else ["%"%char; upperhex (nat_of_ascii c / 16); upperhex (nat_of_ascii c mod 16)]
  else [c].

Definition escape (mode : encoding) (l : text) : text := l ≫= escape_char mode.

Definition PathEscape : text → text := escape encodePathSegment.
Definition QueryEscape : text → text := escape encodeQueryComponent.

(** ** Unescaping *)

Definition unhex (c : ascii) : option nat :=
  let n := nat_of_ascii c in
  if is_digit c then Some (n - 48)%nat
  else if between "a" "f" c then Some (n - 87)%nat
  else if between "A" "F" c then Some (n - 55)%nat
  else None.

(** In a host only non-ASCII bytes may be escaped. *)
Fixpoint unescape (mode : encoding) (l : text) : option text :=
  match l with
  | [] => Some []
  | c :: rest =>
      if is_char "%" c then
        match rest with
        | a :: b :: rest' =>
            x ← unhex a; y ← unhex b;
            if bool_decide (mode = encodeHost) && (x <? 8)%nat && negb (is_char "2" a && is_char "5" b) then None
            else u ← unescape mode rest'; Some (ascii_of_nat (16 * x + y) :: u)
        | _ => None
        end
      else if is_char "+" c && bool_decide (mode = encodeQueryComponent) then cons " "%char <$> unescape mode rest
      else if bool_decide (mode = encodeHost) && (nat_of_ascii c <? 128)%nat && shouldEscape c mode then None
      else cons c <$> unescape mode rest
  end.

(** ** The structure *)

Record url := mkUrl {
  u_Scheme : text;
  u_Opaque : text;
  u_User : option (text * option text);
  u_Host : text;
  u_Path : text;
  u_RawPath : text;
  u_OmitHost : bool;
  u_ForceQuery : bool;
  u_RawQuery : text;
  u_Fragment : text;
  u_RawFragment : text
}.

Definition empty_url : url := mkUrl [] [] None [] [] [] false false [] [] [].

(** setPath, on what the path is parsed from; the escaped form is kept when it
    is not the default one. *)
Definition set_path (p : text) (u : url) : option url :=
  path ← unescape encodePath p;
  let raw := if bool_decide (p = escape encodePath path) then [] else p in
  Some (mkUrl (u_Scheme u) (u_Opaque u) (u_User u) (u_Host u) path raw (u_OmitHost u) (u_ForceQuery u) (u_RawQuery u)
          (u_Fragment u) (u_RawFragment u)).

Definition set_fragment (f : text) (u : url) : option url :=
  frag ← unescape encodeFragment f;
  let raw := if bool_decide (f = escape encodeFragment frag) then [] else f in
  Some (mkUrl (u_Scheme u) (u_Opaque u) (u_User u) (u_Host u) (u_Path u) (u_RawPath u) (u_OmitHost u) (u_ForceQuery u)
          (u_RawQuery u) frag raw).

Definition validEncoded (mode : encoding) (l : text) : bool :=
  forallb (λ c, in_set "!$&'()*+,;=:@[]%" c || negb (shouldEscape c mode)) l.

(** The default encoding, unless the raw form is a valid encoding of the value. *)
Definition escaped (mode : encoding) (raw value : text) : text :=
  if negb (bool_decide (raw = [])) && validEncoded mode raw && bool_decide (unescape mode raw = Some value) then raw
  else escape mode value.

Definition EscapedPath (u : url) : text :=
  let raw := u_RawPath u in
  if negb (bool_decide (raw = [])) && validEncoded encodePath raw && bool_decide (unescape encodePath raw = Some (u_Path u)) then raw
  else if bool_decide (u_Path u = ["*"%char]) then ["*"%char]
  else escape encodePath (u_Path u).

Definition EscapedFragment (u : url) : text := escaped encodeFragment (u_RawFragment u) (u_Fragment u).

(** ** Parsing *)

Definition is_letter (c : ascii) : bool := is_lower c || is_upper c.

(** getScheme; [acc]: the characters read, last first.  [None]: an error. *)
Fixpoint get_scheme (raw acc l : text) : option (text * text) :=
  match l with
  | [] => Some ([], raw)
  | c :: rest =>
      if is_letter c then get_scheme raw (c :: acc) rest
      else if is_digit c || in_set "+-." c then
        match acc with [] => Some ([], raw) | _ => get_scheme raw (c :: acc) rest end
      else if is_char ":" c then
        match acc with [] => None | _ => Some (reverse acc, rest) end
      else Some ([], raw)
  end.

Definition is_ctl (c : ascii) : bool := (nat_of_ascii c <? 32)%nat || (nat_of_ascii c =? 127)%nat.

Definition validOptionalPort (l : text) : bool :=
  match l with
  | [] => true
  | c :: rest => is_char ":" c && forallb is_digit rest
  end.

Definition validUserinfo (l : text) : bool :=
  forallb (λ c, is_letter c || is_digit c || in_set "-._:~!$&'()*+,;=%@" c) l.

Section Parse.
(** A bracketed address with its port. *)
Context (parse_ip_literal : text → option text).

Definition parseHost (scheme host : text) : option text :=
  if has "[" host then parse_ip_literal host
  else
    let port :=
      match cut ":" host with
      | (_, None) => Some []
      | (_, Some rest) =>
          if has ":" rest && (bool_decide (scheme = chars "postgresql") || bool_decide (scheme = chars "postgres"))
          then (λ x, ":"%char :: x.2) <$> cut_last ":" host
          else Some (":"%char :: rest)
      end in
    match port with
    | Some p => if validOptionalPort p then unescape encodeHost host else None
    | None => None
    end.

Definition parseAuthority (scheme authority : text) : option (option (text * option text) * text) :=
  match cut_last "@" authority with
  | None => host ← parseHost scheme authority; Some (None, host)
  | Some (userinfo, rest) =>
      host ← parseHost scheme rest;
      if negb (validUserinfo userinfo) then None
      else
        match cut ":" userinfo with
        | (_, None) => name ← unescape encodeUserPassword userinfo; Some (Some (name, None), host)
        | (username, Some password) =>
            name ← unescape encodeUserPassword username; pass ← unescape encodeUserPassword password;
            Some (Some (name, Some pass), host)
        end
  end.

(** The query: a single trailing question mark is remembered. *)
Definition cut_query (rest : text) : text * bool * text :=
  match cut "?" rest with
  | (a, None) => (a, false, [])
  | (a, Some q) => if bool_decide (q = []) then (a, true, []) else (a, false, q)
  end.

(** parse *)
Definition parse_url (raw : text) (viaRequest : bool) : option url :=
  if existsb is_ctl raw then None
  else if bool_decide (raw = []) && viaRequest then None
  else if bool_decide (raw = ["*"%char]) then Some (mkUrl [] [] None [] raw [] false false [] [] [])
  else
    '(scheme, rest) ← get_scheme raw [] raw;
    let scheme := lower_ascii <$> scheme in
    let '(rest, force, query) := cut_query rest in
    let u := mkUrl scheme [] None [] [] [] false force query [] [] in
    if negb (starts ["/"%char] rest) && negb (bool_decide (scheme = [])) then
      Some (mkUrl scheme rest None [] [] [] false force query [] [])
    else if negb (starts ["/"%char] rest) && (viaRequest || has ":" (cut "/" rest).1) then None
    else if (negb (bool_decide (scheme = [])) || (negb viaRequest && negb (starts (chars "///") rest))) && starts (chars "//") rest then
      let after := drop 2 rest in
      let '(authority, path) := match cut "/" after with (a, None) => (a, []) | (a, Some p) => (a, "/"%char :: p) end in
      '(user, host) ← parseAuthority scheme authority;
      set_path path (mkUrl scheme [] user host [] [] false force query [] [])
    else
      set_path rest
        (if negb (bool_decide (scheme = [])) && starts ["/"%char] rest
         then mkUrl scheme [] None [] [] [] true force query [] [] else u).

Definition Parse (raw : text) : option url :=
  let '(u, frag) := cut "#" raw in
  v ← parse_url u false;
  match frag with
  | None | Some [] => Some v
  | Some f => set_fragment f v
  end.

(** [url.ParseRequestURI]: what a server does with a request's target. *)
Definition ParseRequestURI (raw : text) : option url := parse_url raw true.
End Parse.

(** ** References *)

Definition dot : text := ["."%char].
Definition dotdot : text := ["."%char; "."%char].

(** The loop of resolvePath; [dst]: what is written after the first slash. *)
Fixpoint resolve_elems (elems : list text) (dst : text) (first : bool) : text :=
  match elems with
  | [] => dst
  | e :: rest =>
      if bool_decide (e = dot) then resolve_elems rest dst false
      else if bool_decide (e = dotdot) then
        match cut_last "/" dst with
        | None => resolve_elems rest [] true
        | Some (before, _) => resolve_elems rest before first
        end
      else resolve_elems rest (if first then dst ++ e else dst ++ "/"%char :: e) false
  end.

Definition resolvePath (base ref : text) : text :=
  let full :=
    match ref with
    | [] => base
    | c :: _ =>
        if is_char "/" c then ref
        else match cut_last "/" base with Some (before, _) => before ++ "/"%char :: ref | None => ref end
    end in
  match full with
  | [] => []
  | _ =>
      let elems := split_at "/" full in
      let last_elem := default [] (last elems) in
      let dst := resolve_elems elems [] true in
      let dst := if bool_decide (last_elem = dot) || bool_decide (last_elem = dotdot) then dst ++ ["/"%char] else dst in
      match dst with
      | c :: _ => if is_char "/" c then dst else "/"%char :: dst
      | [] => ["/"%char]
      end
  end.

(** An error of setPath is dropped: the path stays what it was. *)
Definition set_path_or_keep (p : text) (u : url) : url := default u (set_path p u).

Definition ResolveReference (u ref : url) : url :=
  let scheme := if bool_decide (u_Scheme ref = []) then u_Scheme u else u_Scheme ref in
  let mk user host opaque query frag rawfrag := mkUrl scheme opaque user host (u_Path ref) (u_RawPath ref) (u_OmitHost ref)
    (u_ForceQuery ref) query frag rawfrag in
  if negb (bool_decide (u_Scheme ref = [])) || negb (bool_decide (u_Host ref = [])) || negb (bool_decide (u_User ref = None)) then
    set_path_or_keep (resolvePath (EscapedPath ref) [])
      (mk (u_User ref) (u_Host ref) (u_Opaque ref) (u_RawQuery ref) (u_Fragment ref) (u_RawFragment ref))
  else if negb (bool_decide (u_Opaque ref = [])) then
    mk None [] (u_Opaque ref) (u_RawQuery ref) (u_Fragment ref) (u_RawFragment ref)
  else
    let bare := bool_decide (u_Path ref = []) && negb (u_ForceQuery ref) && bool_decide (u_RawQuery ref = []) in
    let query := if bare then u_RawQuery u else u_RawQuery ref in
    let same_frag := bare && bool_decide (u_Fragment ref = []) in
    let frag := if same_frag then u_Fragment u else u_Fragment ref in
    let rawfrag := if same_frag then u_RawFragment u else u_RawFragment ref in
    if bool_decide (u_Path ref = []) && negb (bool_decide (u_Opaque u = [])) then
      mk None [] (u_Opaque u) query frag rawfrag
    else
      set_path_or_keep (resolvePath (EscapedPath u) (EscapedPath ref)) (mk (u_User u) (u_Host u) [] query frag rawfrag).

(** [u.Parse(ref)] *)
Definition ParseRef (parse_ip_literal : text → option text) (u : url) (ref : text) : option url :=
  r ← Parse parse_ip_literal ref; Some (ResolveReference u r).

(** ** Printing *)

Definition Userinfo_String (user : text * option text) : text :=
  escape encodeUserPassword user.1 ++
  match user.2 with Some p => ":"%char :: escape encodeUserPassword p | None => [] end.

Definition query_suffix (u : url) : text :=
  if u_ForceQuery u || negb (bool_decide (u_RawQuery u = [])) then "?"%char :: u_RawQuery u else [].

Definition URL_String (u : url) : text :=
  let scheme := match u_Scheme u with [] => [] | s => s ++ [":"%char] end in
  let body :=
    if negb (bool_decide (u_Opaque u = [])) then u_Opaque u
    else
      let authority :=
        if negb (bool_decide (u_Scheme u = [])) || negb (bool_decide (u_Host u = [])) || negb (bool_decide (u_User u = None)) then
          if u_OmitHost u && bool_decide (u_Host u = []) && bool_decide (u_User u = None) then []
          else
            (if negb (bool_decide (u_Host u = [])) || negb (bool_decide (u_Path u = [])) || negb (bool_decide (u_User u = None))
             then chars "//" else []) ++
            match u_User u with Some ui => Userinfo_String ui ++ ["@"%char] | None => [] end ++
            escape encodeHost (u_Host u)
        else [] in
      let path := EscapedPath u in
      let slash := if negb (bool_decide (path = [])) && negb (starts ["/"%char] path) && negb (bool_decide (u_Host u = [])) then ["/"%char] else [] in
      let before := scheme ++ authority ++ slash in
      let protect := if bool_decide (before = []) && has ":" (cut "/" path).1 then chars "./" else [] in
      authority ++ slash ++ protect ++ path in
  scheme ++ body ++ query_suffix u ++
  match u_Fragment u with [] => [] | _ => "#"%char :: EscapedFragment u end.

(** What the client of net/http sends as the request's target. *)
Definition RequestURI (u : url) : text :=
  (match u_Opaque u with
   | [] => match EscapedPath u with [] => ["/"%char] | p => p end
   | o => if starts (chars "//") o then u_Scheme u ++ ":"%char :: o else o
   end) ++ query_suffix u.

(** ** Queries *)

Definition QueryUnescape : text → option text := unescape encodeQueryComponent.

(** One parameter; [None] for one that is skipped. *)
Definition query_pair (part : text) : option (text * text) :=
  if has ";" part || bool_decide (part = []) then None
  else
    let '(key, value) := cut "=" part in
    k ← QueryUnescape key; v ← QueryUnescape (default [] value); Some (k, v).

(** [u.Query()]: the parameters in order. *)
Definition Query (u : url) : list (text * text) := omap query_pair (split_at "&" (u_RawQuery u)).

Fixpoint text_leb (a b : text) : bool :=
  match a, b with
  | [], _ => true
  | _ :: _, [] => false
  | x :: a', y :: b' =>
      if (nat_of_ascii x <? nat_of_ascii y)%nat then true
      else if (nat_of_ascii y <? nat_of_ascii x)%nat then false else text_leb a' b'
  end.

Fixpoint insert_pair (p : text * text) (l : list (text * text)) : list (text * text) :=
  match l with
  | [] => [p]
  | q :: rest => if text_leb p.1 q.1 then p :: l else q :: insert_pair p rest
  end.

(** [Values.Encode]: sorted by key, the values of a key in their order. *)
Definition Encode (q : list (text * text)) : text :=
  join_with "&" ((λ p, QueryEscape p.1 ++ "="%char :: QueryEscape p.2) <$> foldr insert_pair [] q).

(** ** Round trips of escaping *)




(** A property of characters that can be decided for all of them. *)
Definition all_chars : text := ascii_of_nat <$> seq 0 256.

Lemma all_chars_complete c : c ∈ all_chars.
Proof.
  apply list_elem_of_fmap. exists (nat_of_ascii c). split; [by rewrite ascii_nat_embedding|].
  apply elem_of_seq. pose proof (nat_ascii_bounded c). lia.
Qed.

Lemma by_chars (f : ascii → bool) : forallb f all_chars = true → ∀ c, f c = true.
Proof. intros H c. rewrite forallb_forall in H. apply H, list_elem_of_In, all_chars_complete. Qed.

(** An escaped character stands for itself. *)
Definition reads_back (mode mode' : encoding) (c : ascii) : bool :=
  match escape_char mode c with
  | [d] =>
      if is_char "+" d && bool_decide (mode' = encodeQueryComponent) then is_char " " c
      else is_char c d && negb (is_char "%" d)
  | [p; a; b] =>
      is_char "%" p && match unhex a, unhex b with Some x, Some y => is_char c (ascii_of_nat (16 * x + y)) | _, _ => false end
  | _ => false
  end.

Lemma is_char_eq c d : is_char c d = true ↔ c = d.
Proof. apply Ascii.eqb_eq. Qed.

Lemma reads_back_unescape mode mode' c rest :
  mode' ≠ encodeHost → reads_back mode mode' c = true →
  unescape mode' (escape_char mode c ++ rest) = cons c <$> unescape mode' rest.
Proof.
  intros Hm. unfold reads_back. destruct (escape_char mode c) as [|d [|a [|b [|]]]]; try done.
  - destruct (is_char "+" d && _) eqn:Hp.
    + intros <-%is_char_eq. cbn [app unescape]. apply andb_true_iff in Hp as [<-%is_char_eq Hq]. cbn [is_char Ascii.eqb Bool.eqb].
      by rewrite Hq.
    + intros [<-%is_char_eq Hd%negb_true_iff]%andb_true_iff. cbn [app unescape]. rewrite Hd, Hp.
      by rewrite (bool_decide_eq_false_2 (mode' = encodeHost)).
  - intros [<-%is_char_eq H]%andb_true_iff. cbn [app unescape is_char Ascii.eqb Bool.eqb].
    destruct (unhex a) as [x|]; [|done]. destruct (unhex b) as [y|]; [|done]. apply is_char_eq in H as ->. cbn [mbind option_bind].
    by rewrite (bool_decide_eq_false_2 (mode' = encodeHost)).
Qed.

Lemma escape_unescape mode mode' l rest :
  mode' ≠ encodeHost → forallb (reads_back mode mode') all_chars = true →
  unescape mode' (escape mode l ++ rest) = (λ r, l ++ r) <$> unescape mode' rest.
Proof.
  intros Hm Hc. induction l as [|c l IH]; [by rewrite option_fmap_id|]. unfold escape in *. cbn [mbind list_bind].
  rewrite <-app_assoc, (reads_back_unescape _ _ _ _ Hm (by_chars _ Hc c)), IH. by destruct (unescape mode' rest).
Qed.

(** A path segment and a query component of any bytes are read back. *)
Lemma unescape_segment l rest : unescape encodePath (PathEscape l ++ rest) = (λ r, l ++ r) <$> unescape encodePath rest.
Proof. apply escape_unescape; [done|]. by vm_compute. Qed.

Lemma unescape_query l : QueryUnescape (QueryEscape l) = Some l.
Proof.
  pose proof (escape_unescape encodeQueryComponent encodeQueryComponent l [] ltac:(done) ltac:(by vm_compute)) as H.
  rewrite app_nil_r in H. unfold QueryUnescape, QueryEscape. rewrite H. simpl. by rewrite app_nil_r.
Qed.

(** Characters that an escaped text never has. *)
Lemma escape_chars (mode : encoding) (p : ascii → bool) l :
  forallb (λ c, forallb p (escape_char mode c)) all_chars = true → forallb p (escape mode l) = true.
Proof.
  intros Hp. induction l as [|c l IH]; [done|]. unfold escape in *. cbn [mbind list_bind]. rewrite forallb_app, IH.
  by rewrite (by_chars _ Hp c).
Qed.

(** ** Cutting texts that are put together *)

Lemma has_app c a b : has c (a ++ b) = has c a || has c b.
Proof. unfold has. apply existsb_app. Qed.

Lemma cut_none c l : has c l = false → cut c l = (l, None).
Proof. induction l as [|d l IH]; [done|]. cbn. intros [-> H]%orb_false_iff. by rewrite (IH H). Qed.

Lemma cut_at c a b : has c a = false → cut c (a ++ c :: b) = (a, Some b).
Proof.
  induction a as [|d a IH]; cbn.
  - intros _. by rewrite (proj2 (is_char_eq c c) eq_refl).
  - intros [-> H]%orb_false_iff. by rewrite (IH H).
Qed.

Lemma has_reverse c l : has c (reverse l) = has c l.
Proof.
  induction l as [|d l IH]; [done|]. rewrite reverse_cons, has_app, IH. cbn. rewrite orb_false_r. apply orb_comm.
Qed.

Lemma cut_last_none c l : has c l = false → cut_last c l = None.
Proof. intros H. unfold cut_last. by rewrite cut_none by by rewrite has_reverse. Qed.

Lemma cut_last_at c a b : has c b = false → cut_last c (a ++ c :: b) = Some (a, b).
Proof.
  intros H. unfold cut_last. rewrite reverse_app, reverse_cons, <-app_assoc. cbn [app].
  rewrite cut_at by by rewrite has_reverse. by rewrite !reverse_involutive.
Qed.

Lemma split_none c l : has c l = false → split_at c l = [l].
Proof. induction l as [|d l IH]; [done|]. cbn. intros [-> H]%orb_false_iff. by rewrite (IH H). Qed.

Lemma split_app c a b : has c a = false → split_at c (a ++ c :: b) = a :: split_at c b.
Proof.
  induction a as [|d a IH]; cbn.
  - intros _. by rewrite (proj2 (is_char_eq c c) eq_refl).
  - intros [-> H]%orb_false_iff. by rewrite (IH H).
Qed.

Lemma split_nonempty c l : split_at c l ≠ [].
Proof. destruct l as [|d l]; cbn; [done|]. destruct (is_char c d); [done|]. by destruct (split_at c l). Qed.

Lemma join_split_at c l : join_with c (split_at c l) = l.
Proof.
  induction l as [|d l IH]; [done|]. cbn. destruct (is_char c d) eqn:Hd.
  - apply is_char_eq in Hd as <-. pose proof (split_nonempty c l). destruct (split_at c l); [done|]. by rewrite <-IH.
  - destruct (split_at c l) as [|seg [|seg' segs]]; rewrite <-IH; done.
Qed.

(** A character outside a class is not in a text of the class. *)
Lemma has_outside c (p : ascii → bool) l : p c = false → forallb p l = true → has c l = false.
Proof.
  intros Hc Hl. unfold has. apply not_true_iff_false. intros (d & Hd & <-%is_char_eq)%existsb_exists.
  rewrite forallb_forall in Hl. rewrite (Hl c Hd) in Hc. done.
Qed.

Lemma class_incl (p q : ascii → bool) : forallb (λ c, implb (p c) (q c)) all_chars = true → ∀ c, p c = true → q c = true.
Proof. intros Hpq c Hc. pose proof (by_chars _ Hpq c) as H. cbv beta in H. by rewrite Hc in H. Qed.

Lemma forallb_weaken (p q : ascii → bool) l :
  forallb (λ c, implb (p c) (q c)) all_chars = true → forallb p l = true → forallb q l = true.
Proof.
  intros Hpq. rewrite !forallb_forall. intros Hp c Hc. by apply (class_incl p q Hpq), Hp.
Qed.

(** ** Parsing a server's address with a path and a query *)

(** Characters that stand for themselves everywhere. *)
Definition plain (c : ascii) : bool := is_letter c || is_digit c || in_set "-_.~" c.
(** Those of an escaped path and of a query, and those of a host with a port. *)
Definition path_char (c : ascii) : bool := in_set "!$&'()*+,;=:@[]%" c || negb (shouldEscape c encodePath).
Definition query_char (c : ascii) : bool := negb (is_ctl c || is_char "#" c).
Definition host_char (c : ascii) : bool := plain c || is_char ":" c.

Record host_ok (host : text) : Prop := {
  host_chars : forallb host_char host = true;
  host_port : match (cut ":" host).2 with None => True | Some port => forallb is_digit port = true end;
  host_some : host ≠ []
}.

Lemma unescape_self mode l : forallb (λ c, if bool_decide (mode = encodeHost) then host_char c else plain c) l = true →
  mode ∈ [encodePath; encodeHost] → unescape mode l = Some l.
Proof.
  intros Hl Hm. induction l as [|c l IH]; [done|]. apply andb_true_iff in Hl as [Hc Hl]. cbn [unescape].
  assert (is_char "%" c = false ∧ (bool_decide (mode = encodeHost) && (nat_of_ascii c <? 128)%nat && shouldEscape c mode = false)) as [-> Hh].
  { set_unfold in Hm. destruct Hm as [-> |[-> |[]]]; [rewrite bool_decide_eq_false_2 in Hc by done|rewrite bool_decide_eq_true_2 in Hc by done].
    - split; [|by rewrite bool_decide_eq_false_2]. apply negb_true_iff, (class_incl plain (λ c, negb (is_char "%" c))); [by vm_compute|done].
    - rewrite bool_decide_eq_true_2 by done.
      assert (negb (is_char "%" c) && negb (shouldEscape c encodeHost) = true) as [H1%negb_true_iff H2%negb_true_iff]%andb_true_iff.
      { apply (class_incl host_char (λ c, negb (is_char "%" c) && negb (shouldEscape c encodeHost))); [by vm_compute|done]. }
      by rewrite H1, H2, andb_false_r. }
  rewrite Hh. rewrite (bool_decide_eq_false_2 (mode = encodeQueryComponent)), andb_false_r by (set_unfold in Hm; naive_solver).
  by rewrite (IH Hl).
Qed.

Lemma parseHost_ok ip scheme host : host_ok host → parseHost ip scheme host = Some host.
Proof.
  intros [Hc Hp Hn]. unfold parseHost. rewrite (has_outside "[" host_char) by done.
  assert (∀ p, validOptionalPort p = true → (if validOptionalPort p then unescape encodeHost host else None) = Some host) as Hv.
  { intros p ->. apply unescape_self; [done|set_solver]. }
  destruct (cut ":" host) as [a [port|]]; cbn in Hp; [|by apply (Hv [])].
  assert (has ":" port = false) as -> by (by apply (has_outside _ is_digit)). cbn [andb]. by apply Hv.
Qed.

Lemma get_scheme_at raw acc s rest :
  forallb is_letter s = true → acc ++ s ≠ [] → get_scheme raw acc (s ++ ":"%char :: rest) = Some (reverse acc ++ s, rest).
Proof.
  revert acc. induction s as [|c s IH]; intros acc Hs Hn.
  - rewrite app_nil_r in *. destruct acc as [|a acc]; [done|]. by cbn.
  - apply andb_true_iff in Hs as [Hc Hs]. cbn [app get_scheme]. rewrite Hc, IH by done. by rewrite reverse_cons, <-app_assoc.
Qed.

Definition query_text (q : text) : text := match q with [] => [] | _ => "?"%char :: q end.

Lemma cut_query_text p q : has "?" p = false → cut_query (p ++ query_text q) = (p, false, q).
Proof.
  intros Hp. unfold cut_query. destruct q as [|c q]; cbn [query_text].
  - by rewrite app_nil_r, cut_none.
  - by rewrite cut_at.
Qed.

Definition server_ok (scheme host : text) : Prop := forallb is_lower scheme = true ∧ scheme ≠ [] ∧ host_ok host.

(** A path as it is sent, and a query. *)
Definition target_ok (p q : text) : Prop := starts ["/"%char] p = true ∧ forallb path_char p = true ∧ forallb query_char q = true.

Lemma starts_cons c l : starts [c] (c :: l) = true.
Proof. apply bool_decide_eq_true_2. by exists l. Qed.

Lemma starts_inv c l : starts [c] l = true → ∃ l', l = c :: l'.
Proof. intros [l' ->]%bool_decide_eq_true_1. by exists l'. Qed.

Lemma query_text_chars (p : ascii → bool) q : p "?"%char = true → forallb p q = true → forallb p (query_text q) = true.
Proof. destruct q; [done|]. intros Hp Hq. cbn [query_text forallb]. by rewrite Hp. Qed.

Lemma existsb_negb (p : ascii → bool) l : forallb (λ c, negb (p c)) l = true → existsb p l = false.
Proof. rewrite <-not_true_iff_false, existsb_exists, forallb_forall. intros H (c & Hc & Hp). specialize (H c Hc). by rewrite Hp in H. Qed.

(** What no part of a request has: control characters and the fragment mark. *)
Lemma clean_parts scheme host p q : server_ok scheme host → forallb path_char p = true → forallb query_char q = true →
  forallb query_char (scheme ++ ":"%char :: "/"%char :: "/"%char :: host ++ p ++ query_text q) = true.
Proof.
  intros (Hs & _ & [Hh _ _]) Hp Hq.
  assert (forallb query_char p = true) as Hp' by (by apply (forallb_weaken path_char); [vm_compute|]).
  assert (forallb query_char (query_text q) = true) as Hq' by (by apply query_text_chars).
  rewrite forallb_app. apply andb_true_iff. split; [by apply (forallb_weaken is_lower); [vm_compute|]|].
  change (forallb query_char (host ++ p ++ query_text q) = true). rewrite !forallb_app, Hp', Hq'.
  assert (forallb query_char host = true) as Hh' by (by apply (forallb_weaken host_char); [vm_compute|]). by rewrite Hh'.
Qed.

Lemma clean_no_ctl l : forallb query_char l = true → existsb is_ctl l = false.
Proof. intros H. apply existsb_negb. by apply (forallb_weaken query_char); [vm_compute|]. Qed.

Lemma lower_fixed s : forallb is_lower s = true → lower_ascii <$> s = s.
Proof.
  intros Hs. rewrite <-(list_fmap_id s) at 2. apply list_fmap_ext. intros i c Hc.
  apply (is_char_eq (lower_ascii c) c). rewrite forallb_forall in Hs.
  apply (class_incl is_lower (λ c, is_char (lower_ascii c) c)); [by vm_compute|].
  apply Hs, list_elem_of_In. by eapply list_elem_of_lookup_2.
Qed.

(** Parsing what a client is given or makes: without a path, or with one that
    starts with a slash. *)
Lemma Parse_host ip scheme host p q :
  server_ok scheme host → p = [] ∨ starts ["/"%char] p = true → forallb path_char p = true → forallb query_char q = true →
  Parse ip (scheme ++ ":"%char :: "/"%char :: "/"%char :: host ++ p ++ query_text q) =
  set_path p (mkUrl scheme [] None host [] [] false false q [] []).
Proof.
  intros Hs Hp Hpc Hq. pose proof (clean_parts scheme host p q Hs Hpc Hq) as Hclean.
  destruct Hs as (Hsl & Hsn & Hhost). pose proof Hhost as [Hh _ _].
  unfold Parse. rewrite cut_none by (by apply (has_outside _ query_char)). unfold parse_url. rewrite (clean_no_ctl _ Hclean).
  rewrite bool_decide_eq_false_2 by (by destruct scheme). cbn [andb].
  rewrite bool_decide_eq_false_2 by (destruct scheme as [|c [|c' s]]; [done|by intros [=]|by intros [=]]).
  rewrite get_scheme_at by (done || by apply (forallb_weaken is_lower); [vm_compute|]). cbn [mbind option_bind app reverse].
  change (reverse [] ++ scheme) with scheme. rewrite (lower_fixed _ Hsl).
  assert ("/"%char :: "/"%char :: host ++ p ++ query_text q = ("/"%char :: "/"%char :: host ++ p) ++ query_text q) as ->
    by (cbn [app]; by rewrite <-app_assoc).
  rewrite cut_query_text.
  2:{ cbn [has existsb]. change (has "?" (host ++ p) = false). rewrite has_app. apply orb_false_iff. split.
      - by apply (has_outside _ host_char).
      - by apply (has_outside _ path_char). }
  rewrite starts_cons. rewrite (bool_decide_eq_false_2 (scheme = [])) by done. cbn [negb andb orb].
  assert (starts (chars "//") ("/"%char :: "/"%char :: host ++ p) = true) as -> by (apply bool_decide_eq_true_2; by exists (host ++ p)).
  change (drop 2 ("/"%char :: "/"%char :: host ++ p)) with (host ++ p).
  destruct Hp as [->|[p' ->]%starts_inv].
  1: rewrite app_nil_r, cut_none by (by apply (has_outside _ host_char)).
  2: rewrite cut_at by (by apply (has_outside _ host_char)).
  all: unfold parseAuthority; rewrite cut_last_none by (by apply (has_outside _ host_char)); rewrite parseHost_ok by done;
    cbn [mbind option_bind]; by destruct (set_path _ _).
Qed.

Lemma Parse_server ip scheme host p q :
  server_ok scheme host → target_ok p q →
  Parse ip (scheme ++ ":"%char :: "/"%char :: "/"%char :: host ++ p ++ query_text q) =
  set_path p (mkUrl scheme [] None host [] [] false false q [] []).
Proof. intros Hs (Hp & Hpc & Hq). apply Parse_host; auto. Qed.

(** What the agent makes of the target of a request. *)
Lemma ParseRequestURI_target ip p q :
  target_ok p q → ParseRequestURI ip (p ++ query_text q) = set_path p (mkUrl [] [] None [] [] [] false false q [] []).
Proof.
  intros (Hp & Hpc & Hq). unfold ParseRequestURI, parse_url.
  assert (existsb is_ctl (p ++ query_text q) = false) as ->.
  { apply clean_no_ctl. rewrite forallb_app. apply andb_true_iff. split; [by apply (forallb_weaken path_char); [vm_compute|]|].
    by apply query_text_chars. }
  pose proof Hp as [p' Hp']%starts_inv.
  rewrite bool_decide_eq_false_2 by (by rewrite Hp'). cbn [andb].
  rewrite bool_decide_eq_false_2 by (rewrite Hp'; by intros [=]).
  assert (get_scheme (p ++ query_text q) [] (p ++ query_text q) = Some ([], p ++ query_text q)) as -> by (by rewrite Hp').
  cbn [mbind option_bind fmap list_fmap]. rewrite cut_query_text by (by apply (has_outside _ path_char)).
  rewrite Hp. rewrite (bool_decide_eq_true_2 ([] = [])) by done. done.
Qed.

(** ** Paths kept as they were sent *)

Lemma set_path_spec p path u : unescape encodePath p = Some path →
  set_path p u = Some (mkUrl (u_Scheme u) (u_Opaque u) (u_User u) (u_Host u) path
    (if bool_decide (p = escape encodePath path) then [] else p) (u_OmitHost u) (u_ForceQuery u) (u_RawQuery u)
    (u_Fragment u) (u_RawFragment u)).
Proof. intros H. unfold set_path. by rewrite H. Qed.

(** The escaped path of what was parsed is what was parsed. *)
Lemma EscapedPath_set p path u u' :
  forallb path_char p = true → path ≠ ["*"%char] → unescape encodePath p = Some path → set_path p u = Some u' → EscapedPath u' = p.
Proof.
  intros Hc Hstar Hu. rewrite (set_path_spec p path u Hu). intros [= <-]. unfold EscapedPath. cbn [u_RawPath u_Path].
  rewrite (bool_decide_eq_false_2 (path = ["*"%char])) by done. destruct (decide (p = escape encodePath path)) as [He|He].
  { rewrite (bool_decide_eq_true_2 _ He). rewrite bool_decide_eq_true_2 by done. done. }
  rewrite (bool_decide_eq_false_2 _ He). unfold validEncoded. change (forallb _ p) with (forallb path_char p).
  rewrite Hc, Hu, (bool_decide_eq_true_2 (Some path = Some path)) by done.
  rewrite bool_decide_eq_false_2; [done|]. intros ->. injection Hu as <-. done.
Qed.

(** The path of a list of segments. *)
Definition base_of (segs : list text) : text := segs ≫= λ s, "/"%char :: s.

Definition seg_ok (s : text) : Prop := forallb plain s = true ∧ s ≠ [] ∧ s ≠ dot ∧ s ≠ dotdot.

Lemma split_base segs rest : Forall (λ s, has "/" s = false) segs →
  split_at "/" (base_of segs ++ "/"%char :: rest) = [] :: segs ++ split_at "/" rest.
Proof.
  induction 1 as [|s segs Hs _ IH]; [done|]. unfold base_of in *. cbn [mbind list_bind].
  rewrite <-!app_assoc. cbn [app]. change (split_at "/" ("/"%char :: ?l)) with ([] :: split_at "/" l).
  destruct segs as [|s' segs].
  - cbn [mbind list_bind app]. by rewrite split_app.
  - cbn [mbind list_bind app] in IH |- *. rewrite split_app by done. cbn [app] in IH.
    change (split_at "/" ("/"%char :: ?l)) with ([] :: split_at "/" l) in IH. injection IH as IH. by rewrite IH.
Qed.

Definition no_dots (s : text) : Prop := s ≠ dot ∧ s ≠ dotdot.

Lemma resolve_plain elems rest dst : Forall no_dots elems →
  resolve_elems (elems ++ rest) dst false = resolve_elems rest (dst ++ base_of elems) false.
Proof.
  intros He. revert dst. induction He as [|s elems [H1 H2] _ IH]; intros dst; [by cbn; rewrite app_nil_r|].
  cbn [app resolve_elems]. rewrite !bool_decide_eq_false_2 by done. rewrite IH. unfold base_of. cbn [mbind list_bind].
  by rewrite <-app_assoc.
Qed.

(** A relative path below a base that ends with a slash. *)
Lemma resolvePath_below segs more ref :
  Forall seg_ok segs → Forall no_dots more → more ≠ [] → split_at "/" ref = more →
  resolvePath (base_of segs ++ ["/"%char]) ("."%char :: "/"%char :: ref) = base_of segs ++ base_of more.
Proof.
  intros Hs Hm Hne Hsplit. unfold resolvePath. cbn [is_char Ascii.eqb Bool.eqb].
  rewrite cut_last_at by done.
  assert (∃ c l, base_of segs ++ "/"%char :: "."%char :: "/"%char :: ref = c :: l) as (c & l & El) by (by destruct segs; eexists _, _).
  assert (split_at "/" (base_of segs ++ "/"%char :: "."%char :: "/"%char :: ref) = [] :: segs ++ dot :: more) as Hsp.
  { rewrite split_base.
    - change ("."%char :: "/"%char :: ref) with (dot ++ "/"%char :: ref). by rewrite split_app, Hsplit.
    - eapply Forall_impl; [exact Hs|]. intros s (Hp & _). by apply (has_outside _ plain). }
  rewrite El in *. cbv zeta. rewrite Hsp.
  assert (no_dots (default [] (last ([] :: segs ++ dot :: more)))) as [H1 H2].
  { change ([] :: segs ++ dot :: more) with (([] :: segs) ++ dot :: more). rewrite last_app_cons.
    destruct more as [|m more]; [done|]. change (dot :: m :: more) with ([dot] ++ m :: more). rewrite last_app_cons.
    destruct (last (m :: more)) as [x|] eqn:Hlast; [|by apply last_None in Hlast].
    cbn. rewrite Forall_forall in Hm. apply Hm. apply last_Some in Hlast as [l' ->]. set_solver. }
  rewrite !bool_decide_eq_false_2 by done. cbn [orb].
  assert (resolve_elems ([] :: segs ++ dot :: more) [] true = base_of segs ++ base_of more) as ->.
  { cbn [resolve_elems]. rewrite !bool_decide_eq_false_2 by done. cbn [app].
    rewrite resolve_plain by (eapply Forall_impl; [exact Hs|]; by intros s (_ & _ & ? & ?)).
    cbn [resolve_elems]. rewrite (bool_decide_eq_true_2 (dot = dot)) by done.
    rewrite <-(app_nil_r more), resolve_plain by done. cbn [resolve_elems]. by rewrite app_nil_r. }
  destruct (base_of segs ++ base_of more) as [|d r] eqn:Er.
  - apply app_eq_nil in Er as [_ Er]. by destruct more.
  - assert (d = "/"%char) as ->. { destruct segs; [destruct more; [done|]|]; cbn in Er; by injection Er. }
    done.
Qed.

Lemma base_split l : base_of (split_at "/" l) = "/"%char :: l.
Proof.
  induction l as [|d l IH]; [done|]. cbn [split_at]. destruct (is_char "/" d) eqn:Hd.
  - apply is_char_eq in Hd as <-. unfold base_of in *. cbn [mbind list_bind]. by rewrite IH.
  - pose proof (split_nonempty "/" l). destruct (split_at "/" l) as [|seg segs]; [done|]. unfold base_of in *. cbn [mbind list_bind] in *.
    injection IH as IH. cbn [app]. by rewrite IH.
Qed.

Lemma unescape_plain l rest : forallb (λ c, plain c || is_char "/" c) l = true →
  unescape encodePath (l ++ rest) = (λ r, l ++ r) <$> unescape encodePath rest.
Proof.
  induction l as [|c l IH]; [by rewrite option_fmap_id|]. intros [Hc Hl]%andb_true_iff. cbn [app unescape].
  assert (is_char "%" c = false) as ->.
  { apply negb_true_iff, (class_incl (λ c, plain c || is_char "/" c) (λ c, negb (is_char "%" c))); [by vm_compute|done]. }
  rewrite (bool_decide_eq_false_2 (encodePath = encodeQueryComponent)), andb_false_r by done.
  rewrite (bool_decide_eq_false_2 (encodePath = encodeHost)) by done. cbn [andb]. rewrite (IH Hl). by destruct (unescape encodePath rest).
Qed.

Lemma base_plain segs : Forall seg_ok segs → forallb (λ c, plain c || is_char "/" c) (base_of segs) = true.
Proof.
  induction 1 as [|s segs (Hs & _) _ IH]; [done|]. unfold base_of in *. cbn [mbind list_bind]. cbn [forallb app].
  change (forallb (λ c, plain c || is_char "/" c) (s ++ (segs ≫= λ s, "/"%char :: s)) = true). rewrite forallb_app, IH, andb_true_r.
  by apply (forallb_weaken plain); [vm_compute|].
Qed.

(** The address of a server: scheme, host and base path. *)
Definition server_url (scheme host : text) (segs : list text) : url :=
  mkUrl scheme [] None host (base_of segs ++ ["/"%char]) [] false false [] [] [].
Definition server_text (scheme host : text) (segs : list text) : text :=
  scheme ++ ":"%char :: "/"%char :: "/"%char :: host ++ base_of segs ++ ["/"%char].

Lemma path_chars_plain l : forallb (λ c, plain c || is_char "/" c) l = true → forallb path_char l = true.
Proof. by apply forallb_weaken; vm_compute. Qed.

Lemma escape_plain l : forallb (λ c, plain c || is_char "/" c) l = true → escape encodePath l = l.
Proof.
  induction l as [|c l IH]; [done|]. intros [Hc Hl]%andb_true_iff. unfold escape in *. cbn [mbind list_bind]. rewrite (IH Hl).
  unfold escape_char. assert (shouldEscape c encodePath = false) as ->; [|done].
  apply negb_true_iff, (class_incl (λ c, plain c || is_char "/" c) (λ c, negb (shouldEscape c encodePath))); [by vm_compute|done].
Qed.

Lemma Parse_server_text ip scheme host segs : server_ok scheme host → Forall seg_ok segs →
  Parse ip (server_text scheme host segs) = Some (server_url scheme host segs).
Proof.
  intros Hs Hsegs. assert (forallb (λ c, plain c || is_char "/" c) (base_of segs ++ ["/"%char]) = true) as Hp
    by (by rewrite forallb_app, base_plain).
  pose proof (Parse_server ip scheme host (base_of segs ++ ["/"%char]) [] Hs) as HP. cbn [query_text] in HP. rewrite app_nil_r in HP.
  unfold server_text. rewrite HP.
  - rewrite (set_path_spec _ (base_of segs ++ ["/"%char])).
    + cbn. by rewrite escape_plain, bool_decide_eq_true_2.
    + pose proof (unescape_plain (base_of segs ++ ["/"%char]) [] Hp) as HU. rewrite app_nil_r in HU. rewrite HU. cbn. by rewrite app_nil_r.
  - split_and!; [|by apply path_chars_plain|done]. destruct segs as [|s segs]; apply starts_cons.
Qed.

Lemma Parse_relative ip tail : forallb path_char tail = true →
  Parse ip ("."%char :: "/"%char :: tail) = set_path ("."%char :: "/"%char :: tail) empty_url.
Proof.
  intros Ht. assert (forallb path_char ("."%char :: "/"%char :: tail) = true) as Hp by (cbn [forallb]; by rewrite Ht).
  unfold Parse. rewrite cut_none by (by apply (has_outside _ path_char)). unfold parse_url.
  rewrite clean_no_ctl by (by apply (forallb_weaken path_char); [vm_compute|]).
  rewrite bool_decide_eq_false_2 by done. cbn [andb]. rewrite bool_decide_eq_false_2 by done.
  change (get_scheme ("."%char :: "/"%char :: tail) [] ("."%char :: "/"%char :: tail)) with (Some (@nil ascii, "."%char :: "/"%char :: tail)).
  cbn [mbind option_bind fmap list_fmap].
  pose proof (cut_query_text ("."%char :: "/"%char :: tail) []) as HQ. cbn [query_text] in HQ. rewrite app_nil_r in HQ.
  rewrite HQ by (by apply (has_outside _ path_char)). clear HQ.
  assert (starts ["/"%char] ("."%char :: "/"%char :: tail) = false) as -> by (apply bool_decide_eq_false_2; by intros [l [=]]).
  assert (starts (chars "//") ("."%char :: "/"%char :: tail) = false) as -> by (apply bool_decide_eq_false_2; by intros [l [=]]).
  rewrite !(bool_decide_eq_true_2 (@nil ascii = [])) by done. cbn [negb andb orb]. rewrite andb_false_r.
  assert (has ":" (cut "/" ("."%char :: "/"%char :: tail)).1 = false) as -> by done.
  unfold empty_url. by destruct (set_path _ _).
Qed.

(** Resolving a relative path against a server's address. *)
Lemma ParseRef_below ip scheme host segs tail dec :
  Forall seg_ok segs → forallb path_char tail = true → Forall no_dots (split_at "/" tail) → unescape encodePath tail = Some dec →
  ParseRef ip (server_url scheme host segs) ("."%char :: "/"%char :: tail) =
  set_path (base_of segs ++ "/"%char :: tail) (mkUrl scheme [] None host [] [] false false [] [] []).
Proof.
  intros Hsegs Ht Hd Hu. unfold ParseRef. rewrite Parse_relative by done.
  assert (unescape encodePath ("."%char :: "/"%char :: tail) = Some ("."%char :: "/"%char :: dec)) as Hr.
  { change ("."%char :: "/"%char :: tail) with (["."%char; "/"%char] ++ tail). by rewrite unescape_plain, Hu. }
  destruct (set_path ("."%char :: "/"%char :: tail) empty_url) as [ref|] eqn:Hset;
    [|by rewrite (set_path_spec _ _ _ Hr) in Hset].
  assert (EscapedPath ref = "."%char :: "/"%char :: tail) as HE.
  { refine (EscapedPath_set _ _ _ _ _ _ Hr Hset); [cbn [forallb]; by rewrite Ht|by intros [=]]. }
  rewrite (set_path_spec _ _ _ Hr) in Hset. injection Hset as <-. cbn [mbind option_bind]. unfold ResolveReference.
  cbn [u_Scheme u_Opaque u_User u_Host u_Path u_ForceQuery u_RawQuery u_Fragment u_RawFragment u_OmitHost empty_url].
  rewrite !(bool_decide_eq_true_2 (@nil ascii = [])), !(bool_decide_eq_true_2 (@None (text * option text) = None)) by done.
  rewrite !(bool_decide_eq_false_2 ("."%char :: "/"%char :: dec = [])) by done. cbn [negb orb andb].
  unfold empty_url in HE. cbn [u_Scheme u_Opaque u_User u_Host u_Path u_ForceQuery u_RawQuery u_Fragment u_RawFragment u_OmitHost] in HE.
  rewrite HE. assert (EscapedPath (server_url scheme host segs) = base_of segs ++ ["/"%char]) as ->.
  { unfold EscapedPath, server_url. cbn [u_RawPath u_Path]. rewrite (bool_decide_eq_true_2 (@nil ascii = [])) by done. cbn [negb andb].
    rewrite bool_decide_eq_false_2; [by rewrite escape_plain by by rewrite forallb_app, base_plain|]. by destruct segs as [|s segs]; intros [=]. }
  rewrite (resolvePath_below segs (split_at "/" tail) tail) by (done || apply split_nonempty). rewrite base_split.
  unfold set_path_or_keep.
  assert (unescape encodePath (base_of segs ++ "/"%char :: tail) = Some (base_of segs ++ "/"%char :: dec)) as HU.
  { rewrite unescape_plain by by apply base_plain. change ("/"%char :: tail) with (["/"%char] ++ tail). by rewrite unescape_plain, Hu. }
  by rewrite !(set_path_spec _ _ _ HU).
Qed.

(** The text of such a URL. *)
Lemma URL_String_server scheme host q u p path :
  scheme ≠ [] → forallb host_char host = true → host ≠ [] → starts ["/"%char] p = true → forallb path_char p = true →
  unescape encodePath p = Some path → path ≠ ["*"%char] →
  set_path p (mkUrl scheme [] None host [] [] false false q [] []) = Some u →
  URL_String u = scheme ++ ":"%char :: "/"%char :: "/"%char :: host ++ p ++ query_text q ∧ RequestURI u = p ++ query_text q.
Proof.
  intros Hs Hh Hhn Hp Hpc Hu Hstar Hset. pose proof (EscapedPath_set p path _ u Hpc Hstar Hu Hset) as HE.
  rewrite (set_path_spec p path _ Hu) in Hset. injection Hset as <-.
  assert (escape encodeHost host = host) as Hhost.
  { clear -Hh. induction host as [|c l IH]; [done|]. apply andb_true_iff in Hh as [Hc Hl]. unfold escape in *. cbn [mbind list_bind].
    rewrite (IH Hl). unfold escape_char. assert (shouldEscape c encodeHost = false) as ->; [|done].
    apply negb_true_iff, (class_incl host_char (λ c, negb (shouldEscape c encodeHost))); [by vm_compute|done]. }
  assert (∀ w, query_suffix (mkUrl scheme [] None host path w false false q [] []) = query_text q) as Hq by (intros w; by destruct q).
  unfold URL_String, RequestURI. rewrite HE. cbn [u_Scheme u_Opaque u_User u_Host u_Path u_OmitHost u_Fragment u_RawPath u_ForceQuery u_RawQuery u_RawFragment] in *.
  rewrite Hq, Hp, Hhost. rewrite (bool_decide_eq_false_2 (scheme = [])), (bool_decide_eq_false_2 (host = [])) by done.
  rewrite !(bool_decide_eq_true_2 (@nil ascii = [])) by done. cbn [negb orb andb]. rewrite andb_false_r. cbn [andb].
  rewrite bool_decide_eq_false_2 by (by destruct scheme). cbn [andb app]. pose proof Hp as [p' ->]%starts_inv. split.
  - destruct scheme as [|c s]; [done|]. rewrite <-!app_assoc, !app_nil_r. cbn [app]. by rewrite <-!app_assoc.
  - done.
Qed.

(** ** Parameters are read back *)

(** A parameter as it stands in a query. *)
Definition param_text (kv : text * text) : text := kv.1 ++ "="%char :: QueryEscape kv.2.

Definition key_ok (k : text) : Prop := forallb plain k = true ∧ k ≠ [].

(** What an escaped component consists of. *)
Definition component_char (c : ascii) : bool := plain c || in_set "+%" c.

Lemma query_escaped v : forallb component_char (QueryEscape v) = true.
Proof. apply escape_chars. by vm_compute. Qed.

Lemma unescape_key k : forallb plain k = true → QueryUnescape k = Some k.
Proof.
  unfold QueryUnescape. induction k as [|c k IH]; [done|]. intros [Hc Hk]%andb_true_iff. cbn [unescape].
  assert (negb (is_char "%" c) && negb (is_char "+" c) = true) as [H1%negb_true_iff H2%negb_true_iff]%andb_true_iff.
  { apply (class_incl plain (λ c, negb (is_char "%" c) && negb (is_char "+" c))); [by vm_compute|done]. }
  rewrite H1, H2. cbn [andb]. rewrite (bool_decide_eq_false_2 (encodeQueryComponent = encodeHost)) by done. cbn [andb]. by rewrite (IH Hk).
Qed.

Lemma param_has c kv : key_ok kv.1 → c ≠ "="%char → component_char c = false → has c (param_text kv) = false.
Proof.
  intros [Hk _] Hc Hcc. unfold param_text. rewrite has_app. cbn. apply orb_false_iff. split.
  - apply (has_outside _ plain); [|done]. unfold component_char in Hcc. by apply orb_false_iff in Hcc as [? _].
  - apply orb_false_iff. split; [by apply Ascii.eqb_neq|]. apply (has_outside _ component_char); [done|apply query_escaped].
Qed.

Lemma query_pair_param kv : key_ok kv.1 → query_pair (param_text kv) = Some kv.
Proof.
  intros Hk. pose proof Hk as [Hp Hn]. unfold query_pair. rewrite (param_has ";" kv Hk) by done.
  rewrite bool_decide_eq_false_2 by (unfold param_text; by destruct kv.1). cbn [orb].
  unfold param_text. rewrite cut_at by (by apply (has_outside _ plain)). rewrite (unescape_key _ Hp). cbn [mbind option_bind default from_option id].
  rewrite unescape_query. cbn. by destruct kv.
Qed.

Lemma split_join c l : l ≠ [] → Forall (λ x, has c x = false) l → split_at c (join_with c l) = l.
Proof.
  intros Hn Hl. induction Hl as [|x l Hx Hl IH]; [done|]. destruct l as [|y l]; [by apply split_none|].
  cbn [join_with] in *. rewrite split_app by done. by rewrite IH.
Qed.

Lemma Query_params u (kvs : list (text * text)) : Forall (λ kv, key_ok kv.1) kvs →
  u_RawQuery u = join_with "&" (param_text <$> kvs) → Query u = kvs.
Proof.
  intros Hk Hq. unfold Query. rewrite Hq. destruct kvs as [|kv kvs]; [done|]. rewrite split_join; [|done|].
  - clear Hq. induction Hk as [|x l Hx Hl IH]; [done|]. cbn [fmap list_fmap omap list_omap]. rewrite query_pair_param by done. f_equal.
    exact IH.
  - apply Forall_fmap. eapply Forall_impl; [exact Hk|]. intros x Hx. by apply param_has.
Qed.

Lemma params_chars kvs : Forall (λ kv, key_ok kv.1) kvs → forallb query_char (join_with "&" (param_text <$> kvs)) = true.
Proof.
  intros Hk. assert (∀ kv, key_ok kv.1 → forallb query_char (param_text kv) = true) as Hp.
  { intros kv [Hp _]. unfold param_text. rewrite forallb_app. cbn [forallb].
    assert (forallb query_char kv.1 = true) as -> by (by apply (forallb_weaken plain); [vm_compute|]).
    assert (forallb query_char (QueryEscape kv.2) = true) as -> by (apply (forallb_weaken component_char); [by vm_compute|apply query_escaped]).
    done. }
  induction Hk as [|kv l Hx Hl IH]; [done|]. destruct l as [|kv' l]; [by apply Hp|]. cbn [fmap list_fmap join_with] in *.
  rewrite forallb_app. cbn [forallb]. rewrite (Hp _ Hx). done.
Qed.
