(* ===== verification/Sets.v ===== *)
(** * Resource sets and key locks

    [Module ResourceSet] models the bounded LRU ledger of
    internal/routing/resourceset.go (the deny list and the claimed-resources
    set), down to the element handles of [container/list];
    [Module LRU] is its abstract specification, a list of ids with the most
    recently used one first, and the refinement theorem relates every
    sequence of operations on the two.  [Module KeyLock] models the
    non-evicting in-flight lock of internal/routing/keylock.go. *)

From S2P Require Import Prelude.

(** ** Abstract specification *)

Module LRU.

(** Ids, most recently used first. *)
Definition remove (id : string) (l : list string) : list string :=
  filter (λ x, x ≠ id) l.

Definition insert (cap : nat) (id : string) (l : list string) : bool * list string :=
  if decide (id ∈ l) then (false, id :: remove id l)
  else (true, id :: take (cap - 1) l).

Definition contains (id : string) (l : list string) : bool * list string :=
  if decide (id ∈ l) then (true, id :: remove id l) else (false, l).

Definition consume (id : string) (l : list string) : bool * list string :=
  if decide (id ∈ l) then (true, remove id l) else (false, l).

Lemma remove_not_elem id l : id ∉ l → remove id l = l.
Proof.
  induction l as [|x l IH]; [done|]. intros H. unfold remove in *.
  rewrite filter_cons_True by set_solver. f_equal. apply IH. set_solver.
Qed.

Lemma elem_of_remove x id l : x ∈ remove id l ↔ x ∈ l ∧ x ≠ id.
Proof. unfold remove. rewrite list_elem_of_filter. tauto. Qed.

Lemma remove_NoDup id l : NoDup l → NoDup (remove id l).
Proof. apply NoDup_filter. Qed.

Lemma length_remove_le id l : (length (remove id l) ≤ length l)%nat.
Proof. apply length_filter. Qed.

Lemma length_remove id l :
  NoDup l → id ∈ l → S (length (remove id l)) = length l.
Proof.
  intros Hnd. induction Hnd as [|x l Hx Hnd IH]; [by intros ?%elem_of_nil|intros Hin].
  unfold remove in *. destruct (decide (x = id)) as [->|Hne].
  - rewrite filter_cons_False by naive_solver.
    fold (remove id l). by rewrite remove_not_elem by set_solver.
  - rewrite filter_cons_True by done. simpl. rewrite IH; [done|set_solver].
Qed.

End LRU.

(** ** internal/routing/resourceset.go *)

Module ResourceSet.

(** [items] maps an id to the handle of its list element; [order] is the
    doubly linked list, front first, each element a handle and its value;
    [next] is the handle [PushFront] allocates next. *)
Record t := mk {
  maxSize : Z;
  items : gmap string nat;
  order : list (nat * string);
  next : nat
}.

(** [container/list] operations on [order]. *)
Definition list_remove (e : nat) (l : list (nat * string)) : list (nat * string) :=
  filter (λ p, p.1 ≠ e) l.
Definition list_move_to_front (e : nat) (l : list (nat * string)) : list (nat * string) :=
  match List.find (λ p, bool_decide (p.1 = e)) l with
  | Some p => p :: list_remove e l
  | None => l
  end.

Definition NewResourceSet (maxSize : Z) : t :=
  mk (if maxSize <=? 0 then 1 else maxSize) ∅ [] 0.

(** Returns whether the entry was newly added.  [Back] of an empty list is
    nil and removing it would panic; [insert_back] shows the branch is never
    reached. *)
Definition insert (resourceID : string) (d : t) : bool * t :=
  match items d !! resourceID with
  | Some elem =>
      (false, mk (maxSize d) (items d) (list_move_to_front elem (order d)) (next d))
  | None =>
      let d' :=
        if maxSize d <=? Z.of_nat (size (items d)) then
          match last (order d) with
          | Some back =>
              mk (maxSize d) (delete back.2 (items d))
                 (list_remove back.1 (order d)) (next d)
          | None => d
          end
        else d in
      (true, mk (maxSize d') (<[resourceID := next d']> (items d'))
                ((next d', resourceID) :: order d') (S (next d')))
  end.

Definition Add (resourceID : string) (d : t) : t := (insert resourceID d).2.

Definition AddIfAbsent (resourceID : string) (d : t) : bool * t := insert resourceID d.

Definition Contains (resourceID : string) (d : t) : bool * t :=
  match items d !! resourceID with
  | None => (false, d)
  | Some elem =>
      (true, mk (maxSize d) (items d) (list_move_to_front elem (order d)) (next d))
  end.

Definition Consume (resourceID : string) (d : t) : bool * t :=
  match items d !! resourceID with
  | None => (false, d)
  | Some elem =>
      (true, mk (maxSize d) (delete resourceID (items d))
                (list_remove elem (order d)) (next d))
  end.

Definition Remove (resourceID : string) (d : t) : t :=
  match items d !! resourceID with
  | None => d
  | Some elem =>
      mk (maxSize d) (delete resourceID (items d)) (list_remove elem (order d)) (next d)
  end.

Definition Len (d : t) : Z := Z.of_nat (size (items d)).

(** *** Representation invariant and abstraction function *)

Record wf (d : t) : Prop := {
  wf_max : 1 ≤ maxSize d;
  wf_handles : NoDup (order d).*1;
  wf_items : ∀ s e, items d !! s = Some e ↔ (e, s) ∈ order d;
  wf_fresh : ∀ e s, (e, s) ∈ order d → (e < next d)%nat;
  wf_bound : Z.of_nat (length (order d)) ≤ maxSize d
}.

Definition abs (d : t) : list string := (order d).*2.
Definition cap (d : t) : nat := Z.to_nat (maxSize d).

Section Representation.
Context (d : t) (Hwf : wf d).

Lemma order_fst_inj e s s' : (e, s) ∈ order d → (e, s') ∈ order d → s = s'.
Proof.
  intros H1 H2. pose proof (wf_handles d Hwf) as Hnd.
  apply list_elem_of_lookup in H1 as [i Hi]. apply list_elem_of_lookup in H2 as [j Hj].
  assert (i = j) as ->; [|congruence].
  eapply NoDup_lookup; [done| |]; rewrite list_lookup_fmap;
    [by rewrite Hi|by rewrite Hj].
Qed.

Lemma order_snd_inj e e' s : (e, s) ∈ order d → (e', s) ∈ order d → e = e'.
Proof. rewrite <-!(wf_items d Hwf). congruence. Qed.

Lemma elem_of_abs s : s ∈ abs d ↔ is_Some (items d !! s).
Proof.
  unfold abs. rewrite list_elem_of_fmap. split.
  - intros ([e s'] & -> & He). exists e. by apply (wf_items d Hwf).
  - intros [e He]. exists (e, s). by rewrite <-(wf_items d Hwf).
Qed.

Lemma abs_NoDup : NoDup (abs d).
Proof.
  apply NoDup_fmap_2_strong; [|apply (NoDup_fmap_1 fst), (wf_handles d Hwf)].
  intros [e s] [e' s'] H1 H2 ?. simplify_eq/=. f_equal. by eapply order_snd_inj.
Qed.

Lemma size_items : size (items d) = length (order d).
Proof.
  rewrite <-(length_fmap snd (order d)). fold (abs d).
  rewrite <-size_dom, <-(size_list_to_set (C:=gset string)) by apply abs_NoDup.
  f_equal. apply set_eq. intros s.
  by rewrite elem_of_dom, elem_of_list_to_set, elem_of_abs.
Qed.

Lemma find_handle e s :
  (e, s) ∈ order d →
  List.find (λ p, bool_decide (p.1 = e)) (order d) = Some (e, s).
Proof.
  intros Hin. destruct (List.find _ _) as [[e' s']|] eqn:Hf.
  - apply find_Some_elem in Hf as [Hin' Heq%bool_decide_eq_true].
    simpl in Heq. subst e'. by rewrite (order_fst_inj e s s').
  - eapply find_None_elem in Hf; [|exact Hin]. by apply bool_decide_eq_false in Hf.
Qed.

(** Removing a list element by its handle removes its id. *)
Lemma abs_list_remove e s :
  (e, s) ∈ order d → (list_remove e (order d)).*2 = LRU.remove s (abs d).
Proof.
  intros Hin. unfold abs, list_remove, LRU.remove.
  assert (H : Forall (λ p, p.1 ≠ e ↔ p.2 ≠ s) (order d)).
  { apply Forall_forall. intros [e' s'] Hp. simpl. split; intros Hne ->; apply Hne.
    - by eapply order_snd_inj.
    - by eapply order_fst_inj. }
  clear Hin. induction H as [|[e' s'] l Hp _ IH]; [done|].
  rewrite fmap_cons, !filter_cons. simpl in *. rewrite <-IH.
  by repeat case_decide; try naive_solver.
Qed.

Lemma wf_list_remove e s :
  (e, s) ∈ order d →
  wf (mk (maxSize d) (delete s (items d)) (list_remove e (order d)) (next d)).
Proof.
  intros Hin. unfold list_remove. split; simpl.
  - apply (wf_max d Hwf).
  - pose proof (wf_handles d Hwf) as H. clear Hin. induction (order d) as [|p l IH]; [done|].
    simpl in H. apply NoDup_cons in H as [Hp H].
    rewrite filter_cons. case_decide; [|by apply IH]. simpl. apply NoDup_cons.
    split; [|by apply IH]. contradict Hp. apply list_elem_of_fmap in Hp as (q&->&Hq).
    apply list_elem_of_filter in Hq as [_ Hq]. by apply list_elem_of_fmap_2.
  - intros s' e'. rewrite list_elem_of_filter, <-(wf_items d Hwf). simpl.
    destruct (decide (s = s')) as [<-|Hne].
    + rewrite lookup_delete_eq. split; [done|]. intros [Hne He].
      apply (wf_items d Hwf) in He. destruct Hne. by eapply order_snd_inj.
    + rewrite lookup_delete_ne by done. split; [|tauto]. intros He. split; [|done].
      intros ->. apply Hne, (order_fst_inj e); [done|]. by apply (wf_items d Hwf).
  - intros e' s'. rewrite list_elem_of_filter. intros [_ ?]. by eapply (wf_fresh d Hwf).
  - pose proof (wf_bound d Hwf). pose proof (length_filter (λ p, p.1 ≠ e) (order d)). lia.
Qed.

(** Moving an element to the front. *)
Lemma abs_move e s :
  (e, s) ∈ order d →
  (list_move_to_front e (order d)).*2 = s :: LRU.remove s (abs d).
Proof.
  intros Hin. unfold list_move_to_front. rewrite (find_handle e s) by done.
  simpl. f_equal. by apply abs_list_remove.
Qed.

Lemma wf_move e s :
  (e, s) ∈ order d →
  wf (mk (maxSize d) (items d) (list_move_to_front e (order d)) (next d)).
Proof.
  intros Hin. pose proof (wf_list_remove e s Hin) as [_ Hh _ _ _]. simpl in *.
  unfold list_move_to_front. rewrite (find_handle e s) by done.
  assert (Hel : ∀ e' s', (e', s') ∈ (e, s) :: list_remove e (order d) ↔ (e', s') ∈ order d).
  { intros e' s'. unfold list_remove. rewrite elem_of_cons, list_elem_of_filter. simpl.
    split; [intros [?|[_ ?]]; by simplify_eq|]. intros Hp.
    destruct (decide (e' = e)) as [->|]; [left|by right].
    by rewrite (order_fst_inj e s' s). }
  split; simpl.
  - apply (wf_max d Hwf).
  - apply NoDup_cons. split; [|done]. unfold list_remove.
    intros (q&He&Hq)%list_elem_of_fmap. apply list_elem_of_filter in Hq as [Hq _].
    by rewrite He in Hq.
  - intros s' e'. by rewrite Hel, (wf_items d Hwf).
  - intros e' s' Hp. apply Hel in Hp. by eapply (wf_fresh d Hwf).
  - pose proof (wf_bound d Hwf). pose proof abs_NoDup as Hnd.
    assert (Hs : s ∈ abs d) by (apply list_elem_of_fmap; by exists (e, s)).
    pose proof (LRU.length_remove s (abs d) Hnd Hs) as Hl.
    rewrite <-(abs_list_remove e s), !length_fmap in Hl by done.
    unfold abs in Hl. rewrite length_fmap in Hl. lia.
Qed.

(** Pushing a fresh id below capacity. *)
Lemma wf_push s :
  items d !! s = None → Z.of_nat (length (order d)) < maxSize d →
  wf (mk (maxSize d) (<[s := next d]> (items d)) ((next d, s) :: order d) (S (next d))).
Proof.
  intros Hs Hlt. split; simpl.
  - apply (wf_max d Hwf).
  - apply NoDup_cons. split; [|apply (wf_handles d Hwf)].
    intros ([e s'] & He & Hp)%list_elem_of_fmap. apply (wf_fresh d Hwf) in Hp. simpl in He. lia.
  - intros s' e'. rewrite elem_of_cons. destruct (decide (s = s')) as [<-|Hne].
    + rewrite lookup_insert_eq. split; [intros; left; congruence|].
      intros [?|He]; [congruence|]. apply (wf_items d Hwf) in He. congruence.
    + rewrite lookup_insert_ne, (wf_items d Hwf) by done. split; [tauto|].
      intros [?|?]; [congruence|done].
  - intros e s'. rewrite elem_of_cons. intros [?|Hp]; [simplify_eq; lia|].
    apply (wf_fresh d Hwf) in Hp. lia.
  - lia.
Qed.

End Representation.

(** The element [insert] evicts exists: the nil dereference of an empty
    [Back()] cannot happen. *)
Lemma insert_back d :
  wf d → maxSize d ≤ Z.of_nat (size (items d)) → is_Some (last (order d)).
Proof.
  intros Hwf H. rewrite (size_items d Hwf) in H. pose proof (wf_max d Hwf).
  apply last_is_Some. intros Hnil. rewrite Hnil in H. simpl in H. lia.
Qed.

Lemma remove_last l p : NoDup (l ++ [p]).*1 → list_remove p.1 (l ++ [p]) = l.
Proof.
  intros Hnd. unfold list_remove. rewrite filter_app, filter_cons_False by naive_solver.
  rewrite filter_nil, app_nil_r. rewrite fmap_app in Hnd.
  apply NoDup_app in Hnd as (_ & Hdis & _). induction l as [|q l IH]; [done|].
  rewrite filter_cons_True.
  - f_equal. apply IH. set_solver.
  - intros Heq. eapply (Hdis q.1); [by left|]. rewrite Heq. by left.
Qed.

(** Evicting the back of a full list keeps the [cap - 1] most recent ids. *)
Lemma evict_back d back :
  wf d → last (order d) = Some back → maxSize d ≤ Z.of_nat (size (items d)) →
  (list_remove back.1 (order d)).*2 = take (cap d - 1) (abs d) ∧
  Z.of_nat (length (list_remove back.1 (order d))) < maxSize d.
Proof.
  intros Hwf Hlast Hfull. rewrite (size_items d Hwf) in Hfull.
  pose proof (wf_bound d Hwf) as Hb. pose proof (wf_max d Hwf) as Hm.
  pose proof (wf_handles d Hwf) as Hnd.
  apply last_Some in Hlast as [l Hl]. rewrite Hl in Hnd. unfold abs, cap. rewrite Hl in *.
  rewrite length_app in *. simpl in *. rewrite (remove_last l back Hnd), fmap_app.
  split; [|lia]. rewrite take_app_le by (rewrite length_fmap; lia).
  rewrite take_ge; [done|]. rewrite length_fmap. lia.
Qed.

Lemma insert_refines d id :
  wf d →
  (insert id d).1 = (LRU.insert (cap d) id (abs d)).1 ∧
  abs (insert id d).2 = (LRU.insert (cap d) id (abs d)).2 ∧
  wf (insert id d).2 ∧ maxSize (insert id d).2 = maxSize d.
Proof.
  intros Hwf. unfold insert, LRU.insert.
  destruct (items d !! id) as [e|] eqn:Hid.
  - rewrite decide_True by (apply (elem_of_abs d Hwf); eauto).
    apply (wf_items d Hwf) in Hid. simpl. split_and!; try done.
    + by apply (abs_move d Hwf).
    + by apply (wf_move d Hwf e id).
  - rewrite decide_False by (rewrite (elem_of_abs d Hwf), Hid; by intros [? ?]).
    split; [done|]. simpl. destruct (Z.leb_spec (maxSize d) (Z.of_nat (size (items d)))) as [Hfull|Hroom].
    + destruct (insert_back d Hwf Hfull) as [back Hback]. rewrite Hback.
      destruct (evict_back d back Hwf Hback Hfull) as [Habs Hlt].
      assert (Hin : (back.1, back.2) ∈ order d).
      { destruct back. apply last_Some in Hback as [l ->]. set_solver. }
      pose proof (wf_list_remove d Hwf _ _ Hin) as Hwf'. simpl. split_and!; [|..|done].
      * by rewrite <-Habs.
      * apply (wf_push _ Hwf'); simpl; [by rewrite lookup_delete_None; right|done].
    + rewrite (size_items d Hwf) in Hroom. split_and!; [|..|done].
      * unfold abs at 1. simpl. f_equal. symmetry. apply take_ge.
        unfold abs, cap. rewrite length_fmap. lia.
      * by apply (wf_push d Hwf).
Qed.

Lemma contains_refines d id :
  wf d →
  (Contains id d).1 = (LRU.contains id (abs d)).1 ∧
  abs (Contains id d).2 = (LRU.contains id (abs d)).2 ∧
  wf (Contains id d).2 ∧ maxSize (Contains id d).2 = maxSize d.
Proof.
  intros Hwf. unfold Contains, LRU.contains. destruct (items d !! id) as [e|] eqn:Hid.
  - rewrite decide_True by (apply (elem_of_abs d Hwf); eauto).
    apply (wf_items d Hwf) in Hid. simpl. split_and!; try done.
    + by apply (abs_move d Hwf).
    + by apply (wf_move d Hwf e id).
  - by rewrite decide_False by (rewrite (elem_of_abs d Hwf), Hid; by intros [? ?]).
Qed.

Lemma consume_refines d id :
  wf d →
  (Consume id d).1 = (LRU.consume id (abs d)).1 ∧
  abs (Consume id d).2 = (LRU.consume id (abs d)).2 ∧
  wf (Consume id d).2 ∧ maxSize (Consume id d).2 = maxSize d.
Proof.
  intros Hwf. unfold Consume, LRU.consume. destruct (items d !! id) as [e|] eqn:Hid.
  - rewrite decide_True by (apply (elem_of_abs d Hwf); eauto).
    apply (wf_items d Hwf) in Hid. simpl. split_and!; try done.
    + by apply (abs_list_remove d Hwf).
    + by apply (wf_list_remove d Hwf).
  - by rewrite decide_False by (rewrite (elem_of_abs d Hwf), Hid; by intros [? ?]).
Qed.

Lemma Remove_Consume id d : Remove id d = (Consume id d).2.
Proof. unfold Remove, Consume. by case_match. Qed.

Lemma Len_abs d : wf d → Len d = Z.of_nat (length (abs d)).
Proof. intros Hwf. unfold Len, abs. by rewrite (size_items d Hwf), length_fmap. Qed.

Lemma NewResourceSet_wf n : wf (NewResourceSet n).
Proof.
  unfold NewResourceSet. split; simpl.
  - case_match; breflect; lia.
  - constructor.
  - intros s e. rewrite lookup_empty. split; [done|by intros ?%elem_of_nil].
  - by intros e s ?%elem_of_nil.
  - case_match; breflect; lia.
Qed.

Lemma NewResourceSet_cap n : cap (NewResourceSet n) = Z.to_nat (Z.max 1 n).
Proof.
  unfold cap, NewResourceSet. simpl. destruct (Z.leb_spec n 0); [|f_equal; lia].
  by replace (Z.max 1 n) with 1 by lia.
Qed.

(** *** Sequences of operations *)

Inductive op :=
  | OAdd (id : string) | OAddIfAbsent (id : string) | OContains (id : string)
  | OConsume (id : string) | ORemove (id : string) | OLen.

Inductive resp := RUnit | RBool (b : bool) | RLen (n : Z).

Definition step (o : op) (d : t) : resp * t :=
  match o with
  | OAdd id => (RUnit, Add id d)
  | OAddIfAbsent id => let '(b, d') := AddIfAbsent id d in (RBool b, d')
  | OContains id => let '(b, d') := Contains id d in (RBool b, d')
  | OConsume id => let '(b, d') := Consume id d in (RBool b, d')
  | ORemove id => (RUnit, Remove id d)
  | OLen => (RLen (Len d), d)
  end.

Definition spec_step (cap : nat) (o : op) (l : list string) : resp * list string :=
  match o with
  | OAdd id => (RUnit, (LRU.insert cap id l).2)
  | OAddIfAbsent id => let '(b, l') := LRU.insert cap id l in (RBool b, l')
  | OContains id => let '(b, l') := LRU.contains id l in (RBool b, l')
  | OConsume id => let '(b, l') := LRU.consume id l in (RBool b, l')
  | ORemove id => (RUnit, (LRU.consume id l).2)
  | OLen => (RLen (Z.of_nat (length l)), l)
  end.

(** Responses of a sequence of operations, and the final state. *)
Fixpoint run_ops {S} (f : op → S → resp * S) (os : list op) (s : S) : list resp * S :=
  match os with
  | [] => ([], s)
  | o :: os' =>
      let '(r, s') := f o s in
      let '(rs, s'') := run_ops f os' s' in (r :: rs, s'')
  end.

Lemma step_refines o d :
  wf d →
  (step o d).1 = (spec_step (cap d) o (abs d)).1 ∧
  abs (step o d).2 = (spec_step (cap d) o (abs d)).2 ∧
  wf (step o d).2 ∧ maxSize (step o d).2 = maxSize d.
Proof.
  intros Hwf. destruct o as [id|id|id|id|id|]; simpl.
  - destruct (insert_refines d id Hwf) as (_ & ? & ? & ?). done.
  - destruct (insert_refines d id Hwf) as (Hr & ? & ? & ?). unfold AddIfAbsent.
    destruct (insert id d), (LRU.insert _ _ _). by simplify_eq/=.
  - destruct (contains_refines d id Hwf) as (Hr & ? & ? & ?).
    destruct (Contains id d), (LRU.contains _ _). by simplify_eq/=.
  - destruct (consume_refines d id Hwf) as (Hr & ? & ? & ?).
    destruct (Consume id d), (LRU.consume _ _). by simplify_eq/=.
  - rewrite Remove_Consume. destruct (consume_refines d id Hwf) as (_ & ? & ? & ?). done.
  - by rewrite Len_abs.
Qed.

Lemma run_refines os d :
  wf d →
  (run_ops step os d).1 = (run_ops (spec_step (cap d)) os (abs d)).1 ∧
  abs (run_ops step os d).2 = (run_ops (spec_step (cap d)) os (abs d)).2 ∧
  wf (run_ops step os d).2 ∧ maxSize (run_ops step os d).2 = maxSize d.
Proof.
  revert d. induction os as [|o os IH]; intros d Hwf; [done|]. simpl.
  pose proof (step_refines o d Hwf) as (Hr & Ha & Hwf' & Hm).
  destruct (step o d) as [r d'], (spec_step (cap d) o (abs d)) as [r' l']. simplify_eq/=.
  specialize (IH d' Hwf'). unfold cap in IH. rewrite Hm in IH. fold (cap d) in IH.
  destruct (run_ops step os d'), (run_ops (spec_step (cap d)) os (abs d')).
  simpl in *. destruct IH as (-> & -> & ? & ->). done.
Qed.

(** *** Least-recently-used eviction

    [ahead T id l]: [id] is in the list and only ids of [T] are more recent. *)
Definition ahead (T : gset string) (id : string) (l : list string) : Prop :=
  ∃ pre post, l = pre ++ id :: post ∧ NoDup l ∧ (∀ x, x ∈ pre → x ∈ T ∧ x ≠ id).

(** Ids an operation uses (and so may move in front of others). *)
Definition uses (o : op) : gset string :=
  match o with
  | OAdd id | OAddIfAbsent id | OContains id => {[id]}
  | _ => ∅
  end.
Definition drops (id : string) (o : op) : bool :=
  match o with OConsume x | ORemove x => x =s? id | _ => false end.
Fixpoint used (os : list op) : gset string :=
  match os with [] => ∅ | o :: os' => uses o ∪ used os' end.

Lemma ahead_length (T : gset string) id l pre post :
  l = pre ++ id :: post → NoDup l → (∀ x, x ∈ pre → x ∈ T ∧ x ≠ id) →
  (length pre ≤ size (T ∖ {[id]}))%nat.
Proof.
  intros -> Hnd Hpre. apply NoDup_app in Hnd as (Hnd & _ & _).
  rewrite <-(size_list_to_set (C:=gset string)) by done. apply subseteq_size.
  intros x. rewrite elem_of_list_to_set. intros Hx. set_solver.
Qed.

Lemma ahead_remove (T : gset string) id x l : x ≠ id → ahead T id l → ahead T id (LRU.remove x l).
Proof.
  intros Hne (pre & post & -> & Hnd & Hpre).
  exists (LRU.remove x pre), (LRU.remove x post). split_and!.
  - unfold LRU.remove. by rewrite filter_app, filter_cons_True.
  - by apply LRU.remove_NoDup.
  - intros y [Hy _]%LRU.elem_of_remove. by apply Hpre.
Qed.

Lemma ahead_front (T : gset string) id l : NoDup (id :: l) → ahead T id (id :: l).
Proof. intros H. exists [], l. split_and!; [done|done|]. by intros x ?%elem_of_nil. Qed.

Lemma ahead_cons (T : gset string) id x l : x ∉ l → x ≠ id → ahead T id l → ahead (T ∪ {[x]}) id (x :: l).
Proof.
  intros Hx Hne (pre & post & -> & Hnd & Hpre). exists (x :: pre), post. split_and!.
  - done.
  - by apply NoDup_cons.
  - intros y [->|Hy]%elem_of_cons; [set_solver|]. destruct (Hpre y Hy). set_solver.
Qed.

Lemma ahead_mono (T T' : gset string) id l : T ⊆ T' → ahead T id l → ahead T' id l.
Proof. intros HT (pre & post & ? & ? & Hpre). exists pre, post. set_solver. Qed.

(** Using an id keeps [id] while fewer than [cap] other ids were used. *)
Lemma ahead_touch (T : gset string) id x l :
  ahead T id l → ahead (T ∪ {[x]}) id (x :: LRU.remove x l).
Proof.
  intros H. destruct (decide (x = id)) as [->|Hne].
  - apply ahead_front. destruct H as (pre & post & -> & Hnd & _).
    apply NoDup_cons. split; [|by apply LRU.remove_NoDup].
    intros [_ ?]%LRU.elem_of_remove. done.
  - apply ahead_cons; [|done|by apply ahead_remove].
    intros [_ ?]%LRU.elem_of_remove. done.
Qed.

Lemma ahead_take (T : gset string) id n l :
  (size (T ∖ {[id]}) < n)%nat → ahead T id l → ahead T id (take n l).
Proof.
  intros Hlt (pre & post & -> & Hnd & Hpre).
  pose proof (ahead_length T id _ pre post eq_refl Hnd Hpre).
  exists pre, (take (n - length pre - 1) post). split; [|split].
  - rewrite take_app_ge by lia. destruct (n - length pre)%nat as [|k] eqn:E; [lia|].
    simpl. by rewrite Nat.sub_0_r.
  - by apply NoDup_take.
  - done.
Qed.

Lemma ahead_insert cap (T : gset string) id x l :
  (size ((T ∪ {[x]}) ∖ {[id]}) < cap)%nat → ahead T id l →
  ahead (T ∪ {[x]}) id (LRU.insert cap x l).2.
Proof.
  intros Hlt H. unfold LRU.insert. case_decide as Hx; simpl; [by apply ahead_touch|].
  assert (x ≠ id) as Hne by (intros ->; destruct H as (?&?&->&_); set_solver).
  apply (ahead_mono (T ∖ {[x]} ∪ {[x]})); [set_solver|].
  apply ahead_cons; [|done|].
  - intros Hin. by eapply Hx, elem_of_take_elem.
  - apply ahead_take.
    + assert (T ∖ {[x]} ∖ {[id]} ∪ {[x]} = (T ∪ {[x]}) ∖ {[id]}) as Heq.
      { apply set_eq. intros y. destruct (decide (y = x)); set_solver. }
      rewrite <-Heq, size_union, size_singleton in Hlt by set_solver. lia.
    + destruct H as (pre & post & -> & Hnd & Hpre). exists pre, post. set_solver.
Qed.

Lemma ahead_step cap (T : gset string) id o l :
  drops id o = false → (size ((T ∪ uses o) ∖ {[id]}) < cap)%nat →
  ahead T id l → ahead (T ∪ uses o) id (spec_step cap o l).2.
Proof.
  intros Hd Hlt H.
  assert (Hc : ∀ x, x ≠ id → ahead T id (LRU.consume x l).2).
  { intros x Hne. unfold LRU.consume. case_decide; simpl; [by apply ahead_remove|done]. }
  destruct o as [x|x|x|x|x|]; simpl in *; try rewrite union_empty_r_L.
  - by apply ahead_insert.
  - pose proof (ahead_insert cap T id x l Hlt H). by destruct (LRU.insert cap x l).
  - unfold LRU.contains. case_decide; simpl; [by apply ahead_touch|].
    eapply ahead_mono; [|done]. set_solver.
  - breflect. specialize (Hc x Hd). by destruct (LRU.consume x l).
  - breflect. by apply Hc.
  - done.
Qed.

Lemma ahead_run cap (T : gset string) id os l :
  forallb (λ o, negb (drops id o)) os = true →
  (size ((T ∪ used os) ∖ {[id]}) < cap)%nat →
  ahead T id l → ahead (T ∪ used os) id (run_ops (spec_step cap) os l).2.
Proof.
  revert T l. induction os as [|o os IH]; intros T l Hd Hlt H; simpl in *.
  { by rewrite union_empty_r_L. }
  apply andb_true_iff in Hd as [Hd1 Hd2]. apply negb_true_iff in Hd1.
  rewrite union_assoc_L in *.
  assert (H' : ahead (T ∪ uses o) id (spec_step cap o l).2).
  { apply ahead_step; [done| |done].
    eapply Nat.le_lt_trans; [|exact Hlt]. apply subseteq_size. set_solver. }
  destruct (spec_step cap o l) as [r l']. simpl in H'.
  generalize (IH _ _ Hd2 Hlt H'). by destruct (run_ops (spec_step cap) os l').
Qed.

(** *** Main theorems *)

(** The pointer-based LRU set implements the abstract recency list: for
    every capacity argument and every sequence of operations, all the values
    the operations return are those of the specification. *)
Theorem resource_set_refines_lru (n : Z) (os : list op) :
  (run_ops step os (NewResourceSet n)).1
  = (run_ops (spec_step (Z.to_nat (Z.max 1 n))) os []).1.
Proof.
  destruct (run_refines os (NewResourceSet n) (NewResourceSet_wf n)) as (-> & _).
  rewrite NewResourceSet_cap. done.
Qed.

(** Memory bound: whatever the operations, the set never holds more than
    [max(1, maxSize)] ids, and the map and the linked list always describe
    the same ids. *)
Lemma resource_set_bounded (n : Z) (os : list op) :
  let d := (run_ops step os (NewResourceSet n)).2 in
  0 ≤ Len d ≤ Z.max 1 n ∧ Len d = Z.of_nat (length (order d)) ∧
  (∀ s, is_Some (items d !! s) ↔ s ∈ (order d).*2).
Proof.
  destruct (run_refines os (NewResourceSet n) (NewResourceSet_wf n)) as (_ & _ & Hwf & Hm).
  cbv zeta. rewrite Len_abs by done. unfold abs. rewrite length_fmap.
  pose proof (wf_bound _ Hwf) as Hb.
  assert (maxSize (NewResourceSet n) = Z.max 1 n) as Hn.
  { unfold NewResourceSet. simpl. destruct (Z.leb_spec n 0); lia. }
  rewrite Hm, Hn in Hb. split; [lia|]. split; [done|]. intros s. symmetry. by apply elem_of_abs.
Qed.

(** An id that was added stays visible to [Contains] until it is consumed
    or removed, as long as fewer than [maxSize] other ids are used in
    between: eviction is least-recently-used and never early. *)
Theorem resource_set_recent_survives (n : Z) (os os' : list op) (id : string) :
  forallb (λ o, negb (drops id o)) os' = true →
  Z.of_nat (size (used os' ∖ {[id]})) < Z.max 1 n →
  let d := (run_ops step os (NewResourceSet n)).2 in
  (Contains id (run_ops step os' (Add id d)).2).1 = true.
Proof.
  intros Hd Hlt d.
  destruct (run_refines os (NewResourceSet n) (NewResourceSet_wf n)) as (_ & _ & Hwf & Hm).
  fold d in Hwf, Hm. destruct (insert_refines d id Hwf) as (_ & Habs & Hwf1 & Hm1).
  destruct (run_refines os' (Add id d) Hwf1) as (_ & Habs2 & Hwf2 & _).
  destruct (contains_refines _ id Hwf2) as (-> & _). rewrite Habs2.
  assert (Hcap : cap (Add id d) = Z.to_nat (Z.max 1 n)).
  { rewrite <-NewResourceSet_cap. unfold cap, Add. by rewrite Hm1, Hm. }
  assert (ahead (∅ ∪ used os') id (run_ops (spec_step (cap (Add id d))) os' (abs (Add id d))).2)
    as (pre & post & -> & _).
  { apply ahead_run; [done| |].
    - rewrite Hcap, union_empty_l_L. lia.
    - unfold Add. rewrite Habs. unfold LRU.insert.
      pose proof (abs_NoDup d Hwf) as Hnd. case_decide as Hx; simpl; apply ahead_front, NoDup_cons.
      + split; [|by apply LRU.remove_NoDup]. by intros [_ ?]%LRU.elem_of_remove.
      + split; [|by apply NoDup_take].
        intros Hin. by eapply Hx, elem_of_take_elem. }
  unfold LRU.contains. by rewrite decide_True by set_solver.
Qed.

Lemma resource_set_recent_survives_witness :
  (Contains "a" (run_ops step [OAdd "b"; OConsume "c"; OContains "b"]
     (Add "a" (run_ops step [OAdd "x"; OAdd "y"; OAdd "a"] (NewResourceSet 2)).2)).2).1 = true.
Proof.
  apply (resource_set_recent_survives 2 [OAdd "x"; OAdd "y"; OAdd "a"]
           [OAdd "b"; OConsume "c"; OContains "b"] "a").
  - reflexivity.
  - vm_compute. reflexivity.
Defined.

#[export] Hint Resolve NewResourceSet_wf : agent.

End ResourceSet.

(** ** internal/routing/keylock.go *)

Module KeyLock.

(** [items map[string]struct{}]. *)
Definition t := gset string.

Definition NewKeyLock : t := ∅.

Definition AddIfAbsent (resourceID : string) (k : t) : bool * t :=
  if decide (resourceID ∈ k) then (false, k) else (true, {[resourceID]} ∪ k).

Definition Remove (resourceID : string) (k : t) : t := k ∖ {[resourceID]}.

Definition Len (k : t) : Z := Z.of_nat (size k).

End KeyLock.
