(* ===== verification/Backoff.v ===== *)
(** * Backoff and Retry-After

    Models internal/backoff/backoff.go ([CalculateBackoff]) and
    internal/dcm/backoff.go ([ParseRetryAfter]) on 64-bit durations, and
    the wait the DCM registrar computes from them
    (internal/dcm/registrar.go, [computeBackoff]). *)

From S2P Require Import Prelude GoStrings.

(** ** internal/backoff/backoff.go *)

(** The doubling loop [for i := 0; i < attempt && d < max; i++]; [None] when
    the fuel runs out.  [Z.quot] is Go's truncating division. *)
Fixpoint backoff_loop (fuel : nat) (max attempt i d : Z) : option Z :=
  match fuel with
  | O => None
  | S fuel' =>
      if (i <? attempt) && (d <? max) then
        if Z.quot max 2 <? d then Some max
        else backoff_loop fuel' max attempt (i + 1) (wrap64 (d * 2))
      else Some (if max <? d then max else d)
  end.

(** 64 iterations: the duration starts at 1 at least and doubles, so it
    reaches any [max] of 63 bits before. *)
Definition backoff_fuel : nat := 64.

Definition CalculateBackoff (initial max attempt : Z) : Z :=
  if initial <=? 0 then max
  else default max (backoff_loop backoff_fuel max attempt 0 initial).

(** One round of the loop agrees with doubling in [Z]: neither the early
    return nor the wrapped product changes the minimum. *)
Lemma backoff_loop_spec fuel max attempt i d :
  in_int64 max → 0 < d → 0 ≤ i → max < d * 2 ^ (Z.of_nat fuel - 1) →
  (1 ≤ fuel)%nat →
  backoff_loop fuel max attempt i d
  = Some (Z.min (d * 2 ^ Z.max 0 (attempt - i)) max).
Proof.
  intros Hmax. revert i d. induction fuel as [|fuel IH]; intros i d Hd Hi Hf Hfuel; [lia|].
  simpl. destruct (Z.ltb_spec i attempt) as [Hlt|Hge]; simpl.
  2: { replace (Z.max 0 (attempt - i)) with 0 by lia. rewrite Z.mul_1_r.
       f_equal. destruct (Z.ltb_spec max d); lia. }
  destruct (Z.ltb_spec d max) as [Hlt'|Hge'].
  2: { assert (max ≤ d * 2 ^ Z.max 0 (attempt - i)).
       { assert (1 ≤ 2 ^ Z.max 0 (attempt - i)) by (apply (Z.pow_le_mono_r 2 0); lia). nia. }
       f_equal. destruct (Z.ltb_spec max d); lia. }
  assert (Hpow : 2 ^ Z.max 0 (attempt - i) = 2 * 2 ^ Z.max 0 (attempt - (i + 1))).
  { rewrite <-Z.pow_succ_r by lia. f_equal. lia. }
  assert (1 ≤ 2 ^ Z.max 0 (attempt - (i + 1))) by (apply (Z.pow_le_mono_r 2 0); lia).
  pose proof (Z.quot_rem max 2). pose proof (Z.rem_bound_pos max 2).
  destruct (Z.ltb_spec (Z.quot max 2) d) as [Hq|Hq].
  - f_equal. rewrite Hpow. nia.
  - rewrite wrap64_id by (unfold in_int64, int64_min, int64_max in *; lia).
    destruct fuel as [|fuel]; [simpl in Hf; lia|].
    rewrite IH; [|lia|lia| |lia].
    + f_equal. f_equal. rewrite Hpow. lia.
    + replace (Z.of_nat (S (S fuel)) - 1) with (Z.succ (Z.of_nat (S fuel) - 1)) in Hf by lia.
      rewrite Z.pow_succ_r in Hf by lia. lia.
Qed.

(** C40: on 64-bit durations [CalculateBackoff] is exactly
    [min(initial * 2^attempt, max)] (and [max] for a non-positive initial
    value), for every attempt count: the 64-bit doubling never overflows. *)
Theorem calculate_backoff_exact (initial max attempt : Z) :
  in_int64 initial → in_int64 max →
  CalculateBackoff initial max attempt
  = if initial <=? 0 then max else Z.min (initial * 2 ^ Z.max 0 attempt) max.
Proof.
  intros Hi Hm. unfold CalculateBackoff. destruct (Z.leb_spec initial 0); [done|].
  rewrite backoff_loop_spec; unfold backoff_fuel; [|done|lia|lia| |lia].
  - simpl. by rewrite Z.sub_0_r.
  - unfold in_int64, int64_max in *. lia.
Qed.

Lemma calculate_backoff_exact_witness :
  CalculateBackoff (2 * Second) (30 * Second) 3
  = (if 2 * Second <=? 0 then 30 * Second
     else Z.min (2 * Second * 2 ^ Z.max 0 3) (30 * Second))
  ∧ CalculateBackoff 1 int64_max 1000 = int64_max.
Proof.
  split; [|reflexivity].
  apply calculate_backoff_exact; unfold in_int64, int64_min, int64_max, Second, Millisecond; lia.
Defined.

(** ** internal/dcm/backoff.go *)

Section RetryAfter.

(** [http.ParseTime] of an HTTP-date; the result is a time. *)
Context (http_ParseTime : string → option Z).

(** [t.Sub(u)] saturates at the ends of the 64-bit range. *)
Definition time_Sub (t u : Z) : Z := Z.max int64_min (Z.min int64_max (t - u)).

Definition ParseRetryAfter (value : string) (now : Z) : Z * bool :=
  let value := TrimSpace value in
  if value =s? "" then (0, false)
  else
    match ParseInt64 value with
    | Some secs =>
        if secs <? 0 then (0, false) else (wrap64 (secs * Second), true)
    | None =>
        match http_ParseTime value with
        | Some t =>
            let d := time_Sub t now in
            if 0 <? d then (d, true) else (0, false)
        | None => (0, false)
        end
    end.

(** ** internal/dcm/registrar.go, [computeBackoff]

    [jitter] is the random share [ApplyJitter] keeps of the calculated
    backoff. *)
Definition rate_limit_of (e : error) : option (Z * bool) :=
  errors_as (λ e, match e with ERateLimit d h => Some (d, h) | _ => None end) e.

Definition computeBackoff (jitter : Z → Z) (InitialBackoff MaxBackoff : Z)
    (e : error) (attempt : Z) : Z :=
  match rate_limit_of e with
  | Some (d, true) =>
      if 0 <? d then d else jitter (CalculateBackoff InitialBackoff MaxBackoff attempt)
  | _ => jitter (CalculateBackoff InitialBackoff MaxBackoff attempt)
  end.

(** The largest number of seconds a [time.Duration] can hold. *)
Definition max_duration_secs : Z := Z.quot int64_max Second.

(** A 429 response whose Retry-After is an integer number of seconds that
    fits a duration makes the registrar wait exactly that long, uncapped by
    [MaxBackoff]; without a usable header (absent, negative, zero,
    unparseable or in the past) it waits the jittered exponential backoff. *)
Theorem retry_after_honoured jitter (initial max attempt now : Z) (header : string) (e : error) :
  let '(d, ok) := ParseRetryAfter header now in
  rate_limit_of e = Some (d, ok) →
  (∀ secs, ParseInt64 (TrimSpace header) = Some secs → 0 < secs ≤ max_duration_secs →
     computeBackoff jitter initial max e attempt = secs * Second) ∧
  (∀ secs, ParseInt64 (TrimSpace header) = Some secs → secs ≤ 0 →
     computeBackoff jitter initial max e attempt
     = jitter (CalculateBackoff initial max attempt)) ∧
  (ParseInt64 (TrimSpace header) = None →
   (∀ t, http_ParseTime (TrimSpace header) = Some t → t ≤ now) →
     computeBackoff jitter initial max e attempt
     = jitter (CalculateBackoff initial max attempt)).
Proof.
  destruct (ParseRetryAfter header now) as [d ok] eqn:Hp. intros He.
  unfold computeBackoff. rewrite He. unfold ParseRetryAfter in Hp. split_and!.
  - intros secs Hs Hrange. rewrite Hs in Hp. change max_duration_secs with 9223372036 in Hrange.
    case_bool_decide as Hnil; [by rewrite Hnil in Hs|].
    destruct (Z.ltb_spec secs 0); [lia|]. simplify_eq.
    assert (in_int64 (secs * Second)).
    { unfold in_int64, int64_min, int64_max, Second, Millisecond. lia. }
    rewrite wrap64_id by done. unfold Second, Millisecond in *.
    destruct (Z.ltb_spec 0 (secs * (1000 * 1000000))); lia.
  - intros secs Hs Hle. rewrite Hs in Hp. case_bool_decide; simplify_eq; [done|].
    destruct (Z.ltb_spec secs 0); simplify_eq; [done|].
    by replace secs with 0 by lia.
  - intros Hs Hpast. rewrite Hs in Hp. case_bool_decide; simplify_eq; [done|].
    destruct (http_ParseTime _) as [t|] eqn:Ht; simplify_eq; [|done].
    specialize (Hpast t eq_refl). unfold time_Sub in Hp.
    destruct (Z.ltb_spec 0 (Z.max int64_min (Z.min int64_max (t - now)))); simplify_eq; [|done].
    unfold int64_min, int64_max in *. lia.
Qed.

End RetryAfter.

Lemma retry_after_honoured_witness :
  computeBackoff (λ d, Z.quot d 2) Second Minute (ERateLimit (120 * Second) true) 4 = 120 * Second.
Proof.
  pose proof (retry_after_honoured (λ _, None) (λ d, Z.quot d 2) Second Minute 4 0 " 120 "
    (ERateLimit (120 * Second) true)) as H.
  vm_compute (ParseRetryAfter _ _ _) in H. destruct (H eq_refl) as [H1 _].
  rewrite (H1 120); [reflexivity|reflexivity|vm_compute; split; [reflexivity|discriminate]].
Defined.

(** The conversion [time.Duration(secs) * time.Second] wraps for
    Retry-After values above 9223372036 seconds: a server asking for
    18446744074 seconds is answered after 0.29 seconds, and one asking for
    9223372037 seconds is reported as a usable but negative wait. *)
Theorem retry_after_overflow_wraps (http_ParseTime : string → option Z) (now : Z) :
  ParseRetryAfter http_ParseTime "18446744074" now = (290448384, true) ∧
  ParseRetryAfter http_ParseTime "9223372037" now = (-9223372036709551616, true) ∧
  (∀ jitter initial max attempt,
     computeBackoff jitter initial max (ERateLimit 290448384 true) attempt < Second).
Proof. split_and!; reflexivity. Qed.
