(* ===== verification/Provider.v ===== *)
(** * Provider registry, health tracker and field validators

    Models internal/provider/provider.go (validators and the service-type
    slot [Registry]) and internal/provider/health_state.go (the in-memory
    [HealthTracker]).  Each method body runs under the component's mutex, so
    an operation is one state transformer. *)

From S2P Require Import Prelude GoStrings.
From Stdlib Require Import Ascii.

(** ** Field validators *)

Definition ValidateName (name : string) : option error :=
  if TrimSpace name =s? "" then Some (ENew "must not be empty") else None.

Definition ValidateServiceType (serviceType : string) : option error :=
  if TrimSpace serviceType =s? "" then Some (ENew "must not be empty") else None.

(** [^[a-z0-9]([a-z0-9-]{0,61}[a-z0-9])?$] *)
Definition alnum_lower (c : ascii) : bool := is_lower c || is_digit c.
Definition id_char (c : ascii) : bool := alnum_lower c || is_char "-" c.
Definition providerIDRegex : regex :=
  RCat (RClass alnum_lower)
       (ropt (RCat (rupto 61 (RClass id_char)) (RClass alnum_lower))).

Definition first_char (s : string) : option ascii := head (chars s).
Definition last_char (s : string) : option ascii := last (chars s).

Definition ValidateProviderID (id : string) : option error :=
  if id =s? "" then Some (ENew "provider ID must not be empty")
  else if (63 <? String.length id)%nat then
    Some (ENew "provider ID must be at most 63 characters")
  else if bool_decide (first_char id = Some "-"%char) || bool_decide (last_char id = Some "-"%char) then
    Some (ENew "provider ID must not start or end with a hyphen")
  else if negb (MatchString providerIDRegex id) then
    Some (ENew "provider ID must contain only lowercase alphanumeric characters and hyphens")
  else None.

(** [^v[0-9]+(alpha|beta)?[0-9]*$] *)
Definition schemaVersionRegex : regex :=
  RCat (rlit "v")
    (RCat (rplus (RClass is_digit))
       (RCat (ropt (RAlt (rlit "alpha") (rlit "beta"))) (RStar (RClass is_digit)))).

Definition ValidateSchemaVersion (version : string) : option error :=
  if version =s? "" then Some (ENew "schema version must not be empty")
  else if negb (MatchString schemaVersionRegex version) then
    Some (ENew "schema version must match format vN[alpha|beta]N (e.g. v1alpha1)")
  else None.

(** The fields of [url.URL] the agent reads; [url.Parse] is an argument. *)
Record URL := { Scheme : string; Host : string; RawQuery : string; Fragment : string }.

Definition ValidateEndpoint (url_Parse : string → option URL) (endpoint : string) : option error :=
  match url_Parse endpoint with
  | None => Some (ENew "malformed URI")
  | Some u =>
      if negb (Scheme u =s? "http") && negb (Scheme u =s? "https") then
        Some (ENew "scheme must be http or https")
      else if Host u =s? "" then Some (ENew "missing host")
      else if negb (RawQuery u =s? "") then
        Some (ENew "endpoint must not contain query parameters")
      else if negb (Fragment u =s? "") then
        Some (ENew "endpoint must not contain a fragment")
      else None
  end.

(** ** Registry: one provider per service type *)

Module Registry.

(** [slots map[string]string]: service type to provider name. *)
Definition NewRegistry : gmap string string := ∅.

Definition occupied_msg (serviceType holder : string) : string :=
  "service type '" +:+ serviceType +:+ "' is already served by provider '" +:+ holder +:+ "'".

Definition held_msg (oldType holder providerName : string) : string :=
  "cannot move from service type '" +:+ oldType
  +:+ "': it is held by a different provider '" +:+ holder +:+ "', not '"
  +:+ providerName +:+ "'".

Definition Claim (providerName serviceType : string) (slots : gmap string string)
  : option error * gmap string string :=
  match slots !! serviceType with
  | Some holder =>
      if holder =s? providerName then (None, <[serviceType := providerName]> slots)
      else (Some (ENew (occupied_msg serviceType holder)), slots)
  | None => (None, <[serviceType := providerName]> slots)
  end.

(** The holder of a slot that is not [providerName], if there is one. *)
Definition other_holder (providerName serviceType : string) (slots : gmap string string)
  : option string :=
  match slots !! serviceType with
  | Some holder => if holder =s? providerName then None else Some holder
  | None => None
  end.

Definition Move (providerName oldType newType : string) (slots : gmap string string)
  : option error * gmap string string :=
  match other_holder providerName newType slots with
  | Some holder => (Some (ENew (occupied_msg newType holder)), slots)
  | None =>
      match other_holder providerName oldType slots with
      | Some holder => (Some (ENew (held_msg oldType holder providerName)), slots)
      | None => (None, <[newType := providerName]> (delete oldType slots))
      end
  end.

Definition Release (serviceType : string) (slots : gmap string string) : gmap string string :=
  delete serviceType slots.

Definition Lookup (serviceType : string) (slots : gmap string string) : option string :=
  slots !! serviceType.

Lemma other_holder_None p st slots :
  other_holder p st slots = None ↔ slots !! st = None ∨ slots !! st = Some p.
Proof.
  unfold other_holder. destruct (slots !! st) as [h|]; [|naive_solver].
  case_bool_decide; naive_solver.
Qed.

Lemma other_holder_Some p st slots h :
  other_holder p st slots = Some h ↔ slots !! st = Some h ∧ h ≠ p.
Proof.
  unfold other_holder. destruct (slots !! st) as [h'|]; [|naive_solver].
  case_bool_decide; naive_solver.
Qed.

Lemma Claim_ok p st slots :
  other_holder p st slots = None → Claim p st slots = (None, <[st := p]> slots).
Proof.
  unfold Claim, other_holder. destruct (slots !! st); [|done]. by case_bool_decide.
Qed.

Lemma Claim_err p st slots h :
  other_holder p st slots = Some h →
  Claim p st slots = (Some (ENew (occupied_msg st h)), slots).
Proof.
  unfold Claim, other_holder. destruct (slots !! st); [|done]. case_bool_decide; naive_solver.
Qed.

(** Another provider's slot is never touched by [Claim] or [Move]. *)
Lemma Claim_other p st slots st' h :
  slots !! st' = Some h → h ≠ p → (Claim p st slots).2 !! st' = Some h.
Proof.
  intros Hh Hne. destruct (other_holder p st slots) as [h'|] eqn:E.
  - by rewrite (Claim_err _ _ _ _ E).
  - rewrite (Claim_ok _ _ _ E). simpl. apply other_holder_None in E.
    rewrite lookup_insert_ne; naive_solver.
Qed.

Lemma Move_other p ot nt slots st' h :
  slots !! st' = Some h → h ≠ p → (Move p ot nt slots).2 !! st' = Some h.
Proof.
  intros Hh Hne. unfold Move.
  destruct (other_holder p nt slots) eqn:E1; [done|].
  destruct (other_holder p ot slots) eqn:E2; [done|]. simpl.
  apply other_holder_None in E1, E2.
  rewrite lookup_insert_ne, lookup_delete_ne; naive_solver.
Qed.

(** Slot exclusivity: a claim or a move by one provider succeeds exactly
    when the slots it names are free or its own, then holds the new slot and
    (for a move between distinct types) frees the old one, changes no slot
    of any other provider, and on error leaves the registry as it was. *)
Theorem registry_exclusive (p ot nt : string) (slots : gmap string string) :
  let '(err, slots') := Move p ot nt slots in
  (err = None ↔ other_holder p nt slots = None ∧ other_holder p ot slots = None) ∧
  (err ≠ None → slots' = slots) ∧
  (err = None → Lookup nt slots' = Some p ∧ (ot ≠ nt → Lookup ot slots' = None)) ∧
  (∀ st h, Lookup st slots = Some h → h ≠ p → Lookup st slots' = Some h) ∧
  let '(cerr, cslots) := Claim p nt slots in
  (cerr = None ↔ other_holder p nt slots = None) ∧
  (cerr ≠ None → cslots = slots) ∧
  (cerr = None → Lookup nt cslots = Some p) ∧
  (∀ st, st ≠ nt → Lookup st cslots = Lookup st slots).
Proof.
  pose proof (Move_other p ot nt slots) as Hother. unfold Move in *. unfold Lookup.
  destruct (Claim p nt slots) as [cerr cslots] eqn:Hc.
  assert (Hclaim : (cerr = None ↔ other_holder p nt slots = None) ∧
    (cerr ≠ None → cslots = slots) ∧ (cerr = None → cslots !! nt = Some p) ∧
    (∀ st, st ≠ nt → cslots !! st = slots !! st)).
  { destruct (other_holder p nt slots) as [h|] eqn:E.
    - rewrite (Claim_err _ _ _ _ E) in Hc. by simplify_eq.
    - rewrite (Claim_ok _ _ _ E) in Hc. simplify_eq.
      split_and!; [done|done|by rewrite lookup_insert_eq|]. intros. by rewrite lookup_insert_ne. }
  destruct (other_holder p nt slots) eqn:E1; [naive_solver|].
  destruct (other_holder p ot slots) eqn:E2; [naive_solver|].
  split_and!; try naive_solver.
  - intros _. rewrite lookup_insert_eq. split; [done|]. intros Hne.
    by rewrite lookup_insert_ne, lookup_delete_eq.
Qed.

End Registry.

(** ** HealthTracker *)

(** [v1alpha1.ProviderStatus]. *)
Inductive ProviderStatus := Ready | Unhealthy | Unavailable.
#[export] Instance ProviderStatus_eq_dec : EqDecision ProviderStatus.
Proof. solve_decision. Defined.

Record HealthState := { Status : ProviderStatus; LastCheckTime : Z }.

Module HealthTracker.

Definition NewInMemoryHealthTracker : gmap string HealthState := ∅.

Definition GetState (providerID : string) (states : gmap string HealthState)
  : option HealthState := states !! providerID.

Definition SetState (providerID : string) (status : ProviderStatus) (lastCheckTime : Z)
    (states : gmap string HealthState) : gmap string HealthState :=
  if providerID =s? "" then states
  else <[providerID := {| Status := status; LastCheckTime := lastCheckTime |}]> states.

Definition DeleteState (providerID : string) (states : gmap string HealthState)
  : gmap string HealthState := delete providerID states.

Lemma GetState_SetState id st t s :
  id ≠ "" → GetState id (SetState id st t s) = Some {| Status := st; LastCheckTime := t |}.
Proof.
  intros H. unfold GetState, SetState. rewrite bool_decide_eq_false_2 by done.
  apply lookup_insert_eq.
Qed.

Lemma GetState_SetState_ne id id' st t s :
  id ≠ id' → GetState id (SetState id' st t s) = GetState id s.
Proof.
  intros H. unfold GetState, SetState. case_bool_decide; [done|]. by rewrite lookup_insert_ne.
Qed.

Lemma GetState_DeleteState id s : GetState id (DeleteState id s) = None.
Proof. apply lookup_delete_eq. Qed.

End HealthTracker.
#[export] Hint Rewrite HealthTracker.GetState_DeleteState : agent_simpl.

(** ** What the validators accept *)

Lemma id_regex_chars l :
  lang providerIDRegex l ↔
  (1 ≤ length l ≤ 63)%nat ∧ Forall (λ c, id_char c = true) l ∧
  (∀ c, head l = Some c → alnum_lower c = true) ∧
  (∀ c, last l = Some c → alnum_lower c = true).
Proof.
  assert (Hsub : ∀ c, alnum_lower c = true → id_char c = true).
  { intros c H. unfold id_char. by rewrite H. }
  unfold providerIDRegex, ropt. rewrite lang_cat_inv. setoid_rewrite lang_alt_inv.
  setoid_rewrite lang_eps_inv. setoid_rewrite lang_cat_inv.
  setoid_rewrite lang_upto_class. setoid_rewrite lang_class_inv. split.
  - intros (?&?&->&(c&->&Hc)&[->|(m&?&->&[Hm HF]&(z&->&Hz))]).
    + split_and!; [simpl; lia|simpl; lia|by repeat constructor; apply Hsub|naive_solver|naive_solver].
    + simpl. rewrite length_app. simpl. split_and!; [lia|lia| | |].
      * constructor; [by apply Hsub|]. apply Forall_app. split; [done|]. by repeat constructor; apply Hsub.
      * naive_solver.
      * intros z'. rewrite app_comm_cons, last_snoc. naive_solver.
  - intros ([Hlen Hlen'] & HF & Hh & Hl). destruct l as [|c l]; simpl in Hlen; [lia|].
    exists [c], l. split; [done|]. split; [eauto|].
    induction l as [|z m _] using rev_ind; [by left|]. right.
    simpl in Hlen'. rewrite length_app in Hlen'. simpl in Hlen'.
    exists m, [z]. split; [done|]. inversion HF as [|? ? _ HF']; subst. apply Forall_app in HF' as [HF' _].
    split; [split; [lia|done]|]. exists z. split; [done|]. apply Hl.
    by rewrite app_comm_cons, last_snoc.
Qed.

(** Provider ids: [ValidateProviderID] accepts exactly the strings of 1 to
    63 lowercase letters, digits and hyphens that neither start nor end with
    a hyphen (the AEP-122 rule the comment states). *)
Theorem validate_provider_id_spec (id : string) :
  ValidateProviderID id = None ↔
  (1 ≤ String.length id ≤ 63)%nat ∧
  Forall (λ c, id_char c = true) (chars id) ∧
  first_char id ≠ Some "-"%char ∧ last_char id ≠ Some "-"%char.
Proof.
  unfold ValidateProviderID, first_char, last_char, MatchString.
  rewrite <-length_chars.
  destruct (decide (id = "")) as [->|Hne].
  { rewrite bool_decide_eq_true_2 by done. split; [done|]. intros [? _]. simpl in *. lia. }
  rewrite (bool_decide_eq_false_2 (id = "")) by done.
  destruct (Nat.ltb_spec 63 (length (chars id))); [split; [done|intros [? _]; lia]|].
  destruct (bool_decide (head _ = _)) eqn:Hh; simpl; [breflect; naive_solver|].
  destruct (bool_decide (last _ = _)) eqn:Hl; simpl; [breflect; naive_solver|]. breflect.
  assert (Hn : ∀ c, id_char c = true → c ≠ "-"%char → alnum_lower c = true).
  { intros c Hc Hc'. unfold id_char in Hc. apply orb_true_iff in Hc as [?|Hc]; [done|].
    apply Ascii.eqb_eq in Hc. congruence. }
  destruct (rmatch_chars providerIDRegex (chars id)) eqn:Hm; simpl.
  - apply rmatch_lang, id_regex_chars in Hm. naive_solver.
  - split; [done|]. intros (? & HF & _). exfalso.
    apply not_true_iff_false in Hm. apply Hm, rmatch_lang, id_regex_chars.
    rewrite Forall_forall in HF. split_and!; [lia|lia|by apply Forall_forall| |].
    + intros c Hc. apply Hn; [|congruence]. apply HF. destruct (chars id); simplify_eq/=. by left.
    + intros c Hc. apply Hn; [|congruence]. apply HF. apply last_Some_elem_of in Hc. done.
Qed.
