(* ===== verification/FileStore.v ===== *)
(** * Provider persistence

    [Class Store] is the interface of internal/provider/store/store.go: the
    operations, and the laws ([StoreOk]) the service and the router rely on.
    [Module FileStore] models the JSON file implementation of
    internal/provider/store/file.go down to its system calls, with a crash
    model of the file system, and is an instance of the interface. *)

From S2P Require Import Prelude GoStrings.

(** ** internal/provider/store/store.go *)

(** [Metadata] is the raw JSON text, empty when absent. *)
Record StoredProvider := mkStoredProvider {
  ID : string; Name : string; Endpoint : string; ServiceType : string;
  SchemaVersion : string; DisplayName : option string;
  Operations : option (list string); Metadata : string; Type_ : string;
  CreateTime : Z; UpdateTime : Z
}.

#[export] Instance StoredProvider_eq_dec : EqDecision StoredProvider.
Proof. solve_decision. Defined.

(** The store interface.  [IO] describes which calls to the outside fail
    during one operation. *)
Class Store (S IO : Type) := {
  Save : IO → StoredProvider → S → option error * S;
  Delete : IO → string → S → option error * S;
  List_ : IO → S → result (list StoredProvider);
  GetByID : IO → string → S → result (option StoredProvider);
  GetByName : IO → string → S → result (option StoredProvider)
}.

(** Replace the first record of the same name, or append. *)
Fixpoint upsert (p : StoredProvider) (l : list StoredProvider) : list StoredProvider :=
  match l with
  | [] => [p]
  | q :: l' => if Name q =s? Name p then p :: l' else q :: upsert p l'
  end.

Definition without (name : string) (l : list StoredProvider) : list StoredProvider :=
  filter (λ p, Name p ≠ name) l.

Definition by_name (name : string) (p : StoredProvider) : bool := Name p =s? name.
Definition by_id (id : string) (p : StoredProvider) : bool := ID p =s? id.

(** The checks of [validateStoredProvider] (file.go), in order. *)
Definition missing (v n : string) : option error :=
  if v =s? "" then Some (ENew ("missing " +:+ n)) else None.

Definition validateStoredProvider (p : StoredProvider) : option error :=
  first_error
    [missing (ID p) "id"; missing (Name p) "name"; missing (ServiceType p) "service_type";
     missing (SchemaVersion p) "schema_version"; missing (Type_ p) "type";
     (if negb (Type_ p =s? "embedded") && negb (Type_ p =s? "external")
      then Some (ENew ("invalid type " +:+ Quote (Type_ p))) else None);
     (if time_is_zero (CreateTime p) then Some (ENew "missing create_time") else None);
     (if time_is_zero (UpdateTime p) then Some (ENew "missing update_time") else None)].

(** What a store promises: there is a list of records it holds
    ([contents]), reads return it or fail, a successful write is an upsert
    or a removal, and a failed write leaves it as it was. *)
Class StoreOk (S IO : Type) `{Store S IO} := {
  store_inv : S → Prop;
  contents : S → list StoredProvider;
  contents_valid s : store_inv s → Forall (λ p, validateStoredProvider p = None) (contents s);
  list_spec io s l : store_inv s → List_ io s = Ok l → l = contents s;
  get_by_id_spec io id s r :
    store_inv s → GetByID io id s = Ok r → r = List.find (by_id id) (contents s);
  get_by_name_spec io n s r :
    store_inv s → GetByName io n s = Ok r → r = List.find (by_name n) (contents s);
  save_inv io p s : store_inv s → store_inv (Save io p s).2;
  save_ok io p s : store_inv s → (Save io p s).1 = None →
    contents (Save io p s).2 = upsert p (contents s);
  save_err io p s : store_inv s → (Save io p s).1 ≠ None →
    contents (Save io p s).2 = contents s;
  delete_inv io n s : store_inv s → store_inv (Delete io n s).2;
  delete_ok io n s : store_inv s → (Delete io n s).1 = None →
    contents (Delete io n s).2 = without n (contents s);
  delete_err io n s : store_inv s → (Delete io n s).1 ≠ None →
    contents (Delete io n s).2 = contents s
}.

(** ** The file system *)

(** File contents up to what [json.Unmarshal] makes of them. *)
Inductive FileBytes :=
  | FEmpty
  | FBad
  | FProviders (ps : list StoredProvider).

(** An inode: what a process reads, and whether that is on stable storage. *)
Record Inode := { cached : FileBytes; durable : bool }.

(** The directory: the entry of the store's file as processes see it and as
    it is on stable storage, and the entry of the temporary file. *)
Record Disk := mkDisk {
  main : option Inode;
  main_stable : option Inode;
  tmp : option Inode
}.

(** Failures of the calls made by one store operation; [None] is success. *)
Record FileIO := {
  io_read : option error;
  io_marshal : option error;
  io_open : option error;
  io_write : option error;
  io_sync : option error;
  io_close : option error;
  io_rename : option error;
  io_diropen : option error;
  io_dirsync : option error
}.

Definition io_ok : FileIO :=
  {| io_read := None; io_marshal := None; io_open := None; io_write := None;
     io_sync := None; io_close := None; io_rename := None; io_diropen := None;
     io_dirsync := None |}.

Definition sys_open_trunc (d : Disk) : Disk :=
  mkDisk (main d) (main_stable d) (Some {| cached := FEmpty; durable := false |}).
Definition sys_write (b : FileBytes) (d : Disk) : Disk :=
  mkDisk (main d) (main_stable d) (Some {| cached := b; durable := false |}).
Definition sys_sync (d : Disk) : Disk :=
  mkDisk (main d) (main_stable d)
    (match tmp d with Some i => Some {| cached := cached i; durable := true |} | None => None end).
Definition sys_rename (d : Disk) : Disk := mkDisk (tmp d) (main_stable d) None.
Definition sys_dirsync (d : Disk) : Disk := mkDisk (main d) (main d) (tmp d).

(** What the store's file may hold after a crash: the directory entry is the
    cached or the stable one, and contents that were not synced are
    arbitrary. *)
Inductive recovered (d : Disk) : option FileBytes → Prop :=
  | rec_none e : e = main d ∨ e = main_stable d → e = None → recovered d None
  | rec_durable e i : e = main d ∨ e = main_stable d → e = Some i → durable i = true →
      recovered d (Some (cached i))
  | rec_torn e i b : e = main d ∨ e = main_stable d → e = Some i → durable i = false →
      recovered d (Some b).

(** ** internal/provider/store/file.go *)

Module FileStore.

(** Index and error of the first invalid record. *)
Fixpoint first_invalid (i : nat) (ps : list StoredProvider) : option (nat * error) :=
  match ps with
  | [] => None
  | p :: ps' =>
      match validateStoredProvider p with
      | Some e => Some (i, e)
      | None => first_invalid (S i) ps'
      end
  end.

Definition readFile (io : FileIO) (d : Disk) : result (list StoredProvider) :=
  match io_read io with
  | Some e => Err e
  | None =>
      match main d with
      | None => Ok []
      | Some i =>
          match cached i with
          | FEmpty => Ok []
          | FBad => Err (ENew "unmarshal")
          | FProviders ps =>
              match first_invalid 0 ps with
              | Some (i, e) =>
                  Err (EWrap ("invalid provider record at index " +:+ pretty i) e)
              | None => Ok ps
              end
          end
      end
  end.

(** [writeFile] with the disk after each of its system calls. *)
Definition writeFile_log (io : FileIO) (ps : list StoredProvider) (d : Disk)
  : option error * Disk * list Disk :=
  match io_marshal io with
  | Some e => (Some e, d, [])
  | None =>
  match io_open io with
  | Some e => (Some (EWrap "create temp file" e), d, [])
  | None =>
  let d1 := sys_open_trunc d in
  match io_write io with
  | Some e => let d' := sys_write FBad d1 in (Some (EWrap "write temp file" e), d', [d1; d'])
  | None =>
  let d2 := sys_write (FProviders ps) d1 in
  match io_sync io with
  | Some e => (Some (EWrap "fsync temp file" e), d2, [d1; d2])
  | None =>
  let d3 := sys_sync d2 in
  match io_close io with
  | Some e => (Some (EWrap "close temp file" e), d3, [d1; d2; d3])
  | None =>
  match io_rename io with
  | Some e => (Some (EWrap "rename temp file into place" e), d3, [d1; d2; d3])
  | None =>
  let d4 := sys_rename d3 in
  match io_diropen io with
  | Some _ => (None, d4, [d1; d2; d3; d4])
  | None =>
  match io_dirsync io with
  | Some _ => (None, d4, [d1; d2; d3; d4])
  | None => let d5 := sys_dirsync d4 in (None, d5, [d1; d2; d3; d4; d5])
  end end end end end end end end.

Definition writeFile (io : FileIO) (ps : list StoredProvider) (d : Disk) : option error * Disk :=
  (writeFile_log io ps d).1.

Definition Save (io : FileIO) (p : StoredProvider) (d : Disk) : option error * Disk :=
  match validateStoredProvider p with
  | Some e => (Some (EWrap "invalid provider record" e), d)
  | None =>
      match readFile io d with
      | Err e => (Some e, d)
      | Ok providers => writeFile io (upsert p providers) d
      end
  end.

Definition Delete (io : FileIO) (name : string) (d : Disk) : option error * Disk :=
  match readFile io d with
  | Err e => (Some e, d)
  | Ok providers => writeFile io (without name providers) d
  end.

Definition List_ (io : FileIO) (d : Disk) : result (list StoredProvider) := readFile io d.

Definition findBy (io : FileIO) (match_ : StoredProvider → bool) (d : Disk)
  : result (option StoredProvider) :=
  match readFile io d with
  | Err e => Err e
  | Ok providers => Ok (List.find match_ providers)
  end.

Definition GetByID (io : FileIO) (id : string) (d : Disk) : result (option StoredProvider) :=
  findBy io (by_id id) d.

Definition GetByName (io : FileIO) (name : string) (d : Disk) : result (option StoredProvider) :=
  findBy io (by_name name) d.

End FileStore.

#[export] Instance file_store : Store Disk FileIO := {
  Save := FileStore.Save;
  Delete := FileStore.Delete;
  List_ := FileStore.List_;
  GetByID := FileStore.GetByID;
  GetByName := FileStore.GetByName
}.

(** ** Lemmas on record lists *)

Lemma upsert_valid p l :
  validateStoredProvider p = None →
  Forall (λ p, validateStoredProvider p = None) l →
  Forall (λ p, validateStoredProvider p = None) (upsert p l).
Proof.
  intros Hp. induction 1 as [|q l Hq Hl IH]; simpl; [by constructor|].
  case_bool_decide; by constructor.
Qed.

Lemma without_valid n l :
  Forall (λ p, validateStoredProvider p = None) l →
  Forall (λ p, validateStoredProvider p = None) (without n l).
Proof.
  rewrite !Forall_forall. intros H p Hp. apply H.
  by apply list_elem_of_filter in Hp as [_ ?].
Qed.

Lemma find_upsert_same p l : List.find (by_name (Name p)) (upsert p l) = Some p.
Proof.
  unfold by_name. induction l as [|q l IH]; simpl.
  - by rewrite bool_decide_eq_true_2.
  - case_bool_decide as E; simpl; [by rewrite bool_decide_eq_true_2|].
    by rewrite bool_decide_eq_false_2.
Qed.

Lemma find_upsert_other p n l :
  n ≠ Name p → List.find (by_name n) (upsert p l) = List.find (by_name n) l.
Proof.
  intros Hne. unfold by_name. induction l as [|q l IH]; simpl.
  - by rewrite bool_decide_eq_false_2.
  - case_bool_decide as E; simpl.
    + by rewrite !bool_decide_eq_false_2 by congruence.
    + by rewrite IH.
Qed.

Lemma find_without n m l :
  List.find (by_name n) (without m l) = if n =s? m then None else List.find (by_name n) l.
Proof.
  induction l as [|q l IH]; [by case_bool_decide|]. unfold without in *.
  rewrite filter_cons. destruct (decide (Name q ≠ m)) as [E|E]; cbn [List.find]; rewrite IH.
  - unfold by_name. repeat case_bool_decide; congruence.
  - apply dec_stable in E. unfold by_name. repeat case_bool_decide; congruence.
Qed.

Lemma upsert_elem p q l : q ∈ upsert p l → q = p ∨ q ∈ l.
Proof.
  induction l as [|r l IH]; simpl; [set_solver|]. case_bool_decide; set_solver.
Qed.

Lemma upsert_names p l :
  Name <$> upsert p l = if decide (Name p ∈ Name <$> l) then Name <$> l else (Name <$> l) ++ [Name p].
Proof.
  induction l as [|q l IH]; [done|]. simpl upsert.
  case_bool_decide as E; rewrite !fmap_cons.
  - rewrite E, decide_True by set_solver. done.
  - rewrite IH. repeat case_decide; try done; set_solver.
Qed.

Lemma upsert_NoDup p l : NoDup (Name <$> l) → NoDup (Name <$> upsert p l).
Proof.
  intros H. rewrite upsert_names. case_decide as E; [done|].
  apply NoDup_app. split_and!; [done| |apply NoDup_singleton]. set_solver.
Qed.

Lemma without_NoDup n l : NoDup (Name <$> l) → NoDup (Name <$> without n l).
Proof.
  unfold without. induction l as [|q l IH]; [done|].
  rewrite fmap_cons, NoDup_cons. intros [Hq Hl]. rewrite filter_cons.
  case_decide; [|by apply IH]. rewrite fmap_cons, NoDup_cons. split; [|by apply IH].
  contradict Hq. apply list_elem_of_fmap in Hq as (r & -> & Hr).
  apply list_elem_of_filter in Hr as [_ Hr]. by apply list_elem_of_fmap_2.
Qed.

#[export] Hint Resolve upsert_valid without_valid upsert_NoDup without_NoDup : agent.

(** ** The file store implements the interface *)

Module FileStoreFacts.
Import FileStore.

Lemma first_invalid_None i ps :
  first_invalid i ps = None ↔ Forall (λ p, validateStoredProvider p = None) ps.
Proof.
  revert i. induction ps as [|p ps IH]; intros i; simpl; [split; [constructor|done]|].
  rewrite Forall_cons. destruct (validateStoredProvider p); [naive_solver|].
  rewrite IH. naive_solver.
Qed.

(** The file can be read back: it is missing, empty, or holds valid records. *)
Definition disk_inv (d : Disk) : Prop :=
  match main d with
  | Some {| cached := FBad |} => False
  | Some {| cached := FProviders ps |} => Forall (λ p, validateStoredProvider p = None) ps
  | _ => True
  end.

Definition disk_contents (d : Disk) : list StoredProvider :=
  match main d with
  | Some {| cached := FProviders ps |} => ps
  | _ => []
  end.

Lemma readFile_ok io d : disk_inv d → io_read io = None → readFile io d = Ok (disk_contents d).
Proof.
  unfold disk_inv, readFile, disk_contents. intros Hd ->.
  destruct (main d) as [[[| |ps] ?]|]; try done. simpl.
  by apply (first_invalid_None 0) in Hd as ->.
Qed.

Lemma readFile_inv io d l : disk_inv d → readFile io d = Ok l → l = disk_contents d.
Proof.
  intros Hd H. destruct (io_read io) eqn:E; [unfold readFile in H; by rewrite E in H|].
  rewrite readFile_ok in H by done. congruence.
Qed.

Lemma writeFile_main io ps d :
  (writeFile io ps d).1 = None ∧
    main (writeFile io ps d).2 = Some {| cached := FProviders ps; durable := true |} ∨
  (writeFile io ps d).1 ≠ None ∧ main (writeFile io ps d).2 = main d.
Proof. unfold writeFile, writeFile_log. repeat case_match; simpl; auto. Qed.

Lemma writeFile_spec io ps d :
  disk_inv d → Forall (λ p, validateStoredProvider p = None) ps →
  disk_inv (writeFile io ps d).2 ∧
  disk_contents (writeFile io ps d).2 =
    match (writeFile io ps d).1 with None => ps | Some _ => disk_contents d end.
Proof.
  unfold disk_inv, disk_contents. intros Hd Hps.
  destruct (writeFile_main io ps d) as [[-> ->]|[He ->]]; [done|].
  by destruct (writeFile io ps d).1.
Qed.

Lemma contents_are_valid d :
  disk_inv d → Forall (λ p, validateStoredProvider p = None) (disk_contents d).
Proof.
  unfold disk_inv, disk_contents. by destruct (main d) as [[[| |ps] ?]|].
Qed.

Lemma Save_spec io p d :
  disk_inv d →
  disk_inv (Save io p d).2 ∧
  disk_contents (Save io p d).2 =
    match (Save io p d).1 with None => upsert p (disk_contents d) | Some _ => disk_contents d end.
Proof.
  intros Hd. unfold Save. destruct (validateStoredProvider p) eqn:Hv; [done|].
  destruct (readFile io d) as [l|] eqn:Hr; [|done].
  apply readFile_inv in Hr as ->; [|done].
  apply writeFile_spec; [done|]. apply upsert_valid; [done|by apply contents_are_valid].
Qed.

Lemma Delete_spec io n d :
  disk_inv d →
  disk_inv (Delete io n d).2 ∧
  disk_contents (Delete io n d).2 =
    match (Delete io n d).1 with None => without n (disk_contents d) | Some _ => disk_contents d end.
Proof.
  intros Hd. unfold Delete. destruct (readFile io d) as [l|] eqn:Hr; [|done].
  apply readFile_inv in Hr as ->; [|done].
  apply writeFile_spec; [done|]. by apply without_valid, contents_are_valid.
Qed.

Lemma findBy_spec io f d r :
  disk_inv d → findBy io f d = Ok r → r = List.find f (disk_contents d).
Proof.
  intros Hd. unfold findBy. destruct (readFile io d) eqn:Hr; [|done].
  apply readFile_inv in Hr as ->; [|done]. congruence.
Qed.

End FileStoreFacts.

#[export] Program Instance file_store_ok : StoreOk Disk FileIO := {
  store_inv := FileStoreFacts.disk_inv;
  contents := FileStoreFacts.disk_contents
}.
Next Obligation. apply FileStoreFacts.contents_are_valid. Qed.
Next Obligation. intros io d l. apply FileStoreFacts.readFile_inv. Qed.
Next Obligation. intros io id d r. apply FileStoreFacts.findBy_spec. Qed.
Next Obligation. intros io n d r. apply FileStoreFacts.findBy_spec. Qed.
Next Obligation. intros io p d Hd. by apply FileStoreFacts.Save_spec. Qed.
Next Obligation.
  simpl. intros io p d Hd He. destruct (FileStoreFacts.Save_spec io p d Hd) as [_ ->]. by rewrite He.
Qed.
Next Obligation.
  simpl. intros io p d Hd He. destruct (FileStoreFacts.Save_spec io p d Hd) as [_ ->].
  by destruct (FileStore.Save io p d).1.
Qed.
Next Obligation. intros io n d Hd. by apply FileStoreFacts.Delete_spec. Qed.
Next Obligation.
  simpl. intros io n d Hd He. destruct (FileStoreFacts.Delete_spec io n d Hd) as [_ ->]. by rewrite He.
Qed.
Next Obligation.
  simpl. intros io n d Hd He. destruct (FileStoreFacts.Delete_spec io n d Hd) as [_ ->].
  by destruct (FileStore.Delete io n d).1.
Qed.

(** ** Crash points of a write *)

(** The directory entries as they were before the write. *)
Definition same_entries (d x : Disk) : Prop :=
  main x = main d ∧ main_stable x = main_stable d.

(** The new file in place: its contents are synced, and the stable entry is
    still the old one or already the new one. *)
Definition committed (ps : list StoredProvider) (d x : Disk) : Prop :=
  main x = Some {| cached := FProviders ps; durable := true |} ∧
  (main_stable x = main_stable d ∨ main_stable x = main x).

Lemma writeFile_states io ps d :
  let '(err, d', log) := FileStore.writeFile_log io ps d in
  Forall (λ x, same_entries d x ∨ err = None ∧ committed ps d x) log ∧
  d' = List.last log d ∧
  (err = None → io_diropen io = None → io_dirsync io = None →
   main d' = Some {| cached := FProviders ps; durable := true |} ∧ main_stable d' = main d').
Proof.
  unfold FileStore.writeFile_log, same_entries, committed.
  repeat case_match; simplify_eq/=; split_and!; try done;
    repeat (apply Forall_cons; split); try apply Forall_nil; simpl; auto.
Qed.

Lemma recovered_same d x b : same_entries d x → recovered x b → recovered d b.
Proof.
  intros [Hm Hs] H. destruct H as [e He ?|e i He ??|e i b He ??]; rewrite Hm, Hs in He;
    [eapply rec_none|eapply rec_durable|eapply rec_torn]; eauto.
Qed.

(** What a disk recovers comes from one of the two entries. *)
Lemma recovered_entry d b :
  recovered d b ↔
  ∃ e, (e = main d ∨ e = main_stable d) ∧
       match e with
       | None => b = None
       | Some i => ∃ c, b = Some c ∧ (durable i = true → c = cached i)
       end.
Proof.
  split.
  - intros [e He ->|e i He -> Hd|e i c He -> Hd]; eexists; (split; [exact He|]); simpl;
      [done|eauto|]. exists c. split; [done|congruence].
  - intros (e & He & Hb). destruct e as [i|].
    + destruct Hb as (c & -> & Hc). destruct (durable i) eqn:Hd.
      * rewrite Hc by done. by eapply rec_durable.
      * by eapply rec_torn.
    + subst. by eapply rec_none.
Qed.

Lemma recovered_committed ps d x b :
  committed ps d x → recovered x b → recovered d b ∨ b = Some (FProviders ps).
Proof.
  intros [Hm Hs]. rewrite recovered_entry. intros (e & He & Hb).
  assert (e = main x ∨ e = main_stable d) as [->| ->]
    by (destruct He as [?| ->]; [auto|destruct Hs as [->| ->]; auto]).
  - rewrite Hm in Hb. destruct Hb as (c & -> & Hc). right. by rewrite Hc.
  - left. rewrite recovered_entry. eauto.
Qed.

(** ** Main theorems *)

(** C8: crash safety of the write protocol (temp file, fsync, rename, fsync of
    the directory): if the process or the machine dies after any of the
    system calls, with any combination of failing calls, the file holds
    what it could have held before the write, or exactly the new records;
    when the write reports an error the file holds what it could have held
    before, at every crash point; and when it reports success with the
    directory synced the new records are certain. *)
Theorem write_file_crash_safe (io : FileIO) (ps : list StoredProvider) (d : Disk) :
  let '(err, d', log) := FileStore.writeFile_log io ps d in
  (∀ x b, x ∈ d :: log → recovered x b → recovered d b ∨ b = Some (FProviders ps)) ∧
  (err ≠ None → ∀ x b, x ∈ d :: log → recovered x b → recovered d b) ∧
  (err = None → io_diropen io = None → io_dirsync io = None →
     ∀ b, recovered d' b → b = Some (FProviders ps)) ∧
  d' = List.last log d.
Proof.
  pose proof (writeFile_states io ps d) as H.
  destruct (FileStore.writeFile_log io ps d) as [[err d'] log].
  destruct H as (Hlog & Hlast & Hdone). rewrite Forall_forall in Hlog.
  assert (Hpts : ∀ x, x ∈ d :: log → same_entries d x ∨ err = None ∧ committed ps d x).
  { intros x [->|Hx]%elem_of_cons; [by left|by apply Hlog]. }
  split_and!; [| | |done].
  - intros x b Hx Hb. destruct (Hpts x Hx) as [?|[_ ?]];
      [left; by eapply recovered_same|by eapply recovered_committed].
  - intros He x b Hx Hb. destruct (Hpts x Hx) as [?|[? _]]; [by eapply recovered_same|done].
  - intros He Ho Hs b. destruct (Hdone He Ho Hs) as [Hm Hst].
    rewrite recovered_entry, Hst, Hm. intros (e & He' & Hb).
    assert (e = Some {| cached := FProviders ps; durable := true |}) as -> by naive_solver.
    destruct Hb as (c & -> & Hc). by rewrite Hc.
Qed.

(** Insert/lookup round trip of the store: after a successful [Save] the
    record is found by its name, every other name gives what it gave before,
    and after a failed [Save] (invalid record, or any failing system call)
    every lookup is unchanged; a successful [Delete] removes exactly its
    name. *)
Theorem file_store_roundtrip (io : FileIO) (p : StoredProvider) (n : string) (d : Disk) :
  FileStoreFacts.disk_inv d →
  (let '(err, d') := FileStore.Save io p d in
   (err = None → FileStore.GetByName io_ok (Name p) d' = Ok (Some p)) ∧
   (err = None → n ≠ Name p →
      FileStore.GetByName io_ok n d' = FileStore.GetByName io_ok n d) ∧
   (err ≠ None → FileStore.GetByName io_ok n d' = FileStore.GetByName io_ok n d)) ∧
  (let '(err, d') := FileStore.Delete io n d in
   (err = None → FileStore.GetByName io_ok n d' = Ok None) ∧
   (err = None → n ≠ Name p →
      FileStore.GetByName io_ok (Name p) d' = FileStore.GetByName io_ok (Name p) d) ∧
   (err ≠ None → FileStore.GetByName io_ok n d' = FileStore.GetByName io_ok n d)).
Proof.
  intros Hd. unfold FileStore.GetByName, FileStore.findBy.
  pose proof (FileStoreFacts.Save_spec io p d Hd) as [Hs Hsc].
  pose proof (FileStoreFacts.Delete_spec io n d Hd) as [Hx Hxc].
  destruct (FileStore.Save io p d) as [es ds], (FileStore.Delete io n d) as [ex dx]. simpl in *.
  rewrite !FileStoreFacts.readFile_ok by done.
  split; split_and!.
  - intros ->. by rewrite Hsc, find_upsert_same.
  - intros -> Hne. by rewrite Hsc, find_upsert_other.
  - destruct es; [|done]. intros _. by rewrite Hsc.
  - intros ->. by rewrite Hxc, find_without, bool_decide_eq_true_2.
  - intros -> Hne. by rewrite Hxc, find_without, bool_decide_eq_false_2.
  - destruct ex; [|done]. intros _. by rewrite Hxc.
Qed.

Definition sample_provider (name st : string) : StoredProvider :=
  mkStoredProvider ("id-" +:+ name) name "http://sp:8080" st "v1alpha1" None None "" "external" 1 1.

Lemma file_store_roundtrip_witness :
  FileStore.GetByName io_ok "vm-sp"
    (FileStore.Save io_ok (sample_provider "vm-sp" "vm") (mkDisk None None None)).2
  = Ok (Some (sample_provider "vm-sp" "vm")).
Proof.
  pose proof (file_store_roundtrip io_ok (sample_provider "vm-sp" "vm") "x"
    (mkDisk None None None) I) as [H _].
  destruct (FileStore.Save io_ok (sample_provider "vm-sp" "vm") (mkDisk None None None))
    as [err d'] eqn:E.
  vm_compute in E. injection E as <- <-. destruct H as [H _]. exact (H eq_refl).
Defined.
