(* ===== verification/Health.v ===== *)
(** * Provider health monitoring

    Models internal/health/monitor: the per-provider state machine
    (statemachine.go), the health checkers (checker.go) and the monitor
    (monitor.go).  State machines are heap objects, because the monitor
    decides whether a finished check is still current by comparing pointers;
    a check in flight is a snapshot that is applied later, so that checks
    interleave with registrations. *)

From S2P Require Import Prelude GoStrings Provider.

(** ** statemachine.go *)

Inductive HealthCheckResult := CheckHealthy | CheckUnhealthy | CheckFailed.

Record StateMachine := mkSM {
  state : ProviderStatus;
  failureCounter : Z;
  failureThreshold : Z
}.

Definition NewStateMachine (failureThreshold : Z) (initialState : ProviderStatus) : StateMachine :=
  mkSM initialState 0 failureThreshold.

(** Returns the transition [(from, to)] and the updated machine. *)
Definition RecordResult (result : HealthCheckResult) (sm : StateMachine)
  : ProviderStatus * ProviderStatus * StateMachine :=
  let from := state sm in
  let sm' :=
    match result with
    | CheckHealthy => mkSM Ready 0 (failureThreshold sm)
    | CheckUnhealthy => mkSM Unhealthy 0 (failureThreshold sm)
    | CheckFailed =>
        let c := if bool_decide (state sm = Unavailable) then failureCounter sm
                 else wrap64 (failureCounter sm + 1) in
        mkSM (if failureThreshold sm <=? c then Unavailable else state sm) c (failureThreshold sm)
    end in
  (from, state sm', sm').

Definition record_all (rs : list HealthCheckResult) (sm : StateMachine) : StateMachine :=
  fold_left (λ sm r, (RecordResult r sm).2) rs sm.

(** ** checker.go *)

(** Outcome of [client.Do(GET <endpoint>/health)]: an error, or a status code
    and the [status] field of the body when it decodes. *)
Inductive http_outcome :=
  | HttpFail
  | HttpResp (code : Z) (status : option string).

(** [url_ok] and [req_ok]: whether building the URL and the request succeed. *)
Definition ExternalChecker_Check (url_ok req_ok : bool) (o : http_outcome) : HealthCheckResult :=
  if negb url_ok then CheckFailed
  else if negb req_ok then CheckFailed
  else
    match o with
    | HttpFail => CheckFailed
    | HttpResp code status =>
        if negb (code =? 200) then CheckFailed
        else
          match status with
          | None => CheckFailed
          | Some s =>
              if ToLower s =s? "healthy" then CheckHealthy
              else if ToLower s =s? "unhealthy" then CheckUnhealthy
              else CheckFailed
          end
    end.

Fixpoint drop_slashes (l : list Ascii.ascii) : list Ascii.ascii :=
  match l with
  | c :: l' => if bool_decide (c = Ascii.ascii_of_nat 47) then drop_slashes l' else l
  | [] => []
  end.

(** [strings.TrimRight(endpoint, "/")], the endpoint a checker polls. *)
Definition NewExternalChecker_endpoint (endpoint : string) : string :=
  of_chars (rev (drop_slashes (rev (chars endpoint)))).

Definition embedded_health_key (serviceType : string) : string :=
  "AGENT_EMBEDDED_SP_" +:+ ToUpper serviceType +:+ "_HEALTH".

(** [getenv] is [os.Getenv]: empty for an unset variable. *)
Definition DefaultEmbeddedCheckFn (getenv : string → string) (serviceType : string)
  : HealthCheckResult :=
  let val := ToLower (getenv (embedded_health_key serviceType)) in
  if (val =s? "") || (val =s? "healthy") then CheckHealthy
  else if val =s? "unhealthy" then CheckUnhealthy
  else CheckUnhealthy.

(** ** monitor.go *)

(** A checker is identified by what it polls. *)
Inductive Checker :=
  | ExternalChecker (endpoint : string)
  | EmbeddedChecker (serviceType : string).

Record providerEntry := { sm : nat; checker : Checker; serviceType : string }.

(** [heap] holds the state machines, [next_sm] is the next free address,
    [tracker] the shared health tracker; [callback] says whether
    [onTransition] is set. *)
Record Monitor := mkMonitor {
  tracker : gmap string HealthState;
  providers : gmap string providerEntry;
  heap : gmap nat StateMachine;
  next_sm : nat;
  threshold : Z;
  callback : bool;
  started : bool;
  stopped : bool
}.

Definition New (tracker : gmap string HealthState) (failureThreshold : Z) : Monitor :=
  mkMonitor tracker ∅ ∅ 0 failureThreshold false false false.

Definition SetOnTransition (m : Monitor) : Monitor :=
  mkMonitor (tracker m) (providers m) (heap m) (next_sm m) (threshold m) true (started m) (stopped m).

(** The flag part of [Start]; the loop itself is [CheckAll] steps below. *)
Definition Start (m : Monitor) : Monitor :=
  if stopped m || started m then m
  else mkMonitor (tracker m) (providers m) (heap m) (next_sm m) (threshold m) (callback m) true (stopped m).

Definition Stop (m : Monitor) : Monitor :=
  mkMonitor (tracker m) (providers m) (heap m) (next_sm m) (threshold m) (callback m) (started m) true.

Definition DeregisterProvider (id : string) (m : Monitor) : Monitor :=
  mkMonitor (tracker m) (delete id (providers m)) (heap m) (next_sm m) (threshold m)
    (callback m) (started m) (stopped m).

(** A state transition handed to the [onTransition] callback. *)
Record transition := { tr_id : string; tr_from : ProviderStatus; tr_to : ProviderStatus }.

(** The critical section both [RegisterProvider] and [checkProvider] run once
    the check has an outcome: the result counts only when the entry still
    refers to the state machine the check was started for. *)
Definition recordCheck (id : string) (a : nat) (result : HealthCheckResult) (now : Z) (m : Monitor)
  : list transition * Monitor :=
  match providers m !! id with
  | Some entry =>
      if bool_decide (sm entry = a) then
        match heap m !! a with
        | Some machine =>
            let '(from, to, machine') := RecordResult result machine in
            (if negb (bool_decide (from = to)) && callback m
             then [{| tr_id := id; tr_from := from; tr_to := to |}] else [],
             mkMonitor (HealthTracker.SetState id to now (tracker m)) (providers m)
               (<[a := machine']> (heap m)) (next_sm m) (threshold m) (callback m)
               (started m) (stopped m))
        | None => ([], m)
        end
      else ([], m)
  | None => ([], m)
  end.

(** First critical section of [RegisterProvider]: allocate a state machine and
    install the entry.  Returns the address when an initial check is to run. *)
Definition registerEntry (id : string) (c : Checker) (serviceType : string)
    (initialState : ProviderStatus) (m : Monitor) : option nat * Monitor :=
  if stopped m then (None, m)
  else
    let a := next_sm m in
    (Some a,
     mkMonitor (tracker m)
       (<[id := {| sm := a; checker := c; serviceType := serviceType |}]> (providers m))
       (<[a := NewStateMachine (threshold m) initialState]> (heap m)) (S a)
       (threshold m) (callback m) (started m) (stopped m)).

(** Second critical section of [RegisterProvider] (initial check only). *)
Definition finishInitial (id : string) (a : nat) (result : HealthCheckResult) (now : Z) (m : Monitor)
  : list transition * Monitor :=
  if stopped m then ([], m) else recordCheck id a result now m.

(** [RegisterProvider] without interference between its critical sections;
    [check] is the outcome of [checker.Check]. *)
Definition RegisterProvider (id : string) (c : Checker) (serviceType : string)
    (initialState : ProviderStatus) (initialCheck : bool) (check : Checker → HealthCheckResult)
    (now : Z) (m : Monitor) : list transition * Monitor :=
  match registerEntry id c serviceType initialState m with
  | (None, m') => ([], m')
  | (Some a, m') => if initialCheck then finishInitial id a (check c) now m' else ([], m')
  end.

(** [providerSnapshot] of [checkAll]. *)
Definition snapshot (m : Monitor) : list (string * Checker * nat) :=
  (λ '(id, e), (id, checker e, sm e)) <$> map_to_list (providers m).

(** [checkProvider] once its check has an outcome. *)
Definition checkProvider (p : string * Checker * nat) (result : HealthCheckResult) (now : Z) (m : Monitor)
  : list transition * Monitor :=
  recordCheck p.1.1 p.2 result now m.

(** [checkAll] with the checks applied in the order of the snapshot. *)
Definition checkAll (check : Checker → HealthCheckResult) (now : Z) (m : Monitor)
  : list transition * Monitor :=
  fold_left (λ '(ts, m) p, let '(ts', m') := checkProvider p (check p.1.2) now m in (ts ++ ts', m'))
    (snapshot m) ([], m).

(** ** The state machine in closed form *)

(** Status last asserted by the provider and failed checks since. *)
Definition tally (init : ProviderStatus) (rs : list HealthCheckResult) : ProviderStatus * Z :=
  fold_left (λ '(base, n) r,
    match r with
    | CheckHealthy => (Ready, 0)
    | CheckUnhealthy => (Unhealthy, 0)
    | CheckFailed => (base, n + 1)
    end) rs (init, 0).

Definition verdict (threshold : Z) (init : ProviderStatus) (rs : list HealthCheckResult)
  : ProviderStatus :=
  let '(base, n) := tally init rs in
  if threshold <=? n then Unavailable else base.

Lemma tally_snoc init rs r :
  tally init (rs ++ [r]) =
    match r with
    | CheckHealthy => (Ready, 0)
    | CheckUnhealthy => (Unhealthy, 0)
    | CheckFailed => let '(base, n) := tally init rs in (base, n + 1)
    end.
Proof. unfold tally; rewrite fold_left_app; simpl. destruct (fold_left _ rs _); by destruct r. Qed.

Lemma tally_nonneg init rs : 0 ≤ (tally init rs).2.
Proof.
  induction rs as [|r rs IH] using rev_ind; [done|].
  rewrite tally_snoc; destruct r; simpl; try lia.
  destruct (tally init rs); simpl in *; lia.
Qed.

Lemma record_all_snoc rs r m :
  record_all (rs ++ [r]) m = (RecordResult r (record_all rs m)).2.
Proof. unfold record_all; rewrite fold_left_app; reflexivity. Qed.

Lemma record_all_tally th init rs :
  1 ≤ th ≤ int64_max →
  let m := record_all rs (NewStateMachine th init) in
  let '(base, n) := tally init rs in
  failureThreshold m = th ∧ state m = verdict th init rs ∧
  failureCounter m = (if bool_decide (base = Unavailable) then 0 else Z.min n th).
Proof.
  intros Hth; induction rs as [|r rs IH] using rev_ind; cbn zeta.
  { simpl. unfold verdict; simpl. rewrite (proj2 (Z.leb_gt th 0)) by lia.
    split_and!; [done..|]. case_match; lia. }
  cbn zeta in IH. pose proof (tally_nonneg init rs) as Hn.
  rewrite record_all_snoc, tally_snoc.
  unfold verdict in *; rewrite tally_snoc.
  destruct (tally init rs) as [base n]; simpl in Hn.
  destruct IH as (Ht & Hs & Hc); destruct r; simpl; rewrite ?Ht.
  - rewrite (proj2 (Z.leb_gt th 0)) by lia. split_and!; try done; lia.
  - rewrite (proj2 (Z.leb_gt th 0)) by lia. split_and!; try done; lia.
  - assert (int64_max = 9223372036854775807) as Hmax by reflexivity.
    destruct (Z.leb_spec th n) as [Hle|Hlt]; rewrite Hs, Hc.
    + rewrite !(bool_decide_eq_true_2 (Unavailable = Unavailable)) by done.
      rewrite (proj2 (Z.leb_le th (n + 1))) by lia.
      destruct (bool_decide (base = Unavailable)); split_and!; try done; cases; try done; lia.
    + destruct (decide (base = Unavailable)) as [->|Hb].
      * rewrite !bool_decide_eq_true_2 by done. split_and!; try done; cases; done.
      * rewrite !bool_decide_eq_false_2 by done.
        rewrite wrap64_id by (unfold in_int64, int64_min; lia).
        rewrite Z.min_l by lia. split_and!; [done| |lia]. reflexivity.
Qed.

Corollary record_all_state th init rs :
  1 ≤ th ≤ int64_max → state (record_all rs (NewStateMachine th init)) = verdict th init rs.
Proof.
  intros H; pose proof (record_all_tally th init rs H) as P; cbn zeta in P.
  destruct (tally init rs); tauto.
Qed.

(** ** Interleaved monitor operations *)

(** One critical section of the monitor.  [EvInitial] and [EvCheck] carry the
    state machine the check was started for, which may be stale by then. *)
Inductive mon_event :=
  | EvRegister (id : string) (c : Checker) (st : string) (init : ProviderStatus)
  | EvInitial (id : string) (a : nat) (result : HealthCheckResult) (now : Z)
  | EvCheck (id : string) (a : nat) (result : HealthCheckResult) (now : Z)
  | EvDeregister (id : string)
  | EvSetOnTransition
  | EvStart
  | EvStop.

Definition mon_apply (ev : mon_event) (m : Monitor) : list transition * Monitor :=
  match ev with
  | EvRegister id c st init => ([], (registerEntry id c st init m).2)
  | EvInitial id a r now => finishInitial id a r now m
  | EvCheck id a r now => recordCheck id a r now m
  | EvDeregister id => ([], DeregisterProvider id m)
  | EvSetOnTransition => ([], SetOnTransition m)
  | EvStart => ([], Start m)
  | EvStop => ([], Stop m)
  end.

Fixpoint mon_run (evs : list mon_event) (m : Monitor) : list transition * Monitor :=
  match evs with
  | [] => ([], m)
  | ev :: evs' =>
      let '(ts, m1) := mon_apply ev m in
      let '(ts', m2) := mon_run evs' m1 in (ts ++ ts', m2)
  end.

(** *** Specification: a log of check results per registration *)

Record log_entry := mkLogEntry { l_addr : nat; l_init : ProviderStatus; l_results : list HealthCheckResult }.
Record log := mkLog { l_entries : gmap string log_entry; l_next : nat; l_cb : bool; l_stopped : bool }.

Definition l_status (th : Z) (le : log_entry) : ProviderStatus := verdict th (l_init le) (l_results le).

Definition log_record (th : Z) (id : string) (a : nat) (r : HealthCheckResult) (l : log)
  : list transition * log :=
  match l_entries l !! id with
  | Some le =>
      if bool_decide (l_addr le = a) then
        let le' := mkLogEntry a (l_init le) (l_results le ++ [r]) in
        (if negb (bool_decide (l_status th le = l_status th le')) && l_cb l
         then [{| tr_id := id; tr_from := l_status th le; tr_to := l_status th le' |}] else [],
         mkLog (<[id := le']> (l_entries l)) (l_next l) (l_cb l) (l_stopped l))
      else ([], l)
  | None => ([], l)
  end.

Definition log_apply (th : Z) (ev : mon_event) (l : log) : list transition * log :=
  match ev with
  | EvRegister id _ _ init =>
      ([], if l_stopped l then l
           else mkLog (<[id := mkLogEntry (l_next l) init []]> (l_entries l)) (S (l_next l)) (l_cb l) false)
  | EvInitial id a r _ => if l_stopped l then ([], l) else log_record th id a r l
  | EvCheck id a r _ => log_record th id a r l
  | EvDeregister id => ([], mkLog (delete id (l_entries l)) (l_next l) (l_cb l) (l_stopped l))
  | EvSetOnTransition => ([], mkLog (l_entries l) (l_next l) true (l_stopped l))
  | EvStart => ([], l)
  | EvStop => ([], mkLog (l_entries l) (l_next l) (l_cb l) true)
  end.

Fixpoint log_run (th : Z) (evs : list mon_event) (l : log) : list transition * log :=
  match evs with
  | [] => ([], l)
  | ev :: evs' =>
      let '(ts, l1) := log_apply th ev l in
      let '(ts', l2) := log_run th evs' l1 in (ts ++ ts', l2)
  end.

Definition entry_rel (th : Z) (m : Monitor) (id : string) (e : providerEntry) (le : log_entry) : Prop :=
  sm e = l_addr le ∧ (l_addr le < next_sm m)%nat ∧
  heap m !! sm e = Some (record_all (l_results le) (NewStateMachine th (l_init le))) ∧
  (id ≠ "" → l_results le ≠ [] → Status <$> tracker m !! id = Some (l_status th le)).

Definition log_rel (th : Z) (m : Monitor) (l : log) : Prop :=
  threshold m = th ∧ next_sm m = l_next l ∧ callback m = l_cb l ∧ stopped m = l_stopped l ∧
  (∀ id, option_Forall2 (entry_rel th m id) (providers m !! id) (l_entries l !! id)) ∧
  (∀ i j e e', providers m !! i = Some e → providers m !! j = Some e' → sm e = sm e' → i = j).

Lemma entry_rel_frame th m m' id e le :
  (next_sm m ≤ next_sm m')%nat →
  heap m' !! sm e = heap m !! sm e → tracker m' !! id = tracker m !! id →
  entry_rel th m id e le → entry_rel th m' id e le.
Proof. intros Hn Hh Ht (?&?&?&?); unfold entry_rel; rewrite Hh, Ht; split_and!; auto; lia. Qed.

Lemma log_rel_new th t : log_rel th (New t th) (mkLog ∅ 0 false false).
Proof. split_and!; try done. intros id; simpl; rewrite !lookup_empty; constructor. Qed.

Section refine.
Context (th : Z) (Hth : 1 ≤ th ≤ int64_max).

Lemma register_rel id c st init m l :
  log_rel th m l →
  log_rel th (registerEntry id c st init m).2 (log_apply th (EvRegister id c st init) l).2.
Proof.
  intros Hrel; pose proof Hrel as (Ht & Hn & Hc & Hs & Hent & Hinj).
  unfold registerEntry; simpl; rewrite <-Hs. destruct (stopped m) eqn:Est; [done|]; simpl.
  assert (∀ j e, providers m !! j = Some e → (sm e < next_sm m)%nat) as Hlt.
  { intros j e Hj; specialize (Hent j); rewrite Hj in Hent; inversion Hent; subst.
    match goal with H : entry_rel _ _ _ _ _ |- _ => destruct H as (->&?&_); done end. }
  split_and!; simpl; auto.
  - intros j; destruct (decide (j = id)) as [->|Hne].
    + rewrite !lookup_insert_eq; constructor; split_and!; simpl; auto; try lia; try done.
      by rewrite lookup_insert_eq, Ht.
    + rewrite !lookup_insert_ne by done. specialize (Hent j).
      destruct (providers m !! j) as [e|] eqn:Ej; inversion Hent; subst; constructor.
      eapply entry_rel_frame; [| | |eassumption]; simpl; try lia; [|done].
      rewrite lookup_insert_ne; [done|]. apply Hlt in Ej; lia.
  - intros i j e e'; rewrite !lookup_insert_Some.
    intros [[<- <-]|[? Hi]] [[<- <-]|[? Hj]]; simpl; eauto.
    + intros Hx; apply Hlt in Hj; lia.
    + intros Hx; apply Hlt in Hi; lia.
Qed.

Lemma record_rel id a r now m l :
  log_rel th m l →
  (recordCheck id a r now m).1 = (log_record th id a r l).1 ∧
  log_rel th (recordCheck id a r now m).2 (log_record th id a r l).2.
Proof using Hth.
  intros Hrel; pose proof Hrel as (Ht & Hn & Hc & Hs & Hent & Hinj).
  unfold recordCheck, log_record. pose proof (Hent id) as Hid.
  destruct (providers m !! id) as [e|] eqn:Ee; inversion Hid as [? le He|]; subst; [|done].
  pose proof He as (Hsm & Hlt & Hh & Htr). rewrite <-Hsm.
  case_bool_decide as Ha; [subst a|done]. rewrite Hh.
  set (mc := record_all _ _). set (le' := mkLogEntry _ _ _).
  assert (state mc = l_status (threshold m) le) as H1 by (by apply record_all_state).
  assert ((RecordResult r mc).2 = record_all (l_results le') (NewStateMachine (threshold m) (l_init le))) as H2.
  { unfold le'; simpl; by rewrite record_all_snoc. }
  assert (state (RecordResult r mc).2 = l_status (threshold m) le') as H3.
  { rewrite H2; by apply record_all_state. }
  assert (RecordResult r mc = (state mc, state (RecordResult r mc).2, (RecordResult r mc).2)) as Heq by done.
  rewrite Heq, H3, H1, Hc; simpl. split; [done|].
  split_and!; simpl; auto.
  intros j; destruct (decide (j = id)) as [->|Hne].
  - rewrite Ee, lookup_insert_eq; constructor; split_and!; simpl; auto.
    + lia.
    + rewrite lookup_insert_eq; f_equal; exact H2.
    + intros Hid0 _. fold (HealthTracker.GetState id).
      by rewrite (HealthTracker.GetState_SetState id) by done.
  - rewrite lookup_insert_ne by done. specialize (Hent j).
    destruct (providers m !! j) as [e'|] eqn:Ej; inversion Hent; subst; constructor.
    eapply entry_rel_frame; [| | |eassumption]; simpl; [lia| |].
    + rewrite lookup_insert_ne; [done|]. intros Hx; apply Hne; eauto.
    + by apply HealthTracker.GetState_SetState_ne.
Qed.

Lemma mon_apply_rel ev m l :
  log_rel th m l →
  (mon_apply ev m).1 = (log_apply th ev l).1 ∧ log_rel th (mon_apply ev m).2 (log_apply th ev l).2.
Proof using Hth.
  intros Hrel. destruct ev as [id c st init|id a r now|id a r now|id| | |].
  - split; [done|]. by apply register_rel.
  - pose proof Hrel as (_&_&_&Hs&_). simpl; unfold finishInitial; rewrite <-Hs.
    destruct (stopped m); [done|]. by apply record_rel.
  - by apply record_rel.
  - destruct Hrel as (? & ? & ? & ? & Hent & Hinj). split; [done|]; split_and!; simpl; auto.
    + intros j. destruct (decide (id = j)) as [<-|Hne].
      * rewrite !lookup_delete_eq; constructor.
      * rewrite !lookup_delete_ne by done. apply Hent.
    + intros i j e e'; rewrite !lookup_delete_Some; naive_solver.
  - destruct Hrel as (? & ? & ? & ? & ? & ?). by split_and!.
  - destruct Hrel as (? & ? & ? & ? & ? & ?). simpl; unfold Start.
    destruct (_ || _); by split_and!.
  - destruct Hrel as (? & ? & ? & ? & ? & ?). by split_and!.
Qed.

Lemma mon_run_rel evs m l :
  log_rel th m l →
  (mon_run evs m).1 = (log_run th evs l).1 ∧ log_rel th (mon_run evs m).2 (log_run th evs l).2.
Proof using Hth.
  revert m l; induction evs as [|ev evs IH]; intros m l Hrel; simpl; [done|].
  destruct (mon_apply_rel ev m l Hrel) as [H1 H2].
  destruct (mon_apply ev m) as [ts m1], (log_apply th ev l) as [ts' l1]; simpl in *; subst.
  destruct (IH m1 l1 H2) as [H3 H4].
  destruct (mon_run evs m1), (log_run th evs l1); simpl in *; by subst.
Qed.
End refine.

(** C13: whatever the interleaving of registrations, deregistrations, initial
    checks and periodic checks (stale ones included), the monitor delivers the
    transitions, and publishes in the tracker the statuses, of a specification
    that only keeps the list of check results of the current registration of
    each provider: a provider is Unavailable exactly when the last [th] checks
    or more failed, and otherwise has the status it last asserted. *)
Theorem monitor_refines_log (th : Z) (t : gmap string HealthState) (evs : list mon_event) :
  1 ≤ th ≤ int64_max →
  let '(ts, m) := mon_run evs (New t th) in
  let '(ts', l) := log_run th evs (mkLog ∅ 0 false false) in
  ts = ts' ∧
  (∀ id, is_Some (providers m !! id) ↔ is_Some (l_entries l !! id)) ∧
  (∀ id le, id ≠ "" → l_entries l !! id = Some le → l_results le ≠ [] →
     Status <$> tracker m !! id = Some (verdict th (l_init le) (l_results le))).
Proof.
  intros Hth.
  destruct (mon_run_rel th Hth evs _ _ (log_rel_new th t)) as [H1 (_ & _ & _ & _ & Hent & _)].
  destruct (mon_run _ _) as [ts m], (log_run _ _ _) as [ts' l]; simpl in *.
  split_and!; [done| |].
  - intros id; specialize (Hent id); inversion Hent; simplify_eq; [|done].
    split; intros _; eauto.
  - intros id le Hid Hl Hne. specialize (Hent id); rewrite Hl in Hent.
    inversion Hent as [? ? He|]; subst. destruct He as (_&_&_&Htr). by apply Htr.
Qed.

(** Two providers, threshold 2: the second registration of [a] makes the check
    started for the first one stale. *)
Definition sample_events : list mon_event :=
  [EvSetOnTransition; EvRegister "a" (ExternalChecker "http://a") "vm" Ready;
   EvRegister "b" (EmbeddedChecker "db") "db" Ready; EvCheck "a" 0 CheckFailed 1;
   EvCheck "b" 1 CheckUnhealthy 1; EvRegister "a" (ExternalChecker "http://a2") "vm" Ready;
   EvCheck "a" 0 CheckFailed 2; EvCheck "a" 2 CheckFailed 3; EvCheck "a" 2 CheckFailed 4].

Lemma monitor_refines_log_witness :
  (mon_run sample_events (New ∅ 2)).1 =
    [ {| tr_id := "b"; tr_from := Ready; tr_to := Unhealthy |};
      {| tr_id := "a"; tr_from := Ready; tr_to := Unavailable |} ].
Proof.
  pose proof (monitor_refines_log 2 ∅ sample_events) as H.
  destruct (mon_run sample_events (New ∅ 2)) as [ts m] eqn:E1.
  destruct (log_run 2 sample_events _) as [ts' l] eqn:E2.
  destruct H as [-> _]; [vm_compute; split; congruence|].
  vm_compute in E2. by injection E2 as <- _.
Defined.
