(* ===== verification/Service.v ===== *)
(** * Provider registration service

    Models internal/provider/service/service.go and the service-type lister of
    cmd/environment-agent/main.go, over any implementation of the store
    interface ([Store]) whose laws are [StoreOk].  One definition per method;
    [Svc] is the state behind the service's mutex together with the registry,
    tracker and monitor it drives. *)

From S2P Require Import Prelude GoStrings Provider FileStore Health.

(** [RegistrationInput]. *)
Record RegistrationInput := mkInput {
  in_Name : string; in_Endpoint : string; in_ServiceType : string;
  in_SchemaVersion : string; in_DisplayName : option string;
  in_ProviderID : option string; in_Operations : option (list string);
  in_Metadata : string
}.

(** What the service tells the rest of the agent: a health transition from a
    check made while registering, or a call of [onChange]. *)
Inductive notification :=
  | NTransition (t : transition)
  | NChange.

(** Inputs of one operation: the outcome of its store calls, the clock, the
    generated UUID and what the health checkers answer. *)
Record Env (IO : Type) := {
  env_get : IO;
  env_get_id : IO;
  env_save : IO;
  env_delete : IO;
  env_now : Z;
  env_check_now : Z;
  env_uuid : string;
  env_check : Checker → HealthCheckResult
}.
Arguments env_get {IO}. Arguments env_get_id {IO}. Arguments env_save {IO}.
Arguments env_delete {IO}. Arguments env_now {IO}. Arguments env_check_now {IO}.
Arguments env_uuid {IO}. Arguments env_check {IO}.

(** [mon] carries the health tracker the service shares with the monitor;
    [has_mon] is false when the service was built without a monitor.
    [embeddedCheckers] are the in-process checkers by service type. *)
Record Svc (S : Type) := mkSvc {
  store : S;
  registry : gmap string string;
  mon : Monitor;
  has_mon : bool;
  onChange : bool;
  embeddedCheckers : gmap string Checker;
  outbox : list notification
}.
Arguments mkSvc {S}. Arguments store {S}. Arguments registry {S}. Arguments mon {S}.
Arguments has_mon {S}. Arguments onChange {S}. Arguments embeddedCheckers {S}. Arguments outbox {S}.

(** [v1alpha1.Provider] as [toAPI] fills it in; [M] is the decoded metadata. *)
Record APIProvider (M : Type) := mkAPI {
  api_Id : string; api_Path : string; api_Name : string; api_Endpoint : string;
  api_ServiceType : string; api_SchemaVersion : string; api_DisplayName : option string;
  api_Operations : option (list string); api_Type : string;
  api_CreateTime : Z; api_UpdateTime : Z;
  api_Status : ProviderStatus; api_LastCheckTime : option Z; api_Metadata : option M
}.
Arguments mkAPI {M}. Arguments api_Id {M}. Arguments api_Name {M}. Arguments api_ServiceType {M}.
Arguments api_Status {M}. Arguments api_Type {M}. Arguments api_CreateTime {M}.

Definition External : string := "external".
Definition Embedded : string := "embedded".

Section ProviderService.
Context {S IO M : Type} `{Store S IO}.
(** [json.Unmarshal] of the raw metadata. *)
Context (unmarshal_meta : string → option M).

Definition NewService (s : S) (reg : gmap string string) (m : Monitor) (has : bool) : Svc S :=
  mkSvc s reg m has false ∅ [].

Definition set_store (s : S) (v : Svc S) : Svc S :=
  mkSvc s (registry v) (mon v) (has_mon v) (onChange v) (embeddedCheckers v) (outbox v).
Definition set_registry (r : gmap string string) (v : Svc S) : Svc S :=
  mkSvc (store v) r (mon v) (has_mon v) (onChange v) (embeddedCheckers v) (outbox v).
Definition set_health (t : gmap string HealthState) (v : Svc S) : Svc S :=
  mkSvc (store v) (registry v)
    (mkMonitor t (providers (mon v)) (heap (mon v)) (next_sm (mon v)) (threshold (mon v))
       (callback (mon v)) (started (mon v)) (stopped (mon v)))
    (has_mon v) (onChange v) (embeddedCheckers v) (outbox v).
Definition set_mon (m : Monitor) (ns : list notification) (v : Svc S) : Svc S :=
  mkSvc (store v) (registry v) m (has_mon v) (onChange v) (embeddedCheckers v) (outbox v ++ ns).

Definition SetOnChange (v : Svc S) : Svc S :=
  mkSvc (store v) (registry v) (mon v) (has_mon v) true (embeddedCheckers v) (outbox v).

Definition SetEmbeddedCheckers (cs : gmap string Checker) (v : Svc S) : Svc S :=
  mkSvc (store v) (registry v) (mon v) (has_mon v) (onChange v) cs (outbox v).

Definition notifyChange (v : Svc S) : Svc S :=
  if onChange v then set_mon (mon v) [NChange] v else v.

(** [s.mon.RegisterProvider] when there is a monitor. *)
Definition monRegister (env : Env IO) (id : string) (c : Checker) (st : string)
    (init : ProviderStatus) (initialCheck : bool) (v : Svc S) : Svc S :=
  let '(ts, m) := RegisterProvider id c st init initialCheck (env_check env) (env_check_now env) (mon v) in
  set_mon m (NTransition <$> ts) v.

Definition trackExternalProvider (env : Env IO) (id endpoint serviceType : string)
    (initialCheck : bool) (v : Svc S) : Svc S :=
  let v1 := set_health (HealthTracker.SetState id Unhealthy time_zero (tracker (mon v))) v in
  if has_mon v then
    monRegister env id (ExternalChecker (NewExternalChecker_endpoint endpoint)) serviceType
      Unhealthy initialCheck v1
  else v1.

Definition toAPI (v : Svc S) (sp : StoredProvider) : APIProvider M :=
  let '(status, last) :=
    match HealthTracker.GetState (ID sp) (tracker (mon v)) with
    | Some hs => (Status hs, if time_is_zero (LastCheckTime hs) then None else Some (LastCheckTime hs))
    | None => (Unavailable, None)
    end in
  mkAPI (ID sp) ("providers/" +:+ ID sp) (Name sp) (Endpoint sp) (ServiceType sp)
    (SchemaVersion sp) (DisplayName sp) (Operations sp) (Type_ sp) (CreateTime sp) (UpdateTime sp)
    status last (if Metadata sp =s? "" then None else unmarshal_meta (Metadata sp)).

Definition id_mismatch_msg (existingID requestedID : string) : string :=
  "provider already exists with ID '" +:+ existingID
  +:+ "'; cannot re-register with different ID '" +:+ requestedID +:+ "'".

Definition ensureIDConsistency (existingID : string) (requestedID : option string) : option error :=
  match requestedID with
  | None => None
  | Some r =>
      if r =s? existingID then None
      else Some (EDomain ErrCodeConflict (id_mismatch_msg existingID r))
  end.

(** [err.Error()] of the registry's errors, which are built by [fmt.Errorf]. *)
Definition error_text (e : error) : string :=
  match e with ENew m => m | _ => "" end.

(** The record after [updateRegistration]'s assignments. *)
Definition updated_record (existing : StoredProvider) (inp : RegistrationInput) (now : Z) : StoredProvider :=
  mkStoredProvider (ID existing) (Name existing) (in_Endpoint inp) (in_ServiceType inp)
    (in_SchemaVersion inp) (in_DisplayName inp) (in_Operations inp) (in_Metadata inp)
    (Type_ existing) (CreateTime existing) now.

Definition updateRegistration (env : Env IO) (existing : StoredProvider) (inp : RegistrationInput)
    (v : Svc S) : result (APIProvider M) * Svc S :=
  let oldServiceType := ServiceType existing in
  let oldEndpoint := Endpoint existing in
  let moved := negb (oldServiceType =s? in_ServiceType inp) in
  match (if moved then Registry.Move (Name existing) oldServiceType (in_ServiceType inp) (registry v)
         else (None, registry v)) with
  | (Some err, reg) => (Err (EDomain ErrCodeConflict (error_text err)), set_registry reg v)
  | (None, reg) =>
      let v1 := set_registry reg v in
      let p := updated_record existing inp (env_now env) in
      match Save (env_save env) p (store v1) with
      | (Some err, s) =>
          let v2 := set_store s v1 in
          (Err err,
           if moved then
             set_registry (Registry.Move (Name existing) (in_ServiceType inp) oldServiceType (registry v2)).2 v2
           else v2)
      | (None, s) =>
          let v2 := set_store s v1 in
          let v3 :=
            if negb (oldEndpoint =s? in_Endpoint inp) || moved
            then trackExternalProvider env (ID existing) (in_Endpoint inp) (in_ServiceType inp) true v2
            else v2 in
          (Ok (toAPI v3 p), v3)
      end
  end.

Definition id_used_msg (id holder : string) : string :=
  "provider ID '" +:+ id +:+ "' is already used by provider '" +:+ holder +:+ "'".

Definition assignProviderID (env : Env IO) (requestedID : option string) (v : Svc S) : result string :=
  match requestedID with
  | None => Ok (env_uuid env)
  | Some r =>
      if r =s? "" then Err (EDomain ErrCodeValidation "provider ID must not be empty")
      else
        match GetByID (env_get_id env) r (store v) with
        | Err e => Err e
        | Ok (Some holder) => Err (EDomain ErrCodeConflict (id_used_msg r (Name holder)))
        | Ok None => Ok r
        end
  end.

Definition new_record (id : string) (inp : RegistrationInput) (now : Z) : StoredProvider :=
  mkStoredProvider id (in_Name inp) (in_Endpoint inp) (in_ServiceType inp) (in_SchemaVersion inp)
    (in_DisplayName inp) (in_Operations inp) (in_Metadata inp) External now now.

Definition createRegistration (env : Env IO) (id : string) (inp : RegistrationInput) (v : Svc S)
  : result (APIProvider M) * Svc S :=
  match Registry.Claim (in_Name inp) (in_ServiceType inp) (registry v) with
  | (Some err, reg) => (Err (EDomain ErrCodeConflict (error_text err)), set_registry reg v)
  | (None, reg) =>
      let v1 := set_registry reg v in
      let sp := new_record id inp (env_now env) in
      match Save (env_save env) sp (store v1) with
      | (Some err, s) =>
          (Err err, set_registry (Registry.Release (in_ServiceType inp) (registry v1)) (set_store s v1))
      | (None, s) =>
          let v2 := trackExternalProvider env id (in_Endpoint inp) (in_ServiceType inp) true (set_store s v1) in
          (Ok (toAPI v2 sp), v2)
      end
  end.

(** Returns the provider and whether it was created. *)
Definition registerLocked (env : Env IO) (inp : RegistrationInput) (v : Svc S)
  : result (APIProvider M * bool) * Svc S :=
  match GetByName (env_get env) (in_Name inp) (store v) with
  | Err e => (Err e, v)
  | Ok (Some existing) =>
      match ensureIDConsistency (ID existing) (in_ProviderID inp) with
      | Some e => (Err e, v)
      | None =>
          let '(r, v') := updateRegistration env existing inp v in
          (p ← r; Ok (p, false), v')
      end
  | Ok None =>
      match assignProviderID env (in_ProviderID inp) v with
      | Err e => (Err e, v)
      | Ok id =>
          let '(r, v') := createRegistration env id inp v in
          (p ← r; Ok (p, true), v')
      end
  end.

Definition Register (env : Env IO) (inp : RegistrationInput) (v : Svc S)
  : result (APIProvider M * bool) * Svc S :=
  match registerLocked env inp v with
  | (Ok r, v') => (Ok r, notifyChange v')
  | (Err e, v') => (Err e, v')
  end.

Definition ListProviders (env : Env IO) (v : Svc S) : result (list (APIProvider M)) :=
  match List_ (env_get env) (store v) with
  | Err e => Err e
  | Ok stored => Ok (toAPI v <$> stored)
  end.

Definition not_found_msg (id : string) : string := "provider '" +:+ id +:+ "' not found".

Definition Get (env : Env IO) (id : string) (v : Svc S) : result (APIProvider M) :=
  match GetByID (env_get_id env) id (store v) with
  | Err e => Err e
  | Ok None => Err (EDomain ErrCodeNotFound (not_found_msg id))
  | Ok (Some sp) => Ok (toAPI v sp)
  end.

(** One iteration of [LoadPersisted]. *)
Definition loadOne (env : Env IO) (v : Svc S) (p : StoredProvider) : Svc S :=
  if negb (Type_ p =s? External) then v
  else
    match Registry.Claim (Name p) (ServiceType p) (registry v) with
    | (Some _, reg) => set_registry reg v
    | (None, reg) =>
        trackExternalProvider env (ID p) (Endpoint p) (ServiceType p) false (set_registry reg v)
    end.

Definition LoadPersisted (env : Env IO) (v : Svc S) : option error * Svc S :=
  match List_ (env_get env) (store v) with
  | Err e => (Some e, v)
  | Ok ps => (None, fold_left (loadOne env) ps v)
  end.

Definition cleanupEmbeddedRecord (env : Env IO) (p : StoredProvider) (v : Svc S) : Svc S :=
  let '(_, s) := Delete (env_delete env) (Name p) (store v) in
  let v1 := set_store s v in
  let v2 := set_health (HealthTracker.DeleteState (ID p) (tracker (mon v1))) v1 in
  if has_mon v2 then set_mon (DeregisterProvider (ID p) (mon v2)) [] v2 else v2.

(** One iteration of [removeStaleEmbedded]; [env] gives the inputs of the
    deletion of the named record. *)
Definition removeStaleOne (env : string → Env IO) (enabled : gset string) (v : Svc S)
    (p : StoredProvider) : Svc S :=
  if (Type_ p =s? Embedded) && negb (bool_decide (ServiceType p ∈ enabled)) then
    let v1 :=
      match Registry.Lookup (ServiceType p) (registry v) with
      | Some holder =>
          if holder =s? Name p then set_registry (Registry.Release (ServiceType p) (registry v)) v else v
      | None => v
      end in
    cleanupEmbeddedRecord (env (Name p)) p v1
  else v.

Definition removeStaleEmbedded (list_io : IO) (env : string → Env IO) (enabled : gset string)
    (v : Svc S) : Svc S :=
  match List_ list_io (store v) with
  | Err _ => v
  | Ok all => fold_left (removeStaleOne env enabled) all v
  end.

Definition embeddedChecker (serviceType : string) (v : Svc S) : Checker :=
  match embeddedCheckers v !! serviceType with
  | Some c => c
  | None => EmbeddedChecker serviceType
  end.

Definition resolveEmbeddedIdentity (uuid : string) (existing : option StoredProvider) (now : Z)
  : string * Z :=
  match existing with
  | None => (uuid, now)
  | Some e =>
      if negb (Type_ e =s? Embedded) then (uuid, now)
      else
        (if ID e =s? "" then uuid else ID e,
         if time_is_zero (CreateTime e) then now else CreateTime e)
  end.

Definition embedded_record (id st : string) (createTime now : Z) : StoredProvider :=
  mkStoredProvider id st ("embedded://" +:+ st) st "v1alpha1" None None "" Embedded createTime now.

Definition is_type (t : string) (p : option StoredProvider) : bool :=
  match p with Some e => Type_ e =s? t | None => false end.

Definition registerEmbeddedType (env : Env IO) (v : Svc S) (st : string) : Svc S :=
  match GetByName (env_get env) st (store v) with
  | Err _ => v
  | Ok existing =>
      if is_type External existing then v
      else
        match Registry.Claim st st (registry v) with
        | (Some _, reg) =>
            let v1 := set_registry reg v in
            match existing with
            | Some e => if Type_ e =s? Embedded then cleanupEmbeddedRecord env e v1 else v1
            | None => v1
            end
        | (None, reg) =>
            let v1 := set_registry reg v in
            let '(id, createTime) := resolveEmbeddedIdentity (env_uuid env) existing (env_now env) in
            let sp := embedded_record id st createTime (env_now env) in
            let '(err, s) := Save (env_save env) sp (store v1) in
            let v2 := set_store s v1 in
            match err, existing with
            | Some _, None => set_registry (Registry.Release st (registry v2)) v2
            | _, _ =>
                if has_mon v2 then
                  monRegister env id (embeddedChecker st v2) st Ready true v2
                else
                  set_health (HealthTracker.SetState id Ready (UpdateTime sp) (tracker (mon v2))) v2
            end
        end
  end.

(** Trimmed, non-empty service types. *)
Definition embedded_types (serviceTypes : list string) : list string :=
  filter (λ st, st ≠ "") (TrimSpace <$> serviceTypes).

(** [env] gives the inputs of the cleanup of a stale record and of the i-th
    registration. *)
Definition RegisterEmbedded (list_io : IO) (env_stale : string → Env IO) (env_reg : nat → Env IO)
    (serviceTypes : list string) (v : Svc S) : Svc S :=
  let types := embedded_types serviceTypes in
  let v1 := removeStaleEmbedded list_io env_stale (list_to_set types) v in
  (fold_left (λ '(i, v) st, (Datatypes.S i, registerEmbeddedType (env_reg i) v st)) types (0%nat, v1)).2.

(** [serviceTypeLister.AdvertisableServiceTypes] (main.go). *)
Definition AdvertisableServiceTypes (env : Env IO) (v : Svc S) : list string :=
  match ListProviders env v with
  | Err _ => []
  | Ok ps => api_ServiceType <$> filter (λ p, api_Status p ≠ Unavailable) ps
  end.

(** Start-up of the provider side in [run] (main.go): load the persisted
    registrations into an empty registry, wire the callbacks, register the
    embedded providers. *)
Record BootEnv := {
  boot_load : Env IO;
  boot_list : IO;
  boot_stale : string → Env IO;
  boot_reg : nat → Env IO
}.

Definition boot (e : BootEnv) (failureThreshold : Z) (cs : gmap string Checker)
    (EmbeddedSPs : list string) (s : S) : option error * Svc S :=
  let v0 := NewService s Registry.NewRegistry
              (New HealthTracker.NewInMemoryHealthTracker failureThreshold) true in
  match LoadPersisted (boot_load e) v0 with
  | (Some err, v1) => (Some err, v1)
  | (None, v1) =>
      let v2 := SetOnChange (set_mon (Health.SetOnTransition (mon v1)) [] v1) in
      let v3 := SetEmbeddedCheckers cs v2 in
      (None, RegisterEmbedded (boot_list e) (boot_stale e) (boot_reg e) EmbeddedSPs v3)
  end.

End ProviderService.

(** ** Frame lemmas: health bookkeeping touches neither store nor registry *)

Section Frames.
Context {S IO M : Type} `{Store S IO}.

Lemma monRegister_frame (env : Env IO) id c st i b (v : Svc S) :
  store (monRegister env id c st i b v) = store v ∧ registry (monRegister env id c st i b v) = registry v.
Proof. unfold monRegister. by destruct (RegisterProvider _ _ _ _ _ _ _ _). Qed.

Lemma track_frame (env : Env IO) id ep st b (v : Svc S) :
  store (trackExternalProvider env id ep st b v) = store v ∧
  registry (trackExternalProvider env id ep st b v) = registry v.
Proof. unfold trackExternalProvider. destruct (has_mon v); [|done].
  destruct (monRegister_frame env id (ExternalChecker (NewExternalChecker_endpoint ep)) st Unhealthy b
    (set_health (HealthTracker.SetState id Unhealthy time_zero (tracker (mon v))) v)) as [-> ->]. done.
Qed.

Lemma notifyChange_frame (v : Svc S) :
  store (notifyChange v) = store v ∧ registry (notifyChange v) = registry v ∧ mon (notifyChange v) = mon v.
Proof. unfold notifyChange. by destruct (onChange v). Qed.

Lemma cleanup_frame (env : Env IO) p (v : Svc S) :
  store (cleanupEmbeddedRecord env p v) = (Delete (env_delete env) (Name p) (store v)).2 ∧
  registry (cleanupEmbeddedRecord env p v) = registry v.
Proof.
  unfold cleanupEmbeddedRecord. destruct (Delete _ _ _) as [e s]; simpl. by destruct (has_mon v).
Qed.
End Frames.

(** ** Registry and records

    The invariant relates the slot map to the records by name. *)

Definition recs := string → option StoredProvider.

(** [P p st]: why slot [st] may be held by the provider recorded as [p]. *)
Definition P_load (p : StoredProvider) (st : string) : Prop := Type_ p = External ∧ ServiceType p = st.
Definition P_boot (p : StoredProvider) (st : string) : Prop :=
  P_load p st ∨ (Type_ p = Embedded ∧ Name p = st).
Definition P_run (p : StoredProvider) (st : string) : Prop :=
  ServiceType p = st ∨ (Type_ p = Embedded ∧ Name p = st).

Record slots_ok (P : StoredProvider → string → Prop) (f : recs) (reg : gmap string string) : Prop := {
  so_holder st n : reg !! st = Some n → ∃ p, f n = Some p ∧ P p st;
  so_external n p : f n = Some p → Type_ p = External → reg !! ServiceType p = Some n;
  so_name n p : f n = Some p → Name p = n
}.

Lemma slots_ok_mono (P Q : StoredProvider → string → Prop) f reg :
  (∀ p st, P p st → Q p st) → slots_ok P f reg → slots_ok Q f reg.
Proof. intros HPQ [H1 H2 H3]; split; [|done..]. intros st n (p & ? & ?)%H1; eauto. Qed.

Lemma slots_ok_ext P f f' reg : (∀ n, f n = f' n) → slots_ok P f reg → slots_ok P f' reg.
Proof. intros E [H1 H2 H3]; split; intros ? ?; rewrite <-?E; eauto. Qed.

Definition set_rec (p : StoredProvider) (f : recs) : recs :=
  λ n, if n =s? Name p then Some p else f n.
Definition del_rec (m : string) (f : recs) : recs :=
  λ n, if n =s? m then None else f n.

(** A provider that has no record yet claims a slot. *)
Lemma slots_ok_claim_new P f reg p reg' :
  slots_ok P f reg → f (Name p) = None → P p (ServiceType p) →
  Registry.Claim (Name p) (ServiceType p) reg = (None, reg') →
  slots_ok P (set_rec p f) reg'.
Proof.
  intros [H1 H2 H3] Hf HP Hc.
  destruct (Registry.other_holder (Name p) (ServiceType p) reg) as [h|] eqn:E.
  { by rewrite (Registry.Claim_err _ _ _ _ E) in Hc. }
  rewrite (Registry.Claim_ok _ _ _ E) in Hc; injection Hc as <-.
  apply Registry.other_holder_None in E. unfold set_rec. split.
  - intros st n [[<- <-]|[Hne Hr]]%lookup_insert_Some.
    + exists p. by rewrite bool_decide_eq_true_2.
    + destruct (H1 _ _ Hr) as (q & Hq & ?). exists q. rewrite bool_decide_eq_false_2; [done|]. congruence.
  - intros n q. case_bool_decide as En; intros Hq Ht; [simplify_eq; by rewrite lookup_insert_eq|].
    pose proof (H2 _ _ Hq Ht) as Hs. rewrite lookup_insert_ne; [done|].
    intros Hx. rewrite <-Hx in Hs. destruct E; congruence.
  - intros n q. case_bool_decide; intros; simplify_eq; eauto.
Qed.

(** A failed creation releases exactly what it claimed. *)
Lemma claim_release P f reg n st reg' :
  slots_ok P f reg → f n = None →
  Registry.Claim n st reg = (None, reg') → Registry.Release st reg' = reg.
Proof.
  intros [H1 H2 H3] Hf Hc.
  destruct (Registry.other_holder n st reg) as [h|] eqn:E.
  { by rewrite (Registry.Claim_err _ _ _ _ E) in Hc. }
  rewrite (Registry.Claim_ok _ _ _ E) in Hc; injection Hc as <-.
  unfold Registry.Release. apply Registry.other_holder_None in E as [E|E].
  - by rewrite delete_insert_id.
  - apply H1 in E as (p & ? & _). congruence.
Qed.

(** A successful [Move] in one equation. *)
Lemma move_inv n old new reg reg' :
  Registry.Move n old new reg = (None, reg') →
  (reg !! new = None ∨ reg !! new = Some n) ∧ (reg !! old = None ∨ reg !! old = Some n) ∧
  reg' = <[new := n]> (delete old reg).
Proof.
  unfold Registry.Move.
  destruct (Registry.other_holder n new reg) eqn:E1; [done|].
  destruct (Registry.other_holder n old reg) eqn:E2; [done|].
  apply Registry.other_holder_None in E1, E2. intros [= <-]. done.
Qed.

Lemma move_undo n old new reg :
  old ≠ new →
  Registry.Move n new old (<[new := n]> (delete old reg)) =
    (None, <[old := n]> (delete new (delete old reg))).
Proof.
  intros Hne. unfold Registry.Move.
  rewrite (proj2 (Registry.other_holder_None n old _)).
  2: { left. by rewrite lookup_insert_ne, lookup_delete_eq. }
  rewrite (proj2 (Registry.other_holder_None n new _)).
  2: { right. by rewrite lookup_insert_eq. }
  by rewrite delete_insert_eq.
Qed.

Section Update.
Context (f : recs) (reg : gmap string string) (p p' : StoredProvider).
Context (Hok : slots_ok P_run f reg) (Hp : f (Name p) = Some p).
Context (HN : Name p' = Name p) (HT : Type_ p' = Type_ p).

Lemma other_slot m q :
  f m = Some q → Type_ q = External → m ≠ Name p →
  ∀ st, reg !! st = None ∨ reg !! st = Some (Name p) → ServiceType q ≠ st.
Proof using Hok.
  intros Hq Ht Hm st Hst <-. pose proof (so_external _ _ _ Hok _ _ Hq Ht). destruct Hst; congruence.
Qed.

Lemma slots_ok_same : ServiceType p' = ServiceType p → slots_ok P_run (set_rec p' f) reg.
Proof using All.
  intros HS. destruct Hok as [H1 H2 H3]. unfold set_rec. rewrite HN. split.
  - intros st n Hr. destruct (H1 _ _ Hr) as (q & Hq & HP). case_bool_decide; [|eauto].
    exists p'. split; [done|]. simplify_eq. unfold P_run in *. by rewrite HS, HT, HN.
  - intros n q. case_bool_decide; intros; simplify_eq; [|eauto].
    rewrite HS. apply H2; [done|congruence].
  - intros n q. case_bool_decide; intros; simplify_eq; eauto.
Qed.

Lemma slots_ok_moved reg' :
  ServiceType p ≠ ServiceType p' →
  Registry.Move (Name p) (ServiceType p) (ServiceType p') reg = (None, reg') →
  slots_ok P_run (set_rec p' f) reg'.
Proof using All.
  intros Hne (Hn & Ho & ->)%move_inv. pose proof other_slot as Hos.
  destruct Hok as [H1 H2 H3]. unfold set_rec. rewrite HN. split.
  - intros st n [[<- <-]|[? [? Hr]%lookup_delete_Some]]%lookup_insert_Some.
    + exists p'. rewrite bool_decide_eq_true_2 by done. split; [done|by left].
    + destruct (H1 _ _ Hr) as (q & Hq & HP). case_bool_decide; [|eauto].
      exists p'. split; [done|]. simplify_eq. unfold P_run in *.
      rewrite HT, HN. destruct HP; [congruence|by right].
  - intros n q. case_bool_decide; intros; simplify_eq; [by rewrite lookup_insert_eq|].
    rewrite lookup_insert_ne by (symmetry; by eapply Hos).
    rewrite lookup_delete_ne by (symmetry; by eapply Hos). eauto.
  - intros n q. case_bool_decide; intros; simplify_eq; eauto.
Qed.

(** Undoing a move after a failed save keeps the registry consistent with the
    unchanged records, and restores it exactly for an external provider. *)
Lemma slots_ok_undone reg' :
  ServiceType p ≠ ServiceType p' →
  Registry.Move (Name p) (ServiceType p) (ServiceType p') reg = (None, reg') →
  let reg'' := (Registry.Move (Name p) (ServiceType p') (ServiceType p) reg').2 in
  slots_ok P_run f reg'' ∧ (Type_ p = External → reg'' = reg).
Proof using All.
  intros Hne (Hn & Ho & ->)%move_inv. rewrite move_undo by done. cbn zeta. simpl.
  pose proof other_slot as Hos. destruct Hok as [H1 H2 H3]. split; [split; [| |done]|].
  - intros st n [[<- <-]|[? [? [? Hr]%lookup_delete_Some]%lookup_delete_Some]]%lookup_insert_Some; eauto.
    exists p. split; [done|by left].
  - intros n q Hq Ht. destruct (decide (n = Name p)) as [->|Hm].
    + simplify_eq. by rewrite lookup_insert_eq.
    + rewrite lookup_insert_ne, !lookup_delete_ne by (symmetry; by eapply Hos). eauto.
  - intros Ht. pose proof (H2 _ _ Hp Ht) as Hold.
    assert (reg !! ServiceType p' = None) as Hnew.
    { destruct Hn as [?|Hn]; [done|]. apply H1 in Hn as (q & Hq & HP). simplify_eq.
      destruct HP as [|[HE _]]; [done|]. rewrite Ht in HE. done. }
    apply map_eq. intros st. destruct (decide (st = ServiceType p)) as [->|Hst].
    + by rewrite lookup_insert_eq.
    + rewrite lookup_insert_ne by done. destruct (decide (st = ServiceType p')) as [->|].
      * by rewrite lookup_delete_eq.
      * by rewrite !lookup_delete_ne.
Qed.
End Update.

(** An embedded provider takes (or keeps) the slot of its own name. *)
Lemma slots_ok_embedded f reg p st reg' :
  slots_ok P_boot f reg → (∀ q, f st = Some q → Type_ q ≠ External) →
  Registry.Claim st st reg = (None, reg') →
  Name p = st → Type_ p = Embedded → slots_ok P_boot (set_rec p f) reg'.
Proof.
  intros [H1 H2 H3] Hf Hc HN HT. subst st.
  destruct (Registry.other_holder (Name p) (Name p) reg) as [h|] eqn:E.
  { by rewrite (Registry.Claim_err _ _ _ _ E) in Hc. }
  rewrite (Registry.Claim_ok _ _ _ E) in Hc; injection Hc as <-.
  apply Registry.other_holder_None in E. unfold set_rec. split.
  - intros st n [[<- <-]|[Hne Hr]]%lookup_insert_Some.
    + exists p. rewrite bool_decide_eq_true_2 by done. split; [done|by right].
    + destruct (H1 _ _ Hr) as (q & Hq & HP). case_bool_decide; [|eauto]. subst n.
      destruct HP as [[HE _]|[_ HE]]; [by destruct (Hf q)|]. rewrite (H3 _ _ Hq) in HE. congruence.
  - intros n q. case_bool_decide; intros Hq Ht; [simplify_eq; by rewrite HT in Ht|].
    pose proof (H2 _ _ Hq Ht) as Hs. rewrite lookup_insert_ne; [done|].
    intros Hx. rewrite <-Hx in Hs. destruct E; congruence.
  - intros n q. case_bool_decide; intros; simplify_eq; eauto.
Qed.

(** Dropping a record that is not external and holds no slot. *)
Lemma slots_ok_del P f reg m :
  slots_ok P f reg → (∀ st, reg !! st ≠ Some m) → (∀ q, f m = Some q → Type_ q ≠ External) →
  slots_ok P (del_rec m f) reg.
Proof.
  intros [H1 H2 H3] Hr Hf. unfold del_rec. split.
  - intros st n Hs. destruct (H1 _ _ Hs) as (q & Hq & HP). exists q.
    rewrite bool_decide_eq_false_2; [done|]. intros ->. by destruct (Hr st).
  - intros n q. case_bool_decide; [done|]; eauto.
  - intros n q. case_bool_decide; [done|]; eauto.
Qed.

(** ** The service keeps registry and records consistent *)

Section Consistency.
Context {S IO M : Type} `{HStore : Store S IO} `{!StoreOk S IO}.
Context (unmarshal_meta : string → option M).

Definition records (s : S) : recs := λ n, List.find (by_name n) (contents s).

Record svc_inv (P : StoredProvider → string → Prop) (v : Svc S) : Prop := {
  si_store : store_inv (store v);
  si_names : NoDup (Name <$> contents (store v));
  si_slots : slots_ok P (records (store v)) (registry v)
}.

Lemma find_by_name_iff n l p :
  NoDup (Name <$> l) → List.find (by_name n) l = Some p ↔ p ∈ l ∧ Name p = n.
Proof.
  intros Hnd. split.
  - intros [Hin Hn]%find_Some_elem. split; [done|]. unfold by_name in Hn. by breflect.
  - induction l as [|q l IH]; intros [Hin Hn]; [by apply not_elem_of_nil in Hin|].
    rewrite fmap_cons, NoDup_cons in Hnd. destruct Hnd as [Hq Hnd]. cbn [List.find].
    unfold by_name at 1. apply elem_of_cons in Hin as [->|Hin].
    + by rewrite bool_decide_eq_true_2.
    + rewrite bool_decide_eq_false_2; [by apply IH|]. intros Heq. apply Hq.
      rewrite Heq, <-Hn. by apply list_elem_of_fmap_2.
Qed.

Lemma records_name s n p : records s n = Some p → Name p = n.
Proof. intros [_ Hn]%find_Some_elem. unfold by_name in Hn. by breflect. Qed.

Lemma records_save io p s :
  store_inv s → (Save io p s).1 = None → ∀ n, set_rec p (records s) n = records (Save io p s).2 n.
Proof.
  intros Hs Hr n. unfold records, set_rec. rewrite save_ok by done. case_bool_decide.
  - subst n. by rewrite find_upsert_same.
  - by rewrite find_upsert_other.
Qed.

Lemma records_delete io m s :
  store_inv s → (Delete io m s).1 = None → ∀ n, del_rec m (records s) n = records (Delete io m s).2 n.
Proof.
  intros Hs Hr n. unfold records, del_rec. rewrite delete_ok by done. by rewrite find_without.
Qed.

(** Saving keeps the store well formed whatever happens. *)
Lemma save_wf io p s :
  store_inv s → NoDup (Name <$> contents s) →
  store_inv (Save io p s).2 ∧ NoDup (Name <$> contents (Save io p s).2).
Proof.
  intros Hs Hn. split; [by apply save_inv|].
  destruct (Save io p s).1 eqn:E.
  - rewrite save_err by (done || congruence). done.
  - rewrite save_ok by done. by apply upsert_NoDup.
Qed.

Lemma delete_wf io m s :
  store_inv s → NoDup (Name <$> contents s) →
  store_inv (Delete io m s).2 ∧ NoDup (Name <$> contents (Delete io m s).2).
Proof.
  intros Hs Hn. split; [by apply delete_inv|].
  destruct (Delete io m s).1 eqn:E.
  - rewrite delete_err by (done || congruence). done.
  - rewrite delete_ok by done. by apply without_NoDup.
Qed.

Lemma records_save_err io p s :
  store_inv s → (Save io p s).1 ≠ None → contents (Save io p s).2 = contents s.
Proof. apply save_err. Qed.

(** [svc_inv] only looks at the store and the registry. *)
Lemma svc_inv_frame P v v' :
  store v' = store v → registry v' = registry v → svc_inv P v → svc_inv P v'.
Proof. intros Es Er [H1 H2 H3]. split; by rewrite ?Es, ?Er. Qed.

Lemma svc_inv_mono (P Q : StoredProvider → string → Prop) v :
  (∀ p st, P p st → Q p st) → svc_inv P v → svc_inv Q v.
Proof. intros HPQ [H1 H2 H3]. split; [done..|]. by eapply slots_ok_mono. Qed.

Lemma record_type s n p :
  store_inv s → records s n = Some p → Type_ p ≠ External → Type_ p = Embedded.
Proof.
  intros Hs [Hin _]%find_Some_elem Ht.
  pose proof (proj1 (Forall_forall _ _) (contents_valid s Hs) p Hin) as Hv.
  unfold validateStoredProvider in Hv. apply first_error_None in Hv.
  inversion_clear Hv as [|? ? _ Hv1]. inversion_clear Hv1 as [|? ? _ Hv2].
  inversion_clear Hv2 as [|? ? _ Hv3]. inversion_clear Hv3 as [|? ? _ Hv4].
  inversion_clear Hv4 as [|? ? _ Hv5]. inversion_clear Hv5 as [|? ? Hv _].
  unfold Embedded, External in *. destruct (bool_decide_reflect (Type_ p = "embedded")); [done|].
  by rewrite bool_decide_eq_false_2 in Hv.
Qed.

Lemma record_identity s n p :
  store_inv s → records s n = Some p → ID p ≠ "" ∧ time_is_zero (CreateTime p) = false.
Proof using HStore StoreOk0.
  clear unmarshal_meta M.
  intros Hs [Hin _]%find_Some_elem.
  pose proof (proj1 (Forall_forall _ _) (contents_valid s Hs) p Hin) as Hv.
  unfold validateStoredProvider in Hv. apply first_error_None in Hv. rewrite Forall_forall in Hv. split.
  - intros E. assert (missing (ID p) "id" = None) as Hm by (apply Hv; set_solver).
    unfold missing in Hm. by rewrite E in Hm.
  - destruct (time_is_zero (CreateTime p)) eqn:E; [|done].
    assert (Some (ENew "missing create_time") = None); [|done]. apply Hv. set_solver.
Qed.

Lemma create_inv env id inp v :
  svc_inv P_run v → records (store v) (in_Name inp) = None →
  svc_inv P_run (createRegistration unmarshal_meta env id inp v).2.
Proof.
  intros Hinv Hnone. destruct Hinv as [H1 H2 H3]. unfold createRegistration.
  destruct (Registry.Claim _ _ _) as [[err|] reg] eqn:Hc.
  { destruct (Registry.other_holder (in_Name inp) (in_ServiceType inp) (registry v)) as [h|] eqn:E.
    - rewrite (Registry.Claim_err _ _ _ _ E) in Hc. by simplify_eq.
    - by rewrite (Registry.Claim_ok _ _ _ E) in Hc. }
  set (sp := new_record id inp (env_now env)).
  pose proof (records_save (env_save env) sp (store v) H1) as Hs.
  destruct (save_wf (env_save env) sp (store v) H1 H2) as [Hw1 Hw2].
  pose proof (save_err (env_save env) sp (store v) H1) as Herr. simpl.
  destruct (Save (env_save env) sp (store v)) as [[err|] s] eqn:Es; simpl in *.
  - split; simpl; [done..|]. rewrite (claim_release _ _ _ _ _ _ H3 Hnone Hc).
    eapply slots_ok_ext; [|exact H3]. intros n. unfold records. by rewrite Herr.
  - match goal with |- svc_inv _ (trackExternalProvider ?e ?i ?ep ?st ?b ?w) =>
      destruct (track_frame e i ep st b w) as [Ets Etr] end.
    eapply svc_inv_frame; [exact Ets|exact Etr|]. split; simpl; [done..|].
    eapply slots_ok_ext; [by apply Hs|].
    apply (slots_ok_claim_new _ _ _ sp _ H3 Hnone); [by left|exact Hc].
Qed.

Lemma update_inv env p inp v :
  svc_inv P_run v → records (store v) (Name p) = Some p →
  svc_inv P_run (updateRegistration unmarshal_meta env p inp v).2.
Proof.
  intros [H1 H2 H3] Hp. unfold updateRegistration.
  set (p' := updated_record p inp (env_now env)).
  pose proof (records_save (env_save env) p' (store v) H1) as Hs.
  destruct (save_wf (env_save env) p' (store v) H1 H2) as [Hw1 Hw2].
  pose proof (save_err (env_save env) p' (store v) H1) as Herr.
  destruct (bool_decide_reflect (ServiceType p = in_ServiceType inp)) as [Heq|Hne]; simpl.
  - destruct (Save (env_save env) p' (store v)) as [[err|] s] eqn:Es; simpl in *.
    + split; simpl; [done..|]. eapply slots_ok_ext; [|exact H3]. intros n. unfold records. by rewrite Herr.
    + assert (svc_inv P_run (set_store s (set_registry (registry v) v))) as Hv.
      { split; simpl; [done..|]. eapply slots_ok_ext; [by apply Hs|]. by apply (slots_ok_same _ _ p p'). }
      case_match; [|done]. eapply svc_inv_frame; [apply track_frame..|done].
  - destruct (Registry.Move _ _ _ _) as [[err|] reg] eqn:Hm.
    { split; simpl; [done..|]. revert Hm. unfold Registry.Move. cases; by intros [= _ <-]. }
    destruct (slots_ok_undone _ _ p p' H3 Hp eq_refl eq_refl reg Hne Hm) as [Hu _].
    destruct (Save (env_save env) p' (store v)) as [[err|] s] eqn:Es; simpl in *.
    + split; simpl; [done..|]. eapply slots_ok_ext; [|exact Hu]. intros n. unfold records. by rewrite Herr.
    + assert (svc_inv P_run (set_store s (set_registry reg v))) as Hv.
      { split; simpl; [done..|]. eapply slots_ok_ext; [by apply Hs|].
        by apply (slots_ok_moved (records (store v)) (registry v) p p' H3 Hp eq_refl eq_refl). }
      case_match; [|done]. eapply svc_inv_frame; [apply track_frame..|done].
Qed.

Lemma register_inv env inp v : svc_inv P_run v → svc_inv P_run (Register unmarshal_meta env inp v).2.
Proof.
  intros Hinv. assert (svc_inv P_run (registerLocked unmarshal_meta env inp v).2) as Hl.
  { unfold registerLocked.
    destruct (GetByName _ _ _) as [[p|]|e] eqn:Eg; [| |done];
      apply get_by_name_spec in Eg; try apply Hinv; symmetry in Eg.
    - destruct (ensureIDConsistency _ _); [done|].
      destruct (updateRegistration _ _ _ _ _) as [r v'] eqn:Eu. simpl.
      pose proof (update_inv env p inp v Hinv) as Hu. rewrite Eu in Hu. apply Hu.
      by rewrite (records_name _ _ _ Eg).
    - destruct (assignProviderID _ _ _) as [id|e]; [|done].
      destruct (createRegistration _ _ _ _ _) as [r v'] eqn:Eu. simpl.
      pose proof (create_inv env id inp v Hinv Eg) as Hu. by rewrite Eu in Hu. }
  unfold Register. destruct (registerLocked _ _ _ _) as [[r|e] v']; [|done]. simpl in *.
  destruct (notifyChange_frame v') as (Es & Er & _). by eapply svc_inv_frame.
Qed.

(** *** Start-up *)

Definition external_types (l : list StoredProvider) : list string :=
  ServiceType <$> filter (λ p, Type_ p = External) l.

Definition loaded (l : list StoredProvider) (reg : gmap string string) : Prop :=
  ∀ st n, reg !! st = Some n ↔ ∃ p, p ∈ l ∧ Type_ p = External ∧ ServiceType p = st ∧ Name p = n.

Lemma loadOne_frame (env : Env IO) (v : Svc S) p : store (loadOne env v p) = store v.
Proof.
  unfold loadOne. case_match; [done|]. destruct (Registry.Claim _ _ _) as [[e|] reg]; [done|].
  apply (track_frame env (ID p) (Endpoint p) (ServiceType p) false (set_registry reg v)).
Qed.

Lemma loadOne_loaded (env : Env IO) (v : Svc S) l p :
  NoDup (external_types (l ++ [p])) → loaded l (registry v) →
  loaded (l ++ [p]) (registry (loadOne env v p)).
Proof.
  intros Hnd Hl. unfold loadOne.
  destruct (bool_decide_reflect (Type_ p = External)) as [HT|HT]; simpl.
  2: { intros st n. rewrite (Hl st n).
       split; intros (q & Hq & ? & ?); exists q; (split; [|done]).
       - apply elem_of_app. by left.
       - apply elem_of_app in Hq as [?|Hq%list_elem_of_singleton]; [done|]. by subst. }
  assert (Registry.other_holder (Name p) (ServiceType p) (registry v) = None) as Hfree.
  { apply Registry.other_holder_None.
    destruct (registry v !! ServiceType p) as [h|] eqn:E; [|by left]. exfalso.
    apply Hl in E as (q & Hq & Htq & Hsq & _). revert Hnd. unfold external_types.
    rewrite filter_app, fmap_app, NoDup_app. intros (_ & Hd & _).
    apply (Hd (ServiceType p)).
    - rewrite <-Hsq. apply list_elem_of_fmap_2. by apply list_elem_of_filter.
    - rewrite filter_cons, decide_True by done. rewrite fmap_cons. left. }
  rewrite (Registry.Claim_ok _ _ _ Hfree). simpl. destruct (track_frame env (ID p) (Endpoint p) (ServiceType p) false
    (set_registry (<[ServiceType p:=Name p]> (registry v)) v)) as [_ ->]. simpl.
  apply Registry.other_holder_None in Hfree. intros st n. rewrite lookup_insert_Some. split.
  - intros [[<- <-]|[Hne Hr]]; [exists p; set_solver|].
    apply Hl in Hr as (q & ? & ? & ? & ?). exists q. set_solver.
  - intros (q & Hq & HTq & <- & <-). apply elem_of_app in Hq as [Hq|Hq%list_elem_of_singleton]; [|subst; by left].
    assert (registry v !! ServiceType q = Some (Name q)) as Hr by (apply Hl; eauto).
    destruct (decide (ServiceType p = ServiceType q)) as [E|]; [|by right].
    left. split; [done|]. rewrite E in Hfree. destruct Hfree; congruence.
Qed.

Lemma load_fold (env : Env IO) l2 l1 (v : Svc S) :
  NoDup (external_types (l1 ++ l2)) → loaded l1 (registry v) →
  loaded (l1 ++ l2) (registry (fold_left (loadOne env) l2 v)) ∧
  store (fold_left (loadOne env) l2 v) = store v.
Proof.
  revert l1 v. induction l2 as [|p l2 IH]; intros l1 v Hnd Hl; simpl.
  { by rewrite app_nil_r. }
  rewrite (cons_middle p l1 l2), app_assoc in *.
  destruct (IH (l1 ++ [p]) (loadOne env v p)) as [? ->].
  - done.
  - apply loadOne_loaded; [|done]. revert Hnd. unfold external_types.
    rewrite filter_app, fmap_app, NoDup_app. tauto.
  - split; [done|]. apply loadOne_frame.
Qed.

Lemma load_inv (env : Env IO) s m has v :
  store_inv s → NoDup (Name <$> contents s) → NoDup (external_types (contents s)) →
  LoadPersisted env (NewService s Registry.NewRegistry m has) = (None, v) →
  store v = s ∧ svc_inv P_load v.
Proof.
  intros Hs Hn Ht. unfold LoadPersisted. simpl.
  destruct (List_ (env_get env) s) as [l|] eqn:El; [|done]. apply list_spec in El as ->; [|done].
  intros [= <-]. set (v0 := NewService s Registry.NewRegistry m has).
  destruct (load_fold env (contents s) [] v0) as [Hl Hst]; [done| |].
  { intros st n. simpl. unfold Registry.NewRegistry. rewrite lookup_empty. set_solver. }
  simpl in Hl, Hst. split; [done|]. split; rewrite Hst; [done..|]. split.
  - intros st n (p & Hp & ? & <- & <-)%Hl. exists p. split; [|done].
    unfold records. by apply find_by_name_iff.
  - intros n p Hp HT. apply find_by_name_iff in Hp as [? <-]; [|done]. apply Hl. eauto.
  - apply records_name.
Qed.

(** Removing stale embedded records, before any embedded slot is claimed. *)
Lemma removeStale_inv (env : string → Env IO) enabled l v :
  svc_inv P_load v →
  (∀ p, p ∈ l → ∀ q, records (store v) (Name p) = Some q → q = p) →
  svc_inv P_load (fold_left (removeStaleOne env enabled) l v).
Proof.
  revert v. induction l as [|p l IH]; intros v Hinv Hsub; simpl; [done|].
  unfold removeStaleOne at 2.
  destruct (bool_decide_reflect (Type_ p = Embedded)) as [HT|]; simpl; [|apply IH; set_solver].
  case_match; [|apply IH; set_solver]. destruct Hinv as [H1 H2 H3].
  assert (∀ st, registry v !! st ≠ Some (Name p)) as Hnone.
  { intros st Hr. destruct (so_holder _ _ _ H3 _ _ Hr) as (q & Hq & HE & _).
    pose proof (Hsub p (list_elem_of_here _ _) _ Hq) as ->. by rewrite HT in HE. }
  match goal with |- context [cleanupEmbeddedRecord _ p ?w] => set (v1 := w) end.
  assert (v1 = v) as ->.
  { unfold v1, Registry.Lookup. destruct (registry v !! ServiceType p) as [h|] eqn:E; [|done].
    destruct (bool_decide_reflect (h = Name p)); [|done]. subst. by destruct (Hnone (ServiceType p)). }
  destruct (cleanup_frame (env (Name p)) p v) as [Es Er].
  destruct (delete_wf (env_delete (env (Name p))) (Name p) _ H1 H2) as [Hw1 Hw2].
  pose proof (records_delete (env_delete (env (Name p))) (Name p) _ H1) as Hd.
  pose proof (delete_err (env_delete (env (Name p))) (Name p) _ H1) as He.
  assert (∀ n q, records (Delete (env_delete (env (Name p))) (Name p) (store v)).2 n = Some q →
    records (store v) n = Some q) as Hmono.
  { intros n q. destruct (Delete _ _ _).1 eqn:E.
    - unfold records. by rewrite He.
    - rewrite <-Hd by done. unfold del_rec. by destruct (n =s? Name p). }
  apply IH.
  - split; rewrite Es; [done..|]. rewrite Er. destruct (Delete _ _ _).1 eqn:E.
    + eapply slots_ok_ext; [|exact H3]. intros n. unfold records. by rewrite He.
    + eapply slots_ok_ext; [by apply Hd|]. apply slots_ok_del; [done..|].
      intros q Hq%Hsub; [|set_solver]. subst. by rewrite HT.
  - rewrite Es. intros r Hr q Hq%Hmono. apply Hsub; set_solver.
Qed.

Lemma track_embedded_inv P (env : Env IO) id c st t w :
  svc_inv P w →
  svc_inv P (if has_mon w then monRegister env id c st Ready true w else set_health t w).
Proof.
  intros Hw. destruct (has_mon w); [|by apply (svc_inv_frame P w)].
  destruct (monRegister_frame env id c st Ready true w) as [Es Er]. by eapply svc_inv_frame.
Qed.

Lemma registerEmbedded_inv (env : Env IO) st v :
  svc_inv P_boot v → svc_inv P_boot (registerEmbeddedType env v st).
Proof.
  intros Hinv. pose proof Hinv as [H1 H2 H3]. unfold registerEmbeddedType.
  destruct (GetByName _ _ _) as [ex|] eqn:Eg; [|done]. apply get_by_name_spec in Eg; [|done].
  fold (records (store v) st) in Eg. destruct (is_type External ex) eqn:Et; [done|].
  assert (∀ q, records (store v) st = Some q → Type_ q = Embedded) as Hemb.
  { intros q Hq. apply (record_type (store v) st q); [done..|].
    rewrite Eg, Hq in Et. simpl in Et. by breflect. }
  assert (∀ q, records (store v) st = Some q → Type_ q ≠ External) as Hne.
  { intros q Hq HE. rewrite (Hemb q Hq) in HE. done. }
  destruct (Registry.Claim st st (registry v)) as [[err|] reg] eqn:Hc.
  - assert (reg = registry v ∧ ∀ st', registry v !! st' ≠ Some st) as [-> Hnone].
    { destruct (Registry.other_holder st st (registry v)) as [h|] eqn:E;
        [|by rewrite (Registry.Claim_ok _ _ _ E) in Hc].
      rewrite (Registry.Claim_err _ _ _ _ E) in Hc. simplify_eq. split; [done|].
      apply Registry.other_holder_Some in E as [E Hh]. intros st' Hr.
      destruct (so_holder _ _ _ H3 _ _ Hr) as (q & Hq & [[HE _]|[_ HE]]); [by destruct (Hne q)|].
      rewrite (so_name _ _ _ H3 _ _ Hq) in HE. congruence. }
    assert (svc_inv P_boot (set_registry (registry v) v)) as Hv by by split.
    destruct ex as [e|]; [|done]. case_match; [|done].
    destruct (cleanup_frame env e (set_registry (registry v) v)) as [Es Er]. simpl in Es, Er.
    rewrite (records_name _ _ _ (eq_sym Eg)) in Es.
    destruct (delete_wf (env_delete env) st _ H1 H2) as [Hw1 Hw2].
    split; rewrite Es; [done..|]. rewrite Er. destruct (Delete (env_delete env) st (store v)).1 eqn:E.
    + eapply slots_ok_ext; [|exact H3]. intros n. unfold records.
      rewrite delete_err; [done..|congruence].
    + eapply slots_ok_ext; [by apply records_delete|]. by apply slots_ok_del.
  - destruct (resolveEmbeddedIdentity _ _ _) as [id ct].
    set (sp := embedded_record id st ct (env_now env)). simpl.
    destruct (save_wf (env_save env) sp _ H1 H2) as [Hw1 Hw2].
    pose proof (records_save (env_save env) sp _ H1) as Hs.
    pose proof (save_err (env_save env) sp _ H1) as Herr.
    destruct (Save (env_save env) sp (store v)) as [err s] eqn:Es. simpl in *.
    assert (∀ n, err ≠ None → records (store v) n = records s n) as Hsame.
    { intros n Hx. unfold records. by rewrite Herr. }
    assert (err = None ∨ ex ≠ None → svc_inv P_boot (set_store s (set_registry reg v))) as Hv.
    { intros Hcase. split; simpl; [done..|]. destruct err as [err|].
      - destruct Hcase as [|Hex]; [done|]. destruct ex as [e|]; [|done].
        eapply slots_ok_ext, (slots_ok_embedded _ _ e st); [|done..|by eapply records_name|by apply Hemb].
        intros n. rewrite <-Hsame by done. unfold set_rec. case_bool_decide; [|done].
        subst n. by rewrite (records_name _ _ _ (eq_sym Eg)).
      - eapply slots_ok_ext; [by apply Hs|]. by eapply slots_ok_embedded. }
    destruct err as [err|], ex as [e|];
      try (apply (track_embedded_inv P_boot env id (embeddedChecker st (set_store s (set_registry reg v)))
             st (HealthTracker.SetState id Ready (env_now env) (tracker (mon v)))
             (set_store s (set_registry reg v))); apply Hv; by (left + right)).
    split; simpl; [done..|]. rewrite (claim_release _ _ _ _ _ _ H3 (eq_sym Eg) Hc).
    eapply slots_ok_ext; [|exact H3]. intros n. by apply Hsame.
Qed.

Lemma boot_inv (e : BootEnv) th cs sps s v :
  store_inv s → NoDup (Name <$> contents s) → NoDup (external_types (contents s)) →
  boot e th cs sps s = (None, v) → svc_inv P_run v.
Proof.
  intros Hs Hn Ht. unfold boot.
  destruct (LoadPersisted _ _) as [[err|] v1] eqn:El; [done|]. intros [= <-].
  destruct (load_inv _ _ _ _ _ Hs Hn Ht El) as [Hst Hinv].
  set (v3 := SetEmbeddedCheckers _ _).
  assert (svc_inv P_load v3) as H3 by (by apply (svc_inv_frame P_load v1)).
  clearbody v3. clear El Hinv Hst v1.
  apply (svc_inv_mono P_boot); [intros p st [[? ?]|?]; [by left|by right]|].
  unfold RegisterEmbedded. set (types := embedded_types sps).
  set (v4 := removeStaleEmbedded _ _ _ v3). assert (svc_inv P_boot v4) as H4.
  { apply (svc_inv_mono P_load); [by left|]. unfold v4, removeStaleEmbedded.
    destruct (List_ _ _) as [all|] eqn:Ea; [|done]. apply list_spec in Ea as ->; [|by apply H3].
    apply removeStale_inv; [done|]. intros p Hp q Hq.
    assert (records (store v3) (Name p) = Some p) by (by apply find_by_name_iff; [apply H3|]).
    congruence. }
  clearbody v4. revert H4. generalize 0%nat. generalize types. clear types.
  intros types. revert v4. induction types as [|st types IH]; intros v4 i H4; simpl; [done|].
  apply IH. by apply registerEmbedded_inv.
Qed.

(** States of the service over the life of an installation: a first start on
    an empty store, registrations with any outcome, any activity of the
    health monitor, and restarts on the store the previous process left. *)
Inductive reachable : Svc S → Prop :=
  | reach_first e th cs sps s v :
      store_inv s → contents s = [] → boot e th cs sps s = (None, v) → reachable v
  | reach_register env inp v : reachable v → reachable (Register unmarshal_meta env inp v).2
  | reach_monitor m ns v : reachable v → reachable (set_mon m ns v)
  | reach_restart e th cs sps v v' :
      reachable v → boot e th cs sps (store v) = (None, v') → reachable v'.

Lemma external_types_NoDup v : svc_inv P_run v → NoDup (external_types (contents (store v))).
Proof.
  intros [H1 H2 H3]. unfold external_types.
  assert (∀ p, p ∈ contents (store v) → Type_ p = External →
    registry v !! ServiceType p = Some (Name p)) as Hk.
  { intros p Hp HT. eapply so_external; [done|by apply find_by_name_iff|done]. }
  clear H1 H3. induction (contents (store v)) as [|p l IH]; [constructor|].
  rewrite fmap_cons, NoDup_cons in H2. destruct H2 as [Hp Hl]. rewrite filter_cons.
  specialize (IH Hl (λ q Hq, Hk q (list_elem_of_further _ _ _ Hq))).
  case_decide as HT; [|done]. rewrite fmap_cons, NoDup_cons. split; [|done].
  intros (q & Heq & [HTq Hq]%list_elem_of_filter)%list_elem_of_fmap. apply Hp.
  pose proof (Hk p (list_elem_of_here _ _) HT) as E1.
  pose proof (Hk q (list_elem_of_further _ _ _ Hq) HTq) as E2.
  rewrite Heq, E2 in E1. injection E1 as <-. by apply list_elem_of_fmap_2.
Qed.

Lemma reachable_inv v : reachable v → svc_inv P_run v.
Proof.
  induction 1 as [e th cs sps s v Hs Hc Hb|env inp v _ IH|m ns v _ IH|e th cs sps v v' _ IH Hb].
  - eapply boot_inv; [done| | |exact Hb]; rewrite Hc; constructor.
  - by apply register_inv.
  - by apply (svc_inv_frame P_run v).
  - eapply boot_inv; [apply IH..| |exact Hb]. by apply external_types_NoDup.
Qed.

(** *** Behaviour of [Register] on every branch *)

Lemma records_save_same io p s :
  store_inv s → (Save io p s).1 = None →
  records (Save io p s).2 (Name p) = Some p ∧
  ∀ n, n ≠ Name p → records (Save io p s).2 n = records s n.
Proof.
  intros Hs Hr. pose proof (records_save io p s Hs Hr) as E. unfold set_rec in E. split.
  - rewrite <-E. by rewrite bool_decide_eq_true_2.
  - intros n Hn. rewrite <-E. by rewrite bool_decide_eq_false_2.
Qed.

Lemma toAPI_fields (v : Svc S) sp :
  api_Id (toAPI unmarshal_meta v sp) = ID sp ∧ api_CreateTime (toAPI unmarshal_meta v sp) = CreateTime sp.
Proof. unfold toAPI. by destruct (HealthTracker.GetState _ _). Qed.

Lemma update_ok env p inp v a v' :
  store_inv (store v) → updateRegistration unmarshal_meta env p inp v = (Ok a, v') →
  let p' := updated_record p inp (env_now env) in
  api_Id a = ID p ∧ api_CreateTime a = CreateTime p ∧
  records (store v') (Name p) = Some p' ∧
  (∀ n, n ≠ Name p → records (store v') n = records (store v) n) ∧
  (Endpoint p = in_Endpoint inp → ServiceType p = in_ServiceType inp →
    mon v' = mon v ∧ outbox v' = outbox v ∧ registry v' = registry v).
Proof.
  intros Hs. unfold updateRegistration. set (p' := updated_record p inp (env_now env)).
  pose proof (records_save_same (env_save env) p' (store v) Hs) as Hr.
  match goal with |- context [match ?x with (_, _) => _ end] =>
    destruct x as [[e|] reg] eqn:Em; [done|] end.
  simpl. destruct (Save _ _ _) as [[e|] s] eqn:Es; [done|]. simpl in *.
  destruct (Hr eq_refl) as [Hr1 Hr2].
  assert (store (trackExternalProvider env (ID p) (in_Endpoint inp) (in_ServiceType inp) true
    (set_store s (set_registry reg v))) = s) as Ht by apply track_frame.
  intros [= <- <-].
  match goal with |- context [if ?b then trackExternalProvider _ _ _ _ _ _ else _] => destruct b eqn:Ec end;
    rewrite ?Ht, ?(proj1 (toAPI_fields _ _)), ?(proj2 (toAPI_fields _ _));
    split_and!; try done; intros He HT.
  - rewrite He, HT, !bool_decide_eq_true_2 in Ec by done. done.
  - rewrite HT, bool_decide_eq_true_2 in Em by done. by simplify_eq/=.
Qed.

Lemma create_ok env id inp v a v' :
  store_inv (store v) → createRegistration unmarshal_meta env id inp v = (Ok a, v') →
  api_Id a = id ∧
  records (store v') (in_Name inp) = Some (new_record id inp (env_now env)) ∧
  (∀ n, n ≠ in_Name inp → records (store v') n = records (store v) n).
Proof.
  intros Hs. unfold createRegistration. destruct (Registry.Claim _ _ _) as [[e|] reg]; [done|].
  set (sp := new_record id inp (env_now env)).
  pose proof (records_save_same (env_save env) sp (store v) Hs) as Hr. simpl.
  destruct (Save _ _ _) as [[e|] s]; [done|]. intros [= <- <-]. simpl in *.
  destruct (Hr eq_refl) as [Hr1 Hr2]. rewrite (proj1 (toAPI_fields _ _)).
  destruct (track_frame env id (in_Endpoint inp) (in_ServiceType inp) true
    (set_store s (set_registry reg v))) as [-> _]. done.
Qed.

(** What an answered registration did. *)
Definition register_done (env : Env IO) (inp : RegistrationInput) (v v' : Svc S)
    (a : APIProvider M) (created : bool) : Prop :=
  match records (store v) (in_Name inp) with
  | Some p =>
      created = false ∧ api_Id a = ID p ∧ api_CreateTime a = CreateTime p ∧
      (in_ProviderID inp = None ∨ in_ProviderID inp = Some (ID p)) ∧
      records (store v') (in_Name inp) = Some (updated_record p inp (env_now env))
  | None =>
      created = true ∧ api_Id a = default (env_uuid env) (in_ProviderID inp) ∧
      (∀ r, in_ProviderID inp = Some r → r ≠ "" ∧ ∀ q, q ∈ contents (store v) → ID q ≠ r) ∧
      records (store v') (in_Name inp) = Some (new_record (api_Id a) inp (env_now env))
  end ∧
  ∀ n, n ≠ in_Name inp → records (store v') n = records (store v) n.

Lemma registerLocked_ok env inp v a created v' :
  store_inv (store v) → registerLocked unmarshal_meta env inp v = (Ok (a, created), v') →
  register_done env inp v v' a created.
Proof.
  intros Hs. unfold registerLocked, register_done.
  destruct (GetByName _ _ _) as [[p|]|e] eqn:Eg; [| |done];
    apply get_by_name_spec in Eg; try done; symmetry in Eg; unfold records at 1; rewrite Eg.
  - apply (records_name (store v)) in Eg as HN.
    destruct (ensureIDConsistency _ _) eqn:Eid; [done|].
    destruct (updateRegistration _ _ _ _ _) as [[a'|e] v''] eqn:Eu; [|done]. intros [= <- <- <-].
    destruct (update_ok _ _ _ _ _ _ Hs Eu) as (H1 & H2 & H3 & H4 & _). rewrite HN in *.
    split_and!; try done. unfold ensureIDConsistency in Eid.
    destruct (in_ProviderID inp) as [r|]; [right|by left]. case_bool_decide; congruence.
  - destruct (assignProviderID _ _ _) as [id|e] eqn:Ea; [|done].
    destruct (createRegistration _ _ _ _ _) as [[a'|e] v''] eqn:Eu; [|done]. intros [= <- <- <-].
    destruct (create_ok _ _ _ _ _ _ Hs Eu) as (H1 & H2 & H3). unfold assignProviderID in Ea. subst id.
    destruct (in_ProviderID inp) as [r|]; simpl; [|split_and!; [done|congruence|done..]].
    destruct (bool_decide_reflect (r = "")); [done|].
    destruct (GetByID _ _ _) as [[h|]|e] eqn:Ei; [done| |done]. apply get_by_id_spec in Ei; [|done].
    injection Ea as ->. split_and!; try done. intros ? [= <-]. split; [done|]. intros q Hq HID.
    assert (by_id (api_Id a') q = false) as Hf by (by eapply find_None_elem; [symmetry|]).
    unfold by_id in Hf. by breflect.
Qed.

Lemma registerLocked_err env inp v e v' :
  svc_inv P_run v → (∀ p, records (store v) (in_Name inp) = Some p → Type_ p = External) →
  registerLocked unmarshal_meta env inp v = (Err e, v') →
  contents (store v') = contents (store v) ∧ registry v' = registry v ∧
  mon v' = mon v ∧ outbox v' = outbox v.
Proof.
  intros [H1 H2 H3] Hext. unfold registerLocked.
  destruct (GetByName _ _ _) as [[p|]|e'] eqn:Eg; [| |by intros [= _ <-]];
    apply get_by_name_spec in Eg; try done; symmetry in Eg.
  - apply (records_name (store v)) in Eg as HN. specialize (Hext p Eg). rewrite <-HN in Eg.
    destruct (ensureIDConsistency _ _); [by intros [= _ <-]|]. unfold updateRegistration.
    set (p' := updated_record p inp (env_now env)).
    pose proof (save_err (env_save env) p' (store v) H1) as Herr.
    destruct (bool_decide_reflect (ServiceType p = in_ServiceType inp)) as [Heq|Hne]; simpl.
    + destruct (Save _ _ _) as [[e'|] s]; [|done]. simpl in *. intros [= _ <-]. simpl. by rewrite Herr.
    + destruct (Registry.Move _ _ _ _) as [[err|] reg] eqn:Hm.
      { intros [= _ <-]. simpl. split_and!; try done. revert Hm. unfold Registry.Move. cases; by intros [= _ <-]. }
      destruct (slots_ok_undone _ _ p p' H3 Eg eq_refl eq_refl reg Hne Hm) as [_ Hu].
      destruct (Save _ _ _) as [[e'|] s]; [|done]. simpl in *. intros [= _ <-]. simpl.
      rewrite Herr by done. by rewrite Hu.
  - destruct (assignProviderID _ _ _) as [id|e']; [|by intros [= _ <-]]. unfold createRegistration.
    destruct (Registry.Claim _ _ _) as [[err|] reg] eqn:Hc.
    { intros [= _ <-]. simpl. split_and!; try done.
      destruct (Registry.other_holder (in_Name inp) (in_ServiceType inp) (registry v)) as [h|] eqn:E.
      - rewrite (Registry.Claim_err _ _ _ _ E) in Hc. by simplify_eq.
      - by rewrite (Registry.Claim_ok _ _ _ E) in Hc. }
    pose proof (save_err (env_save env) (new_record id inp (env_now env)) (store v) H1) as Herr. simpl.
    destruct (Save _ _ _) as [[e'|] s]; [|done]. simpl in *. intros [= _ <-]. simpl.
    rewrite Herr by done. by rewrite (claim_release _ _ _ _ _ _ H3 Eg Hc).
Qed.

(** The record a successful registration leaves has the registered fields. *)
Lemma register_done_record env inp v v' a created :
  register_done env inp v v' a created →
  ∃ p, records (store v') (in_Name inp) = Some p ∧ ID p = api_Id a ∧
    Endpoint p = in_Endpoint inp ∧ ServiceType p = in_ServiceType inp ∧
    ensureIDConsistency (ID p) (in_ProviderID inp) = None.
Proof.
  unfold register_done, ensureIDConsistency. intros [Hm _]. case_match.
  - destruct Hm as (_ & Ha & _ & Hid & Hr). eexists; split; [exact Hr|]. simpl.
    split_and!; [done..|]. destruct Hid as [->| ->]; [done|]. by rewrite bool_decide_eq_true_2.
  - destruct Hm as (_ & Ha & _ & Hr). eexists; split; [exact Hr|]. simpl.
    split_and!; [done..|]. destruct (in_ProviderID inp); [|done]. by rewrite bool_decide_eq_true_2.
Qed.

Lemma Register_locked env inp v r v' :
  Register unmarshal_meta env inp v = (r, v') →
  ∃ w, registerLocked unmarshal_meta env inp v = (r, w) ∧ store v' = store w ∧
    registry v' = registry w ∧ mon v' = mon w ∧ (∀ e, r = Err e → v' = w).
Proof.
  unfold Register. destruct (registerLocked _ _ _ _) as [[x|e] w] eqn:E; intros [= <- <-].
  - exists w. by destruct (notifyChange_frame w) as (-> & -> & ->).
  - by exists w.
Qed.

(** The record an answered registration saved, and that its answer shows. *)
Lemma Register_saved env inp v a created v' :
  store_inv (store v) → Register unmarshal_meta env inp v = (Ok (a, created), v') →
  ∃ p, a = toAPI unmarshal_meta v' p ∧ Name p = in_Name inp ∧ store_inv (store v') ∧
    contents (store v') = upsert p (contents (store v)) ∧
    match List.find (by_name (in_Name inp)) (contents (store v)) with
    | Some q => ID p = ID q
    | None => ID p = default (env_uuid env) (in_ProviderID inp)
    end.
Proof.
  intros Hs Hreg. pose proof Hreg as (w & Hl & Es & _ & Em & _)%Register_locked.
  assert (∀ p, toAPI unmarshal_meta v' p = toAPI unmarshal_meta w p) as Ht by (intros p; unfold toAPI; by rewrite Em).
  apply registerLocked_ok in Hl as Hd; [|done]. destruct Hd as [Hd _]. rewrite Es. setoid_rewrite Ht. clear Ht Em Es Hreg.
  revert Hl Hd. unfold registerLocked, records.
  destruct (GetByName _ _ _) as [[q|]|e] eqn:Eg; [| |done]; apply get_by_name_spec in Eg; try done; rewrite <-Eg.
  - symmetry in Eg. apply (records_name (store v)) in Eg as HN. destruct (ensureIDConsistency _ _); [done|].
    unfold updateRegistration. set (p := updated_record q inp (env_now env)).
    destruct (if negb _ then Registry.Move _ _ _ _ else _) as [[e|] reg]; [done|].
    pose proof (save_ok (env_save env) p (store v) Hs) as Hk. pose proof (save_inv (env_save env) p (store v) Hs) as Hi.
    simpl. destruct (Save _ _ _) as [[e|] s]; [done|]. simpl in *. intros [= <- _ <-] _. exists p.
    match goal with |- context [if ?b then trackExternalProvider ?e ?i ?ep ?st ?c ?x else _] =>
      pose proof (proj1 (track_frame e i ep st c x)) as Ets; destruct b end; rewrite ?Ets; by split_and!; [..|apply Hk|].
  - destruct (assignProviderID _ _ _) as [id|e]; [|done]. unfold createRegistration.
    destruct (Registry.Claim _ _ _) as [[e|] reg]; [done|]. set (p := new_record id inp (env_now env)).
    pose proof (save_ok (env_save env) p (store v) Hs) as Hk. pose proof (save_inv (env_save env) p (store v) Hs) as Hi.
    simpl. destruct (Save _ _ _) as [[e|] s]; [done|]. simpl in *. intros [= <- _ <-] (_ & Hid & _). exists p.
    rewrite (proj1 (toAPI_fields _ _)) in Hid.
    pose proof (proj1 (track_frame env id (in_Endpoint inp) (in_ServiceType inp) true (set_store s (set_registry reg v)))) as Ets.
    rewrite Ets. by split_and!; [..|apply Hk|].
Qed.

(** With unique identifiers, an upserted record is found by its identifier. *)
Lemma find_id_upsert p l :
  NoDup (ID <$> l) →
  match List.find (by_name (Name p)) l with Some q => ID p = ID q | None => ID p ∉ ID <$> l end →
  List.find (by_id (ID p)) (upsert p l) = Some p.
Proof.
  induction l as [|q l IH]; intros Hn Hf.
  - simpl. unfold by_id. by rewrite bool_decide_eq_true_2.
  - rewrite fmap_cons, NoDup_cons in Hn. destruct Hn as [Hq Hn]. revert Hf. cbn [upsert List.find]. unfold by_name at 1.
    case_bool_decide as HN; intros Hf; cbn [List.find]; unfold by_id at 1.
    + by rewrite bool_decide_eq_true_2.
    + destruct (List.find (by_name (Name p)) l) as [q'|] eqn:E.
      * rewrite bool_decide_eq_false_2; [by apply IH|]. intros HE. apply Hq. rewrite HE, Hf.
        apply list_elem_of_fmap_2. by apply List.find_some in E as [?%list_elem_of_In _].
      * rewrite bool_decide_eq_false_2; [apply IH; set_solver|set_solver].
Qed.

(** What was registered can be read back by its identifier, as it was
    answered, unless the store cannot be read. *)
Lemma register_get env env' inp v a created v' :
  store_inv (store v) → NoDup (ID <$> contents (store v)) → env_uuid env ∉ ID <$> contents (store v) →
  Register unmarshal_meta env inp v = (Ok (a, created), v') →
  match Get unmarshal_meta env' (api_Id a) v' with
  | Ok b => b = a
  | Err e => GetByID (env_get_id env') (api_Id a) (store v') = Err e
  end.
Proof.
  intros Hs Hn Hfresh Hreg. pose proof Hreg as (w & Hl & _)%Register_locked. apply registerLocked_ok in Hl as [Hd _]; [|done].
  apply Register_saved in Hreg as (p & -> & HN & Hs' & Hc & Hid); [|done]. rewrite (proj1 (toAPI_fields _ _)) in *. unfold Get.
  destruct (GetByID _ _ _) as [r|e] eqn:Eg; [|done]. apply get_by_id_spec in Eg; [|done].
  rewrite Hc, find_id_upsert in Eg; [by subst|done|]. rewrite HN. unfold records in Hd.
  destruct (List.find _ (contents (store v))); [done|]. rewrite Hid. destruct Hd as (_ & _ & Hused & _).
  destruct (in_ProviderID inp) as [r'|]; [|done]. destruct (Hused r' eq_refl) as [_ Hu]. set_solver.
Qed.

(** C7: over the whole life of an installation (starts, registrations with any
    store failure, health activity, restarts) the slot registry and the stored
    records agree: whoever holds a slot has a record (of that service type, or
    the embedded provider of that name), every external record holds the slot
    of its type, and no two records share a name, nor two external ones a type. *)
Theorem service_slots_consistent v :
  reachable v →
  (∀ st n, Registry.Lookup st (registry v) = Some n →
     ∃ p, records (store v) n = Some p ∧
          (ServiceType p = st ∨ (Type_ p = Embedded ∧ Name p = st))) ∧
  (∀ p, p ∈ contents (store v) → Type_ p = External →
     Registry.Lookup (ServiceType p) (registry v) = Some (Name p)) ∧
  NoDup (Name <$> contents (store v)) ∧
  NoDup (external_types (contents (store v))).
Proof.
  intros Hv%reachable_inv. pose proof (external_types_NoDup v Hv). destruct Hv as [H1 H2 H3].
  split_and!; [apply H3| |done..]. intros p Hp HT.
  eapply so_external; [done|by apply find_by_name_iff|done].
Qed.

(** C18: a registration that is answered with an error leaves no trace: the
    stored records, the slot registry (the slot moved or claimed before the
    failed save included), the monitored providers and the notifications are
    as before.  The provider of that name, if any, is external. *)
Theorem register_error_atomic env inp v e v' :
  svc_inv P_run v →
  (∀ p, records (store v) (in_Name inp) = Some p → Type_ p = External) →
  Register unmarshal_meta env inp v = (Err e, v') →
  contents (store v') = contents (store v) ∧ registry v' = registry v ∧
  mon v' = mon v ∧ outbox v' = outbox v.
Proof.
  intros Hinv Hext (w & Hl & _ & _ & _ & Hw)%Register_locked. rewrite (Hw e eq_refl).
  by eapply registerLocked_err.
Qed.

(** What an answered registration did: a known name is updated in place
    with its id, type and creation time kept (and the requested id, if any, is
    that id); a new name gets the requested id, which no record uses, or the
    generated one; every other record is untouched. *)
Theorem register_functional env inp v a created v' :
  store_inv (store v) → Register unmarshal_meta env inp v = (Ok (a, created), v') →
  register_done env inp v v' a created.
Proof.
  intros Hs (w & Hl & Es & _)%Register_locked. apply registerLocked_ok in Hl; [|done].
  unfold register_done in *. by rewrite Es.
Qed.

(** Repeating an answered registration is idempotent: it can only fail
    with the store's own read or write error; otherwise it reports an update
    of the same provider, keeps the slots, resets no health state and starts
    no new monitoring. *)
Theorem register_idempotent env env' inp v a created v1 r v2 :
  svc_inv P_run v → Register unmarshal_meta env inp v = (Ok (a, created), v1) →
  Register unmarshal_meta env' inp v1 = (r, v2) →
  match r with
  | Ok (a', created') =>
      created' = false ∧ api_Id a' = api_Id a ∧ registry v2 = registry v1 ∧ mon v2 = mon v1
  | Err e =>
      GetByName (env_get env') (in_Name inp) (store v1) = Err e ∨
      ∃ p, (Save (env_save env') p (store v1)).1 = Some e
  end.
Proof.
  intros Hinv Hreg H2. pose proof (register_inv env inp v Hinv) as Hinv1. rewrite Hreg in Hinv1.
  apply Register_locked in Hreg as (w & Hl & Es & _). apply registerLocked_ok in Hl; [|apply Hinv].
  apply register_done_record in Hl as (p & Hp & Hid & Hep & Hst & Hcons). rewrite <-Es in Hp.
  apply Register_locked in H2 as (w2 & Hl & _ & Er & Em & _). revert Hl. unfold registerLocked.
  destruct (GetByName _ _ _) as [q|e] eqn:Eg; [|intros [= <- _]; by left].
  apply get_by_name_spec in Eg; [|apply Hinv1]. unfold records in Hp. rewrite Hp in Eg. subst q.
  rewrite Hcons. destruct (updateRegistration _ _ _ _ _) as [[a'|e] w'] eqn:Eu; intros [= <- <-].
  - apply update_ok in Eu as (Ha & _ & _ & _ & Hf); [|apply Hinv1].
    destruct (Hf Hep Hst) as (Hm & _ & Hr). split_and!; congruence.
  - right. revert Eu. unfold updateRegistration. rewrite Hst, bool_decide_eq_true_2 by done. simpl.
    destruct (Save _ _ _) as [[e'|] s] eqn:Esv; intros [= -> _]. eexists. by rewrite Esv.
Qed.

(** An embedded provider keeps its identity across restarts: registering
    its type again leaves the record of that name alone, removes it, or
    rewrites it with the same id and creation time. *)
Theorem embedded_identity_stable (env : Env IO) st v p :
  store_inv (store v) → records (store v) st = Some p →
  let v' := registerEmbeddedType env v st in
  match records (store v') st with
  | Some p' => ID p' = ID p ∧ CreateTime p' = CreateTime p
  | None => Type_ p = Embedded ∧ (Registry.Claim st st (registry v)).1 ≠ None
  end.
Proof.
  intros Hs Hp. cbn zeta. unfold registerEmbeddedType.
  destruct (GetByName _ _ _) as [ex|] eqn:Eg; [|by rewrite Hp].
  apply get_by_name_spec in Eg; [|done]. unfold records in Hp. rewrite Hp in Eg. subst ex.
  fold (records (store v) st) in Hp. simpl. case_bool_decide as HE; [by rewrite Hp|].
  pose proof (record_type _ _ _ Hs Hp HE) as HT.
  destruct (Registry.Claim st st (registry v)) as [[err|] reg]; simpl.
  - rewrite bool_decide_eq_true_2 by done.
    destruct (cleanup_frame env p (set_registry reg v)) as [-> _]. simpl.
    destruct (Delete (env_delete env) (Name p) (store v)).1 eqn:Ed.
    + unfold records. rewrite delete_err by (done || congruence). unfold records in Hp. by rewrite Hp.
    + rewrite <-records_delete by done. rewrite (records_name _ _ _ Hp).
      unfold del_rec. by rewrite bool_decide_eq_true_2.
  - rewrite HT. rewrite (bool_decide_eq_true_2 (Embedded = Embedded)) by done. simpl.
    destruct (record_identity _ _ _ Hs Hp) as [H1 H2].
    rewrite H2, bool_decide_eq_false_2 by done.
    set (sp := embedded_record (ID p) st (CreateTime p) (env_now env)).
    destruct (Save (env_save env) sp (store v)) as [err s] eqn:Esv.
    assert (records s st = Some p ∨ records s st = Some sp) as Hr.
    { pose proof (save_err (env_save env) sp _ Hs) as He.
      pose proof (records_save_same (env_save env) sp _ Hs) as Hk. rewrite Esv in He, Hk. simpl in *.
      destruct err; [left|right; by apply Hk]. unfold records. by rewrite He. }
    assert (∀ w, store w = s → match records (store w) st with
      | Some p' => ID p' = ID p ∧ CreateTime p' = CreateTime p
      | None => Embedded = Embedded ∧ None (A := error) ≠ None end) as Hw.
    { intros w ->. by destruct Hr as [->| ->]. }
    pose proof (proj1 (monRegister_frame env (ID p) (embeddedChecker st (set_store s (set_registry reg v)))
      st Ready true (set_store s (set_registry reg v)))) as Hf.
    destruct err, (has_mon v); by apply Hw.
Qed.

End Consistency.
#[export] Hint Resolve si_store si_names si_slots : agent.

(** ** Concrete runs on the file store *)

Definition sample_env (now : Z) (uuid : string) (save : FileIO) : Env FileIO :=
  {| env_get := io_ok; env_get_id := io_ok; env_save := save; env_delete := io_ok;
     env_now := now; env_check_now := now + 1; env_uuid := uuid; env_check := λ _, CheckHealthy |}.

Definition disk_full : FileIO :=
  {| io_read := None; io_marshal := None; io_open := None; io_write := Some (EIO "no space");
     io_sync := None; io_close := None; io_rename := None; io_diropen := None; io_dirsync := None |}.

Definition sample_boot : BootEnv (IO := FileIO) :=
  {| boot_load := sample_env 10 "" io_ok; boot_list := io_ok;
     boot_stale := λ _, sample_env 10 "" io_ok; boot_reg := λ _, sample_env 10 "emb-1" io_ok |}.

Definition empty_disk : Disk := mkDisk None None None.
Definition sample_start : Svc Disk := (boot sample_boot 3 ∅ [" db "; ""] empty_disk).2.

Definition sample_input (st : string) : RegistrationInput :=
  mkInput "acme" "http://acme" st "v1" None (Some "id-1") None "".

Definition no_meta : string → option unit := λ _, None.
Definition sample_created : Svc Disk :=
  (Register no_meta (sample_env 20 "u" io_ok) (sample_input "vm") sample_start).2.

Lemma sample_start_reachable : reachable no_meta sample_start.
Proof.
  apply (reach_first no_meta sample_boot 3 ∅ [" db "; ""] empty_disk); [| |vm_compute; reflexivity].
  - vm_compute. exact (conj I I) || (split; constructor) || constructor.
  - vm_compute. reflexivity.
Qed.

Lemma sample_created_reachable : reachable no_meta sample_created.
Proof. unfold sample_created. apply reach_register, sample_start_reachable. Qed.

Lemma service_slots_consistent_witness :
  reachable no_meta sample_created ∧
  NoDup (external_types (contents (store sample_created))) ∧
  Registry.Lookup "vm" (registry sample_created) = Some "acme".
Proof.
  destruct (service_slots_consistent no_meta sample_created sample_created_reachable) as (_ & H2 & _ & H4).
  split_and!; [exact sample_created_reachable|exact H4|].
  pose (p := new_record "id-1" (sample_input "vm") 20).
  assert (records (store sample_created) "acme" = Some p) as Hp by (vm_compute; reflexivity).
  destruct (find_Some_elem (by_name "acme") (contents (store sample_created)) p Hp) as [Hin _].
  exact (H2 p Hin eq_refl).
Defined.

Lemma register_error_atomic_witness :
  let v' := (Register no_meta (sample_env 30 "u" disk_full) (sample_input "net") sample_created).2 in
  registry v' = registry sample_created ∧ contents (store v') = contents (store sample_created).
Proof.
  destruct (register_error_atomic no_meta (sample_env 30 "u" disk_full) (sample_input "net")
    sample_created (EWrap "write temp file" (EIO "no space"))
    (Register no_meta (sample_env 30 "u" disk_full) (sample_input "net") sample_created).2)
    as (H1 & H2 & _).
  - apply (reachable_inv no_meta), sample_created_reachable.
  - intros p Hp. vm_compute in Hp. injection Hp as <-. reflexivity.
  - vm_compute. reflexivity.
  - split; [exact H2|exact H1].
Defined.

Lemma register_functional_witness :
  ∃ a : APIProvider unit, register_done (sample_env 20 "u" io_ok) (sample_input "vm") sample_start sample_created a true ∧
       api_Id a = "id-1".
Proof.
  destruct (Register no_meta (sample_env 20 "u" io_ok) (sample_input "vm") sample_start) as [r v'] eqn:E.
  pose proof E as E1. vm_compute in E1. injection E1 as Hr _. symmetry in Hr.
  match type of Hr with _ = Ok (?a, true) => exists a end. split; [|reflexivity].
  apply (register_functional no_meta).
  - apply (si_store P_run), (reachable_inv no_meta), sample_start_reachable.
  - rewrite E, Hr. unfold sample_created. rewrite E. reflexivity.
Defined.

Lemma register_idempotent_witness :
  let r := Register no_meta (sample_env 40 "w" io_ok) (sample_input "vm") sample_created in
  mon r.2 = mon sample_created ∧ registry r.2 = registry sample_created.
Proof.
  cbn zeta. destruct (Register no_meta (sample_env 20 "u" io_ok) (sample_input "vm") sample_start)
    as [[[a c]|e] v1] eqn:E1; [|vm_compute in E1; discriminate].
  assert (v1 = sample_created) as Hv by (unfold sample_created; rewrite E1; reflexivity).
  destruct (Register no_meta (sample_env 40 "w" io_ok) (sample_input "vm") sample_created)
    as [r v2] eqn:E2.
  rewrite <-Hv in E2.
  pose proof (register_idempotent no_meta _ _ _ _ _ _ _ _ _
    (reachable_inv no_meta _ sample_start_reachable) E1 E2) as H.
  rewrite Hv in H, E2. vm_compute in E2. injection E2 as <- _.
  destruct H as (_ & _ & H3 & H4). split; [exact H4|exact H3].
Defined.

Lemma embedded_identity_stable_witness :
  ∃ p p', records (store sample_start) "db" = Some p ∧
    records (store (registerEmbeddedType (sample_env 50 "emb-2" io_ok) sample_start "db")) "db" = Some p' ∧
    ID p' = ID p.
Proof.
  destruct (records (store sample_start) "db") as [p|] eqn:E; [|vm_compute in E; discriminate].
  pose proof (embedded_identity_stable (sample_env 50 "emb-2" io_ok) "db" sample_start p
    (si_store P_run _ (reachable_inv no_meta _ sample_start_reachable)) E) as H.
  cbn zeta in H. destruct (records (store (registerEmbeddedType _ _ _)) "db") as [p'|] eqn:E'.
  - exists p, p'. destruct H as [H _]. split_and!; [reflexivity|reflexivity|exact H].
  - vm_compute in E'. discriminate.
Defined.
