(* ===== verification/Json.v ===== *)
(** * Decoding of request payloads

    Go's [encoding/json] rules for filling a struct from a JSON value, for the
    payload structs of internal/routing/types.go and
    internal/routing/retry/processor.go: keys match field names without regard
    to case, later members override earlier ones, [null] leaves a field as it
    is, a value of the wrong kind is an error. *)

From S2P Require Import Prelude GoStrings.
#[local] Open Scope string_scope.

Inductive json :=
  | JNull
  | JBool (b : bool)
  | JNumber (lit : string)
  | JString (s : string)
  | JArray (l : list json)
  | JObject (members : list (string * json)).

(** ** Case folding of member names

    ASCII letters, and the two non-ASCII characters whose simple folding is an
    ASCII letter: U+017F (long s) and U+212A (Kelvin sign). *)

Definition byte (n : nat) : Ascii.ascii := Ascii.ascii_of_nat n.

Fixpoint fold_chars (l : list Ascii.ascii) : list Ascii.ascii :=
  match l with
  | [] => []
  | c :: l1 =>
      match l1 with
      | d :: l2 =>
          if bool_decide (c = byte 197 ∧ d = byte 191) then byte 115 :: fold_chars l2
          else
            match l2 with
            | e :: l3 =>
                if bool_decide (c = byte 226 ∧ d = byte 132 ∧ e = byte 170) then byte 107 :: fold_chars l3
                else lower_ascii c :: fold_chars l1
            | [] => lower_ascii c :: fold_chars l1
            end
      | [] => lower_ascii c :: fold_chars l1
      end
  end.

Definition foldName (s : string) : string := of_chars (fold_chars (chars s)).
Definition key_matches (field key : string) : bool := foldName field =s? foldName key.

(** ** Struct fields *)

(** A [string] field: new value, and whether the member is of the wrong kind. *)
Definition set_string (old : string) (v : json) : string * bool :=
  match v with
  | JString s => (s, false)
  | JNull => (old, false)
  | _ => (old, true)
  end.

(** The payload of a request.  [Spec] is a raw message: any value, [null]
    included, or absent. *)
Record payload := mkPayload {
  pl_ResourceID : string;
  pl_ServiceType : string;
  pl_Spec : option json;
  pl_EventID : string
}.

Definition zero_payload : payload := mkPayload "" "" None "".

(** Decoding state: the struct so far and whether some member had the wrong
    kind.  [event_field] says whether the struct has the untagged [EventID]. *)
Definition set_member (event_field : bool) (st : payload * bool) (m : string * json) : payload * bool :=
  let '(p, bad) := st in
  let '(k, v) := m in
  if key_matches "resource_id" k then
    let '(s, b) := set_string (pl_ResourceID p) v in
    (mkPayload s (pl_ServiceType p) (pl_Spec p) (pl_EventID p), bad || b)
  else if key_matches "service_type" k then
    let '(s, b) := set_string (pl_ServiceType p) v in
    (mkPayload (pl_ResourceID p) s (pl_Spec p) (pl_EventID p), bad || b)
  else if key_matches "spec" k then
    (mkPayload (pl_ResourceID p) (pl_ServiceType p) (Some v) (pl_EventID p), bad)
  else if event_field && key_matches "EventID" k then
    let '(s, b) := set_string (pl_EventID p) v in
    (mkPayload (pl_ResourceID p) (pl_ServiceType p) (pl_Spec p) s, bad || b)
  else (p, bad).

(** [json.Unmarshal] into the struct; [None] is an error.  [data] is the
    parsed text, [None] when it is empty or not JSON. *)
Definition unmarshal_payload (event_field : bool) (data : option json) : option payload :=
  match data with
  | None => None
  | Some JNull => Some zero_payload
  | Some (JObject ms) =>
      let '(p, bad) := fold_left (set_member event_field) ms (zero_payload, false) in
      if bad then None else Some p
  | Some _ => None
  end.

(** ** Round trip with the control plane's encoding *)

(** Object the control plane sends: snake-case keys, [spec] omitted when empty. *)
Definition encode_payload (rid st : string) (spec : option json) : json :=
  JObject ([("resource_id", JString rid); ("service_type", JString st)]
           ++ match spec with Some v => [("spec", v)] | None => [] end).

Lemma decode_encode b rid st spec :
  unmarshal_payload b (Some (encode_payload rid st spec)) = Some (mkPayload rid st spec "").
Proof. destruct spec; reflexivity. Qed.
