(* ===== verification/Effects.v ===== *)
(** * Programs that act on shared state

    The message handlers of the agent run concurrently on shared structures
    (the in-flight lock, the claimed set, the deny list) and call the outside
    (service providers, NATS, the provider store).  A handler is a program: a
    tree of atomic operations.  The same definitions are given three readings:
    the executions of one handler under any answers ([exec]), its sequential
    run on a state with a given outside world ([run]), and the interleaved runs
    of any number of handlers ([pool_step]). *)

From S2P Require Import Prelude Sets Provider FileStore Json.

(** ** Vocabulary of the operations *)

(** CloudEvent types of internal/cloudevent/types.go. *)
Inductive CEType :=
  | TypeError | TypeRequestQueued | TypeCancelAcked | TypeCancelRejected
  | TypeCreationAcked | TypeDeletionAcked | TypeHealthDegraded | TypeHealthUnavailable.

#[export] Instance CEType_eq_dec : EqDecision CEType.
Proof. solve_decision. Defined.

(** Payloads of the response CloudEvents (internal/routing/types.go). *)
Record ResponseContext := mkRC { rc_ResourceID : string; rc_AgentName : string; rc_TopicName : string }.

Record ErrorDetails := mkDetails {
  ed_Message : string;
  ed_ProviderError : option (Z * string)
}.

Inductive CEData :=
  | CreationAckData (c : ResponseContext) (status : string)
  | DeletionAckData (c : ResponseContext) (status : string)
  | RequestQueuedData (c : ResponseContext) (serviceType status : string)
  | ErrorData (c : ResponseContext) (err : string) (details : ErrorDetails)
  | CancelAckData (c : ResponseContext) (serviceType : string)
  | CancelRejectedData (c : ResponseContext) (reason : string).

Definition ce_context (d : CEData) : ResponseContext :=
  match d with
  | CreationAckData c _ | DeletionAckData c _ | RequestQueuedData c _ _
  | ErrorData c _ _ | CancelAckData c _ | CancelRejectedData c _ => c
  end.

(** A call to a service provider. *)
Record SPCall := mkCall {
  c_create : bool;
  c_embedded : bool;
  c_target : string;
  c_ResourceID : string;
  c_ServiceType : string;
  c_Spec : option json;
  c_EventID : string
}.

(** How a call ends: a panic of an in-process handler, an error or success
    without an HTTP status, or an HTTP response (code, body, status line). *)
Inductive call_result :=
  | CallPanic
  | CallReturned (e : option error)
  | CallResponse (code : Z) (body status : string).

(** A JetStream message: its handle and its data. *)
Record Msg := mkMsg { m_handle : nat; m_data : string }.

Inductive disposition := DAck | DNak | DNakDelay (d : Z) | DTerm | DInProgress.

#[export] Instance disposition_eq_dec : EqDecision disposition.
Proof. solve_decision. Defined.

(** Operations on the state the handlers share. *)
Inductive st_op :=
  | LockAdd (id : string)
  | LockRemove (id : string)
  | ClaimAdd (id : string)
  | ClaimRemove (id : string)
  | ClaimContains (id : string)
  | DenyAdd (id : string)
  | DenyConsume (id : string)
  | DenyContains (id : string)
  | RetryMuLock
  | RetryMuUnlock
  | CtxErr (ctx : nat)
  | CtxOrTimer (ctx : nat) (d : Z).

Definition st_resp (o : st_op) : Type :=
  match o with
  | LockAdd _ | ClaimAdd _ | ClaimContains _ | DenyConsume _ | DenyContains _ => bool
  | LockRemove _ | ClaimRemove _ | DenyAdd _ | RetryMuLock | RetryMuUnlock => unit
  | CtxErr _ | CtxOrTimer _ _ => option error
  end.

(** Operations on the outside. *)
Inductive ext_op :=
  | RegistryLookup (serviceType : string)
  | StoreByName (name : string)
  | StoreByID (id : string)
  | TrackerGet (id : string)
  | Publish (subject data : string)
  | EmitCE (ty : CEType) (data : CEData)
  | CallStart (c : SPCall)
  | CallEnd (c : SPCall)
  | MsgDo (m : Msg) (d : disposition)
  | MsgMetadata (m : Msg)
  | JSReady
  | ConsumerPending (stream consumer : string)
  | FetchBatch (stream consumer : string) (n : Z).

Definition ext_resp (o : ext_op) : Type :=
  match o with
  | RegistryLookup _ => option string
  | StoreByName _ | StoreByID _ => result (option StoredProvider)
  | TrackerGet _ => option HealthState
  | Publish _ _ | EmitCE _ _ | MsgDo _ _ => option error
  | CallStart _ => unit
  | CallEnd _ => call_result
  | MsgMetadata _ => result Z
  | JSReady => bool
  | ConsumerPending _ _ => result Z
  | FetchBatch _ _ _ => result (list Msg * option error)
  end.

Inductive op := St (o : st_op) | Ex (o : ext_op).

Definition resp (o : op) : Type :=
  match o with St o => st_resp o | Ex o => ext_resp o end.

(** ** Programs *)

Inductive prog (A : Type) : Type :=
  | Ret (a : A)
  | Do (o : op) (k : resp o → prog A).
Arguments Ret {A} a.
Arguments Do {A} o k.

Fixpoint pbind {A B} (f : A → prog B) (p : prog A) : prog B :=
  match p with
  | Ret a => f a
  | Do o k => Do o (λ r, pbind f (k r))
  end.

#[export] Instance prog_ret : MRet prog := λ A a, Ret a.
#[export] Instance prog_bind : MBind prog := λ A B f p, pbind f p.

Definition st (o : st_op) : prog (st_resp o) := Do (St o) (λ r, Ret r).
Definition ex (o : ext_op) : prog (ext_resp o) := Do (Ex o) (λ r, Ret r).

(** Programs that may panic: deferred calls run in both cases. *)
Inductive exc (A : Type) := Val (a : A) | Panicked.
Arguments Val {A} a.
Arguments Panicked {A}.

Abbreviation fun_ A := (prog (exc A)).
Definition fret {A} (a : A) : fun_ A := Ret (Val a).
Definition fbind {A B} (p : fun_ A) (f : A → fun_ B) : fun_ B :=
  pbind (λ x, match x with Val a => f a | Panicked => Ret Panicked end) p.
Definition lift {A} (p : prog A) : fun_ A := pbind (λ a, Ret (Val a)) p.

(** [defer cleanup()] around the rest of a function. *)
Definition deferred {A} (cleanup : exc A → prog unit) (p : fun_ A) : fun_ A :=
  pbind (λ x, pbind (λ _, Ret x) (cleanup x)) p.

Notation "x ⇐ p ; f" := (fbind p (λ x, f))
  (at level 20, p at level 100, f at level 200, right associativity) : agent_scope.
Notation "p ;⇐ f" := (fbind p (λ _, f)) (at level 100, f at level 200, right associativity) : agent_scope.

Fixpoint for_each {A} (f : A → fun_ unit) (l : list A) : fun_ unit :=
  match l with
  | [] => fret tt
  | x :: l' => f x ;⇐ for_each f l'
  end.

(** ** Executions under arbitrary answers *)

Definition event := { o : op & resp o }.
Definition ev (o : op) (r : resp o) : event := existT o r.

Inductive exec {A} : prog A → list event → A → Prop :=
  | exec_ret a : exec (Ret a) [] a
  | exec_do o k r tr a : exec (k r) tr a → exec (Do o k) (ev o r :: tr) a.

Lemma exec_inv {A} (p : prog A) tr a :
  exec p tr a →
  match p with
  | Ret a' => tr = [] ∧ a = a'
  | Do o k => ∃ r tr', tr = ev o r :: tr' ∧ exec (k r) tr' a
  end.
Proof. destruct 1; eauto. Qed.

(** ** Monitors

    A monitor reads the events of an execution and may object ([None]).
    [mwp δ p s Q]: whatever the answers, the monitor started in [s] never
    objects to the execution of [p] and ends in a state related by [Q] to the
    result. *)

Section Monitor.
Context {S : Type} (δ : S → ∀ o : op, resp o → option S).

Fixpoint mwp {A} (p : prog A) (s : S) (Q : S → A → Prop) : Prop :=
  match p with
  | Ret a => Q s a
  | Do o k => ∀ r, match δ s o r with Some s' => mwp (k r) s' Q | None => False end
  end.

Fixpoint observe (s : S) (tr : list event) : option S :=
  match tr with
  | [] => Some s
  | existT o r :: tr' => match δ s o r with Some s' => observe s' tr' | None => None end
  end.

Lemma mwp_exec {A} (p : prog A) tr a :
  exec p tr a → ∀ s Q, mwp p s Q → ∃ s', observe s tr = Some s' ∧ Q s' a.
Proof.
  induction 1 as [a|o k r tr a _ IH]; intros s Q Hp; [by exists s|].
  specialize (Hp r). simpl. destruct (δ s o r) as [s'|]; [|done]. by apply IH.
Qed.

Lemma mwp_mono {A} (p : prog A) s (Q Q' : S → A → Prop) :
  (∀ s a, Q s a → Q' s a) → mwp p s Q → mwp p s Q'.
Proof.
  intros HQ. revert s. induction p as [a|o k IH]; intros s; simpl; [auto|].
  intros H r. specialize (H r). destruct (δ s o r); [|done]. by apply IH.
Qed.

Lemma mwp_bind {A B} (f : A → prog B) (p : prog A) s Q :
  mwp p s (λ s' a, mwp (f a) s' Q) → mwp (pbind f p) s Q.
Proof.
  revert s. induction p as [a|o k IH]; intros s; simpl; [done|].
  intros H r. specialize (H r). destruct (δ s o r); [|done]. by apply IH.
Qed.

(** One operation followed by the rest. *)
Lemma mwp_st {B} (o : st_op) (f : st_resp o → prog B) s Q :
  (∀ r, match δ s (St o) r with Some s' => mwp (f r) s' Q | None => False end) →
  mwp (st o ≫= f) s Q.
Proof. done. Qed.

Lemma mwp_ex {B} (o : ext_op) (f : ext_resp o → prog B) s Q :
  (∀ r, match δ s (Ex o) r with Some s' => mwp (f r) s' Q | None => False end) →
  mwp (ex o ≫= f) s Q.
Proof. done. Qed.

(** Sequencing of functions that may panic. *)
Lemma mwp_fbind {A B} (p : fun_ A) (f : A → fun_ B) s (Q : S → exc B → Prop) :
  mwp p s (λ s' x, match x with Val a => mwp (f a) s' Q | Panicked => Q s' Panicked end) →
  mwp (fbind p f) s Q.
Proof.
  intros H. apply mwp_bind. eapply mwp_mono; [|exact H]. by intros s' [a|].
Qed.

Lemma mwp_lift {A} (p : prog A) s (Q : S → exc A → Prop) :
  mwp p s (λ s' a, Q s' (Val a)) → mwp (lift p) s Q.
Proof. intros H. by apply mwp_bind. Qed.

Lemma mwp_fst {B} (o : st_op) (f : st_resp o → fun_ B) s Q :
  (∀ r, match δ s (St o) r with Some s' => mwp (f r) s' Q | None => False end) →
  mwp (fbind (lift (st o)) f) s Q.
Proof. done. Qed.

Lemma mwp_fex {B} (o : ext_op) (f : ext_resp o → fun_ B) s Q :
  (∀ r, match δ s (Ex o) r with Some s' => mwp (f r) s' Q | None => False end) →
  mwp (fbind (lift (ex o)) f) s Q.
Proof. done. Qed.

Lemma mwp_deferred {A} (cleanup : exc A → prog unit) (p : fun_ A) s Q :
  mwp p s (λ s' x, mwp (cleanup x) s' (λ s'' _, Q s'' x)) → mwp (deferred cleanup p) s Q.
Proof.
  intros H. apply mwp_bind. eapply mwp_mono; [|exact H]. intros s' x Hx. by apply mwp_bind.
Qed.

(** A loop keeps an invariant of the monitor state. *)
Lemma mwp_for_each {A} (f : A → fun_ unit) (l : list A) s (I : S → Prop) (Q : S → exc unit → Prop) :
  I s → (∀ x s', x ∈ l → I s' → mwp (f x) s' (λ s'' r, match r with Val _ => I s'' | Panicked => Q s'' Panicked end)) →
  (∀ s', I s' → Q s' (Val tt)) → mwp (for_each f l) s Q.
Proof.
  intros Hs Hf HQ. revert s Hs. induction l as [|x l IH]; intros s Hs; simpl; [by apply HQ|].
  apply mwp_fbind. eapply mwp_mono; [|apply Hf; [left|done]].
  intros s' [[]|] H'; [|done]. apply IH; [|done]. intros y s'' Hy. apply Hf. by right.
Qed.

(** *** Programs that leave the monitor where it was *)

Definition keeps {A} (g : S) (p : prog A) : Prop := mwp p g (λ g' _, g' = g).

Lemma keeps_bind {A B} g (f : A → prog B) (p : prog A) :
  keeps g p → (∀ a, keeps g (f a)) → keeps g (pbind f p).
Proof.
  intros Hp Hf. apply mwp_bind. eapply mwp_mono; [|exact Hp]. intros g' a ->. apply Hf.
Qed.

Lemma keeps_mbind {A B} g (f : A → prog B) (p : prog A) :
  keeps g p → (∀ a, keeps g (f a)) → keeps g (p ≫= f).
Proof. apply keeps_bind. Qed.

Lemma keeps_fbind {A B} g (p : fun_ A) (f : A → fun_ B) :
  keeps g p → (∀ a, keeps g (f a)) → keeps g (fbind p f).
Proof. intros Hp Hf. apply keeps_bind; [done|]. by intros [a|]. Qed.

Lemma keeps_lift {A} g (p : prog A) : keeps g p → keeps g (lift p).
Proof. intros Hp. by apply keeps_bind. Qed.

Lemma keeps_deferred {A} g (c : exc A → prog unit) (p : fun_ A) :
  keeps g p → (∀ x, keeps g (c x)) → keeps g (deferred c p).
Proof. intros Hp Hc. apply keeps_bind; [done|]. intros x. by apply keeps_bind. Qed.

Lemma keeps_for_each {A} g (f : A → fun_ unit) l : (∀ x, keeps g (f x)) → keeps g (for_each f l).
Proof. intros Hf. induction l as [|x l IH]; [done|]. by apply keeps_fbind. Qed.

Lemma keeps_st g o : (∀ r, δ g (St o) r = Some g) → keeps g (st o).
Proof. intros H r. simpl. by rewrite H. Qed.

Lemma keeps_ex g o : (∀ r, δ g (Ex o) r = Some g) → keeps g (ex o).
Proof. intros H r. simpl. by rewrite H. Qed.

End Monitor.

Create HintDb discipline.

(** Program structure down to the operations; the [keeps] lemmas of called
    programs come from the hint database. *)
Ltac keeps_step :=
  match goal with
  | |- ∀ _, _ => intros ?
  | |- keeps _ _ (match ?x with _ => _ end) => destruct x
  | |- keeps _ _ (Ret _) => done
  | |- keeps _ _ (mret _) => done
  | |- keeps _ _ (fret _) => done
  | |- keeps _ _ (_ ≫= _) => apply keeps_mbind
  | |- keeps _ _ (pbind _ _) => apply keeps_bind
  | |- keeps _ _ (fbind _ _) => apply keeps_fbind
  | |- keeps _ _ (lift _) => apply keeps_lift
  | |- keeps _ _ (deferred _ _) => apply keeps_deferred
  | |- keeps _ _ (for_each _ _) => apply keeps_for_each
  | |- keeps _ _ (st _) => first [by apply keeps_st | solve [eauto with discipline]]
  | |- keeps _ _ (ex _) => first [by apply keeps_ex | solve [eauto with discipline]]
  | |- keeps _ _ _ => solve [eauto with discipline]
  end.
Ltac keeps := repeat keeps_step.

(** ** The shared state *)

Record Shared := mkShared {
  inFlight : KeyLock.t;
  claimed : ResourceSet.t;
  deny : ResourceSet.t;
  retryMu : bool;
  dead : gmap nat error
}.

(** Answers of the outside: at each step, to each external operation, and
    what a context or timer does when it is looked at. *)
Record Outside := {
  out_ext : nat → ∀ o : ext_op, ext_resp o;
  out_ctx : nat → option error;
  out_timer : nat → bool
}.

(** A shared-state operation; [None] while it blocks.  A context that is done
    stays done with the same error. *)
Definition st_step (w : Outside) (n : nat) (o : st_op) (s : Shared) : option (st_resp o * Shared) :=
  match o with
  | LockAdd id =>
      let '(b, k) := KeyLock.AddIfAbsent id (inFlight s) in
      Some (b, mkShared k (claimed s) (deny s) (retryMu s) (dead s))
  | LockRemove id =>
      Some (tt, mkShared (KeyLock.Remove id (inFlight s)) (claimed s) (deny s) (retryMu s) (dead s))
  | ClaimAdd id =>
      let '(b, c) := ResourceSet.AddIfAbsent id (claimed s) in
      Some (b, mkShared (inFlight s) c (deny s) (retryMu s) (dead s))
  | ClaimRemove id =>
      Some (tt, mkShared (inFlight s) (ResourceSet.Remove id (claimed s)) (deny s) (retryMu s) (dead s))
  | ClaimContains id =>
      let '(b, c) := ResourceSet.Contains id (claimed s) in
      Some (b, mkShared (inFlight s) c (deny s) (retryMu s) (dead s))
  | DenyAdd id =>
      Some (tt, mkShared (inFlight s) (claimed s) (ResourceSet.Add id (deny s)) (retryMu s) (dead s))
  | DenyConsume id =>
      let '(b, d) := ResourceSet.Consume id (deny s) in
      Some (b, mkShared (inFlight s) (claimed s) d (retryMu s) (dead s))
  | DenyContains id =>
      let '(b, d) := ResourceSet.Contains id (deny s) in
      Some (b, mkShared (inFlight s) (claimed s) d (retryMu s) (dead s))
  | RetryMuLock =>
      if retryMu s then None
      else Some (tt, mkShared (inFlight s) (claimed s) (deny s) true (dead s))
  | RetryMuUnlock => Some (tt, mkShared (inFlight s) (claimed s) (deny s) false (dead s))
  | CtxErr c =>
      match dead s !! c with
      | Some e => Some (Some e, s)
      | None =>
          match out_ctx w n with
          | Some e => Some (Some e, mkShared (inFlight s) (claimed s) (deny s) (retryMu s) (<[c := e]> (dead s)))
          | None => Some (None, s)
          end
      end
  | CtxOrTimer c _ =>
      if out_timer w n then Some (None, s)
      else
        let e := match dead s !! c with
                 | Some e => e
                 | None => default (EContext "context canceled") (out_ctx w n)
                 end in
        Some (Some e, mkShared (inFlight s) (claimed s) (deny s) (retryMu s) (<[c := e]> (dead s)))
  end.

Definition op_step (w : Outside) (n : nat) (o : op) (s : Shared) : option (resp o * Shared) :=
  match o with
  | St o => st_step w n o s
  | Ex o => Some (out_ext w n o, s)
  end.

(** ** Sequential runs *)

(** State, result and events of a run with no interference; [None] when it
    blocks (on a mutex left locked). *)
Fixpoint run {A} (w : Outside) (p : prog A) (n : nat) (s : Shared) : option (A * Shared * list event) :=
  match p with
  | Ret a => Some (a, s, [])
  | Do o k =>
      match op_step w n o s with
      | Some (r, s') =>
          match run w (k r) (S n) s' with
          | Some (a, s'', tr) => Some (a, s'', ev o r :: tr)
          | None => None
          end
      | None => None
      end
  end.

Lemma run_exec {A} w (p : prog A) n s a s' tr :
  run w p n s = Some (a, s', tr) → exec p tr a.
Proof.
  revert n s a s' tr. induction p as [x|o k IH]; intros n s a s' tr; simpl.
  - intros [= <- _ <-]. constructor.
  - destruct (op_step w n o s) as [[r s1]|]; [|done].
    destruct (run w (k r) (S n) s1) as [[[a1 s2] tr1]|] eqn:E; [|done].
    intros [= <- _ <-]. constructor. by eapply IH.
Qed.

(** The events and the final state of a run, for evaluation. *)
Definition trace_of {A} (w : Outside) (p : prog A) (n : nat) (s : Shared) : list event :=
  match run w p n s with Some (_, _, tr) => tr | None => [] end.

Definition state_after {A} (w : Outside) (p : prog A) (n : nat) (s : Shared) : Shared :=
  match run w p n s with Some (_, s', _) => s' | None => s end.

Lemma run_eq {A} w (p : prog A) n s a :
  fst ∘ fst <$> run w p n s = Some a → run w p n s = Some (a, state_after w p n s, trace_of w p n s).
Proof.
  unfold state_after, trace_of. destruct (run w p n s) as [[[a' s'] tr]|]; simpl; [|done]. by intros [= ->].
Qed.

Lemma trace_exec {A} w (p : prog A) n s a :
  fst ∘ fst <$> run w p n s = Some a → exec p (trace_of w p n s) a.
Proof. intros H. by eapply run_exec, run_eq. Qed.

(** ** Interleaved runs

    A configuration is a shared state and the handlers in progress.  At each
    step one handler performs one operation, or a new handler is started. *)

Record Config := mkConfig {
  cf_shared : Shared;
  cf_threads : list (prog unit);
  cf_time : nat;
  cf_trace : list (nat * event)
}.

(** [jobs]: the handlers that may be started. *)
Inductive pool_step (w : Outside) (jobs : prog unit → Prop) : Config → Config → Prop :=
  | step_spawn p c :
      jobs p →
      pool_step w jobs c
        (mkConfig (cf_shared c) (cf_threads c ++ [p]) (cf_time c) (cf_trace c))
  | step_op i o k r s' c :
      cf_threads c !! i = Some (Do o k) →
      op_step w (cf_time c) o (cf_shared c) = Some (r, s') →
      pool_step w jobs c
        (mkConfig s' (<[i := k r]> (cf_threads c)) (S (cf_time c)) (cf_trace c ++ [(i, ev o r)])).

Inductive pool_reach (w : Outside) (jobs : prog unit → Prop) (c0 : Config) : Config → Prop :=
  | reach_here : pool_reach w jobs c0 c0
  | reach_next c c' : pool_reach w jobs c0 c → pool_step w jobs c c' → pool_reach w jobs c0 c'.

(** A given schedule: which handler moves at each step. *)
Fixpoint schedule (w : Outside) (sch : list nat) (c : Config) : option Config :=
  match sch with
  | [] => Some c
  | i :: sch' =>
      match cf_threads c !! i with
      | Some (Do o k) =>
          match op_step w (cf_time c) o (cf_shared c) with
          | Some (r, s') =>
              schedule w sch'
                (mkConfig s' (<[i := k r]> (cf_threads c)) (S (cf_time c)) (cf_trace c ++ [(i, ev o r)]))
          | None => None
          end
      | _ => None
      end
  end.

Lemma pool_reach_trans w jobs c1 c2 c3 :
  pool_reach w jobs c1 c2 → pool_reach w jobs c2 c3 → pool_reach w jobs c1 c3.
Proof. intros H. induction 1; [done|]. by eapply reach_next. Qed.

Lemma schedule_reach w jobs sch c c' :
  schedule w sch c = Some c' → pool_reach w jobs c c'.
Proof.
  revert c. induction sch as [|i sch IH]; intros c; simpl; [intros [= <-]; constructor|].
  destruct (cf_threads c !! i) as [[|o k]|] eqn:E; try done.
  destruct (op_step w (cf_time c) o (cf_shared c)) as [[r s']|] eqn:Es; [|done].
  intros H. eapply pool_reach_trans; [|by apply IH].
  eapply reach_next; [constructor|]. by eapply step_op.
Qed.

(** The configuration after a schedule that can be carried out. *)
Definition after (w : Outside) (sch : list nat) (c : Config) : Config := default c (schedule w sch c).
Definition runnable (w : Outside) (sch : list nat) (c : Config) : bool :=
  match schedule w sch c with Some _ => true | None => false end.

Lemma after_reach w jobs sch c : runnable w sch c = true → pool_reach w jobs c (after w sch c).
Proof.
  unfold runnable, after. destruct (schedule w sch c) eqn:E; [|done]. intros _. by eapply schedule_reach.
Qed.
