(* ===== verification/Routing.v ===== *)
(** * Request routing

    Models internal/routing: error classification and response payloads
    (types.go), provider resolution (resolve.go), calls to service providers
    with bounded retries (forwarder.go) and the handlers of request and cancel
    messages (router.go), as programs over the shared in-flight lock, claimed
    set and deny list; and CloudEvent publication (internal/cloudevent). *)

From S2P Require Import Prelude GoStrings Sets Backoff Provider FileStore Json Effects.

(** ** internal/cloudevent *)

(** A CloudEvent as the SDK decodes it; [ce_data] is the parsed data, [None]
    when empty or not JSON. *)
Record Event := mkEvent { ce_type : string; ce_id : string; ce_data : option json }.

Definition TypeRequestCreate : string := "dcm.request.create".
Definition TypeRequestDelete : string := "dcm.request.delete".
Definition TypeRequestCancel : string := "dcm.request.cancel".

Definition FormatSource (agentID : string) : result string :=
  if agentID =s? "" then Err (ENew "agentID must not be empty")
  else Ok ("dcm/agents/" +:+ agentID).

Definition PublishCE (agentName : string) (ty : CEType) (data : CEData) : prog (option error) :=
  match FormatSource agentName with
  | Err e => Ret (Some (EWrap "failed to create CE" (EWrap "failed to format source" e)))
  | Ok _ => ex (EmitCE ty data)
  end.

(** ** types.go *)

Definition as_sp_response (e : error) : option (Z * string) :=
  errors_as (λ e, match e with ESPResponse c m => Some (c, m) | _ => None end) e.
Definition as_forwarder (e : error) : option Z :=
  errors_as (λ e, match e with EForwarder c _ => Some c | _ => None end) e.
Definition as_url (e : error) : bool :=
  match errors_as (λ e, match e with EURL _ => Some tt | _ => None end) e with
  | Some _ => true
  | None => false
  end.

Definition errorStatusCode (e : error) : option Z :=
  match as_sp_response e with
  | Some (c, _) => Some c
  | None => as_forwarder e
  end.

Definition IsRetryable (e : error) : bool :=
  match errorStatusCode e with
  | None => true
  | Some c => (500 <=? c) || (c =? 429)
  end.

(** Log attributes describing an error. *)
Inductive attr := HttpStatus (c : Z) | ErrorText (s : string) | ErrorValue (e : error).

Definition SafeErrorAttrs (e : error) : attr :=
  match errorStatusCode e with
  | Some c => HttpStatus c
  | None => if as_url e then ErrorText "provider HTTP request failed" else ErrorValue e
  end.

Definition ErrorUnsupportedServiceType : string := "UNSUPPORTED_SERVICE_TYPE".
Definition ErrorSPUnavailable : string := "SP_UNAVAILABLE".
Definition ErrorRetryExhausted : string := "RETRY_EXHAUSTED".
Definition ErrorNonRetryable : string := "NON_RETRYABLE_SP_ERROR".
Definition ErrorInvalidPayload : string := "INVALID_PAYLOAD".
Definition ErrorMaxDeliveryExceeded : string := "MAX_DELIVERY_EXCEEDED".

Definition TerminalProviderErrorData (e : error) (serviceType : string) (rc : ResponseContext) : CEData :=
  let providerError := as_sp_response e in
  if IsRetryable e then
    ErrorData rc ErrorRetryExhausted
      (mkDetails ("service provider error after retry exhaustion for service type: " +:+ serviceType)
         providerError)
  else
    ErrorData rc ErrorNonRetryable
      (mkDetails ("service provider returned non-retryable error for service type: " +:+ serviceType)
         providerError).

(** ** resolve.go *)

(** The record, its status and whether a provider was found. *)
Definition resolution : Type := option (StoredProvider * ProviderStatus).

Definition ResolveProvider (serviceType : string) : prog (result resolution) :=
  found ← ex (RegistryLookup serviceType);
  match found with
  | None => mret (Ok None)
  | Some providerName =>
      r ← ex (StoreByName providerName);
      match r with
      | Err e => mret (Err (EWrap ("store lookup for provider " +:+ Quote providerName) e))
      | Ok None => mret (Ok None)
      | Ok (Some sp) =>
          if ID sp =s? "" then mret (Ok (Some (sp, Unavailable)))
          else
            state ← ex (TrackerGet (ID sp));
            match state with
            | None => mret (Ok (Some (sp, Unavailable)))
            | Some s => mret (Ok (Some (sp, Status s)))
            end
      end
  end.

(** ** forwarder.go *)

Record ForwardParams := mkParams {
  fp_ResourceID : string; fp_ServiceType : string; fp_Spec : option json;
  fp_EventID : string; fp_IsCreate : bool
}.

Record ForwardRetryPolicy := mkPolicy { MaxAttempts : Z; Backoff_ : Z; MaxBackoff : Z }.

Definition maxResponseBodyBytes : nat := 4096.

(** [doRequest] once the client returns. *)
Definition response_error (code : Z) (body status : string) : option error :=
  if (200 <=? code) && (code <? 300) then None
  else
    let msg := String.substring 0 maxResponseBodyBytes body in
    Some (ESPResponse code (if msg =s? "" then status else msg)).

Definition call_error (r : call_result) : option error :=
  match r with
  | CallPanic => None
  | CallReturned e => e
  | CallResponse code body status => response_error code body status
  end.

Definition doRequest (c : SPCall) : fun_ (option error) :=
  _ ← ex (CallStart c);
  r ← ex (CallEnd c);
  match r with
  | CallPanic => Ret Panicked
  | _ => fret (call_error r)
  end.

Section Forwarder.
(** Parameters: the service types with an in-process handler; the URL of a
    request (net/url: the endpoint with the resource as [id] query parameter
    for a create, as a path element for a delete) or why it cannot be built;
    the random jitter. *)
Context (embedded_handlers : gset string).
Context (request_url : bool → string → string → result string).
Context (jitter : Z → Z).

Definition no_handler (serviceType : string) : error :=
  EForwarder 503 ("no embedded handler for service type: " +:+ serviceType).

(** [createEmbedded]/[deleteEmbedded], [createExternal]/[deleteExternal]. *)
Definition callEmbedded (p : ForwardParams) : fun_ (option error) :=
  if bool_decide (fp_ServiceType p ∈ embedded_handlers) then
    doRequest (mkCall (fp_IsCreate p) true (fp_ServiceType p) (fp_ResourceID p) (fp_ServiceType p)
                 (if fp_IsCreate p then fp_Spec p else None) (fp_EventID p))
  else fret (Some (no_handler (fp_ServiceType p))).

Definition callExternal (endpoint : string) (p : ForwardParams) : fun_ (option error) :=
  match request_url (fp_IsCreate p) endpoint (fp_ResourceID p) with
  | Err e => fret (Some e)
  | Ok url =>
      doRequest (mkCall (fp_IsCreate p) false url (fp_ResourceID p) (fp_ServiceType p)
                   (if fp_IsCreate p then fp_Spec p else None) (fp_EventID p))
  end.

Definition ForwardToSP (sp : StoredProvider) (p : ForwardParams) : fun_ (option error) :=
  if Type_ sp =s? "embedded" then callEmbedded p else callExternal (Endpoint sp) p.

(** The attempts left, the attempt counter and the last error. *)
Fixpoint forward_loop (ctx : nat) (sp : StoredProvider) (p : ForwardParams) (pol : ForwardRetryPolicy)
    (maxAttempts : Z) (remaining : nat) (attempt : Z) (last : option error) : fun_ (option error) :=
  match remaining with
  | O => fret last
  | Datatypes.S n =>
      r ⇐ ForwardToSP sp p;
      match r with
      | None => fret None
      | Some err =>
          c ⇐ lift (st (CtxErr ctx));
          match c with
          | Some ce => fret (Some ce)
          | None =>
              if negb (IsRetryable err) then fret (Some err)
              else if attempt <? maxAttempts - 1 then
                d ⇐ lift (st (CtxOrTimer ctx
                       (jitter (CalculateBackoff (Backoff_ pol) (MaxBackoff pol) attempt))));
                match d with
                | Some ce => fret (Some ce)
                | None => forward_loop ctx sp p pol maxAttempts n (attempt + 1) (Some err)
                end
              else forward_loop ctx sp p pol maxAttempts n (attempt + 1) (Some err)
          end
      end
  end.

Definition attempts (pol : ForwardRetryPolicy) : Z := if MaxAttempts pol <? 1 then 1 else MaxAttempts pol.

Definition ForwardWithRetry (ctx : nat) (sp : StoredProvider) (p : ForwardParams)
    (pol : ForwardRetryPolicy) : fun_ (option error) :=
  let maxAttempts := attempts pol in
  forward_loop ctx sp p pol maxAttempts (Z.to_nat maxAttempts) 0 None.

(** ** router.go *)

(** A message of the retry topic with its acknowledgement functions. *)
Record RetryMessage := mkRetryMessage {
  rm_ResourceID : string;
  rm_ServiceType : string;
  AckFunc : prog (option error);
  NakFunc : prog (option error)
}.

(** [rt_retryConsumer]: [FetchRetryMessages] of the late-bound consumer. *)
Record Router := mkRouter {
  rt_agentName : string;
  rt_topicName : string;
  rt_retryTopic : string;
  rt_policy : ForwardRetryPolicy;
  rt_forwarder : bool;
  rt_retryConsumer : option (nat → fun_ (result (list RetryMessage)))
}.

Definition claimedResourcesSetMaxSize : Z := 100000.

(** The objects [run] and [NewRouter] create and pass around by reference, by
    their address; [None] is nil. *)
Inductive object :=
  | ORegistry | OHealthTracker | OStore | OForwarder | OClient | OLogger
  | OResourceSet (s : ResourceSet.t)
  | OKeyLock (k : KeyLock.t).
Definition objects := list object.
Definition ptr := option nat.

(** [&T{...}]. *)
Definition alloc (o : object) (h : objects) : ptr * objects := (Some (length h), (h ++ [o])%list).

Record RouterDeps := mkRouterDeps {
  rd_Registry : ptr; rd_HealthTracker : ptr; rd_Store : ptr; rd_Forwarder : ptr; rd_Publisher : ptr;
  rd_RetryConsumer : option (nat → fun_ (result (list RetryMessage)));
  rd_DenyList : ptr; rd_policy : ForwardRetryPolicy; rd_Logger : ptr;
  rd_AgentName : string; rd_TopicName : string; rd_RetryTopic : string
}.

(** The references a router holds: those it was given, and those to the claimed
    set and the in-flight lock it creates. *)
Record RouterRefs := mkRouterRefs {
  rr_registry : ptr; rr_healthTracker : ptr; rr_store : ptr; rr_forwarder : ptr; rr_publisher : ptr;
  rr_denyList : ptr; rr_claimedResourcesSet : ptr; rr_inFlight : ptr
}.

Definition NewRouter (deps : RouterDeps) (h : objects) : exc (Router * RouterRefs * objects) :=
  if bool_decide (rd_Registry deps = None) then Panicked
  else if bool_decide (rd_HealthTracker deps = None) then Panicked
  else if bool_decide (rd_Store deps = None) then Panicked
  else if bool_decide (rd_Publisher deps = None) then Panicked
  else if bool_decide (rd_DenyList deps = None) then Panicked
  else if bool_decide (rd_Logger deps = None) then Panicked
  else
    let '(claimedResourcesSet, h) := alloc (OResourceSet (ResourceSet.NewResourceSet claimedResourcesSetMaxSize)) h in
    let '(inFlight, h) := alloc (OKeyLock KeyLock.NewKeyLock) h in
    Val (mkRouter (rd_AgentName deps) (rd_TopicName deps) (rd_RetryTopic deps) (rd_policy deps)
           (bool_decide (rd_Forwarder deps ≠ None)) (rd_RetryConsumer deps),
         mkRouterRefs (rd_Registry deps) (rd_HealthTracker deps) (rd_Store deps) (rd_Forwarder deps)
           (rd_Publisher deps) (rd_DenyList deps) claimedResourcesSet inFlight, h).

Definition SetRetryConsumer (rc : option (nat → fun_ (result (list RetryMessage)))) (r : Router) : Router :=
  mkRouter (rt_agentName r) (rt_topicName r) (rt_retryTopic r) (rt_policy r) (rt_forwarder r) rc.

(** The SDK's decoding of a CloudEvent. *)
Context (decode_event : string → option Event).
Context (r : Router).

Definition responseCtx (resourceID : string) : ResponseContext :=
  mkRC resourceID (rt_agentName r) (rt_topicName r).

(** Publication failures are logged and otherwise ignored. *)
Definition publishCE (ty : CEType) (data : CEData) : fun_ unit :=
  _ ← PublishCE (rt_agentName r) ty data; fret tt.

(** [None]: drop the message. *)
Definition parseRequestCE (msg : string) : option (bool * payload) :=
  match decode_event msg with
  | None => None
  | Some event =>
      let parsed (isCreate : bool) :=
        match unmarshal_payload true (ce_data event) with
        | None => None
        | Some p => Some (isCreate, mkPayload (pl_ResourceID p) (pl_ServiceType p) (pl_Spec p) (ce_id event))
        end in
      if ce_type event =s? TypeRequestCreate then parsed true
      else if ce_type event =s? TypeRequestDelete then parsed false
      else None
  end.

Definition invalid_payload : CEData :=
  ErrorData (responseCtx "") ErrorInvalidPayload (mkDetails "resourceId and serviceType are required" None).

Definition unavailable_data (rid st : string) : CEData :=
  ErrorData (responseCtx rid) ErrorSPUnavailable
    (mkDetails ("provider unavailable for service type: " +:+ st) None).

Definition unsupported_data (rid st : string) : CEData :=
  ErrorData (responseCtx rid) ErrorUnsupportedServiceType
    (mkDetails ("provider not found for service type: " +:+ st) None).

Definition ack_data (isCreate : bool) (rid : string) : CEType * CEData :=
  if isCreate then (TypeCreationAcked, CreationAckData (responseCtx rid) "PROVISIONING")
  else (TypeDeletionAcked, DeletionAckData (responseCtx rid) "DELETING").

(** The part of [forwardWithRetry] under the in-flight lock.  The deferred
    removal of the claim runs last, unless the forward succeeded. *)
Definition forward_claimed (ctx : nat) (sp : StoredProvider) (isCreate : bool) (p : payload)
  : fun_ (option error) :=
  let rid := pl_ResourceID p in
  newlyAdded ← st (ClaimAdd rid);
  denied ← (if isCreate then st (DenyConsume rid) else Ret false);
  if denied : bool then
    (if newlyAdded : bool then st (ClaimRemove rid) else Ret tt) ≫= λ _, fret None
  else
    let release (success : bool) : prog unit :=
      if negb success && newlyAdded then st (ClaimRemove rid) else Ret tt in
    r' ⇐ deferred (λ x, match x with
                        | Val (success, _) => release success
                        | Panicked => release false
                        end)
      (fwdErr ⇐ ForwardWithRetry ctx sp
                  (mkParams rid (pl_ServiceType p) (pl_Spec p) (pl_EventID p) isCreate) (rt_policy r);
       match fwdErr with
       | None =>
           let '(ty, data) := ack_data isCreate rid in
           publishCE ty data ;⇐ fret (true, None)
       | Some e =>
           c ⇐ lift (st (CtxErr ctx));
           match c with
           | Some ce => fret (false, Some ce)
           | None =>
               publishCE TypeError (TerminalProviderErrorData e (pl_ServiceType p) (responseCtx rid)) ;⇐
               fret (false, None)
           end
       end);
    fret (snd r').

Definition forwardWithRetry (ctx : nat) (sp : StoredProvider) (isCreate : bool) (p : payload)
  : fun_ (option error) :=
  ok ← st (LockAdd (pl_ResourceID p));
  if ok : bool then
    deferred (λ _, st (LockRemove (pl_ResourceID p))) (forward_claimed ctx sp isCreate p)
  else fret (Some EForwardInFlight).

Definition HandleRequest (ctx : nat) (msg : string) : fun_ (option error) :=
  match parseRequestCE msg with
  | None => fret None
  | Some (isCreate, p) =>
      let rid := pl_ResourceID p in
      let stype := pl_ServiceType p in
      if (rid =s? "") || (stype =s? "") then publishCE TypeError invalid_payload ;⇐ fret None
      else
        denied ← (if isCreate then st (DenyConsume rid) else Ret false);
        if denied : bool then fret None
        else
          res ← ResolveProvider stype;
          match res with
          | Err e => fret (Some e)
          | Ok None => publishCE TypeError (unsupported_data rid stype) ;⇐ fret None
          | Ok (Some (_, Unavailable)) => publishCE TypeError (unavailable_data rid stype) ;⇐ fret None
          | Ok (Some (_, Unhealthy)) =>
              e ← ex (Publish (rt_retryTopic r) msg);
              match e with
              | Some err => fret (Some err)
              | None =>
                  publishCE TypeRequestQueued (RequestQueuedData (responseCtx rid) stype "QUEUED") ;⇐
                  fret None
              end
          | Ok (Some (sp, Ready)) =>
              if negb (rt_forwarder r) then publishCE TypeError (unavailable_data rid stype) ;⇐ fret None
              else forwardWithRetry ctx sp isCreate p
          end
  end.

(** The loop of [purgeFromRetryTopic]. *)
Fixpoint purge_loop (resourceID : string) (ms : list RetryMessage) : fun_ (option error) :=
  match ms with
  | [] => fret None
  | m :: ms' =>
      if rm_ResourceID m =s? resourceID then
        e ← AckFunc m;
        match e with
        | Some err => fret (Some (EWrap "failed to ack cancelled message" err))
        | None => purge_loop resourceID ms'
        end
      else
        e ← NakFunc m;
        match e with
        | Some err => fret (Some (EWrap "failed to nak non-matching message" err))
        | None => purge_loop resourceID ms'
        end
  end.

Definition purgeFromRetryTopic (fetch : nat → fun_ (result (list RetryMessage))) (ctx : nat)
    (resourceID : string) : fun_ (option error) :=
  ms ⇐ fetch ctx;
  match ms with
  | Err e => fret (Some e)
  | Ok messages => purge_loop resourceID messages
  end.

Definition HandleCancel (ctx : nat) (msg : string) : fun_ (option error) :=
  match decode_event msg with
  | None => fret None
  | Some event =>
      if negb (ce_type event =s? TypeRequestCancel) then fret None
      else
        match unmarshal_payload true (ce_data event) with
        | None => fret None
        | Some p =>
            let rid := pl_ResourceID p in
            if (rid =s? "") || (pl_ServiceType p =s? "") then publishCE TypeError invalid_payload ;⇐ fret None
            else
              already ← st (ClaimContains rid);
              if already : bool then
                publishCE TypeCancelRejected
                  (CancelRejectedData (responseCtx rid) "resource already claimed") ;⇐
                fret None
              else
                _ ← st (DenyAdd rid);
                e ⇐ match rt_retryConsumer r with
                    | Some fetch => purgeFromRetryTopic fetch ctx rid
                    | None => fret None
                    end;
                match e with
                | Some err => fret (Some err)
                | None =>
                    publishCE TypeCancelAcked (CancelAckData (responseCtx rid) (pl_ServiceType p)) ;⇐
                    fret None
                end
        end
  end.

End Forwarder.
