(* ===== verification/Topics.v ===== *)
(** * Topic, stream and consumer names

    Models internal/messaging/topics.go: derivation of the NATS subjects and
    JetStream names from the agent's base topic name, and the two validations
    of that base. *)

From S2P Require Import Prelude GoStrings.
From Stdlib Require Import Ascii.
#[local] Open Scope string_scope.
#[local] Arguments String.append : simpl nomatch.

Definition RequestStreamName : string := "dcm-agent-requests".
Definition requestSubjectPrefix : string := "dcm.agent.".

Record TopicNames := mkTopics { Base : string; Main : string; Cancel : string; Retry : string }.

Definition DeriveTopicNames (agentName topicNameOverride : string) : TopicNames :=
  let base := if negb (topicNameOverride =s? "") then topicNameOverride else agentName in
  let main := requestSubjectPrefix +:+ base in
  mkTopics base main (main +:+ ".cancel") (base +:+ ".retry").

Definition MainConsumer (t : TopicNames) : string := Base t +:+ "-consumer".
Definition CancelConsumer (t : TopicNames) : string := Base t +:+ "-cancel-consumer".
Definition RetryStream (t : TopicNames) : string := Base t +:+ "-retry".
Definition RetryConsumer (t : TopicNames) : string := Base t +:+ "-retry-consumer".

Definition topic_char (c : ascii) : bool :=
  is_upper c || is_lower c || is_digit c || is_char "." c || is_char "_" c || is_char "-" c.
Definition validTopicNameRe : regex := rplus (RClass topic_char).

Definition TrimSuffix (s suffix : string) : string :=
  if HasSuffix s suffix then String.substring 0 (String.length s - String.length suffix) s else s.

Definition ValidateTopicName (name : string) : option error :=
  if name =s? "" then Some (ENew "topic name must not be empty")
  else if (255 <? Z.of_nat (String.length name))%Z then Some (ENew "topic name exceeds 255 characters")
  else if negb (MatchString validTopicNameRe name) then
    Some (ENew "topic name contains invalid characters (allowed: alphanumeric, hyphens, dots, underscores)")
  else if HasPrefix name "." || HasSuffix name "." || Contains name ".." then
    Some (ENew "topic name must not contain empty dot-separated tokens")
  else
    let reservedBase := TrimSuffix requestSubjectPrefix "." in
    if (name =s? reservedBase) || HasPrefix name requestSubjectPrefix then
      Some (ENew ("topic name must not start with the reserved " +:+ Quote requestSubjectPrefix
                  +:+ " prefix (it is added automatically)"))
    else None.

Definition jsMaxNameLen : Z := 255.
Definition longestJetStreamSuffix : string := "-cancel-consumer".

Definition ValidateJetStreamSafeName (name : string) : option error :=
  if Contains name "." then Some (ENew "topic name must not contain dots (NATS JetStream stream/consumer names forbid dots, even though subject tokens allow them)")
  else if (jsMaxNameLen <? Z.of_nat (String.length name) + Z.of_nat (String.length longestJetStreamSuffix))%Z then
    Some (ENew "topic name too long: combined with JetStream consumer/stream suffixes it must not exceed 255 characters (max 239)")
  else None.

(** ** The derived names are safe *)

(** Rules of the broker: a stream or consumer name is at most 255 bytes and has
    none of these bytes; [dcm.agent.>] captures the subjects with that prefix
    and at least one more byte. *)
Definition js_forbidden (c : ascii) : bool :=
  existsb (λ n, bool_decide (c = ascii_of_nat n)) [62; 42; 46; 32; 47; 9; 13; 10]%nat.
Definition js_name_ok (s : string) : bool :=
  negb (s =s? "") && (Z.of_nat (String.length s) <=? 255)%Z && negb (existsb js_forbidden (chars s)).
Definition captured_by_requests (subject : string) : bool :=
  HasPrefix subject requestSubjectPrefix && negb (subject =s? requestSubjectPrefix).

Lemma topic_char_safe c : topic_char c = true → c ≠ "."%char → js_forbidden c = false.
Proof.
  destruct c as [[] [] [] [] [] [] [] []]; vm_compute; intros; congruence.
Qed.

Lemma valid_topic_chars name c :
  ValidateTopicName name = None → c ∈ chars name → topic_char c = true.
Proof.
  unfold ValidateTopicName. intros H Hc. do 2 (case_match; [done|]).
  destruct (MatchString validTopicNameRe name) eqn:E; [|done].
  unfold MatchString in E. apply rmatch_lang in E.
  unfold validTopicNameRe, rplus in E. apply lang_cat_inv in E as (l1 & l2 & Hl & Ha & Hb).
  apply lang_class_inv in Ha as (d & -> & Hd). apply lang_star_class in Hb.
  rewrite Hl in Hc. simpl in Hc. apply elem_of_cons in Hc as [->|Hc]; [done|].
  rewrite Forall_forall in Hb. by apply Hb.
Qed.

Lemma js_name_app name suffix :
  ValidateTopicName name = None → ValidateJetStreamSafeName name = None →
  existsb js_forbidden (chars suffix) = false →
  (Z.of_nat (String.length suffix) ≤ 16)%Z → js_name_ok (name +:+ suffix) = true.
Proof.
  intros Hv Hj Hs Hlen. unfold js_name_ok.
  assert (name ≠ "") as Hne by (intros ->; done).
  unfold ValidateJetStreamSafeName in Hj. destruct (Contains name ".") eqn:Hdot; [done|].
  case_match eqn:Hl; [done|]. breflect. change (String.length longestJetStreamSuffix) with 16%nat in Hl.
  unfold jsMaxNameLen in Hl. rewrite length_string_app, chars_app, existsb_app, Hs, orb_false_r.
  rewrite !andb_true_iff, !negb_true_iff. split_and!.
  - apply bool_decide_eq_false. destruct name; [done|]. done.
  - apply Z.leb_le. lia.
  - apply not_true_iff_false. intros (c & Hin & Hc)%existsb_exists.
    assert (c ∈ chars name) as Hc' by (by apply list_elem_of_In).
    assert (c ≠ "."%char) as Hnd.
    { intros ->. apply not_true_iff_false in Hdot. apply Hdot. by apply Contains_char. }
    rewrite topic_char_safe in Hc; [done|by apply (valid_topic_chars name)|done].
Qed.

Lemma NoDup3 {A} (a b c : A) : a ≠ b → a ≠ c → b ≠ c → NoDup [a; b; c].
Proof. intros. rewrite !NoDup_cons. split_and!; [set_solver..|constructor]. Qed.

Lemma app_inj_prefix (s t u : string) : s +:+ t = s +:+ u → t = u.
Proof.
  intros H. apply chars_inj. apply (f_equal chars) in H. rewrite !chars_app in H. by simplify_list_eq.
Qed.

Lemma retry_not_captured name :
  ValidateTopicName name = None → captured_by_requests (name +:+ ".retry") = false.
Proof.
  intros Hv. unfold captured_by_requests. apply andb_false_iff. left.
  apply not_true_iff_false. intros [t Ht]%HasPrefix_spec.
  unfold ValidateTopicName in Hv. do 3 (case_match; [done|]).
  destruct ((name =s? TrimSuffix requestSubjectPrefix ".") || HasPrefix name requestSubjectPrefix) eqn:Hr;
    [by destruct (_ || _ || _)|]. clear Hv. apply orb_false_iff in Hr as [Hr1 Hr2]. breflect.
  vm_compute in Hr1. apply not_true_iff_false in Hr2. rewrite HasPrefix_spec in Hr2.
  unfold requestSubjectPrefix in *.
  do 10 (destruct name as [|? name]; [simpl in Ht; by simplify_eq|simpl in Ht; injection Ht as -> Ht]).
  apply Hr2. by exists name.
Qed.

(** A base name that passes both validations is safe to derive from: every
    stream and consumer name is one the broker accepts, the three subjects and
    the three consumer names are pairwise distinct, main and cancel are under the
    control plane's wildcard and the agent's own retry subject is not. *)
Theorem topic_names_safe (agentName override : string) :
  let t := DeriveTopicNames agentName override in
  ValidateTopicName (Base t) = None → ValidateJetStreamSafeName (Base t) = None →
  js_name_ok (MainConsumer t) = true ∧ js_name_ok (CancelConsumer t) = true ∧
  js_name_ok (RetryStream t) = true ∧ js_name_ok (RetryConsumer t) = true ∧
  NoDup [MainConsumer t; CancelConsumer t; RetryConsumer t] ∧ NoDup [Main t; Cancel t; Retry t] ∧
  captured_by_requests (Main t) = true ∧ captured_by_requests (Cancel t) = true ∧
  captured_by_requests (Retry t) = false.
Proof.
  cbn zeta. unfold DeriveTopicNames. cbn [Base Main Cancel Retry].
  set (base := if negb (override =s? "") then override else agentName). intros Hv Hj.
  assert (∀ s, base +:+ s ≠ "") as Hne by (by destruct base).
  assert (∀ s, captured_by_requests (requestSubjectPrefix +:+ base +:+ s) = true) as Hcap.
  { intros s. unfold captured_by_requests. apply andb_true_iff. split; [apply HasPrefix_spec; eauto|].
    apply negb_true_iff, bool_decide_eq_false. intros H. apply (Hne s).
    apply (app_inj_prefix requestSubjectPrefix). rewrite H. done. }
  pose proof (retry_not_captured base Hv) as Hret.
  pose proof (Hcap "") as Hmain. pose proof (Hcap ".cancel") as Hcan.
  assert (∀ s, s +:+ "" = s) as Happ.
  { intros s. apply chars_inj. rewrite chars_app. apply app_nil_r. }
  assert (requestSubjectPrefix +:+ base +:+ ".cancel" = (requestSubjectPrefix +:+ base) +:+ ".cancel") as Hass.
  { apply chars_inj. rewrite !chars_app. apply app_assoc. }
  rewrite Happ in Hmain. rewrite Hass in Hcan.
  split_and!; try (by apply js_name_app); unfold MainConsumer, CancelConsumer, RetryConsumer; simpl.
  - apply NoDup3; intros H%app_inj_prefix; done.
  - assert (requestSubjectPrefix +:+ base ≠ base +:+ ".retry") by (intros H; rewrite H in Hmain; congruence).
    assert ((requestSubjectPrefix +:+ base) +:+ ".cancel" ≠ base +:+ ".retry").
    { intros Hx. rewrite Hx in Hcan. congruence. }
    assert (requestSubjectPrefix +:+ base ≠ (requestSubjectPrefix +:+ base) +:+ ".cancel").
    { intros Hx. apply (f_equal String.length) in Hx. rewrite (length_string_app _ ".cancel") in Hx.
      change (String.length ".cancel") with 7%nat in Hx. lia. }
    by apply NoDup3.
  - done.
  - done.
  - done.
Qed.

Lemma topic_names_safe_witness :
  js_name_ok (CancelConsumer (DeriveTopicNames "agent-1" "")) = true ∧
  captured_by_requests (Retry (DeriveTopicNames "agent-1" "")) = false.
Proof.
  destruct (topic_names_safe "agent-1" "") as (_ & H2 & _ & _ & _ & _ & _ & _ & H9);
    [vm_compute; reflexivity|vm_compute; reflexivity|]. split; [exact H2|exact H9].
Defined.
