(* ===== verification/Retry.v ===== *)
(** * Retry processing

    Models internal/routing/retry/processor.go: the processor that empties the
    retry topic when a provider changes health and the three topics on
    restart, over the structures it shares with the router. *)

From S2P Require Import Prelude GoStrings Backoff Provider FileStore Json Effects Routing Topics.

Definition fetchBatchSize : Z := 100.
Definition storeErrorRetryDelay : Z := 10 * Second.

(** What the message path uses of the processor; the references that may be nil
    are booleans. *)
Record Processor := mkProcessor {
  pr_agentName : string;
  pr_topics : TopicNames;
  pr_policy : ForwardRetryPolicy;
  pr_forwarder : bool;
  pr_claimed : bool;
  pr_inFlight : bool;
  pr_js : bool
}.

(** [ProcessorDeps] and [ProcessorConfig]; [pd_JSProvider]: the function is not
    nil. *)
Record ProcessorDeps := mkProcessorDeps {
  pd_Registry : ptr; pd_HealthTracker : ptr; pd_Store : ptr; pd_Forwarder : ptr; pd_Publisher : ptr;
  pd_JSProvider : bool; pd_DenyList : ptr; pd_ClaimedResourcesSet : ptr; pd_InFlightSet : ptr;
  pd_RetryPolicy : ForwardRetryPolicy; pd_Logger : ptr; pd_AgentName : string; pd_Topics : TopicNames
}.

(** The processor, unless one of the dependencies it requires is nil. *)
Definition NewProcessor (deps : ProcessorDeps) : exc Processor :=
  if bool_decide (pd_Registry deps = None) then Panicked
  else if bool_decide (pd_HealthTracker deps = None) then Panicked
  else if bool_decide (pd_Store deps = None) then Panicked
  else if bool_decide (pd_Publisher deps = None) then Panicked
  else if bool_decide (pd_DenyList deps = None) then Panicked
  else if bool_decide (pd_Logger deps = None) then Panicked
  else
    Val (mkProcessor (pd_AgentName deps) (pd_Topics deps) (pd_RetryPolicy deps)
           (bool_decide (pd_Forwarder deps ≠ None)) (bool_decide (pd_ClaimedResourcesSet deps ≠ None))
           (bool_decide (pd_InFlightSet deps ≠ None)) (pd_JSProvider deps)).

Record ceResult := mkCE {
  cr_resourceID : string; cr_serviceType : string; cr_eventID : string;
  cr_ceType : string; cr_spec : option json
}.

(** [parsedMessage]. *)
Record parsedMessage := mkParsed { pm_msg : Msg; pm_ce : ceResult }.

Section Processor.
Context (embedded_handlers : gset string).
Context (request_url : bool → string → string → result string).
Context (jitter : Z → Z).
Context (decode_event : string → option Event).
Context (p : Processor).

Definition retryResponseCtx (resourceID : string) : ResponseContext :=
  mkRC resourceID (pr_agentName p) (Main (pr_topics p)).

Definition retryPublishCE (ty : CEType) (data : CEData) : fun_ unit :=
  _ ← PublishCE (pr_agentName p) ty data; fret tt.

(** A message operation whose error is ignored. *)
Definition msg_do (m : Msg) (d : disposition) : fun_ unit :=
  _ ← ex (MsgDo m d); fret tt.

Definition parseCE (data : string) : option ceResult :=
  match decode_event data with
  | None => None
  | Some event =>
      if (ce_type event =s? TypeRequestCreate) || (ce_type event =s? TypeRequestDelete)
         || (ce_type event =s? TypeRequestCancel) then
        match unmarshal_payload false (ce_data event) with
        | None => None
        | Some pl =>
            Some (mkCE (pl_ResourceID pl) (pl_ServiceType pl) (ce_id event) (ce_type event) (pl_Spec pl))
        end
      else None
  end.

(** The fetch loop: at most [pending] messages are awaited; every iteration
    but the last collects at least one, so [Z.to_nat pending] iterations
    exhaust it. *)
Fixpoint fetch_loop (fuel : nat) (ctx : nat) (stream consumer : string) (pending : Z)
    (collected : list Msg) : fun_ (list Msg * option error) :=
  if Z.of_nat (length collected) <? pending then
    match fuel with
    | O => fret (collected, None)
    | Datatypes.S fuel' =>
        c ⇐ lift (st (CtxErr ctx));
        match c with
        | Some _ => fret (collected, None)
        | None =>
            b ⇐ lift (ex (FetchBatch stream consumer fetchBatchSize));
            match b with
            | Err e => fret (collected, Some e)
            | Ok (msgs, batchErr) =>
                let collected' := collected ++ msgs in
                match batchErr with
                | Some e => fret (collected', Some e)
                | None =>
                    if (length msgs =? 0)%nat then fret (collected', None)
                    else fetch_loop fuel' ctx stream consumer pending collected'
                end
            end
        end
    end
  else fret (collected, None).

(** Messages and error; callers use the messages only when there is no error. *)
Definition fetchAllFromConsumer (ctx : nat) (stream consumer : string) : fun_ (list Msg * option error) :=
  if negb (pr_js p) then fret ([], None)
  else
    ready ⇐ lift (ex JSReady);
    if negb (ready : bool) then fret ([], None)
    else
      info ⇐ lift (ex (ConsumerPending stream consumer));
      match info with
      | Err e => fret ([], Some e)
      | Ok pending =>
          if pending =? 0 then fret ([], None)
          else fetch_loop (Z.to_nat pending) ctx stream consumer pending []
      end.

(** The retry topic is fetched under [retryMu]. *)
Definition fetchRetry (ctx : nat) : fun_ (list Msg * option error) :=
  lift (st RetryMuLock) ;⇐
  r ⇐ fetchAllFromConsumer ctx (RetryStream (pr_topics p)) (RetryConsumer (pr_topics p));
  lift (st RetryMuUnlock) ;⇐
  fret r.

Definition heartbeatAllMsgs (msgs : list Msg) : fun_ unit :=
  for_each (λ m, msg_do m DInProgress) msgs.

Definition heartbeatAll (items : list parsedMessage) : fun_ unit :=
  heartbeatAllMsgs (pm_msg <$> items).

(** Unparseable messages are terminated. *)
Fixpoint parseMessages (msgs : list Msg) : fun_ (list parsedMessage) :=
  match msgs with
  | [] => fret []
  | m :: msgs' =>
      match parseCE (m_data m) with
      | None => msg_do m DTerm ;⇐ parseMessages msgs'
      | Some res => items ⇐ parseMessages msgs'; fret (mkParsed m res :: items)
      end
  end.

Definition of_resource (rid : string) (i : parsedMessage) : bool := cr_resourceID (pm_ce i) =s? rid.
Definition of_type (ty : string) (i : parsedMessage) : bool := cr_ceType (pm_ce i) =s? ty.

(** The entries of [dedupMap] for a resource, creates before deletes. *)
Definition creates_of (rid : string) (items : list parsedMessage) : list parsedMessage :=
  filter (λ i, of_resource rid i && of_type TypeRequestCreate i = true) items.
Definition deletes_of (rid : string) (items : list parsedMessage) : list parsedMessage :=
  filter (λ i, of_resource rid i && of_type TypeRequestDelete i = true) items.

Definition is_pair (items : list parsedMessage) (rid : string) : bool :=
  negb (bool_decide (creates_of rid items = [])) && negb (bool_decide (deletes_of rid items = [])).

Definition deduped (items : list parsedMessage) (i : parsedMessage) : bool :=
  is_pair items (cr_resourceID (pm_ce i)) &&
  (of_type TypeRequestCreate i || of_type TypeRequestDelete i).

Definition survivors (items : list parsedMessage) : list parsedMessage :=
  filter (λ i, deduped items i = false) items.

(** [order]: the order in which the runtime iterates over the map's keys. *)
Definition dedupCreateDeletePairs (order : list string → list string) (items : list parsedMessage)
  : fun_ (list parsedMessage) :=
  for_each (λ rid,
      if is_pair items rid then
        for_each (λ i, msg_do (pm_msg i) DAck) (creates_of rid items) ;⇐
        for_each (λ i, msg_do (pm_msg i) DAck) (deletes_of rid items) ;⇐
        retryPublishCE TypeDeletionAcked (DeletionAckData (retryResponseCtx rid) "DELETED")
      else fret tt)
    (order (remove_dups (cr_resourceID ∘ pm_ce <$> items))) ;⇐
  fret (survivors items).

Definition retryUnavailable (res : ceResult) (message : string) : CEData :=
  ErrorData (retryResponseCtx (cr_resourceID res)) ErrorSPUnavailable (mkDetails message None).

Definition unavailable_message (res : ceResult) : string :=
  "provider unavailable for service type: " +:+ cr_serviceType res.

Definition publishAckCE (res : ceResult) : fun_ unit :=
  if cr_ceType res =s? TypeRequestDelete then
    retryPublishCE TypeDeletionAcked (DeletionAckData (retryResponseCtx (cr_resourceID res)) "DELETING")
  else
    retryPublishCE TypeCreationAcked (CreationAckData (retryResponseCtx (cr_resourceID res)) "PROVISIONING").

(** [forwardRequest] under the in-flight lock; [fwdCtx] is the context bounded
    by the handler timeout. *)
Definition forwardRequest_locked (fwdCtx : nat) (sp : StoredProvider) (res : ceResult) : fun_ bool :=
  let rid := cr_resourceID res in
  newlyAdded ← (if pr_claimed p then st (ClaimAdd rid) else Ret false);
  let unclaim : prog unit := if newlyAdded : bool then st (ClaimRemove rid) else Ret tt in
  denied ← (if cr_ceType res =s? TypeRequestCreate then st (DenyContains rid) else Ret false);
  if denied : bool then unclaim ≫= λ _, fret true
  else
    err ⇐ ForwardWithRetry embedded_handlers request_url jitter fwdCtx sp
            (mkParams rid (cr_serviceType res) (cr_spec res) (cr_eventID res)
               (negb (cr_ceType res =s? TypeRequestDelete))) (pr_policy p);
    match err with
    | Some e =>
        unclaim ≫= λ _,
        c ← st (CtxErr fwdCtx);
        match c with
        | Some _ => fret false
        | None =>
            retryPublishCE TypeError
              (TerminalProviderErrorData e (cr_serviceType res) (retryResponseCtx rid)) ;⇐
            fret true
        end
    | None => publishAckCE res ;⇐ fret true
    end.

Definition forwardRequest (fwdCtx : nat) (sp : StoredProvider) (res : ceResult) : fun_ bool :=
  if negb (pr_forwarder p) then
    retryPublishCE TypeError (retryUnavailable res "forwarder not configured") ;⇐ fret true
  else if pr_inFlight p then
    ok ← st (LockAdd (cr_resourceID res));
    if ok : bool then
      deferred (λ _, st (LockRemove (cr_resourceID res))) (forwardRequest_locked fwdCtx sp res)
    else fret false
  else forwardRequest_locked fwdCtx sp res.

Definition requeueToRetryTopic (msg : Msg) (fromRetryTopic : bool) : fun_ unit :=
  if fromRetryTopic then msg_do msg (DNakDelay storeErrorRetryDelay)
  else
    e ← ex (Publish (Retry (pr_topics p)) (m_data msg));
    match e with
    | None => msg_do msg DAck
    | Some _ => fret tt
    end.

(** [fwdCtx]: the context of the forward, if one is made. *)
Definition routeMessage (fwdCtx : nat) (msg : Msg) (res : ceResult) (fromRetryTopic : bool) : fun_ unit :=
  r ← ResolveProvider (cr_serviceType res);
  match r with
  | Err _ => msg_do msg (DNakDelay storeErrorRetryDelay)
  | Ok None => requeueToRetryTopic msg fromRetryTopic
  | Ok (Some (sp, Ready)) =>
      done ⇐ forwardRequest fwdCtx sp res;
      if negb (done : bool) then requeueToRetryTopic msg fromRetryTopic else msg_do msg DAck
  | Ok (Some (_, Unavailable)) =>
      retryPublishCE TypeError (retryUnavailable res (unavailable_message res)) ;⇐ msg_do msg DAck
  | Ok (Some (_, Unhealthy)) => requeueToRetryTopic msg fromRetryTopic
  end.

(** One iteration of [processTransitionItems]. *)
Definition processTransitionItem (fwdCtx : nat) (sp : StoredProvider) (item : parsedMessage) : fun_ unit :=
  let res := pm_ce item in
  let msg := pm_msg item in
  denied ← (if cr_ceType res =s? TypeRequestCreate then st (DenyContains (cr_resourceID res)) else Ret false);
  if denied : bool then msg_do msg DAck
  else if negb (cr_serviceType res =s? ServiceType sp) then
    msg_do msg DInProgress ;⇐ routeMessage fwdCtx msg res true
  else
    r ← ResolveProvider (cr_serviceType res);
    match r with
    | Err _ => msg_do msg (DNakDelay storeErrorRetryDelay)
    | Ok None | Ok (Some (_, Unavailable)) =>
        retryPublishCE TypeError (retryUnavailable res (unavailable_message res)) ;⇐ msg_do msg DAck
    | Ok (Some _) =>
        msg_do msg DInProgress ;⇐
        done ⇐ forwardRequest fwdCtx sp res;
        if negb (done : bool) then msg_do msg (DNakDelay storeErrorRetryDelay) else msg_do msg DAck
    end.

Definition processTransitionItems (ctxs : Msg → nat) (sp : StoredProvider) (items : list parsedMessage)
  : fun_ unit :=
  heartbeatAll items ;⇐
  for_each (λ item, processTransitionItem (ctxs (pm_msg item)) sp item) items.

(** [ctxs] gives each message the context its forward runs in. *)
Definition ProcessOnTransition (order : list string → list string) (ctx : nat) (ctxs : Msg → nat)
    (providerID : string) (to : ProviderStatus) : fun_ (option error) :=
  if negb (bool_decide (to = Ready)) && negb (bool_decide (to = Unavailable)) then fret None
  else
    r ← ex (StoreByID providerID);
    match r with
    | Err e => fret (Some (EWrap ("ProcessOnTransition: store lookup failed for provider " +:+ providerID) e))
    | Ok None => fret None
    | Ok (Some sp) =>
        f ⇐ fetchRetry ctx;
        match f with
        | (_, Some e) => fret (Some e)
        | (msgs, None) =>
            items ⇐ parseMessages msgs;
            items' ⇐ dedupCreateDeletePairs order items;
            processTransitionItems ctxs sp items' ;⇐
            fret None
        end
    end.

Definition drainCancelsToDenyList (ctx : nat) : fun_ (option error) :=
  f ⇐ fetchAllFromConsumer ctx RequestStreamName (CancelConsumer (pr_topics p));
  match f with
  | (_, Some e) => fret (Some e)
  | (msgs, None) =>
      for_each (λ m,
        match parseCE (m_data m) with
        | None => msg_do m DTerm
        | Some res => _ ← st (DenyAdd (cr_resourceID res)); msg_do m DAck
        end) msgs ;⇐
      fret None
  end.

Definition drainMainTopic (ctx : nat) (ctxs : Msg → nat) : fun_ (option error) :=
  f ⇐ fetchAllFromConsumer ctx RequestStreamName (MainConsumer (pr_topics p));
  match f with
  | (_, Some e) => fret (Some e)
  | (msgs, None) =>
      heartbeatAllMsgs msgs ;⇐
      for_each (λ m,
        match parseCE (m_data m) with
        | None => msg_do m DTerm
        | Some res =>
            denied ← (if cr_ceType res =s? TypeRequestCreate then st (DenyContains (cr_resourceID res))
                      else Ret false);
            if denied : bool then msg_do m DAck
            else msg_do m DInProgress ;⇐ routeMessage (ctxs m) m res false
        end) msgs ;⇐
      fret None
  end.

Definition drainRetryTopicWithDedup (order : list string → list string) (ctx : nat) (ctxs : Msg → nat)
  : fun_ (option error) :=
  f ⇐ fetchRetry ctx;
  match f with
  | (_, Some e) => fret (Some e)
  | (msgs, None) =>
      items ⇐ parseMessages msgs;
      items' ⇐ dedupCreateDeletePairs order items;
      heartbeatAll items' ;⇐
      for_each (λ item,
        let res := pm_ce item in
        denied ← (if cr_ceType res =s? TypeRequestCreate then st (DenyContains (cr_resourceID res))
                  else Ret false);
        if denied : bool then msg_do (pm_msg item) DAck
        else
          msg_do (pm_msg item) DInProgress ;⇐
          routeMessage (ctxs (pm_msg item)) (pm_msg item) res true) items' ;⇐
      fret None
  end.

Definition ProcessOnRestart (order : list string → list string) (ctx : nat) (ctxs : Msg → nat)
  : fun_ (option error) :=
  e1 ⇐ drainCancelsToDenyList ctx;
  match e1 with
  | Some e => fret (Some e)
  | None =>
      e2 ⇐ drainMainTopic ctx ctxs;
      match e2 with
      | Some e => fret (Some e)
      | None => drainRetryTopicWithDedup order ctx ctxs
      end
  end.

(** The goroutine started by [RunTransition]: a panic is recovered and an error
    logged.  [stopped] is read under the processor's mutex before it starts. *)
Definition RunTransition (stopped : bool) (order : list string → list string) (ctx : nat)
    (ctxs : Msg → nat) (providerID : string) (to : ProviderStatus) : prog unit :=
  if stopped then mret tt
  else _ ← ProcessOnTransition order ctx ctxs providerID to; mret tt.

(** The messages [FetchRetryMessages] hands to the router. *)
Fixpoint retry_messages (msgs : list Msg) : fun_ (list RetryMessage) :=
  match msgs with
  | [] => fret []
  | m :: msgs' =>
      match parseCE (m_data m) with
      | None => msg_do m DTerm ;⇐ retry_messages msgs'
      | Some res =>
          rest ⇐ retry_messages msgs';
          fret (mkRetryMessage (cr_resourceID res) (cr_serviceType res)
                  (ex (MsgDo m DAck)) (ex (MsgDo m (DNakDelay storeErrorRetryDelay))) :: rest)
      end
  end.

(** [ctx]: the context bounded by [fetchTimeout]. *)
Definition FetchRetryMessages (ctx : nat) : fun_ (result (list RetryMessage)) :=
  f ⇐ fetchRetry ctx;
  match f with
  | (_, Some e) => fret (Err e)
  | (msgs, None) => ms ⇐ retry_messages msgs; fret (Ok ms)
  end.

End Processor.
