(* ===== verification/RetryLife.v ===== *)
(** * Life of the retry processor

    Models Stop and RunTransition of internal/routing/retry/processor.go: the
    flag under the processor's mutex, the wait group and the goroutines.  What a
    transition goroutine does is [Retry.RunTransition]; here it is from its
    start to its end, which a deferred call reports to the wait group. *)

From S2P Require Import Prelude.
#[local] Open Scope nat_scope.

Module RetryLife.

(** [adding]: calls of RunTransition between the critical section and the [go]
    statement; [running]: transition goroutines; [waiting], [returned]: calls of
    Stop at [wg.Wait] and done.  [misused]: Add was called on a counter of zero
    while Wait is in progress, which the WaitGroup forbids. *)
Record t := mkLife {
  stopped : bool;
  wg : nat;
  adding : nat;
  running : nat;
  waiting : nat;
  returned : nat;
  misused : bool
}.

Definition fresh : t := mkLife false 0 0 0 0 0 false.

(** The critical section of RunTransition, its [go] statement, the end of the
    goroutine (also by a panic, which is recovered), the critical section of
    Stop, the return of [wg.Wait]. *)
Inductive action := CallRun | Spawn | Ended | CallStop | WaitReturns.

Definition step (p : t) (a : action) : t :=
  match a with
  | CallRun =>
      if stopped p then p
      else mkLife false (S (wg p)) (S (adding p)) (running p) (waiting p) (returned p)
             (misused p || ((wg p =? 0) && (0 <? waiting p)))
  | Spawn =>
      match adding p with
      | S n => mkLife (stopped p) (wg p) n (S (running p)) (waiting p) (returned p) (misused p)
      | O => p
      end
  | Ended =>
      match running p with
      | S n => mkLife (stopped p) (pred (wg p)) (adding p) n (waiting p) (returned p) (misused p)
      | O => p
      end
  | CallStop => mkLife true (wg p) (adding p) (running p) (S (waiting p)) (returned p) (misused p)
  | WaitReturns =>
      match waiting p with
      | S n => if wg p =? 0 then mkLife (stopped p) (wg p) (adding p) (running p) n (S (returned p)) (misused p) else p
      | O => p
      end
  end.

Definition life (l : list action) : t := fold_left step l fresh.

Record inv (p : t) : Prop := {
  i_wg : wg p = adding p + running p;
  i_stopped : 0 < waiting p ∨ 0 < returned p → stopped p = true;
  i_returned : 0 < returned p → wg p = 0;
  i_used : misused p = false
}.

Lemma step_keeps p a : inv p → inv (step p a).
Proof.
  intros [Hwg Hst Hre Hus]. destruct p as [st w ad ru wa re mi]. cbn in *. destruct a; cbn.
  - destruct st; [done|]. split; cbn; [lia|done| |].
    + intros H. by discriminate Hst; right.
    + rewrite Hus. destruct wa; [by rewrite andb_false_r|]. by discriminate Hst; left; lia.
  - destruct ad; [done|]. split; cbn; auto; lia.
  - destruct ru; [done|]. split; cbn; auto; [lia|]. intros H. specialize (Hre H). lia.
  - by split.
  - destruct wa; [done|]. destruct (w =? 0) eqn:E; [|done]. apply Nat.eqb_eq in E. split; cbn; auto. intros _. apply Hst. left. lia.
Qed.

Lemma life_keeps l : inv (life l).
Proof.
  unfold life. assert (inv fresh) as H by (split; cbn; [done|lia|lia|done]). revert H. generalize fresh.
  induction l as [|a l IH]; intros p Hp; [done|]. apply IH, step_keeps, Hp.
Qed.

Lemma step_counts p a : returned p ≤ returned (step p a).
Proof. destruct a; cbn; repeat case_match; cbn; lia. Qed.

Lemma life_counts l l' : returned (life l) ≤ returned (life (l ++ l')).
Proof.
  unfold life. rewrite fold_left_app. generalize (fold_left step l fresh). induction l' as [|a l' IH]; intros p; [done|].
  cbn. etrans; [apply step_counts|apply IH].
Qed.

(** Stop is final: whatever calls of RunTransition and of Stop come in whatever
    order, the wait group is used as it asks to be, and once a call of Stop has
    returned no transition goroutine runs and none is started any more. *)
Theorem retry_stop_final l :
  misused (life l) = false ∧
  (0 < returned (life l) → ∀ l', running (life (l ++ l')) = 0 ∧ adding (life (l ++ l')) = 0).
Proof.
  split; [apply (i_used _ (life_keeps l))|]. intros Hr l'. pose proof (life_counts l l') as Hc.
  destruct (life_keeps (l ++ l')) as [Hwg _ Hre _]. specialize (Hre ltac:(lia)). lia.
Qed.

(** Stop does return: once the goroutines have ended, every call that waits
    comes back. *)
Lemma stop_returns l : adding (life l) = 0 → running (life l) = 0 → 0 < waiting (life l) →
  returned (step (life l) WaitReturns) = S (returned (life l)).
Proof.
  intros Ha Hr Hw. pose proof (i_wg _ (life_keeps l)) as Hwg. cbn. destruct (waiting (life l)); [lia|].
  assert (wg (life l) = 0) as -> by lia. done.
Qed.
End RetryLife.
