(* ===== verification/Samples.v ===== *)
(** * A small deployment

    Concrete inputs on which the definitions and theorems of the message path
    are evaluated: one external provider, three events for the resource "r1",
    an agent with one router, and an outside world given by the provider's
    status and the answers of the calls made to it. *)

From S2P Require Import Prelude GoStrings Sets Provider FileStore Json Effects Routing Topics Retry.

Definition sample_provider : StoredProvider :=
  mkStoredProvider "p1" "vms" "http://vms" "vm" "v1alpha1" None None "" "external" 0 0.

Definition sample_payload : json := encode_payload "r1" "vm" (Some (JString "small")).

(** Messages are named by what they decode to. *)
Definition sample_decode (msg : string) : option Event :=
  if msg =s? "create" then Some (mkEvent TypeRequestCreate "e1" (Some sample_payload))
  else if msg =s? "delete" then Some (mkEvent TypeRequestDelete "e2" (Some sample_payload))
  else if msg =s? "cancel" then Some (mkEvent TypeRequestCancel "e3" (Some sample_payload))
  else None.

Definition sample_url (create : bool) (endpoint id : string) : result string :=
  Ok (if create then endpoint +:+ "?id=" +:+ id else endpoint +:+ "/" +:+ id).

Definition sample_jitter (d : Z) : Z := d.

Definition sample_policy : ForwardRetryPolicy := mkPolicy 3 Millisecond Second.

Definition sample_topics : TopicNames := DeriveTopicNames "agent" "".

Definition sample_processor : Processor :=
  mkProcessor "agent" sample_topics sample_policy true true true true.

Definition sample_router : Router :=
  mkRouter "agent" (Main sample_topics) (Retry sample_topics) sample_policy true
    (Some (FetchRetryMessages sample_decode sample_processor)).

(** [status]: the health of the provider, [answer]: the result of the call made
    at a given step, [retries]: the messages on the retry topic (fetched in one
    batch). *)
Definition sample_world (status : ProviderStatus) (answer : nat → call_result) (retries : list Msg) : Outside := {|
  out_ext n o :=
    match o with
    | RegistryLookup stype => if stype =s? "vm" then Some "vms" else None
    | StoreByName name => Ok (if name =s? "vms" then Some sample_provider else None)
    | StoreByID id => Ok (if id =s? "p1" then Some sample_provider else None)
    | TrackerGet id => if id =s? "p1" then Some {| Status := status; LastCheckTime := 0 |} else None
    | Publish _ _ => None
    | EmitCE _ _ => None
    | CallStart _ => tt
    | CallEnd _ => answer n
    | MsgDo _ _ => None
    | MsgMetadata _ => Ok 1
    | JSReady => true
    | ConsumerPending _ consumer =>
        Ok (if consumer =s? RetryConsumer sample_topics then Z.of_nat (length retries) else 0)
    | FetchBatch _ _ _ => Ok (retries, None)
    end;
  out_ctx _ := None;
  out_timer _ := true
|}.

(** Structures as main.go creates them, with small bounds. *)
Definition sample_state : Shared :=
  mkShared KeyLock.NewKeyLock (ResourceSet.NewResourceSet 8) (ResourceSet.NewResourceSet 8) false ∅.
