(* ===== verification/RouterSpec.v ===== *)
(** * Correctness of request routing

    What the handlers of Routing.v do on every execution, whatever the
    providers, the broker, the store and concurrently running handlers answer:
    bounded and justified retries, one response per request, no call after a
    cancel was observed, claims kept exactly on success. *)

From S2P Require Import Prelude GoStrings Backoff Provider FileStore Json Effects Routing Samples.

(** ** The ledger: what an execution emitted, called and consumed

    [ces] lists the events handed to the broker, each once and in order; whether
    it took one is not part of it ([publishCE] logs a failed publication and goes
    on).  [claims] lists the additions to the claimed set (with their answers)
    and the removals ([None]); [cancelled] the context errors observed; [queued]
    counts the successful publications; [disps] the acknowledgements made, with
    the handle of their message; [adds] the additions to the deny list. *)

Record ledger := mkLedger {
  ces : list (CEType * CEData);
  calls : list (SPCall * call_result);
  denied : bool;
  queued : nat;
  cancelled : list error;
  claims : list (string * option bool);
  disps : list (nat * disposition);
  adds : list string
}.

Definition ledger0 : ledger := mkLedger [] [] false 0 [] [] [] [].

Definition add_ces (l : ledger) (es : list (CEType * CEData)) : ledger :=
  mkLedger (ces l ++ es) (calls l) (denied l) (queued l) (cancelled l) (claims l) (disps l) (adds l).
Definition add_calls (l : ledger) (cs : list (SPCall * call_result)) (xs : list error) : ledger :=
  mkLedger (ces l) (calls l ++ cs) (denied l) (queued l) (cancelled l ++ xs) (claims l) (disps l) (adds l).
Definition add_claims (l : ledger) (ks : list (string * option bool)) : ledger :=
  mkLedger (ces l) (calls l) (denied l) (queued l) (cancelled l) (claims l ++ ks) (disps l) (adds l).
Definition add_disps (l : ledger) (ds : list (nat * disposition)) : ledger :=
  mkLedger (ces l) (calls l) (denied l) (queued l) (cancelled l) (claims l) (disps l ++ ds) (adds l).

Definition δ_ledger (l : ledger) (o : op) : resp o → option ledger :=
  match o with
  | Ex (EmitCE ty d) => λ _, Some (add_ces l [(ty, d)])
  | Ex (CallEnd c) => λ r, Some (add_calls l [(c, r)] [])
  | St (DenyConsume _) => λ r,
      Some (mkLedger (ces l) (calls l) (denied l || r) (queued l) (cancelled l) (claims l) (disps l) (adds l))
  | St (DenyContains _) => λ r,
      Some (mkLedger (ces l) (calls l) (denied l || r) (queued l) (cancelled l) (claims l) (disps l) (adds l))
  | St (DenyAdd id) => λ _,
      Some (mkLedger (ces l) (calls l) (denied l) (queued l) (cancelled l) (claims l) (disps l) (adds l ++ [id]))
  | Ex (Publish _ _) => λ r,
      Some (mkLedger (ces l) (calls l) (denied l)
              (match r with None => Datatypes.S (queued l) | Some _ => queued l end) (cancelled l) (claims l) (disps l) (adds l))
  | St (CtxErr _) => λ r, Some (add_calls l [] (match r with Some e => [e] | None => [] end))
  | St (CtxOrTimer _ _) => λ r, Some (add_calls l [] (match r with Some e => [e] | None => [] end))
  | St (ClaimAdd id) => λ r, Some (add_claims l [(id, Some r)])
  | St (ClaimRemove id) => λ _, Some (add_claims l [(id, None)])
  | Ex (MsgDo m d) => λ _, Some (add_disps l [(m_handle m, d)])
  | _ => λ _, Some l
  end.

(** Read one event into the ledger. *)
Ltac ledger_step :=
  lazymatch goal with
  | |- match ?x with Some _ => _ | None => False end =>
      let y := eval simpl in x in change x with y; cbv beta iota
  end.

(** The ledger of a finished execution. *)
Definition ledger_of (tr : list event) : ledger := default ledger0 (observe δ_ledger ledger0 tr).

Lemma ledger_exec {A} (p : prog A) (Q : ledger → A → Prop) tr a :
  mwp δ_ledger p ledger0 Q → exec p tr a → Q (ledger_of tr) a.
Proof.
  intros Hp He. destruct (mwp_exec _ _ _ _ He _ _ Hp) as (l & Hl & HQ).
  unfold ledger_of. by rewrite Hl.
Qed.

Lemma add_calls_nil l : add_calls l [] [] = l.
Proof. destruct l; unfold add_calls; simpl; by rewrite !app_nil_r. Qed.
Lemma add_calls_app l c1 x1 c2 x2 :
  add_calls (add_calls l c1 x1) c2 x2 = add_calls l (c1 ++ c2) (x1 ++ x2).
Proof. unfold add_calls; simpl; by rewrite !app_assoc. Qed.
#[local] Hint Rewrite add_calls_nil add_calls_app : agent_simpl.

(** ** Forwarding with retries *)

Section Forwarding.
Context (eh : gset string) (url : bool → string → string → result string) (jit : Z → Z).

(** A call made for the given parameters. *)
Definition call_for (p : ForwardParams) (c : SPCall) : Prop :=
  c_create c = fp_IsCreate p ∧ c_ResourceID c = fp_ResourceID p ∧
  c_ServiceType c = fp_ServiceType p ∧ c_EventID c = fp_EventID p ∧
  c_Spec c = (if fp_IsCreate p then fp_Spec p else None).

(** Why a forward makes no call at all, if so. *)
Definition no_call (sp : StoredProvider) (p : ForwardParams) : option error :=
  if Type_ sp =s? "embedded" then
    if bool_decide (fp_ServiceType p ∈ eh) then None else Some (no_handler (fp_ServiceType p))
  else match url (fp_IsCreate p) (Endpoint sp) (fp_ResourceID p) with Err e => Some e | Ok _ => None end.

Lemma ForwardToSP_spec sp p l (Q : ledger → exc (option error) → Prop) :
  match no_call sp p with
  | Some e => Q l (Val (Some e))
  | None =>
      (∀ c, call_for p c → Q (add_calls l [(c, CallPanic)] []) Panicked) ∧
      (∀ c r, call_for p c → r ≠ CallPanic → Q (add_calls l [(c, r)] []) (Val (call_error r)))
  end → mwp δ_ledger (ForwardToSP eh url sp p) l Q.
Proof.
  intros HQ.
  assert (no_call sp p = None → ∀ c, call_for p c → mwp δ_ledger (doRequest c) l Q) as Hc.
  { intros Hn c Hc. rewrite Hn in HQ. simpl. intros _ r. destruct r; by apply HQ. }
  revert HQ Hc. unfold no_call, ForwardToSP, callEmbedded, callExternal.
  destruct (Type_ sp =s? "embedded").
  - destruct (bool_decide (fp_ServiceType p ∈ eh)); [|done]. intros _ Hc. apply Hc; [done|]. by split_and!.
  - destruct (url _ _ _); [|done]. intros _ Hc. apply Hc; [done|]. by split_and!.
Qed.

(** All calls but the last ended in a retryable error. *)
Fixpoint retried (cs : list (SPCall * call_result)) : Prop :=
  match cs with
  | [] | [_] => True
  | c :: cs' => (∃ e, call_error c.2 = Some e ∧ IsRetryable e = true) ∧ retried cs'
  end.

(** What a forward of [p] with [n] attempts did ([cs]: its calls, [xs]: the
    cancellation it observed) and answered. *)
Definition forwarded (p : ForwardParams) (n : nat) (cs : list (SPCall * call_result)) (xs : list error)
    (x : exc (option error)) : Prop :=
  (1 ≤ length cs ≤ n)%nat ∧ Forall (λ c, call_for p c.1) cs ∧ retried cs ∧
  match x with
  | Panicked => xs = [] ∧ ∃ c, last cs = Some (c, CallPanic)
  | Val None => xs = [] ∧ ∃ c r, last cs = Some (c, r) ∧ r ≠ CallPanic ∧ call_error r = None
  | Val (Some e) =>
      ∃ c r e', last cs = Some (c, r) ∧ r ≠ CallPanic ∧ call_error r = Some e' ∧
        (xs = [e] ∨ (xs = [] ∧ e = e' ∧ (IsRetryable e = false ∨ length cs = n)))
  end.

Lemma forwarded_cons p n c r e cs xs x :
  call_for p c → call_error r = Some e → IsRetryable e = true →
  forwarded p n cs xs x → forwarded p (Datatypes.S n) ((c, r) :: cs) xs x.
Proof.
  intros Hc He Hret (Hl & Hf & Hre & Hm). destruct cs as [|c' cs]; [simpl in Hl; lia|].
  split_and!; [simpl in *; lia|simpl in *; lia|by constructor|split; [by exists e|done]|].
  destruct x as [[e'|]|]; [|done..].
  destruct Hm as (c1 & r1 & e1 & ? & ? & ? & Hm). exists c1, r1, e1. split_and!; try done.
  destruct Hm as [|(-> & -> & [|Hn])]; [by left|by right; auto|]. right. split_and!; try done.
  right. simpl in *. lia.
Qed.

(** An attempt that failed with [err] and was the last one. *)
Lemma forwarded_one p n c r err e xs :
  call_for p c → r ≠ CallPanic → call_error r = Some err → (1 ≤ n)%nat →
  xs = [e] ∨ (xs = [] ∧ e = err ∧ (IsRetryable e = false ∨ n = 1%nat)) →
  forwarded p n [(c, r)] xs (Val (Some e)).
Proof.
  intros Hc Hr He Hn Hx. split_and!; [simpl; lia|simpl; lia|by apply Forall_singleton|done|].
  exists c, r, err. split_and!; try done. destruct Hx as [|(-> & -> & [|])]; naive_solver.
Qed.

(** Postcondition of the loop: with no attempt left it returns the last error. *)
Definition loop_post (p : ForwardParams) (n : nat) (lst : option error) (l l' : ledger)
    (x : exc (option error)) : Prop :=
  match n with
  | O => l' = l ∧ x = Val lst
  | _ => ∃ cs xs, l' = add_calls l cs xs ∧ forwarded p n cs xs x
  end.

Lemma loop_post_more p n c r err l l' x :
  call_for p c → r ≠ CallPanic → call_error r = Some err → IsRetryable err = true →
  loop_post p n (Some err) (add_calls l [(c, r)] []) l' x →
  ∃ cs xs, l' = add_calls l cs xs ∧ forwarded p (Datatypes.S n) cs xs x.
Proof.
  intros Hc Hr He Hret. destruct n as [|n]; simpl.
  - intros [-> ->]. exists [(c, r)], []. split; [done|].
    apply forwarded_one with err; auto with lia.
  - intros (cs & xs & -> & Hf). exists ((c, r) :: cs), xs. rewrite add_calls_app. split; [done|].
    by apply forwarded_cons with err.
Qed.

(** The loop after an attempt that ended in [err] and left the ledger [l]. *)
Definition after_error ctx sp p pol mx n att (err : error) : fun_ (option error) :=
  c ⇐ lift (st (CtxErr ctx));
  match c with
  | Some ce => fret (Some ce)
  | None =>
      if negb (IsRetryable err) then fret (Some err)
      else if att <? mx - 1 then
        d ⇐ lift (st (CtxOrTimer ctx (jit (CalculateBackoff (Backoff_ pol) (MaxBackoff pol) att))));
        match d with
        | Some ce => fret (Some ce)
        | None => forward_loop eh url jit ctx sp p pol mx n (att + 1) (Some err)
        end
      else forward_loop eh url jit ctx sp p pol mx n (att + 1) (Some err)
  end.

Lemma after_error_spec ctx sp p pol mx n att err l (Q : ledger → exc (option error) → Prop) :
  (∀ ce, Q (add_calls l [] [ce]) (Val (Some ce))) →
  (IsRetryable err = false → Q l (Val (Some err))) →
  (IsRetryable err = true → mwp δ_ledger (forward_loop eh url jit ctx sp p pol mx n (att + 1) (Some err)) l Q) →
  mwp δ_ledger (after_error ctx sp p pol mx n att err) l Q.
Proof.
  intros H1 H2 H3. simpl. intros [ce|]; simpl; [apply H1|]. autorewrite with agent_simpl.
  destruct (IsRetryable err); simpl; [|by apply H2].
  destruct (att <? mx - 1); [|by apply H3].
  simpl. intros [ce|]; simpl; [apply H1|]. autorewrite with agent_simpl. by apply H3.
Qed.

Lemma forward_loop_spec ctx sp p pol mx n att lst l :
  no_call sp p = None →
  mwp δ_ledger (forward_loop eh url jit ctx sp p pol mx n att lst) l (loop_post p n lst l).
Proof.
  intros Hnc. revert att lst l. induction n as [|n IH]; intros att lst l; [done|].
  apply mwp_fbind, ForwardToSP_spec. rewrite Hnc. split.
  - intros c Hc. exists [(c, CallPanic)], []. split; [done|].
    split_and!; simpl; [lia|lia|by apply Forall_singleton|done|done|by exists c].
  - intros c r Hc Hr. destruct (call_error r) as [e|] eqn:Ee.
    + apply (after_error_spec ctx sp p pol mx n att e).
      * intros ce. exists [(c, r)], [ce]. rewrite add_calls_app. split; [done|].
        apply forwarded_one with e; auto with lia.
      * intros Hret. exists [(c, r)], []. split; [done|]. apply forwarded_one with e; auto with lia.
      * intros Hret. eapply mwp_mono; [|apply IH]. intros l' x. by apply loop_post_more.
    + simpl. exists [(c, r)], []. split; [done|].
      split_and!; simpl; [lia|lia|by apply Forall_singleton|done|done|by exists c, r].
Qed.

Lemma forward_loop_no_call ctx sp p pol mx n att lst l e0 :
  no_call sp p = Some e0 → n ≠ 0%nat ∨ lst = Some e0 →
  mwp δ_ledger (forward_loop eh url jit ctx sp p pol mx n att lst) l
    (λ l' x, ∃ e xs, l' = add_calls l [] xs ∧ x = Val (Some e) ∧ (xs = [e] ∨ xs = [] ∧ e = e0)).
Proof.
  intros Hnc. revert att lst l. induction n as [|n IH]; intros att lst l Hl.
  { destruct Hl as [| ->]; [done|]. simpl. exists e0, []. rewrite add_calls_nil. auto. }
  apply mwp_fbind, ForwardToSP_spec. rewrite Hnc.
  apply (after_error_spec ctx sp p pol mx n att e0).
  - intros ce. exists ce, [ce]. auto.
  - intros _. exists e0, []. rewrite add_calls_nil. auto.
  - intros _. apply IH. by right.
Qed.

(** Summary of a forward: [forwarded] when the provider can be called, and
    otherwise no call and the reason (or the cancellation) as the answer. *)
Definition forward_post (sp : StoredProvider) (p : ForwardParams) (pol : ForwardRetryPolicy)
    (l l' : ledger) (x : exc (option error)) : Prop :=
  ∃ cs xs, l' = add_calls l cs xs ∧
    match no_call sp p with
    | None => forwarded p (Z.to_nat (attempts pol)) cs xs x
    | Some e0 => cs = [] ∧ ∃ e, x = Val (Some e) ∧ (xs = [e] ∨ xs = [] ∧ e = e0)
    end.

Lemma ForwardWithRetry_spec ctx sp p pol l :
  mwp δ_ledger (ForwardWithRetry eh url jit ctx sp p pol) l (forward_post sp p pol l).
Proof.
  assert (∃ n, Z.to_nat (attempts pol) = Datatypes.S n) as [n Hn].
  { exists (Z.to_nat (attempts pol - 1)). unfold attempts. case_match; breflect; lia. }
  unfold forward_post, ForwardWithRetry. destruct (no_call sp p) as [e0|] eqn:E.
  - eapply mwp_mono; [|apply (forward_loop_no_call _ _ _ _ _ _ _ _ _ e0); [done|left; lia]].
    intros l' x (e & xs & -> & -> & Hx). exists [], xs. eauto.
  - eapply mwp_mono; [|by apply forward_loop_spec]. rewrite Hn. by intros l' x.
Qed.

(** C10: a forward is bounded and every retry is justified.  When the provider
    can be called ([no_call]: an embedded provider without a handler for the
    service type, or an endpoint no URL can be built from, cannot), at least one
    and at most [attempts] calls are made, all for the given resource and event;
    every call but the last ended in a retryable error; success is reported
    exactly after a successful call; an error is the cancellation of the context,
    or the last call's error, which is not retryable or came after the last
    allowed attempt.  When it cannot be called, no call is made and the answer is
    the reason, or the cancellation.  No event is emitted. *)
Theorem forward_bounded ctx sp p pol tr x :
  exec (ForwardWithRetry eh url jit ctx sp p pol) tr x →
  let l := ledger_of tr in
  ces l = [] ∧
  match no_call sp p with
  | None => forwarded p (Z.to_nat (attempts pol)) (calls l) (cancelled l) x
  | Some e0 => calls l = [] ∧ ∃ e, x = Val (Some e) ∧ (cancelled l = [e] ∨ cancelled l = [] ∧ e = e0)
  end.
Proof.
  intros He. pose proof (ledger_exec _ _ _ _ (ForwardWithRetry_spec ctx sp p pol ledger0) He) as H.
  destruct H as (cs & xs & -> & H). split; [done|]. by destruct (no_call sp p).
Qed.

End Forwarding.

(** Two answers 503, then 201: three calls and success. *)
Lemma forward_bounded_witness :
  let w := sample_world Ready (λ n, if (n <? 8)%nat then CallResponse 503 "busy" "" else CallResponse 201 "" "") [] in
  let p := mkParams "r1" "vm" None "e1" true in
  let tr := trace_of w (ForwardWithRetry ∅ sample_url sample_jitter 0 sample_provider p sample_policy) 0 sample_state in
  length (calls (ledger_of tr)) = 3%nat ∧
  forwarded p 3 (calls (ledger_of tr)) (cancelled (ledger_of tr)) (Val None).
Proof.
  cbv zeta. split; [vm_compute; reflexivity|].
  apply (forward_bounded ∅ sample_url sample_jitter 0 sample_provider (mkParams "r1" "vm" None "e1" true) sample_policy).
  apply trace_exec. vm_compute. reflexivity.
Defined.

(** ** Requests *)

Section Requests.
Context (eh : gset string) (url : bool → string → string → result string) (jit : Z → Z).
Context (dec : string → option Event) (r : Router).
Context (Hname : rt_agentName r ≠ "").

Lemma publishCE_spec ty d l (Q : ledger → exc unit → Prop) :
  Q (add_ces l [(ty, d)]) (Val tt) → mwp δ_ledger (publishCE r ty d) l Q.
Proof using Hname.
  intros HQ. unfold publishCE, PublishCE, FormatSource.
  rewrite bool_decide_eq_false_2 by done. simpl. done.
Qed.

Lemma ResolveProvider_spec stype l (Q : ledger → result resolution → Prop) :
  (∀ x, Q l x) → mwp δ_ledger (ResolveProvider stype) l Q.
Proof.
  intros HQ. unfold ResolveProvider. simpl. intros [n|]; simpl; [|apply HQ].
  intros [[sp|]|e]; simpl; [|apply HQ..]. case_match; simpl; [apply HQ|].
  intros [hs|]; simpl; apply HQ.
Qed.

(** A provider accepted the request: the last call succeeded. *)
Definition accepted (cs : list (SPCall * call_result)) : Prop :=
  ∃ c x, last cs = Some (c, x) ∧ x ≠ CallPanic ∧ call_error x = None.

Definition acceptedb (cs : list (SPCall * call_result)) : bool :=
  match last cs with
  | Some (_, CallPanic) | None => false
  | Some (_, x) => match call_error x with None => true | Some _ => false end
  end.

Lemma acceptedb_spec cs : acceptedb cs = true ↔ accepted cs.
Proof using.
  clear. unfold acceptedb, accepted. destruct (last cs) as [[c x]|]; [|naive_solver].
  destruct x as [|[e|]|code body s]; simpl; try naive_solver.
  destruct (response_error code body s) eqn:E; naive_solver.
Qed.

Definition params (isCreate : bool) (p : payload) : ForwardParams :=
  mkParams (pl_ResourceID p) (pl_ServiceType p) (pl_Spec p) (pl_EventID p) isCreate.

(** The calls of a request: for its resource and event, no more than configured. *)
Definition calls_ok (isCreate : bool) (p : payload) (cs : list (SPCall * call_result)) : Prop :=
  Forall (λ c, call_for (params isCreate p) c.1) cs ∧ (length cs ≤ Z.to_nat (attempts (rt_policy r)))%nat.

(** What [forwardWithRetry] adds to the ledger once it holds the lock. *)
Inductive forward_effect (isCreate : bool) (p : payload) (l : ledger)
    : ledger → exc (option error) → Prop :=
  | fe_denied b :
      isCreate = true →
      forward_effect isCreate p l
        (mkLedger (ces l) (calls l) true (queued l) (cancelled l)
           (claims l ++ (pl_ResourceID p, Some b) :: (if b : bool then [(pl_ResourceID p, None)] else [])) (disps l) (adds l))
        (Val None)
  | fe_called b cs xs es success x :
      calls_ok isCreate p cs →
      (success = true ↔ accepted cs) →
      (success = true → x = Val None ∧ es = [ack_data r isCreate (pl_ResourceID p)]) →
      (success = false → match x with
         | Val None => ∃ e, es = [(TypeError, TerminalProviderErrorData e (pl_ServiceType p)
                                                (responseCtx r (pl_ResourceID p)))]
         | _ => es = [] end) →
      forward_effect isCreate p l
        (mkLedger (ces l ++ es) (calls l ++ cs) (denied l) (queued l) (cancelled l ++ xs)
           (claims l ++ (pl_ResourceID p, Some b) ::
              (if negb success && b then [(pl_ResourceID p, None)] else [])) (disps l) (adds l))
        x.

Lemma not_accepted_err cs c x e : last cs = Some (c, x) → call_error x = Some e → ¬ accepted cs.
Proof. intros H1 H2 (c' & x' & H3 & _ & H4). congruence. Qed.

(** [forward_post] from the point of view of the router. *)
Lemma forward_post_cases sp isCreate p pol l l' x :
  forward_post eh url sp (params isCreate p) pol l l' x →
  ∃ cs xs, l' = add_calls l cs xs ∧ Forall (λ c, call_for (params isCreate p) c.1) cs ∧
    (length cs ≤ Z.to_nat (attempts pol))%nat ∧ (x = Val None ↔ accepted cs).
Proof.
  intros (cs & xs & -> & H). exists cs, xs. split; [done|].
  destruct (no_call eh url sp (params isCreate p)) as [e0|].
  - destruct H as (-> & e & -> & _). split; [constructor|]. split; [simpl; lia|]. split; [done|]. by intros (? & ? & ? & _).
  - destruct H as (Hl0 & Hf & _ & Hm). split; [done|]. split; [lia|]. destruct x as [[e|]|].
    + destruct Hm as (c & y & e' & Hl & _ & He & _). split; [done|]. intros Ha.
      by destruct (not_accepted_err _ _ _ _ Hl He).
    + destruct Hm as (_ & c & y & ? & ? & ?). split; [|done]. intros _. by exists c, y.
    + destruct Hm as (_ & c & Hl). split; [done|]. intros (c' & y & ? & ? & _). congruence.
Qed.

(** The body under the deferred release of the claim: result with its flag. *)
Lemma forward_body_spec ctx sp isCreate p l (Q : ledger → exc (bool * option error) → Prop) :
  (∀ cs xs es success x,
     calls_ok isCreate p cs → (success = true ↔ accepted cs) →
     (success = true → x = Val None ∧ es = [ack_data r isCreate (pl_ResourceID p)]) →
     (success = false → match x with
        | Val None => ∃ e, es = [(TypeError, TerminalProviderErrorData e (pl_ServiceType p)
                                               (responseCtx r (pl_ResourceID p)))]
        | _ => es = [] end) →
     Q (mkLedger (ces l ++ es) (calls l ++ cs) (denied l) (queued l) (cancelled l ++ xs) (claims l) (disps l) (adds l))
       (match x with Val e => Val (success, e) | Panicked => Panicked end)) →
  mwp δ_ledger
    (fwdErr ⇐ ForwardWithRetry eh url jit ctx sp (params isCreate p) (rt_policy r);
     match fwdErr with
     | None => let '(ty, data) := ack_data r isCreate (pl_ResourceID p) in
         publishCE r ty data ;⇐ fret (true, None)
     | Some e =>
         c ⇐ lift (st (CtxErr ctx));
         match c with
         | Some ce => fret (false, Some ce)
         | None =>
             publishCE r TypeError (TerminalProviderErrorData e (pl_ServiceType p) (responseCtx r (pl_ResourceID p))) ;⇐
             fret (false, None)
         end
     end) l Q.
Proof using Hname.
  intros HQ. apply mwp_fbind. eapply mwp_mono; [|apply ForwardWithRetry_spec].
  intros l' x (cs & xs & -> & Hf & Hlen & Ha)%forward_post_cases.
  assert (calls_ok isCreate p cs) by by split. destruct x as [[e|]|].
  - assert (¬ accepted cs) as Hna by (intros ?%Ha; done).
    simpl. intros [ce|]; simpl.
    + rewrite add_calls_app, app_nil_r. unfold add_calls. rewrite <-(app_nil_r (ces l)).
      apply (HQ cs (xs ++ [ce]) [] false (Val (Some ce))); try done.
    + autorewrite with agent_simpl. rewrite !app_nil_r.
      apply mwp_fbind, publishCE_spec. simpl. unfold add_ces, add_calls. simpl.
      apply (HQ cs xs [_] false (Val None)); try done. eauto.
  - destruct (ack_data r isCreate (pl_ResourceID p)) as [ty d] eqn:Ed.
    apply mwp_fbind, publishCE_spec. simpl. unfold add_ces, add_calls. simpl.
    apply (HQ cs xs [(ty, d)] true (Val None)); try done. split; [intros _; by apply Ha|done].
  - unfold add_calls. rewrite <-(app_nil_r (ces l)).
    apply (HQ cs xs [] false Panicked); try done. split; [done|]. by intros ?%Ha.
Qed.

Lemma forward_claimed_spec ctx sp isCreate p l :
  mwp δ_ledger (forward_claimed eh url jit r ctx sp isCreate p) l (forward_effect isCreate p l).
Proof using Hname.
  assert (∀ b, mwp δ_ledger
    (r' ⇐ deferred (λ x, match x with
        | Val (success, _) => if negb success && b then st (ClaimRemove (pl_ResourceID p)) else Ret tt
        | Panicked => if negb false && b then st (ClaimRemove (pl_ResourceID p)) else Ret tt end)
      (fwdErr ⇐ ForwardWithRetry eh url jit ctx sp (params isCreate p) (rt_policy r);
       match fwdErr with
       | None => let '(ty, data) := ack_data r isCreate (pl_ResourceID p) in
           publishCE r ty data ;⇐ fret (true, None)
       | Some e =>
           c ⇐ lift (st (CtxErr ctx));
           match c with
           | Some ce => fret (false, Some ce)
           | None =>
               publishCE r TypeError (TerminalProviderErrorData e (pl_ServiceType p) (responseCtx r (pl_ResourceID p))) ;⇐
               fret (false, None)
           end
       end); fret (snd r')) (add_claims l [(pl_ResourceID p, Some b)]) (forward_effect isCreate p l)) as Hbody.
  { intros b. apply mwp_fbind, mwp_deferred, forward_body_spec.
    intros cs xs es success x H1 H2 H3 H4.
    pose proof (fe_called isCreate p l b cs xs es success x H1 H2 H3 H4) as H.
    assert (x = Panicked → success = false) as Hp.
    { intros ->. destruct success; [|done]. by destruct (H3 eq_refl). }
    destruct x as [e|]; [|rewrite (Hp eq_refl) in *];
      [destruct (negb success && b) eqn:E|destruct b eqn:E]; simpl in *;
      unfold add_claims; simpl; rewrite <-?app_assoc; simpl; done. }
  unfold forward_claimed. simpl. intros b. destruct isCreate; simpl; [|apply Hbody].
  intros [|]; simpl.
  - pose proof (fe_denied true p l b eq_refl) as H. destruct b; simpl;
      rewrite ?orb_true_r; unfold add_claims; simpl; rewrite <-?app_assoc; intros; exact H.
  - rewrite orb_false_r. apply Hbody.
Qed.

(** The effects of a well-formed request. *)
Inductive handled (isCreate : bool) (p : payload) : ledger → exc (option error) → Prop :=
  | h_denied : isCreate = true → handled isCreate p (mkLedger [] [] true 0 [] [] [] []) (Val None)
  | h_error e : handled isCreate p ledger0 (Val (Some e))
  | h_rejected d :
      d = unsupported_data r (pl_ResourceID p) (pl_ServiceType p) ∨
      d = unavailable_data r (pl_ResourceID p) (pl_ServiceType p) →
      handled isCreate p (add_ces ledger0 [(TypeError, d)]) (Val None)
  | h_queued :
      handled isCreate p
        (mkLedger [(TypeRequestQueued, RequestQueuedData (responseCtx r (pl_ResourceID p))
                                         (pl_ServiceType p) "QUEUED")] [] false 1 [] [] [] [])
        (Val None)
  | h_forwarded l x : forward_effect isCreate p ledger0 l x → handled isCreate p l x.

Lemma forwardWithRetry_spec ctx sp isCreate p :
  mwp δ_ledger (forwardWithRetry eh url jit r ctx sp isCreate p) ledger0 (handled isCreate p).
Proof using Hname.
  unfold forwardWithRetry. apply mwp_st. intros [|]; [|apply h_error].
  apply mwp_deferred. eapply mwp_mono; [|apply forward_claimed_spec].
  intros l x Hf. simpl. intros _. by apply h_forwarded.
Qed.

Lemma HandleRequest_spec ctx msg :
  mwp δ_ledger (HandleRequest eh url jit dec r ctx msg) ledger0
    (λ l x, match parseRequestCE dec msg with
            | None => l = ledger0 ∧ x = Val None
            | Some (isCreate, p) =>
                if (pl_ResourceID p =s? "") || (pl_ServiceType p =s? "")
                then l = add_ces ledger0 [(TypeError, invalid_payload r)] ∧ x = Val None
                else handled isCreate p l x
            end).
Proof using Hname.
  unfold HandleRequest. destruct (parseRequestCE dec msg) as [[isCreate p]|]; [|done].
  destruct ((pl_ResourceID p =s? "") || (pl_ServiceType p =s? "")); [by apply mwp_fbind, publishCE_spec|].
  assert (mwp δ_ledger
    (res ← ResolveProvider (pl_ServiceType p);
     match res with
     | Err e => fret (Some e)
     | Ok None => publishCE r TypeError (unsupported_data r (pl_ResourceID p) (pl_ServiceType p)) ;⇐ fret None
     | Ok (Some (_, Unavailable)) =>
         publishCE r TypeError (unavailable_data r (pl_ResourceID p) (pl_ServiceType p)) ;⇐ fret None
     | Ok (Some (_, Unhealthy)) =>
         e ← ex (Publish (rt_retryTopic r) msg);
         match e with
         | Some err => fret (Some err)
         | None => publishCE r TypeRequestQueued
             (RequestQueuedData (responseCtx r (pl_ResourceID p)) (pl_ServiceType p) "QUEUED") ;⇐ fret None
         end
     | Ok (Some (sp, Ready)) =>
         if negb (rt_forwarder r)
         then publishCE r TypeError (unavailable_data r (pl_ResourceID p) (pl_ServiceType p)) ;⇐ fret None
         else forwardWithRetry eh url jit r ctx sp isCreate p
     end) ledger0 (handled isCreate p)) as Hk.
  { apply mwp_bind, ResolveProvider_spec. intros [[[sp [| |]]|]|e].
    - destruct (rt_forwarder r); simpl; [apply forwardWithRetry_spec|].
      apply mwp_fbind, publishCE_spec. apply h_rejected. by right.
    - simpl. intros [e|]; simpl; [apply h_error|]. apply mwp_fbind, publishCE_spec. apply h_queued.
    - apply mwp_fbind, publishCE_spec. apply h_rejected. by right.
    - apply mwp_fbind, publishCE_spec. apply h_rejected. by left.
    - apply h_error. }
  destruct isCreate; simpl; [|apply Hk]. intros [|]; simpl; [by apply h_denied|apply Hk].
Qed.

(** Why a response is sent for a request of resource [rid]. *)
Definition justified (isCreate : bool) (rid : string) (l : ledger) (ce : CEType * CEData) : Prop :=
  rc_ResourceID (ce_context ce.2) = rid ∧
  match ce.1 with
  | TypeCreationAcked => isCreate = true ∧ accepted (calls l)
  | TypeDeletionAcked => isCreate = false ∧ accepted (calls l)
  | TypeRequestQueued => queued l = 1%nat ∧ calls l = []
  | TypeError => ¬ accepted (calls l)
  | _ => False
  end.

Lemma handled_answer isCreate p l x :
  handled isCreate p l x →
  match x with
  | Val None =>
      (isCreate = true ∧ denied l = true ∧ ces l = [] ∧ calls l = []) ∨
      (denied l = false ∧ ∃ ce, ces l = [ce] ∧ justified isCreate (pl_ResourceID p) l ce)
  | _ => ces l = [] ∧ ¬ accepted (calls l)
  end.
Proof.
  assert (¬ accepted []) as Hnil by (by intros (? & ? & ? & _)).
  destruct 1 as [->|e|d Hd| |l x Hf]; simpl; auto.
  - right. split; [done|]. eexists; split; [done|]. by destruct Hd as [->| ->].
  - right. split; [done|]. by eexists.
  - destruct Hf as [b ->|b cs xs es success x Hf Ha H1 H0]; simpl; [by left|].
    destruct success.
    + destruct (H1 eq_refl) as [-> ->]. right. split; [done|]. eexists; split; [done|].
      unfold justified, ack_data. destruct isCreate; simpl; (split; [done|]); split; try done; by apply Ha.
    + specialize (H0 eq_refl). assert (¬ accepted cs) by (intros ?%Ha; done).
      destruct x as [[e|]|]; [done| |done]. destruct H0 as [e ->]. right. split; [done|].
      eexists; split; [done|]. unfold justified, TerminalProviderErrorData. by destruct (IsRetryable e).
Qed.

Lemma handled_bounded isCreate p l x :
  handled isCreate p l x → (length (calls l) ≤ Z.to_nat (attempts (rt_policy r)))%nat.
Proof.
  destruct 1 as [?|e|d Hd| |l x Hf]; simpl; try lia.
  destruct Hf as [b ?|b cs xs es success x [_ Hlen] _ _ _]; simpl; lia.
Qed.

(** C1: every request is answered once, for a reason, on every execution
    (whatever providers, store, broker and other handlers do).  An
    acknowledged well-formed request either was a create observed to be
    cancelled, and then nothing was called or sent, or has exactly one response
    event, for its own resource: an acknowledgement exactly when a provider
    accepted the call, "queued" when it was put on the retry topic, an error
    when no provider accepted it.  A request that is to be redelivered (error
    or panic) has had no response and was accepted by no provider.  No handling
    calls a provider more often than the retry policy allows. *)
Theorem request_answered_once ctx msg tr x :
  exec (HandleRequest eh url jit dec r ctx msg) tr x →
  let l := ledger_of tr in
  match parseRequestCE dec msg with
  | None => x = Val None ∧ l = ledger0
  | Some (isCreate, p) =>
      if (pl_ResourceID p =s? "") || (pl_ServiceType p =s? "")
      then x = Val None ∧ l = add_ces ledger0 [(TypeError, invalid_payload r)]
      else
        (length (calls l) ≤ Z.to_nat (attempts (rt_policy r)))%nat ∧
        match x with
        | Val None =>
            (isCreate = true ∧ denied l = true ∧ ces l = [] ∧ calls l = []) ∨
            (denied l = false ∧ ∃ ce, ces l = [ce] ∧ justified isCreate (pl_ResourceID p) l ce)
        | _ => ces l = [] ∧ ¬ accepted (calls l)
        end
  end.
Proof using Hname.
  intros He. pose proof (ledger_exec _ _ _ _ (HandleRequest_spec ctx msg) He) as H. cbn zeta.
  cbv beta in H. destruct (parseRequestCE dec msg) as [[isCreate p]|]; [|naive_solver].
  destruct ((pl_ResourceID p =s? "") || _); [naive_solver|].
  split; [by eapply handled_bounded | by apply handled_answer].
Qed.

Lemma handled_claims isCreate p l x :
  handled isCreate p l x →
  claims l = [] ∧ calls l = [] ∨
  ∃ b, claims l = (pl_ResourceID p, Some b) ::
         (if b && negb (acceptedb (calls l)) then [(pl_ResourceID p, None)] else []) ∧
    Forall (λ c, c_ResourceID c.1 = pl_ResourceID p) (calls l).
Proof.
  destruct 1 as [->|e|d Hd| |l x Hf]; try (by left). right.
  destruct Hf as [b ->|b cs xs es success x Hf Ha _ _]; exists b; simpl.
  - destruct b; split; try done; constructor.
  - split; [|eapply Forall_impl; [exact (proj1 Hf)|]; by intros c (? & ? & ?)].
    rewrite (eq_true_iff_eq success (acceptedb cs)) by (by rewrite Ha, acceptedb_spec).
    by destruct b, (acceptedb cs).
Qed.

(** C9: the cancel-rejection ledger is exact: a request that newly claimed its
    resource leaves it claimed if and only if a provider accepted the request;
    otherwise (provider error, timeout, panic, late cancellation) the claim is
    given back, and a claim held before is never touched. *)
Theorem claim_kept_iff_accepted ctx msg tr x :
  exec (HandleRequest eh url jit dec r ctx msg) tr x →
  let l := ledger_of tr in
  claims l = [] ∧ calls l = [] ∨
  ∃ rid b, claims l = (rid, Some b) :: (if b && negb (acceptedb (calls l)) then [(rid, None)] else []) ∧
    Forall (λ c, c_ResourceID c.1 = rid) (calls l).
Proof using Hname.
  intros He. pose proof (ledger_exec _ _ _ _ (HandleRequest_spec ctx msg) He) as H. cbn zeta.
  cbv beta in H. destruct (parseRequestCE dec msg) as [[isCreate p]|]; [|left; by destruct H as [-> _]].
  destruct ((pl_ResourceID p =s? "") || _); [left; by destruct H as [-> _]|].
  apply handled_claims in H as [H|(b & H)]; [by left|]. right. by exists (pl_ResourceID p), b.
Qed.

End Requests.

(** A create whose provider answers 201 is acknowledged; one whose provider
    panics gives its claim back. *)
Lemma request_answered_once_witness :
  let w := sample_world Ready (λ _, CallResponse 201 "" "") [] in
  let tr := trace_of w (HandleRequest ∅ sample_url sample_jitter sample_decode sample_router 0 "create") 0 sample_state in
  denied (ledger_of tr) = false ∧
  ∃ ce, ces (ledger_of tr) = [ce] ∧ justified true "r1" (ledger_of tr) ce.
Proof.
  cbv zeta.
  destruct (request_answered_once ∅ sample_url sample_jitter sample_decode sample_router ltac:(done) 0 "create"
    (trace_of (sample_world Ready (λ _, CallResponse 201 "" "") [])
       (HandleRequest ∅ sample_url sample_jitter sample_decode sample_router 0 "create") 0 sample_state) (Val None))
    as [_ [(_ & Hd & _)|H]].
  - apply trace_exec. vm_compute. reflexivity.
  - vm_compute in Hd. discriminate Hd.
  - exact H.
Defined.

Lemma claim_kept_iff_accepted_witness :
  let tr := trace_of (sample_world Ready (λ _, CallPanic) [])
    (HandleRequest ∅ sample_url sample_jitter sample_decode sample_router 0 "create") 0 sample_state in
  claims (ledger_of tr) = [("r1", Some true); ("r1", None)] ∧
  (claims (ledger_of tr) = [] ∧ calls (ledger_of tr) = [] ∨
   ∃ rid b, claims (ledger_of tr) =
       (rid, Some b) :: (if b && negb (acceptedb (calls (ledger_of tr))) then [(rid, None)] else []) ∧
     Forall (λ c, c_ResourceID c.1 = rid) (calls (ledger_of tr))).
Proof.
  cbv zeta. split; [vm_compute; reflexivity|].
  apply (claim_kept_iff_accepted ∅ sample_url sample_jitter sample_decode sample_router ltac:(done) 0 "create" _ Panicked).
  apply trace_exec. vm_compute. reflexivity.
Defined.
