(* ===== verification/RetrySpec.v ===== *)
(** * Correctness of retry processing

    What the processor of Retry.v does on every execution: the fetch loop ends
    by itself, create/delete pairs are removed exactly, and every message taken
    from the retry topic is settled exactly once, for a reason. *)

From S2P Require Import Prelude GoStrings Sets Backoff Provider FileStore Json Effects Routing Topics Retry Samples RouterSpec.

(** ** Programs with the same executions *)

Definition same_execs {A} (p q : prog A) : Prop := ∀ tr a, exec p tr a ↔ exec q tr a.

#[export] Instance same_execs_equiv A : Equivalence (@same_execs A).
Proof.
  split; [by intros p tr a|by intros p q H tr a; rewrite (H tr a)|].
  intros p q s H1 H2 tr a. by rewrite (H1 tr a), (H2 tr a).
Qed.

Lemma same_execs_do {A} o (k k' : resp o → prog A) :
  (∀ r, same_execs (k r) (k' r)) → same_execs (Do o k) (Do o k').
Proof.
  intros H tr a. split; intros (r & tr' & -> & He)%exec_inv; constructor; by apply H.
Qed.

(** ** The topic log: messages fetched, settled and answered

    [fetched]: messages delivered by fetches; [settled]: acknowledgements,
    rejections and terminations made (heartbeats do not settle); [sent]: the
    response events; [denies]: additions to the deny list; [fetches] counts the
    fetches made. *)

Record topic_log := mkTopicLog {
  fetched : list Msg;
  settled : list (Msg * disposition);
  sent : list (CEType * CEData);
  denies : list string;
  fetches : nat
}.

Definition topic_log0 : topic_log := mkTopicLog [] [] [] [] 0.

Definition add_fetched (g : topic_log) (ms : list Msg) (n : nat) : topic_log :=
  mkTopicLog (fetched g ++ ms) (settled g) (sent g) (denies g) (fetches g + n).
Definition add_settled (g : topic_log) (ds : list (Msg * disposition)) : topic_log :=
  mkTopicLog (fetched g) (settled g ++ ds) (sent g) (denies g) (fetches g).
Definition add_sent (g : topic_log) (es : list (CEType * CEData)) : topic_log :=
  mkTopicLog (fetched g) (settled g) (sent g ++ es) (denies g) (fetches g).
Definition add_denies (g : topic_log) (ids : list string) : topic_log :=
  mkTopicLog (fetched g) (settled g) (sent g) (denies g ++ ids) (fetches g).

Definition δ_topic (g : topic_log) (o : op) : resp o → option topic_log :=
  match o with
  | Ex (FetchBatch _ _ _) => λ r,
      Some (match r with Ok (ms, _) => add_fetched g ms 1 | Err _ => add_fetched g [] 1 end)
  | Ex (MsgDo m d) => λ _, Some (if bool_decide (d = DInProgress) then g else add_settled g [(m, d)])
  | Ex (EmitCE ty d) => λ _, Some (add_sent g [(ty, d)])
  | St (DenyAdd id) => λ _, Some (add_denies g [id])
  | _ => λ _, Some g
  end.

Definition topic_of (tr : list event) : topic_log := default topic_log0 (observe δ_topic topic_log0 tr).

Lemma topic_exec {A} (p : prog A) (Q : topic_log → A → Prop) tr a :
  mwp δ_topic p topic_log0 Q → exec p tr a → Q (topic_of tr) a.
Proof.
  intros Hp He. destruct (mwp_exec _ _ _ _ He _ _ Hp) as (l & Hl & HQ).
  unfold topic_of. by rewrite Hl.
Qed.

Lemma add_fetched_app g m1 n1 m2 n2 :
  add_fetched (add_fetched g m1 n1) m2 n2 = add_fetched g (m1 ++ m2) (n1 + n2).
Proof. unfold add_fetched; simpl. by rewrite app_assoc, Nat.add_assoc. Qed.
Lemma add_fetched_nil g : add_fetched g [] 0 = g.
Proof. destruct g; unfold add_fetched; simpl. by rewrite app_nil_r, Nat.add_0_r. Qed.
Lemma add_settled_nil g : add_settled g [] = g.
Proof. destruct g; unfold add_settled; simpl. by rewrite app_nil_r. Qed.
Lemma add_settled_app g a b : add_settled (add_settled g a) b = add_settled g (a ++ b).
Proof. unfold add_settled; simpl. by rewrite app_assoc. Qed.

(** The part of the log that only fetches and settlements change. *)
Definition δ_core (c : list Msg * list (Msg * disposition)) (o : op)
  : resp o → option (list Msg * list (Msg * disposition)) :=
  match o with
  | Ex (FetchBatch _ _ _) => λ r, Some (match r with Ok (ms, _) => (c.1 ++ ms, c.2) | Err _ => (c.1 ++ [], c.2) end)
  | Ex (MsgDo m d) => λ _, Some (if bool_decide (d = DInProgress) then c else (c.1, c.2 ++ [(m, d)]))
  | _ => λ _, Some c
  end.

Definition core (g : topic_log) : list Msg * list (Msg * disposition) := (fetched g, settled g).

Lemma mwp_core {A} (p : prog A) g (Q : list Msg * list (Msg * disposition) → A → Prop) :
  mwp δ_core p (core g) Q → mwp δ_topic p g (λ g' x, Q (core g') x).
Proof.
  revert g. induction p as [a|o k IH]; intros g; [done|]. intros H r. specialize (H r).
  assert (δ_core (core g) o r = core <$> δ_topic g o r) as Hc.
  { destruct o as [[]|[]]; try done; simpl in *; repeat case_match; done. }
  rewrite Hc in H. destruct (δ_topic g o r); [|done]. by apply IH.
Qed.

Lemma keeps_core {A} (p : prog A) g :
  keeps δ_core (core g) p → mwp δ_topic p g (λ g' _, core g' = core g).
Proof. intros H. by apply (mwp_core p g (λ c _, c = core g)). Qed.

(** ** The fetch loop *)

Section Fetch.
Context (ctx : nat) (stream consumer : string) (pending : Z).

Lemma fetch_loop_fuel_aux n m collected :
  pending - Z.of_nat (length collected) ≤ Z.of_nat n → pending - Z.of_nat (length collected) ≤ Z.of_nat m →
  same_execs (fetch_loop n ctx stream consumer pending collected)
             (fetch_loop m ctx stream consumer pending collected).
Proof.
  revert m collected. induction n as [|n IH]; intros [|m] collected Hn Hm; simpl;
    destruct (Z.of_nat (length collected) <? pending) eqn:E; try done; breflect; try lia.
  apply same_execs_do. intros [e|]; [done|]. apply same_execs_do. intros [[msgs [e|]]|e]; [done| |done].
  simpl. destruct (length msgs =? 0)%nat eqn:El; [done|]. apply Nat.eqb_neq in El.
  apply IH; rewrite length_app; lia.
Qed.

Lemma fetch_loop_spec n collected g :
  pending - Z.of_nat (length collected) ≤ Z.of_nat n →
  mwp δ_topic (fetch_loop n ctx stream consumer pending collected) g
    (λ g' x, ∃ ms e k, x = Val (collected ++ ms, e) ∧ g' = add_fetched g ms k ∧
       Z.of_nat k ≤ Z.max 0 (pending - Z.of_nat (length collected))).
Proof.
  revert collected g. induction n as [|n IH]; intros collected g Hn; simpl;
    destruct (Z.of_nat (length collected) <? pending) eqn:E; breflect;
    try (exists [], None, 0%nat; rewrite app_nil_r, add_fetched_nil; split_and!; [done..|lia]).
  intros [e|]; simpl.
  { exists [], None, 0%nat. rewrite app_nil_r, add_fetched_nil. split_and!; [done..|lia]. }
  intros [[msgs [e|]]|e]; simpl.
  - exists msgs, (Some e), 1%nat. split_and!; [done..|lia].
  - destruct (length msgs =? 0)%nat eqn:El; simpl.
    + exists msgs, None, 1%nat. split_and!; [done..|lia].
    + apply Nat.eqb_neq in El. eapply mwp_mono; [|apply IH; rewrite length_app; lia].
      intros g' x (ms & e & k & -> & -> & Hk). rewrite length_app in Hk.
      exists (msgs ++ ms), e, (1 + k)%nat. rewrite <-app_assoc, add_fetched_app. split_and!; [done..|lia].
  - exists [], (Some e), 1%nat. rewrite app_nil_r. split_and!; [done..|lia].
Qed.

End Fetch.

(** The fetch loop ends by itself: with the fuel the model gives it, or any
    larger one, it has the same executions (the fuel is never what ends it); it
    makes at most [pending] fetches, never panics, and returns exactly the
    messages delivered, in order. *)
Theorem fetch_terminates ctx stream consumer pending fuel :
  (Z.to_nat pending ≤ fuel)%nat →
  same_execs (fetch_loop fuel ctx stream consumer pending [])
             (fetch_loop (Z.to_nat pending) ctx stream consumer pending []) ∧
  ∀ tr x, exec (fetch_loop fuel ctx stream consumer pending []) tr x →
    ∃ ms e, x = Val (ms, e) ∧ fetched (topic_of tr) = ms ∧ (fetches (topic_of tr) ≤ Z.to_nat pending)%nat.
Proof.
  intros Hf. split; [apply fetch_loop_fuel_aux; simpl; lia|]. intros tr x He.
  eapply topic_exec in He; [|apply fetch_loop_spec; simpl; lia].
  destruct He as (ms & e & k & -> & -> & Hk). exists ms, e. simpl in *. split_and!; [done..|lia].
Qed.

Lemma fetch_terminates_witness :
  same_execs (fetch_loop 5 0 "s" "c" 3 []) (fetch_loop 3 0 "s" "c" 3 []).
Proof. apply (fetch_terminates 0 "s" "c" 3 5). vm_compute. repeat constructor. Defined.

Section Processing.
Context (eh : gset string) (url : bool → string → string → result string) (jit : Z → Z).
Context (dec : string → option Event) (pr : Processor).
Context (Hname : pr_agentName pr ≠ "").

Lemma fetchAll_spec ctx stream consumer g :
  mwp δ_topic (fetchAllFromConsumer pr ctx stream consumer) g
    (λ g' x, ∃ ms e k, x = Val (ms, e) ∧ g' = add_fetched g ms k).
Proof.
  assert (∃ ms (e : option error) k, Val ([], None) = Val (ms, e) ∧ g = add_fetched g ms k) as H0.
  { exists [], None, 0%nat. by rewrite add_fetched_nil. }
  unfold fetchAllFromConsumer. destruct (negb (pr_js pr)); [exact H0|]. simpl. intros [|]; [|exact H0].
  intros [pending|e]; simpl.
  - destruct (pending =? 0) eqn:E; [exact H0|]. eapply mwp_mono; [|apply fetch_loop_spec; simpl; lia].
    intros g' x (ms & e & k & -> & -> & _). eauto.
  - exists [], (Some e), 0%nat. by rewrite add_fetched_nil.
Qed.

Lemma fetchRetry_spec ctx g :
  mwp δ_topic (fetchRetry pr ctx) g (λ g' x, ∃ ms e k, x = Val (ms, e) ∧ g' = add_fetched g ms k).
Proof.
  unfold fetchRetry. apply mwp_fst. intros []. ledger_step. apply mwp_fbind.
  eapply mwp_mono; [|apply fetchAll_spec]. intros g' x (ms & e & k & -> & ->). simpl. eauto.
Qed.

Lemma msg_do_spec m d g (Q : topic_log → exc unit → Prop) :
  Q (if bool_decide (d = DInProgress) then g else add_settled g [(m, d)]) (Val tt) →
  mwp δ_topic (msg_do m d) g Q.
Proof. intros HQ. simpl. done. Qed.

(** *** Parsing *)

(** The messages that parse, and those that do not. *)
Definition parsed_of (msgs : list Msg) : list parsedMessage :=
  omap (λ m, mkParsed m <$> parseCE dec (m_data m)) msgs.
Definition malformed_of (msgs : list Msg) : list Msg :=
  filter (λ m, parseCE dec (m_data m) = None) msgs.

Lemma parsed_or_malformed msgs : (pm_msg <$> parsed_of msgs) ++ malformed_of msgs ≡ₚ msgs.
Proof.
  unfold parsed_of, malformed_of. induction msgs as [|m msgs IH]; [done|]. rewrite filter_cons. simpl.
  destruct (parseCE dec (m_data m)) as [ce|]; simpl; [by rewrite IH|]. by rewrite <-Permutation_middle, IH.
Qed.

Lemma parseMessages_spec msgs g (Q : topic_log → exc (list parsedMessage) → Prop) :
  Q (add_settled g ((λ m, (m, DTerm)) <$> malformed_of msgs)) (Val (parsed_of msgs)) →
  mwp δ_topic (parseMessages dec msgs) g Q.
Proof.
  revert g Q. unfold parsed_of, malformed_of. induction msgs as [|m msgs IH]; intros g Q HQ; simpl.
  { by rewrite add_settled_nil in HQ. }
  rewrite filter_cons in HQ. simpl in HQ. destruct (parseCE dec (m_data m)) as [ce|]; simpl in HQ.
  - by apply mwp_fbind, IH.
  - apply mwp_fbind, msg_do_spec. simpl. apply IH. by rewrite add_settled_app.
Qed.

(** *** Removal of create/delete pairs *)

Definition ack_of (i : parsedMessage) : Msg * disposition := (pm_msg i, DAck).

Definition deleted_ce (rid : string) : CEType * CEData :=
  (TypeDeletionAcked, DeletionAckData (retryResponseCtx pr rid) "DELETED").

Definition resource_ids (items : list parsedMessage) : list string :=
  remove_dups (cr_resourceID ∘ pm_ce <$> items).

Lemma acks_spec l g (Q : topic_log → exc unit → Prop) :
  Q (add_settled g (ack_of <$> l)) (Val tt) → mwp δ_topic (for_each (λ i, msg_do (pm_msg i) DAck) l) g Q.
Proof.
  revert g. induction l as [|i l IH]; intros g HQ; [by rewrite add_settled_nil in HQ|].
  apply (mwp_fbind δ_topic), msg_do_spec. simpl. apply IH. by rewrite add_settled_app.
Qed.

Lemma retryPublishCE_spec ty d g (Q : topic_log → exc unit → Prop) :
  Q (add_sent g [(ty, d)]) (Val tt) → mwp δ_topic (retryPublishCE pr ty d) g Q.
Proof using Hname.
  intros HQ. unfold retryPublishCE, PublishCE, FormatSource.
  rewrite bool_decide_eq_false_2 by done. simpl. done.
Qed.

(** Effect of the loop over the resources [L]. *)
Definition pair_acks (items : list parsedMessage) (rid : string) : list (Msg * disposition) :=
  if is_pair items rid then (ack_of <$> creates_of rid items) ++ (ack_of <$> deletes_of rid items) else [].
Definition pair_ces (items : list parsedMessage) (rid : string) : list (CEType * CEData) :=
  if is_pair items rid then [deleted_ce rid] else [].

Definition add_both (g : topic_log) (ds : list (Msg * disposition)) (es : list (CEType * CEData)) : topic_log :=
  mkTopicLog (fetched g) (settled g ++ ds) (sent g ++ es) (denies g) (fetches g).

Lemma dedup_spec order items g (Q : topic_log → exc (list parsedMessage) → Prop) :
  Q (add_both g (order (resource_ids items) ≫= pair_acks items) (order (resource_ids items) ≫= pair_ces items))
    (Val (survivors items)) →
  mwp δ_topic (dedupCreateDeletePairs pr order items) g Q.
Proof using Hname.
  intros HQ. unfold dedupCreateDeletePairs. apply mwp_fbind. unfold resource_ids in HQ.
  revert HQ. generalize (order (remove_dups (cr_resourceID ∘ pm_ce <$> items))). intros L.
  revert g. induction L as [|rid L IH]; intros g HQ.
  { unfold add_both in HQ. simpl in HQ. rewrite !app_nil_r in HQ. by destruct g. }
  rewrite !bind_cons in HQ. unfold pair_acks at 1, pair_ces at 1 in HQ.
  apply (mwp_fbind δ_topic). destruct (is_pair items rid).
  - apply mwp_fbind, acks_spec, mwp_fbind, acks_spec, retryPublishCE_spec, IH.
    unfold add_both, add_sent, add_settled in *. simpl in *. by rewrite <-!app_assoc in *.
  - apply IH. done.
Qed.

(** Items with an opposite: a create and a delete of one resource. *)
Definition opposes (i j : parsedMessage) : Prop :=
  cr_resourceID (pm_ce j) = cr_resourceID (pm_ce i) ∧
  (cr_ceType (pm_ce i) = TypeRequestCreate ∧ cr_ceType (pm_ce j) = TypeRequestDelete ∨
   cr_ceType (pm_ce i) = TypeRequestDelete ∧ cr_ceType (pm_ce j) = TypeRequestCreate).

Lemma is_pair_spec items rid :
  is_pair items rid = true ↔
  (∃ c, c ∈ items ∧ cr_resourceID (pm_ce c) = rid ∧ cr_ceType (pm_ce c) = TypeRequestCreate) ∧
  (∃ d, d ∈ items ∧ cr_resourceID (pm_ce d) = rid ∧ cr_ceType (pm_ce d) = TypeRequestDelete).
Proof using.
  clear. unfold is_pair. rewrite andb_true_iff, !negb_true_iff, !bool_decide_eq_false.
  unfold creates_of, deletes_of. rewrite !filter_not_nil. unfold of_resource, of_type.
  setoid_rewrite andb_true_iff. setoid_rewrite bool_decide_eq_true. naive_solver.
Qed.

Lemma deduped_spec items i :
  i ∈ items → deduped items i = true ↔ ∃ j, j ∈ items ∧ opposes i j.
Proof.
  intros Hi. unfold deduped, of_type, opposes. rewrite andb_true_iff, is_pair_spec, orb_true_iff, !bool_decide_eq_true.
  split.
  - intros [[(c & ? & ? & ?) (d & ? & ? & ?)] [?|?]]; [exists d|exists c]; auto.
  - intros (j & Hj & Hr & [[Hc Hd]|[Hd Hc]]); eauto 10.
Qed.

Lemma pair_acks_filter items rid :
  pair_acks items rid ≡ₚ
  ack_of <$> filter (λ i, bool_decide (cr_resourceID (pm_ce i) = rid) && deduped items i = true) items.
Proof.
  trans (if is_pair items rid then ack_of <$> filter (λ i, (of_resource rid i && of_type TypeRequestCreate i)
      || (of_resource rid i && of_type TypeRequestDelete i) = true) items else []).
  { unfold pair_acks. destruct (is_pair items rid); [|done]. rewrite <-fmap_app. f_equiv.
    unfold creates_of, deletes_of. apply filter_split. unfold of_type. intros i Hc Hd. breflect.
    assert (TypeRequestCreate ≠ TypeRequestDelete) by done. congruence. }
  destruct (is_pair items rid) eqn:E.
  - f_equiv. erewrite list_filter_iff; [done|]. intros i. unfold deduped, of_resource.
    rewrite <-andb_orb_distrib_r. destruct (bool_decide_reflect (cr_resourceID (pm_ce i) = rid)) as [->|]; [|done].
    by rewrite E.
  - match goal with |- _ ≡ₚ _ <$> ?l => destruct (decide (l = [])) as [->|Hne]; [done|] end.
    apply filter_not_nil in Hne as (i & _ & Hd). breflect. subst. unfold deduped in *. breflect. congruence.
Qed.

Section Order.
Context (order : list string → list string) (Horder : ∀ l, order l ≡ₚ l).

Lemma resource_ids_acks items :
  (order (resource_ids items) ≫= pair_acks items) ≡ₚ ack_of <$> filter (λ i, deduped items i = true) items.
Proof using Horder.
  rewrite Horder, <-(filter_by_key (cr_resourceID ∘ pm_ce) (deduped items) (resource_ids items)).
  - induction (resource_ids items) as [|rid L IH]; [done|].
    rewrite !bind_cons, fmap_app, IH. f_equiv. apply pair_acks_filter.
  - apply NoDup_remove_dups.
  - intros i Hi _. apply elem_of_remove_dups, list_elem_of_fmap. by exists i.
Qed.

Lemma resource_ids_ces items :
  (order (resource_ids items) ≫= pair_ces items) ≡ₚ
  deleted_ce <$> filter (λ rid, is_pair items rid = true) (resource_ids items).
Proof using Horder.
  rewrite Horder. induction (resource_ids items) as [|rid L IH]; [done|].
  rewrite bind_cons, filter_cons. unfold pair_ces at 1. by destruct (is_pair items rid); simpl; rewrite IH.
Qed.

(** The removal of create/delete pairs is exact, whatever the order in
    which the runtime enumerates the resources: the items returned are those
    without an opposite (no create and delete of one resource are left, and
    nothing else is removed), every removed message is acknowledged once, and
    one deletion event is sent for each resource that had such a pair. *)
Theorem dedup_exact items tr x :
  exec (dedupCreateDeletePairs pr order items) tr x →
  x = Val (survivors items) ∧
  (∀ i, i ∈ survivors items ↔ i ∈ items ∧ ¬ ∃ j, j ∈ items ∧ opposes i j) ∧
  settled (topic_of tr) ≡ₚ ack_of <$> filter (λ i, deduped items i = true) items ∧
  sent (topic_of tr) ≡ₚ deleted_ce <$> filter (λ rid, is_pair items rid = true) (resource_ids items).
Proof using Hname Horder.
  intros He. eapply (topic_exec _ (λ g x, x = Val (survivors items) ∧
    g = add_both topic_log0 (order (resource_ids items) ≫= pair_acks items) (order (resource_ids items) ≫= pair_ces items)))
    in He as [-> ->]; [|by apply dedup_spec].
  split_and!; [done| |apply resource_ids_acks|apply resource_ids_ces].
  intros i. unfold survivors. rewrite list_elem_of_filter. split; intros [H1 H2].
  - split; [done|]. rewrite <-deduped_spec by done. by rewrite H1.
  - split; [|done]. apply not_true_is_false. by rewrite deduped_spec.
Qed.

(** *** Items *)

Lemma core_ResolveProvider c stype : keeps δ_core c (ResolveProvider stype).
Proof. unfold ResolveProvider. keeps. Qed.
Lemma core_publish c ty d : keeps δ_core c (retryPublishCE pr ty d).
Proof. unfold retryPublishCE, PublishCE. keeps. Qed.
#[local] Hint Resolve core_ResolveProvider core_publish : discipline.

Lemma core_forward c ctx sp p pol : keeps δ_core c (ForwardWithRetry eh url jit ctx sp p pol).
Proof.
  assert (keeps δ_core c (ForwardToSP eh url sp p)).
  { unfold ForwardToSP, callEmbedded, callExternal, doRequest. keeps. }
  unfold ForwardWithRetry. generalize (Z.to_nat (attempts pol)), 0, (@None error).
  intros n. induction n as [|n IH]; intros att lst; simpl; keeps.
Qed.
#[local] Hint Resolve core_forward : discipline.

Lemma core_forwardRequest c ctx sp res : keeps δ_core c (forwardRequest eh url jit pr ctx sp res).
Proof. unfold forwardRequest, forwardRequest_locked, publishAckCE. keeps. Qed.

(** The handling of a message [m]: it is settled once, unless the handler
    panics, in which case nothing was settled. *)
Definition settles (m : Msg) (p : fun_ unit) : Prop :=
  ∀ c, mwp δ_core p c (λ c' x, match x with
    | Val _ => ∃ d, c' = (c.1, c.2 ++ [(m, d)])
    | Panicked => c' = c
    end).

Lemma settles_msg_do m d : d ≠ DInProgress → settles m (msg_do m d).
Proof. intros Hd c. simpl. intros _. rewrite bool_decide_eq_false_2 by done. by exists d. Qed.

Lemma settles_after {A} m (p : fun_ A) (f : A → fun_ unit) :
  (∀ c, keeps δ_core c p) → (∀ a, settles m (f a)) → settles m (fbind p f).
Proof.
  intros Hp Hf c. apply mwp_fbind. eapply mwp_mono; [|apply Hp]. intros c' [a|] ->; [apply Hf|done].
Qed.

Lemma settles_after_prog {A} m (p : prog A) (f : A → fun_ unit) :
  (∀ c, keeps δ_core c p) → (∀ a, settles m (f a)) → settles m (p ≫= f).
Proof. intros Hp Hf c. apply mwp_bind. eapply mwp_mono; [|apply Hp]. intros c' a ->. apply Hf. Qed.

Lemma core_heartbeat c m : keeps δ_core c (msg_do m DInProgress).
Proof. done. Qed.

Lemma settles_route ctx m res : settles m (routeMessage eh url jit pr ctx m res true).
Proof.
  unfold routeMessage, requeueToRetryTopic. apply settles_after_prog; [intros; apply core_ResolveProvider|].
  intros [[[sp [| |]]|]|e]; try by apply settles_msg_do.
  - apply settles_after; [intros; apply core_forwardRequest|]. intros []; by apply settles_msg_do.
  - apply settles_after; [intros; apply core_publish|]. intros _. by apply settles_msg_do.
Qed.

Lemma settles_transitionItem ctx sp i :
  settles (pm_msg i) (processTransitionItem eh url jit pr ctx sp i).
Proof.
  unfold processTransitionItem. apply settles_after_prog; [intros; keeps|].
  intros [|]; [by apply settles_msg_do|]. destruct (negb _).
  { apply settles_after; [done|]. intros _. apply settles_route. }
  apply settles_after_prog; [intros; apply core_ResolveProvider|].
  assert (settles (pm_msg i) (msg_do (pm_msg i) DInProgress ;⇐
    done ⇐ forwardRequest eh url jit pr ctx sp (pm_ce i);
    if negb (done : bool) then msg_do (pm_msg i) (DNakDelay storeErrorRetryDelay) else msg_do (pm_msg i) DAck)).
  { apply settles_after; [done|]. intros _. apply settles_after; [intros; apply core_forwardRequest|].
    intros []; by apply settles_msg_do. }
  assert (settles (pm_msg i) (retryPublishCE pr TypeError
      (retryUnavailable pr (pm_ce i) (unavailable_message (pm_ce i))) ;⇐ msg_do (pm_msg i) DAck)).
  { apply settles_after; [intros; apply core_publish|]. intros _. by apply settles_msg_do. }
  intros [[[sp' [| |]]|]|e]; try done. by apply settles_msg_do.
Qed.

Lemma settles_for_each {A} (msg : A → Msg) (f : A → fun_ unit) (l : list A) c :
  (∀ x, settles (msg x) (f x)) →
  mwp δ_core (for_each f l) c (λ c' x, ∃ ds, c' = (c.1, c.2 ++ ds) ∧
    match x with Val _ => ds.*1 = msg <$> l | Panicked => ds.*1 `prefix_of` (msg <$> l) end).
Proof.
  intros Hf. revert c. induction l as [|y l IH]; intros c.
  { exists []. rewrite app_nil_r. by destruct c. }
  apply (mwp_fbind δ_core). eapply mwp_mono; [|apply Hf].
  intros c' [[]|] H; [destruct H as [d ->]|subst c'].
  - eapply mwp_mono; [|apply IH]. intros c' x (ds & -> & Hds). exists ((msg y, d) :: ds). simpl.
    rewrite <-app_assoc. split; [done|]. destruct x; [by f_equal/=|]. by apply prefix_cons.
  - exists []. rewrite app_nil_r. split; [by destruct c|]. apply prefix_nil.
Qed.

(** Of the fetched messages [msgs], what is settled once pairs are removed and
    [ds] settles (some of) the survivors. *)
Lemma settled_all msgs ds :
  ds.*1 `prefix_of` (pm_msg <$> survivors (parsed_of msgs)) →
  let all := ((λ m, (m, DTerm)) <$> malformed_of msgs) ++
             (order (resource_ids (parsed_of msgs)) ≫= pair_acks (parsed_of msgs)) ++ ds in
  all.*1 ⊆+ msgs ∧ (ds.*1 = pm_msg <$> survivors (parsed_of msgs) → all.*1 ≡ₚ msgs).
Proof using Horder.
  intros [rest Hpre]. cbn zeta. rewrite !fmap_app, resource_ids_acks, <-!list_fmap_compose.
  set (items := parsed_of msgs) in *.
  assert (∀ l, l ++ rest ≡ₚ pm_msg <$> survivors items →
    (malformed_of msgs ++ (pm_msg <$> filter (λ i, deduped items i = true) items) ++ l) ++ rest ≡ₚ msgs) as Hall.
  { intros l Hl. rewrite <-!(assoc_L (++)), Hl, <-fmap_app, filter_true_false.
    rewrite Permutation_app_comm. apply parsed_or_malformed. }
  assert (fst ∘ (λ m : Msg, (m, DTerm)) <$> malformed_of msgs = malformed_of msgs) as ->.
  { apply list_fmap_id. }
  change (fst ∘ ack_of <$> filter (λ i, deduped items i = true) items)
    with (pm_msg <$> filter (λ i, deduped items i = true) items).
  split.
  - etrans; [|apply Permutation_submseteq, (Hall ds.*1); by rewrite Hpre]. by apply submseteq_inserts_r.
  - intros Hds. assert (rest = []) as ->.
    { apply (f_equal length) in Hpre. rewrite Hds, length_app in Hpre. destruct rest; [done|simpl in Hpre; lia]. }
    etrans; [|apply (Hall ds.*1); by rewrite Hpre]. by rewrite app_nil_r.
Qed.

(** What becomes of the messages fetched, by the way the processing ends. *)
Definition all_settled (g : topic_log) (x : exc (option error)) : Prop :=
  match x with
  | Val None => (settled g).*1 ≡ₚ fetched g
  | Val (Some _) => settled g = []
  | Panicked => (settled g).*1 ⊆+ fetched g
  end.

(** The handling of [items]: a prefix is settled, one by one; all of them when
    it ends normally. *)
Definition settles_items (items : list parsedMessage) (p : fun_ (option error)) : Prop :=
  ∀ c, mwp δ_core p c (λ c' x, ∃ ds, c' = (c.1, c.2 ++ ds) ∧ ds.*1 `prefix_of` (pm_msg <$> items) ∧
    match x with Val None => ds.*1 = pm_msg <$> items | Val _ => False | Panicked => True end).

Lemma settles_items_loop items (prep : fun_ unit) (f : parsedMessage → fun_ unit) :
  (∀ c, keeps δ_core c prep) → (∀ i, settles (pm_msg i) (f i)) →
  settles_items items (prep ;⇐ for_each f items ;⇐ fret None).
Proof.
  intros Hprep Hf c. apply mwp_fbind. eapply mwp_mono; [|apply Hprep]. intros c' [[]|] ->.
  - apply mwp_fbind. eapply mwp_mono; [|by apply (settles_for_each pm_msg)].
    intros c' [[]|] (ds & -> & Hds); exists ds; split_and!; try done. by rewrite Hds.
  - exists []. rewrite app_nil_r. split_and!; [by destruct c|apply prefix_nil|done].
Qed.

(** A batch of retry messages: parsed, paired off and handled. *)
Lemma batch_settles ms k (cont : list parsedMessage → fun_ (option error)) :
  (∀ items, settles_items items (cont items)) →
  mwp δ_topic
    (items ⇐ parseMessages dec ms; items' ⇐ dedupCreateDeletePairs pr order items; cont items')
    (add_fetched topic_log0 ms k) all_settled.
Proof using Hname Horder.
  intros Hcont. apply mwp_fbind, parseMessages_spec, mwp_fbind, dedup_spec.
  eapply mwp_mono; [|apply mwp_core, Hcont].
  intros g x (ds & Hc & Hpre & Hx). unfold core in Hc. injection Hc as Hf' Hs'. simpl in Hf', Hs'.
  destruct (settled_all ms ds Hpre) as [Hsub Hall]. unfold all_settled. rewrite Hf', Hs', <-app_assoc.
  destruct x as [[e|]|]; [done|by apply Hall|done].
Qed.

(** The processing after a fetch of the retry topic. *)
Lemma retry_fetch_settles ctx (cont : list parsedMessage → fun_ (option error)) :
  (∀ items, settles_items items (cont items)) →
  mwp δ_topic
    (f ⇐ fetchRetry pr ctx;
     match f with
     | (_, Some e) => fret (Some e)
     | (msgs, None) =>
         items ⇐ parseMessages dec msgs; items' ⇐ dedupCreateDeletePairs pr order items; cont items'
     end)
    topic_log0 all_settled.
Proof using Hname Horder.
  intros Hc. apply mwp_fbind. eapply mwp_mono; [|apply fetchRetry_spec].
  intros g x (ms & e & k & -> & ->). destruct e as [e|]; [done|by apply batch_settles].
Qed.

Lemma core_heartbeatAll c l : keeps δ_core c (heartbeatAll l).
Proof. unfold heartbeatAll, heartbeatAllMsgs. keeps. apply core_heartbeat. Qed.

(** C4: no message of the retry topic is lost or settled twice by a health
    transition: when the processing succeeds, every message that was fetched
    has been acknowledged, rejected for later or terminated exactly once; when
    it fails, none has (they are redelivered); when an in-process provider
    panics, none has been settled twice. *)
Theorem transition_settles_all ctx ctxs id to tr x :
  exec (ProcessOnTransition eh url jit dec pr order ctx ctxs id to) tr x → all_settled (topic_of tr) x.
Proof using Hname Horder.
  apply topic_exec. unfold ProcessOnTransition. destruct (_ && _); [by constructor|].
  apply mwp_ex. intros [[sp|]|e]; ledger_step; [|by constructor|done].
  apply (retry_fetch_settles ctx (λ items', processTransitionItems eh url jit pr ctxs sp items' ;⇐ fret None)).
  intros items c. unfold processTransitionItems. apply mwp_fbind, mwp_fbind.
  eapply mwp_mono; [|apply core_heartbeatAll]. intros c' [[]|] ->.
  - eapply mwp_mono; [|apply (settles_for_each pm_msg); intros i; apply settles_transitionItem].
    intros c' [[]|] (ds & -> & Hds); exists ds; split_and!; try done. by rewrite Hds.
  - exists []. rewrite app_nil_r. split_and!; [by destruct c|apply prefix_nil|done].
Qed.

(** The same holds for the drain of the retry topic on restart. *)
Theorem restart_settles_retries ctx ctxs tr x :
  exec (drainRetryTopicWithDedup eh url jit dec pr order ctx ctxs) tr x → all_settled (topic_of tr) x.
Proof using Hname Horder.
  apply topic_exec. unfold drainRetryTopicWithDedup. apply retry_fetch_settles. intros items.
  apply settles_items_loop; [intros; apply core_heartbeatAll|]. intros i.
  apply settles_after_prog; [intros; keeps|]. intros [|]; [by apply settles_msg_do|].
  apply settles_after; [done|]. intros _. apply settles_route.
Qed.

End Order.

(** *** Why a retried request is acknowledged *)

Lemma ledger_publish ty d l (Q : ledger → exc unit → Prop) :
  Q (add_ces l [(ty, d)]) (Val tt) → mwp δ_ledger (retryPublishCE pr ty d) l Q.
Proof using Hname.
  intros HQ. unfold retryPublishCE, PublishCE, FormatSource.
  rewrite bool_decide_eq_false_2 by done. simpl. done.
Qed.

Lemma ledger_msg_do m d l (Q : ledger → exc unit → Prop) :
  Q (add_disps l [(m_handle m, d)]) (Val tt) → mwp δ_ledger (msg_do m d) l Q.
Proof. intros HQ. simpl. done. Qed.

(** Nothing called, sent or observed yet. *)
Definition untouched (l : ledger) : Prop := ces l = [] ∧ calls l = [] ∧ denied l = false.

Definition is_create (res : ceResult) : bool := negb (cr_ceType res =s? TypeRequestDelete).

(** The request was dropped because it is a create that was cancelled, or was
    answered by one event, for a reason. *)
Definition concluded (res : ceResult) (l : ledger) : Prop :=
  (cr_ceType res = TypeRequestCreate ∧ denied l = true ∧ ces l = [] ∧ calls l = []) ∨
  (denied l = false ∧ ∃ ce, ces l = [ce] ∧ justified (is_create res) (cr_resourceID res) l ce).

Definition unanswered (l : ledger) : Prop := ces l = [] ∧ ¬ accepted (calls l).

Definition forward_outcome (res : ceResult) (l l' : ledger) (x : exc bool) : Prop :=
  disps l' = disps l ∧ match x with Val true => concluded res l' | _ => unanswered l' end.

Lemma not_accepted_nil : ¬ accepted [].
Proof. by intros (? & ? & ? & _). Qed.

Lemma terminal_justified b res l e es :
  ¬ accepted (calls l) →
  justified b (cr_resourceID res) (add_ces l es)
    (TypeError, TerminalProviderErrorData e (cr_serviceType res) (retryResponseCtx pr (cr_resourceID res))).
Proof. intros Ha. unfold justified, TerminalProviderErrorData. by destruct (IsRetryable e). Qed.

Lemma forwardRequest_locked_spec ctx sp res l :
  untouched l →
  mwp δ_ledger (forwardRequest_locked eh url jit pr ctx sp res) l (forward_outcome res l).
Proof using Hname.
  intros (Hce & Hcall & Hden).
  unfold forwardRequest_locked. apply mwp_bind.
  match goal with |- mwp _ ?p _ _ =>
    assert (mwp δ_ledger p l (λ l' b, ces l' = [] ∧ calls l' = [] ∧ denied l' = false ∧ disps l' = disps l)) as Hclaim end.
  { destruct (pr_claimed pr); [|done]. simpl. intros b. done. }
  eapply mwp_mono; [|exact Hclaim]. clear Hclaim. intros l1 added (Hce1 & Hcall1 & Hden1 & Hd1).
  assert (∀ l0, mwp δ_ledger (if added : bool then st (ClaimRemove (cr_resourceID res)) else Ret tt) l0
    (λ l' _, ces l' = ces l0 ∧ calls l' = calls l0 ∧ denied l' = denied l0 ∧ disps l' = disps l0)) as Hun.
  { intros l0. by destruct added. }
  apply mwp_bind.
  match goal with |- mwp _ ?p _ _ =>
    assert (mwp δ_ledger p l1 (λ l' b, ces l' = [] ∧ calls l' = [] ∧ denied l' = b ∧ disps l' = disps l ∧
      (b = true → cr_ceType res = TypeRequestCreate))) as Hdeny end.
  { destruct (bool_decide_reflect (cr_ceType res = TypeRequestCreate)); [|done]. simpl. intros b. by rewrite Hden1. }
  eapply mwp_mono; [|exact Hdeny]. clear Hdeny. intros l2 den (Hce2 & Hcall2 & Hden2 & Hd2 & Hc2).
  destruct den.
  { apply mwp_bind. eapply mwp_mono; [|apply Hun]. intros l3 _ (H1 & H2 & H3 & H4).
    split; [congruence|]. left. split_and!; [by apply Hc2|congruence..]. }
  apply mwp_fbind. eapply mwp_mono; [|apply ForwardWithRetry_spec].
  intros l3 x (cs & xs & -> & _ & _ & Ha)%(forward_post_cases eh url sp (is_create res)
    (mkPayload (cr_resourceID res) (cr_serviceType res) (cr_spec res) (cr_eventID res))).
  destruct x as [[e|]|].
  - assert (¬ accepted (calls l2 ++ cs)) as Hna by (rewrite Hcall2; intros ?%Ha; done).
    apply mwp_bind. eapply mwp_mono; [|apply Hun]. intros l4 _ (H1 & H2 & H3 & H4). simpl in H1, H2, H3, H4.
    apply mwp_st. intros [ce|]; ledger_step.
    + split; [simpl; congruence|]. split; simpl; [congruence|]. by rewrite H2, app_nil_r.
    + apply mwp_fbind, ledger_publish. split; [simpl; congruence|]. right. simpl. split; [congruence|].
      eexists; split; [by rewrite H1, Hce2|]. apply terminal_justified. simpl. by rewrite H2, app_nil_r.
  - assert (accepted (calls l2 ++ cs)) as Hacc by (rewrite Hcall2; by apply Ha).
    unfold publishAckCE, forward_outcome, concluded, is_create.
    destruct (bool_decide_reflect (cr_ceType res = TypeRequestDelete));
      apply mwp_fbind, ledger_publish; (split; [done|]); right; simpl; (split; [done|]);
      eexists; (split; [by rewrite Hce2|]); done.
  - split; [done|]. split; [done|]. simpl. rewrite Hcall2. by intros ?%Ha.
Qed.

Lemma forwardRequest_spec ctx sp res l :
  untouched l → mwp δ_ledger (forwardRequest eh url jit pr ctx sp res) l (forward_outcome res l).
Proof using Hname.
  intros Hl. pose proof Hl as (Hce & Hcall & Hden). unfold forwardRequest. destruct (negb (pr_forwarder pr)).
  { apply mwp_fbind, ledger_publish. split; [done|]. right. simpl. split; [done|].
    eexists; split; [by rewrite Hce|]. split; [done|]. simpl. rewrite Hcall. apply not_accepted_nil. }
  destruct (pr_inFlight pr); [|by apply forwardRequest_locked_spec].
  apply mwp_st. intros [|]; ledger_step.
  - apply mwp_deferred. eapply mwp_mono; [|by apply forwardRequest_locked_spec].
    intros l' x Ho. simpl. by intros _.
  - split; [done|]. split; [done|]. rewrite Hcall. apply not_accepted_nil.
Qed.

(** What was done to the message [m] of a request, besides heartbeats. *)
Definition verdicts (l : ledger) : list (nat * disposition) := filter (λ d, d.2 ≠ DInProgress) (disps l).

Definition item_outcome (m : Msg) (res : ceResult) (l : ledger) (x : exc unit) : Prop :=
  match x with
  | Val _ => ∃ d, verdicts l = [(m_handle m, d)] ∧
      match d with
      | DAck => concluded res l
      | DNakDelay t => t = storeErrorRetryDelay ∧ unanswered l
      | _ => False
      end
  | Panicked => verdicts l = [] ∧ unanswered l
  end.

Lemma verdicts_app l ds : verdicts (add_disps l ds) = verdicts l ++ filter (λ d, d.2 ≠ DInProgress) ds.
Proof. unfold verdicts. simpl. apply filter_app. Qed.

Lemma item_acked m res l : verdicts l = [] → concluded res l →
  item_outcome m res (add_disps l [(m_handle m, DAck)]) (Val tt).
Proof. intros Hv Hc. exists DAck. rewrite verdicts_app, Hv. done. Qed.

Lemma item_naked m res l : verdicts l = [] → unanswered l →
  item_outcome m res (add_disps l [(m_handle m, DNakDelay storeErrorRetryDelay)]) (Val tt).
Proof. intros Hv Hc. exists (DNakDelay storeErrorRetryDelay). by rewrite verdicts_app, Hv. Qed.

Lemma untouched_unanswered l : untouched l → unanswered l.
Proof. intros (H1 & H2 & _). split; [done|]. rewrite H2. apply not_accepted_nil. Qed.

Lemma item_unavailable m res msg l : verdicts l = [] → untouched l →
  mwp δ_ledger (retryPublishCE pr TypeError (retryUnavailable pr res msg) ;⇐ msg_do m DAck) l (item_outcome m res).
Proof using Hname.
  intros Hv (Hce & Hcall & Hden). apply mwp_fbind, ledger_publish, ledger_msg_do, item_acked; [done|].
  right. split; [done|]. eexists. split; [simpl; by rewrite Hce|]. split; [done|]. simpl.
  rewrite Hcall. apply not_accepted_nil.
Qed.

(** The end of a forward: acknowledge when it is concluded, else put back. *)
Lemma item_forward m ctx sp res l : verdicts l = [] → untouched l →
  mwp δ_ledger
    (done ⇐ forwardRequest eh url jit pr ctx sp res;
     if negb (done : bool) then msg_do m (DNakDelay storeErrorRetryDelay) else msg_do m DAck)
    l (item_outcome m res).
Proof using Hname.
  intros Hv Hl. apply mwp_fbind. eapply mwp_mono; [|by apply forwardRequest_spec].
  intros l' x [Hd Hx]. assert (verdicts l' = []) by (unfold verdicts; by rewrite Hd).
  destruct x as [[|]|]; [by apply ledger_msg_do, item_acked|by apply ledger_msg_do, item_naked|done].
Qed.

Lemma routeMessage_spec ctx m res l : verdicts l = [] → untouched l →
  mwp δ_ledger (routeMessage eh url jit pr ctx m res true) l (item_outcome m res).
Proof using Hname.
  intros Hv Hl. pose proof (untouched_unanswered l Hl) as Hu. unfold routeMessage, requeueToRetryTopic.
  apply mwp_bind, ResolveProvider_spec. intros [[[sp [| |]]|]|e]; try by apply ledger_msg_do, item_naked.
  - by apply item_forward.
  - by apply item_unavailable.
Qed.

(** C11: a queued request that a health transition takes up is settled for a
    reason, on every execution: it is acknowledged only when it is a create
    that was cancelled (and then nothing was called or sent) or was answered by
    exactly one event, an acknowledgement exactly when a provider accepted the
    call; it is put back only when no event was sent and no provider accepted
    it, and the same holds when an in-process provider panics. *)
Theorem transition_item_justified ctx sp item tr x :
  exec (processTransitionItem eh url jit pr ctx sp item) tr x →
  item_outcome (pm_msg item) (pm_ce item) (ledger_of tr) x.
Proof using Hname.
  apply ledger_exec. unfold processTransitionItem. apply mwp_bind.
  assert (∀ l, verdicts l = [] → untouched l → mwp δ_ledger (msg_do (pm_msg item) DInProgress) l
    (λ l' x, x = Val tt ∧ verdicts l' = [] ∧ untouched l')) as Hbeat.
  { intros l Hv Hl. apply ledger_msg_do. by rewrite verdicts_app, Hv. }
  match goal with |- mwp _ ?p _ _ => assert (mwp δ_ledger p ledger0 (λ l b, verdicts l = [] ∧
    if b : bool then concluded (pm_ce item) l else untouched l)) as Hdeny end.
  { destruct (bool_decide_reflect (cr_ceType (pm_ce item) = TypeRequestCreate)); [|done].
    simpl. intros [|]; [|done]. split; [done|]. by left. }
  eapply mwp_mono; [|exact Hdeny]. intros l [|] [Hv Hl]; [by apply ledger_msg_do, item_acked|].
  destruct (negb _).
  { apply mwp_fbind. eapply mwp_mono; [|by apply Hbeat]. intros l' y (-> & Hv' & Hl'). by apply routeMessage_spec. }
  apply mwp_bind, ResolveProvider_spec.
  assert (mwp δ_ledger (msg_do (pm_msg item) DInProgress ;⇐
     done ⇐ forwardRequest eh url jit pr ctx sp (pm_ce item);
     if negb (done : bool) then msg_do (pm_msg item) (DNakDelay storeErrorRetryDelay) else msg_do (pm_msg item) DAck)
    l (item_outcome (pm_msg item) (pm_ce item))) as Hfwd.
  { apply mwp_fbind. eapply mwp_mono; [|by apply Hbeat]. intros l' y (-> & Hv' & Hl'). by apply item_forward. }
  intros [[[sp' [| |]]|]|e]; try done; try by apply item_unavailable.
  by apply ledger_msg_do, item_naked, untouched_unanswered.
Qed.

End Processing.

(** A create, a delete of the same resource and a message that is no event. *)
Definition sample_retries : list Msg :=
  [mkMsg 1 "create"; mkMsg 2 "delete"; mkMsg 3 "junk"].

Lemma dedup_exact_witness :
  let items := parsed_of sample_decode sample_retries in
  let tr := trace_of (sample_world Ready (λ _, CallResponse 201 "" "") [])
    (dedupCreateDeletePairs sample_processor (λ l, l) items) 0 sample_state in
  length items = 2%nat ∧ survivors items = [] ∧
  settled (topic_of tr) ≡ₚ ack_of <$> filter (λ i, deduped items i = true) items.
Proof.
  cbv zeta. split_and!; [vm_compute; reflexivity..|].
  eapply (dedup_exact sample_processor ltac:(done) (λ l, l) ltac:(done)).
  apply trace_exec. vm_compute. reflexivity.
Defined.

Lemma transition_settles_all_witness :
  let tr := trace_of (sample_world Ready (λ _, CallResponse 201 "" "") sample_retries)
    (ProcessOnTransition ∅ sample_url sample_jitter sample_decode sample_processor (λ l, l) 0 (λ _, 1%nat) "p1" Ready)
    0 sample_state in
  length (fetched (topic_of tr)) = 3%nat ∧ (settled (topic_of tr)).*1 ≡ₚ fetched (topic_of tr).
Proof.
  cbv zeta. split; [vm_compute; reflexivity|].
  apply (transition_settles_all ∅ sample_url sample_jitter sample_decode sample_processor ltac:(done) (λ l, l)
    ltac:(done) 0 (λ _, 1%nat) "p1" Ready _ (Val None)).
  apply trace_exec. vm_compute. reflexivity.
Defined.

Lemma restart_settles_retries_witness :
  let tr := trace_of (sample_world Unhealthy (λ _, CallPanic) [mkMsg 4 "create"])
    (drainRetryTopicWithDedup ∅ sample_url sample_jitter sample_decode sample_processor (λ l, l) 0 (λ _, 1%nat))
    0 sample_state in
  settled (topic_of tr) = [(mkMsg 4 "create", DNakDelay storeErrorRetryDelay)] ∧
  (settled (topic_of tr)).*1 ≡ₚ fetched (topic_of tr).
Proof.
  cbv zeta. split; [vm_compute; reflexivity|].
  apply (restart_settles_retries ∅ sample_url sample_jitter sample_decode sample_processor ltac:(done) (λ l, l)
    ltac:(done) 0 (λ _, 1%nat) _ (Val None)).
  apply trace_exec. vm_compute. reflexivity.
Defined.

Lemma transition_item_justified_witness :
  let item := mkParsed (mkMsg 1 "create") (mkCE "r1" "vm" "e1" TypeRequestCreate None) in
  let tr := trace_of (sample_world Ready (λ _, CallResponse 400 "bad" "") [])
    (processTransitionItem ∅ sample_url sample_jitter sample_processor 1 sample_provider item) 0 sample_state in
  length (calls (ledger_of tr)) = 1%nat ∧
  item_outcome (mkMsg 1 "create") (pm_ce item) (ledger_of tr) (Val tt).
Proof.
  cbv zeta. split; [vm_compute; reflexivity|].
  apply (transition_item_justified ∅ sample_url sample_jitter sample_processor ltac:(done) 1 sample_provider
    (mkParsed (mkMsg 1 "create") (mkCE "r1" "vm" "e1" TypeRequestCreate None))).
  apply trace_exec. vm_compute. reflexivity.
Defined.
