(* ===== verification/Discipline.v ===== *)
(** * Quiet programs

    Most of the helper programs of the router and the retry processor touch
    neither the in-flight lock, the claimed set and the deny list nor a
    provider.  Any monitor that ignores the other operations is left alone by
    them; the concurrency and cancellation proofs share these lemmas. *)

From S2P Require Import Prelude GoStrings Provider FileStore Json Effects Routing Topics Retry.

Definition quiet (o : op) : bool :=
  match o with
  | St (LockAdd _ | LockRemove _ | ClaimAdd _ | ClaimRemove _ | ClaimContains _
        | DenyAdd _ | DenyConsume _ | DenyContains _) => false
  | Ex (CallStart _ | CallEnd _) => false
  | _ => true
  end.

(** A monitor that ignores quiet operations. *)
Class QuietMonitor {S : Type} (δ : S → ∀ o : op, resp o → option S) : Prop :=
  quiet_ignored g o r : quiet o = true → δ g o r = Some g.

Section Quiet.
Context {S : Type} (δ : S → ∀ o : op, resp o → option S) `{HQ : !QuietMonitor δ}.

Lemma keeps_quiet_st g o : quiet (St o) = true → keeps δ g (st o).
Proof using HQ. intros H. apply keeps_st. intros r. by apply HQ. Qed.
Lemma keeps_quiet_ex g o : quiet (Ex o) = true → keeps δ g (ex o).
Proof using HQ. intros H. apply keeps_ex. intros r. by apply HQ. Qed.

#[local] Hint Extern 0 (keeps _ _ (st _)) => apply keeps_quiet_st; reflexivity : discipline.
#[local] Hint Extern 0 (keeps _ _ (ex _)) => apply keeps_quiet_ex; reflexivity : discipline.

Context (dec : string → option Event) (r : Router) (pr : Processor).

Lemma keeps_PublishCE g n ty d : keeps δ g (PublishCE n ty d).
Proof. unfold PublishCE. keeps. Qed.
#[local] Hint Resolve keeps_PublishCE : discipline.

Lemma keeps_ResolveProvider g stype : keeps δ g (ResolveProvider stype).
Proof. unfold ResolveProvider. keeps. Qed.
#[local] Hint Resolve keeps_ResolveProvider : discipline.

Lemma keeps_publishCE g ty d : keeps δ g (publishCE r ty d).
Proof. unfold publishCE. keeps. Qed.
#[local] Hint Resolve keeps_publishCE : discipline.

Lemma keeps_msg_do g m d : keeps δ g (msg_do m d).
Proof. unfold msg_do. keeps. Qed.
#[local] Hint Resolve keeps_msg_do : discipline.

Lemma keeps_retryPublishCE g ty d : keeps δ g (retryPublishCE pr ty d).
Proof. unfold retryPublishCE. keeps. Qed.
#[local] Hint Resolve keeps_retryPublishCE : discipline.

Lemma keeps_fetch g ctx s c : keeps δ g (fetchAllFromConsumer pr ctx s c).
Proof.
  assert (∀ n pending l, keeps δ g (fetch_loop n ctx s c pending l)) as Hl.
  { intros n pending. induction n as [|n IH]; intros l; simpl; keeps. }
  unfold fetchAllFromConsumer. keeps.
Qed.
#[local] Hint Resolve keeps_fetch : discipline.

Lemma keeps_fetchRetry g ctx : keeps δ g (fetchRetry pr ctx).
Proof. unfold fetchRetry. keeps. Qed.
#[local] Hint Resolve keeps_fetchRetry : discipline.

Lemma keeps_parseMessages g msgs : keeps δ g (parseMessages dec msgs).
Proof. induction msgs as [|m msgs IH]; simpl; keeps. Qed.
#[local] Hint Resolve keeps_parseMessages : discipline.

Lemma keeps_dedup g order items : keeps δ g (dedupCreateDeletePairs pr order items).
Proof. unfold dedupCreateDeletePairs. keeps. Qed.
#[local] Hint Resolve keeps_dedup : discipline.

Lemma keeps_heartbeat g ms : keeps δ g (heartbeatAllMsgs ms).
Proof. unfold heartbeatAllMsgs. keeps. Qed.
#[local] Hint Resolve keeps_heartbeat : discipline.

Lemma keeps_requeue g m b : keeps δ g (requeueToRetryTopic pr m b).
Proof. unfold requeueToRetryTopic. keeps. Qed.
#[local] Hint Resolve keeps_requeue : discipline.

(** The acknowledgement functions of the fetched messages are harmless. *)
Definition harmless (m : RetryMessage) : Prop := ∀ g, keeps δ g (AckFunc m) ∧ keeps δ g (NakFunc m).

Lemma FetchRetryMessages_harmless g ctx :
  mwp δ (FetchRetryMessages dec pr ctx) g
    (λ g' x, g' = g ∧ ∀ ms, x = Val (Ok ms) → Forall harmless ms).
Proof.
  assert (∀ msgs, mwp δ (retry_messages dec msgs) g
    (λ g' x, g' = g ∧ ∀ ms, x = Val ms → Forall harmless ms)) as Hms.
  { induction msgs as [|m msgs IH]; simpl; [split; [done|]; by intros ? [= <-]|].
    destruct (parseCE dec (m_data m)).
    - apply mwp_fbind. eapply mwp_mono; [|exact IH]. intros g' [ms|] [-> Hms]; [|done].
      split; [done|]. intros ? [= <-]. constructor; [|by apply Hms]. intros g'. split; by apply keeps_quiet_ex.
    - apply mwp_fbind. eapply mwp_mono; [|apply keeps_msg_do]. intros g' [[]|] ->; [exact IH|done]. }
  unfold FetchRetryMessages. apply mwp_fbind. eapply mwp_mono; [|apply keeps_fetchRetry].
  intros g' [[msgs [e|]]|] ->; [by split| |by split]. apply mwp_fbind.
  eapply mwp_mono; [|apply Hms]. intros g' [ms|] [-> Hms']; [|done].
  split; [done|]. intros ? [= <-]. by apply Hms'.
Qed.

Lemma keeps_purge g rid ms : Forall harmless ms → keeps δ g (purge_loop rid ms).
Proof.
  induction 1 as [|m ms Hm _ IH]; simpl; [done|]. destruct (Hm g) as [Ha Hn]. keeps; done.
Qed.

Lemma keeps_purgeFromRetryTopic g ctx rid :
  keeps δ g (purgeFromRetryTopic (FetchRetryMessages dec pr) ctx rid).
Proof.
  unfold purgeFromRetryTopic. apply mwp_fbind. eapply mwp_mono; [|apply FetchRetryMessages_harmless].
  intros g' [[ms|e]|] [-> Hms]; [|done..]. apply keeps_purge. by apply Hms.
Qed.

End Quiet.

#[export] Hint Resolve keeps_PublishCE keeps_ResolveProvider keeps_publishCE keeps_msg_do
  keeps_retryPublishCE keeps_fetch keeps_fetchRetry keeps_parseMessages keeps_dedup keeps_heartbeat
  keeps_requeue keeps_purgeFromRetryTopic : discipline.
#[export] Hint Extern 0 (QuietMonitor _) => typeclasses eauto : discipline.
