(* ===== verification/Messaging.v ===== *)
(** * Messaging client

    Models the message handling of internal/messaging: one delivered message
    with its acknowledgement, redelivery and panic recovery (handlers.go), the
    client's configuration, the drain of the cancel topic and the delay between
    reconnections (client.go).  The life cycle of the client is in [Client]. *)

From S2P Require Import Prelude GoStrings Backoff Provider FileStore Json Effects Routing Topics Samples RouterSpec.

(** ** handlers.go *)

Definition DefaultNakDelay : Z := 500 * Millisecond.

Record ClientConfig := mkClientConfig {
  cc_URL : string;
  cc_TopicName : string;
  cc_AgentName : string;
  cc_AckWait : Z;
  cc_CancelAckWait : Z;
  cc_MaxDeliver : Z;
  cc_HandlerTimeout : Z;
  cc_CancelHandlerTimeout : Z;
  cc_NakDelay : Z;
  cc_ReconnectInitialBackoff : Z;
  cc_ReconnectMaxBackoff : Z;
  cc_DeferConsume : bool
}.

(** *** extractLogFields *)

(** Envelope members: id, type and raw data, and whether one had the wrong kind. *)
Definition set_envelope (e : string * string * option json * bool) (m : string * json)
  : string * string * option json * bool :=
  let '(id, ty, data, bad) := e in
  let '(k, v) := m in
  if key_matches "id" k then let '(s, b) := set_string id v in (s, ty, data, bad || b)
  else if key_matches "type" k then let '(s, b) := set_string ty v in (id, s, data, bad || b)
  else if key_matches "data" k then (id, ty, Some v, bad)
  else e.

Definition set_resource (rid : string) (m : string * json) : string :=
  if key_matches "resource_id" m.1 then (set_string rid m.2).1 else rid.

(** The resource id found in a payload, whatever else is wrong with it. *)
Definition payload_resource (data : option json) : string :=
  match data with
  | Some (JObject ms) => fold_left set_resource ms ""
  | _ => ""
  end.

(** [parsed]: the message as JSON, [None] when it is not. *)
Definition extractLogFields (parsed : option json) : string * string * string :=
  let fields :=
    match parsed with
    | Some JNull => Some ("", "", None)
    | Some (JObject ms) =>
        let '(id, ty, data, bad) := fold_left set_envelope ms ("", "", None, false) in
        if bad then None else Some (id, ty, data)
    | _ => None
    end in
  match fields with
  | None => ("", "unknown", "unknown")
  | Some (id, ty, data) =>
      (payload_resource data, if id =s? "" then "unknown" else id, if ty =s? "" then "unknown" else ty)
  end.

Section Handlers.
Context (parse_json : string → option json).
Context (cfg : ClientConfig) (topics : TopicNames).

Definition nakDelay : Z := if 0 <? cc_NakDelay cfg then cc_NakDelay cfg else DefaultNakDelay.

Definition max_deliver_error (msg : Msg) : CEData :=
  ErrorData (mkRC (extractLogFields (parse_json (m_data msg))).1.1 (cc_AgentName cfg) (Main topics))
    ErrorMaxDeliveryExceeded (mkDetails "max delivery attempts exceeded" None).

Definition publishMaxDeliverError (msg : Msg) : fun_ unit :=
  _ ← PublishCE (cc_AgentName cfg) TypeError (max_deliver_error msg); fret tt.

Definition settle (msg : Msg) (d : disposition) : fun_ unit := _ ← ex (MsgDo msg d); fret tt.

(** The handler's answer decides between redelivery and acknowledgement. *)
Definition settle_by (msg : Msg) (handler : string → fun_ (option error)) : fun_ unit :=
  e ⇐ handler (m_data msg);
  match e with
  | Some _ => settle msg (DNakDelay nakDelay)
  | None => settle msg DAck
  end.

(** [recover] in the deferred function: a panic becomes a redelivery. *)
Definition recovering (msg : Msg) (body : fun_ unit) : prog unit :=
  x ← body;
  match x with
  | Val _ => mret tt
  | Panicked => _ ← ex (MsgDo msg (DNakDelay nakDelay)); mret tt
  end.

Definition handleCancelMessage (cancelHandler : string → fun_ (option error)) (msg : Msg) : prog unit :=
  recovering msg (settle_by msg cancelHandler).

Definition handleMainMessage (mainHandler : string → fun_ (option error)) (msg : Msg) : prog unit :=
  recovering msg
    (if 0 <? cc_MaxDeliver cfg then
       meta ⇐ lift (ex (MsgMetadata msg));
       match meta with
       | Err _ => settle msg DNak
       | Ok numDelivered =>
           if cc_MaxDeliver cfg <=? numDelivered then
             publishMaxDeliverError msg ;⇐ settle msg DTerm
           else settle_by msg mainHandler
       end
     else settle_by msg mainHandler).

(** [drainCancelTopic]; [rounds] bounds the fetches the drain timeout allows. *)
Fixpoint drainCancelTopic (rounds : nat) (ctx : nat) (cancelHandler : string → fun_ (option error))
  : prog unit :=
  match rounds with
  | O => mret tt
  | Datatypes.S n =>
      c ← st (CtxErr ctx);
      match c with
      | Some _ => mret tt
      | None =>
          b ← ex (FetchBatch RequestStreamName (CancelConsumer topics) 100);
          match b with
          | Err _ =>
              d ← st (CtxOrTimer ctx (200 * Millisecond));
              match d with
              | Some _ => mret tt
              | None => drainCancelTopic n ctx cancelHandler
              end
          | Ok (msgs, _) =>
              _ ← foldr (λ m rest, handleCancelMessage cancelHandler m ≫= λ _, rest) (mret tt) msgs;
              if (length msgs =? 0)%nat then mret tt else drainCancelTopic n ctx cancelHandler
          end
      end
  end.

(** [reconnectDelay] with the jitter of [ApplyJitter] as an argument. *)
Definition reconnectDelay (jitter : Z → Z) (attempts : Z) : Z :=
  let initial := if cc_ReconnectInitialBackoff cfg <=? 0 then Second else cc_ReconnectInitialBackoff cfg in
  let maxWait := if cc_ReconnectMaxBackoff cfg <=? 0 then 30 * Second else cc_ReconnectMaxBackoff cfg in
  jitter (CalculateBackoff initial maxWait attempts).

End Handlers.

(** *** A delivered request is settled exactly once *)

Section MainMessage.
Context (eh : gset string) (url : bool → string → string → result string) (jit : Z → Z).
Context (dec : string → option Event) (parse_json : string → option json).
Context (r : Router) (cfg : ClientConfig) (topics : TopicNames).
Context (Hname : rt_agentName r ≠ "") (Hcfg : cc_AgentName cfg ≠ "").

(** What the router did to a request it acknowledges. *)
Definition answered (msg : string) (l : ledger) : Prop :=
  match parseRequestCE dec msg with
  | None => ces l = [] ∧ calls l = []
  | Some (isCreate, p) =>
      if (pl_ResourceID p =s? "") || (pl_ServiceType p =s? "")
      then ces l = [(TypeError, invalid_payload r)] ∧ calls l = []
      else
        (isCreate = true ∧ denied l = true ∧ ces l = [] ∧ calls l = []) ∨
        (denied l = false ∧ ∃ ce, ces l = [ce] ∧ justified isCreate (pl_ResourceID p) l ce)
  end.

Lemma forward_effect_disps isCreate p l l' x : forward_effect r isCreate p l l' x → disps l' = disps l.
Proof. by destruct 1. Qed.

Lemma router_answer ctx msg :
  mwp δ_ledger (HandleRequest eh url jit dec r ctx msg) ledger0
    (λ l x, disps l = [] ∧ match x with
            | Val None => answered msg l
            | _ => ces l = [] ∧ ¬ accepted (calls l)
            end).
Proof using Hname.
  eapply mwp_mono; [|by apply HandleRequest_spec]. intros l x H. cbv beta in H. unfold answered.
  destruct (parseRequestCE dec msg) as [[isCreate p]|]; [|by destruct H as [-> ->]].
  destruct ((pl_ResourceID p =s? "") || (pl_ServiceType p =s? "")); [by destruct H as [-> ->]|].
  split; [destruct H; try done; by eapply forward_effect_disps in H|].
  by apply handled_answer in H.
Qed.

Lemma answered_disps msg l ds : answered msg (add_disps l ds) ↔ answered msg l.
Proof. unfold answered. done. Qed.

Lemma settle_spec msg d l (Q : ledger → exc unit → Prop) :
  Q (add_disps l [(m_handle msg, d)]) (Val tt) → mwp δ_ledger (settle msg d) l Q.
Proof. intros HQ. simpl. done. Qed.

(** How often the broker says the message was delivered: the answer to the
    question the handler asks first, if it asks. *)
Definition delivery (tr : list event) : option (result Z) :=
  match tr with
  | existT (Ex (MsgMetadata _)) n :: _ => Some n
  | _ => None
  end.

(** There is no delivery limit, or it is not reached. *)
Definition within_limit (tr : list event) : Prop :=
  0 < cc_MaxDeliver cfg → ∃ n, delivery tr = Some (Ok n) ∧ n < cc_MaxDeliver cfg.

(** What was done with the message, and why. *)
Definition settled_as (msg : Msg) (tr : list event) (d : disposition) : Prop :=
  let l := ledger_of tr in
  match d with
  | DAck => within_limit tr ∧ answered (m_data msg) l
  | DNakDelay t => within_limit tr ∧ t = nakDelay cfg ∧ ces l = [] ∧ ¬ accepted (calls l)
  | DNak => 0 < cc_MaxDeliver cfg ∧ (∃ e, delivery tr = Some (Err e)) ∧ ces l = [] ∧ calls l = []
  | DTerm => 0 < cc_MaxDeliver cfg ∧ (∃ n, delivery tr = Some (Ok n) ∧ cc_MaxDeliver cfg ≤ n) ∧
             ces l = [(TypeError, max_deliver_error parse_json cfg topics msg)] ∧ calls l = []
  | DInProgress => False
  end.

(** A message within the limit is settled by the router's answer. *)
Lemma settle_by_spec ctx msg :
  mwp δ_ledger (recovering cfg msg (settle_by cfg msg (HandleRequest eh url jit dec r ctx))) ledger0
    (λ l _, ∃ d, disps l = [(m_handle msg, d)] ∧
       match d with
       | DAck => answered (m_data msg) l
       | DNakDelay t => t = nakDelay cfg ∧ ces l = [] ∧ ¬ accepted (calls l)
       | _ => False
       end).
Proof using Hname.
  unfold recovering. apply mwp_bind, mwp_fbind. eapply mwp_mono; [|apply router_answer].
  intros l [[e|]|] [Hd Ha]; [apply settle_spec|apply settle_spec|]; simpl; rewrite ?Hd.
  - by exists (DNakDelay (nakDelay cfg)).
  - by exists DAck.
  - intros _. by exists (DNakDelay (nakDelay cfg)).
Qed.

(** C2: every delivery of a request message is settled exactly once, on every
    execution, panics of in-process providers included.  It is acknowledged only
    when the router answered it (see [answered]), and scheduled for redelivery
    after the configured delay only when it was answered by nobody and accepted
    by no provider; both only while the broker's delivery count is below the
    limit, if there is one.  It is terminated exactly when the count has reached
    the limit, with one error event and no call; and handed back at once, with
    no event and no call, when the broker does not give the count. *)
Theorem main_message_settled_once ctx msg tr :
  exec (handleMainMessage parse_json cfg topics (HandleRequest eh url jit dec r ctx) msg) tr tt →
  ∃ d, disps (ledger_of tr) = [(m_handle msg, d)] ∧ settled_as msg tr d.
Proof using Hname Hcfg.
  intros He. unfold handleMainMessage in He. destruct (0 <? cc_MaxDeliver cfg) eqn:Emd; breflect.
  - apply exec_inv in He as (n & tr' & -> & He).
    change (ledger_of (ev (Ex (MsgMetadata msg)) n :: tr')) with (ledger_of tr'). destruct n as [n|e].
    + cbn in He. destruct (cc_MaxDeliver cfg <=? n) eqn:En; breflect.
      * revert He. unfold publishMaxDeliverError, PublishCE, FormatSource. rewrite bool_decide_eq_false_2 by done. intros He.
        apply exec_inv in He as (e & tr1 & -> & He). apply exec_inv in He as (e' & tr2 & -> & He). apply exec_inv in He as [-> _].
        exists DTerm. split; [done|]. split_and!; [done|by exists n|done..].
      * destruct (ledger_exec _ _ _ _ (settle_by_spec ctx msg) He) as (d & Hd & H). exists d. split; [done|].
        assert (within_limit (ev (Ex (MsgMetadata msg)) (Ok n) :: tr')) as Hw by (intros _; by exists n).
        unfold settled_as. change (ledger_of (ev (Ex (MsgMetadata msg)) (Ok n) :: tr')) with (ledger_of tr'). by destruct d.
    + apply exec_inv in He as (e' & tr1 & -> & He). apply exec_inv in He as [-> _].
      exists DNak. split; [done|]. split_and!; [done|by exists e|done..].
  - destruct (ledger_exec _ _ _ _ (settle_by_spec ctx msg) He) as (d & Hd & H). exists d. split; [done|].
    assert (within_limit tr) as Hw by (intros ?; lia). unfold settled_as. by destruct d.
Qed.

End MainMessage.

(** A create that panics in its provider is scheduled for redelivery. *)
Lemma main_message_settled_once_witness :
  let cfg := mkClientConfig "nats://nats" "" "agent" 0 0 5 0 0 0 0 0 false in
  let tr := trace_of (sample_world Ready (λ _, CallPanic) [])
    (handleMainMessage (λ _, None) cfg sample_topics
       (HandleRequest ∅ sample_url sample_jitter sample_decode sample_router 0) (mkMsg 7 "create")) 0 sample_state in
  disps (ledger_of tr) = [(7%nat, DNakDelay DefaultNakDelay)] ∧
  ∃ d, disps (ledger_of tr) = [(7%nat, d)] ∧ settled_as sample_decode (λ _, None) sample_router cfg sample_topics (mkMsg 7 "create") tr d.
Proof.
  cbv zeta. split; [vm_compute; reflexivity|].
  apply (main_message_settled_once ∅ sample_url sample_jitter sample_decode (λ _, None) sample_router
    (mkClientConfig "nats://nats" "" "agent" 0 0 5 0 0 0 0 0 false) sample_topics ltac:(done) ltac:(done) 0 (mkMsg 7 "create")).
  apply trace_exec. vm_compute. reflexivity.
Defined.
