(* ===== verification/Interleaving.v ===== *)
(** * Concurrent handlers

    The message handlers, health-transition goroutines and the restart drain
    run concurrently on one in-flight lock, claimed set and deny list.  This
    file shows that every handler follows the lock discipline and that,
    therefore, in every interleaving of any number of them, a resource is never
    the subject of two provider calls at once and no lock is left behind. *)

From S2P Require Import Prelude GoStrings Sets Backoff Provider FileStore Json Effects Routing Topics Retry Samples RouterSpec Discipline Messaging.

(** ** The discipline as a monitor

    State: the lock held, if any, and whether a provider call is outstanding. *)

Definition lock_state : Type := option (string * bool).

Definition δ_lock (g : lock_state) (o : op) : resp o → option lock_state :=
  match o with
  | St (LockAdd id) => λ r,
      match g with
      | None => Some (if r : bool then Some (id, false) else None)
      | Some _ => None
      end
  | St (LockRemove id) => λ _,
      match g with
      | Some (id', false) => if id' =s? id then Some None else None
      | _ => None
      end
  | Ex (CallStart c) => λ _,
      match g with
      | Some (id, false) => if id =s? c_ResourceID c then Some (Some (id, true)) else None
      | _ => None
      end
  | Ex (CallEnd c) => λ _,
      match g with
      | Some (id, true) => if id =s? c_ResourceID c then Some (Some (id, false)) else None
      | _ => None
      end
  | _ => λ _, Some g
  end.

Definition disciplined {A} (p : prog A) : Prop := keeps δ_lock None p.

#[export] Instance lock_quiet : QuietMonitor δ_lock.
Proof. intros g [[]|[]] r; done. Qed.

(** A critical section: the lock is taken, its body keeps it, it is released. *)
Lemma locked_section {A} rid (body : fun_ A) (busy : fun_ A) :
  keeps δ_lock (Some (rid, false)) body → keeps δ_lock None busy →
  keeps δ_lock None (ok ← st (LockAdd rid); if ok : bool then deferred (λ _, st (LockRemove rid)) body else busy).
Proof.
  intros Hb Hbusy. apply mwp_st. intros [|]; [|exact Hbusy].
  apply mwp_deferred. eapply mwp_mono; [|exact Hb]. intros g' x ->. simpl. intros _.
  by rewrite bool_decide_eq_true_2.
Qed.

(** ** The handlers follow the discipline *)

Section Handlers.
Context (eh : gset string) (url : bool → string → string → result string) (jit : Z → Z).
Context (dec : string → option Event) (parse_json : string → option json).

Lemma keeps_doRequest rid c : c_ResourceID c = rid → keeps δ_lock (Some (rid, false)) (doRequest c).
Proof.
  intros <-. unfold doRequest. apply mwp_ex. intros []. simpl. rewrite bool_decide_eq_true_2 by done.
  simpl. intros x. rewrite bool_decide_eq_true_2 by done. by destruct x.
Qed.

Lemma keeps_forward ctx sp p pol :
  keeps δ_lock (Some (fp_ResourceID p, false)) (ForwardWithRetry eh url jit ctx sp p pol).
Proof.
  assert (keeps δ_lock (Some (fp_ResourceID p, false)) (ForwardToSP eh url sp p)).
  { unfold ForwardToSP, callEmbedded, callExternal. keeps; by apply keeps_doRequest. }
  unfold ForwardWithRetry. generalize (Z.to_nat (attempts pol)), 0, (@None error).
  intros n. induction n as [|n IH]; intros att lst; simpl; keeps.
Qed.

Section Router.
Context (r : Router).

Lemma keeps_forwardWithRetry ctx sp c p : keeps δ_lock None (forwardWithRetry eh url jit r ctx sp c p).
Proof.
  apply locked_section; [|done]. unfold forward_claimed.
  pose proof (keeps_forward ctx sp
    (mkParams (pl_ResourceID p) (pl_ServiceType p) (pl_Spec p) (pl_EventID p) c) (rt_policy r)).
  keeps.
Qed.
Hint Resolve keeps_forwardWithRetry : discipline.

Lemma keeps_HandleRequest ctx msg : keeps δ_lock None (HandleRequest eh url jit dec r ctx msg).
Proof. unfold HandleRequest. keeps. Qed.

End Router.

Section Processor.
Context (pr : Processor) (Hlock : pr_inFlight pr = true).

Lemma keeps_forwardRequest ctx sp res : keeps δ_lock None (forwardRequest eh url jit pr ctx sp res).
Proof using Hlock.
  unfold forwardRequest. rewrite Hlock. destruct (negb (pr_forwarder pr)); [keeps|].
  apply locked_section; [|done]. unfold forwardRequest_locked, publishAckCE.
  pose proof (keeps_forward ctx sp (mkParams (cr_resourceID res) (cr_serviceType res) (cr_spec res)
    (cr_eventID res) (negb (cr_ceType res =s? TypeRequestDelete))) (pr_policy pr)).
  keeps.
Qed.
Hint Resolve keeps_forwardRequest : discipline.

Lemma keeps_routeMessage ctx m res b : keeps δ_lock None (routeMessage eh url jit pr ctx m res b).
Proof using Hlock. unfold routeMessage. keeps. Qed.
Hint Resolve keeps_routeMessage : discipline.

Lemma keeps_transitionItem ctx sp i : keeps δ_lock None (processTransitionItem eh url jit pr ctx sp i).
Proof using Hlock. unfold processTransitionItem. keeps. Qed.
Hint Resolve keeps_transitionItem : discipline.

Lemma keeps_RunTransition stopped order ctx ctxs id to :
  keeps δ_lock None (RunTransition eh url jit dec pr stopped order ctx ctxs id to).
Proof using Hlock.
  unfold RunTransition, ProcessOnTransition, processTransitionItems, heartbeatAll. keeps.
Qed.

Lemma keeps_ProcessOnRestart order ctx ctxs :
  keeps δ_lock None (ProcessOnRestart eh url jit dec pr order ctx ctxs).
Proof using Hlock.
  unfold ProcessOnRestart, drainCancelsToDenyList, drainMainTopic, drainRetryTopicWithDedup, heartbeatAll.
  keeps.
Qed.

Lemma keeps_HandleCancel r ctx msg :
  rt_retryConsumer r = Some (FetchRetryMessages dec pr) → keeps δ_lock None (HandleCancel dec r ctx msg).
Proof.
  intros Hr. unfold HandleCancel. rewrite Hr. keeps.
Qed.

End Processor.

Lemma keeps_recovering cfg msg body : keeps δ_lock None body → keeps δ_lock None (recovering cfg msg body).
Proof. intros H. unfold recovering. keeps. Qed.

Lemma keeps_settle_by cfg msg h : keeps δ_lock None (h (m_data msg)) → keeps δ_lock None (settle_by cfg msg h).
Proof. intros H. unfold settle_by, settle. keeps. Qed.

(** ** The jobs of the agent *)

(** The router is wired to the processor's retry consumer and the processor to
    the router's in-flight lock, as main.go does. *)
Context (r : Router) (cfg : ClientConfig) (topics : TopicNames) (pr : Processor).
Context (Hrc : rt_retryConsumer r = Some (FetchRetryMessages dec pr)).
Context (Hlock : pr_inFlight pr = true).

Inductive agent_job : prog unit → Prop :=
  | job_main ctx msg :
      agent_job (handleMainMessage parse_json cfg topics (HandleRequest eh url jit dec r ctx) msg)
  | job_cancel ctx msg :
      agent_job (handleCancelMessage cfg (HandleCancel dec r ctx) msg)
  | job_transition stopped order ctx ctxs id to :
      agent_job (RunTransition eh url jit dec pr stopped order ctx ctxs id to)
  | job_restart order ctx ctxs :
      agent_job (_ ← ProcessOnRestart eh url jit dec pr order ctx ctxs; mret tt).

Lemma agent_job_disciplined p : agent_job p → disciplined p.
Proof using Hrc Hlock.
  unfold disciplined. destruct 1.
  - apply keeps_recovering. pose proof (keeps_HandleRequest r ctx (m_data msg)).
    assert (keeps δ_lock None (settle_by cfg msg (HandleRequest eh url jit dec r ctx))) by by apply keeps_settle_by.
    unfold publishMaxDeliverError, settle. keeps.
  - by apply keeps_recovering, keeps_settle_by, keeps_HandleCancel with pr.
  - by apply keeps_RunTransition.
  - apply keeps_mbind; [by apply keeps_ProcessOnRestart|done].
Qed.

(** ** Mutual exclusion *)

Definition held (gs : list lock_state) : list string := omap (λ g, fst <$> g) gs.

Record pool_ok (c : Config) (gs : list lock_state) : Prop := {
  po_threads : Forall2 (λ p g, mwp δ_lock p g (λ g' _, g' = None)) (cf_threads c) gs;
  po_lock : inFlight (cf_shared c) = list_to_set (held gs);
  po_nodup : NoDup (held gs)
}.

Lemma held_middle l1 g l2 : held (l1 ++ g :: l2) = held l1 ++ option_list (fst <$> g) ++ held l2.
Proof. unfold held. rewrite omap_app. simpl. by destruct g as [[]|]. Qed.

(** Operations other than the two on the lock leave it alone. *)
Lemma op_step_lock w n o s x s' :
  op_step w n o s = Some (x, s') →
  match o with
  | St (LockAdd _) | St (LockRemove _) => True
  | _ => inFlight s' = inFlight s
  end.
Proof.
  destruct o as [[]|]; simpl; try done; intros H; repeat case_match; by simplify_eq/=.
Qed.

(** One operation of one handler, on its slice of the ghost state. *)
Lemma lock_op w n o s x s' l1 g l2 g' :
  op_step w n o s = Some (x, s') → δ_lock g o x = Some g' →
  inFlight s = list_to_set (held (l1 ++ g :: l2)) → NoDup (held (l1 ++ g :: l2)) →
  inFlight s' = list_to_set (held (l1 ++ g' :: l2)) ∧ NoDup (held (l1 ++ g' :: l2)).
Proof.
  intros Hop Hδ Hin Hnd. pose proof (op_step_lock _ _ _ _ _ _ Hop) as Hsame.
  assert ((fst <$> g' = fst <$> g ∧ inFlight s' = inFlight s) →
    inFlight s' = list_to_set (held (l1 ++ g' :: l2)) ∧ NoDup (held (l1 ++ g' :: l2))) as Hframe.
  { intros [Hg ->]. rewrite !held_middle, Hg, <-held_middle. done. }
  rewrite held_middle in Hin, Hnd. destruct o as [[id|id| | | | | | | | | | ]|[]]; simpl in *;
    try (apply Hframe; by simplify_eq).
  - destruct g; [done|]. unfold KeyLock.AddIfAbsent in Hop. rewrite held_middle. simpl in *.
    case_decide as Hid; simplify_eq/=; [done|].
    assert (id ∉ held l1 ++ held l2) by set_solver.
    rewrite Hin. split; [set_solver|]. rewrite <-Permutation_middle. by apply NoDup_cons.
  - destruct g as [[id' []]|]; try done. simplify_eq/=. case_bool_decide; [|done]. simplify_eq/=.
    rewrite held_middle. simpl. rewrite <-Permutation_middle, NoDup_cons in Hnd. destruct Hnd as [Hn Hnd].
    split; [|done]. unfold KeyLock.Remove. rewrite Hin. set_solver.
  - destruct g as [[id' []]|]; try done. case_bool_decide; [|done]. apply Hframe. by simplify_eq/=.
  - destruct g as [[id' []]|]; try done. case_bool_decide; [|done]. apply Hframe. by simplify_eq/=.
Qed.

Lemma pool_step_ok w jobs c c' gs :
  (∀ p, jobs p → disciplined p) → pool_step w jobs c c' → pool_ok c gs → ∃ gs', pool_ok c' gs'.
Proof.
  intros Hjobs Hstep [Hth Hin Hnd]. destruct Hstep as [p c Hp|i o k x s' c Hi Hop].
  - exists (gs ++ [None]). assert (held (gs ++ [None]) = held gs) as Hh.
    { unfold held. rewrite omap_app. simpl. apply app_nil_r. }
    split; simpl; rewrite ?Hh; [|done..]. apply Forall2_app; [done|]. constructor; [|done]. by apply Hjobs.
  - destruct (Forall2_lookup_l _ _ _ _ _ Hth Hi) as (g & Hg & Hm). specialize (Hm x).
    destruct (δ_lock g o x) as [g'|] eqn:Eδ; [|done].
    apply list_elem_of_split_length in Hg as (l1 & l2 & -> & Hlen).
    destruct (lock_op _ _ _ _ _ _ _ _ _ _ Hop Eδ Hin Hnd) as [Hin' Hnd'].
    exists (l1 ++ g' :: l2). split; simpl; [|done..].
    replace (l1 ++ g' :: l2) with (<[i:=g']> (l1 ++ g :: l2)).
    + by apply Forall2_insert.
    + subst i. by rewrite insert_app_r_alt, Nat.sub_diag by lia.
Qed.

Lemma pool_reach_ok w jobs c0 c :
  (∀ p, jobs p → disciplined p) → inFlight (cf_shared c0) = ∅ → cf_threads c0 = [] →
  pool_reach w jobs c0 c → ∃ gs, pool_ok c gs.
Proof.
  intros Hjobs H0 Ht0. induction 1 as [|c c' _ [gs IH] Hstep]; [|by eapply pool_step_ok].
  exists []. split; [rewrite Ht0; constructor|by rewrite H0|constructor].
Qed.

(** A handler waiting for a provider holds the lock of the resource. *)
Lemma waiting_holds c gs i cl k :
  pool_ok c gs → cf_threads c !! i = Some (Do (Ex (CallEnd cl)) k) →
  gs !! i = Some (Some (c_ResourceID cl, true)).
Proof.
  intros [Hth _ _] Hi. destruct (Forall2_lookup_l _ _ _ _ _ Hth Hi) as (g & Hg & Hm).
  etrans; [exact Hg|]. specialize (Hm CallPanic). simpl in Hm.
  destruct g as [[id []]|]; try done. case_bool_decide; [|done]. by subst.
Qed.

Lemma held_distinct gs i j a b :
  NoDup (held gs) → gs !! i = Some (Some a) → gs !! j = Some (Some b) → i ≠ j → a.1 ≠ b.1.
Proof.
  revert i j. induction gs as [|g gs IH]; intros i j Hnd Hi Hj Hne Hab; [done|].
  assert (∀ n x, gs !! n = Some (Some x) → x.1 ∈ held gs) as Hin.
  { intros n x Hn. apply list_elem_of_omap. exists (Some x). split; [by eapply list_elem_of_lookup_2|done]. }
  change (g :: gs) with ([] ++ g :: gs) in Hnd. rewrite held_middle in Hnd. simpl in Hnd.
  apply NoDup_app in Hnd as (_ & Hd & Hnd).
  destruct i as [|i], j as [|j]; simpl in *; simplify_eq/=.
  - apply (Hd a.1); [left|]. rewrite Hab. by eapply Hin.
  - apply (Hd b.1); [left|]. rewrite <-Hab. by eapply Hin.
  - apply (IH i j Hnd Hi Hj); [congruence|done].
Qed.

(** C3: in every interleaving of any number of message handlers (request and
    cancel), health transitions and restart drains, two provider calls that are
    outstanding at the same time are for different resources, the resource of
    every outstanding call is locked, and when all handlers have finished no
    resource is left locked (whatever the providers answer, panics included). *)
Theorem in_flight_exclusive w c0 c :
  inFlight (cf_shared c0) = ∅ → cf_threads c0 = [] → pool_reach w agent_job c0 c →
  (∀ i j ci cj ki kj, i ≠ j →
     cf_threads c !! i = Some (Do (Ex (CallEnd ci)) ki) →
     cf_threads c !! j = Some (Do (Ex (CallEnd cj)) kj) → c_ResourceID ci ≠ c_ResourceID cj) ∧
  (∀ i ci ki, cf_threads c !! i = Some (Do (Ex (CallEnd ci)) ki) →
     c_ResourceID ci ∈ inFlight (cf_shared c)) ∧
  (Forall (λ p, p = Ret tt) (cf_threads c) → inFlight (cf_shared c) = ∅).
Proof using Hrc Hlock.
  intros H0 Ht0 Hreach.
  destruct (pool_reach_ok w agent_job c0 c agent_job_disciplined H0 Ht0 Hreach) as [gs Hok].
  pose proof Hok as [Hth Hin Hnd]. split_and!.
  - intros i j ci cj ki kj Hne Hi Hj.
    apply (held_distinct gs i j (c_ResourceID ci, true) (c_ResourceID cj, true)); [done| | |done];
      by eapply waiting_holds.
  - intros i ci ki Hi. rewrite Hin, elem_of_list_to_set. apply list_elem_of_omap.
    exists (Some (c_ResourceID ci, true)). split; [|done].
    eapply list_elem_of_lookup_2. by eapply waiting_holds.
  - intros Hret. rewrite Hin. replace (held gs) with (@nil string); [done|].
    clear Hin Hnd Hok. induction Hth as [|p g ps gs Hp _ IH]; [done|].
    apply Forall_cons in Hret as [-> Hret]. simpl in Hp. subst g. simpl. by apply IH.
Qed.

End Handlers.

(** Two deliveries of one create, interleaved: while the first waits for the
    provider the second is turned away. *)
Definition sample_cfg : ClientConfig := mkClientConfig "nats://nats" "" "agent" 0 0 0 0 0 0 0 0 false.

Definition sample_delivery (h : nat) : prog unit :=
  handleMainMessage (λ _, None) sample_cfg sample_topics
    (HandleRequest ∅ sample_url sample_jitter sample_decode sample_router 0) (mkMsg h "create").

Definition sample_two_deliveries : Config :=
  after (sample_world Ready (λ _, CallResponse 201 "" "") [])
    [0; 0; 0; 0; 0; 0; 0; 0; 1; 1; 1; 1; 1; 1]%nat
    (mkConfig sample_state [sample_delivery 1; sample_delivery 2] 0 []).

Lemma in_flight_exclusive_witness :
  let c := sample_two_deliveries in
  (∃ k, cf_threads c !! 0%nat = Some (Do (Ex (CallEnd (mkCall true false "http://vms?id=r1" "r1" "vm"
      (Some (JString "small")) "e1"))) k)) ∧
  cf_threads c !! 1%nat = Some (Ret tt) ∧
  (∀ i ci ki, cf_threads c !! i = Some (Do (Ex (CallEnd ci)) ki) →
     c_ResourceID ci ∈ inFlight (cf_shared c)).
Proof.
  cbv zeta. split_and!; [vm_compute; by eexists|vm_compute; reflexivity|].
  apply (in_flight_exclusive ∅ sample_url sample_jitter sample_decode (λ _, None) sample_router sample_cfg
    sample_topics sample_processor eq_refl eq_refl (sample_world Ready (λ _, CallResponse 201 "" "") [])
    (mkConfig sample_state [] 0 []) sample_two_deliveries); [reflexivity|reflexivity|].
  eapply pool_reach_trans; [eapply reach_next; [eapply reach_next; [constructor|]|]|].
  - apply step_spawn, (job_main _ _ _ _ _ _ _ _ _ 0 (mkMsg 1 "create")).
  - apply step_spawn, (job_main _ _ _ _ _ _ _ _ _ 0 (mkMsg 2 "create")).
  - apply after_reach. vm_compute. reflexivity.
Defined.
