(* ===== verification/Cancel.v ===== *)
(** * Cancellation

    The cancel protocol of internal/routing/router.go over the retry consumer
    of internal/routing/retry/processor.go: a cancel is answered once and
    purges the retry topic of its resource and of nothing else; a cancel that
    was acknowledged stops a later create; a create that a provider accepted
    makes later cancels fail; and the interleaving in which a cancel and a
    create that run concurrently are both acknowledged. *)

From S2P Require Import Prelude GoStrings Sets Backoff Provider FileStore Json Effects Routing Topics Retry Samples RouterSpec RetrySpec Discipline Messaging Interleaving.

(** A cancel event and its payload, as [HandleCancel] reads them. *)
Definition cancel_request (dec : string → option Event) (msg : string) : option payload :=
  match dec msg with
  | Some event => if ce_type event =s? TypeRequestCancel then unmarshal_payload true (ce_data event) else None
  | None => None
  end.

(** ** A cancel is answered once *)

Section Answer.
Context (dec : string → option Event) (r : Router) (pr : Processor).
Context (Hname : rt_agentName r ≠ "") (Hrc : rt_retryConsumer r = Some (FetchRetryMessages dec pr)).

Definition retry_of (i : parsedMessage) : RetryMessage :=
  mkRetryMessage (cr_resourceID (pm_ce i)) (cr_serviceType (pm_ce i))
    (ex (MsgDo (pm_msg i) DAck)) (ex (MsgDo (pm_msg i) (DNakDelay storeErrorRetryDelay))).

Lemma retry_messages_spec msgs g (Q : topic_log → exc (list RetryMessage) → Prop) :
  Q (add_settled g ((λ m, (m, DTerm)) <$> malformed_of dec msgs)) (Val (retry_of <$> parsed_of dec msgs)) →
  mwp δ_topic (retry_messages dec msgs) g Q.
Proof.
  revert g Q. unfold parsed_of, malformed_of. induction msgs as [|m msgs IH]; intros g Q HQ; simpl.
  { by rewrite add_settled_nil in HQ. }
  rewrite filter_cons in HQ. simpl in HQ. destruct (parseCE dec (m_data m)) as [ce|]; simpl in HQ.
  - by apply mwp_fbind, IH.
  - apply mwp_fbind, msg_do_spec. simpl. apply IH. by rewrite add_settled_app.
Qed.

(** What a cancel of [rid] does to a message of the retry topic. *)
Definition purge_item (rid : string) (i : parsedMessage) : Msg * disposition :=
  (pm_msg i, if cr_resourceID (pm_ce i) =s? rid then DAck else DNakDelay storeErrorRetryDelay).

Definition purge_verdict (rid : string) (m : Msg) : Msg * disposition :=
  match parseCE dec (m_data m) with
  | Some ce => purge_item rid (mkParsed m ce)
  | None => (m, DTerm)
  end.

Lemma purge_all rid msgs :
  ((λ m, (m, DTerm)) <$> malformed_of dec msgs) ++ (purge_item rid <$> parsed_of dec msgs) ≡ₚ
  purge_verdict rid <$> msgs.
Proof.
  unfold malformed_of, parsed_of. induction msgs as [|m msgs IH]; [done|]. rewrite filter_cons.
  simpl. unfold purge_verdict at 1. destruct (parseCE dec (m_data m)) as [ce|]; simpl; [|by rewrite IH].
  by rewrite <-Permutation_middle, IH.
Qed.

Lemma purge_loop_spec rid items g :
  mwp δ_topic (purge_loop rid (retry_of <$> items)) g
    (λ g' x, match x with
       | Val None => g' = add_settled g (purge_item rid <$> items)
       | Val (Some _) => ∃ ds, g' = add_settled g ds
       | Panicked => False
       end).
Proof.
  revert g. induction items as [|i items IH]; intros g; simpl; [by rewrite add_settled_nil|].
  unfold purge_item at 1. case_match; simpl; (intros [e|]; simpl; [by eexists|]);
    (eapply mwp_mono; [|apply IH]); (intros g' [[e|]|] H'; [destruct H' as [ds ->]; eexists|rewrite H'|done]);
    by rewrite add_settled_app.
Qed.

(** The purge: the verdicts on all messages fetched, unless it fails. *)
Lemma purge_spec ctx rid g :
  mwp δ_topic (purgeFromRetryTopic (FetchRetryMessages dec pr) ctx rid) g
    (λ g' x, ∃ ms k ds, g' = add_settled (add_fetched g ms k) ds ∧
       match x with
       | Val None => ds ≡ₚ purge_verdict rid <$> ms
       | Val (Some _) => True
       | Panicked => False
       end).
Proof.
  unfold purgeFromRetryTopic, FetchRetryMessages. apply mwp_fbind, mwp_fbind.
  eapply mwp_mono; [|apply fetchRetry_spec]. intros g1 x (ms & e & k & -> & ->). destruct e as [e|].
  { exists ms, k, []. by rewrite add_settled_nil. }
  apply mwp_fbind, retry_messages_spec. simpl. eapply mwp_mono; [|apply purge_loop_spec].
  intros g' [[e|]|] H; try done.
  - destruct H as [ds ->]. rewrite add_settled_app. eauto.
  - rewrite H, add_settled_app. exists ms, k. eexists; split; [done|]. apply purge_all.
Qed.

(** The outcomes of a cancel. *)
Definition cancel_outcome (msg : string) (g : topic_log) (x : exc (option error)) : Prop :=
  match cancel_request dec msg with
  | None => x = Val None ∧ g = topic_log0
  | Some p =>
      if (pl_ResourceID p =s? "") || (pl_ServiceType p =s? "")
      then x = Val None ∧ g = add_sent topic_log0 [(TypeError, invalid_payload r)]
      else
        (x = Val None ∧ g = add_sent topic_log0 [(TypeCancelRejected,
           CancelRejectedData (responseCtx r (pl_ResourceID p)) "resource already claimed")]) ∨
        (x = Val None ∧ denies g = [pl_ResourceID p] ∧
         sent g = [(TypeCancelAcked, CancelAckData (responseCtx r (pl_ResourceID p)) (pl_ServiceType p))] ∧
         settled g ≡ₚ purge_verdict (pl_ResourceID p) <$> fetched g) ∨
        (∃ e, x = Val (Some e) ∧ denies g = [pl_ResourceID p] ∧ sent g = [])
  end.

Lemma publishCE_topic ty d g (Q : topic_log → exc unit → Prop) :
  Q (add_sent g [(ty, d)]) (Val tt) → mwp δ_topic (publishCE r ty d) g Q.
Proof using Hname.
  intros HQ. unfold publishCE, PublishCE, FormatSource. rewrite bool_decide_eq_false_2 by done. by intros e.
Qed.

Lemma HandleCancel_spec ctx msg : mwp δ_topic (HandleCancel dec r ctx msg) topic_log0 (cancel_outcome msg).
Proof using Hname Hrc.
  unfold HandleCancel, cancel_outcome, cancel_request. destruct (dec msg) as [event|]; [|done].
  destruct (ce_type event =s? TypeRequestCancel); [|done]. simpl.
  destruct (unmarshal_payload true (ce_data event)) as [p|]; [|done].
  destruct ((pl_ResourceID p =s? "") || _); [by apply mwp_fbind, publishCE_topic|].
  apply mwp_st. intros [|]; ledger_step; [apply mwp_fbind, publishCE_topic; by left|].
  apply mwp_st. intros []. ledger_step. rewrite Hrc. apply mwp_fbind.
  eapply mwp_mono; [|apply purge_spec]. intros g' [[e|]|] (ms & k & ds & -> & Hds); [..|done].
  - right. right. by exists e.
  - apply mwp_fbind, publishCE_topic. right. left. done.
Qed.

(** *** How much of the queue was fetched *)












End Answer.


(** ** The shared sets in a run *)

(** The changes to the claimed set recorded in a trace. *)
Definition claim_event (o : op) : resp o → list (string * option bool) :=
  match o with
  | St (ClaimAdd id) => λ x, [(id, Some x)]
  | St (ClaimRemove id) => λ _, [(id, None)]
  | _ => λ _, []
  end.

Fixpoint claims_of (tr : list event) : list (string * option bool) :=
  match tr with
  | [] => []
  | existT o x :: tr' => claim_event o x ++ claims_of tr'
  end.

Lemma claims_ledger tr : claims (ledger_of tr) = claims_of tr.
Proof.
  assert (∀ l, ∃ l', observe δ_ledger l tr = Some l' ∧ claims l' = claims l ++ claims_of tr) as H.
  { induction tr as [|[o x] tr IH]; intros l; simpl; [exists l; by rewrite app_nil_r|].
    assert (∃ l1, δ_ledger l o x = Some l1 ∧ claims l1 = claims l ++ claim_event o x) as (l1 & -> & Hl1).
    { destruct o as [[]|[]]; simpl; eexists; (split; [done|]); simpl; by rewrite ?app_nil_r. }
    destruct (IH l1) as (l' & -> & Hl'). exists l'. split; [done|]. by rewrite Hl', Hl1, app_assoc. }
  unfold ledger_of. destruct (H ledger0) as (l' & -> & Hl'). done.
Qed.

(** Membership after recorded changes to one id. *)
Definition member_after (before : Prop) (ks : list (string * option bool)) : Prop :=
  match last ks with
  | None => before
  | Some (_, Some _) => True
  | Some (_, None) => False
  end.

Lemma member_after_app P k1 k2 : member_after P (k1 ++ k2) = member_after (member_after P k1) k2.
Proof.
  unfold member_after. destruct (last k2) as [k|] eqn:E.
  - apply last_Some in E as [l ->]. by rewrite app_assoc, last_snoc.
  - apply last_None in E as ->. by rewrite app_nil_r.
Qed.

Lemma insert_elem id d : ResourceSet.wf d →
  (ResourceSet.insert id d).1 = negb (bool_decide (id ∈ ResourceSet.abs d)) ∧
  id ∈ ResourceSet.abs (ResourceSet.insert id d).2 ∧ ResourceSet.wf (ResourceSet.insert id d).2.
Proof.
  intros Hwf. destruct (ResourceSet.insert_refines d id Hwf) as (-> & -> & Hwf' & _).
  unfold LRU.insert. case_decide; simpl; split_and!; try done; try left.
  - by rewrite bool_decide_eq_true_2.
  - by rewrite bool_decide_eq_false_2.
Qed.

Lemma contains_elem id d : ResourceSet.wf d →
  (ResourceSet.Contains id d).1 = bool_decide (id ∈ ResourceSet.abs d) ∧
  (∀ x, x ∈ ResourceSet.abs (ResourceSet.Contains id d).2 ↔ x ∈ ResourceSet.abs d) ∧
  ResourceSet.wf (ResourceSet.Contains id d).2.
Proof.
  intros Hwf. destruct (ResourceSet.contains_refines d id Hwf) as (-> & -> & Hwf' & _). unfold LRU.contains.
  case_decide as Hid; simpl; split_and!; try done.
  - by rewrite bool_decide_eq_true_2.
  - intros x. rewrite elem_of_cons, LRU.elem_of_remove. destruct (decide (x = id)); naive_solver.
  - by rewrite bool_decide_eq_false_2.
Qed.

Lemma consume_elem id d : ResourceSet.wf d →
  (ResourceSet.Consume id d).1 = bool_decide (id ∈ ResourceSet.abs d) ∧
  (id ∉ ResourceSet.abs (ResourceSet.Consume id d).2) ∧ ResourceSet.wf (ResourceSet.Consume id d).2.
Proof.
  intros Hwf. destruct (ResourceSet.consume_refines d id Hwf) as (-> & -> & Hwf' & _). unfold LRU.consume.
  case_decide as Hid; simpl; split_and!; try done.
  - by rewrite bool_decide_eq_true_2.
  - rewrite LRU.elem_of_remove. naive_solver.
  - by rewrite bool_decide_eq_false_2.
Qed.

(** The answer of the first recorded addition tells whether [id] was there. *)
Definition truthful (id : string) (d : ResourceSet.t) (ks : list (string * option bool)) : Prop :=
  match ks with
  | (_, Some b) :: _ => b = negb (bool_decide (id ∈ ResourceSet.abs d))
  | _ => True
  end.

(** One operation, and then a run, on the claimed set. *)
Lemma step_claims w n o s x s1 id :
  ResourceSet.wf (claimed s) → op_step w n o s = Some (x, s1) → Forall (λ c, c.1 = id) (claim_event o x) →
  ResourceSet.wf (claimed s1) ∧ truthful id (claimed s) (claim_event o x) ∧
  (id ∈ ResourceSet.abs (claimed s1) ↔ member_after (id ∈ ResourceSet.abs (claimed s)) (claim_event o x)).
Proof.
  intros Hwf. destruct o as [o|o]; [|by intros [= <- <-]]. destruct o as [ | |i|i|i| | | | | |c|c d]; simpl.
  - destruct (KeyLock.AddIfAbsent id0 (inFlight s)) as [b k]. by intros [= <- <-].
  - by intros [= <- <-].
  - pose proof (insert_elem i (claimed s) Hwf) as Hi. unfold ResourceSet.AddIfAbsent.
    destruct (ResourceSet.insert i (claimed s)) as [b c]. intros [= <- <-] Hall.
    simpl in *. rewrite Forall_singleton in Hall. simpl in *. subst i. by destruct Hi as (-> & ? & ?).
  - pose proof (consume_elem i (claimed s) Hwf) as (_ & Hi & Hwf'). rewrite ResourceSet.Remove_Consume.
    intros [= <- <-] Hall. simpl in *. rewrite Forall_singleton in Hall. simpl in *. by subst i.
  - pose proof (contains_elem i (claimed s) Hwf) as (_ & Hi & Hwf').
    destruct (ResourceSet.Contains i (claimed s)) as [b c]. intros [= <- <-] _. simpl in *. done.
  - by intros [= <- <-].
  - destruct (ResourceSet.Consume id0 (deny s)). by intros [= <- <-].
  - destruct (ResourceSet.Contains id0 (deny s)). by intros [= <- <-].
  - destruct (retryMu s); [done|]. by intros [= <- <-].
  - by intros [= <- <-].
  - destruct (dead s !! c); [by intros [= <- <-]|]. destruct (out_ctx w n); by intros [= <- <-].
  - destruct (out_timer w n); by intros [= <- <-].
Qed.

Lemma run_claims {A} w (p : prog A) id n s a s' tr :
  ResourceSet.wf (claimed s) → run w p n s = Some (a, s', tr) → Forall (λ c, c.1 = id) (claims_of tr) →
  ResourceSet.wf (claimed s') ∧ truthful id (claimed s) (claims_of tr) ∧
  (id ∈ ResourceSet.abs (claimed s') ↔ member_after (id ∈ ResourceSet.abs (claimed s)) (claims_of tr)).
Proof.
  revert n s a s' tr. induction p as [x|o k IH]; intros n s a s' tr Hwf; simpl; [by intros [= <- <- <-]|].
  destruct (op_step w n o s) as [[x s1]|] eqn:Eo; [|done].
  destruct (run w (k x) (S n) s1) as [[[a1 s2] tr1]|] eqn:Er; [|done]. intros [= <- <- <-]. simpl.
  intros [Ho Hall]%Forall_app. destruct (step_claims _ _ _ _ _ _ _ Hwf Eo Ho) as (Hwf1 & Ht1 & H1).
  destruct (IH _ _ _ _ _ _ Hwf1 Er Hall) as (Hwf2 & Ht2 & H2). split_and!; [done| |].
  - destruct (claim_event o x) as [|k1 ks]; [|by destruct k1 as [? []]]. unfold truthful, member_after in *. simpl in *.
    destruct (claims_of tr1) as [|[? [b|]] ?]; [done|subst b|done]. by rewrite (bool_decide_ext _ _ H1).
  - rewrite H2, member_after_app. unfold member_after in *. by destruct (last (claims_of tr1)) as [[? []]|].
Qed.

(** Programs that leave both sets alone. *)
Definition δ_sets (g : unit) (o : op) (_ : resp o) : option unit := if quiet o then Some g else None.

#[export] Instance sets_quiet : QuietMonitor δ_sets.
Proof. intros [] o x Ho. unfold δ_sets. by rewrite Ho. Qed.

Lemma run_frame {A} w (p : prog A) n s a s' tr :
  keeps δ_sets tt p → run w p n s = Some (a, s', tr) → claimed s' = claimed s ∧ deny s' = deny s.
Proof.
  revert n s a s' tr. induction p as [x|o k IH]; intros n s a s' tr Hk; simpl; [by intros [= _ <- _]|].
  destruct (op_step w n o s) as [[x s1]|] eqn:Eo; [|done].
  destruct (run w (k x) (S n) s1) as [[[a1 s2] tr1]|] eqn:Er; [|done]. intros [= <- <- <-].
  specialize (Hk x). unfold δ_sets in Hk at 1. destruct (quiet o) eqn:Eq; [|done].
  destruct (IH _ _ _ _ _ _ Hk Er) as [-> ->].
  destruct o as [o|o]; [|by injection Eo as _ <-].
  destruct o; try done; simpl in Eo; repeat case_match; by simplify_eq/=.
Qed.

Lemma run_bind {A B} w (f : A → prog B) (p : prog A) n s b s' tr :
  run w (pbind f p) n s = Some (b, s', tr) →
  ∃ a s1 tr1 tr2, run w p n s = Some (a, s1, tr1) ∧ run w (f a) (n + length tr1) s1 = Some (b, s', tr2) ∧
    tr = tr1 ++ tr2.
Proof.
  revert n s tr. induction p as [x|o k IH]; intros n s tr; simpl.
  { intros H. exists x, s, [], tr. by rewrite Nat.add_0_r. }
  destruct (op_step w n o s) as [[x s1]|]; [|done].
  destruct (run w (pbind f (k x)) (S n) s1) as [[[b1 s2] tr0]|] eqn:Er; [|done]. intros [= <- <- <-].
  destruct (IH _ _ _ _ Er) as (a & s3 & tr1 & tr2 & -> & Hf & ->).
  exists a, s3, (ev o x :: tr1), tr2. simpl. by rewrite Nat.add_succ_r.
Qed.

(** ** The protocol *)

Section Protocol.
Context (eh : gset string) (url : bool → string → string → result string) (jit : Z → Z).
Context (dec : string → option Event) (r : Router) (pr : Processor).
Context (Hname : rt_agentName r ≠ "") (Hrc : rt_retryConsumer r = Some (FetchRetryMessages dec pr)).

(** After a request the resource is claimed exactly when it was before or a
    provider has accepted it. *)
Lemma claimed_iff_accepted w ctx msg isCreate p n s x s' tr :
  ResourceSet.wf (claimed s) → parseRequestCE dec msg = Some (isCreate, p) →
  pl_ResourceID p ≠ "" → pl_ServiceType p ≠ "" →
  run w (HandleRequest eh url jit dec r ctx msg) n s = Some (x, s', tr) →
  ResourceSet.wf (claimed s') ∧
  (pl_ResourceID p ∈ ResourceSet.abs (claimed s') ↔
   pl_ResourceID p ∈ ResourceSet.abs (claimed s) ∨ accepted (calls (ledger_of tr))).
Proof using Hname.
  intros Hwf Hp Hr Hs Hrun. pose proof (run_exec _ _ _ _ _ _ _ Hrun) as He.
  eapply ledger_exec in He; [|by apply HandleRequest_spec]. cbv beta in He. rewrite Hp in He.
  rewrite !bool_decide_eq_false_2 in He by done. simpl in He. apply handled_claims in He. rewrite claims_ledger in He.
  destruct He as [[Hc Hcalls]|(b & Hc & _)].
  - destruct (run_claims w _ (pl_ResourceID p) _ _ _ _ _ Hwf Hrun) as (Hwf' & _ & ->); [by rewrite Hc|].
    split; [done|]. rewrite Hc, Hcalls. unfold member_after. simpl. pose proof not_accepted_nil. naive_solver.
  - destruct (run_claims w _ (pl_ResourceID p) _ _ _ _ _ Hwf Hrun) as (Hwf' & Ht & ->).
    { rewrite Hc. constructor; [done|]. case_match; by repeat constructor. }
    split; [done|]. rewrite Hc in *. unfold truthful in Ht. rewrite <-acceptedb_spec.
    destruct (bool_decide_reflect (pl_ResourceID p ∈ ResourceSet.abs (claimed s))); subst b; simpl; [naive_solver|].
    destruct (acceptedb (calls (ledger_of tr))); unfold member_after; simpl; naive_solver.
Qed.

(** C6: once a provider has accepted a create, a cancel of the resource is
    rejected: handled next, whatever the outside answers, it completes, sends
    exactly one rejection, and leaves the deny list and the retry topic
    alone. *)
Theorem accepted_create_rejects_cancel w ctx msg isCreate p n s x s' tr w' ctx' cmsg q n' :
  ResourceSet.wf (claimed s) → parseRequestCE dec msg = Some (isCreate, p) →
  pl_ResourceID p ≠ "" → pl_ServiceType p ≠ "" →
  run w (HandleRequest eh url jit dec r ctx msg) n s = Some (x, s', tr) → accepted (calls (ledger_of tr)) →
  cancel_request dec cmsg = Some q → pl_ResourceID q = pl_ResourceID p → pl_ServiceType q ≠ "" →
  ∃ s'' tr', run w' (HandleCancel dec r ctx' cmsg) n' s' = Some (Val None, s'', tr') ∧
    topic_of tr' = add_sent topic_log0 [(TypeCancelRejected,
      CancelRejectedData (responseCtx r (pl_ResourceID p)) "resource already claimed")] ∧
    deny s'' = deny s'.
Proof using Hname.
  intros Hwf Hp Hr Hs Hrun Ha Hq Hrq Hsq.
  destruct (claimed_iff_accepted _ _ _ _ _ _ _ _ _ _ Hwf Hp Hr Hs Hrun) as [Hwf' Hin].
  assert (pl_ResourceID p ∈ ResourceSet.abs (claimed s')) as Hc by (apply Hin; by right).
  unfold cancel_request in Hq. unfold HandleCancel. destruct (dec cmsg) as [event|]; [|done].
  destruct (ce_type event =s? TypeRequestCancel); [|done]. simpl. rewrite Hq, Hrq.
  rewrite !bool_decide_eq_false_2 by done. simpl.
  destruct (contains_elem (pl_ResourceID p) (claimed s') Hwf') as (Hcon & _).
  destruct (ResourceSet.Contains (pl_ResourceID p) (claimed s')) as [b c]. simpl in Hcon. subst b.
  rewrite bool_decide_eq_true_2 by done. unfold publishCE, PublishCE, FormatSource.
  rewrite bool_decide_eq_false_2 by done. simpl. eauto.
Qed.

(** An acknowledged cancel leaves its resource on the deny list. *)
Lemma cancel_puts_deny w ctx cmsg q n s s' tr d :
  ResourceSet.wf (deny s) → run w (HandleCancel dec r ctx cmsg) n s = Some (Val None, s', tr) →
  cancel_request dec cmsg = Some q → sent (topic_of tr) = [(TypeCancelAcked, d)] →
  pl_ResourceID q ≠ "" ∧ ResourceSet.wf (deny s') ∧ pl_ResourceID q ∈ ResourceSet.abs (deny s').
Proof using Hname Hrc.
  intros Hwf Hrun Hq Hsent. pose proof (run_exec _ _ _ _ _ _ _ Hrun) as He.
  eapply topic_exec in He; [|by eapply HandleCancel_spec]. unfold cancel_outcome in He. rewrite Hq in He.
  destruct ((pl_ResourceID q =s? "") || (pl_ServiceType q =s? "")) eqn:Ee.
  { destruct He as [_ He]. by rewrite He in Hsent. }
  breflect. split; [done|]. unfold cancel_request in Hq. unfold HandleCancel in Hrun.
  destruct (dec cmsg) as [event|]; [|done]. destruct (ce_type event =s? TypeRequestCancel); [|done].
  simpl in Hrun. rewrite Hq in Hrun. rewrite !bool_decide_eq_false_2 in Hrun by done. simpl in Hrun.
  destruct (ResourceSet.Contains (pl_ResourceID q) (claimed s)) as [[|] c].
  { exfalso. unfold publishCE, PublishCE, FormatSource in Hrun. rewrite bool_decide_eq_false_2 in Hrun by done.
    simpl in Hrun. injection Hrun as <- <-. done. }
  simpl in Hrun. rewrite Hrc in Hrun.
  match type of Hrun with context [run ?w ?p ?n ?s] => destruct (run w p n s) as [[[a1 s1] tr1]|] eqn:Er end; [|done].
  injection Hrun as -> -> <-. apply run_frame in Er as [_ ->].
  { by destruct (insert_elem (pl_ResourceID q) (deny s) Hwf) as (_ & ? & ?). }
  unfold publishCE. keeps.
Qed.

(** C5: once a cancel has been acknowledged, the create it cancels is dropped:
    handled next, whatever the outside answers, it completes without calling a
    provider, sending an event or claiming the resource. *)
Theorem acked_cancel_drops_create w ctx cmsg q n s s' tr d w' ctx' msg p n' :
  ResourceSet.wf (deny s) → run w (HandleCancel dec r ctx cmsg) n s = Some (Val None, s', tr) →
  cancel_request dec cmsg = Some q → sent (topic_of tr) = [(TypeCancelAcked, d)] →
  parseRequestCE dec msg = Some (true, p) → pl_ResourceID p = pl_ResourceID q → pl_ServiceType p ≠ "" →
  ∃ s'' tr', run w' (HandleRequest eh url jit dec r ctx' msg) n' s' = Some (Val None, s'', tr') ∧
    ces (ledger_of tr') = [] ∧ calls (ledger_of tr') = [] ∧ claimed s'' = claimed s'.
Proof using Hname Hrc.
  intros Hwf Hrun Hq Hsent Hp Hr Hs.
  destruct (cancel_puts_deny _ _ _ _ _ _ _ _ _ Hwf Hrun Hq Hsent) as (Hne & Hwf' & Hin).
  unfold HandleRequest. rewrite Hp, Hr. rewrite !bool_decide_eq_false_2 by done. simpl.
  destruct (consume_elem (pl_ResourceID q) (deny s') Hwf') as (Hcon & _).
  destruct (ResourceSet.Consume (pl_ResourceID q) (deny s')) as [b c]. simpl in Hcon. subst b.
  rewrite bool_decide_eq_true_2 by done. simpl. by do 2 eexists.
Qed.

End Protocol.

Lemma accepted_create_rejects_cancel_witness :
  let w := sample_world Ready (λ _, CallResponse 201 "" "") [] in
  let s' := state_after w (HandleRequest ∅ sample_url sample_jitter sample_decode sample_router 0 "create") 0 sample_state in
  ∃ s'' tr', run w (HandleCancel sample_decode sample_router 0 "cancel") 0 s' = Some (Val None, s'', tr') ∧
    topic_of tr' = add_sent topic_log0 [(TypeCancelRejected,
      CancelRejectedData (responseCtx sample_router "r1") "resource already claimed")] ∧
    deny s'' = deny s'.
Proof.
  cbv zeta.
  apply (accepted_create_rejects_cancel ∅ sample_url sample_jitter sample_decode sample_router ltac:(done)
    (sample_world Ready (λ _, CallResponse 201 "" "") []) 0 "create" true
    (mkPayload "r1" "vm" (Some (JString "small")) "e1") 0 sample_state (Val None) _
    (trace_of (sample_world Ready (λ _, CallResponse 201 "" "") [])
       (HandleRequest ∅ sample_url sample_jitter sample_decode sample_router 0 "create") 0 sample_state)
    _ 0 "cancel" (mkPayload "r1" "vm" (Some (JString "small")) ""));
    [apply ResourceSet.NewResourceSet_wf|reflexivity|done|done| | |reflexivity|reflexivity|done].
  - apply run_eq. vm_compute. reflexivity.
  - apply acceptedb_spec. vm_compute. reflexivity.
Defined.

Lemma acked_cancel_drops_create_witness :
  let w := sample_world Ready (λ _, CallResponse 201 "" "") [] in
  let s' := state_after w (HandleCancel sample_decode sample_router 0 "cancel") 0 sample_state in
  ∃ s'' tr', run w (HandleRequest ∅ sample_url sample_jitter sample_decode sample_router 0 "create") 0 s' =
      Some (Val None, s'', tr') ∧
    ces (ledger_of tr') = [] ∧ calls (ledger_of tr') = [] ∧ claimed s'' = claimed s'.
Proof.
  cbv zeta.
  eapply (acked_cancel_drops_create ∅ sample_url sample_jitter sample_decode sample_router sample_processor
    ltac:(done) eq_refl (sample_world Ready (λ _, CallResponse 201 "" "") []) 0 "cancel"
    (mkPayload "r1" "vm" (Some (JString "small")) "") 0 sample_state _
    (trace_of (sample_world Ready (λ _, CallResponse 201 "" "") [])
       (HandleCancel sample_decode sample_router 0 "cancel") 0 sample_state) _ _ 0 "create"
    (mkPayload "r1" "vm" (Some (JString "small")) "e1"));
    [apply ResourceSet.NewResourceSet_wf| |reflexivity| |reflexivity|reflexivity|done].
  - apply run_eq. vm_compute. reflexivity.
  - vm_compute. reflexivity.
Defined.

(** ** Races and leaks

    Interleavings and runs in which the protocol does not do what its comments
    intend. *)

(** The response events of a trace of a pool. *)
Definition events_of (c : Config) : list CEType :=
  omap (λ e, match e.2 with existT (Ex (EmitCE ty _)) _ => Some ty | _ => None end) (cf_trace c).

Definition sample_cancel (h : nat) : prog unit :=
  handleCancelMessage sample_cfg (HandleCancel sample_decode sample_router 0) (mkMsg h "cancel").

(** The cancel looks at the claimed set, then the create runs to its end, then
    the cancel goes on. *)
Definition race_schedule : list nat := ([1] ++ replicate 12 0 ++ replicate 7 1)%nat.

(** The deny-list check that forwarding repeats after claiming does not
    exclude a concurrent cancel: there is an interleaving of one create and one
    cancel of a resource in which the provider is called, and both the creation
    and the cancellation are acknowledged to the control plane. *)
Theorem cancel_create_race :
  let w := sample_world Ready (λ _, CallResponse 201 "" "") [] in
  let c0 := mkConfig sample_state [sample_delivery 1; sample_cancel 2] 0 [] in
  let c := after w race_schedule c0 in
  runnable w race_schedule c0 = true ∧ cf_threads c = [Ret tt; Ret tt] ∧
  events_of c = [TypeCreationAcked; TypeCancelAcked].
Proof. vm_compute. split_and!; reflexivity. Qed.

Definition sample_transition : prog unit :=
  RunTransition ∅ sample_url sample_jitter sample_decode sample_processor false (λ l, l) 0 (λ _, 1%nat) "p1" Ready.

(** The retry processor reads cancel events as requests and forwards
    everything that is not a delete as a create: a cancel event found on the
    retry topic makes the agent call the provider to create the resource and
    acknowledge a creation (the router drops such an event). *)
Theorem retry_forwards_cancel_as_create :
  let tr := trace_of (sample_world Ready (λ _, CallResponse 201 "" "") [mkMsg 1 "cancel"])
    sample_transition 0 sample_state in
  c_create ∘ fst <$> calls (ledger_of tr) = [true] ∧ (ces (ledger_of tr)).*1 = [TypeCreationAcked] ∧
  run (sample_world Ready (λ _, CallResponse 201 "" "") [])
    (HandleRequest ∅ sample_url sample_jitter sample_decode sample_router 0 "cancel") 0 sample_state =
  Some (Val None, sample_state, []).
Proof. vm_compute. split_and!; reflexivity. Qed.

(** The same deployment with an in-process provider. *)
Definition embedded_provider : StoredProvider :=
  mkStoredProvider "p1" "vms" "" "vm" "v1alpha1" None None "" "embedded" 0 0.

Definition embedded_world (answer : nat → call_result) (retries : list Msg) : Outside := {|
  out_ext n o :=
    match o with
    | StoreByName _ => Ok (Some embedded_provider)
    | StoreByID _ => Ok (Some embedded_provider)
    | o => out_ext (sample_world Ready answer retries) n o
    end;
  out_ctx _ := None;
  out_timer _ := true
|}.

Definition embedded_transition : prog unit :=
  RunTransition {["vm"]} sample_url sample_jitter sample_decode sample_processor false (λ l, l) 0 (λ _, 1%nat) "p1" Ready.

(** The retry processor gives its claim back when a forward fails but not
    when it panics (the router does both): after a transition in which an
    in-process provider panicked, no provider has accepted the resource, yet
    its cancel is rejected as already claimed. *)
Theorem retry_panic_leaks_claim :
  let w := embedded_world (λ _, CallPanic) [mkMsg 1 "create"] in
  let tr := trace_of w embedded_transition 0 sample_state in
  let s := state_after w embedded_transition 0 sample_state in
  (calls (ledger_of tr)).*2 = [CallPanic] ∧ inFlight s = ∅ ∧
  (sent (topic_of (trace_of w (HandleCancel sample_decode sample_router 0 "cancel") 0 s))).*1 = [TypeCancelRejected].
Proof. vm_compute. split_and!; reflexivity. Qed.
