(* ===== verification/Dcm.v ===== *)
(** * Registration with the control plane

    Models internal/dcm: the HTTP client (client.go), the token sources
    (token.go) and the registrar goroutine with its supervisor
    (registrar.go). *)

From S2P Require Import Prelude GoStrings Backoff Json.

(** ** client.go *)

(** [capacity] abstracts the optional resource capacity, passed through. *)
Record registrationPayload := mkRegistration {
  rp_Name : string; rp_Environment : string; rp_Cost : string; rp_TopicName : string;
  rp_ServiceTypes : list string;
  rp_ResourcesAvailable : option json
}.

Record heartbeatPayload := mkHeartbeat { hp_Timestamp : Z; hp_ConsumerLag : Z }.

(** An HTTP response: status code, Retry-After header (empty when absent) and
    the first JSON value of the body ([None] when there is none). *)
Record Response := mkResponse { StatusCode : Z; RetryAfterHeader : string; Body : option json }.

(** Decoding of [registrationResponse]. *)
Definition decode_agent_id (body : option json) : result string :=
  match body with
  | Some JNull => Ok ""
  | Some (JObject ms) =>
      let '(id, bad) := fold_left (λ st m,
        if key_matches "agent_id" m.1 then let '(s, b) := set_string st.1 m.2 in (s, st.2 || b) else st)
        ms ("", false) in
      if bad then Err (ENew "json: cannot unmarshal") else Ok id
  | _ => Err (ENew "json: cannot unmarshal")
  end.

Section Client.
(** [http.ParseTime]. *)
Context (http_ParseTime : string → option Z).

Definition is_success (code : Z) : bool := (200 <=? code) && (code <? 300).

Definition handleRegistrationResponse (now : Z) (resp : Response) : result string :=
  if is_success (StatusCode resp) then
    match decode_agent_id (Body resp) with
    | Err e => Err (EWrap "decode registration response" e)
    | Ok id => if id =s? "" then Err (ENew "DCM returned empty agent_id") else Ok id
    end
  else if StatusCode resp =? 429 then
    if RetryAfterHeader resp =s? "" then Err (ERateLimit 0 false)
    else
      match ParseRetryAfter http_ParseTime (RetryAfterHeader resp) now with
      | (d, true) => Err (ERateLimit d true)
      | (_, false) => Err (ERateLimit 0 false)
      end
  else if (400 <=? StatusCode resp) && (StatusCode resp <? 500) then
    Err (EWrap ("registration rejected (HTTP " +:+ pretty (StatusCode resp) +:+ ")") ENonRetryable)
  else Err (ENew ("registration failed (HTTP " +:+ pretty (StatusCode resp) +:+ ")")).

(** The Authorization header; [token] is the answer of the token source, if
    there is one. *)
Definition setAuthHeader (token : option (result string)) : result (option string) :=
  match token with
  | None => Ok None
  | Some (Err e) => Err (EWrap "obtain auth token" e)
  | Some (Ok t) => Ok (if t =s? "" then None else Some ("Bearer " +:+ t))
  end.

(** [register] and [heartbeat], from the answers of the token source and of
    the HTTP client. *)
Definition register (now : Z) (token : option (result string)) (answer : result Response) : result string :=
  match setAuthHeader token with
  | Err e => Err (EWrap "registration" e)
  | Ok _ =>
      match answer with
      | Err e => Err (EWrap "registration request failed" e)
      | Ok resp => handleRegistrationResponse now resp
      end
  end.

Definition heartbeat (token : option (result string)) (answer : result Response) : option error :=
  match setAuthHeader token with
  | Err e => Some (EWrap "heartbeat" e)
  | Ok _ =>
      match answer with
      | Err e => Some (EWrap "heartbeat request failed" e)
      | Ok resp =>
          if is_success (StatusCode resp) then None
          else Some (ENew ("heartbeat failed (HTTP " +:+ pretty (StatusCode resp) +:+ ")"))
      end
  end.

End Client.

(** ** token.go *)

Definition defaultExpiryDelta : Z := 10 * Second.

Record ClientCredentialsTokenSource := mkTokenSource {
  expiryDelta : Z;
  accessToken : string;
  expiry : Z
}.

Definition NewClientCredentialsTokenSource : ClientCredentialsTokenSource :=
  mkTokenSource defaultExpiryDelta "" time_zero.

(** How the OAuth2 library ends a token request: a token with its expiry, an
    error response (status, code, description), or another error. *)
Inductive token_answer :=
  | Token (access : string) (exp : Z)
  | RetrieveError (status : Z) (code description : string)
  | TokenFailure (e : error).

Definition retrieve_error (status : Z) (code description : string) : error :=
  let prefix := "token endpoint returned HTTP " +:+ pretty status in
  if negb (code =s? "") && negb (description =s? "") then ENew (prefix +:+ ": " +:+ code +:+ ": " +:+ description)
  else if negb (code =s? "") then ENew (prefix +:+ ": " +:+ code)
  else ENew prefix.

(** [now]: the clock when the answer is checked. *)
Definition fetchToken (now : Z) (a : token_answer) : result (string * Z) :=
  match a with
  | RetrieveError status code description => Err (retrieve_error status code description)
  | TokenFailure e => Err (EWrap "token request failed" e)
  | Token access exp =>
      if time_is_zero exp || negb (now <? exp) then Err (ENew "token endpoint returned invalid expires_in")
      else Ok (access, exp)
  end.

(** [Token] under its mutex: [now] is the clock on entry, [now'] the clock when
    a fetched token is checked, [a] the answer if one is fetched. *)
Definition GetToken (now now' : Z) (a : token_answer) (c : ClientCredentialsTokenSource)
  : result string * ClientCredentialsTokenSource :=
  if negb (accessToken c =s? "") && (now <? expiry c - expiryDelta c) then (Ok (accessToken c), c)
  else
    match fetchToken now' a with
    | Err e => (Err (EWrap "fetching client-credentials token" e), c)
    | Ok (token, exp) => (Ok token, mkTokenSource (expiryDelta c) token exp)
    end.

(** A call of [Token]: the two clock readings and the endpoint's answer. *)
Definition token_call : Type := Z * Z * token_answer.

Definition token_source_after (calls : list token_call) : ClientCredentialsTokenSource :=
  fold_left (λ c '(now, now', a), (GetToken now now' a c).2) calls NewClientCredentialsTokenSource.

(** What the cache holds was issued by the endpoint. *)
Lemma token_cached calls :
  let c := token_source_after calls in
  expiryDelta c = defaultExpiryDelta ∧
  (accessToken c = "" ∨ ∃ now now', (now, now', Token (accessToken c) (expiry c)) ∈ calls).
Proof.
  unfold token_source_after. induction calls as [|[[now now'] a] calls IH] using rev_ind; [by split; [|left]|].
  cbn zeta in *. rewrite fold_left_app. simpl. set (c := fold_left _ calls _) in *. destruct IH as [Hd IH].
  assert (∀ now now', (now, now', Token (accessToken c) (expiry c)) ∈ calls →
    (now, now', Token (accessToken c) (expiry c)) ∈ calls ++ [(now, now', a)]) by set_solver.
  assert (expiryDelta c = defaultExpiryDelta ∧ (accessToken c = "" ∨
    ∃ now1 now2, (now1, now2, Token (accessToken c) (expiry c)) ∈ calls ++ [(now, now', a)])) as Hkeep.
  { split; [done|]. destruct IH as [|(n1 & n2 & Hin)]; [by left|]. right. exists n1, n2. set_solver. }
  unfold GetToken. destruct (_ && _); [done|]. destruct a as [access exp|st code d|e]; [|done..].
  simpl. destruct (time_is_zero exp || _); [done|]. simpl. split; [done|]. right. exists now, now'. set_solver.
Qed.

(** A token handed to a request is never expired: it was issued by the
    token endpoint with an expiry that lies in the future, and when it comes
    from the cache there are more than ten seconds left; whatever the calls
    made before, their clocks and the endpoint's answers. *)
Theorem token_fresh calls now now' a t c' :
  GetToken now now' a (token_source_after calls) = (Ok t, c') →
  (∃ exp, a = Token t exp ∧ now' < exp) ∨
  (∃ n1 n2 exp, (n1, n2, Token t exp) ∈ calls ∧ now < exp - defaultExpiryDelta).
Proof.
  pose proof (token_cached calls) as [Hd Hc]. unfold GetToken.
  destruct (negb (accessToken (token_source_after calls) =s? "") && _) eqn:E.
  - intros [= <- <-]. breflect. destruct Hc as [|(n1 & n2 & Hin)]; [done|]. right.
    exists n1, n2, (expiry (token_source_after calls)). rewrite Hd in *. auto.
  - destruct a as [access exp|st code d|e]; [|done..]. simpl.
    destruct (time_is_zero exp || negb (now' <? exp)) eqn:Ex; [done|]. intros [= <- _]. left.
    exists exp. breflect. done.
Qed.

Lemma token_fresh_witness :
  GetToken 5 5 (TokenFailure EForwardInFlight) (token_source_after [(1, 2, Token "t" (60 * Second))]) =
    (Ok "t", mkTokenSource defaultExpiryDelta "t" (60 * Second)) ∧
  ((∃ exp, TokenFailure EForwardInFlight = Token "t" exp ∧ 5 < exp) ∨
   (∃ n1 n2 exp, (n1, n2, Token "t" exp) ∈ [(1, 2, Token "t" (60 * Second))] ∧ 5 < exp - defaultExpiryDelta)).
Proof.
  split; [vm_compute; reflexivity|].
  apply (token_fresh [(1, 2, Token "t" (60 * Second))] 5 5 (TokenFailure EForwardInFlight) "t"
    (mkTokenSource defaultExpiryDelta "t" (60 * Second))). vm_compute. reflexivity.
Defined.

(** ** registrar.go *)

Module Registrar.

Record RegistrarConfig := mkConfig {
  AgentName : string; Environment : string; Cost : string; TopicName : string;
  InitialBackoff : Z; MaxBackoff : Z;
  HasResourceProvider : bool
}.

(** Where the registrar goroutine is.  [re]: in [reRegister] rather than in
    [doRegistration]; [attempt] is the loop's counter. *)
Inductive phase :=
  | Supervise                                                        (* top of runSupervised's loop *)
  | Gate                                                             (* top of run's prerequisite loop *)
  | GateWait                                                         (* its select *)
  | Attempt (re : bool) (attempt : Z)                                (* top of registerWithRetry's loop *)
  | Sending (re : bool) (attempt : Z) (p : registrationPayload)      (* inside client.register *)
  | Waiting (re : bool) (attempt : Z) (wait : Z)                     (* its select *)
  | Idle                                                             (* run's event loop *)
  | Blocked                                                          (* run's final receive on ctx.Done *)
  | PanicDelay                                                       (* runSupervised's select *)
  | Exited.

(** [notifyCh]: the one-slot channel holds a notification; [ctxDone]: the
    context is cancelled. *)
Record t := mk {
  agentID : string;
  registered : bool;
  notifyCh : bool;
  ctxDone : bool;
  at_ : phase
}.

Definition NewRegistrar : t := mk "" false false false Supervise.

Definition goto (p : phase) (r : t) : t := mk (agentID r) (registered r) (notifyCh r) (ctxDone r) p.
Definition take_notification (r : t) : t := mk (agentID r) (registered r) false (ctxDone r) (at_ r).

Definition NotifyServiceTypeChange (r : t) : t := mk (agentID r) (registered r) true (ctxDone r) (at_ r).
Definition cancel (r : t) : t := mk (agentID r) (registered r) (notifyCh r) true (at_ r).
Definition AgentID (r : t) : string * bool := (agentID r, registered r).

(** Which case a select takes. *)
Inductive pick := PickDone | PickNotify | PickTimer.

(** Answers of the outside to the goroutine's next action: the lister ([None]
    when it returns nil), the resource provider, the token source and the
    control plane, the consumer lag, the clock, the jitter, the select case
    taken, and whether the action panics. *)
Record Env := mkEnv {
  e_types : option (list string);
  e_capacity : option json;
  e_token : option (result string);
  e_answer : result Response;
  e_lag : Z;
  e_now : Z;
  e_jitter : Z → Z;
  e_pick : pick;
  e_panic : bool
}.

(** What the control plane sees. *)
Inductive output :=
  | Sent (p : registrationPayload)
  | Accepted (p : registrationPayload) (id : string)
  | Heartbeat (id : string) (p : heartbeatPayload) (err : option error).

Section Step.
Context (http_ParseTime : string → option Z) (cfg : RegistrarConfig).

Definition buildPayload (e : Env) : registrationPayload :=
  mkRegistration (AgentName cfg) (Environment cfg) (Cost cfg) (TopicName cfg)
    (default [] (e_types e)) (if HasResourceProvider cfg then e_capacity e else None).

(** Return of [registerWithRetry] with false. *)
Definition abandon (re : bool) : phase := if re then Idle else Blocked.

(** [registerWithRetry] after [attemptRegister] answered. *)
Definition after_register (re : bool) (attempt : Z) (p : registrationPayload) (e : Env) (r : t)
  : t * list output :=
  match register http_ParseTime (e_now e) (e_token e) (e_answer e) with
  | Ok id => (mk id true (notifyCh r) (ctxDone r) Idle, [Accepted p id])
  | Err err =>
      if ctxDone r then (goto (abandon re) r, [])
      else if errors_is ENonRetryable err then (goto (abandon re) r, [])
      else
        (goto (Waiting re (attempt + 1)
                 (computeBackoff (e_jitter e) (InitialBackoff cfg) (MaxBackoff cfg) err attempt)) r, [])
  end.

Definition sendHeartbeat (e : Env) (r : t) : t * list output :=
  (r, [Heartbeat (agentID r) (mkHeartbeat (e_now e) (e_lag e)) (heartbeat (e_token e) (e_answer e))]).

(** The goroutine's next action.  A select case that is not ready is not taken. *)
Definition advance (e : Env) (r : t) : t * list output :=
  match at_ r with
  | Supervise => (goto (if ctxDone r then Exited else Gate) r, [])
  | Gate =>
      if e_panic e then (goto PanicDelay r, [])
      else
        match e_types e with
        | Some (_ :: _) => (goto (Attempt false 0) r, [])
        | _ => (goto GateWait r, [])
        end
  | GateWait =>
      match e_pick e with
      | PickDone => (if ctxDone r then goto Exited r else r, [])
      | PickNotify => (if notifyCh r then goto Gate (take_notification r) else r, [])
      | PickTimer => (goto Gate r, [])
      end
  | Attempt re attempt =>
      if ctxDone r then (goto (abandon re) r, [])
      else if e_panic e then (goto PanicDelay r, [])
      else (goto (Sending re attempt (buildPayload e)) r, [Sent (buildPayload e)])
  | Sending re attempt p =>
      if e_panic e then (goto PanicDelay r, []) else after_register re attempt p e r
  | Waiting re attempt wait =>
      match e_pick e with
      | PickDone => (if ctxDone r then goto (abandon re) r else r, [])
      | PickNotify => (if notifyCh r then goto (Attempt re 0) (take_notification r) else r, [])
      | PickTimer => (goto (Attempt re attempt) r, [])
      end
  | Idle =>
      match e_pick e with
      | PickDone => (if ctxDone r then goto Exited r else r, [])
      | PickNotify => (if notifyCh r then goto (Attempt true 0) (take_notification r) else r, [])
      | PickTimer => if e_panic e then (goto PanicDelay r, []) else sendHeartbeat e r
      end
  | Blocked => (if ctxDone r then goto Exited r else r, [])
  | PanicDelay =>
      match e_pick e with
      | PickDone => (if ctxDone r then goto Exited r else r, [])
      | PickNotify => (r, [])
      | PickTimer => (goto Supervise r, [])
      end
  | Exited => (r, [])
  end.

(** *** The registrar in its surroundings

    [types]: the service types now advertisable; [owed]: they changed and the
    change has not been signalled yet; [dcm]: the types of the last registration
    the control plane accepted; [read_ok]: the lister answered when the payload
    being sent was built; [given_up]: a re-registration was given up since the
    last acceptance; [unread]: the accepted payload was built while the lister
    failed. *)
Record sys := mkSys {
  reg : t;
  types : list string;
  owed : bool;
  dcm : option (list string);
  read_ok : bool;
  given_up : bool;
  unread : bool;
  outs : list output
}.

Definition initial (l : list string) : sys := mkSys NewRegistrar l false None true false false [].

Inductive input :=
  | Change (l : list string)
  | Notify
  | Cancel
  | Go (lister_fails : bool) (e : Env).

Definition with_types (o : option (list string)) (e : Env) : Env :=
  mkEnv o (e_capacity e) (e_token e) (e_answer e) (e_lag e) (e_now e) (e_jitter e) (e_pick e) (e_panic e).

Definition go (fails : bool) (e : Env) (s : sys) : sys :=
  let '(r, os) := advance (with_types (if fails then None else Some (types s)) e) (reg s) in
  let s' := mkSys r (types s) (owed s) (dcm s) (read_ok s) (given_up s) (unread s) (outs s ++ os) in
  match at_ (reg s), os with
  | Attempt _ _, [Sent _] =>
      mkSys r (types s) (owed s) (dcm s) (negb fails) (given_up s) (unread s) (outs s ++ os)
  | Sending _ _ _, [Accepted p _] =>
      mkSys r (types s) (owed s) (Some (rp_ServiceTypes p)) (read_ok s) false (negb (read_ok s)) (outs s ++ os)
  | Sending _ _ _, [] =>
      mkSys r (types s) (owed s) (dcm s) (read_ok s) (match at_ r with Idle => true | _ => given_up s end)
        (unread s) (outs s)
  | _, _ => s'
  end.

Definition sys_step (s : sys) (i : input) : sys :=
  match i with
  | Change l => mkSys (reg s) l true (dcm s) (read_ok s) (given_up s) (unread s) (outs s)
  | Notify => mkSys (NotifyServiceTypeChange (reg s)) (types s) false (dcm s) (read_ok s) (given_up s) (unread s) (outs s)
  | Cancel => mkSys (cancel (reg s)) (types s) (owed s) (dcm s) (read_ok s) (given_up s) (unread s) (outs s)
  | Go fails e => go fails e s
  end.

Definition runs (l : list string) (is_ : list input) : sys := fold_left sys_step is_ (initial l).

(** *** The control plane's view converges *)

Definition fresh (s : sys) : Prop :=
  let pending := ctxDone (reg s) || notifyCh (reg s) || owed s in
  match at_ (reg s) with
  | Sending _ _ p => read_ok s = false ∨ pending = true ∨ rp_ServiceTypes p = types s
  | Idle => pending = true ∨ given_up s = true ∨ unread s = true ∨ dcm s = Some (types s)
  | _ => True
  end.

(** Case analysis on the goroutine's next action. *)
Ltac advance_cases s :=
  unfold go, advance, after_register, sendHeartbeat, abandon;
  destruct s as [[id rg nc cd ph] tys ow d ro gu un os]; destruct ph; simpl in *;
  repeat (first [case_match | progress simplify_eq/=]); try done.

Lemma step_fresh s i : fresh s → fresh (sys_step s i).
Proof.
  destruct i as [l| | |fails e]; simpl.
  - unfold fresh. simpl. rewrite orb_true_r. by destruct (at_ (reg s)); auto.
  - unfold fresh. simpl. rewrite orb_true_r. by destruct (at_ (reg s)); auto.
  - unfold fresh. simpl. by destruct (at_ (reg s)); auto.
  - advance_cases s; unfold fresh; simpl; naive_solver.
Qed.

Lemma runs_fresh l is_ : fresh (runs l is_).
Proof.
  unfold runs. assert (fresh (initial l)) as H by done. revert H. generalize (initial l).
  induction is_ as [|i is_ IH]; intros s Hs; simpl; [done|]. by apply IH, step_fresh.
Qed.

(** The control plane's view converges: whenever the registrar is back in
    its event loop with no notification pending, every change of the
    advertisable service types has been signalled, and since the last accepted
    registration no re-registration was given up and the lister had answered,
    the service types the control plane holds are the current ones; whatever
    the order of changes, notifications, failures, retries and panics. *)
Theorem registrar_converges l is_ :
  let s := runs l is_ in
  at_ (reg s) = Idle → ctxDone (reg s) = false → notifyCh (reg s) = false → owed s = false →
  given_up s = false → unread s = false →
  dcm s = Some (types s).
Proof.
  cbn zeta. pose proof (runs_fresh l is_) as H. unfold fresh in H. intros Ha Hc Hn Ho Hg Hu.
  rewrite Ha, Hc, Hn, Ho, Hg, Hu in H. simpl in H. by destruct H as [|[|[]]].
Qed.

(** *** Identity *)

(** The id of the last accepted registration. *)
Definition last_id (os : list output) : option string :=
  last (omap (λ o, match o with Accepted _ id => Some id | _ => None end) os).

Lemma last_id_snoc os o :
  last_id (os ++ [o]) = match o with Accepted _ id => Some id | _ => last_id os end.
Proof. unfold last_id. rewrite omap_app. destruct o; simpl; rewrite ?app_nil_r, ?last_snoc; done. Qed.

(** Every heartbeat carries the id assigned by the last registration before it. *)
Definition heartbeats_ok (os : list output) : Prop :=
  ∀ pre id p err post, os = pre ++ Heartbeat id p err :: post → last_id pre = Some id ∧ id ≠ "".

Lemma heartbeats_snoc os o :
  heartbeats_ok os → (∀ id p err, o = Heartbeat id p err → last_id os = Some id ∧ id ≠ "") →
  heartbeats_ok (os ++ [o]).
Proof.
  intros Hos Ho pre id p err post Heq.
  destruct post as [|o' post _] using rev_ind.
  - apply app_inj_tail in Heq as [<- ->]. by apply (Ho id p err).
  - rewrite app_comm_cons, app_assoc in Heq. apply app_inj_tail in Heq as [-> _]. by eapply Hos.
Qed.

Lemma register_nonempty now token answer id : register http_ParseTime now token answer = Ok id → id ≠ "".
Proof.
  unfold register, handleRegistrationResponse. intros H. repeat case_match; simplify_eq; by breflect.
Qed.

(** In re-registration and in the event loop the agent is registered. *)
Definition after_first (p : phase) : bool :=
  match p with
  | Idle | Attempt true _ | Sending true _ _ | Waiting true _ _ => true
  | _ => false
  end.

Record identity (r : t) (os : list output) : Prop := {
  id_registered : registered r = bool_decide (is_Some (last_id os));
  id_agent : ∀ id, last_id os = Some id → agentID r = id ∧ id ≠ "";
  id_phase : after_first (at_ r) = true → registered r = true;
  id_beats : heartbeats_ok os
}.

Lemma identity_same r r' os :
  identity r os → agentID r' = agentID r → registered r' = registered r →
  (after_first (at_ r') = true → registered r = true) → identity r' os.
Proof. intros [Hr Ha Hp Hb] E1 E2 E3. split; [congruence|by rewrite E1|by rewrite E2|done]. Qed.

Lemma identity_sent r p ph os :
  identity r os → (after_first ph = true → registered r = true) → identity (goto ph r) (os ++ [Sent p]).
Proof.
  intros [Hr Ha Hp Hb] Hph. split; rewrite ?last_id_snoc; try done. by apply heartbeats_snoc.
Qed.

Lemma identity_accepted r p id nc cd os :
  identity r os → id ≠ "" → identity (mk id true nc cd Idle) (os ++ [Accepted p id]).
Proof.
  intros [Hr Ha Hp Hb] Hid. split; rewrite ?last_id_snoc; simpl; try done.
  - by intros ? [= <-].
  - by apply heartbeats_snoc.
Qed.

Lemma identity_beat r os hp err :
  identity r os → registered r = true → identity r (os ++ [Heartbeat (agentID r) hp err]).
Proof.
  intros [Hr Ha Hp Hb] Hreg. split; rewrite ?last_id_snoc; try done. apply heartbeats_snoc; [done|].
  intros id p' err' [= <- _ _]. rewrite Hreg in Hr. symmetry in Hr. apply bool_decide_eq_true in Hr as [id Hid].
  destruct (Ha id Hid) as [-> ?]. done.
Qed.

Lemma advance_identity e r os r' o :
  identity r os → advance e r = (r', o) → identity r' (os ++ o).
Proof.
  intros Hid. pose proof (id_phase _ _ Hid) as Hp. pose proof (identity_same r r os Hid eq_refl eq_refl Hp) as Hsame.
  unfold advance, after_register, sendHeartbeat, abandon. intros Hadv.
  destruct r as [id rg nc cd ph]; destruct ph; simpl in *;
    repeat (first [case_match | progress simplify_eq/=]);
    rewrite ?app_nil_r; try done;
    first [ by apply (identity_sent _ _ _ _ Hid)
          | by eapply (identity_accepted _ _ _ _ _ _ Hid), register_nonempty
          | by apply (identity_beat _ _ _ _ Hid); auto
          | by apply (identity_same _ _ _ Hid); auto ].
Qed.

Lemma go_reg_outs (fails : bool) (e : Env) (s : sys) :
  let '(r, o) := advance (with_types (if fails then None else Some (types s)) e) (reg s) in
  reg (go fails e s) = r ∧ outs (go fails e s) = outs s ++ o.
Proof.
  unfold go. destruct (advance _ _) as [r o]. destruct (at_ (reg s)), o as [|[] []]; simpl; by rewrite ?app_nil_r.
Qed.

Lemma runs_identity l is_ : identity (reg (runs l is_)) (outs (runs l is_)).
Proof.
  unfold runs. induction is_ as [|i is_ IH] using rev_ind.
  { split; try done. intros pre id p err post H. by destruct pre. }
  rewrite fold_left_app. simpl. set (s := fold_left sys_step is_ (initial l)) in *.
  pose proof (id_phase _ _ IH) as Hp. destruct i as [l'| | |fails e]; simpl; try by eapply identity_same.
  pose proof (go_reg_outs fails e s) as H. destruct (advance _ _) as [r o] eqn:E. destruct H as [-> ->].
  by eapply advance_identity.
Qed.

(** Every heartbeat is sent under the identity the control plane assigned:
    it carries the non-empty agent id of the last registration accepted before
    it, so none is sent before the first acceptance; and [AgentID] reports
    that id, or "not registered" before any acceptance. *)
Theorem heartbeat_identity l is_ :
  let s := runs l is_ in
  heartbeats_ok (outs s) ∧
  AgentID (reg s) = match last_id (outs s) with Some id => (id, true) | None => (agentID (reg s), false) end.
Proof.
  cbn zeta. destruct (runs_identity l is_) as [Hr Ha Hp Hb]. split; [done|]. unfold AgentID. rewrite Hr.
  destruct (last_id (outs (runs l is_))) as [id|] eqn:E; [|done]. by destruct (Ha id eq_refl) as [-> _].
Qed.

(** *** Shutdown *)

Definition is_sent (o : output) : bool := match o with Sent _ => true | _ => false end.

Lemma advance_cancelled e r :
  ctxDone r = true → ctxDone (advance e r).1 = true ∧ Forall (λ o, is_sent o = false) (advance e r).2.
Proof.
  intros Hc. unfold advance, after_register, sendHeartbeat, abandon.
  destruct r as [id rg nc cd ph]; simpl in *; subst cd; destruct ph; simpl;
    repeat (case_match; simplify_eq/=); split; try done; by repeat constructor.
Qed.

Lemma step_cancelled s i :
  ctxDone (reg s) = true →
  ctxDone (reg (sys_step s i)) = true ∧
  ∃ more, outs (sys_step s i) = outs s ++ more ∧ Forall (λ o, is_sent o = false) more.
Proof.
  intros Hc. destruct i as [l| | |fails e]; simpl;
    try (split; [done|]; exists []; rewrite app_nil_r; by repeat constructor).
  pose proof (go_reg_outs fails e s) as H. destruct (advance _ _) as [r o] eqn:E. destruct H as [-> ->].
  pose proof (advance_cancelled (with_types (if fails then None else Some (types s)) e) (reg s) Hc) as [H1 H2].
  rewrite E in H1, H2. eauto.
Qed.

(** Actions a cancelled registrar is away from its end. *)
Definition rank (p : phase) : nat :=
  match p with
  | Exited => 0
  | Supervise | GateWait | Idle | Blocked | PanicDelay => 1
  | Attempt _ _ | Sending _ _ _ | Waiting _ _ _ => 2
  | Gate => 3
  end.

Lemma advance_rank e r :
  ctxDone r = true → e_pick e = PickDone → (rank (at_ (advance e r).1) ≤ pred (rank (at_ r)))%nat.
Proof.
  intros Hc Hp. unfold advance, after_register, sendHeartbeat, abandon.
  destruct r as [id rg nc cd ph]; simpl in *; subst cd; rewrite ?Hp.
  destruct ph; simpl; repeat (case_match; simplify_eq/=); lia.
Qed.

Lemma advance_exits e1 e2 e3 r :
  ctxDone r = true → e_pick e1 = PickDone → e_pick e2 = PickDone → e_pick e3 = PickDone →
  at_ (advance e3 (advance e2 (advance e1 r).1).1).1 = Exited.
Proof.
  intros Hc P1 P2 P3. destruct (advance_cancelled e1 r Hc) as [Hc1 _].
  destruct (advance_cancelled e2 _ Hc1) as [Hc2 _].
  pose proof (advance_rank e1 r Hc P1). pose proof (advance_rank e2 _ Hc1 P2). pose proof (advance_rank e3 _ Hc2 P3).
  assert (rank (at_ r) ≤ 3)%nat by (destruct (at_ r); simpl; lia).
  assert (rank (at_ (advance e3 (advance e2 (advance e1 r).1).1).1) = 0)%nat as Hz by lia.
  by destruct (at_ (advance e3 _).1).
Qed.

(** Shutdown: once the context is cancelled no further registration is
    sent, whatever happens next, and the registrar goroutine ends after at most
    three of its actions whose selects take the cancelled context, wherever it
    was (in a call, waiting, blocked after a refusal or pausing after a
    panic). *)
Theorem registrar_shutdown l is1 is2 f1 f2 f3 e1 e2 e3 :
  e_pick e1 = PickDone → e_pick e2 = PickDone → e_pick e3 = PickDone →
  (∃ more, outs (runs l (is1 ++ Cancel :: is2)) = outs (runs l is1) ++ more ∧
     Forall (λ o, is_sent o = false) more) ∧
  at_ (reg (runs l (is1 ++ Cancel :: is2 ++ [Go f1 e1; Go f2 e2; Go f3 e3]))) = Exited.
Proof.
  intros P1 P2 P3. unfold runs. rewrite !fold_left_app. cbn [fold_left]. rewrite fold_left_app.
  set (s0 := fold_left sys_step is1 (initial l)).
  assert (∀ is_ s, ctxDone (reg s) = true → ctxDone (reg (fold_left sys_step is_ s)) = true ∧
    ∃ more, outs (fold_left sys_step is_ s) = outs s ++ more ∧ Forall (λ o, is_sent o = false) more) as Hrun.
  { induction is_ as [|i is_ IH]; intros s Hs; simpl.
    { split; [done|]. exists []. rewrite app_nil_r. by split. }
    destruct (step_cancelled s i Hs) as (H1 & m1 & E1 & F1).
    destruct (IH (sys_step s i) H1) as (H2 & m2 & E2 & F2). split; [done|].
    exists (m1 ++ m2). rewrite E2, E1, app_assoc. split; [done|]. by apply Forall_app. }
  destruct (Hrun is2 (sys_step s0 Cancel) eq_refl) as (Hc & more & Hm & Hf). split; [by exists more|].
  set (s1 := fold_left sys_step is2 (sys_step s0 Cancel)) in *. cbn [fold_left sys_step].
  repeat match goal with |- context [reg (go ?f ?e ?s)] =>
    replace (reg (go f e s)) with (advance (with_types (if f then None else Some (types s)) e) (reg s)).1
      by (pose proof (go_reg_outs f e s) as H; destruct (advance _ _); by destruct H as [-> _]) end.
  by apply advance_exits.
Qed.

End Step.

(** *** Evaluation *)

Definition sample_cfg : RegistrarConfig := mkConfig "agent" "env" "low" "topic" Second (60 * Second) false.

(** The control plane accepts; [pick] is the select case. *)
Definition sample_env (p : pick) : Env :=
  mkEnv None None None (Ok (mkResponse 201 "" (Some (JObject [("agent_id", JString "a1")])))) 0 0 (λ d, d) p false.

Definition sample_runs (l : list string) (is_ : list input) : sys := runs (λ _, None) sample_cfg l is_.

(** Start, register "vm", learn of a change, and re-register; the lister fails
    during the re-registration when [fails]. *)
Definition sample_life (fails : bool) : list input :=
  [Go false (sample_env PickTimer); Go false (sample_env PickTimer); Go false (sample_env PickTimer);
   Go false (sample_env PickTimer); Change ["vm"; "db"]; Notify; Go false (sample_env PickNotify);
   Go fails (sample_env PickTimer); Go false (sample_env PickTimer)].

Lemma registrar_converges_witness :
  dcm (sample_runs ["vm"] (sample_life false)) = Some ["vm"; "db"].
Proof.
  apply (registrar_converges (λ _, None) sample_cfg ["vm"] (sample_life false)); vm_compute; reflexivity.
Defined.

Lemma registrar_shutdown_witness :
  at_ (reg (sample_runs ["vm"] (sample_life false ++ Cancel :: [] ++
    [Go false (sample_env PickDone); Go false (sample_env PickDone); Go false (sample_env PickDone)]))) = Exited.
Proof.
  apply (registrar_shutdown (λ _, None) sample_cfg ["vm"] (sample_life false) [] false false false
    (sample_env PickDone) (sample_env PickDone) (sample_env PickDone)); reflexivity.
Defined.

(** A lister failure during a re-registration (the lister returns nil when
    the provider store cannot be read) is sent as "no service types": the
    control plane accepts the empty list, and the registrar sits in its event
    loop with nothing pending although two types are advertisable. *)
Theorem lister_failure_wipes_types :
  let s := sample_runs ["vm"] (sample_life true) in
  at_ (reg s) = Idle ∧ notifyCh (reg s) = false ∧ owed s = false ∧
  types s = ["vm"; "db"] ∧ dcm s = Some [].
Proof. vm_compute. split_and!; reflexivity. Qed.

End Registrar.
