(* ===== verification/Config.v ===== *)
(** * Configuration

    Models internal/config: the configuration structures, the merge of the
    configuration file with the environment (config.go, [Load] and
    [loadConfigFile]) and the validation of the values (config.go,
    validation.go).  The tag-driven parser that fills the structures from the
    merged map is a third-party package and an argument. *)

From S2P Require Import Prelude GoStrings Provider.
From Stdlib Require Import Ascii.

#[local] Open Scope string_scope.

(** ** Formatting of durations ([time.Duration.String]) *)

(** [pad n k]: the digits of [n], [k] of them. *)
Fixpoint pad (k : nat) (n : Z) : string :=
  match k with
  | O => ""
  | S k' => pad k' (n / 10) +:+ String (ascii_of_nat (48 + Z.to_nat (n mod 10))) ""
  end.

(** The fraction [n / 10^k] without trailing zeros, with its point. *)
Fixpoint fraction (k : nat) (n : Z) : string :=
  match k with
  | O => ""
  | S k' => if (n mod 10 =? 0)%Z then fraction k' (n / 10) else "." +:+ pad k n
  end.

Definition unsigned_duration (u : Z) : string :=
  if (u =? 0)%Z then "0s"
  else if (u <? 1000)%Z then pretty u +:+ "ns"
  else if (u <? Millisecond)%Z then pretty (u / 1000)%Z +:+ fraction 3 (u mod 1000) +:+ bytes [194; 181; 115]%nat
  else if (u <? Second)%Z then pretty (u / Millisecond)%Z +:+ fraction 6 (u mod Millisecond) +:+ "ms"
  else
    let s := (u / Second)%Z in
    let secs := pretty (s mod 60)%Z +:+ fraction 9 (u mod Second) +:+ "s" in
    let m := (s / 60)%Z in
    if (m =? 0)%Z then secs
    else
      let mins := pretty (m mod 60)%Z +:+ "m" +:+ secs in
      let h := (m / 60)%Z in
      if (h =? 0)%Z then mins else pretty h +:+ "h" +:+ mins.

Definition Duration_String (d : Z) : string :=
  if (d <? 0)%Z then "-" +:+ unsigned_duration (- d) else unsigned_duration d.

(** ** The structures *)

Record RoutingConfig := mkRouting {
  ro_RetryMaxAttempts : Z; ro_RetryBackoff : Z; ro_RetryMaxBackoff : Z; ro_DenyListMaxSize : Z;
  ro_HandlerTimeout : Z; ro_CancelHandlerTimeout : Z; ro_NakDelay : Z
}.
Record AuthConfig := mkAuth { au_Disabled : bool; au_IssuerURL : string; au_Audience : string }.
Record HealthConfig := mkHealth {
  hc_CheckInterval : Z; hc_CheckTimeout : Z; hc_FailureThreshold : Z; hc_PodConditionsEnabled : string
}.
Record ProviderConfig := mkProviderConfig { pc_EmbeddedSPs : list string; pc_PersistencePath : string }.
Record AgentConfig := mkAgent { ag_Name : string; ag_Environment : string; ag_Cost : string }.
Record SPConfig := mkSP { sp_DefaultKubeconfig : string }.
Record DCMConfig := mkDCM {
  dc_RegistrationURL : string; dc_InitialBackoff : Z; dc_MaxBackoff : Z; dc_RequestTimeout : Z;
  dc_PrerequisiteRetryInterval : Z; dc_AuthToken : string; dc_AuthTokenEndpoint : string;
  dc_AuthClientID : string; dc_AuthClientSecret : string
}.
Record HeartbeatConfig := mkHeartbeatConfig { hb_Interval : Z }.
Record MessagingConfig := mkMessaging {
  ms_URL : string; ms_TopicName : string; ms_AckWait : Z; ms_CancelAckWait : Z; ms_MaxDeliver : Z;
  ms_ReconnectInitialBackoff : Z; ms_ReconnectMaxBackoff : Z
}.
Record ServerConfig := mkServer { sv_Address : string; sv_ShutdownTimeout : Z; sv_RequestTimeout : Z }.

Record AppConfig := mkApp {
  app_Server : ServerConfig; app_Provider : ProviderConfig; app_Health : HealthConfig; app_Agent : AgentConfig;
  app_SP : SPConfig; app_DCM : DCMConfig; app_Heartbeat : HeartbeatConfig; app_Messaging : MessagingConfig;
  app_Routing : RoutingConfig; app_Auth : AuthConfig
}.

(** ** Loading *)

(** [strings.Cut(line, "=")]. *)
Fixpoint cut_eq (l : list ascii) : option (list ascii * list ascii) :=
  match l with
  | [] => None
  | c :: l' =>
      if Ascii.eqb c "=" then Some ([], l')
      else match cut_eq l' with Some (k, v) => Some (c :: k, v) | None => None end
  end.

Definition Cut (s : string) : option (string * string) :=
  match cut_eq (chars s) with Some (k, v) => Some (of_chars k, of_chars v) | None => None end.

(** The lines of a file, numbered from [n].  [bufio.Scanner] has split the file
    at newlines and removed a final carriage return of each line. *)
Fixpoint load_lines (path : string) (n : Z) (lines : list string) (values : gmap string string)
  : result (gmap string string) :=
  match lines with
  | [] => Ok values
  | text :: rest =>
      let line := TrimSpace text in
      if (line =s? "") || HasPrefix line "#" then load_lines path (n + 1) rest values
      else
        match Cut line with
        | None => Err (ENew (path +:+ ":" +:+ pretty n +:+ ": malformed line (expected KEY=VALUE): " +:+ Quote line))
        | Some (key, value) => load_lines path (n + 1) rest (<[TrimSpace key := TrimSpace value]> values)
        end
  end.

(** How reading the file ends: it cannot be opened, or the lines read and the
    scanner's error, if any. *)
Inductive file_read := CannotOpen (e : error) | Scanned (lines : list string) (err : option error).

Definition loadConfigFile (path : string) (f : file_read) : result (gmap string string) :=
  match f with
  | CannotOpen e => Err e
  | Scanned lines err =>
      match load_lines path 1 lines ∅ with
      | Err e => Err e
      | Ok values => match err with Some e => Err (EWrap ("reading " +:+ path) e) | None => Ok values end
      end
  end.

Definition configFileEnvVar : string := "AGENT_CONFIG_FILE".

Section Load.
(** [env.ParseWithOptions] on the merged map. *)
Context (parse_env : gmap string string → result AppConfig).

(** The merge: a file value is used where the environment has none. *)
Definition merge (envMap fileValues : gmap string string) : gmap string string := envMap ∪ fileValues.

Definition Load (environ : gmap string string) (read : string → file_read) : result AppConfig :=
  let path := default "" (environ !! configFileEnvVar) in
  if path =s? "" then parse_env environ
  else
    match loadConfigFile path (read path) with
    | Err e => Err (EWrap configFileEnvVar e)
    | Ok fileValues => parse_env (merge environ fileValues)
    end.

End Load.

(** ** Validation *)

Definition validateRequired (envName value : string) : option error :=
  if TrimSpace value =s? "" then Some (ENew (envName +:+ ": required but not set or empty")) else None.

Definition validateDurationRange (envName : string) (val min max : Z) : option error :=
  if (val <? min)%Z || (max <? val)%Z then
    Some (ENew (envName +:+ ": " +:+ Duration_String val +:+ " is outside valid range ["
            +:+ Duration_String min +:+ ", " +:+ Duration_String max +:+ "]"))
  else None.

Definition validateIntRange (envName : string) (val min max : Z) : option error :=
  if (val <? min)%Z || (max <? val)%Z then
    Some (ENew (envName +:+ ": value " +:+ pretty val +:+ " is outside valid range ["
            +:+ pretty min +:+ ", " +:+ pretty max +:+ "]"))
  else None.

Definition isValidCost (cost : string) : bool :=
  bool_decide (cost ∈ ["low"; "medium-low"; "medium"; "medium-high"; "high"]).

Definition validateCost (cost : string) : option error :=
  if isValidCost cost then None
  else Some (ENew ("AGENT_COST: invalid value " +:+ Quote cost
              +:+ ", must be one of: low, medium-low, medium, medium-high, high")).

Lemma validateRequired_None n v : validateRequired n v = None → v ≠ "".
Proof. intros H ->. vm_compute in H. done. Qed.

Lemma validateDurationRange_None n v lo hi : validateDurationRange n v lo hi = None → (lo ≤ v ≤ hi)%Z.
Proof. unfold validateDurationRange. case_match; [done|]. breflect. done. Qed.

Lemma validateIntRange_None n v lo hi : validateIntRange n v lo hi = None → (lo ≤ v ≤ hi)%Z.
Proof. unfold validateIntRange. case_match; [done|]. breflect. done. Qed.

Section Validate.
(** [url.Parse]. *)
Context (url_Parse : string → result URL).

Definition validateAbsoluteHTTPURL (envName value : string) : option error :=
  match url_Parse value with
  | Err e => Some (EWrap (envName +:+ ": invalid URL " +:+ Quote value) e)
  | Ok u =>
      if (Scheme u =s? "") || (Host u =s? "") then
        Some (ENew (envName +:+ ": " +:+ Quote value +:+ " must be an absolute URL with a host"))
      else if negb (Scheme u =s? "http") && negb (Scheme u =s? "https") then
        Some (ENew (envName +:+ ": " +:+ Quote value +:+ " must use the http or https scheme, got " +:+ Quote (Scheme u)))
      else None
  end.

Definition validateDCMAuth (d : DCMConfig) : option error :=
  let endpoint := dc_AuthTokenEndpoint d in
  let clientID := dc_AuthClientID d in
  let clientSecret := dc_AuthClientSecret d in
  if negb (negb (endpoint =s? "") || negb (clientID =s? "") || negb (clientSecret =s? "")) then None
  else
    let missing := ((if endpoint =s? "" then ["DCM_AUTH_TOKEN_ENDPOINT"] else [])
                     ++ (if clientID =s? "" then ["DCM_AUTH_CLIENT_ID"] else [])
                     ++ (if clientSecret =s? "" then ["DCM_AUTH_CLIENT_SECRET"] else []))%list in
    if (0 <? length missing)%nat then
      Some (ENew ("partial client-credentials auth config: missing " +:+ String.concat ", " missing
              +:+ " (all three of DCM_AUTH_TOKEN_ENDPOINT, DCM_AUTH_CLIENT_ID, DCM_AUTH_CLIENT_SECRET must be set together)"))
    else
      match validateAbsoluteHTTPURL "DCM_AUTH_TOKEN_ENDPOINT" endpoint with
      | Some e => Some (EWrap "client-credentials token endpoint" e)
      | None => None
      end.

(** The checks of [Validate], in its order. *)
Definition Validate (c : AppConfig) : option error :=
  first_error [
    validateDurationRange "AGENT_SERVER_REQUEST_TIMEOUT" (sv_RequestTimeout (app_Server c)) Second (10 * Minute);
    validateDurationRange "AGENT_SERVER_SHUTDOWN_TIMEOUT" (sv_ShutdownTimeout (app_Server c)) Second (5 * Minute);
    validateDurationRange "AGENT_HEALTH_CHECK_INTERVAL" (hc_CheckInterval (app_Health c)) Second (5 * Minute);
    validateDurationRange "AGENT_HEALTH_CHECK_TIMEOUT" (hc_CheckTimeout (app_Health c)) (500 * Millisecond)
      (hc_CheckInterval (app_Health c));
    validateIntRange "AGENT_HEALTH_FAILURE_THRESHOLD" (hc_FailureThreshold (app_Health c)) 1 100;
    validateRequired "AGENT_NAME" (ag_Name (app_Agent c));
    validateRequired "AGENT_ENVIRONMENT" (ag_Environment (app_Agent c));
    validateRequired "AGENT_COST" (ag_Cost (app_Agent c));
    validateRequired "DCM_REGISTRATION_URL" (dc_RegistrationURL (app_DCM c));
    validateCost (ag_Cost (app_Agent c));
    validateDurationRange "DCM_REGISTRATION_INITIAL_BACKOFF" (dc_InitialBackoff (app_DCM c)) (100 * Millisecond)
      (dc_MaxBackoff (app_DCM c));
    validateDurationRange "DCM_REGISTRATION_MAX_BACKOFF" (dc_MaxBackoff (app_DCM c)) (dc_InitialBackoff (app_DCM c)) Hour;
    validateDurationRange "DCM_REQUEST_TIMEOUT" (dc_RequestTimeout (app_DCM c)) Second (5 * Minute);
    validateDurationRange "DCM_PREREQUISITE_RETRY_INTERVAL" (dc_PrerequisiteRetryInterval (app_DCM c)) Second (5 * Minute);
    validateDurationRange "AGENT_HEARTBEAT_INTERVAL" (hb_Interval (app_Heartbeat c)) (5 * Second) (10 * Minute);
    validateRequired "AGENT_MESSAGING_URL" (ms_URL (app_Messaging c));
    validateDurationRange "AGENT_MESSAGING_ACK_WAIT" (ms_AckWait (app_Messaging c)) (10 * Second) (5 * Minute);
    validateDurationRange "AGENT_MESSAGING_CANCEL_ACK_WAIT" (ms_CancelAckWait (app_Messaging c)) Second Minute;
    validateDurationRange "AGENT_MESSAGING_RECONNECT_INITIAL_BACKOFF" (ms_ReconnectInitialBackoff (app_Messaging c))
      (100 * Millisecond) (ms_ReconnectMaxBackoff (app_Messaging c));
    validateDurationRange "AGENT_MESSAGING_RECONNECT_MAX_BACKOFF" (ms_ReconnectMaxBackoff (app_Messaging c))
      (ms_ReconnectInitialBackoff (app_Messaging c)) (5 * Minute);
    validateIntRange "AGENT_ROUTING_RETRY_MAX" (ro_RetryMaxAttempts (app_Routing c)) 0 20;
    validateDurationRange "AGENT_ROUTING_RETRY_BACKOFF" (ro_RetryBackoff (app_Routing c)) (100 * Millisecond)
      (ro_RetryMaxBackoff (app_Routing c));
    validateDurationRange "AGENT_ROUTING_RETRY_MAX_BACKOFF" (ro_RetryMaxBackoff (app_Routing c))
      (ro_RetryBackoff (app_Routing c)) (5 * Minute);
    validateIntRange "AGENT_DENY_LIST_MAX_SIZE" (ro_DenyListMaxSize (app_Routing c)) 1000 10000000;
    (if negb (au_Disabled (app_Auth c)) && (au_IssuerURL (app_Auth c) =s? "")
     then Some (ENew "AGENT_AUTH_ISSUER_URL: required when authentication is enabled (AGENT_AUTH_DISABLED=false)")
     else None);
    validateIntRange "AGENT_MESSAGING_MAX_DELIVER" (ms_MaxDeliver (app_Messaging c)) 1 100;
    validateDurationRange "AGENT_ROUTING_HANDLER_TIMEOUT" (ro_HandlerTimeout (app_Routing c)) Second (10 * Minute);
    validateDurationRange "AGENT_ROUTING_CANCEL_HANDLER_TIMEOUT" (ro_CancelHandlerTimeout (app_Routing c))
      (500 * Millisecond) Minute;
    validateDurationRange "AGENT_ROUTING_NAK_DELAY" (ro_NakDelay (app_Routing c)) (100 * Millisecond) (30 * Second);
    match validateDCMAuth (app_DCM c) with
    | Some e => Some (EWrap "validating DCM authentication" e)
    | None => None
    end
  ].

Definition UsesInsecureAuthEndpoint (d : DCMConfig) : bool :=
  if (dc_AuthTokenEndpoint d =s? "") || (dc_AuthClientID d =s? "") || (dc_AuthClientSecret d =s? "") then false
  else match url_Parse (dc_AuthTokenEndpoint d) with Ok u => ToLower (Scheme u) =s? "http" | Err _ => false end.

Definition ValidateHandlerAckWaitInvariant (c : AppConfig) : option error :=
  if (ms_AckWait (app_Messaging c) <=? ro_HandlerTimeout (app_Routing c))%Z then
    Some (ENew ("AGENT_ROUTING_HANDLER_TIMEOUT (" +:+ Duration_String (ro_HandlerTimeout (app_Routing c))
            +:+ ") must be less than AGENT_MESSAGING_ACK_WAIT (" +:+ Duration_String (ms_AckWait (app_Messaging c))
            +:+ ") to prevent redelivery during handling"))
  else None.

Definition ValidateCancelHandlerAckWaitInvariant (c : AppConfig) : option error :=
  if (ms_CancelAckWait (app_Messaging c) <=? ro_CancelHandlerTimeout (app_Routing c))%Z then
    Some (ENew ("AGENT_ROUTING_CANCEL_HANDLER_TIMEOUT (" +:+ Duration_String (ro_CancelHandlerTimeout (app_Routing c))
            +:+ ") must be less than AGENT_MESSAGING_CANCEL_ACK_WAIT ("
            +:+ Duration_String (ms_CancelAckWait (app_Messaging c)) +:+ ") to prevent redelivery during handling"))
  else None.

(** The ranges [Validate] guarantees to the message path. *)
Lemma Validate_None c :
  Validate c = None →
  ag_Name (app_Agent c) ≠ "" ∧
  (0 ≤ ro_RetryMaxAttempts (app_Routing c) ≤ 20 ∧
   100 * Millisecond ≤ ro_RetryBackoff (app_Routing c) ≤ ro_RetryMaxBackoff (app_Routing c) ∧
   ro_RetryMaxBackoff (app_Routing c) ≤ 5 * Minute ∧
   1000 ≤ ro_DenyListMaxSize (app_Routing c) ∧ 1 ≤ ms_MaxDeliver (app_Messaging c) ≤ 100 ∧
   Second ≤ ro_HandlerTimeout (app_Routing c) ∧ 500 * Millisecond ≤ ro_CancelHandlerTimeout (app_Routing c) ∧
   100 * Millisecond ≤ ro_NakDelay (app_Routing c))%Z.
Proof.
  unfold Validate. rewrite first_error_None, !Forall_cons. intros H. destruct_and!.
  repeat match goal with
  | H : validateRequired _ _ = None |- _ => apply validateRequired_None in H
  | H : validateDurationRange _ _ _ _ = None |- _ => apply validateDurationRange_None in H
  | H : validateIntRange _ _ _ _ = None |- _ => apply validateIntRange_None in H
  end. split; [done|]. lia.
Qed.

End Validate.

(** ** The configuration file: print and parse *)

(** No white space at the ends: [TrimSpace] has nothing to remove. *)
Definition trimmed (s : string) : bool :=
  forallb (λ r, negb (HasPrefix s r)) space_runes && forallb (λ r, negb (HasPrefix (srev s) r)) (map srev space_runes).

(** A key and a value that a line can carry. *)
Definition entry_ok (e : string * string) : bool :=
  negb (e.1 =s? "") && negb (HasPrefix e.1 "#") && negb (Contains e.1 "=") && trimmed e.1 && trimmed e.2.

Definition print_entry (e : string * string) : string := e.1 +:+ "=" +:+ e.2.

Lemma strip_one_None spaces s :
  forallb (λ r, negb (HasPrefix s r)) spaces = true → strip_one spaces s = None.
Proof.
  induction spaces as [|r rs IH]; simpl; [done|]. intros [Hr Hrs]%andb_true_iff.
  unfold CutPrefix. apply negb_true_iff in Hr. rewrite Hr. by apply IH.
Qed.

Lemma trim_left_clean n spaces s :
  forallb (λ r, negb (HasPrefix s r)) spaces = true → trim_left n spaces s = s.
Proof. intros H. destruct n; simpl; [done|]. by rewrite strip_one_None. Qed.

Lemma TrimSpace_trimmed s : trimmed s = true → TrimSpace s = s.
Proof.
  intros [H1 H2]%andb_true_iff. unfold TrimSpace. rewrite (trim_left_clean _ _ s H1). cbn zeta.
  rewrite (trim_left_clean _ _ (srev s) H2). apply srev_involutive.
Qed.

(** A prefix without "=" of a string with "=" lies before it. *)
Lemma prefix_before_eq a b r :
  "="%char ∉ chars r → HasPrefix (a +:+ "=" +:+ b) r = true → HasPrefix a r = true.
Proof.
  rewrite !HasPrefix_spec. intros Hr [t Ht]. apply (f_equal chars) in Ht. rewrite !chars_app in Ht. simpl in Ht.
  apply app_eq_inv in Ht as [(k & Ha & Hk)|(k & Hr' & Hk)].
  - exists (of_chars k). apply chars_inj. by rewrite chars_app, chars_of_chars.
  - destruct k as [|c k].
    + exists "". apply chars_inj. rewrite chars_app. simpl. rewrite app_nil_r in *. done.
    + exfalso. apply Hr. rewrite Hr'. injection Hk as <- _. apply elem_of_app. right. left.
Qed.

Lemma trimmed_entry e : trimmed e.1 = true → trimmed e.2 = true → trimmed (print_entry e) = true.
Proof.
  destruct e as [k v]. unfold trimmed, print_entry. cbn [fst snd]. intros [Hk1 Hk2]%andb_true_iff [Hv1 Hv2]%andb_true_iff.
  assert (∀ a b rs, Forall (λ r, "="%char ∉ chars r) rs → forallb (λ r, negb (HasPrefix a r)) rs = true →
    forallb (λ r, negb (HasPrefix (a +:+ "=" +:+ b) r)) rs = true) as Hp.
  { intros a b rs. rewrite !forallb_forall, Forall_forall. intros Hrs Ha r Hr. apply negb_true_iff, not_true_iff_false.
    intros Hpre. specialize (Ha r Hr). apply prefix_before_eq in Hpre; [by rewrite Hpre in Ha|].
    apply Hrs. by apply list_elem_of_In. }
  assert (Forall (λ r, "="%char ∉ chars r) space_runes ∧ Forall (λ r, "="%char ∉ chars r) (map srev space_runes)) as [F1 F2].
  { split; refine (bool_decide_unpack _ _); vm_compute; exact I. }
  apply andb_true_iff. split; [by apply Hp|].
  replace (srev (k +:+ "=" +:+ v)) with (srev v +:+ "=" +:+ srev k); [by apply Hp|].
  rewrite !srev_app. apply chars_inj. rewrite !chars_app. by rewrite (assoc_L (++)).
Qed.

Lemma Cut_entry e : Contains e.1 "=" = false → Cut (print_entry e) = Some e.
Proof.
  destruct e as [k v]. unfold print_entry, Cut. simpl. intros Hk.
  assert ("="%char ∉ chars k) as Hin. { rewrite <-Contains_char. by rewrite Hk. }
  rewrite !chars_app. simpl.
  assert (∀ l, "="%char ∉ l → cut_eq (l ++ "="%char :: chars v)%list = Some (l, chars v)) as Hcut.
  { induction l as [|c l IH]; intros Hl; simpl; [done|]. destruct (Ascii.eqb_spec c "="); [set_solver|].
    rewrite IH by set_solver. done. }
  rewrite Hcut by done. by rewrite !of_chars_chars.
Qed.

(** A line of a file: an entry, or a comment or blank line. *)
Inductive file_line := LEntry (e : string * string) | LOther (text : string).

Definition line_ok (l : file_line) : bool :=
  match l with
  | LEntry e => entry_ok e
  | LOther text => (TrimSpace text =s? "") || HasPrefix (TrimSpace text) "#"
  end.

Definition print_line (l : file_line) : string :=
  match l with LEntry e => print_entry e | LOther text => text end.

Definition entries_of (ls : list file_line) : list (string * string) :=
  omap (λ l, match l with LEntry e => Some e | LOther _ => None end) ls.

Lemma print_entry_line e : entry_ok e = true → (print_entry e =s? "") || HasPrefix (print_entry e) "#" = false.
Proof.
  unfold entry_ok, print_entry. intros H. breflect. apply orb_false_iff. split.
  - apply bool_decide_eq_false_2. destruct e as [[] v]; cbn [fst] in *; [by breflect|]. by cbn.
  - apply not_true_iff_false. intros Hp. apply prefix_before_eq in Hp; [congruence|].
    intros Hin. apply list_elem_of_singleton in Hin. done.
Qed.

Lemma load_lines_print path n ls values :
  Forall (λ l, line_ok l = true) ls →
  load_lines path n (print_line <$> ls) values = Ok (fold_left (λ m e, <[e.1 := e.2]> m) (entries_of ls) values).
Proof.
  intros Hls. revert n values. induction Hls as [|l ls Hl _ IH]; intros n values; [done|]. simpl.
  destruct l as [e|text]; cbn [line_ok print_line entries_of omap] in *; [|by rewrite Hl].
  pose proof Hl as Hl'. unfold entry_ok in Hl'. breflect. pose proof (print_entry_line e Hl) as Hp.
  rewrite (TrimSpace_trimmed (print_entry e)) by by apply trimmed_entry.
  rewrite Hp, Cut_entry by done. destruct e as [k v]. cbn [fst snd] in *. rewrite !TrimSpace_trimmed by done. apply IH.
Qed.

Lemma fold_insert_last (es : list (string * string)) (m : gmap string string) k :
  fold_left (λ m e, <[e.1 := e.2]> m) es m !! k =
  match last (filter (λ e, e.1 = k) es) with Some e => Some e.2 | None => m !! k end.
Proof.
  induction es as [|e es IH] using rev_ind; [done|]. rewrite fold_left_app, filter_app. simpl.
  rewrite filter_cons, filter_nil. destruct (decide (e.1 = k)) as [<-|Hne].
  - by rewrite lookup_insert_eq, last_snoc.
  - by rewrite lookup_insert_ne, app_nil_r.
Qed.

(** The configuration file is read back as written, and the environment
    wins: printing entries (keys and values without outer white space, keys
    without "=" and not looking like comments) one per line, with any comment
    and blank lines between, and loading the file yields for every key its last
    value; in the merge the value of a key is the environment's where it has
    one and the file's otherwise. *)
Theorem config_file_roundtrip path ls environ :
  Forall (λ l, line_ok l = true) ls →
  ∃ m, loadConfigFile path (Scanned (print_line <$> ls) None) = Ok m ∧
    (∀ k, m !! k = snd <$> last (filter (λ e, e.1 = k) (entries_of ls))) ∧
    (∀ k, merge environ m !! k = match environ !! k with Some v => Some v | None => m !! k end).
Proof.
  intros Hls. unfold loadConfigFile. rewrite load_lines_print by done. eexists. split; [done|]. split.
  - intros k. rewrite fold_insert_last, lookup_empty. by destruct (last _).
  - intros k. unfold merge. rewrite lookup_union. by destruct (environ !! k), (fold_left _ _ _ !! k).
Qed.

Lemma config_file_roundtrip_witness :
  ∃ m, loadConfigFile "agent.env"
      (Scanned ["# comment"; "AGENT_NAME=edge"; ""; "AGENT_NAME=core"] None) = Ok m ∧
    m !! "AGENT_NAME" = Some "core" ∧ merge {["AGENT_NAME" := "main"]} m !! "AGENT_NAME" = Some "main".
Proof.
  destruct (config_file_roundtrip "agent.env"
    [LOther "# comment"; LEntry ("AGENT_NAME", "edge"); LOther ""; LEntry ("AGENT_NAME", "core")]
    {["AGENT_NAME" := "main"]}) as (m & Hm & Hk & He).
  - repeat constructor.
  - exists m. split; [exact Hm|]. split; [rewrite Hk; reflexivity|rewrite He; reflexivity].
Defined.
