(* ===== verification/Agent.v ===== *)
(** * Start-up and wiring of the agent

    Models the part of cmd/environment-agent/main.go that turns a
    configuration into the message path: the validations, [setupMessaging],
    [buildTokenSource], the construction of router, retry processor and
    registrar with the structures they share.  [startup_ready] shows that what
    starts satisfies the hypotheses of the theorems on the message path. *)

From S2P Require Import Prelude GoStrings Sets Backoff Provider Json Effects Routing Topics Retry Messaging Dcm Config.
#[local] Open Scope string_scope.

(** ** Messaging and outbound authentication *)

(** The client's configuration, its topic names (derived by [NewClient] from
    the raw names) and the topic names the other components get. *)
Definition setupMessaging (c : AppConfig) : result (ClientConfig * TopicNames * TopicNames) :=
  let name := ag_Name (app_Agent c) in
  let m := app_Messaging c in
  let topics := DeriveTopicNames name (ms_TopicName m) in
  match ValidateTopicName (Base topics) with
  | Some e => Err (EWrap "invalid topic name" e)
  | None =>
      match ValidateJetStreamSafeName (Base topics) with
      | Some e => Err (EWrap "invalid topic name" e)
      | None =>
          Ok (mkClientConfig (ms_URL m) (ms_TopicName m) name (ms_AckWait m) (ms_CancelAckWait m) (ms_MaxDeliver m)
                (ro_HandlerTimeout (app_Routing c)) (ro_CancelHandlerTimeout (app_Routing c))
                (ro_NakDelay (app_Routing c)) (ms_ReconnectInitialBackoff m) (ms_ReconnectMaxBackoff m) true,
              DeriveTopicNames name (ms_TopicName m), topics)
      end
  end.

Inductive TokenSource :=
  | StaticTokenSource (token : string)
  | CredentialsTokenSource (endpoint clientID clientSecret : string) (s : ClientCredentialsTokenSource).

Definition buildTokenSource (d : DCMConfig) : option TokenSource :=
  if negb (dc_AuthTokenEndpoint d =s? "") then
    Some (CredentialsTokenSource (dc_AuthTokenEndpoint d) (dc_AuthClientID d) (dc_AuthClientSecret d)
            NewClientCredentialsTokenSource)
  else if negb (dc_AuthToken d =s? "") then Some (StaticTokenSource (dc_AuthToken d))
  else None.

(** ** Start-up *)

(** How the steps of [run] that only reach the outside end: discovery of the
    issuer, the listener, opening the provider store and loading it, setting
    up the embedded providers, connecting the messaging client. *)
Record Startup := mkStartup {
  su_oidc : option error;
  su_listen : option error;
  su_store : option error;
  su_loaded : option error;
  su_embedded : option error;
  su_connect : option error
}.

Record Wiring := mkWiring {
  wi_client : ClientConfig;
  wi_client_topics : TopicNames;
  wi_router : Router;
  wi_router_refs : RouterRefs;
  wi_processor : Processor;
  wi_processor_deps : ProcessorDeps;
  wi_registrar : Registrar.RegistrarConfig;
  wi_tokens : option TokenSource;
  wi_objects : objects
}.

Section Start.
Context (url_Parse : string → result URL).
Context (decode_event : string → option Event).

Definition newDCMClient (registrationURL : string) : option error :=
  match url_Parse registrationURL with
  | Err e => Some (EWrap "invalid registration URL" e)
  | Ok u => if Host u =s? "" then Some (ENew "invalid registration URL: missing host") else None
  end.

Definition forward_policy (c : AppConfig) : ForwardRetryPolicy :=
  mkPolicy (ro_RetryMaxAttempts (app_Routing c)) (ro_RetryBackoff (app_Routing c)) (ro_RetryMaxBackoff (app_Routing c)).

(** The objects [run] has created by then, in its order, and the references it
    passes on: the store, registry, tracker, client, deny list and forwarder to
    both, the router's claimed set and in-flight lock to the processor. *)
Definition wire (c : AppConfig) (client : ClientConfig) (client_topics topics : TopicNames) : exc Wiring :=
  let name := ag_Name (app_Agent c) in
  let '(logger, h) := alloc OLogger [] in
  let '(fileStore, h) := alloc OStore h in
  let '(registry, h) := alloc ORegistry h in
  let '(healthTracker, h) := alloc OHealthTracker h in
  let '(msgClient, h) := alloc OClient h in
  let '(denyList, h) := alloc (OResourceSet (ResourceSet.NewResourceSet (ro_DenyListMaxSize (app_Routing c)))) h in
  let '(forwarder, h) := alloc OForwarder h in
  match NewRouter (mkRouterDeps registry healthTracker fileStore forwarder msgClient None denyList
                     (forward_policy c) logger name (Main topics) (Topics.Retry topics)) h with
  | Panicked => Panicked
  | Val (router, refs, h) =>
      let deps := mkProcessorDeps registry healthTracker fileStore forwarder msgClient true denyList
                    (rr_claimedResourcesSet refs) (rr_inFlight refs) (forward_policy c) logger name topics in
      match NewProcessor deps with
      | Panicked => Panicked
      | Val processor =>
          Val (mkWiring client client_topics
                 (SetRetryConsumer (Some (FetchRetryMessages decode_event processor)) router) refs processor deps
                 (Registrar.mkConfig name (ag_Environment (app_Agent c)) (ag_Cost (app_Agent c)) (Main topics)
                    (dc_InitialBackoff (app_DCM c)) (dc_MaxBackoff (app_DCM c)) false)
                 (buildTokenSource (app_DCM c)) h)
      end
  end.

Definition check_then (e : option error) (k : exc (result Wiring)) : exc (result Wiring) :=
  match e with Some err => Val (Err err) | None => k end.

(** [run] up to the registrar; [Err]: it logs the error and exits with 1. *)
Definition start (su : Startup) (loaded : result AppConfig) : exc (result Wiring) :=
  match loaded with
  | Err e => Val (Err e)
  | Ok c =>
      check_then (Validate url_Parse c) (
      check_then (ValidateHandlerAckWaitInvariant c) (
      check_then (ValidateCancelHandlerAckWaitInvariant c) (
      check_then (if au_Disabled (app_Auth c) then None else su_oidc su) (
      check_then (su_listen su) (
      check_then (su_store su) (
      check_then (su_loaded su) (
      match setupMessaging c with
      | Err e => Val (Err e)
      | Ok (client, client_topics, topics) =>
          check_then (su_embedded su) (
          match wire c client client_topics topics with
          | Panicked => Panicked
          | Val wi =>
              check_then (su_connect su) (
              check_then (newDCMClient (dc_RegistrationURL (app_DCM c))) (Val (Ok wi)))
          end)
      end)))))))
  end.

(** ** What has started *)

Lemma check_then_ok e k wi : check_then e k = Val (Ok wi) → e = None ∧ k = Val (Ok wi).
Proof. by destruct e. Qed.

Lemma start_ok su c wi :
  start su (Ok c) = Val (Ok wi) →
  Validate url_Parse c = None ∧
  (ro_HandlerTimeout (app_Routing c) < ms_AckWait (app_Messaging c))%Z ∧
  (ro_CancelHandlerTimeout (app_Routing c) < ms_CancelAckWait (app_Messaging c))%Z ∧
  ∃ client client_topics topics,
    setupMessaging c = Ok (client, client_topics, topics) ∧ wire c client client_topics topics = Val wi.
Proof.
  unfold start. intros H. repeat (apply check_then_ok in H as [? H]).
  destruct (setupMessaging c) as [[[client ct] t]|] eqn:Hs; [|done].
  apply check_then_ok in H as [_ H]. destruct (wire c client ct t) as [wi'|] eqn:Hw; [|done].
  repeat (apply check_then_ok in H as [_ H]). simplify_eq.
  unfold ValidateHandlerAckWaitInvariant, ValidateCancelHandlerAckWaitInvariant in *.
  repeat case_match; try done; breflect; split_and!; try done; by exists client, ct, t.
Qed.

(** The objects behind three references, as the message path sees them. *)
Definition set_at (h : objects) (p : ptr) : option ResourceSet.t :=
  match p ≫= λ a, h !! a with Some (OResourceSet s) => Some s | _ => None end.
Definition lock_at (h : objects) (p : ptr) : option KeyLock.t :=
  match p ≫= λ a, h !! a with Some (OKeyLock k) => Some k | _ => None end.

Definition shared_at (h : objects) (inFlight claimed deny : ptr) : option Shared :=
  match lock_at h inFlight, set_at h claimed, set_at h deny with
  | Some k, Some c, Some d => Some (mkShared k c d false ∅)
  | _, _, _ => None
  end.

(** What router and processor reach through their references. *)
Definition router_shared (wi : Wiring) : option Shared :=
  shared_at (wi_objects wi) (rr_inFlight (wi_router_refs wi)) (rr_claimedResourcesSet (wi_router_refs wi))
    (rr_denyList (wi_router_refs wi)).
Definition processor_refs (d : ProcessorDeps) : list ptr :=
  [pd_Registry d; pd_HealthTracker d; pd_Store d; pd_Forwarder d; pd_Publisher d; pd_DenyList d;
   pd_ClaimedResourcesSet d; pd_InFlightSet d].
Definition router_refs (r : RouterRefs) : list ptr :=
  [rr_registry r; rr_healthTracker r; rr_store r; rr_forwarder r; rr_publisher r; rr_denyList r;
   rr_claimedResourcesSet r; rr_inFlight r].

(** The hypotheses of the message-path theorems, and the bounds and agreements
    between components they are used with. *)
Record ready (wi : Wiring) : Prop := {
  rdy_names : rt_agentName (wi_router wi) ≠ "" ∧ cc_AgentName (wi_client wi) ≠ "" ∧ pr_agentName (wi_processor wi) ≠ "";
  rdy_consumer : rt_retryConsumer (wi_router wi) = Some (FetchRetryMessages decode_event (wi_processor wi));
  rdy_same : processor_refs (wi_processor_deps wi) = router_refs (wi_router_refs wi) ∧
    NoDup (router_refs (wi_router_refs wi)) ∧ None ∉ router_refs (wi_router_refs wi);
  rdy_used : rt_forwarder (wi_router wi) = true ∧ pr_forwarder (wi_processor wi) = true ∧
    pr_inFlight (wi_processor wi) = true ∧ pr_claimed (wi_processor wi) = true ∧ pr_js (wi_processor wi) = true;
  rdy_topics : ∃ t,
    ValidateTopicName (Base t) = None ∧ ValidateJetStreamSafeName (Base t) = None ∧
    wi_client_topics wi = t ∧ DeriveTopicNames (cc_AgentName (wi_client wi)) (cc_TopicName (wi_client wi)) = t ∧
    pr_topics (wi_processor wi) = t ∧
    rt_topicName (wi_router wi) = Main t ∧ rt_retryTopic (wi_router wi) = Topics.Retry t ∧
    Registrar.TopicName (wi_registrar wi) = Main t;
  rdy_policy : rt_policy (wi_router wi) = pr_policy (wi_processor wi) ∧ (1 ≤ attempts (rt_policy (wi_router wi)) ≤ 20 ∧
    100 * Millisecond ≤ Backoff_ (rt_policy (wi_router wi)) ≤ MaxBackoff (rt_policy (wi_router wi)) ∧
    MaxBackoff (rt_policy (wi_router wi)) ≤ 5 * Minute)%Z;
  rdy_deadlines : (Second ≤ cc_HandlerTimeout (wi_client wi) < cc_AckWait (wi_client wi) ∧
    500 * Millisecond ≤ cc_CancelHandlerTimeout (wi_client wi) < cc_CancelAckWait (wi_client wi) ∧
    1 ≤ cc_MaxDeliver (wi_client wi) ≤ 100 ∧ 100 * Millisecond ≤ cc_NakDelay (wi_client wi))%Z;
  rdy_state : ∃ s, router_shared wi = Some s ∧ inFlight s = ∅ ∧ dead s = ∅ ∧
    ResourceSet.wf (claimed s) ∧ ResourceSet.abs (claimed s) = [] ∧
    ResourceSet.wf (deny s) ∧ ResourceSet.abs (deny s) = [] ∧ (1000 ≤ ResourceSet.cap (deny s))%nat;
  rdy_deferred : cc_DeferConsume (wi_client wi) = true
}.

(** C23: start-up establishes what the message path relies on.  Start-up never
    panics (the constructors' nil checks pass); and when it succeeds, router,
    messaging client and retry processor carry the agent's non-empty name, the
    same validated topic names (those the client derives from its configuration)
    and the same retry policy (1 to 20 calls, positive ordered delays), the
    router purges cancelled requests through the processor, router and processor
    hold references to the same eight objects, all different and none nil:
    registry, tracker, store, forwarder, client, deny list, claimed set and
    in-flight lock; the two sets and the lock start empty, the deny list with
    room for at least 1000 cancellations, live consumption is deferred, and each
    handler's deadline is before the broker's redelivery. *)
Theorem startup_ready su loaded :
  start su loaded ≠ Panicked ∧ ∀ wi, start su loaded = Val (Ok wi) → ready wi.
Proof.
  destruct loaded as [c|e]; [|done]. split.
  - unfold start, check_then. repeat case_match; try done.
  - intros wi (Hv & Hh & Hc & client & ct & t & Hs & Hw)%start_ok.
    apply Validate_None in Hv as (Hn & Hr).
    unfold setupMessaging in Hs. repeat case_match; try done. injection Hs as <- <- <-.
    unfold wire in Hw. simpl in Hw. injection Hw as <-. split; simpl; try done.
    + split; [done|]. split; [|set_solver]. by apply (bool_decide_unpack _).
    + eexists. split_and!; [exact H|exact H0|done..].
    + unfold attempts, forward_policy. simpl. split; [done|].
      destruct (Z.ltb_spec (ro_RetryMaxAttempts (app_Routing c)) 1); lia.
    + lia.
    + eexists. split; [reflexivity|]. simpl. rewrite ResourceSet.NewResourceSet_cap.
      split_and!; try done; try apply ResourceSet.NewResourceSet_wf. lia.
Qed.

End Start.

(** A configuration that passes the validations. *)
Definition sample_config : AppConfig :=
  mkApp (mkServer ":8080" (15 * Second) (30 * Second)) (mkProviderConfig ["vm"] "providers.json")
    (mkHealth (10 * Second) (5 * Second) 3 "") (mkAgent "agent" "lab" "low") (mkSP "")
    (mkDCM "http://dcm" Second Minute (30 * Second) (5 * Second) "" "" "" "") (mkHeartbeatConfig (30 * Second))
    (mkMessaging "nats://nats" "" Minute (15 * Second) 10 Second Minute)
    (mkRouting 3 Second (30 * Second) 100000 (30 * Second) (10 * Second) Second) (mkAuth true "" "").

Definition sample_Parse (s : string) : result URL := Ok {| Scheme := "http"; Host := s; RawQuery := ""; Fragment := "" |}.

Lemma startup_ready_witness :
  ∃ wi, start sample_Parse (λ _, None) (mkStartup None None None None None None) (Ok sample_config) = Val (Ok wi) ∧
    ready (λ _, None) wi.
Proof.
  eexists. split; [vm_compute; reflexivity|].
  apply (startup_ready sample_Parse (λ _, None) (mkStartup None None None None None None) (Ok sample_config)).
  vm_compute. reflexivity.
Defined.
