(* ===== verification/Debounce.v ===== *)
(** * Debouncing of status events

    [Module Draining] models internal/openshift/network/monitoring/debouncer.go
    (internal/openshift/storage/monitoring/debouncer.go is the same code for
    its own event type), [Module Simple] the older
    internal/openshift/container/monitoring/debouncer.go and
    internal/openshift/acmcluster/monitoring/debouncer.go.  The struct behind
    the mutex is a record and a critical section a function on it; timers and
    the goroutines that run their callbacks are part of the system state
    ([sys]), whose steps lie between two critical sections, so that the
    publish callback runs concurrently with submissions and with [Stop]. *)

From S2P Require Import Prelude Effects.

(** ** Histories per instance *)

(** The events of instance [id] in a history of tagged events. *)
Definition proj {E} (id : string) (l : list (string * E)) : list E :=
  (filter (λ p, p.1 = id) l).*2.

Arguments proj : simpl never.

Lemma proj_app {E} id (l k : list (string * E)) : proj id (l ++ k) = proj id l ++ proj id k.
Proof. unfold proj. by rewrite filter_app, fmap_app. Qed.

Lemma proj_one {E} id id' (ev : E) : proj id [(id', ev)] = if decide (id' = id) then [ev] else [].
Proof. unfold proj. rewrite filter_cons. simpl. by case_decide. Qed.

Lemma proj_snoc {E} id (l : list (string * E)) id' ev :
  proj id (l ++ [(id', ev)]) = if decide (id' = id) then proj id l ++ [ev] else proj id l.
Proof. rewrite proj_app, proj_one. case_decide; [done|]. apply app_nil_r. Qed.

Lemma proj_cons {E} id (l : list (string * E)) id' ev :
  proj id ((id', ev) :: l) = if decide (id' = id) then ev :: proj id l else proj id l.
Proof. unfold proj. rewrite filter_cons. simpl. by case_decide. Qed.

Lemma length_proj {E} id (l : list (string * E)) : (length (proj id l) ≤ length l)%nat.
Proof. unfold proj. rewrite length_fmap. apply length_filter. Qed.

Lemma length_proj_ne {E} id (l : list (string * E)) :
  (length l = length (proj id l) + length (filter (λ p, p.1 ≠ id) l))%nat.
Proof.
  unfold proj. rewrite length_fmap. induction l as [|[id' ev] l IH]; [done|].
  rewrite !filter_cons. simpl. repeat case_decide; simpl; try done; lia.
Qed.

Lemma proj_filter_ne {E} id id' (l : list (string * E)) :
  proj id (filter (λ p, p.1 ≠ id') l) = if decide (id = id') then [] else proj id l.
Proof.
  induction l as [|[x ev] l IH]; [by case_decide|]. rewrite filter_cons, proj_cons.
  destruct (decide (x = id')) as [->|Hne].
  - rewrite decide_False by (simpl; tauto). rewrite IH. by repeat case_decide; subst.
  - rewrite decide_True by done. rewrite proj_cons, IH. by repeat case_decide; subst.
Qed.

Lemma length_by_proj {E} (n : nat) : ∀ (S A : list (string * E)),
  (length S ≤ n)%nat → (∀ id, (length (proj id S) ≤ length (proj id A))%nat) → (length S ≤ length A)%nat.
Proof.
  induction n as [|n IH]; intros S A Hn H; [lia|]. destruct S as [|[id ev] S]; [simpl; lia|].
  rewrite (length_proj_ne id A), (length_proj_ne id ((id, ev) :: S)). apply Nat.add_le_mono; [apply H|].
  apply IH.
  - rewrite filter_cons, decide_False by (simpl; tauto).
    pose proof (length_filter (λ p : string * E, p.1 ≠ id) S). simpl in Hn. lia.
  - intros id'. rewrite !proj_filter_ne. case_decide; [simpl; lia|apply H].
Qed.

(** All of [S] are events of [A] in their order and the newest of [A] is the
    newest of [S]. *)
Definition latest {E} (A S : list E) : Prop := S `sublist_of` A ∧ last S = last A.

(** The newest event of [A] is [ev] and has not been taken yet. *)
Definition owed {E} (ev : E) (A S : list E) : Prop := ∃ l, A = l ++ [ev] ∧ S `sublist_of` l.

Lemma owed_sublist {E} (ev : E) A S : owed ev A S → S `sublist_of` A.
Proof. intros (l & -> & H). by apply sublist_inserts_r. Qed.

Lemma owed_take {E} (ev : E) A S : owed ev A S → latest A (S ++ [ev]).
Proof.
  intros (l & -> & H). split; [by apply sublist_app|]. by rewrite !last_snoc.
Qed.

Lemma sublist_owed {E} (ev : E) A S : S `sublist_of` A → owed ev (A ++ [ev]) S.
Proof. intros H. by exists A. Qed.

Lemma latest_sublist {E} (A S : list E) : latest A S → S `sublist_of` A.
Proof. by intros [H _]. Qed.

#[export] Hint Resolve owed_sublist owed_take sublist_owed latest_sublist : agent.

Definition wrapU64 (z : Z) : Z := z mod 2 ^ 64.

Lemma wrapU64_id z : 0 ≤ z < 2 ^ 64 → wrapU64 z = z.
Proof. apply Z.mod_small. Qed.

(** What a critical section does to the runtime's timers; [AfterFunc h id v]
    arms timer [h], whose callback is [runPublish id v]. *)
Inductive timer_op :=
  | StopTimer (h : nat)
  | AfterFunc (h : nat) (id : string) (v : Z).

(** Armed timers.  Stopping a timer that has fired does nothing. *)
Abbreviation timers := (gmap nat (string * Z)).

Definition timer_do (ts : timers) (o : timer_op) : timers :=
  match o with
  | StopTimer h => delete h ts
  | AfterFunc h id v => <[h := (id, v)]> ts
  end.

Module Draining.
Section Debouncer.
Context {E : Type}.

(** ** network/monitoring/debouncer.go *)

Record instanceState := mkInst {
  timer : option nat;
  pending : E;
  ver : Z;
  draining : bool
}.

Record t := mk {
  instances : gmap string instanceState;
  stopped : bool;
  wg : Z
}.

(** [publishFn]: whether the callback is not nil. *)
Definition NewDebouncer (publishFn : bool) : exc t :=
  if negb publishFn then Panicked else Val (mk ∅ false 0).

(** [h] is the handle of the timer [time.AfterFunc] returns. *)
Definition Submit (h : nat) (instanceID : string) (event : E) (d : t) : t * list timer_op :=
  if stopped d then (d, [])
  else
    let old := instances d !! instanceID in
    let tm := old ≫= timer in
    let v := wrapU64 (default 0 (ver <$> old) + 1) in
    let put st := mk (<[instanceID := st]> (instances d)) (stopped d) (wg d) in
    if default false (draining <$> old) then (put (mkInst tm event v true), [])
    else
      (put (mkInst (Some h) event v false),
       (match tm with Some t => [StopTimer t] | None => [] end) ++ [AfterFunc h instanceID v]).

Definition beginPublish (instanceID : string) (v : Z) (d : t) : option E * t :=
  if stopped d then (None, d)
  else
    match instances d !! instanceID with
    | None => (None, d)
    | Some state =>
        if negb (ver state =? v) || draining state then (None, d)
        else
          (Some (pending state),
           mk (<[instanceID := mkInst None (pending state) (ver state) true]> (instances d))
             (stopped d) (wg d + 1))
    end.

(** The event to flush and the version to publish next (0: none). *)
Definition endPublish (instanceID : string) (publishedVer : Z) (d : t) : option E * Z * t :=
  match instances d !! instanceID with
  | None => (None, 0, mk (instances d) (stopped d) (wg d - 1))
  | Some state =>
      if publishedVer <? ver state then
        if stopped d then
          (Some (pending state), 0, mk (delete instanceID (instances d)) (stopped d) (wg d - 1))
        else
          (None, ver state,
           mk (<[instanceID := mkInst (timer state) (pending state) (ver state) false]> (instances d))
             (stopped d) (wg d - 1))
      else (None, 0, mk (delete instanceID (instances d)) (stopped d) (wg d - 1))
  end.

(** One iteration of [Stop]'s loop. *)
Definition stop_one (acc : t * list timer_op * list (string * E)) (id : string)
  : t * list timer_op * list (string * E) :=
  let '(d, ops, toFlush) := acc in
  match instances d !! id with
  | None => acc
  | Some state =>
      let ops' := ops ++ match timer state with Some h => [StopTimer h] | None => [] end in
      if draining state then
        (mk (<[id := mkInst None (pending state) (ver state) true]> (instances d)) (stopped d) (wg d), ops', toFlush)
      else (mk (delete id (instances d)) (stopped d) (wg d), ops', toFlush ++ [(id, pending state)])
  end.

(** The critical section of [Stop]; [ids] is the order in which the map is
    visited.  The flushed events are tagged with their instance. *)
Definition Stop (ids : list string) (d : t) : t * list timer_op * list (string * E) :=
  fold_left stop_one ids (mk (instances d) true (wg d), [], []).

(** ** Goroutines *)

Inductive thread :=
  | Begin (id : string) (v : Z)                                     (* runPublish *)
  | Publishing (id : string) (v : Z) (ev : E)                       (* in publishFn *)
  | Ending (id : string) (v : Z)                                    (* before endPublish *)
  | Flushing (id : string) (ev : E)                                 (* in publishFn( *stopFlush ) *)
  | StopLoop (todo : list (string * E))                             (* Stop, next iteration *)
  | StopPublishing (id : string) (ev : E) (todo : list (string * E)) (* Stop, in publishFn *)
  | StopWaiting                                                     (* Stop, in wg.Wait *)
  | Exited.

(** [accepted]: what was submitted before the stop; [started]: the calls of
    [publishFn]; [delivered]: its returns; [stop_returned]: a [Stop] is over. *)
Record sys := mkSys {
  deb : t;
  armed : timers;
  next : nat;
  threads : list thread;
  accepted : list (string * E);
  started : list (string * E);
  delivered : list (string * E);
  stop_returned : bool
}.

Definition init : sys := mkSys (mk ∅ false 0) ∅ 0 [] [] [] [] false.

Inductive action :=
  | ASubmit (id : string) (ev : E)
  | AFire (h : nat)
  | ARun (i : nat)
  | AStop (order : list string → list string).

Definition with_thread (i : nat) (th : thread) (s : sys) : sys :=
  mkSys (deb s) (armed s) (next s) (<[i := th]> (threads s)) (accepted s) (started s) (delivered s) (stop_returned s).
Definition with_deb (d : t) (s : sys) : sys :=
  mkSys d (armed s) (next s) (threads s) (accepted s) (started s) (delivered s) (stop_returned s).
Definition start_publish (id : string) (ev : E) (s : sys) : sys :=
  mkSys (deb s) (armed s) (next s) (threads s) (accepted s) (started s ++ [(id, ev)]) (delivered s) (stop_returned s).
Definition deliver (id : string) (ev : E) (s : sys) : sys :=
  mkSys (deb s) (armed s) (next s) (threads s) (accepted s) (started s) (delivered s ++ [(id, ev)]) (stop_returned s).

(** The next step of goroutine [i].  [wg.Wait] blocks while the counter is
    positive. *)
Definition run_thread (i : nat) (th : thread) (s : sys) : sys :=
  match th with
  | Begin id v =>
      match beginPublish id v (deb s) with
      | (Some ev, d) => start_publish id ev (with_thread i (Publishing id v ev) (with_deb d s))
      | (None, d) => with_thread i Exited (with_deb d s)
      end
  | Publishing id v ev => deliver id ev (with_thread i (Ending id v) s)
  | Ending id v =>
      let '(stopFlush, followUpVer, d) := endPublish id v (deb s) in
      match stopFlush with
      | Some ev => start_publish id ev (with_thread i (Flushing id ev) (with_deb d s))
      | None =>
          if negb (followUpVer =? 0) then with_thread i (Begin id followUpVer) (with_deb d s)
          else with_thread i Exited (with_deb d s)
      end
  | Flushing id ev => deliver id ev (with_thread i Exited s)
  | StopLoop [] => with_thread i StopWaiting s
  | StopLoop ((id, ev) :: todo) => start_publish id ev (with_thread i (StopPublishing id ev todo) s)
  | StopPublishing id ev todo => deliver id ev (with_thread i (StopLoop todo) s)
  | StopWaiting =>
      if wg (deb s) =? 0 then
        mkSys (deb s) (armed s) (next s) (<[i := Exited]> (threads s)) (accepted s) (started s) (delivered s) true
      else s
  | Exited => s
  end.

Definition step (s : sys) (a : action) : sys :=
  match a with
  | ASubmit id ev =>
      let '(d, ops) := Submit (next s) id ev (deb s) in
      mkSys d (fold_left timer_do ops (armed s)) (S (next s)) (threads s)
        (if stopped (deb s) then accepted s else accepted s ++ [(id, ev)]) (started s) (delivered s) (stop_returned s)
  | AFire h =>
      match armed s !! h with
      | Some (id, v) =>
          mkSys (deb s) (delete h (armed s)) (next s) (threads s ++ [Begin id v])
            (accepted s) (started s) (delivered s) (stop_returned s)
      | None => s
      end
  | ARun i => match threads s !! i with Some th => run_thread i th s | None => s end
  | AStop order =>
      let '(d, ops, toFlush) := Stop (order (map_to_list (instances (deb s))).*1) (deb s) in
      mkSys d (fold_left timer_do ops (armed s)) (next s) (threads s ++ [StopLoop toFlush])
        (accepted s) (started s) (delivered s) (stop_returned s)
  end.

Definition runs (l : list action) : sys := fold_left step l init.

(** ** Ownership of an instance by goroutines *)

Inductive owner := OPublishing (v : Z) (ev : E) | OEnding (v : Z) | OFlush (ev : E) | OTodo (ev : E).

Definition owners (id : string) (th : thread) : list owner :=
  match th with
  | Publishing id' v ev => if decide (id' = id) then [OPublishing v ev] else []
  | Ending id' v => if decide (id' = id) then [OEnding v] else []
  | Flushing id' ev => if decide (id' = id) then [OFlush ev] else []
  | StopLoop todo => OTodo <$> proj id todo
  | StopPublishing id' ev todo => (if decide (id' = id) then [OFlush ev] else []) ++ (OTodo <$> proj id todo)
  | _ => []
  end.

Definition own (id : string) (s : sys) : list owner := threads s ≫= owners id.

Definition busy_ver (o : owner) : option Z :=
  match o with OPublishing v _ | OEnding v => Some v | _ => None end.

(** The events goroutines are publishing. *)
Definition in_publish (o : owner) : option E :=
  match o with OPublishing _ ev | OFlush ev => Some ev | _ => None end.

(** Something will call [beginPublish id v]. *)
Definition trigger (id : string) (v : Z) (s : sys) : Prop :=
  (∃ h, armed s !! h = Some (id, v)) ∨ Begin id v ∈ threads s.

Inductive slot (id : string) (s : sys) : Prop :=
  | SEmpty :
      instances (deb s) !! id = None → own id s = [] →
      latest (proj id (accepted s)) (proj id (started s)) → slot id s
  | SIdle st :
      instances (deb s) !! id = Some st → draining st = false → own id s = [] →
      stopped (deb s) = false → trigger id (ver st) s →
      owed (pending st) (proj id (accepted s)) (proj id (started s)) → slot id s
  | SBusy st o v :
      instances (deb s) !! id = Some st → draining st = true → timer st = None →
      own id s = [o] → busy_ver o = Some v → v ≤ ver st →
      (if v =? ver st then latest (proj id (accepted s)) (proj id (started s))
       else owed (pending st) (proj id (accepted s)) (proj id (started s))) → slot id s
  | SFlush ev :
      instances (deb s) !! id = None → own id s = [OFlush ev] → stopped (deb s) = true →
      latest (proj id (accepted s)) (proj id (started s)) → slot id s
  | STodo ev :
      instances (deb s) !! id = None → own id s = [OTodo ev] → stopped (deb s) = true →
      owed ev (proj id (accepted s)) (proj id (started s)) → slot id s.

Definition is_busy (th : thread) : bool :=
  match th with Publishing _ _ _ | Ending _ _ => true | _ => false end.

Record inv (s : sys) : Prop := {
  inv_slot id : slot id s;
  inv_timer id st h : instances (deb s) !! id = Some st → timer st = Some h →
    (h < next s)%nat ∧ ∀ x, armed s !! h = Some x → x.1 = id;
  inv_armed h x : armed s !! h = Some x → (h < next s)%nat;
  inv_ver id st : instances (deb s) !! id = Some st → 1 ≤ ver st ≤ Z.of_nat (length (accepted s));
  inv_delivered id : proj id (started s) = proj id (delivered s) ++ omap in_publish (own id s);
  inv_wg : wg (deb s) = Z.of_nat (length (filter (λ th, is_busy th = true) (threads s)))
}.

Lemma init_inv : inv init.
Proof.
  split; try done. intros id. apply SEmpty; [apply lookup_empty|done|]. by split.
Qed.

(** An instance is not affected by a step that leaves its part of the state
    alone. *)
Lemma slot_frame id s s' :
  instances (deb s') !! id = instances (deb s) !! id → own id s' = own id s →
  proj id (accepted s') = proj id (accepted s) → proj id (started s') = proj id (started s) →
  stopped (deb s') = stopped (deb s) → (∀ v, trigger id v s → trigger id v s') →
  slot id s → slot id s'.
Proof.
  intros Hi Ho Ha Hs Hst Ht. destruct 1; [eapply SEmpty|eapply SIdle|eapply SBusy|eapply SFlush|eapply STodo];
    rewrite ?Hi, ?Ho, ?Ha, ?Hs, ?Hst; eauto.
Qed.

Lemma own_with_thread id i th th' s :
  threads s !! i = Some th → owners id th' = owners id th → threads s ≫= owners id = <[i := th']> (threads s) ≫= owners id.
Proof.
  intros Hi He. destruct (bind_insert_split (owners id) _ _ _ Hi) as (a & b & -> & H). by rewrite H, He.
Qed.

(** The goroutine that owns an instance is its only owner. *)
Lemma own_single id i th th' o s :
  threads s !! i = Some th → owners id th = [o] → own id s = [o] →
  <[i := th']> (threads s) ≫= owners id = owners id th'.
Proof.
  unfold own. intros Hi He Ho. destruct (bind_insert_split (owners id) _ _ _ Hi) as (a & b & H1 & H2).
  rewrite H1, He in Ho. apply app_singleton_inv in Ho as (-> & -> & _). by rewrite H2, app_nil_r.
Qed.

Lemma own_none id i th th' s :
  threads s !! i = Some th → own id s = [] → <[i := th']> (threads s) ≫= owners id = owners id th'.
Proof.
  unfold own. intros Hi Ho. destruct (bind_insert_split (owners id) _ _ _ Hi) as (a & b & Hab & Hy).
  rewrite Ho in Hab. symmetry in Hab. apply app_eq_nil in Hab as [-> [_ ->]%app_eq_nil]. by rewrite Hy, app_nil_r.
Qed.

Lemma own_elem id i th o s : threads s !! i = Some th → o ∈ owners id th → o ∈ own id s.
Proof. intros Hi Ho. apply list_elem_of_bind. exists th. split; [done|]. by eapply list_elem_of_lookup_2. Qed.

Lemma begin_insert id v i th th' (ths : list thread) :
  ths !! i = Some th → th ≠ Begin id v → Begin id v ∈ ths → Begin id v ∈ <[i := th']> ths.
Proof.
  intros Hi Hne [j Hj]%list_elem_of_lookup. destruct (decide (i = j)) as [->|]; [naive_solver|].
  apply (list_elem_of_lookup_2 _ j). by rewrite list_lookup_insert_ne.
Qed.

Lemma slot_sublist id s : slot id s → proj id (started s) `sublist_of` proj id (accepted s).
Proof.
  destruct 1 as [| |st o v ? ? ? ? ? ? H| |]; [eauto with agent..| |eauto with agent|eauto with agent].
  destruct (v =? ver st); eauto with agent.
Qed.

Lemma slot_free id s :
  slot id s → stopped (deb s) = false → default false (draining <$> instances (deb s) !! id) = false →
  own id s = [].
Proof. destruct 1 as [|st Hi|st o v Hi Hd| |]; try congruence. rewrite Hi. simpl. congruence. Qed.

Lemma slot_busy id s st :
  slot id s → instances (deb s) !! id = Some st → draining st = true →
  ∃ o v, timer st = None ∧ own id s = [o] ∧ busy_ver o = Some v ∧ v ≤ ver st ∧
    (if v =? ver st then latest (proj id (accepted s)) (proj id (started s))
     else owed (pending st) (proj id (accepted s)) (proj id (started s))).
Proof.
  destruct 1 as [| |st' o v| |]; intros Hi Hd; try congruence. assert (st' = st) as -> by congruence. by exists o, v.
Qed.

Lemma timers_after_submit (ts : timers) (tm : option nat) h id v :
  fold_left timer_do ((match tm with Some t => [StopTimer t] | None => [] end) ++ [AfterFunc h id v]) ts
  = <[h := (id, v)]> (match tm with Some t => delete t ts | None => ts end).
Proof. by destruct tm. Qed.

(** A submission that arms a timer. *)
Lemma submit_idle s id ev st :
  inv s → stopped (deb s) = false → Z.of_nat (length (accepted s)) + 1 < 2 ^ 64 →
  instances (deb s) !! id = st → default false (draining <$> st) = false →
  inv (step s (ASubmit id ev)).
Proof.
  intros Hinv Hst Hn Hi Hd. unfold step, Submit. rewrite Hst, Hi, Hd, timers_after_submit.
  set (v := wrapU64 _). set (ts := match st ≫= timer with Some _ => _ | None => _ end).
  assert (1 ≤ v ≤ Z.of_nat (length (accepted s)) + 1) as Hv.
  { subst v. destruct st as [st|]; simpl.
    - pose proof (inv_ver s Hinv id st Hi). rewrite wrapU64_id; lia.
    - rewrite wrapU64_id; lia. }
  assert (∀ h x, ts !! h = Some x → armed s !! h = Some x) as Hts.
  { intros h x. subst ts. destruct (st ≫= timer); [|done]. by intros [_ ?]%lookup_delete_Some. }
  assert (∀ h x, armed s !! h = Some x → x.1 ≠ id → ts !! h = Some x) as Hts'.
  { intros h x Hh Hx. subst ts. destruct st as [st|]; simpl; [|done]. destruct (timer st) as [h'|] eqn:Ht; [|done].
    apply lookup_delete_Some. split; [|done]. intros ->.
    destruct (inv_timer s Hinv id st h Hi Ht) as [_ H]. by apply H in Hh. }
  split; simpl.
  - intros id'. destruct (decide (id' = id)) as [->|Hne].
    + eapply SIdle; simpl; [by rewrite lookup_insert_eq|done| |done| |].
      * apply (slot_free id s); [apply (inv_slot s Hinv)|done|]. by rewrite Hi.
      * left. exists (next s). simpl. by rewrite lookup_insert_eq.
      * rewrite proj_snoc, decide_True by done. by apply sublist_owed, slot_sublist, (inv_slot s Hinv).
    + apply (slot_frame id' s); simpl; [by rewrite lookup_insert_ne|done| |done|done| |apply (inv_slot s Hinv)].
      * by rewrite proj_snoc, decide_False by done.
      * intros v' [[h Hh]|Hb]; [left|by right]. exists h. simpl. rewrite lookup_insert_ne; [by apply Hts'|].
        intros <-. apply (inv_armed s Hinv) in Hh. lia.
  - intros id' st' h [[<- <-]|[Hne Hi']]%lookup_insert_Some Ht; simpl in *.
    + simplify_eq. split; [lia|]. intros x. rewrite lookup_insert_eq. by intros [= <-].
    + destruct (inv_timer s Hinv id' st' h Hi' Ht) as [? H]. split; [lia|].
      intros x. rewrite lookup_insert_ne by lia. intros ?%Hts. by apply H.
  - intros h x [[<- <-]|[_ ?%Hts%(inv_armed s Hinv)]]%lookup_insert_Some; lia.
  - intros id' st'. rewrite length_app. simpl. intros [[<- <-]|[_ ?%(inv_ver s Hinv)]]%lookup_insert_Some; simpl; lia.
  - apply (inv_delivered s Hinv).
  - apply (inv_wg s Hinv).
Qed.

(** A submission while the instance's event is being published. *)
Lemma submit_draining s id ev st :
  inv s → stopped (deb s) = false → Z.of_nat (length (accepted s)) + 1 < 2 ^ 64 →
  instances (deb s) !! id = Some st → draining st = true →
  inv (step s (ASubmit id ev)).
Proof.
  intros Hinv Hst Hn Hi Hd. unfold step, Submit. rewrite Hst, Hi. simpl. rewrite Hd. simpl.
  pose proof (inv_ver s Hinv id st Hi) as Hv. rewrite wrapU64_id by lia.
  destruct (slot_busy id s st) as (o & v & Ht & Ho & Hb & Hle & Hs); [apply (inv_slot s Hinv)|done..|].
  split; simpl.
  - intros id'. destruct (decide (id' = id)) as [->|Hne].
    + eapply SBusy; simpl; [by rewrite lookup_insert_eq|done|done|exact Ho|exact Hb|simpl; lia|]. simpl.
      rewrite (proj2 (Z.eqb_neq v (ver st + 1))) by lia. rewrite proj_snoc, decide_True by done.
      by apply sublist_owed, slot_sublist, (inv_slot s Hinv).
    + apply (slot_frame id' s); simpl; [by rewrite lookup_insert_ne|done| |done|done|done|apply (inv_slot s Hinv)].
      by rewrite proj_snoc, decide_False by done.
  - intros id' st' h [[<- <-]|[_ Hi']]%lookup_insert_Some Ht'; simpl in *; [congruence|].
    destruct (inv_timer s Hinv id' st' h Hi' Ht') as [? H]. split; [lia|done].
  - intros h x ?%(inv_armed s Hinv); lia.
  - intros id' st'. rewrite length_app. simpl. intros [[<- <-]|[_ ?%(inv_ver s Hinv)]]%lookup_insert_Some; simpl; lia.
  - apply (inv_delivered s Hinv).
  - apply (inv_wg s Hinv).
Qed.

Lemma submit_inv s id ev :
  inv s → Z.of_nat (length (accepted s)) + 1 < 2 ^ 64 → inv (step s (ASubmit id ev)).
Proof.
  intros Hinv Hn. destruct (stopped (deb s)) eqn:Hst.
  - unfold step, Submit. rewrite Hst. simpl. destruct Hinv as [Hs Ht Ha Hv Hd Hw]. split; simpl; try done.
    + intros id'. by apply (slot_frame id' s).
    + intros id' st h Hi Hh. destruct (Ht id' st h Hi Hh). split; [lia|done].
    + intros h x ?%Ha. lia.
  - destruct (instances (deb s) !! id) as [st|] eqn:Hi; [destruct (draining st) eqn:Hd|].
    + by eapply submit_draining.
    + by eapply submit_idle.
    + by eapply submit_idle.
Qed.

Lemma fire_inv s h : inv s → inv (step s (AFire h)).
Proof.
  intros Hinv. simpl. destruct (armed s !! h) as [[id v]|] eqn:Hh; [|done].
  assert (∀ id', (threads s ++ [Begin id v]) ≫= owners id' = own id' s) as Hown.
  { intros id'. rewrite bind_app. simpl. by rewrite !app_nil_r. }
  split; simpl.
  - intros id'. apply (slot_frame id' s); simpl; [done|apply Hown|done|done|done| |apply (inv_slot s Hinv)].
    intros v' [[h' Hh']|Hb]; [|by right; simpl; apply elem_of_app; left].
    destruct (decide (h' = h)) as [->|Hne].
    + right. simpl. simplify_eq. apply elem_of_app. right. by apply list_elem_of_singleton.
    + left. exists h'. simpl. by rewrite lookup_delete_ne.
  - intros id' st h' Hi Ht. destruct (inv_timer s Hinv id' st h' Hi Ht) as [? H]. split; [done|].
    intros x [_ ?]%lookup_delete_Some. by apply H.
  - intros h' x [_ ?]%lookup_delete_Some. by eapply (inv_armed s Hinv).
  - apply (inv_ver s Hinv).
  - intros id'. unfold own. simpl. rewrite Hown. apply (inv_delivered s Hinv).
  - rewrite filter_app, length_app. simpl. rewrite (inv_wg s Hinv). simpl. lia.
Qed.

(** ** Steps of a goroutine *)

Lemma busy_count i th th' (ths : list thread) :
  ths !! i = Some th →
  Z.of_nat (length (filter (λ x, is_busy x = true) (<[i := th']> ths)))
  = Z.of_nat (length (filter (λ x, is_busy x = true) ths)) - Z.b2z (is_busy th) + Z.b2z (is_busy th').
Proof.
  intros Hi. rewrite <-(take_drop_middle ths i th Hi) at 2.
  rewrite insert_take_drop by (by eapply lookup_lt_Some). rewrite !filter_app, !filter_cons, !length_app.
  destruct (is_busy th), (is_busy th'); simpl; lia.
Qed.

(** Other instances see nothing of a goroutine's step. *)
Lemma thread_run_frame id' i th th' s s' :
  threads s !! i = Some th → threads s' = <[i := th']> (threads s) →
  owners id' th' = owners id' th → (∀ v, th ≠ Begin id' v) →
  instances (deb s') !! id' = instances (deb s) !! id' → stopped (deb s') = stopped (deb s) →
  armed s' = armed s → accepted s' = accepted s → proj id' (started s') = proj id' (started s) →
  slot id' s → slot id' s'.
Proof.
  intros Hi Ht Ho Hb Hin Hst Har Hac Hs. apply slot_frame; try done.
  - unfold own. rewrite Ht. symmetry. by eapply own_with_thread.
  - by rewrite Hac.
  - intros v [[h Hh]|Hx]; [left|right]; [exists h; by rewrite Har|]. rewrite Ht. by eapply begin_insert.
Qed.

(** What a step of a goroutine has to show, for the one instance [id] it is
    about. *)
Lemma run_inv id i th th' s s' :
  inv s → threads s !! i = Some th → threads s' = <[i := th']> (threads s) →
  armed s' = armed s → next s' = next s → accepted s' = accepted s → stopped (deb s') = stopped (deb s) →
  (∀ id', id' ≠ id →
     owners id' th' = owners id' th ∧ (∀ v, th ≠ Begin id' v) ∧
     instances (deb s') !! id' = instances (deb s) !! id' ∧
     proj id' (started s') = proj id' (started s) ∧ proj id' (delivered s') = proj id' (delivered s)) →
  slot id s' →
  (∀ st, instances (deb s') !! id = Some st →
     ∃ st0, instances (deb s) !! id = Some st0 ∧ ver st = ver st0 ∧ (timer st = None ∨ timer st = timer st0)) →
  proj id (started s') = proj id (delivered s') ++ omap in_publish (own id s') →
  wg (deb s') = wg (deb s) - Z.b2z (is_busy th) + Z.b2z (is_busy th') →
  inv s'.
Proof.
  intros Hinv Hi Ht Har Hnx Hac Hst Hoth Hsl Hin Hdel Hwg. split.
  - intros id'. destruct (decide (id' = id)) as [->|Hne]; [done|].
    destruct (Hoth id' Hne) as (? & ? & ? & ? & ?). eapply thread_run_frame; eauto. apply (inv_slot s Hinv).
  - intros id' st h Hi' Hh. rewrite Har, Hnx. destruct (decide (id' = id)) as [->|Hne].
    + destruct (Hin st Hi') as (st0 & H0 & _ & [?|He]); [congruence|]. apply (inv_timer s Hinv id st0 h H0). congruence.
    + destruct (Hoth id' Hne) as (_ & _ & He & _ & _). rewrite He in Hi'. by apply (inv_timer s Hinv id' st h).
  - rewrite Har, Hnx. apply (inv_armed s Hinv).
  - intros id' st Hi'. rewrite Hac. destruct (decide (id' = id)) as [->|Hne].
    + destruct (Hin st Hi') as (st0 & H0 & -> & _). by apply (inv_ver s Hinv id).
    + destruct (Hoth id' Hne) as (_ & _ & He & _ & _). rewrite He in Hi'. by apply (inv_ver s Hinv id').
  - intros id'. destruct (decide (id' = id)) as [->|Hne]; [done|].
    destruct (Hoth id' Hne) as (Ho & _ & _ & -> & ->). unfold own. rewrite Ht.
    rewrite <-(own_with_thread id' i th th' s Hi Ho). apply (inv_delivered s Hinv).
  - rewrite Hwg, Ht, (busy_count _ _ _ _ Hi), (inv_wg s Hinv). done.
Qed.

Lemma with_deb_same s : with_deb (deb s) s = s.
Proof. by destruct s. Qed.

(** A [runPublish] that finds nothing to do. *)
Lemma begin_skip s i id v :
  inv s → threads s !! i = Some (Begin id v) →
  (∀ st, instances (deb s) !! id = Some st → draining st = false → stopped (deb s) = false → ver st ≠ v) →
  inv (with_thread i Exited s).
Proof.
  intros Hinv Hi Hne.
  assert (own id (with_thread i Exited s) = own id s) as Ho by (symmetry; by eapply own_with_thread).
  apply (run_inv id i (Begin id v) Exited s); simpl; try done.
  - naive_solver.
  - pose proof (inv_slot s Hinv id) as [| st ? ? ? ? Htr| | |];
      [eapply SEmpty|eapply SIdle|eapply SBusy|eapply SFlush|eapply STodo]; simpl; rewrite ?Ho; eauto.
    destruct Htr as [Htr|Htr]; [by left|right]. simpl. eapply begin_insert; [done| |done]. naive_solver.
  - naive_solver.
  - rewrite Ho. apply (inv_delivered s Hinv).
  - lia.
Qed.

Lemma begin_inv s i id v : inv s → threads s !! i = Some (Begin id v) → inv (run_thread i (Begin id v) s).
Proof.
  intros Hinv Hi. unfold run_thread, beginPublish.
  destruct (stopped (deb s)) eqn:Hst; [rewrite with_deb_same; eapply begin_skip; [done|done|congruence]|].
  destruct (instances (deb s) !! id) as [st|] eqn:Hin; [|rewrite with_deb_same; eapply begin_skip; naive_solver].
  destruct (negb (ver st =? v) || draining st) eqn:Hc.
  { rewrite with_deb_same. eapply begin_skip; [done..|]. intros st' ? Hd' _. simplify_eq.
    rewrite Hd', orb_false_r in Hc. breflect. done. }
  breflect. subst v.
  destruct (inv_slot s Hinv id) as [|st' Hin' ? Ho ? Htr Howed| | |]; try congruence.
  assert (st' = st) as -> by congruence.
  pose proof (inv_delivered s Hinv id) as Hdel. rewrite Ho in Hdel. simpl in Hdel. rewrite app_nil_r in Hdel.
  assert (<[i := Publishing id (ver st) (pending st)]> (threads s) ≫= owners id
          = [OPublishing (ver st) (pending st)]) as Ho'.
  { rewrite (own_none id i _ _ s Hi Ho). simpl. by rewrite decide_True by done. }
  eapply (run_inv id i (Begin id (ver st)) (Publishing id (ver st) (pending st)) s); simpl; try done.
  - intros id' Hne. rewrite !decide_False by done. rewrite lookup_insert_ne by done.
    rewrite proj_snoc, decide_False by done. naive_solver.
  - eapply SBusy; simpl; [by rewrite lookup_insert_eq|done|done|exact Ho'|done|simpl; lia|]. simpl.
    rewrite Z.eqb_refl, proj_snoc, decide_True by done. by apply owed_take.
  - intros st0. rewrite lookup_insert_eq. intros [= <-]. simpl. eauto.
  - unfold own. simpl. rewrite Ho', proj_snoc, decide_True by done. simpl. by rewrite Hdel.
  - lia.
Qed.

Lemma own_is id i th o l s :
  slot id s → threads s !! i = Some th → owners id th = o :: l → l = [] ∧ own id s = [o].
Proof.
  intros Hs Hi Ho. destruct (bind_insert_split (owners id) _ _ _ Hi) as (a & b & Hab & _).
  assert (length (own id s) ≤ 1)%nat as Hlen by (destruct Hs as [? ->|? ? ? ->|? ? ? ? ? ? ->|? ? ->|? ? ->]; simpl; lia).
  unfold own in *. rewrite Hab, Ho in Hlen. rewrite !length_app in Hlen. simpl in Hlen. rewrite Hab, Ho.
  assert (a = []) as -> by (apply length_zero_iff_nil; lia).
  assert (b = []) as -> by (apply length_zero_iff_nil; lia).
  assert (l = []) as -> by (apply length_zero_iff_nil; lia). done.
Qed.

(** The instance of a goroutine that is publishing or about to end. *)
Lemma slot_of_busy id s o v :
  slot id s → own id s = [o] → busy_ver o = Some v →
  ∃ st, instances (deb s) !! id = Some st ∧ draining st = true ∧ timer st = None ∧ v ≤ ver st ∧
    (if v =? ver st then latest (proj id (accepted s)) (proj id (started s))
     else owed (pending st) (proj id (accepted s)) (proj id (started s))).
Proof.
  destruct 1 as [? Ho'|st ? ? Ho'|st o' v' ? ? ? Ho'|ev ? Ho'|ev ? Ho']; intros Ho Hb; rewrite Ho in Ho'; try done;
    injection Ho' as ->; try done.
  assert (v' = v) as -> by congruence. by exists st.
Qed.

Lemma publishing_inv s i id v ev :
  inv s → threads s !! i = Some (Publishing id v ev) → inv (run_thread i (Publishing id v ev) s).
Proof.
  intros Hinv Hi. simpl.
  assert (owners id (Publishing id v ev) = [OPublishing v ev]) as Hown by (simpl; by rewrite decide_True).
  destruct (own_is id i _ _ _ s (inv_slot s Hinv id) Hi Hown) as [_ Ho].
  destruct (slot_of_busy id s _ v (inv_slot s Hinv id) Ho eq_refl) as (st & Hin & Hd & Ht & Hle & Hs).
  assert (<[i := Ending id v]> (threads s) ≫= owners id = [OEnding v]) as Ho'.
  { rewrite (own_single id i _ _ _ s Hi Hown Ho). simpl. by rewrite decide_True. }
  pose proof (inv_delivered s Hinv id) as Hdel. rewrite Ho in Hdel. simpl in Hdel.
  eapply (run_inv id i (Publishing id v ev) (Ending id v) s); simpl; try done.
  - intros id' Hne. rewrite !decide_False by done. rewrite proj_snoc, decide_False by done. done.
  - eapply SBusy; simpl; [exact Hin|done|done|exact Ho'|done|done|done].
  - intros st0 ?. exists st0. eauto.
  - unfold own. simpl. rewrite Ho', proj_snoc, decide_True by done. simpl. by rewrite app_nil_r.
  - lia.
Qed.

Lemma ending_inv s i id v :
  inv s → threads s !! i = Some (Ending id v) → inv (run_thread i (Ending id v) s).
Proof.
  intros Hinv Hi. unfold run_thread, endPublish.
  assert (owners id (Ending id v) = [OEnding v]) as Hown by (simpl; by rewrite decide_True).
  destruct (own_is id i _ _ _ s (inv_slot s Hinv id) Hi Hown) as [_ Ho].
  destruct (slot_of_busy id s _ v (inv_slot s Hinv id) Ho eq_refl) as (st & Hin & Hd & Ht & Hle & Hs).
  pose proof (λ th', own_single id i _ th' _ s Hi Hown Ho) as Ho'.
  pose proof (inv_delivered s Hinv id) as Hdel. rewrite Ho in Hdel. simpl in Hdel. rewrite app_nil_r in Hdel.
  pose proof (inv_ver s Hinv id st Hin) as Hv. rewrite Hin.
  assert (∀ id' th', id' ≠ id → owners id' th' = [] → owners id' th' = owners id' (Ending id v)) as Hoth.
  { intros id' th' Hne ->. simpl. by rewrite decide_False. }
  destruct (v <? ver st) eqn:Hlt; [destruct (stopped (deb s)) eqn:Hst|]; breflect.
  - rewrite (proj2 (Z.eqb_neq v (ver st))) in Hs by lia.
    eapply (run_inv id i (Ending id v) (Flushing id (pending st)) s); simpl; try done.
    + intros id' Hne. rewrite !decide_False by done. rewrite lookup_delete_ne by done.
      rewrite proj_snoc, decide_False by done. done.
    + eapply SFlush; simpl; [by rewrite lookup_delete_eq| |done|].
      * unfold own. simpl. rewrite Ho'. simpl. by rewrite decide_True.
      * rewrite proj_snoc, decide_True by done. by apply owed_take.
    + intros st0. by rewrite lookup_delete_eq.
    + unfold own. simpl. rewrite Ho'. simpl. rewrite proj_snoc, !decide_True by done. simpl. by rewrite Hdel.
    + lia.
  - rewrite (proj2 (Z.eqb_neq v (ver st))) in Hs by lia. rewrite (proj2 (Z.eqb_neq (ver st) 0)) by lia. simpl.
    eapply (run_inv id i (Ending id v) (Begin id (ver st)) s); simpl; try done.
    + intros id' Hne. rewrite !decide_False by done. by rewrite lookup_insert_ne.
    + eapply SIdle; simpl; [by rewrite lookup_insert_eq|done| |done| |done].
      * unfold own. simpl. by rewrite Ho'.
      * right. simpl. apply (list_elem_of_lookup_2 _ i). apply list_lookup_insert_eq. by eapply lookup_lt_Some.
    + intros st0. rewrite lookup_insert_eq. intros [= <-]. simpl. eauto.
    + unfold own. simpl. rewrite Ho'. simpl. by rewrite app_nil_r.
    + lia.
  - assert (v = ver st) as -> by lia. rewrite Z.eqb_refl in Hs.
    eapply (run_inv id i (Ending id (ver st)) Exited s); simpl; try done.
    + intros id' Hne. rewrite !decide_False by done. by rewrite lookup_delete_ne.
    + eapply SEmpty; simpl; [by rewrite lookup_delete_eq| |done]. unfold own. simpl. by rewrite Ho'.
    + intros st0. by rewrite lookup_delete_eq.
    + unfold own. simpl. rewrite Ho'. simpl. by rewrite app_nil_r.
    + lia.
Qed.

Lemma slot_of_flush id s ev :
  slot id s → own id s = [OFlush ev] →
  instances (deb s) !! id = None ∧ stopped (deb s) = true ∧ latest (proj id (accepted s)) (proj id (started s)).
Proof.
  destruct 1 as [? Ho'|st ? ? Ho'|st o' v' ? ? ? Ho' Hb|ev' ? Ho'|ev' ? Ho']; intros Ho; rewrite Ho in Ho'; try done;
    by injection Ho' as <-.
Qed.

Lemma slot_of_todo id s ev :
  slot id s → own id s = [OTodo ev] →
  instances (deb s) !! id = None ∧ stopped (deb s) = true ∧ owed ev (proj id (accepted s)) (proj id (started s)).
Proof.
  destruct 1 as [? Ho'|st ? ? Ho'|st o' v' ? ? ? Ho' Hb|ev' ? Ho'|ev' ? Ho']; intros Ho; rewrite Ho in Ho'; try done;
    by injection Ho' as <-.
Qed.

(** A goroutine that ends a publication it made for a stopping debouncer. *)
Lemma flushed_inv s i th th' id ev :
  inv s → threads s !! i = Some th → owners id th = [OFlush ev] → owners id th' = [] →
  (∀ id', id' ≠ id → owners id' th' = owners id' th) → (∀ id' v, th ≠ Begin id' v) →
  is_busy th = false → is_busy th' = false → inv (deliver id ev (with_thread i th' s)).
Proof.
  intros Hinv Hi Hown Hown' Hoth Hnb Hb Hb'.
  destruct (own_is id i _ _ _ s (inv_slot s Hinv id) Hi Hown) as [_ Ho].
  destruct (slot_of_flush id s ev (inv_slot s Hinv id) Ho) as (Hin & Hst & Hs).
  assert (<[i := th']> (threads s) ≫= owners id = []) as Ho' by (by rewrite (own_single id i _ _ _ s Hi Hown Ho)).
  pose proof (inv_delivered s Hinv id) as Hdel. rewrite Ho in Hdel. simpl in Hdel.
  eapply (run_inv id i th th' s); simpl; try done.
  - intros id' Hne. rewrite proj_snoc, decide_False by done. auto.
  - by eapply SEmpty.
  - intros st0 ?. exists st0. eauto.
  - unfold own. simpl. rewrite Ho', proj_snoc, decide_True by done. simpl. by rewrite app_nil_r.
  - rewrite Hb, Hb'. simpl. lia.
Qed.

(** A step that changes nothing but the goroutine's own position. *)
Lemma silent_inv s s' i th th' :
  inv s → threads s !! i = Some th → threads s' = <[i := th']> (threads s) →
  deb s' = deb s → armed s' = armed s → next s' = next s → accepted s' = accepted s →
  started s' = started s → delivered s' = delivered s →
  (∀ id, owners id th' = owners id th) → (∀ id v, th ≠ Begin id v) → is_busy th' = is_busy th → inv s'.
Proof.
  intros Hinv Hi Ht Hd Ha Hnx Hac Hs Hdl Ho Hb Hby.
  assert (own "" s' = own "" s) as Hown by (unfold own; rewrite Ht; symmetry; by eapply own_with_thread).
  eapply (run_inv "" i th th' s); rewrite ?Hd, ?Hs, ?Hdl; eauto.
  - apply (thread_run_frame "" i th th' s); rewrite ?Hd, ?Hs; auto. apply (inv_slot s Hinv).
  - rewrite Hown. apply (inv_delivered s Hinv).
  - rewrite Hby. lia.
Qed.

Lemma stop_publish_inv s i id ev todo :
  inv s → threads s !! i = Some (StopLoop ((id, ev) :: todo)) → inv (run_thread i (StopLoop ((id, ev) :: todo)) s).
Proof.
  intros Hinv Hi. simpl.
  assert (owners id (StopLoop ((id, ev) :: todo)) = OTodo ev :: (OTodo <$> proj id todo)) as Hown.
  { simpl. by rewrite proj_cons, decide_True. }
  destruct (own_is id i _ _ _ s (inv_slot s Hinv id) Hi Hown) as [Hnil Ho]. rewrite Hnil in Hown.
  destruct (slot_of_todo id s ev (inv_slot s Hinv id) Ho) as (Hin & Hst & Hs).
  assert (<[i := StopPublishing id ev todo]> (threads s) ≫= owners id = [OFlush ev]) as Ho'.
  { rewrite (own_single id i _ _ _ s Hi Hown Ho). simpl. by rewrite decide_True, Hnil. }
  pose proof (inv_delivered s Hinv id) as Hdel. rewrite Ho in Hdel. simpl in Hdel. rewrite app_nil_r in Hdel.
  eapply (run_inv id i (StopLoop ((id, ev) :: todo)) (StopPublishing id ev todo) s); simpl; try done.
  - intros id' Hne. rewrite proj_snoc, proj_cons, !decide_False by done. done.
  - eapply SFlush; simpl; [done|exact Ho'|done|]. rewrite proj_snoc, decide_True by done. by apply owed_take.
  - intros st0 ?. exists st0. eauto.
  - unfold own. simpl. rewrite Ho', proj_snoc, decide_True by done. simpl. by rewrite Hdel.
  - lia.
Qed.

Lemma run_thread_inv s i th : inv s → threads s !! i = Some th → inv (run_thread i th s).
Proof.
  intros Hinv Hi. destruct th as [id v|id v ev|id v|id ev|[|[id ev] todo]|id ev todo| |].
  - by apply begin_inv.
  - by apply publishing_inv.
  - by apply ending_inv.
  - eapply flushed_inv; eauto; simpl; [by rewrite decide_True|]. intros id' Hne. by rewrite decide_False.
  - by eapply silent_inv.
  - by apply stop_publish_inv.
  - assert (owners id (StopPublishing id ev todo) = OFlush ev :: (OTodo <$> proj id todo)) as Hown.
    { simpl. by rewrite decide_True. }
    destruct (own_is id i _ _ _ s (inv_slot s Hinv id) Hi Hown) as [Hnil _]. rewrite Hnil in Hown.
    eapply flushed_inv; eauto. intros id' Hne. simpl. by rewrite decide_False.
  - simpl. case_match; [|done]. by eapply silent_inv.
  - done.
Qed.

(** ** Stop *)

Definition stopped_instance (st : option instanceState) : option instanceState :=
  match st with
  | Some state => if draining state then Some (mkInst None (pending state) (ver state) true) else None
  | None => None
  end.

Definition flushed_instance (st : option instanceState) : list E :=
  match st with Some state => if draining state then [] else [pending state] | None => [] end.

Definition is_stop (o : timer_op) : Prop := ∃ h, o = StopTimer h.

Lemma stop_one_spec d ops fl id0 :
  ∃ d1 ops1 fl1, stop_one (d, ops, fl) id0 = (d1, ops1, fl1) ∧
    (∀ id, instances d1 !! id = if decide (id = id0) then stopped_instance (instances d !! id) else instances d !! id) ∧
    stopped d1 = stopped d ∧ wg d1 = wg d ∧ (Forall is_stop ops → Forall is_stop ops1) ∧
    (∀ id, proj id fl1 = proj id fl ++ if decide (id = id0) then flushed_instance (instances d !! id) else []).
Proof.
  unfold stop_one. destruct (instances d !! id0) as [st|] eqn:Hi; [destruct (draining st) eqn:Hd|];
    eexists _, _, _; (split; [reflexivity|]); simpl; split_and!; try done.
  - intros id. case_decide; [subst; by rewrite lookup_insert_eq, Hi; simpl; rewrite Hd|by rewrite lookup_insert_ne].
  - intros H. apply Forall_app. split; [done|]. destruct (timer st); repeat constructor. by eexists.
  - intros id. case_decide; [subst; rewrite Hi; simpl; rewrite Hd|]; by rewrite app_nil_r.
  - intros id. case_decide; [subst; by rewrite lookup_delete_eq, Hi; simpl; rewrite Hd|by rewrite lookup_delete_ne].
  - intros H. apply Forall_app. split; [done|]. destruct (timer st); repeat constructor. by eexists.
  - intros id. rewrite proj_app, proj_one. case_decide; [subst; rewrite decide_True, Hi by done; simpl; by rewrite Hd|].
    by rewrite decide_False by done.
  - intros id. case_decide; [subst; by rewrite Hi|done].
  - intros id. case_decide; [subst; rewrite Hi; simpl|]; by rewrite app_nil_r.
Qed.

Lemma stop_fold ids : ∀ d ops fl,
  NoDup ids →
  let '(d', ops', fl') := fold_left stop_one ids (d, ops, fl) in
  (∀ id, instances d' !! id = if decide (id ∈ ids) then stopped_instance (instances d !! id) else instances d !! id) ∧
  stopped d' = stopped d ∧ wg d' = wg d ∧ (Forall is_stop ops → Forall is_stop ops') ∧
  (∀ id, proj id fl' = proj id fl ++ if decide (id ∈ ids) then flushed_instance (instances d !! id) else []).
Proof.
  induction ids as [|id0 ids IH]; intros d ops fl Hnd; cbn [fold_left].
  { split_and!; try done; intros id. by rewrite decide_False, app_nil_r by set_solver. }
  apply NoDup_cons in Hnd as [Hni Hnd].
  assert (∀ (X : Type) (f g : X) id, id ≠ id0 →
    (if decide (id ∈ id0 :: ids) then f else g) = if decide (id ∈ ids) then f else g) as Hdec.
  { intros X f g id Hne. destruct (decide (id ∈ ids)); [rewrite decide_True by set_solver|rewrite decide_False by set_solver]; done. }
  destruct (stop_one_spec d ops fl id0) as (d1 & ops1 & fl1 & -> & H1 & H2 & H3 & H4 & H5).
  specialize (IH d1 ops1 fl1 Hnd). destruct (fold_left stop_one ids (d1, ops1, fl1)) as [[d' ops'] fl'].
  destruct IH as (I1 & I2 & I3 & I4 & I5). split_and!; [|congruence|congruence|tauto|].
  - intros id. rewrite I1, H1. destruct (decide (id = id0)) as [->|Hne]; [|by rewrite Hdec].
    by rewrite decide_False, decide_True by set_solver.
  - intros id. rewrite I5, H5, H1, <-(assoc_L (++)). f_equal. destruct (decide (id = id0)) as [->|Hne]; [|by rewrite Hdec].
    by rewrite decide_False, decide_True, app_nil_r by set_solver.
Qed.

Lemma stop_timers ops ts h x : Forall is_stop ops → fold_left timer_do ops ts !! h = Some x → ts !! h = Some x.
Proof.
  intros Hs. revert ts. induction Hs as [|o ops [h' ->] _ IH]; intros ts; simpl; [done|].
  intros [_ H]%IH%lookup_delete_Some. done.
Qed.

Lemma stop_inv s order : (∀ l, order l ≡ₚ l) → inv s → inv (step s (AStop order)).
Proof.
  intros Hord Hinv. unfold step, Stop. set (ids := order _).
  assert (NoDup ids) as Hnd by (unfold ids; rewrite Hord; apply NoDup_fst_map_to_list).
  assert (∀ id, instances (deb s) !! id ≠ None → id ∈ ids) as Hids.
  { intros id Hi. unfold ids. rewrite Hord. destruct (instances (deb s) !! id) as [st|] eqn:Ei; [|done].
    apply list_elem_of_fmap. exists (id, st). split; [done|]. by apply elem_of_map_to_list. }
  pose proof (stop_fold ids (mk (instances (deb s)) true (wg (deb s))) [] [] Hnd) as H.
  destruct (fold_left stop_one ids _) as [[d' ops] fl]. destruct H as (H1 & H2 & H3 & H4 & H5). simpl in *.
  assert (∀ id, instances d' !! id = stopped_instance (instances (deb s) !! id)) as H1'.
  { intros id. rewrite H1. case_decide as Hd; [done|]. destruct (instances (deb s) !! id) eqn:Ei; [|done].
    destruct Hd. apply Hids. congruence. }
  assert (∀ id, proj id fl = flushed_instance (instances (deb s) !! id)) as H5'.
  { intros id. rewrite H5. case_decide as Hd; [done|]. destruct (instances (deb s) !! id) eqn:Ei; [|done].
    destruct Hd. apply Hids. congruence. }
  clear H1 H5. specialize (H4 (Forall_nil_2 _)).
  assert (∀ id, (threads s ++ [StopLoop fl]) ≫= owners id = own id s ++ (OTodo <$> flushed_instance (instances (deb s) !! id))) as Hown.
  { intros id. rewrite bind_app. simpl. by rewrite app_nil_r, H5'. }
  split; simpl.
  - intros id. destruct (inv_slot s Hinv id) as [Hi Ho Hl|st Hi Hd Ho Hst Ht Hl|st o v Hi Hd Ht Ho Hb Hle Hl|ev Hi Ho Hst Hl|ev Hi Ho Hst Hl].
    + eapply SEmpty; simpl; [by rewrite H1', Hi| |done]. unfold own. simpl. by rewrite Hown, Ho, Hi.
    + eapply (STodo _ _ (pending st)); simpl; [by rewrite H1', Hi; simpl; rewrite Hd| |done|done].
      unfold own. simpl. rewrite Hown, Ho, Hi. simpl. by rewrite Hd.
    + eapply (SBusy _ _ (mkInst None (pending st) (ver st) true)); simpl; [by rewrite H1', Hi; simpl; rewrite Hd|done|done| |exact Hb|done|done].
      unfold own. simpl. rewrite Hown, Ho, Hi. simpl. by rewrite Hd.
    + eapply SFlush; simpl; [by rewrite H1', Hi| |done|done]. unfold own. simpl. rewrite Hown, Ho, Hi. done.
    + eapply STodo; simpl; [by rewrite H1', Hi| |done|done]. unfold own. simpl. rewrite Hown, Ho, Hi. done.
  - intros id st h. rewrite H1'. destruct (instances (deb s) !! id) as [st'|]; simpl; [|done].
    destruct (draining st'); [|done]. by intros [= <-].
  - intros h x Hh%stop_timers; [by eapply (inv_armed s Hinv)|done].
  - intros id st. rewrite H1'. destruct (instances (deb s) !! id) as [st'|] eqn:Ei; simpl; [|done].
    destruct (draining st'); [|done]. intros [= <-]. by apply (inv_ver s Hinv id st').
  - intros id. unfold own. simpl. rewrite Hown, omap_app, (inv_delivered s Hinv).
    replace (omap in_publish (OTodo <$> flushed_instance (instances (deb s) !! id))) with (@nil E); [by rewrite app_nil_r|].
    destruct (instances (deb s) !! id) as [st|]; simpl; [|done]. by destruct (draining st).
  - rewrite H3, filter_app, length_app, (inv_wg s Hinv). simpl. lia.
Qed.

(** ** Main theorems *)

Definition publishes (th : thread) : option (string * E) :=
  match th with
  | Publishing id _ ev | Flushing id ev | StopPublishing id ev _ => Some (id, ev)
  | _ => None
  end.

Definition quiescent (s : sys) : Prop := armed s = ∅ ∧ Forall (λ th, th = Exited) (threads s).

(** [Stop] visits the map in some order. *)
Definition fair (a : action) : Prop :=
  match a with AStop order => ∀ l, order l ≡ₚ l | _ => True end.

Lemma run_thread_accepted i th s : accepted (run_thread i th s) = accepted s.
Proof. unfold run_thread, beginPublish, endPublish. cases; done. Qed.

Lemma accepted_length a s : (length (accepted (step s a)) ≤ S (length (accepted s)))%nat.
Proof.
  destruct a as [id ev|h|i|order]; simpl.
  - destruct (Submit _ _ _ _) as [d ops]. simpl. case_match; [lia|]. rewrite length_app. simpl. lia.
  - destruct (armed s !! h) as [[??]|]; simpl; lia.
  - case_match; [rewrite run_thread_accepted|]; lia.
  - destruct (Stop _ _) as [[??]?]. simpl. lia.
Qed.

Lemma runs_inv l s :
  inv s → Forall fair l → Z.of_nat (length (accepted s)) + Z.of_nat (length l) < 2 ^ 64 → inv (fold_left step l s).
Proof.
  revert s. induction l as [|a l IH]; intros s Hinv Hf Hn; [done|]. cbn [fold_left].
  apply Forall_cons in Hf as [Ha Hf]. pose proof (accepted_length a s). simpl in Hn. apply IH; [|done|lia].
  destruct a as [id ev|h|i|order].
  - apply submit_inv; [done|lia].
  - by apply fire_inv.
  - simpl. destruct (threads s !! i) eqn:Hi; [by apply run_thread_inv|done].
  - by apply stop_inv.
Qed.

Lemma publishes_owner id th ev : publishes th = Some (id, ev) → OFlush ev ∈ owners id th ∨ ∃ v, OPublishing v ev ∈ owners id th.
Proof. destruct th; simpl; intros [= -> ->]; rewrite ?decide_True by done; set_solver. Qed.

Lemma publish_serial s i j ti tj id ei ej :
  inv s → i ≠ j → threads s !! i = Some ti → threads s !! j = Some tj →
  publishes ti = Some (id, ei) → publishes tj = Some (id, ej) → False.
Proof.
  intros Hinv Hne Hi Hj Hpi Hpj.
  assert (∃ o, o ∈ owners id ti) as [oi Hoi] by (destruct (publishes_owner id ti ei Hpi) as [|[??]]; eauto).
  assert (∃ o, o ∈ owners id tj) as [oj Hoj] by (destruct (publishes_owner id tj ej Hpj) as [|[??]]; eauto).
  destruct (owners id ti) as [|o l] eqn:Eo; [by apply elem_of_nil in Hoi|].
  destruct (own_is id i ti o l s (inv_slot s Hinv id) Hi Eo) as [-> Ho].
  pose proof (own_single id i ti Exited o s Hi Eo Ho) as Hnil. simpl in Hnil.
  assert (oj ∈ <[i := Exited]> (threads s) ≫= owners id) as Hx; [|rewrite Hnil in Hx; by apply elem_of_nil in Hx].
  apply list_elem_of_bind. exists tj. split; [done|]. apply (list_elem_of_lookup_2 _ j). by rewrite list_lookup_insert_ne.
Qed.

Lemma quiescent_own s id : quiescent s → own id s = [].
Proof.
  intros [_ H]. unfold own. induction H as [|th ths -> _ IH]; [done|]. by rewrite bind_cons.
Qed.

Lemma quiescent_latest s id :
  inv s → quiescent s → proj id (started s) = proj id (delivered s) ∧ latest (proj id (accepted s)) (proj id (started s)).
Proof.
  intros Hinv Hq. pose proof (quiescent_own s id Hq) as Ho.
  pose proof (inv_delivered s Hinv id) as Hd. rewrite Ho in Hd. simpl in Hd. rewrite app_nil_r in Hd. split; [done|].
  destruct (inv_slot s Hinv id) as [|st ? ? ? ? Htr|? ? ? ? ? ? Ho'|? ? Ho'|? ? Ho']; [done| |by rewrite Ho in Ho'..].
  destruct Hq as [Ha Ht], Htr as [[h Hh]|Hb]; [by rewrite Ha, lookup_empty in Hh|].
  rewrite Forall_forall in Ht. by apply Ht in Hb.
Qed.

(** ** Termination *)

(** Actions of timers and goroutines that can happen; [Submit] and [Stop] come
    from the outside. *)
Definition enabled (s : sys) (a : action) : Prop :=
  match a with
  | AFire h => is_Some (armed s !! h)
  | ARun i =>
      match threads s !! i with
      | None | Some Exited => False
      | Some StopWaiting => wg (deb s) = 0
      | Some _ => True
      end
  | _ => False
  end.

Fixpoint internal_run (s : sys) (l : list action) : Prop :=
  match l with [] => True | a :: l' => enabled s a ∧ internal_run (step s a) l' end.

Definition weight (th : thread) : nat :=
  match th with
  | Begin _ _ => 2
  | Publishing _ _ _ => 4
  | Ending _ _ => 3
  | Flushing _ _ => 1
  | StopLoop todo => 2 + length todo
  | StopPublishing _ _ todo => 3 + length todo
  | StopWaiting => 1
  | Exited => 0
  end.

Definition weights (ths : list thread) : nat := sum_list_with weight ths.

Definition potential (s : sys) : nat :=
  5 * (length (accepted s) - length (started s)) + 3 * size (armed s) + weights (threads s).

Lemma weights_insert i th th' ths :
  ths !! i = Some th → (weights (<[i := th']> ths) + weight th = weights ths + weight th')%nat.
Proof.
  intros Hi. rewrite <-(take_drop_middle ths i th Hi) at 2.
  rewrite insert_take_drop by (by eapply lookup_lt_Some).
  unfold weights. rewrite !sum_list_with_app. simpl. lia.
Qed.

Lemma started_length s : inv s → (length (started s) ≤ length (accepted s))%nat.
Proof.
  intros Hinv. apply (length_by_proj (length (started s))); [done|]. intros id.
  apply sublist_length, slot_sublist, (inv_slot s Hinv).
Qed.

(** A goroutine's step starts at most one publication, and pays for its new
    position unless it does. *)
Lemma run_weight i th s :
  threads s !! i = Some th → enabled s (ARun i) →
  let s' := run_thread i th s in
  armed s' = armed s ∧ accepted s' = accepted s ∧
  ((length (started s') = length (started s) ∧ weights (threads s') < weights (threads s)) ∨
   (length (started s') = S (length (started s)) ∧ weights (threads s') ≤ weights (threads s) + 2))%nat.
Proof.
  intros Hi He. simpl in He. rewrite Hi in He. pose proof (λ th', weights_insert i th th' _ Hi) as Hw. cbv zeta.
  unfold run_thread, beginPublish, endPublish.
  destruct th as [id v|id v ev|id v|id ev|[|[id ev] todo]|id ev todo| |]; try done; cases; try (by destruct He);
    try (exfalso; breflect; done);
    simpl; split_and!; try done; rewrite ?length_app;
    match goal with |- context [weights (<[_ := ?th]> _)] => specialize (Hw th) end; simpl in *; lia.
Qed.

Lemma internal_decreases s a : inv s → enabled s a → inv (step s a) ∧ (potential (step s a) < potential s)%nat.
Proof.
  intros Hinv He. destruct a as [|h|i|]; try done.
  - split; [by apply fire_inv|]. simpl in *. destruct (armed s !! h) as [[id v]|] eqn:Hh; [|by destruct He].
    unfold potential, weights. simpl. rewrite sum_list_with_app. simpl.
    pose proof (map_size_delete_Some h (armed s) (mk_is_Some _ _ Hh)). assert (size (armed s) ≠ 0%nat); [|lia].
    intros H0%map_size_empty_inv. by rewrite H0, lookup_empty in Hh.
  - simpl. destruct (threads s !! i) as [th|] eqn:Hi; [|by simpl in He; rewrite Hi in He].
    pose proof (run_thread_inv s i th Hinv Hi) as Hinv'. split; [done|].
    destruct (run_weight i th s Hi He) as (Ha & Hac & H). pose proof (started_length _ Hinv') as Hl.
    rewrite Hac in Hl. unfold potential. rewrite Ha, Hac. lia.
Qed.

Lemma blocked_quiescent s : inv s → (∀ a, ¬ enabled s a) → quiescent s.
Proof.
  intros Hinv Hno.
  assert (∀ i th, threads s !! i = Some th → th = Exited ∨ th = StopWaiting) as Hth.
  { intros i th Hi. specialize (Hno (ARun i)). simpl in Hno. rewrite Hi in Hno. destruct th; auto; by destruct Hno. }
  assert (wg (deb s) = 0) as Hwg.
  { rewrite (inv_wg s Hinv). destruct (filter _ _) as [|th l] eqn:Ef; [done|].
    assert (th ∈ filter (λ th, is_busy th = true) (threads s)) as [Hb [i Hi]%list_elem_of_lookup]%list_elem_of_filter
      by (rewrite Ef; left).
    by destruct (Hth i th Hi) as [->| ->]. }
  split.
  - apply map_eq. intros h. rewrite lookup_empty. destruct (armed s !! h) as [x|] eqn:Hh; [|done].
    destruct (Hno (AFire h)). simpl. by rewrite Hh.
  - apply Forall_forall. intros th [i Hi]%list_elem_of_lookup. destruct (Hth i th Hi) as [->| ->]; [done|].
    destruct (Hno (ARun i)). simpl. by rewrite Hi.
Qed.

(** C34: the debouncer never reorders, invents or loses the newest status.  Whatever
    the interleaving of submissions, timers firing late or after they were
    stopped, running publish callbacks and [Stop] (for fewer than 2^64 actions,
    the range of the version counter): no two publish callbacks of one instance
    run at the same time; what was published for an instance is a subsequence of
    what was submitted for it before the stop; and once nothing is pending or
    running, the last event published for each instance is the last one
    submitted. *)
Theorem debouncer_publishes_latest (l : list action) :
  Forall fair l → Z.of_nat (length l) < 2 ^ 64 →
  let s := runs l in
  (∀ i j ti tj id ei ej, i ≠ j → threads s !! i = Some ti → threads s !! j = Some tj →
     publishes ti = Some (id, ei) → publishes tj ≠ Some (id, ej)) ∧
  (∀ id, proj id (delivered s) `sublist_of` proj id (accepted s)) ∧
  (quiescent s → ∀ id, last (proj id (delivered s)) = last (proj id (accepted s))).
Proof.
  intros Hf Hn. cbv zeta.
  assert (inv (runs l)) as Hinv by (apply runs_inv; [apply init_inv|done|simpl; lia]). split_and!.
  - intros i j ti tj id ei ej Hne Hi Hj Hpi Hpj. by eapply (publish_serial _ i j).
  - intros id. trans (proj id (started (runs l))); [|apply slot_sublist, (inv_slot _ Hinv)].
    rewrite (inv_delivered _ Hinv id). by apply sublist_inserts_r.
  - intros Hq id. by destruct (quiescent_latest _ id Hinv Hq) as [<- [_ ?]].
Qed.

(** The debouncer comes to rest.  From every reachable state, the timers and
    goroutines can only take a bounded number of steps without a new submission
    or [Stop], under every schedule, and when none of them can take a step
    nothing is pending: every publication that is owed is made, and [Stop]
    returns. *)
Theorem debouncer_drains (l l' : list action) :
  Forall fair l → Z.of_nat (length l) < 2 ^ 64 → internal_run (runs l) l' →
  (length l' ≤ potential (runs l))%nat ∧
  ((∀ a, ¬ enabled (fold_left step l' (runs l)) a) → quiescent (fold_left step l' (runs l))).
Proof.
  intros Hf Hn. assert (inv (runs l)) as Hinv by (apply runs_inv; [apply init_inv|done|simpl; lia]).
  revert Hinv. generalize (runs l) as s. clear Hf Hn. induction l' as [|a l' IH]; intros s Hinv Hr.
  - split; [simpl; lia|]. by apply blocked_quiescent.
  - destruct Hr as [He Hr]. destruct (internal_decreases s a Hinv He) as [Hinv' Hp].
    destruct (IH _ Hinv' Hr) as [Hlen Hq]. split; [simpl; lia|done].
Qed.

End Debouncer.
Arguments instanceState : clear implicits.
Arguments t : clear implicits.
Arguments thread : clear implicits.
Arguments sys : clear implicits.
Arguments action : clear implicits.
Arguments owner : clear implicits.
End Draining.

(** ** A run of the draining debouncer *)

Module DrainingRun.
Import Draining.

(** Two events for one instance coalesce; a third arrives while the second is
    being published and is published by the follow-up. *)
Definition sample : list (action Z) :=
  [ASubmit "a" 1; ASubmit "a" 2; AFire 1; ARun 0; ASubmit "a" 3; ARun 0; ARun 0].

Definition sample_rest : list (action Z) := [ARun 0; ARun 0; ARun 0].

(** [Stop] while a publication runs and a newer event is pending. *)
Definition sample_stop : list (action Z) :=
  [ASubmit "a" 1; AFire 0; ARun 0; ASubmit "a" 2; AStop id; ARun 0; ARun 0; ARun 1; ARun 1].

Lemma debouncer_publishes_latest_witness :
  quiescent (runs (sample ++ sample_rest)) ∧
  last (proj "a" (delivered (runs (sample ++ sample_rest)))) = Some 3.
Proof.
  assert (quiescent (runs (sample ++ sample_rest))) as Hq by (split; vm_compute; [done|repeat constructor]).
  split; [done|].
  rewrite (proj2 (proj2 (debouncer_publishes_latest (sample ++ sample_rest) ltac:(repeat constructor) ltac:(by vm_compute))) Hq "a").
  by vm_compute.
Defined.

Lemma debouncer_drains_witness :
  internal_run (runs sample) sample_rest ∧ (length sample_rest ≤ potential (runs sample))%nat.
Proof.
  assert (internal_run (runs sample) sample_rest) as Hr by (vm_compute; repeat split; eauto). split; [done|].
  exact (proj1 (debouncer_drains sample sample_rest ltac:(repeat constructor) ltac:(by vm_compute) Hr)).
Defined.

(** [Stop] has returned while [publishFn] still runs with the last event: the
    goroutine that found the newer event under the lock leaves the wait group
    before it calls [publishFn( *stopFlush )]. *)
Lemma stop_returns_before_flush :
  Forall fair sample_stop ∧ stop_returned (runs sample_stop) = true ∧
  threads (runs sample_stop) !! 0%nat = Some (Flushing "a" 2) ∧
  proj "a" (delivered (runs sample_stop)) = [1].
Proof. split; [|by vm_compute]. unfold sample_stop. repeat (apply Forall_cons_2; [by try (intros l; unfold id)|]). apply Forall_nil_2. Qed.
End DrainingRun.

Module Simple.
Section Debouncer.
Context {E : Type}.

(** ** container/monitoring/debouncer.go *)

Record t := mk {
  timers : gmap string nat;
  stopped : bool;
  wg : Z
}.

Definition NewDebouncer : t := mk ∅ false 0.

(** The timer stopped, if any, and whether timer [h] is armed (its callback
    captures the instance and the event). *)
Definition Submit (h : nat) (instanceID : string) (d : t) : t * option nat * bool :=
  if stopped d then (d, None, false)
  else (mk (<[instanceID := h]> (timers d)) (stopped d) (wg d), timers d !! instanceID, true).

(** The critical section of a timer's callback: whether it goes on to publish. *)
Definition fired (instanceID : string) (d : t) : bool * t :=
  if stopped d then (false, d)
  else (true, mk (delete instanceID (timers d)) (stopped d) (wg d + 1)).

Definition Done (d : t) : t := mk (timers d) (stopped d) (wg d - 1).

(** The critical section of [Stop]: the timers it stops.  Every entry of the map
    is visited, so the order does not matter. *)
Definition Stop (d : t) : t * list nat := (mk ∅ true (wg d), (map_to_list (timers d)).*2).

(** ** Goroutines *)

Inductive thread :=
  | Fired (id : string) (ev : E)        (* the callback, before its critical section *)
  | Publishing (id : string) (ev : E)   (* in publishFn *)
  | StopWaiting                         (* Stop, in wg.Wait *)
  | Exited.

Record sys := mkSys {
  deb : t;
  armed : gmap nat (string * E);
  next : nat;
  threads : list thread;
  accepted : list (string * E);
  started : list (string * E);
  delivered : list (string * E);
  stop_returned : bool
}.

Definition init : sys := mkSys NewDebouncer ∅ 0 [] [] [] [] false.

Inductive action := ASubmit (id : string) (ev : E) | AFire (h : nat) | ARun (i : nat) | AStop.

Definition run_thread (i : nat) (th : thread) (s : sys) : sys :=
  match th with
  | Fired id ev =>
      match fired id (deb s) with
      | (true, d) =>
          mkSys d (armed s) (next s) (<[i := Publishing id ev]> (threads s)) (accepted s)
            (started s ++ [(id, ev)]) (delivered s) (stop_returned s)
      | (false, d) =>
          mkSys d (armed s) (next s) (<[i := Exited]> (threads s)) (accepted s) (started s) (delivered s) (stop_returned s)
      end
  | Publishing id ev =>
      mkSys (Done (deb s)) (armed s) (next s) (<[i := Exited]> (threads s)) (accepted s) (started s)
        (delivered s ++ [(id, ev)]) (stop_returned s)
  | StopWaiting =>
      if wg (deb s) =? 0 then
        mkSys (deb s) (armed s) (next s) (<[i := Exited]> (threads s)) (accepted s) (started s) (delivered s) true
      else s
  | Exited => s
  end.

Definition step (s : sys) (a : action) : sys :=
  match a with
  | ASubmit id ev =>
      match Submit (next s) id (deb s) with
      | (d, old, true) =>
          mkSys d (<[next s := (id, ev)]> (match old with Some h => delete h (armed s) | None => armed s end))
            (S (next s)) (threads s) (accepted s ++ [(id, ev)]) (started s) (delivered s) (stop_returned s)
      | (d, _, false) => mkSys d (armed s) (next s) (threads s) (accepted s) (started s) (delivered s) (stop_returned s)
      end
  | AFire h =>
      match armed s !! h with
      | Some (id, ev) =>
          mkSys (deb s) (delete h (armed s)) (next s) (threads s ++ [Fired id ev]) (accepted s) (started s) (delivered s) (stop_returned s)
      | None => s
      end
  | ARun i => match threads s !! i with Some th => run_thread i th s | None => s end
  | AStop =>
      let '(d, hs) := Stop (deb s) in
      mkSys d (fold_right delete (armed s) hs) (next s) (threads s ++ [StopWaiting])
        (accepted s) (started s) (delivered s) (stop_returned s)
  end.

Definition runs (l : list action) : sys := fold_left step l init.

Definition publishes (th : thread) : list (string * E) :=
  match th with Publishing id ev => [(id, ev)] | _ => [] end.

Definition quiescent (s : sys) : Prop := armed s = ∅ ∧ Forall (λ th, th = Exited) (threads s).

(** Where event [ev] of [id] is: its timer is armed, has fired, or [publishFn]
    was called with it. *)
Definition located (s : sys) (x : string * E) : Prop :=
  (∃ h, armed s !! h = Some x) ∨ Fired x.1 x.2 ∈ threads s ∨ x ∈ started s.

Record inv (s : sys) : Prop := {
  inv_latest id ev : stopped (deb s) = false → last (proj id (accepted s)) = Some ev → located s (id, ev);
  inv_timers id h x : timers (deb s) !! id = Some h → armed s !! h = Some x → x.1 = id;
  inv_timers_next id h : timers (deb s) !! id = Some h → (h < next s)%nat;
  inv_armed h x : armed s !! h = Some x → (h < next s)%nat;
  inv_known x : located s x → x ∈ accepted s;
  inv_started : started s ≡ₚ delivered s ++ (threads s ≫= publishes);
  inv_wg : wg (deb s) = Z.of_nat (length (threads s ≫= publishes));
  inv_returned : stop_returned s = true → stopped (deb s) = true ∧ threads s ≫= publishes = [];
  inv_waiting : StopWaiting ∈ threads s → stopped (deb s) = true
}.
Lemma simple_init_inv : inv init.
Proof.
  split; simpl; try done; try (intros *; rewrite ?lookup_empty; done).
  - intros [??] [[h Hh]|[H|H]]; simpl in *; [by rewrite lookup_empty in Hh|by apply elem_of_nil in H..].
  - by intros H%elem_of_nil.
Qed.

Lemma simple_submit_inv s id ev : inv s → inv (step s (ASubmit id ev)).
Proof.
  intros Hinv. simpl. unfold Submit. destruct (stopped (deb s)) eqn:Hst.
  { by destruct s. }
  set (ts := match timers (deb s) !! id with Some h => delete h (armed s) | None => armed s end).
  assert (∀ h x, ts !! h = Some x → armed s !! h = Some x) as Hts.
  { intros h x. unfold ts. destruct (timers (deb s) !! id); [|done]. by intros [_ ?]%lookup_delete_Some. }
  assert (∀ h x, armed s !! h = Some x → x.1 ≠ id → ts !! h = Some x) as Hkeep.
  { intros h x Hh Hne. unfold ts. destruct (timers (deb s) !! id) as [h'|] eqn:Ht; [|done].
    apply lookup_delete_Some. split; [|done]. intros ->. by apply Hne, (inv_timers s Hinv id h). }
  split; simpl; try apply Hinv.
  - intros id' ev' _. rewrite proj_snoc. case_decide as Hid.
    + rewrite last_snoc. intros [= ->]. left. exists (next s). simpl. by rewrite lookup_insert_eq, Hid.
    + intros Hl. destruct (inv_latest s Hinv id' ev' Hst Hl) as [[h Hh]|H]; [left|by right]. exists h. simpl.
      rewrite lookup_insert_ne; [by apply Hkeep|]. pose proof (inv_armed s Hinv h _ Hh). lia.
  - intros id' h x [[-> <-]|[Hne Hh]]%lookup_insert_Some [[? <-]|[? Hx]]%lookup_insert_Some; try done.
    + by apply inv_timers_next in Hh; [lia|].
    + by apply (inv_timers s Hinv id' h), Hts.
  - intros id' h [[-> <-]|[Hne Hh]]%lookup_insert_Some; [lia|]. apply (inv_timers_next s Hinv) in Hh. lia.
  - intros h x [[<- _]|[_ Hh]]%lookup_insert_Some; [lia|]. apply Hts, (inv_armed s Hinv) in Hh. lia.
  - intros x [[h Hh]|H]; apply elem_of_app; simpl in *.
    + apply lookup_insert_Some in Hh as [[_ <-]|[_ Hh]]; [right; by left|left]. apply (inv_known s Hinv). left. eauto.
    + left. apply (inv_known s Hinv). by right.
  - rewrite <-Hst. apply Hinv.
  - rewrite <-Hst. apply Hinv.
Qed.

Lemma simple_fire_inv s h : inv s → inv (step s (AFire h)).
Proof.
  intros Hinv. simpl. destruct (armed s !! h) as [[id ev]|] eqn:Hh; [|done].
  assert (∀ x, located (mkSys (deb s) (delete h (armed s)) (next s) (threads s ++ [Fired id ev]) (accepted s)
     (started s) (delivered s) (stop_returned s)) x ↔ located s x) as Hloc.
  { intros x. unfold located. simpl. rewrite elem_of_app, list_elem_of_singleton. setoid_rewrite lookup_delete_Some.
    split; [|intros [[h' Hx]|[?|?]]; [destruct (decide (h = h')) as [<-|]|..]; try naive_solver].
    - intros [[? [??]]|[[?|[=]]|?]]; eauto. left. exists h. by destruct x; simplify_eq/=. }
  split; simpl; rewrite ?bind_app, ?app_nil_r; try apply Hinv.
  - intros id' ev' ??. by apply Hloc, (inv_latest s Hinv).
  - intros id' h' x ? [_ ?]%lookup_delete_Some. by eapply (inv_timers s Hinv).
  - intros h' x [_ ?]%lookup_delete_Some. by eapply (inv_armed s Hinv).
  - intros x ?%Hloc. by apply (inv_known s Hinv).
  - intros [?|H%list_elem_of_singleton]%elem_of_app; [by apply (inv_waiting s Hinv)|done].
Qed.

Lemma delete_all_Some {A} (hs : list nat) (m : gmap nat A) h x :
  fold_right delete m hs !! h = Some x → m !! h = Some x.
Proof. induction hs as [|h' hs IH]; [done|]. simpl. by intros [_ ?]%lookup_delete_Some; apply IH. Qed.

Lemma simple_stop_inv s : inv s → inv (step s AStop).
Proof.
  intros Hinv. simpl. split; simpl; rewrite ?bind_app, ?app_nil_r; try apply Hinv; try done.
  - intros h x ?%delete_all_Some. by eapply (inv_armed s Hinv).
  - intros x H. apply (inv_known s Hinv). destruct H as [[h ?%delete_all_Some]|[H|?]]; simpl in *; [left; eauto|right; left|by right; right].
    apply elem_of_app in H as [?|H%list_elem_of_singleton]; done.
  - intros ?%(inv_returned s Hinv). naive_solver.
Qed.

(** What a step of goroutine [i] may do to the located events. *)
Lemma run_located i th th' s d st dl r :
  threads s !! i = Some th →
  (match th with Fired id ev => (id, ev) ∈ st | _ => True end ∨ stopped d = true) →
  (∃ k, st = started s ++ k) →
  ∀ x, located s x → stopped d = false →
    located (mkSys d (armed s) (next s) (<[i := th']> (threads s)) (accepted s) st dl r) x.
Proof.
  intros Hi Hf [k ->] x [?|[[j Hj]%list_elem_of_lookup|H]] Hd; [by left| |by right; right; apply elem_of_app; left].
  destruct Hf as [Hf|]; [|congruence]. destruct (decide (i = j)) as [<-|Hne].
  - rewrite Hi in Hj. simplify_eq. right. right. by destruct x.
  - right. left. apply (list_elem_of_lookup_2 _ j). simpl. by rewrite list_lookup_insert_ne.
Qed.

Lemma elem_of_run i th (ths : list thread) y : y ∈ <[i := th]> ths → y = th ∨ y ∈ ths.
Proof.
  intros [j Hj]%list_elem_of_lookup. apply list_lookup_insert_Some in Hj as [(_ & <- & _)|[_ Hj]]; [by left|right].
  by eapply list_elem_of_lookup_2.
Qed.

(** Frame of a goroutine's step: the timers are left alone, the entry of the
    instance may be removed. *)
Lemma simple_run_inv i th th' s d st dl r :
  inv s → threads s !! i = Some th →
  timers d ⊆ timers (deb s) → stopped d = stopped (deb s) → th' ≠ StopWaiting →
  (match th with Fired id ev => (id, ev) ∈ st | _ => True end ∨ stopped d = true) →
  (∃ k, st = started s ++ k ∧ ∀ x, x ∈ k → located s x) →
  (∀ id ev, th' ≠ Fired id ev) →
  (∀ a b, threads s ≫= publishes = a ++ publishes th ++ b →
     st ≡ₚ dl ++ a ++ publishes th' ++ b ∧ wg d = Z.of_nat (length (a ++ publishes th' ++ b)) ∧
     (r = true → stopped d = true ∧ a ++ publishes th' ++ b = [])) →
  inv (mkSys d (armed s) (next s) (<[i := th']> (threads s)) (accepted s) st dl r).
Proof.
  intros Hinv Hi Ht Hst Hw Hf (k & Hk & Hkl) Hnf Hp.
  destruct (bind_insert_split publishes _ i th Hi) as (a & b & Hab & Hins).
  destruct (Hp a b Hab) as (H1 & H2 & H3). split; simpl; rewrite ?Hins; try done.
  - intros id ev Hd Hl. apply (run_located i th); eauto. apply (inv_latest s Hinv); congruence.
  - intros id h x Hh. eapply (inv_timers s Hinv). by eapply lookup_weaken.
  - intros id h Hh. eapply (inv_timers_next s Hinv). by eapply lookup_weaken.
  - apply (inv_armed s Hinv).
  - intros x Hx. apply (inv_known s Hinv). destruct Hx as [?|[[Heq|?]%elem_of_run|H]]; simpl in *; [by left| |by right; left|].
    + by destruct (Hnf x.1 x.2).
    + rewrite Hk in H. apply elem_of_app in H as [?|?]; [by right; right|by apply Hkl].
  - intros [?|?]%elem_of_run; [by subst|]. rewrite Hst. by apply (inv_waiting s Hinv).
Qed.

Lemma simple_run_thread_inv s i th : inv s → threads s !! i = Some th → inv (run_thread i th s).
Proof.
  intros Hinv Hi. pose proof (inv_started s Hinv) as Hs. pose proof (inv_wg s Hinv) as Hwg.
  pose proof (inv_returned s Hinv) as Hr. destruct th as [id ev|id ev| |]; simpl; [| | |done].
  - unfold fired. destruct (stopped (deb s)) eqn:Hst; apply (simple_run_inv i (Fired id ev)); simpl; try done; auto.
    + exists []. rewrite app_nil_r. split; [done|]. by intros ? ?%elem_of_nil.
    + intros a b Hab. rewrite Hab in Hs, Hwg, Hr. naive_solver.
    + apply delete_subseteq.
    + left. set_solver.
    + exists [(id, ev)]. split; [done|]. intros x ->%list_elem_of_singleton. right. left. by eapply list_elem_of_lookup_2.
    + intros a b Hab. rewrite Hab in Hs, Hwg. simpl in *. split_and!.
      * by rewrite Hs, <-!Permutation_middle, app_nil_r.
      * rewrite Hwg, !length_app. simpl. lia.
      * intros H. apply Hr in H as [? _]. congruence.
  - apply (simple_run_inv i (Publishing id ev)); simpl; try done; auto.
    + exists []. rewrite app_nil_r. split; [done|]. by intros ? ?%elem_of_nil.
    + intros a b Hab. rewrite Hab in Hs, Hwg, Hr. simpl in *. split_and!.
      * by rewrite Hs, <-!Permutation_middle, app_nil_r.
      * rewrite Hwg, !length_app. simpl. lia.
      * intros H. apply Hr in H as [? H]. by destruct a.
  - destruct (wg (deb s) =? 0) eqn:Hz; [|done]. breflect. apply (simple_run_inv i StopWaiting); simpl; try done; auto.
    + exists []. rewrite app_nil_r. split; [done|]. by intros ? ?%elem_of_nil.
    + intros a b Hab. rewrite Hab in Hs, Hwg. simpl in *. split_and!; [done|done|]. intros _. split.
      * apply (inv_waiting s Hinv). by eapply list_elem_of_lookup_2.
      * destruct (a ++ b); [done|simpl in *; lia].
Qed.

Lemma simple_step_inv s a : inv s → inv (step s a).
Proof.
  intros Hinv. destruct a as [id ev|h|i|]; [by apply simple_submit_inv|by apply simple_fire_inv| |by apply simple_stop_inv].
  simpl. destruct (threads s !! i) eqn:Hi; [by apply simple_run_thread_inv|done].
Qed.

Lemma simple_runs_inv l : inv (runs l).
Proof.
  unfold runs. generalize simple_init_inv. generalize init. induction l as [|a l IH]; intros s Hinv; [done|].
  by apply IH, simple_step_inv.
Qed.

Lemma quiescent_publishes (ths : list thread) : Forall (λ th, th = Exited) ths → ths ≫= publishes = [].
Proof. induction 1 as [|th ths -> _ IH]; [done|]. by rewrite bind_cons. Qed.

Lemma stopped_step s a : stopped (deb s) = true → stopped (deb (step s a)) = true ∧ started (step s a) = started s.
Proof.
  intros H. destruct a as [id ev|h|i|]; simpl; unfold Submit; rewrite ?H; simpl; [done| | |done].
  - by destruct (armed s !! h) as [[??]|].
  - destruct (threads s !! i) as [[]|]; simpl; unfold fired; rewrite ?H; try done. by case_match.
Qed.

Lemma stopped_runs l s : stopped (deb s) = true → started (fold_left step l s) = started s.
Proof.
  revert s. induction l as [|a l IH]; intros s H; [done|]. destruct (stopped_step s a H) as [H' <-]. by apply IH.
Qed.

Lemma quiescent_delivered s id ev :
  inv s → quiescent s → stopped (deb s) = false → last (proj id (accepted s)) = Some ev → (id, ev) ∈ delivered s.
Proof.
  intros Hinv [Ha Hq] Hst Hl. pose proof (inv_started _ Hinv) as Hs.
  rewrite (quiescent_publishes _ Hq), app_nil_r in Hs. rewrite <-Hs.
  destruct (inv_latest _ Hinv id ev Hst Hl) as [[h Hh]|[H|H]]; [by rewrite Ha, lookup_empty in Hh| |done].
  rewrite Forall_forall in Hq. by apply Hq in H.
Qed.

(** The container and cluster debouncers lose no newest status before they
    are stopped, and [Stop] is final.  Under every interleaving: only submitted
    events are published; when nothing is pending or running and [Stop] was not
    called, the last event submitted for each instance has been published; and
    once [Stop] has returned no publish callback is running and none will ever
    start. *)
Theorem simple_debouncer_sound (l l' : list action) :
  let s := runs l in
  (∀ x, x ∈ started s → x ∈ accepted s) ∧
  (quiescent s → stopped (deb s) = false →
     ∀ id ev, last (proj id (accepted s)) = Some ev → (id, ev) ∈ delivered s) ∧
  (stop_returned s = true →
     delivered s ≡ₚ started s ∧ started (runs (l ++ l')) = started s).
Proof.
  cbv zeta. pose proof (simple_runs_inv l) as Hinv. split_and!.
  - intros x H. apply (inv_known _ Hinv). by right; right.
  - intros Hq Hst id ev. by apply quiescent_delivered.
  - intros [Hst Hn]%(inv_returned _ Hinv). pose proof (inv_started _ Hinv) as Hs. rewrite Hn, app_nil_r in Hs.
    split; [done|]. unfold runs. rewrite fold_left_app. by apply stopped_runs.
Qed.

End Debouncer.
Arguments thread : clear implicits.
Arguments sys : clear implicits.
Arguments action : clear implicits.
End Simple.

Module SimpleRun.
Import Simple.

Definition sample : list (action Z) := [ASubmit "a" 1; ASubmit "a" 2; AFire 1; ARun 0; ARun 0].

(** The second event's callback overtakes the first one's, which is still in
    [publishFn] (the container monitor's callback retries with a back-off). *)
Definition overtaking : list (action Z) :=
  [ASubmit "a" 1; AFire 0; ARun 0; ASubmit "a" 2; AFire 1; ARun 1; ARun 1; ARun 0].

Lemma simple_debouncer_sound_witness :
  quiescent (runs sample) ∧ ("a", 2) ∈ delivered (runs sample) ∧
  started (runs ((sample ++ [AStop; ARun 1]) ++ [ASubmit "a" 3])) = started (runs (sample ++ [AStop; ARun 1])).
Proof.
  assert (quiescent (runs sample)) as Hq by (split; vm_compute; [done|repeat constructor]).
  split_and!; [done| |].
  - by apply (proj1 (proj2 (simple_debouncer_sound sample [])) Hq); vm_compute.
  - by apply (proj2 (proj2 (simple_debouncer_sound (sample ++ [AStop; ARun 1]) [ASubmit "a" 3]))); vm_compute.
Defined.

(** The last status published for an instance need not be the last one
    submitted. *)
Lemma simple_debouncer_overtakes :
  quiescent (runs overtaking) ∧ stopped (deb (runs overtaking)) = false ∧
  last (proj "a" (accepted (runs overtaking))) = Some 2 ∧
  last (proj "a" (delivered (runs overtaking))) = Some 1.
Proof. split_and!; [split; vm_compute; [done|repeat constructor]|by vm_compute..]. Qed.
End SimpleRun.
