(* ===== verification/Encoding.v ===== *)
(** * Decimal and base64 text

    [strconv.Itoa]/[strconv.Atoi] and [base64.StdEncoding], which the page
    tokens of the container, database and cluster stores are made of, and the
    order of names in which those stores page. *)

From stdpp Require Import sorting lexico.
From S2P Require Import Prelude GoStrings.
From Stdlib Require Import Ascii.
#[local] Open Scope Z_scope.

(** ** Decimal numbers *)

Definition Itoa (n : Z) : string := pretty n.
Definition Atoi (s : string) : option Z := ParseInt64 s.

Lemma pretty_digit x : (x < 10)%N → is_digit (pretty_N_char x) = true ∧ digit_val (pretty_N_char x) = Z.of_N x.
Proof. intros Hx. assert (x = 0 ∨ x = 1 ∨ x = 2 ∨ x = 3 ∨ x = 4 ∨ x = 5 ∨ x = 6 ∨ x = 7 ∨ x = 8 ∨ x = 9)%N by lia.
  naive_solver. Qed.

Lemma parse_pretty_go x s : parse_digits 0 (chars (pretty_N_go x s)) = parse_digits (Z.of_N x) (chars s).
Proof.
  revert s. induction (N.lt_wf_0 x) as [x _ IH]; intros s.
  destruct (decide (x = 0%N)) as [->|Hx]; [by rewrite pretty_N_go_0|].
  rewrite pretty_N_go_step by lia. rewrite IH by (apply N.div_lt; lia).
  cbn [chars parse_digits]. destruct (pretty_digit (x mod 10)) as [-> ->]; [by apply N.mod_lt|].
  f_equal. rewrite N2Z.inj_div, N2Z.inj_mod. pose proof (Z.div_mod (Z.of_N x) 10). lia.
Qed.

Lemma pretty_go_head x s c l :
  chars (pretty_N_go x s) = c :: l → (0 < x)%N ∨ (∀ c' l', chars s = c' :: l' → is_digit c' = true) → is_digit c = true.
Proof.
  revert s c l. induction (N.lt_wf_0 x) as [x _ IH]; intros s c l.
  destruct (decide (x = 0%N)) as [->|Hx]; [rewrite pretty_N_go_0; intros Hs [|H]; [lia|by eapply H]|].
  rewrite pretty_N_go_step by lia. intros Hs _. apply (IH (x `div` 10)%N ltac:(apply N.div_lt; lia) _ _ _ Hs). right.
  intros c' l'. cbn [chars]. intros [= <- _]. apply pretty_digit. by apply N.mod_lt.
Qed.

Lemma Atoi_Itoa n : 0 ≤ n ≤ int64_max → Atoi (Itoa n) = Some n.
Proof.
  intros Hn. unfold Atoi, Itoa. destruct n as [|p|p]; [done| |lia].
  change (pretty (Z.pos p)) with (pretty_N_go (N.pos p) "").
  unfold ParseInt64. pose proof (parse_pretty_go (N.pos p) "") as Hp. simpl in Hp.
  destruct (chars (pretty_N_go (N.pos p) "")) as [|c l] eqn:Hc.
  { simpl in Hp. simplify_eq. }
  pose proof (pretty_go_head _ _ _ _ Hc (or_introl eq_refl)) as Hd.
  assert (is_char "-" c = false ∧ is_char "+" c = false) as [-> ->].
  { split; apply not_true_is_false; intros H%Ascii.eqb_eq; subst c; vm_compute in Hd; done. }
  rewrite Hp. rewrite (proj2 (Z.leb_le _ _)), (proj2 (Z.leb_le _ _)); [done|lia|unfold int64_min; lia].
Qed.

(** Every [int64] reads back. *)
Lemma Atoi_Itoa_signed n : in_int64 n → Atoi (Itoa n) = Some n.
Proof.
  intros Hn. destruct (decide (0 ≤ n)); [apply Atoi_Itoa; unfold in_int64 in Hn; lia|].
  destruct n as [|p|p]; [lia..|]. unfold Atoi, Itoa.
  change (pretty (Z.neg p)) with (String "-" (pretty_N_go (N.pos p) "")).
  unfold ParseInt64. pose proof (parse_pretty_go (N.pos p) "") as Hp. simpl in Hp. cbn [chars].
  change (is_char "-" "-") with true. cbv iota.
  destruct (chars (pretty_N_go (N.pos p) "")) as [|c l] eqn:Hc; [simpl in Hp; simplify_eq|].
  rewrite Hp. unfold in_int64 in Hn. rewrite (proj2 (Z.leb_le _ _)), (proj2 (Z.leb_le _ _)); [done|lia..].
Qed.

(** ** base64.StdEncoding *)

Definition alphabet : list ascii :=
  Eval vm_compute in chars "ABCDEFGHIJKLMNOPQRSTUVWXYZabcdefghijklmnopqrstuvwxyz0123456789+/".

Definition b64_char (n : Z) : ascii := nth (Z.to_nat n) alphabet "A"%char.

(** [decodeMap]: the value of a character of the alphabet. *)
Fixpoint index_of (c : ascii) (l : list ascii) (i : Z) : option Z :=
  match l with
  | [] => None
  | d :: l' => if Ascii.eqb c d then Some i else index_of c l' (i + 1)
  end.
Definition b64_value (c : ascii) : option Z := index_of c alphabet 0.

Definition byte_val (c : ascii) : Z := Z.of_nat (nat_of_ascii c).
Definition byte_of (n : Z) : ascii := ascii_of_nat (Z.to_nat (n mod 256)).

Fixpoint encode_bytes (l : list ascii) : list ascii :=
  match l with
  | [] => []
  | [a] =>
      let v := byte_val a * 2 ^ 16 in
      [b64_char (v / 2 ^ 18); b64_char (v / 2 ^ 12 mod 64); "="%char; "="%char]
  | [a; b] =>
      let v := byte_val a * 2 ^ 16 + byte_val b * 2 ^ 8 in
      [b64_char (v / 2 ^ 18); b64_char (v / 2 ^ 12 mod 64); b64_char (v / 2 ^ 6 mod 64); "="%char]
  | a :: b :: c :: rest =>
      let v := byte_val a * 2 ^ 16 + byte_val b * 2 ^ 8 + byte_val c in
      b64_char (v / 2 ^ 18) :: b64_char (v / 2 ^ 12 mod 64) :: b64_char (v / 2 ^ 6 mod 64) :: b64_char (v mod 64)
        :: encode_bytes rest
  end.

(** The groups of four; padding ends the input. *)
Fixpoint decode_groups (l : list ascii) : option (list ascii) :=
  match l with
  | [] => Some []
  | c0 :: c1 :: c2 :: c3 :: rest =>
      match b64_value c0, b64_value c1 with
      | Some a, Some b =>
          match b64_value c2 with
          | Some c =>
              match b64_value c3 with
              | Some d =>
                  let v := a * 2 ^ 18 + b * 2 ^ 12 + c * 2 ^ 6 + d in
                  match decode_groups rest with
                  | Some out => Some (byte_of (v / 2 ^ 16) :: byte_of (v / 2 ^ 8) :: byte_of v :: out)
                  | None => None
                  end
              | None =>
                  let v := a * 2 ^ 18 + b * 2 ^ 12 + c * 2 ^ 6 in
                  if Ascii.eqb c3 "="%char && bool_decide (rest = []) then Some [byte_of (v / 2 ^ 16); byte_of (v / 2 ^ 8)]
                  else None
              end
          | None =>
              let v := a * 2 ^ 18 + b * 2 ^ 12 in
              if Ascii.eqb c2 "="%char && Ascii.eqb c3 "="%char && bool_decide (rest = []) then Some [byte_of (v / 2 ^ 16)]
              else None
          end
      | _, _ => None
      end
  | _ => None
  end.

Definition EncodeToString (s : string) : string := of_chars (encode_bytes (chars s)).

(** Line breaks are skipped wherever they are. *)
Definition DecodeString (s : string) : option string :=
  of_chars <$> decode_groups (filter (λ c, c ≠ "010"%char ∧ c ≠ "013"%char) (chars s)).

Lemma b64_value_char n : 0 ≤ n < 64 → b64_value (b64_char n) = Some n.
Proof.
  intros Hn. assert (forallb (λ k, bool_decide (b64_value (b64_char (Z.of_nat k)) = Some (Z.of_nat k))) (seq 0 64) = true) as H
    by (by vm_compute).
  rewrite forallb_forall in H. specialize (H (Z.to_nat n)). rewrite in_seq, bool_decide_eq_true, Z2Nat.id in H by lia.
  apply H. lia.
Qed.

Lemma b64_char_plain n : 0 ≤ n < 64 → b64_char n ≠ "010"%char ∧ b64_char n ≠ "013"%char.
Proof.
  intros Hn. split; intros H; pose proof (b64_value_char n Hn) as Hv; rewrite H in Hv; done.
Qed.

Lemma byte_of_val c k : 0 ≤ k → byte_of (byte_val c + 256 * k) = c.
Proof.
  intros Hk. unfold byte_of, byte_val.
  assert (nat_of_ascii c < 256)%nat as Hc by apply nat_ascii_bounded.
  rewrite Z.mul_comm, Z.mod_add, Z.mod_small, Nat2Z.id by lia. apply ascii_nat_embedding.
Qed.

Lemma byte_val_range c : 0 ≤ byte_val c < 256.
Proof. unfold byte_val. pose proof (nat_ascii_bounded c). lia. Qed.

(** The quotients of a group of [v < 2^24] put back together. *)
Lemma group_join v : 0 ≤ v < 2 ^ 24 →
  v / 2 ^ 18 * 2 ^ 18 + v / 2 ^ 12 mod 64 * 2 ^ 12 + v / 2 ^ 6 mod 64 * 2 ^ 6 + v mod 64 = v ∧
  0 ≤ v / 2 ^ 18 < 64 ∧ 0 ≤ v / 2 ^ 12 mod 64 < 64 ∧ 0 ≤ v / 2 ^ 6 mod 64 < 64 ∧ 0 ≤ v mod 64 < 64.
Proof.
  change (2 ^ 24) with 16777216. change (2 ^ 18) with 262144. change (2 ^ 12) with 4096. change (2 ^ 6) with 64.
  intros Hv. Z.to_euclidean_division_equations. lia.
Qed.

Lemma encode_plain l : filter (λ c, c ≠ "010"%char ∧ c ≠ "013"%char) (encode_bytes l) = encode_bytes l.
Proof.
  assert (∀ l, Forall (λ c, c ≠ "010"%char ∧ c ≠ "013"%char) l → filter (λ c, c ≠ "010"%char ∧ c ≠ "013"%char) l = l) as Hid.
  { intros k. induction 1 as [|c k Hc _ IH]; [done|]. by rewrite filter_cons_True, IH. }
  apply Hid. clear Hid. assert (∀ n l, (length l ≤ n)%nat → Forall (λ c, c ≠ "010"%char ∧ c ≠ "013"%char) (encode_bytes l)) as H;
    [|by apply (H (length l))].
  induction n as [|n IH]; intros k Hk; [destruct k; [constructor|simpl in Hk; lia]|].
  destruct k as [|a [|b [|c k]]]; [constructor|..]; cbn [encode_bytes].
  - pose proof (byte_val_range a). destruct (group_join (byte_val a * 2 ^ 16)) as (_ & H0 & H1 & _); [lia|].
    repeat (apply Forall_cons_2; [first [by apply b64_char_plain|by split]|]). apply Forall_nil_2.
  - pose proof (byte_val_range a). pose proof (byte_val_range b).
    destruct (group_join (byte_val a * 2 ^ 16 + byte_val b * 2 ^ 8)) as (_ & H0' & H1' & H2' & _); [lia|].
    repeat (apply Forall_cons_2; [first [by apply b64_char_plain|by split]|]). apply Forall_nil_2.
  - pose proof (byte_val_range a). pose proof (byte_val_range b). pose proof (byte_val_range c).
    destruct (group_join (byte_val a * 2 ^ 16 + byte_val b * 2 ^ 8 + byte_val c)) as (_ & H0' & H1' & H2' & H3'); [lia|].
    do 4 (apply Forall_cons_2; [by apply b64_char_plain|]). apply IH. simpl in Hk. lia.
Qed.

Lemma byte_of_shift c v k : 0 ≤ k → v = byte_val c + 256 * k → byte_of v = c.
Proof. intros Hk ->. by apply byte_of_val. Qed.

(** The bytes of a group of three. *)
Lemma group_bytes a b c v :
  v = byte_val a * 2 ^ 16 + byte_val b * 2 ^ 8 + byte_val c →
  byte_of (v / 2 ^ 16) = a ∧ byte_of (v / 2 ^ 8) = b ∧ byte_of v = c.
Proof.
  intros ->. pose proof (byte_val_range a). pose proof (byte_val_range b). pose proof (byte_val_range c).
  change (2 ^ 16) with 65536. change (2 ^ 8) with 256. split_and!.
  - apply (byte_of_shift a _ 0); [lia|]. Z.to_euclidean_division_equations. lia.
  - apply (byte_of_shift b _ (byte_val a)); [lia|]. Z.to_euclidean_division_equations. lia.
  - apply (byte_of_shift c _ (byte_val a * 256 + byte_val b)); lia.
Qed.

Lemma padded_group v : 0 ≤ v →
  v mod 2 ^ 8 = 0 → v mod 64 = 0 ∧ (v mod 2 ^ 16 = 0 → v / 2 ^ 6 mod 64 = 0).
Proof.
  change (2 ^ 8) with 256. change (2 ^ 16) with 65536. change (2 ^ 6) with 64. intros Hv H.
  Z.to_euclidean_division_equations. lia.
Qed.

Lemma decode_encode_bytes n : ∀ l, (length l ≤ n)%nat → decode_groups (encode_bytes l) = Some l.
Proof.
  induction n as [|n IH]; intros l Hl; [by destruct l; [|simpl in Hl; lia]|].
  destruct l as [|a [|b [|c l]]]; [done|..]; cbn [encode_bytes].
  - pose proof (byte_val_range a). set (v := byte_val a * 2 ^ 16).
    destruct (group_join v) as (Hj & H0 & H1 & _); [unfold v; lia|].
    destruct (padded_group v) as [Hd Hc]; [unfold v; lia|unfold v; change (2 ^ 16) with (256 * 2 ^ 8); by rewrite Z.mul_assoc, Z.mod_mul|].
    rewrite Hd, Hc, Z.mul_0_l, !Z.add_0_r in Hj by (unfold v; by rewrite Z.mod_mul).
    cbn [decode_groups]. rewrite !b64_value_char by done. rewrite bool_decide_true by done.
    change (b64_value "=") with (@None Z). cbn [andb Ascii.eqb eqb]. cbv beta iota zeta.
    rewrite Hj. by rewrite (proj1 (group_bytes a zero zero v ltac:(change (byte_val zero) with 0; unfold v; lia))).
  - pose proof (byte_val_range a). pose proof (byte_val_range b). set (v := byte_val a * 2 ^ 16 + byte_val b * 2 ^ 8).
    destruct (group_join v) as (Hj & H0' & H1' & H2' & _); [unfold v; lia|].
    destruct (padded_group v) as [Hd _]; [unfold v; lia|unfold v; change (2 ^ 16) with (256 * 2 ^ 8)|].
    { by rewrite Z.mul_assoc, <-Z.mul_add_distr_r, Z.mod_mul. }
    rewrite Hd, Z.add_0_r in Hj.
    cbn [decode_groups]. rewrite !b64_value_char by done. rewrite bool_decide_true by done.
    change (b64_value "=") with (@None Z). cbn [andb Ascii.eqb eqb]. cbv beta iota zeta. rewrite Hj.
    destruct (group_bytes a b zero v) as (-> & -> & _); [change (byte_val zero) with 0; unfold v; lia|done].
  - pose proof (byte_val_range a). pose proof (byte_val_range b). pose proof (byte_val_range c).
    set (v := byte_val a * 2 ^ 16 + byte_val b * 2 ^ 8 + byte_val c).
    destruct (group_join v) as (Hj & H0' & H1' & H2' & H3'); [unfold v; lia|].
    cbn [decode_groups]. rewrite !b64_value_char by done. cbv beta iota zeta. rewrite Hj, IH by (simpl in Hl; lia).
    by destruct (group_bytes a b c v eq_refl) as (-> & -> & ->).
Qed.

Lemma DecodeString_EncodeToString s : DecodeString (EncodeToString s) = Some s.
Proof.
  unfold DecodeString, EncodeToString. rewrite chars_of_chars, encode_plain.
  rewrite (decode_encode_bytes (length (chars s))) by done. simpl. by rewrite of_chars_chars.
Qed.

(** ** Sorting by name *)

(** Go compares strings byte by byte. *)
Definition name_code (s : string) : list N := (λ c, N.of_nat (nat_of_ascii c)) <$> chars s.
Definition name_le (a b : string) : Prop := ¬ lexico (name_code b) (name_code a).

#[export] Instance name_le_dec : RelDecision name_le.
Proof. unfold name_le. intros a b. apply _. Defined.

(** [sort.Slice] by name. *)
Definition sort_by_name {A} (name : A → string) (l : list A) : list A :=
  merge_sort (λ a b, name_le (name a) (name b)) l.

Lemma name_code_inj a b : name_code a = name_code b → a = b.
Proof.
  unfold name_code. intros H. apply chars_inj. apply (list_fmap_eq_inj _) in H; [done|].
  intros c d Hcd. apply Nat2N.inj in Hcd. rewrite <-(ascii_nat_embedding c), <-(ascii_nat_embedding d). by f_equal.
Qed.

#[export] Instance name_le_trans : Transitive name_le.
Proof.
  intros a b c Hab Hbc Hca. unfold name_le in *.
  destruct (trichotomyT lexico (name_code a) (name_code b)) as [[H|H]|H]; [|rewrite H in *; done|done].
  apply Hbc. by etrans.
Qed.

#[export] Instance name_le_total : Total name_le.
Proof.
  intros a b. unfold name_le. destruct (trichotomyT lexico (name_code a) (name_code b)) as [[H|H]|H].
  - left. intros H'. by apply (irreflexivity lexico (name_code a)); etrans.
  - left. rewrite H. apply (irreflexivity lexico).
  - right. intros H'. by apply (irreflexivity lexico (name_code a)); etrans.
Qed.

Lemma name_le_antisymm a b : name_le a b → name_le b a → a = b.
Proof.
  intros Hab Hba. apply name_code_inj. unfold name_le in *.
  by destruct (trichotomyT lexico (name_code a) (name_code b)) as [[H|H]|H].
Qed.

Lemma sort_by_name_Permutation {A} (name : A → string) (l : list A) : sort_by_name name l ≡ₚ l.
Proof. apply merge_sort_Permutation. Qed.

(** Items with distinct names have one sorted order. *)
Lemma sort_by_name_unique {A} (name : A → string) (l k : list A) :
  (∀ x y, x ∈ l → y ∈ l → name x = name y → x = y) → l ≡ₚ k → sort_by_name name l = sort_by_name name k.
Proof.
  intros Hinj Hp. set (R := λ a b : A, name_le (name a) (name b)).
  assert (Transitive R) by (intros x y z; unfold R; apply name_le_trans).
  assert (Total R) by (intros x y; apply name_le_total).
  assert (sort_by_name name l ≡ₚ l) as Hl by apply merge_sort_Permutation.
  assert (sort_by_name name k ≡ₚ k) as Hk by apply merge_sort_Permutation.
  apply (Sorted_unique_strong R); [|by apply (Sorted_merge_sort R)..|by rewrite Hl, Hk].
  intros x y Hx Hy Hxy Hyx. rewrite Hl in Hx. rewrite Hk, <-Hp in Hy. apply Hinj; [done..|]. by apply name_le_antisymm.
Qed.
