(* ===== verification/Codec.v ===== *)
(** * JSON codecs of the API types

    Go's [encoding/json] on the types of src/api: how a value of a basic type,
    a pointer, a slice, a map, an [interface{}], a plain struct, and a struct
    with [AdditionalProperties] (whose [UnmarshalJSON] and [MarshalJSON] the
    generator writes out) is read from and written to a JSON value.  A [codec]
    is the pair of operations with the values they are meant for, [lawful] its
    laws; the instances for the API types are in [ApiTypes].

    The text of a document is not modelled: strings are valid UTF-8, and a
    document is its tree.  [number] is the literal that [float64] leaves of a
    number (what [json.Marshal] writes for what [json.Unmarshal] reads into an
    [interface{}]); times are read and written by package [time]. *)

From stdpp Require Import sorting.
From S2P Require Import Prelude GoStrings Json Encoding.
#[local] Open Scope string_scope.
#[local] Open Scope Z_scope.

Record codec (A : Type) := mkCodec {
  zero : A;
  decode : A → json → option A;   (* [json.Unmarshal] into a variable, with what it holds *)
  encode : A → option json;       (* [json.Marshal] *)
  wf : A → Prop                   (* values that decoding makes *)
}.
Arguments mkCodec {A}.
Arguments zero {A}.
Arguments decode {A}.
Arguments encode {A}.
Arguments wf {A}.

Record lawful {A} (c : codec A) : Prop := {
  wf_zero : wf c (zero c);
  wf_decode old j x : wf c old → decode c old j = Some x → wf c x;
  decode_nonnull old j x : wf c old → j ≠ JNull → decode c old j = Some x → encode c x ≠ Some JNull;
  roundtrip x : wf c x → ∃ j, encode c x = Some j ∧ decode c (zero c) j = Some x
}.

Lemma json_ind' (P : json → Prop) :
  P JNull → (∀ b, P (JBool b)) → (∀ lit, P (JNumber lit)) → (∀ s, P (JString s)) →
  (∀ l, Forall P l → P (JArray l)) → (∀ ms, Forall (λ kv, P kv.2) ms → P (JObject ms)) → ∀ j, P j.
Proof.
  intros Hn Hb Hnum Hs Ha Ho. fix IH 1. intros [|b|lit|s|l|ms]; [done..| |].
  - apply Ha. induction l as [|v l IHl]; constructor; [apply IH|exact IHl].
  - apply Ho. induction ms as [|[k v] ms IHms]; constructor; [apply IH|exact IHms].
Qed.

(** ** Basic types *)

Definition cstring : codec string := {|
  zero := "";
  decode old j := match j with JString s => Some s | JNull => Some old | _ => None end;
  encode s := Some (JString s);
  wf _ := True
|}.

Definition cint (lo hi : Z) : codec Z := {|
  zero := 0;
  decode old j :=
    match j with
    | JNumber lit =>
        match ParseInt64 lit with
        | Some n => if (lo <=? n) && (n <=? hi) then Some n else None
        | None => None
        end
    | JNull => Some old
    | _ => None
    end;
  encode n := Some (JNumber (Itoa n));
  wf n := lo ≤ n ≤ hi ∧ in_int64 n
|}.

(** [int] and [int32]. *)
Definition cint64 : codec Z := cint int64_min int64_max.
Definition cint32 : codec Z := cint (- 2 ^ 31) (2 ^ 31 - 1).

Lemma cstring_lawful : lawful cstring.
Proof. split; try done. intros s _. by eexists. Qed.

Lemma cint_lawful lo hi : lo ≤ 0 ≤ hi → lawful (cint lo hi).
Proof.
  intros H0. split; cbn [zero decode encode wf cint].
  - unfold in_int64, int64_min, int64_max. lia.
  - intros old j x Hw. destruct j; try done; [by intros [= <-]|].
    destruct (ParseInt64 lit) as [n|] eqn:Hp; [|done]. apply ParseInt64_range in Hp. cases; [|done].
    intros [= <-]. breflect. done.
  - done.
  - intros n [Hn Hn64]. exists (JNumber (Itoa n)). split; [done|]. cbv beta iota. rewrite (Atoi_Itoa_signed n Hn64 : ParseInt64 _ = _).
    rewrite (proj2 (Z.leb_le _ _)), (proj2 (Z.leb_le _ _)) by lia. done.
Qed.

(** ** Pointers, slices and maps *)

Lemma json_null j : j = JNull ∨ j ≠ JNull.
Proof. destruct j; by (left + right). Qed.

Lemma insert_entries_list {A} (l : list (string * A)) (acc : gmap string A) :
  fold_left (λ m kx, <[kx.1 := kx.2]> m) l acc = list_to_map (reverse l) ∪ acc.
Proof.
  revert acc. induction l as [|[k x] l IH]; intros acc; [simpl; symmetry; apply (left_id_L ∅ (∪))|]. simpl.
  rewrite IH, reverse_cons, list_to_map_app. simpl. by rewrite insert_empty, <-(assoc_L (∪)), <-insert_union_singleton_l.
Qed.

Lemma sorted_entries {A} (m : gmap string A) :
  list_to_map (reverse (sort_by_name fst (map_to_list m))) = m.
Proof.
  rewrite <-(list_to_map_to_list m) at 2. apply list_to_map_proper.
  - rewrite reverse_Permutation, sort_by_name_Permutation. apply NoDup_fst_map_to_list.
  - by rewrite reverse_Permutation, sort_by_name_Permutation.
Qed.

Lemma insert_sorted_entries {A} (m : gmap string A) :
  fold_left (λ m kx, <[kx.1 := kx.2]> m) (sort_by_name fst (map_to_list m)) ∅ = m.
Proof. rewrite insert_entries_list, sorted_entries. apply (right_id_L ∅ (∪)). Qed.

Section Containers.
Context {A : Type} (c : codec A).

Definition cptr : codec (option A) := {|
  zero := None;
  decode old j := match j with JNull => Some None | _ => Some <$> decode c (default (zero c) old) j end;
  encode o := match o with None => Some JNull | Some x => encode c x end;
  wf o := match o with None => True | Some x => wf c x ∧ encode c x ≠ Some JNull end
|}.

(** Elements are decoded into the ones the slice has. *)
Fixpoint decode_elems (olds : list A) (l : list json) : option (list A) :=
  match l with
  | [] => Some []
  | j :: l' =>
      match decode c (default (zero c) (head olds)) j, decode_elems (tail olds) l' with
      | Some x, Some xs => Some (x :: xs)
      | _, _ => None
      end
  end.

(** [None] is a nil slice. *)
Definition cslice : codec (option (list A)) := {|
  zero := None;
  decode old j :=
    match j with
    | JNull => Some None
    | JArray l => Some <$> decode_elems (default [] old) l
    | _ => None
    end;
  encode o := match o with None => Some JNull | Some l => JArray <$> mapM (encode c) l end;
  wf o := match o with None => True | Some l => Forall (wf c) l end
|}.

Definition decode_entry (acc : option (gmap string A)) (m : string * json) : option (gmap string A) :=
  match acc, decode c (zero c) m.2 with
  | Some acc, Some x => Some (<[m.1 := x]> acc)
  | _, _ => None
  end.

Definition encode_entry (kx : string * A) : option (string * json) := pair kx.1 <$> encode c kx.2.

(** [None] is a nil map; keys are written in order. *)
Definition cmap : codec (option (gmap string A)) := {|
  zero := None;
  decode old j :=
    match j with
    | JNull => Some None
    | JObject ms => Some <$> fold_left decode_entry ms (Some (default ∅ old))
    | _ => None
    end;
  encode o :=
    match o with
    | None => Some JNull
    | Some m => JObject <$> mapM encode_entry (sort_by_name fst (map_to_list m))
    end;
  wf o := match o with None => True | Some m => map_Forall (λ _ x, wf c x) m end
|}.

Context (Hc : lawful c).

Lemma cptr_lawful : lawful cptr.
Proof.
  split; simpl.
  - done.
  - intros old j x Hold. assert (wf c (default (zero c) old)) as Hw.
    { destruct old as [y|]; simpl; [apply Hold|by apply wf_zero]. }
    destruct (json_null j) as [->|Hj]; [by intros [= <-]|].
    intros Hd. assert (Some <$> decode c (default (zero c) old) j = Some x) as Hd' by (by destruct j).
    apply fmap_Some in Hd' as (y & Hy & ->). split; [by eapply wf_decode|by eapply decode_nonnull].
  - intros old j x Hold Hj Hd. assert (Some <$> decode c (default (zero c) old) j = Some x) as Hd' by (by destruct j).
    apply fmap_Some in Hd' as (y & Hy & ->). eapply decode_nonnull; [done| |done..].
    destruct old as [z|]; simpl; [apply Hold|by apply wf_zero].
  - intros [x|]; [|by eexists]. intros [Hw Hn]. destruct (roundtrip c Hc x Hw) as (j & Hj & Hd).
    exists j. split; [done|]. assert (j ≠ JNull) by congruence. rewrite Hd. by destruct j.
Qed.

Lemma decode_elems_wf olds l xs : Forall (wf c) olds → decode_elems olds l = Some xs → Forall (wf c) xs.
Proof.
  revert olds xs. induction l as [|j l IH]; intros olds xs Ho; simpl; [by intros [= <-]|].
  destruct (decode c _ j) as [x|] eqn:Hx; [|done]. destruct (decode_elems (tail olds) l) as [xs'|] eqn:Hxs; [|done].
  intros [= <-]. constructor.
  - eapply wf_decode; [done| |done]. destruct Ho; [by apply wf_zero|done].
  - eapply IH; [|done]. by destruct Ho.
Qed.

Lemma encode_elems l : Forall (wf c) l → ∃ js, mapM (encode c) l = Some js ∧ decode_elems [] js = Some l.
Proof.
  induction 1 as [|x l Hx Hl IH]; [by exists []|]. destruct IH as (js & Hjs & Hd).
  destruct (roundtrip c Hc x Hx) as (j & Hj & Hdj). exists (j :: js). simpl. rewrite Hj. simpl. rewrite Hjs. simpl.
  split; [done|]. by rewrite Hdj, Hd.
Qed.

Lemma cslice_lawful : lawful cslice.
Proof.
  split; simpl.
  - done.
  - intros old j x Hold Hd. destruct j; try done; [by simplify_eq|]. apply fmap_Some in Hd as (xs & Hxs & ->).
    eapply decode_elems_wf; [|done]. by destruct old.
  - intros old j x _ Hj Hd. destruct j; try done. apply fmap_Some in Hd as (xs & Hxs & ->).
    by destruct (mapM (encode c) xs).
  - intros [l|]; [|by eexists]. intros Hl. destruct (encode_elems l Hl) as (js & Hjs & Hd).
    exists (JArray js). simpl. by rewrite Hjs, Hd.
Qed.

Lemma decode_entries_wf ms acc m :
  map_Forall (λ _ x, wf c x) acc → fold_left decode_entry ms (Some acc) = Some m → map_Forall (λ _ x, wf c x) m.
Proof.
  revert acc. induction ms as [|[k j] ms IH]; intros acc Hacc; cbn [fold_left]; [by intros [= <-]|].
  destruct (decode c (zero c) j) as [x|] eqn:Hx; (rewrite (eq_refl : decode_entry (Some acc) (k, j) =
    match decode c (zero c) j with Some x => Some (<[k := x]> acc) | None => None end), Hx).
  - apply IH. apply map_Forall_insert_2; [|done]. eapply wf_decode; [done|by apply wf_zero|done].
  - intros H. exfalso. clear -H. induction ms as [|? ms IH]; [done|]. by apply IH.
Qed.

Lemma encode_entries l acc :
  Forall (λ kx, wf c kx.2) l →
  ∃ ms, mapM encode_entry l = Some ms ∧
        fold_left decode_entry ms (Some acc) = Some (fold_left (λ m kx, <[kx.1 := kx.2]> m) l acc).
Proof.
  intros Hl. revert acc. induction Hl as [|[k x] l Hx Hl IH]; intros acc; [by exists []|].
  destruct (IH (<[k := x]> acc)) as (ms & Hms & Hd). destruct (roundtrip c Hc x Hx) as (j & Hj & Hdj).
  exists ((k, j) :: ms). split.
  { apply mapM_Some. constructor; [unfold encode_entry; cbn [fst snd]; by rewrite Hj|by apply mapM_Some]. }
  cbn [fold_left]. rewrite (eq_refl : decode_entry (Some acc) (k, j) =
    match decode c (zero c) j with Some x => Some (<[k := x]> acc) | None => None end), Hdj. done.
Qed.

Lemma cmap_lawful : lawful cmap.
Proof.
  split; simpl.
  - done.
  - intros old j x Hold Hd. destruct j; try done; [by simplify_eq|]. apply fmap_Some in Hd as (m & Hm & ->).
    eapply decode_entries_wf; [|done]. by destruct old.
  - intros old j x _ Hj Hd. destruct j; try done. apply fmap_Some in Hd as (m & Hm & ->).
    by destruct (mapM encode_entry _).
  - intros [m|]; [|by eexists]. intros Hm.
    destruct (encode_entries (sort_by_name fst (map_to_list m)) ∅) as (ms & Hms & Hd).
    { rewrite (sort_by_name_Permutation fst (map_to_list m)). apply Forall_forall. intros [k x] Hin%elem_of_map_to_list. by apply (Hm k x). }
    exists (JObject ms). rewrite Hms. split; [done|]. simpl. rewrite Hd. simpl. by rewrite insert_sorted_entries.
Qed.
End Containers.

(** ** Any value: [interface{}] *)

Section Any.
Context (number : string → option string).

Definition last_wins (ms : list (string * json)) : gmap string json := list_to_map (reverse ms).

(** An object as [json.Marshal] writes a map. *)
Definition object_json (m : gmap string json) : json := JObject (sort_by_name fst (map_to_list m)).

Fixpoint any_value (j : json) : option json :=
  match j with
  | JNull => Some JNull
  | JBool b => Some (JBool b)
  | JNumber lit => JNumber <$> number lit
  | JString s => Some (JString s)
  | JArray l =>
      JArray <$> (fix values (l : list json) : option (list json) :=
        match l with
        | [] => Some []
        | v :: l' =>
            match any_value v, values l' with
            | Some v', Some l'' => Some (v' :: l'')
            | _, _ => None
            end
        end) l
  | JObject ms =>
      object_json ∘ last_wins <$> (fix members (ms : list (string * json)) : option (list (string * json)) :=
        match ms with
        | [] => Some []
        | (k, v) :: ms' =>
            match any_value v, members ms' with
            | Some v', Some ms'' => Some ((k, v') :: ms'')
            | _, _ => None
            end
        end) ms
  end.

Definition cany : codec json := {|
  zero := JNull;
  decode _ j := any_value j;
  encode x := Some x;
  wf x := any_value x = Some x
|}.

Fixpoint any_values (l : list json) : option (list json) :=
  match l with
  | [] => Some []
  | v :: l' =>
      match any_value v, any_values l' with Some v', Some l'' => Some (v' :: l'') | _, _ => None end
  end.
Fixpoint any_members (ms : list (string * json)) : option (list (string * json)) :=
  match ms with
  | [] => Some []
  | (k, v) :: ms' =>
      match any_value v, any_members ms' with Some v', Some ms'' => Some ((k, v') :: ms'') | _, _ => None end
  end.

Lemma any_array l : any_value (JArray l) = JArray <$> any_values l.
Proof. simpl. f_equal. Qed.
Lemma any_object ms : any_value (JObject ms) = object_json ∘ last_wins <$> any_members ms.
Proof. simpl. f_equal. Qed.

(** Reading a number that was written changes nothing. *)
Context (number_idem : ∀ lit lit', number lit = Some lit' → number lit' = Some lit').

Lemma any_members_spec ms ms' :
  any_members ms = Some ms' → Forall2 (λ kv kv', kv'.1 = kv.1 ∧ any_value kv.2 = Some kv'.2) ms ms'.
Proof.
  revert ms'. induction ms as [|[k v] ms IH]; intros ms'; simpl; [by intros [= <-]|].
  destruct (any_value v) as [v'|] eqn:Hv; [|done]. destruct (any_members ms) as [ms''|]; [|done].
  intros [= <-]. constructor; [done|by apply IH].
Qed.

Lemma any_members_id ms : Forall (λ kv, any_value kv.2 = Some kv.2) ms → any_members ms = Some ms.
Proof. induction 1 as [|[k v] ms Hv Hms IH]; [done|]. simpl in *. by rewrite Hv, IH. Qed.

Lemma any_object_id m : map_Forall (λ _ v, any_value v = Some v) m → any_value (object_json m) = Some (object_json m).
Proof.
  intros Hm. unfold object_json at 1. rewrite any_object, any_members_id.
  - simpl. f_equal. unfold last_wins. by rewrite sorted_entries.
  - rewrite (sort_by_name_Permutation fst (map_to_list m)). apply Forall_forall.
    intros [k v] Hin%elem_of_map_to_list. by apply (Hm k v).
Qed.

Lemma any_idem j j' : any_value j = Some j' → any_value j' = Some j'.
Proof.
  revert j'. induction j as [|b|lit|s|l IH|ms IH] using json_ind'; intros j'; try (by intros [= <-]).
  - simpl. intros (lit' & Hl & ->)%fmap_Some. simpl. by rewrite (number_idem _ _ Hl).
  - rewrite any_array. intros (l' & Hl & ->)%fmap_Some. rewrite any_array.
    enough (any_values l' = Some l') as -> by done. revert l' Hl.
    induction IH as [|v l Hv Hl IH']; intros l'; simpl; [by intros [= <-]|].
    destruct (any_value v) as [v'|] eqn:E; [|done]. destruct (any_values l) as [l''|]; [|done].
    intros [= <-]. simpl. by rewrite (Hv v' eq_refl), (IH' l'' eq_refl).
  - rewrite any_object. intros (ms' & Hms & ->)%fmap_Some. apply any_object_id.
    apply any_members_spec in Hms. intros k v Hk. unfold last_wins in Hk.
    apply elem_of_list_to_map_2 in Hk. rewrite elem_of_reverse in Hk.
    apply list_elem_of_lookup in Hk as [i Hi]. destruct (Forall2_lookup_r _ _ _ _ _ Hms Hi) as ([k' v'] & Hi' & _ & Hv).
    rewrite Forall_lookup in IH. exact (IH i _ Hi' v Hv).
Qed.

Lemma cany_lawful : lawful cany.
Proof.
  split; simpl.
  - done.
  - intros _ j x _. apply any_idem.
  - intros _ j x _ Hj Hd. intros [= ->]. destruct j; simpl in Hd; try done.
    + by destruct (number lit).
    + fold (any_values l) in Hd. by destruct (any_values l).
    + fold (any_members members) in Hd. by destruct (any_members members).
  - intros x Hx. by exists x.
Qed.
End Any.

(** ** Times *)

(** [time.Time] as package [time] reads and writes it (RFC 3339). *)
Class TimeText (T : Type) := {
  time_zero : T;
  time_parse : string → option T;
  time_format : T → option string
}.

(** A time read from text is written as text that reads as the same time. *)
Class TimeTextLaws (T : Type) `{!TimeText T} := {
  time_zero_text : ∃ s, time_format time_zero = Some s ∧ time_parse s = Some time_zero;
  time_parse_format s t : time_parse s = Some t → ∃ s', time_format t = Some s' ∧ time_parse s' = Some t
}.

Definition ctime {T} `{!TimeText T} : codec T := {|
  zero := time_zero;
  decode old j := match j with JNull => Some old | JString s => time_parse s | _ => None end;
  encode t := JString <$> time_format t;
  wf t := ∃ s, time_format t = Some s ∧ time_parse s = Some t
|}.

Lemma ctime_lawful {T} `{!TimeText T, !TimeTextLaws T} : lawful (ctime (T := T)).
Proof.
  split; simpl.
  - apply time_zero_text.
  - intros old j x Hw. destruct j; try done; [by intros [= <-]|]. apply time_parse_format.
  - intros old j x _ Hj Hd. destruct j; try done. destruct (time_format x); simpl; congruence.
  - intros x (s & Hs & Hp). exists (JString s). by rewrite Hs.
Qed.

(** ** Structs *)

(** A field: its JSON name, its codec, whether [omitempty] leaves it out, and
    how it is read and assigned. *)
Record field (R : Type) := Field {
  f_ty : Type;
  f_name : string;
  f_codec : codec f_ty;
  f_empty : f_ty → bool;
  f_get : R → f_ty;
  f_put : f_ty → R → R
}.
Arguments Field {R f_ty}.
Arguments f_ty {R}.
Arguments f_name {R}.
Arguments f_codec {R}.
Arguments f_empty {R}.
Arguments f_get {R}.
Arguments f_put {R}.

(** A field that is always written, and a pointer with [omitempty]. *)
Definition required {R A} (name : string) (c : codec A) (get : R → A) (put : A → R → R) : field R :=
  Field name c (λ _, false) get put.
Definition optional {R A} (name : string) (c : codec A) (get : R → option A) (put : option A → R → R) : field R :=
  Field name (cptr c) (λ o, match o with None => true | Some _ => false end) get put.
(** A slice that the generated [MarshalJSON] writes only when it is not [nil]. *)
Definition nonnil {R A} (name : string) (c : codec (option A)) (get : R → option A) (put : option A → R → R) : field R :=
  Field name c (λ o, match o with None => true | Some _ => false end) get put.

Section Fields.
Context {R : Type}.
Implicit Types (f g : field R) (fs : list (field R)).

Definition decode_field f (r : R) (j : json) : option R :=
  (λ v, f_put f v r) <$> decode (f_codec f) (f_get f r) j.

(** [None] inside: the field is left out. *)
Definition encode_field (r : R) f : option (option (string * json)) :=
  if f_empty f (f_get f r) then Some None
  else (λ j, Some (f_name f, j)) <$> encode (f_codec f) (f_get f r).

(** *** Plain structs: encoding/json *)

Definition find_field (fs : list (field R)) (k : string) : option (field R) :=
  List.find (λ f, key_matches (f_name f) k) fs.

Definition decode_member fs (acc : option R) (m : string * json) : option R :=
  match acc with
  | None => None
  | Some r => match find_field fs m.1 with None => Some r | Some f => decode_field f r m.2 end
  end.

Definition struct_decode fs (r : R) (j : json) : option R :=
  match j with
  | JNull => Some r
  | JObject ms => fold_left (decode_member fs) ms (Some r)
  | _ => None
  end.

Definition struct_encode fs (r : R) : option json :=
  (λ l, JObject (omap id l)) <$> mapM (encode_field r) fs.

Definition fields_wf fs (r : R) : Prop := Forall (λ f, wf (f_codec f) (f_get f r)) fs.

Definition cstruct (z : R) fs : codec R := {|
  zero := z;
  decode := struct_decode fs;
  encode := struct_encode fs;
  wf := fields_wf fs
|}.

(** What a declaration of fields has to satisfy: they are separate parts of the
    struct, start at their zero values, are left out only then, and have
    lawful codecs. *)
Definition field_good (z : R) f : Prop :=
  lawful (f_codec f) ∧ f_get f z = zero (f_codec f) ∧ (∀ v, f_empty f v = true → v = zero (f_codec f)) ∧
  (∀ v r, f_get f (f_put f v r) = v) ∧ (∀ r, f_put f (f_get f r) r = r).

Definition separate f g : Prop :=
  (∀ v r, f_get g (f_put f v r) = f_get g r) ∧ (∀ v r, f_get f (f_put g v r) = f_get f r).

Fixpoint all_separate fs : Prop :=
  match fs with [] => True | f :: fs' => Forall (separate f) fs' ∧ all_separate fs' end.

Definition assign (x : R) (r : R) f : R := f_put f (f_get f x) r.

Record declares (z : R) fs : Prop := {
  decl_good : Forall (field_good z) fs;
  decl_separate : all_separate fs;
  decl_names : NoDup (foldName ∘ f_name <$> fs)
}.

Lemma decode_field_wf z fs f r j r' :
  declares z fs → f ∈ fs → fields_wf fs r → decode_field f r j = Some r' → fields_wf fs r'.
Proof.
  intros [Hg Hs _] Hf Hr. unfold decode_field. intros (v & Hv & ->)%fmap_Some.
  unfold fields_wf in *. rewrite Forall_forall in Hr, Hg |- *. intros g Hgin.
  enough (f = g ∨ separate f g) as [<-|[Hsep _]].
  - destruct (Hg f Hf) as (Hl & _ & _ & Hgp & _). rewrite Hgp. eapply wf_decode; [done|by apply Hr|done].
  - rewrite Hsep. by apply Hr.
  - clear -Hs Hf Hgin. induction fs as [|h fs IH]; [by apply elem_of_nil in Hf|]. destruct Hs as [Hh Hs].
    rewrite Forall_forall in Hh. apply elem_of_cons in Hf as [->|Hf]; apply elem_of_cons in Hgin as [->|Hgin].
    + by left.
    + right. by apply Hh.
    + right. destruct (Hh f Hf) as [H1 H2]. by split.
    + by apply IH.
Qed.

Lemma find_field_elem fs k f : find_field fs k = Some f → f ∈ fs.
Proof. intros [H _]%List.find_some. by apply list_elem_of_In. Qed.

Lemma find_field_own fs f : NoDup (foldName ∘ f_name <$> fs) → f ∈ fs → find_field fs (f_name f) = Some f.
Proof.
  unfold find_field. induction fs as [|g fs IH]; [by intros _ ?%elem_of_nil|].
  rewrite fmap_cons, NoDup_cons. intros [Hn Hnd] [->|Hf]%elem_of_cons; simpl; unfold key_matches.
  - by rewrite bool_decide_true.
  - rewrite bool_decide_false; [by apply IH|]. intros He. apply Hn. apply list_elem_of_fmap. exists f. by split.
Qed.

Lemma decode_members_wf z fs ms r r' :
  declares z fs → fields_wf fs r → fold_left (decode_member fs) ms (Some r) = Some r' → fields_wf fs r'.
Proof.
  intros Hd. revert r. induction ms as [|[k j] ms IH]; intros r Hr; simpl; [by intros [= <-]|].
  assert (∀ l : list (string * json), fold_left (decode_member fs) l None ≠ Some r') as Hnone
    by (intros l; induction l; done).
  destruct (find_field fs k) as [f|] eqn:Hf; [|by apply IH].
  destruct (decode_field f r j) as [r1|] eqn:Hj; [|by intros ?%Hnone].
  apply IH. eapply decode_field_wf; [done|by eapply find_field_elem|done..].
Qed.

(** Reading what was written for a field assigns it. *)
Lemma encode_field_step z f x r :
  field_good z f → f_get f r = zero (f_codec f) → wf (f_codec f) (f_get f x) →
  (encode_field x f = Some None ∧ assign x r f = r) ∨
  (∃ j, encode_field x f = Some (Some (f_name f, j)) ∧ decode_field f r j = Some (assign x r f)).
Proof.
  intros (Hl & _ & He & _ & Hpg) Hr Hw. unfold encode_field, assign, decode_field.
  destruct (f_empty f (f_get f x)) eqn:Hemp.
  - left. split; [done|]. by rewrite (He _ Hemp), <-Hr.
  - right. destruct (roundtrip _ Hl _ Hw) as (j & Hj & Hd). exists j. by rewrite Hj, Hr, Hd.
Qed.

Lemma separate_zero f (fs : list (field R)) v r :
  Forall (separate f) fs → Forall (λ g, f_get g r = zero (f_codec g)) fs →
  Forall (λ g, f_get g (f_put f v r) = zero (f_codec g)) fs.
Proof.
  intros Hs Hz. rewrite Forall_forall in Hs. rewrite Forall_forall in Hz. apply Forall_forall. intros g Hg.
  rewrite (proj1 (Hs g Hg)). by apply Hz.
Qed.

Lemma struct_roundtrip_from z fs todo x r :
  declares z fs → todo ⊆ fs → all_separate todo → fields_wf fs x →
  Forall (λ g, f_get g r = zero (f_codec g)) todo →
  ∃ l, mapM (encode_field x) todo = Some l ∧
       fold_left (decode_member fs) (omap id l) (Some r) = Some (fold_left (assign x) todo r).
Proof.
  intros Hd Hsub Hsep Hx. revert r. induction todo as [|f todo IH]; intros r Hz; [by exists []|].
  destruct Hsep as [Hf Hsep]. apply Forall_cons in Hz as [Hfz Hz]. assert (f ∈ fs) as Hin by set_solver.
  pose proof (proj1 (Forall_forall _ _) (decl_good _ _ Hd) f Hin) as Hgood.
  destruct (encode_field_step z f x r Hgood Hfz (proj1 (Forall_forall _ _) Hx f Hin)) as [[He Ha]|(j & He & Hj)].
  - destruct (IH ltac:(set_solver) Hsep r Hz) as (l & Hl & Hfold). exists (None :: l). split.
    + apply mapM_Some. constructor; [done|by apply mapM_Some].
    + cbn [omap list_omap id fold_left]. by rewrite Ha.
  - destruct (IH ltac:(set_solver) Hsep (assign x r f) (separate_zero f todo _ r Hf Hz)) as (l & Hl & Hfold).
    exists (Some (f_name f, j) :: l). split.
    + apply mapM_Some. constructor; [done|by apply mapM_Some].
    + cbn [omap list_omap id fold_left decode_member fst snd]. by rewrite (find_field_own fs f (decl_names _ _ Hd) Hin), Hj.
Qed.

Lemma declares_zero z fs : declares z fs → Forall (λ g, f_get g z = zero (f_codec g)) fs.
Proof. intros Hd. eapply Forall_impl; [exact (decl_good _ _ Hd)|]. by intros f (_ & ? & _). Qed.

Lemma declares_wf_zero z fs : declares z fs → fields_wf fs z.
Proof.
  intros Hd. unfold fields_wf. eapply Forall_impl; [exact (decl_good _ _ Hd)|].
  intros f (Hl & Hz & _). rewrite Hz. by apply wf_zero.
Qed.

Lemma cstruct_lawful z fs : declares z fs → (∀ x, fold_left (assign x) fs z = x) → lawful (cstruct z fs).
Proof.
  intros Hd Hall. split; simpl.
  - by apply declares_wf_zero.
  - intros old j x Hold. destruct j; try done; [by intros [= <-]|]. by apply decode_members_wf with z.
  - intros old j x _ _ _. unfold struct_encode. by destruct (mapM _ fs).
  - intros x Hx.
    destruct (struct_roundtrip_from z fs fs x z Hd ltac:(done) (decl_separate _ _ Hd) Hx (declares_zero z fs Hd))
      as (l & Hl & Hfold).
    exists (JObject (omap id l)). unfold struct_encode. rewrite Hl. split; [done|]. simpl. by rewrite Hfold, Hall.
Qed.

End Fields.

(** *** Structs with [AdditionalProperties]: the generated methods *)

Section Extensible.
Context {R : Type}.
Implicit Types (f g : field R) (fs : list (field R)).

(** [json.Unmarshal] into a [map\[string\]json.RawMessage]. *)
Definition object_of (j : json) : option (gmap string json) :=
  match j with
  | JNull => Some ∅
  | JObject ms => Some (last_wins ms)
  | _ => None
  end.

(** The declared fields, each removed from the object once read. *)
Fixpoint read_fields fs (r : R) (object : gmap string json) : option (R * gmap string json) :=
  match fs with
  | [] => Some (r, object)
  | f :: fs' =>
      match object !! f_name f with
      | None => read_fields fs' r object
      | Some raw =>
          match decode_field f r raw with
          | None => None
          | Some r' => read_fields fs' r' (delete (f_name f) object)
          end
      end
  end.

Context (number : string → option string).
Context (ap_get : R → option (gmap string json)) (ap_put : option (gmap string json) → R → R).

Definition any_map (object : gmap string json) : option (gmap string json) :=
  list_to_map <$> any_members number (map_to_list object).

Definition UnmarshalJSON fs (r : R) (j : json) : option R :=
  match object_of j with
  | None => None
  | Some object =>
      match read_fields fs r object with
      | None => None
      | Some (r', rest) =>
          if bool_decide (rest = ∅) then Some r'
          else (λ m, ap_put (Some m) r') <$> any_map rest
      end
  end.

(** Additional properties are written after the declared fields, over them. *)
Definition MarshalJSON fs (r : R) : option json :=
  (λ l, object_json (default ∅ (ap_get r) ∪ list_to_map (omap id l))) <$> mapM (encode_field r) fs.

Definition extra_wf fs (r : R) : Prop :=
  match ap_get r with
  | None => True
  | Some m =>
      m ≠ ∅ ∧ map_Forall (λ k v, any_value number v = Some v ∧ k ∉ f_name <$> fs) m
  end.

(** The two methods name the members each on their own: [reads] are the ones
    [UnmarshalJSON] looks for, [writes] the ones [MarshalJSON] sets. *)
Definition cextensible (z : R) (reads writes : list (field R)) : codec R := {|
  zero := z;
  decode := UnmarshalJSON reads;
  encode := MarshalJSON writes;
  wf r := fields_wf reads r ∧ extra_wf reads r
|}.

(** Members outside [names] are kept: each one's last value is in the additional
    properties as [json.Unmarshal] into an [interface{}] reads it, nothing else is
    there, and writing the value sets the same members again. *)
Definition keeps_unknown (c : codec R) (names : list string) : Prop :=
  ∀ j x, decode c (zero c) j = Some x →
    ∃ object, object_of j = Some object ∧
      (∀ k, default ∅ (ap_get x) !! k =
        (if bool_decide (k ∈ names) then None else object !! k ≫= any_value number)) ∧
      ∃ object', encode c x = Some (object_json object') ∧
        ∀ k, k ∉ names → object' !! k = object !! k ≫= any_value number.

(** The additional properties are a part of their own. *)
Record declares_extra (z : R) fs : Prop := {
  extra_zero : ap_get z = None;
  extra_get_put m r : ap_get (ap_put m r) = m;
  extra_put_get r : ap_put (ap_get r) r = r;
  extra_separate : Forall (λ f, (∀ v r, ap_get (f_put f v r) = ap_get r) ∧ ∀ m r, f_get f (ap_put m r) = f_get f r) fs
}.

Lemma names_nodup (z : R) fs : declares z fs → NoDup (f_name <$> fs).
Proof. intros Hd. eapply (NoDup_fmap_1 foldName). rewrite <-list_fmap_compose. apply Hd. Qed.

Lemma read_fields_wf z fs todo r o r' rest :
  declares z fs → declares_extra z fs → todo ⊆ fs → fields_wf fs r → read_fields todo r o = Some (r', rest) →
  fields_wf fs r' ∧ ap_get r' = ap_get r ∧ ∀ k v, rest !! k = Some v → o !! k = Some v ∧ k ∉ f_name <$> todo.
Proof.
  intros Hd He. revert r o. induction todo as [|f todo IH]; intros r o Hsub Hr; simpl.
  { intros [= <- <-]. split_and!; [done..|]. intros k v Hk. split; [done|]. by intros ?%elem_of_nil. }
  assert (f ∈ fs) as Hf by set_solver.
  destruct (o !! f_name f) as [raw|] eqn:Ho.
  - destruct (decode_field f r raw) as [r1|] eqn:Hj; [|done]. intros Hrf.
    destruct (IH r1 _ ltac:(set_solver) (decode_field_wf z fs f r raw r1 Hd Hf Hr Hj) Hrf) as (Hw & Hap & Hrest).
    split_and!; [done| |].
    + rewrite Hap. unfold decode_field in Hj. apply fmap_Some in Hj as (v & _ & ->).
      exact (proj1 (proj1 (Forall_forall _ _) (extra_separate _ _ He) f Hf) v r).
    + intros k v Hk. apply Hrest in Hk as [Hk Hn]. apply lookup_delete_Some in Hk as [Hne Hk]. set_solver.
  - intros Hrf. destruct (IH r o ltac:(set_solver) Hr Hrf) as (Hw & Hap & Hrest). split_and!; [done..|].
    intros k v Hk. apply Hrest in Hk as [Hk Hn]. split; [done|]. assert (k ≠ f_name f) by congruence. set_solver.
Qed.

Lemma encode_names (x : R) (todo : list (field R)) l : mapM (encode_field x) todo = Some l → (omap id l).*1 ⊆ f_name <$> todo.
Proof.
  intros H%mapM_Some. induction H as [|f o todo l Hf Hl IH]; [done|]. unfold encode_field in Hf.
  destruct (f_empty f _); simplify_eq/=; [set_solver|]. apply fmap_Some in Hf as (j & _ & ->). simpl. set_solver.
Qed.

Lemma read_roundtrip_from z fs todo x r o l :
  declares z fs → todo ⊆ fs → all_separate todo → NoDup (f_name <$> todo) → fields_wf fs x →
  Forall (λ g, f_get g r = zero (f_codec g)) todo → mapM (encode_field x) todo = Some l →
  (∀ f, f ∈ todo → o !! f_name f = (list_to_map (omap id l) : gmap string json) !! f_name f) →
  read_fields todo r o = Some (fold_left (assign x) todo r, filter (λ kv, kv.1 ∉ f_name <$> todo) o).
Proof.
  intros Hd Hsub Hsep Hnd Hx. revert r o l. induction todo as [|f todo IH]; intros r o l Hz Hl Ho.
  { simpl. by rewrite map_filter_id by (intros; by intros ?%elem_of_nil). }
  destruct Hsep as [Hf Hsep]. apply Forall_cons in Hz as [Hfz Hz]. assert (f ∈ fs) as Hin by set_solver.
  rewrite fmap_cons, NoDup_cons in Hnd. destruct Hnd as [Hfn Hnd].
  apply mapM_Some, Forall2_cons_inv_l in Hl as (y & l' & Hy & Hl & ->). apply mapM_Some in Hl.
  assert ((list_to_map (omap id l') : gmap string json) !! f_name f = None) as Hno.
  { apply not_elem_of_list_to_map_1. intros H%(encode_names x todo l' Hl). done. }
  pose proof (proj1 (Forall_forall _ _) (decl_good _ _ Hd) f Hin) as Hgood.
  destruct (encode_field_step z f x r Hgood Hfz (proj1 (Forall_forall _ _) Hx f Hin)) as [[He Ha]|(j & He & Hj)];
    rewrite He in Hy; simplify_eq; cbn [read_fields fold_left].
  - change (omap id (None :: l')) with (omap id l') in Ho. rewrite (Ho f), Hno by left. rewrite Ha, (IH ltac:(set_solver) Hsep Hnd r o l' Hz Hl).
    + f_equal. f_equal. apply map_eq. intros k. apply option_eq. intros v. rewrite !map_lookup_filter_Some. simpl.
      assert (o !! f_name f = None) by (by rewrite (Ho f) by left). set_unfold. naive_solver congruence.
    + intros g Hg. rewrite (Ho g) by (by right). done.
  - change (omap id (Some (f_name f, j) :: l')) with ((f_name f, j) :: omap id l') in Ho.
    rewrite (Ho f), list_to_map_cons, lookup_insert_eq by left. rewrite Hj.
    rewrite (IH ltac:(set_solver) Hsep Hnd (assign x r f) _ l' (separate_zero f todo _ r Hf Hz) Hl).
    + f_equal. f_equal. apply map_eq. intros k. apply option_eq. intros v.
      rewrite !map_lookup_filter_Some, lookup_delete_Some. simpl. set_unfold. naive_solver congruence.
    + intros g Hg. assert (f_name g ≠ f_name f) by (intros Heq; apply Hfn; rewrite <-Heq; apply list_elem_of_fmap; eauto).
      rewrite lookup_delete_ne by done. rewrite (Ho g), list_to_map_cons by (by right). by rewrite lookup_insert_ne.
Qed.

Context (number_idem : ∀ lit lit', number lit = Some lit' → number lit' = Some lit').

Lemma any_map_spec o m :
  any_map o = Some m → o ≠ ∅ →
  m ≠ ∅ ∧ ∀ k v, m !! k = Some v → any_value number v = Some v ∧ is_Some (o !! k).
Proof.
  unfold any_map. intros (ms & Hms & ->)%fmap_Some Ho. apply any_members_spec in Hms. split.
  - intros He. apply Ho. apply map_to_list_empty_iff. destruct Hms as [|[k v] [k' v'] l l' _ _]; [done|].
    rewrite list_to_map_cons in He. by apply insert_non_empty in He.
  - intros k v Hk%elem_of_list_to_map_2. apply list_elem_of_lookup in Hk as [i Hi].
    destruct (Forall2_lookup_r _ _ _ _ _ Hms Hi) as ([k' v'] & Hi' & Heq & Hv). simpl in *. subst k'.
    split; [by eapply any_idem|]. apply list_elem_of_lookup_2, elem_of_map_to_list in Hi'. by eexists.
Qed.

Lemma any_map_id o : map_Forall (λ _ v, any_value number v = Some v) o → any_map o = Some o.
Proof.
  intros Ho. unfold any_map. rewrite any_members_id; [simpl; by rewrite list_to_map_to_list|].
  apply Forall_forall. intros [k v] Hin%elem_of_map_to_list. by apply (Ho k v).
Qed.

Lemma extra_wf_decode z fs old j x :
  declares z fs → declares_extra z fs → fields_wf fs old → extra_wf fs old → UnmarshalJSON fs old j = Some x →
  fields_wf fs x ∧ extra_wf fs x.
Proof.
  intros Hd He Hf Hx. unfold UnmarshalJSON. destruct (object_of j) as [o|]; [|done].
  destruct (read_fields fs old o) as [[r rest]|] eqn:Hrf; [|done].
  destruct (read_fields_wf z fs fs old o r rest Hd He ltac:(done) Hf Hrf) as (Hw & Hap & Hrest).
  case_bool_decide as Hemp.
  - intros [= <-]. split; [done|]. unfold extra_wf. by rewrite Hap.
  - intros (m & Hm & ->)%fmap_Some. destruct (any_map_spec rest m Hm Hemp) as [Hne Hvals]. split.
    + unfold fields_wf in *. rewrite Forall_forall in Hw |- *. intros f Hin.
      rewrite (proj2 (proj1 (Forall_forall _ _) (extra_separate _ _ He) f Hin)). by apply Hw.
    + unfold extra_wf. rewrite (extra_get_put _ _ He). split; [done|]. intros k v Hk.
      destruct (Hvals k v Hk) as [Hv [v' Hv']]. split; [done|]. by apply Hrest in Hv' as [_ ?].
Qed.

Lemma mapM_encode_total z fs x : declares z fs → fields_wf fs x → ∃ l, mapM (encode_field x) fs = Some l.
Proof.
  intros Hd Hx.
  destruct (struct_roundtrip_from z fs fs x z Hd ltac:(done) (decl_separate _ _ Hd) Hx (declares_zero z fs Hd)) as (l & Hl & _).
  eauto.
Qed.

Lemma split_object fs (ap : gmap string json) l x :
  mapM (encode_field x) fs = Some l → map_Forall (λ k _, k ∉ f_name <$> fs) ap →
  filter (λ kv, kv.1 ∉ f_name <$> fs) (ap ∪ list_to_map (omap id l)) = ap.
Proof.
  intros Hl Hap. apply map_eq. intros k. apply option_eq. intros v.
  rewrite map_lookup_filter_Some, lookup_union_Some_raw. simpl. split.
  - intros [[?|[_ Hk]] Hn]; [done|]. destruct Hn. apply elem_of_list_to_map_2 in Hk.
    apply (encode_names x fs l Hl). apply list_elem_of_fmap. by exists (k, v).
  - intros Hk. split; [by left|]. by apply (Hap k v).
Qed.

Lemma cextensible_lawful z fs writes :
  writes = fs → declares z fs → declares_extra z fs → (∀ x, ap_put (ap_get x) (fold_left (assign x) fs z) = x) →
  lawful (cextensible z fs writes).
Proof.
  intros -> Hd He Hall. split; cbn [zero decode encode wf cextensible].
  - split; [by apply declares_wf_zero|]. unfold extra_wf. by rewrite (extra_zero _ _ He).
  - intros old j x [Hf Hx]. by apply extra_wf_decode with z.
  - intros old j x _ _ _. unfold MarshalJSON. by destruct (mapM _ fs).
  - intros x [Hf Hx]. destruct (mapM_encode_total z fs x Hd Hf) as [l Hl]. unfold MarshalJSON. rewrite Hl.
    eexists. split; [done|]. unfold UnmarshalJSON. simpl. unfold last_wins. rewrite sorted_entries.
    assert (map_Forall (λ k v, any_value number v = Some v ∧ k ∉ f_name <$> fs) (default ∅ (ap_get x))) as Hap.
    { unfold extra_wf in Hx. destruct (ap_get x) as [m|]; [apply Hx|apply map_Forall_empty]. }
    rewrite (read_roundtrip_from z fs fs x z _ l Hd ltac:(done) (decl_separate _ _ Hd) (names_nodup z fs Hd) Hf
      (declares_zero z fs Hd) Hl).
    2:{ intros f Hin. rewrite lookup_union_r; [done|]. destruct (default ∅ (ap_get x) !! f_name f) as [v|] eqn:Hv; [|done].
        destruct (Hap _ _ Hv) as [_ []]. by apply list_elem_of_fmap_2. }
    rewrite (split_object fs _ l x Hl); [|intros k v Hk; by apply (Hap k v)].
    rewrite any_map_id; [|intros k v Hk; by apply (Hap k v)].
    pose proof (Hall x) as Hxx. unfold extra_wf in Hx.
    destruct (ap_get x) as [m|] eqn:Hm; simpl.
    + rewrite bool_decide_false by apply Hx. by rewrite Hxx.
    + rewrite bool_decide_true by done. f_equal. rewrite <-Hxx at 2. symmetry.
      assert (∀ r, ap_get (fold_left (assign x) fs r) = ap_get r) as Hk.
      { pose proof (extra_separate _ _ He) as Hs. clear -Hs. induction Hs as [|f fs [Hf _] Hs IH]; intros r; [done|].
        simpl. rewrite IH. apply Hf. }
      assert (ap_get (fold_left (assign x) fs z) = None) as Hn by (rewrite Hk; apply (extra_zero _ _ He)).
      rewrite <-Hn. apply (extra_put_get _ _ He).
Qed.

Lemma read_fields_rest todo r o r' rest k :
  read_fields todo r o = Some (r', rest) → k ∉ f_name <$> todo → rest !! k = o !! k.
Proof.
  revert r o. induction todo as [|f todo IH]; intros r o; simpl; [by intros [= _ ->]|].
  rewrite not_elem_of_cons. destruct (o !! f_name f) as [raw|]; [destruct (decode_field f r raw) as [r1|]; [|done]|];
    intros H [Hne Hk]; rewrite (IH _ _ H Hk); [|done]. by rewrite lookup_delete_ne.
Qed.

Lemma any_map_lookup o m k : any_map o = Some m → m !! k = o !! k ≫= any_value number.
Proof.
  unfold any_map. intros (ms & Hms%any_members_spec & ->)%fmap_Some.
  rewrite <-(list_to_map_to_list o) at 1. induction Hms as [|[a v] [b w] l l' [Hab Hv] _ IH]; simpl in *; [done|].
  subst b. destruct (decide (k = a)) as [->|Hne]; [by rewrite !lookup_insert_eq|]. by rewrite !lookup_insert_ne.
Qed.

(** The additional properties after reading, member by member. *)
Lemma unmarshal_extra z fs j x :
  declares z fs → declares_extra z fs → UnmarshalJSON fs z j = Some x →
  ∃ object, object_of j = Some object ∧
    ∀ k, default ∅ (ap_get x) !! k = if bool_decide (k ∈ f_name <$> fs) then None else object !! k ≫= any_value number.
Proof.
  intros Hd He. unfold UnmarshalJSON. destruct (object_of j) as [o|]; [|done].
  destruct (read_fields fs z o) as [[r rest]|] eqn:Hrf; [|done]. intros Hx. exists o. split; [done|].
  destruct (read_fields_wf z fs fs z o r rest Hd He ltac:(done) (declares_wf_zero z fs Hd) Hrf) as (_ & Hap & Hrest).
  assert (∀ k, rest !! k = if bool_decide (k ∈ f_name <$> fs) then None else o !! k) as Hk.
  { clear Hx. intros k. case_bool_decide as Hk; [|by eapply read_fields_rest].
    destruct (rest !! k) as [v|] eqn:Hv; [|done]. by apply Hrest in Hv as [_ ?]. }
  intros k. specialize (Hk k). destruct (bool_decide_reflect (rest = ∅)) as [Hemp|Hemp].
  - injection Hx as <-. rewrite Hap, (extra_zero _ _ He). rewrite Hemp, lookup_empty in Hk. simpl. rewrite lookup_empty.
    case_bool_decide; [done|]. by rewrite <-Hk.
  - apply fmap_Some in Hx as (m & Hm & ->). rewrite (extra_get_put _ _ He). simpl.
    rewrite (any_map_lookup rest m k Hm), Hk. by case_bool_decide.
Qed.

Lemma cextensible_keeps_unknown z fs writes :
  writes = fs → declares z fs → declares_extra z fs → keeps_unknown (cextensible z fs writes) (f_name <$> fs).
Proof.
  intros -> Hd He j x. cbn [zero decode encode cextensible]. intros Hx.
  destruct (unmarshal_extra z fs j x Hd He Hx) as (o & Ho & Hap). exists o. split_and!; [done..|].
  assert (extra_wf fs z) as Hz by (unfold extra_wf; by rewrite (extra_zero _ _ He)).
  destruct (extra_wf_decode z fs z j x Hd He (declares_wf_zero z fs Hd) Hz Hx) as [Hf _].
  destruct (mapM_encode_total z fs x Hd Hf) as [l Hl]. unfold MarshalJSON. rewrite Hl. eexists. split; [done|].
  intros k Hk. specialize (Hap k). rewrite bool_decide_false in Hap by done. rewrite <-Hap.
  apply lookup_union_l, not_elem_of_list_to_map_1. intros H%(encode_names x fs l Hl). done.
Qed.
End Extensible.
