(* ===== verification/ApiTypes.v ===== *)
(** * The API types and their JSON

    The structs of src/api/*/v1alpha1/types.gen.go and src/api/v1alpha1, one
    module per API, each with its [codec]: a plain struct is read and written by
    [encoding/json] through its tags, a struct with [AdditionalProperties] by the
    generated [UnmarshalJSON] and [MarshalJSON], whose members are listed apart
    ([_reads] and [_writes]).  Named string and integer types are their
    underlying types. *)

From S2P Require Import Prelude GoStrings Json Encoding Codec.
#[local] Open Scope string_scope.

Create HintDb codec.
#[export] Hint Resolve cstring_lawful cptr_lawful cslice_lawful cmap_lawful cany_lawful ctime_lawful : codec.

Lemma cint64_lawful : lawful cint64.
Proof. apply cint_lawful. unfold int64_min, int64_max. lia. Qed.
Lemma cint32_lawful : lawful cint32.
Proof. apply cint_lawful. lia. Qed.
#[export] Hint Resolve cint64_lawful cint32_lawful : codec.

(** [AdditionalProperties]. *)
Abbreviation extra := (option (gmap string json)).

(** The obligations of a declaration, by computation on a generic struct. *)
Ltac field_tac :=
  repeat (apply Forall_cons_2;
    [unfold field_good; split_and!; cbn [f_ty f_codec f_get f_put f_empty required optional nonnil];
     [eauto with codec|reflexivity|intros [] Hv; solve [discriminate|reflexivity]|intros ? []; reflexivity|intros []; reflexivity]|]);
  apply Forall_nil_2.
Ltac separate_tac :=
  cbn [all_separate]; repeat split;
  repeat (apply Forall_cons_2; [unfold separate; split; intros ? []; reflexivity|]); apply Forall_nil_2.
Ltac declares_tac := split; [field_tac|separate_tac|by apply (bool_decide_unpack _); vm_compute].
Ltac extra_tac :=
  split; [reflexivity|intros ? []; reflexivity|intros []; reflexivity|];
  repeat (apply Forall_cons_2; [split; intros ? []; reflexivity|]); apply Forall_nil_2.
Ltac struct_tac := apply cstruct_lawful; [declares_tac|intros []; reflexivity].
Ltac extensible_tac := apply cextensible_lawful; [done|reflexivity|declares_tac|extra_tac|intros []; reflexivity].
Ltac unknown_tac := apply (cextensible_keeps_unknown _ _ _); [done|reflexivity|declares_tac|extra_tac].

(** ** container/v1alpha1: the container API *)

Module ContainerApi.
Section Types.
Context {T : Type} `{!TimeText T} (number : string → option string).

Record ContainerCpu := mkContainerCpu { cc_Max : string; cc_Min : string; cc_Additional : extra }.

Definition cc_reads : list (field ContainerCpu) := [
  required "max" cstring cc_Max (λ v '(mkContainerCpu _ b c), mkContainerCpu v b c);
  required "min" cstring cc_Min (λ v '(mkContainerCpu a _ c), mkContainerCpu a v c)
].
Definition cc_writes : list (field ContainerCpu) := [
  required "max" cstring cc_Max (λ v '(mkContainerCpu _ b c), mkContainerCpu v b c);
  required "min" cstring cc_Min (λ v '(mkContainerCpu a _ c), mkContainerCpu a v c)
].
Definition cc_extra (v : extra) (r : ContainerCpu) : ContainerCpu :=
  let '(mkContainerCpu a b _) := r in mkContainerCpu a b v.
Definition cContainerCpu : codec ContainerCpu :=
  cextensible number cc_Additional cc_extra (mkContainerCpu (zero cstring) (zero cstring) None) cc_reads cc_writes.

Record ContainerEnvVar := mkContainerEnvVar { cev_Name : string; cev_Value : string; cev_Additional : extra }.

Definition cev_reads : list (field ContainerEnvVar) := [
  required "name" cstring cev_Name (λ v '(mkContainerEnvVar _ b c), mkContainerEnvVar v b c);
  required "value" cstring cev_Value (λ v '(mkContainerEnvVar a _ c), mkContainerEnvVar a v c)
].
Definition cev_writes : list (field ContainerEnvVar) := [
  required "name" cstring cev_Name (λ v '(mkContainerEnvVar _ b c), mkContainerEnvVar v b c);
  required "value" cstring cev_Value (λ v '(mkContainerEnvVar a _ c), mkContainerEnvVar a v c)
].
Definition cev_extra (v : extra) (r : ContainerEnvVar) : ContainerEnvVar :=
  let '(mkContainerEnvVar a b _) := r in mkContainerEnvVar a b v.
Definition cContainerEnvVar : codec ContainerEnvVar :=
  cextensible number cev_Additional cev_extra (mkContainerEnvVar (zero cstring) (zero cstring) None) cev_reads cev_writes.

Record ContainerImage := mkContainerImage { ci_Reference : string; ci_Additional : extra }.

Definition ci_reads : list (field ContainerImage) := [
  required "reference" cstring ci_Reference (λ v '(mkContainerImage _ b), mkContainerImage v b)
].
Definition ci_writes : list (field ContainerImage) := [
  required "reference" cstring ci_Reference (λ v '(mkContainerImage _ b), mkContainerImage v b)
].
Definition ci_extra (v : extra) (r : ContainerImage) : ContainerImage :=
  let '(mkContainerImage a _) := r in mkContainerImage a v.
Definition cContainerImage : codec ContainerImage :=
  cextensible number ci_Additional ci_extra (mkContainerImage (zero cstring) None) ci_reads ci_writes.

Record ContainerMemory := mkContainerMemory { cm_Max : string; cm_Min : string; cm_Additional : extra }.

Definition cm_reads : list (field ContainerMemory) := [
  required "max" cstring cm_Max (λ v '(mkContainerMemory _ b c), mkContainerMemory v b c);
  required "min" cstring cm_Min (λ v '(mkContainerMemory a _ c), mkContainerMemory a v c)
].
Definition cm_writes : list (field ContainerMemory) := [
  required "max" cstring cm_Max (λ v '(mkContainerMemory _ b c), mkContainerMemory v b c);
  required "min" cstring cm_Min (λ v '(mkContainerMemory a _ c), mkContainerMemory a v c)
].
Definition cm_extra (v : extra) (r : ContainerMemory) : ContainerMemory :=
  let '(mkContainerMemory a b _) := r in mkContainerMemory a b v.
Definition cContainerMemory : codec ContainerMemory :=
  cextensible number cm_Additional cm_extra (mkContainerMemory (zero cstring) (zero cstring) None) cm_reads cm_writes.

Record ContainerMetadata := mkContainerMetadata {
  cmx_Labels : option (option (gmap string string));
  cmx_Name : string;
  cmx_Namespace : option string
}.

Definition cmx_fields : list (field ContainerMetadata) := [
  optional "labels" (cmap cstring) cmx_Labels (λ v '(mkContainerMetadata _ b c), mkContainerMetadata v b c);
  required "name" cstring cmx_Name (λ v '(mkContainerMetadata a _ c), mkContainerMetadata a v c);
  optional "namespace" cstring cmx_Namespace (λ v '(mkContainerMetadata a b _), mkContainerMetadata a b v)
].
Definition cContainerMetadata : codec ContainerMetadata :=
  cstruct (mkContainerMetadata None (zero cstring) None) cmx_fields.

Record ContainerPort := mkContainerPort {
  cp_ContainerPort : Z;
  cp_Visibility : string;
  cp_Additional : extra
}.

Definition cp_reads : list (field ContainerPort) := [
  required "container_port" cint64 cp_ContainerPort (λ v '(mkContainerPort _ b c), mkContainerPort v b c);
  required "visibility" cstring cp_Visibility (λ v '(mkContainerPort a _ c), mkContainerPort a v c)
].
Definition cp_writes : list (field ContainerPort) := [
  required "container_port" cint64 cp_ContainerPort (λ v '(mkContainerPort _ b c), mkContainerPort v b c);
  required "visibility" cstring cp_Visibility (λ v '(mkContainerPort a _ c), mkContainerPort a v c)
].
Definition cp_extra (v : extra) (r : ContainerPort) : ContainerPort :=
  let '(mkContainerPort a b _) := r in mkContainerPort a b v.
Definition cContainerPort : codec ContainerPort :=
  cextensible number cp_Additional cp_extra (mkContainerPort (zero cint64) (zero cstring) None) cp_reads cp_writes.

Record ContainerNetwork := mkContainerNetwork {
  cn_Ip : option string;
  cn_Ports : option (option (list ContainerPort));
  cn_Additional : extra
}.

Definition cn_reads : list (field ContainerNetwork) := [
  optional "ip" cstring cn_Ip (λ v '(mkContainerNetwork _ b c), mkContainerNetwork v b c);
  optional "ports" (cslice cContainerPort) cn_Ports (λ v '(mkContainerNetwork a _ c), mkContainerNetwork a v c)
].
Definition cn_writes : list (field ContainerNetwork) := [
  optional "ip" cstring cn_Ip (λ v '(mkContainerNetwork _ b c), mkContainerNetwork v b c);
  optional "ports" (cslice cContainerPort) cn_Ports (λ v '(mkContainerNetwork a _ c), mkContainerNetwork a v c)
].
Definition cn_extra (v : extra) (r : ContainerNetwork) : ContainerNetwork :=
  let '(mkContainerNetwork a b _) := r in mkContainerNetwork a b v.
Definition cContainerNetwork : codec ContainerNetwork :=
  cextensible number cn_Additional cn_extra (mkContainerNetwork None None None) cn_reads cn_writes.

Record ContainerProcess := mkContainerProcess {
  cpx_Args : option (option (list string));
  cpx_Command : option (option (list string));
  cpx_Env : option (option (list ContainerEnvVar));
  cpx_Additional : extra
}.

Definition cpx_reads : list (field ContainerProcess) := [
  optional "args" (cslice cstring) cpx_Args (λ v '(mkContainerProcess _ b c d), mkContainerProcess v b c d);
  optional "command" (cslice cstring) cpx_Command (λ v '(mkContainerProcess a _ c d), mkContainerProcess a v c d);
  optional "env" (cslice cContainerEnvVar) cpx_Env (λ v '(mkContainerProcess a b _ d), mkContainerProcess a b v d)
].
Definition cpx_writes : list (field ContainerProcess) := [
  optional "args" (cslice cstring) cpx_Args (λ v '(mkContainerProcess _ b c d), mkContainerProcess v b c d);
  optional "command" (cslice cstring) cpx_Command (λ v '(mkContainerProcess a _ c d), mkContainerProcess a v c d);
  optional "env" (cslice cContainerEnvVar) cpx_Env (λ v '(mkContainerProcess a b _ d), mkContainerProcess a b v d)
].
Definition cpx_extra (v : extra) (r : ContainerProcess) : ContainerProcess :=
  let '(mkContainerProcess a b c _) := r in mkContainerProcess a b c v.
Definition cContainerProcess : codec ContainerProcess :=
  cextensible number cpx_Additional cpx_extra (mkContainerProcess None None None None) cpx_reads cpx_writes.

Record ContainerResources := mkContainerResources {
  cr_Cpu : ContainerCpu;
  cr_Memory : ContainerMemory;
  cr_Additional : extra
}.

Definition cr_reads : list (field ContainerResources) := [
  required "cpu" cContainerCpu cr_Cpu (λ v '(mkContainerResources _ b c), mkContainerResources v b c);
  required "memory" cContainerMemory cr_Memory (λ v '(mkContainerResources a _ c), mkContainerResources a v c)
].
Definition cr_writes : list (field ContainerResources) := [
  required "cpu" cContainerCpu cr_Cpu (λ v '(mkContainerResources _ b c), mkContainerResources v b c);
  required "memory" cContainerMemory cr_Memory (λ v '(mkContainerResources a _ c), mkContainerResources a v c)
].
Definition cr_extra (v : extra) (r : ContainerResources) : ContainerResources :=
  let '(mkContainerResources a b _) := r in mkContainerResources a b v.
Definition cContainerResources : codec ContainerResources :=
  cextensible number cr_Additional cr_extra (mkContainerResources (zero cContainerCpu) (zero cContainerMemory) None) cr_reads cr_writes.

Record ContainerSpec := mkContainerSpec {
  cs_Image : ContainerImage;
  cs_Metadata : ContainerMetadata;
  cs_Network : option ContainerNetwork;
  cs_Process : option ContainerProcess;
  cs_ProviderHints : option (option (gmap string json));
  cs_Resources : ContainerResources;
  cs_ServiceType : string
}.

Definition cs_fields : list (field ContainerSpec) := [
  required "image" cContainerImage cs_Image (λ v '(mkContainerSpec _ b c d e f g), mkContainerSpec v b c d e f g);
  required "metadata" cContainerMetadata cs_Metadata (λ v '(mkContainerSpec a _ c d e f g), mkContainerSpec a v c d e f g);
  optional "network" cContainerNetwork cs_Network (λ v '(mkContainerSpec a b _ d e f g), mkContainerSpec a b v d e f g);
  optional "process" cContainerProcess cs_Process (λ v '(mkContainerSpec a b c _ e f g), mkContainerSpec a b c v e f g);
  optional "provider_hints" (cmap (cany number)) cs_ProviderHints (λ v '(mkContainerSpec a b c d _ f g), mkContainerSpec a b c d v f g);
  required "resources" cContainerResources cs_Resources (λ v '(mkContainerSpec a b c d e _ g), mkContainerSpec a b c d e v g);
  required "service_type" cstring cs_ServiceType (λ v '(mkContainerSpec a b c d e f _), mkContainerSpec a b c d e f v)
].
Definition cContainerSpec : codec ContainerSpec :=
  cstruct (mkContainerSpec (zero cContainerImage) (zero cContainerMetadata) None None None (zero cContainerResources) (zero cstring)) cs_fields.

Record ServicePort := mkServicePort { sp_Port : Z; sp_Protocol : option string; sp_TargetPort : Z }.

Definition sp_fields : list (field ServicePort) := [
  required "port" cint64 sp_Port (λ v '(mkServicePort _ b c), mkServicePort v b c);
  optional "protocol" cstring sp_Protocol (λ v '(mkServicePort a _ c), mkServicePort a v c);
  required "target_port" cint64 sp_TargetPort (λ v '(mkServicePort a b _), mkServicePort a b v)
].
Definition cServicePort : codec ServicePort :=
  cstruct (mkServicePort (zero cint64) None (zero cint64)) sp_fields.

Record ServiceInfo := mkServiceInfo {
  si_ClusterIp : option string;
  si_ExternalIp : option string;
  si_Name : option string;
  si_Ports : option (option (list ServicePort));
  si_Type : option string
}.

Definition si_fields : list (field ServiceInfo) := [
  optional "cluster_ip" cstring si_ClusterIp (λ v '(mkServiceInfo _ b c d e), mkServiceInfo v b c d e);
  optional "external_ip" cstring si_ExternalIp (λ v '(mkServiceInfo a _ c d e), mkServiceInfo a v c d e);
  optional "name" cstring si_Name (λ v '(mkServiceInfo a b _ d e), mkServiceInfo a b v d e);
  optional "ports" (cslice cServicePort) si_Ports (λ v '(mkServiceInfo a b c _ e), mkServiceInfo a b c v e);
  optional "type" cstring si_Type (λ v '(mkServiceInfo a b c d _), mkServiceInfo a b c d v)
].
Definition cServiceInfo : codec ServiceInfo :=
  cstruct (mkServiceInfo None None None None None) si_fields.

Record Container := mkContainer {
  co_CreateTime : option T;
  co_Id : option string;
  co_Path : option string;
  co_Service : option ServiceInfo;
  co_Spec : ContainerSpec;
  co_Status : option string;
  co_UpdateTime : option T
}.

Definition co_fields : list (field Container) := [
  optional "create_time" ctime co_CreateTime (λ v '(mkContainer _ b c d e f g), mkContainer v b c d e f g);
  optional "id" cstring co_Id (λ v '(mkContainer a _ c d e f g), mkContainer a v c d e f g);
  optional "path" cstring co_Path (λ v '(mkContainer a b _ d e f g), mkContainer a b v d e f g);
  optional "service" cServiceInfo co_Service (λ v '(mkContainer a b c _ e f g), mkContainer a b c v e f g);
  required "spec" cContainerSpec co_Spec (λ v '(mkContainer a b c d _ f g), mkContainer a b c d v f g);
  optional "status" cstring co_Status (λ v '(mkContainer a b c d e _ g), mkContainer a b c d e v g);
  optional "update_time" ctime co_UpdateTime (λ v '(mkContainer a b c d e f _), mkContainer a b c d e f v)
].
Definition cContainer : codec Container :=
  cstruct (mkContainer None None None None (zero cContainerSpec) None None) co_fields.

Record ContainerList := mkContainerList {
  cl_Containers : option (option (list Container));
  cl_NextPageToken : option string
}.

Definition cl_fields : list (field ContainerList) := [
  optional "containers" (cslice cContainer) cl_Containers (λ v '(mkContainerList _ b), mkContainerList v b);
  optional "next_page_token" cstring cl_NextPageToken (λ v '(mkContainerList a _), mkContainerList a v)
].
Definition cContainerList : codec ContainerList :=
  cstruct (mkContainerList None None) cl_fields.

Context (number_idem : ∀ lit lit', number lit = Some lit' → number lit' = Some lit') `{!TimeTextLaws T}.
#[local] Hint Resolve number_idem : codec.

Lemma container_ContainerCpu_lawful : lawful cContainerCpu.
Proof. extensible_tac. Qed.
#[local] Hint Resolve container_ContainerCpu_lawful : codec.
Lemma container_ContainerCpu_unknown :
  keeps_unknown number cc_Additional cContainerCpu ["max"; "min"].
Proof. unknown_tac. Qed.
Lemma container_ContainerEnvVar_lawful : lawful cContainerEnvVar.
Proof. extensible_tac. Qed.
#[local] Hint Resolve container_ContainerEnvVar_lawful : codec.
Lemma container_ContainerEnvVar_unknown :
  keeps_unknown number cev_Additional cContainerEnvVar ["name"; "value"].
Proof. unknown_tac. Qed.
Lemma container_ContainerImage_lawful : lawful cContainerImage.
Proof. extensible_tac. Qed.
#[local] Hint Resolve container_ContainerImage_lawful : codec.
Lemma container_ContainerImage_unknown :
  keeps_unknown number ci_Additional cContainerImage ["reference"].
Proof. unknown_tac. Qed.
Lemma container_ContainerMemory_lawful : lawful cContainerMemory.
Proof. extensible_tac. Qed.
#[local] Hint Resolve container_ContainerMemory_lawful : codec.
Lemma container_ContainerMemory_unknown :
  keeps_unknown number cm_Additional cContainerMemory ["max"; "min"].
Proof. unknown_tac. Qed.
Lemma container_ContainerMetadata_lawful : lawful cContainerMetadata.
Proof. struct_tac. Qed.
#[local] Hint Resolve container_ContainerMetadata_lawful : codec.
Lemma container_ContainerPort_lawful : lawful cContainerPort.
Proof. extensible_tac. Qed.
#[local] Hint Resolve container_ContainerPort_lawful : codec.
Lemma container_ContainerPort_unknown :
  keeps_unknown number cp_Additional cContainerPort ["container_port"; "visibility"].
Proof. unknown_tac. Qed.
Lemma container_ContainerNetwork_lawful : lawful cContainerNetwork.
Proof. extensible_tac. Qed.
#[local] Hint Resolve container_ContainerNetwork_lawful : codec.
Lemma container_ContainerNetwork_unknown :
  keeps_unknown number cn_Additional cContainerNetwork ["ip"; "ports"].
Proof. unknown_tac. Qed.
Lemma container_ContainerProcess_lawful : lawful cContainerProcess.
Proof. extensible_tac. Qed.
#[local] Hint Resolve container_ContainerProcess_lawful : codec.
Lemma container_ContainerProcess_unknown :
  keeps_unknown number cpx_Additional cContainerProcess ["args"; "command"; "env"].
Proof. unknown_tac. Qed.
Lemma container_ContainerResources_lawful : lawful cContainerResources.
Proof. extensible_tac. Qed.
#[local] Hint Resolve container_ContainerResources_lawful : codec.
Lemma container_ContainerResources_unknown :
  keeps_unknown number cr_Additional cContainerResources ["cpu"; "memory"].
Proof. unknown_tac. Qed.
Lemma container_ContainerSpec_lawful : lawful cContainerSpec.
Proof. struct_tac. Qed.
#[local] Hint Resolve container_ContainerSpec_lawful : codec.
Lemma container_ServicePort_lawful : lawful cServicePort.
Proof. struct_tac. Qed.
#[local] Hint Resolve container_ServicePort_lawful : codec.
Lemma container_ServiceInfo_lawful : lawful cServiceInfo.
Proof. struct_tac. Qed.
#[local] Hint Resolve container_ServiceInfo_lawful : codec.
Lemma container_Container_lawful : lawful cContainer.
Proof. struct_tac. Qed.
#[local] Hint Resolve container_Container_lawful : codec.
Lemma container_ContainerList_lawful : lawful cContainerList.
Proof. struct_tac. Qed.
#[local] Hint Resolve container_ContainerList_lawful : codec.
End Types.
End ContainerApi.

(** ** network/v1alpha1: the network API *)

Module NetworkApi.
Section Types.
Context {T : Type} `{!TimeText T} (number : string → option string).

Record KubernetesProviderHints := mkKubernetesProviderHints {
  kph_ClusterIp : option string;
  kph_NodePorts : option (option (gmap string Z));
  kph_Selector : option (option (gmap string string))
}.

Definition kph_fields : list (field KubernetesProviderHints) := [
  optional "cluster_ip" cstring kph_ClusterIp (λ v '(mkKubernetesProviderHints _ b c), mkKubernetesProviderHints v b c);
  optional "node_ports" (cmap cint32) kph_NodePorts (λ v '(mkKubernetesProviderHints a _ c), mkKubernetesProviderHints a v c);
  optional "selector" (cmap cstring) kph_Selector (λ v '(mkKubernetesProviderHints a b _), mkKubernetesProviderHints a b v)
].
Definition cKubernetesProviderHints : codec KubernetesProviderHints :=
  cstruct (mkKubernetesProviderHints None None None) kph_fields.

Record ProviderHints := mkProviderHints {
  ph_Kubernetes : option KubernetesProviderHints;
  ph_Additional : extra
}.

Definition ph_reads : list (field ProviderHints) := [
  optional "kubernetes" cKubernetesProviderHints ph_Kubernetes (λ v '(mkProviderHints _ b), mkProviderHints v b)
].
Definition ph_writes : list (field ProviderHints) := [
  optional "kubernetes" cKubernetesProviderHints ph_Kubernetes (λ v '(mkProviderHints _ b), mkProviderHints v b)
].
Definition ph_extra (v : extra) (r : ProviderHints) : ProviderHints :=
  let '(mkProviderHints a _) := r in mkProviderHints a v.
Definition cProviderHints : codec ProviderHints :=
  cextensible number ph_Additional ph_extra (mkProviderHints None None) ph_reads ph_writes.

Record NetworkMetadata := mkNetworkMetadata {
  nm_Labels : option (option (gmap string string));
  nm_Name : string;
  nm_Namespace : option string
}.

Definition nm_fields : list (field NetworkMetadata) := [
  optional "labels" (cmap cstring) nm_Labels (λ v '(mkNetworkMetadata _ b c), mkNetworkMetadata v b c);
  required "name" cstring nm_Name (λ v '(mkNetworkMetadata a _ c), mkNetworkMetadata a v c);
  optional "namespace" cstring nm_Namespace (λ v '(mkNetworkMetadata a b _), mkNetworkMetadata a b v)
].
Definition cNetworkMetadata : codec NetworkMetadata :=
  cstruct (mkNetworkMetadata None (zero cstring) None) nm_fields.

Record PortSpec := mkPortSpec {
  ps_Name : option string;
  ps_NodePort : option Z;
  ps_Port : Z;
  ps_Protocol : option string;
  ps_TargetPort : option Z
}.

Definition ps_fields : list (field PortSpec) := [
  optional "name" cstring ps_Name (λ v '(mkPortSpec _ b c d e), mkPortSpec v b c d e);
  optional "node_port" cint32 ps_NodePort (λ v '(mkPortSpec a _ c d e), mkPortSpec a v c d e);
  required "port" cint32 ps_Port (λ v '(mkPortSpec a b _ d e), mkPortSpec a b v d e);
  optional "protocol" cstring ps_Protocol (λ v '(mkPortSpec a b c _ e), mkPortSpec a b c v e);
  optional "target_port" cint32 ps_TargetPort (λ v '(mkPortSpec a b c d _), mkPortSpec a b c d v)
].
Definition cPortSpec : codec PortSpec :=
  cstruct (mkPortSpec None None (zero cint32) None None) ps_fields.

Record NetworkSpec := mkNetworkSpec {
  ns_Metadata : NetworkMetadata;
  ns_Ports : option (list PortSpec);
  ns_ProviderHints : option ProviderHints;
  ns_RoutingLevel : option string;
  ns_ServiceType : string
}.

Definition ns_fields : list (field NetworkSpec) := [
  required "metadata" cNetworkMetadata ns_Metadata (λ v '(mkNetworkSpec _ b c d e), mkNetworkSpec v b c d e);
  required "ports" (cslice cPortSpec) ns_Ports (λ v '(mkNetworkSpec a _ c d e), mkNetworkSpec a v c d e);
  optional "provider_hints" cProviderHints ns_ProviderHints (λ v '(mkNetworkSpec a b _ d e), mkNetworkSpec a b v d e);
  optional "routing_level" cstring ns_RoutingLevel (λ v '(mkNetworkSpec a b c _ e), mkNetworkSpec a b c v e);
  required "service_type" cstring ns_ServiceType (λ v '(mkNetworkSpec a b c d _), mkNetworkSpec a b c d v)
].
Definition cNetworkSpec : codec NetworkSpec :=
  cstruct (mkNetworkSpec (zero cNetworkMetadata) (zero (cslice cPortSpec)) None None (zero cstring)) ns_fields.

Record KubernetesState := mkKubernetesState {
  ks_ClusterIp : option string;
  ks_ExternalIps : option (option (list string));
  ks_Selector : option (option (gmap string string));
  ks_Type : option string
}.

Definition ks_fields : list (field KubernetesState) := [
  optional "cluster_ip" cstring ks_ClusterIp (λ v '(mkKubernetesState _ b c d), mkKubernetesState v b c d);
  optional "external_ips" (cslice cstring) ks_ExternalIps (λ v '(mkKubernetesState a _ c d), mkKubernetesState a v c d);
  optional "selector" (cmap cstring) ks_Selector (λ v '(mkKubernetesState a b _ d), mkKubernetesState a b v d);
  optional "type" cstring ks_Type (λ v '(mkKubernetesState a b c _), mkKubernetesState a b c v)
].
Definition cKubernetesState : codec KubernetesState :=
  cstruct (mkKubernetesState None None None None) ks_fields.

Record Network := mkNetwork {
  ne_CreateTime : option T;
  ne_Id : option string;
  ne_Kubernetes : option KubernetesState;
  ne_Path : option string;
  ne_Spec : NetworkSpec;
  ne_Status : option string;
  ne_UpdateTime : option T
}.

Definition ne_fields : list (field Network) := [
  optional "create_time" ctime ne_CreateTime (λ v '(mkNetwork _ b c d e f g), mkNetwork v b c d e f g);
  optional "id" cstring ne_Id (λ v '(mkNetwork a _ c d e f g), mkNetwork a v c d e f g);
  optional "kubernetes" cKubernetesState ne_Kubernetes (λ v '(mkNetwork a b _ d e f g), mkNetwork a b v d e f g);
  optional "path" cstring ne_Path (λ v '(mkNetwork a b c _ e f g), mkNetwork a b c v e f g);
  required "spec" cNetworkSpec ne_Spec (λ v '(mkNetwork a b c d _ f g), mkNetwork a b c d v f g);
  optional "status" cstring ne_Status (λ v '(mkNetwork a b c d e _ g), mkNetwork a b c d e v g);
  optional "update_time" ctime ne_UpdateTime (λ v '(mkNetwork a b c d e f _), mkNetwork a b c d e f v)
].
Definition cNetwork : codec Network :=
  cstruct (mkNetwork None None None None (zero cNetworkSpec) None None) ne_fields.

Record NetworkList := mkNetworkList {
  nl_NextPageToken : option string;
  nl_Results : option (option (list Network))
}.

Definition nl_fields : list (field NetworkList) := [
  optional "next_page_token" cstring nl_NextPageToken (λ v '(mkNetworkList _ b), mkNetworkList v b);
  optional "results" (cslice cNetwork) nl_Results (λ v '(mkNetworkList a _), mkNetworkList a v)
].
Definition cNetworkList : codec NetworkList :=
  cstruct (mkNetworkList None None) nl_fields.

Context (number_idem : ∀ lit lit', number lit = Some lit' → number lit' = Some lit') `{!TimeTextLaws T}.
#[local] Hint Resolve number_idem : codec.

Lemma network_KubernetesProviderHints_lawful : lawful cKubernetesProviderHints.
Proof. struct_tac. Qed.
#[local] Hint Resolve network_KubernetesProviderHints_lawful : codec.
Lemma network_ProviderHints_lawful : lawful cProviderHints.
Proof. extensible_tac. Qed.
#[local] Hint Resolve network_ProviderHints_lawful : codec.
Lemma network_ProviderHints_unknown :
  keeps_unknown number ph_Additional cProviderHints ["kubernetes"].
Proof. unknown_tac. Qed.
Lemma network_NetworkMetadata_lawful : lawful cNetworkMetadata.
Proof. struct_tac. Qed.
#[local] Hint Resolve network_NetworkMetadata_lawful : codec.
Lemma network_PortSpec_lawful : lawful cPortSpec.
Proof. struct_tac. Qed.
#[local] Hint Resolve network_PortSpec_lawful : codec.
Lemma network_NetworkSpec_lawful : lawful cNetworkSpec.
Proof. struct_tac. Qed.
#[local] Hint Resolve network_NetworkSpec_lawful : codec.
Lemma network_KubernetesState_lawful : lawful cKubernetesState.
Proof. struct_tac. Qed.
#[local] Hint Resolve network_KubernetesState_lawful : codec.
Lemma network_Network_lawful : lawful cNetwork.
Proof. struct_tac. Qed.
#[local] Hint Resolve network_Network_lawful : codec.
Lemma network_NetworkList_lawful : lawful cNetworkList.
Proof. struct_tac. Qed.
#[local] Hint Resolve network_NetworkList_lawful : codec.
End Types.
End NetworkApi.

(** ** storage/v1alpha1: the storage API *)

Module StorageApi.
Section Types.
Context {T : Type} `{!TimeText T} (number : string → option string).

Record KubernetesProviderHints := mkKubernetesProviderHints {
  kph_AccessMode : option string;
  kph_StorageClass : option string;
  kph_VolumeMode : option string
}.

Definition kph_fields : list (field KubernetesProviderHints) := [
  optional "access_mode" cstring kph_AccessMode (λ v '(mkKubernetesProviderHints _ b c), mkKubernetesProviderHints v b c);
  optional "storage_class" cstring kph_StorageClass (λ v '(mkKubernetesProviderHints a _ c), mkKubernetesProviderHints a v c);
  optional "volume_mode" cstring kph_VolumeMode (λ v '(mkKubernetesProviderHints a b _), mkKubernetesProviderHints a b v)
].
Definition cKubernetesProviderHints : codec KubernetesProviderHints :=
  cstruct (mkKubernetesProviderHints None None None) kph_fields.

Record ProviderHints := mkProviderHints {
  ph_Kubernetes : option KubernetesProviderHints;
  ph_Additional : extra
}.

Definition ph_reads : list (field ProviderHints) := [
  optional "kubernetes" cKubernetesProviderHints ph_Kubernetes (λ v '(mkProviderHints _ b), mkProviderHints v b)
].
Definition ph_writes : list (field ProviderHints) := [
  optional "kubernetes" cKubernetesProviderHints ph_Kubernetes (λ v '(mkProviderHints _ b), mkProviderHints v b)
].
Definition ph_extra (v : extra) (r : ProviderHints) : ProviderHints :=
  let '(mkProviderHints a _) := r in mkProviderHints a v.
Definition cProviderHints : codec ProviderHints :=
  cextensible number ph_Additional ph_extra (mkProviderHints None None) ph_reads ph_writes.

Record VolumeMetadata := mkVolumeMetadata {
  vm_Labels : option (option (gmap string string));
  vm_Name : string;
  vm_Namespace : option string;
  vm_StorageClass : option string;
  vm_VolumeName : option string
}.

Definition vm_fields : list (field VolumeMetadata) := [
  optional "labels" (cmap cstring) vm_Labels (λ v '(mkVolumeMetadata _ b c d e), mkVolumeMetadata v b c d e);
  required "name" cstring vm_Name (λ v '(mkVolumeMetadata a _ c d e), mkVolumeMetadata a v c d e);
  optional "namespace" cstring vm_Namespace (λ v '(mkVolumeMetadata a b _ d e), mkVolumeMetadata a b v d e);
  optional "storage_class" cstring vm_StorageClass (λ v '(mkVolumeMetadata a b c _ e), mkVolumeMetadata a b c v e);
  optional "volume_name" cstring vm_VolumeName (λ v '(mkVolumeMetadata a b c d _), mkVolumeMetadata a b c d v)
].
Definition cVolumeMetadata : codec VolumeMetadata :=
  cstruct (mkVolumeMetadata None (zero cstring) None None None) vm_fields.

Record StorageSpec := mkStorageSpec {
  ss_Capacity : string;
  ss_Metadata : VolumeMetadata;
  ss_ProviderHints : option ProviderHints;
  ss_ServiceType : string
}.

Definition ss_fields : list (field StorageSpec) := [
  required "capacity" cstring ss_Capacity (λ v '(mkStorageSpec _ b c d), mkStorageSpec v b c d);
  required "metadata" cVolumeMetadata ss_Metadata (λ v '(mkStorageSpec a _ c d), mkStorageSpec a v c d);
  optional "provider_hints" cProviderHints ss_ProviderHints (λ v '(mkStorageSpec a b _ d), mkStorageSpec a b v d);
  required "service_type" cstring ss_ServiceType (λ v '(mkStorageSpec a b c _), mkStorageSpec a b c v)
].
Definition cStorageSpec : codec StorageSpec :=
  cstruct (mkStorageSpec (zero cstring) (zero cVolumeMetadata) None (zero cstring)) ss_fields.

Record Volume := mkVolume {
  vo_CreateTime : option T;
  vo_Id : option string;
  vo_Path : option string;
  vo_Spec : StorageSpec;
  vo_Status : option string;
  vo_UpdateTime : option T
}.

Definition vo_fields : list (field Volume) := [
  optional "create_time" ctime vo_CreateTime (λ v '(mkVolume _ b c d e f), mkVolume v b c d e f);
  optional "id" cstring vo_Id (λ v '(mkVolume a _ c d e f), mkVolume a v c d e f);
  optional "path" cstring vo_Path (λ v '(mkVolume a b _ d e f), mkVolume a b v d e f);
  required "spec" cStorageSpec vo_Spec (λ v '(mkVolume a b c _ e f), mkVolume a b c v e f);
  optional "status" cstring vo_Status (λ v '(mkVolume a b c d _ f), mkVolume a b c d v f);
  optional "update_time" ctime vo_UpdateTime (λ v '(mkVolume a b c d e _), mkVolume a b c d e v)
].
Definition cVolume : codec Volume :=
  cstruct (mkVolume None None None (zero cStorageSpec) None None) vo_fields.

Record VolumeList := mkVolumeList {
  vl_NextPageToken : option string;
  vl_Volumes : option (option (list Volume))
}.

Definition vl_fields : list (field VolumeList) := [
  optional "next_page_token" cstring vl_NextPageToken (λ v '(mkVolumeList _ b), mkVolumeList v b);
  optional "volumes" (cslice cVolume) vl_Volumes (λ v '(mkVolumeList a _), mkVolumeList a v)
].
Definition cVolumeList : codec VolumeList :=
  cstruct (mkVolumeList None None) vl_fields.

Context (number_idem : ∀ lit lit', number lit = Some lit' → number lit' = Some lit') `{!TimeTextLaws T}.
#[local] Hint Resolve number_idem : codec.

Lemma storage_KubernetesProviderHints_lawful : lawful cKubernetesProviderHints.
Proof. struct_tac. Qed.
#[local] Hint Resolve storage_KubernetesProviderHints_lawful : codec.
Lemma storage_ProviderHints_lawful : lawful cProviderHints.
Proof. extensible_tac. Qed.
#[local] Hint Resolve storage_ProviderHints_lawful : codec.
Lemma storage_ProviderHints_unknown :
  keeps_unknown number ph_Additional cProviderHints ["kubernetes"].
Proof. unknown_tac. Qed.
Lemma storage_VolumeMetadata_lawful : lawful cVolumeMetadata.
Proof. struct_tac. Qed.
#[local] Hint Resolve storage_VolumeMetadata_lawful : codec.
Lemma storage_StorageSpec_lawful : lawful cStorageSpec.
Proof. struct_tac. Qed.
#[local] Hint Resolve storage_StorageSpec_lawful : codec.
Lemma storage_Volume_lawful : lawful cVolume.
Proof. struct_tac. Qed.
#[local] Hint Resolve storage_Volume_lawful : codec.
Lemma storage_VolumeList_lawful : lawful cVolumeList.
Proof. struct_tac. Qed.
#[local] Hint Resolve storage_VolumeList_lawful : codec.
End Types.
End StorageApi.

(** ** cluster/v1alpha1: the cluster API *)

Module ClusterApi.
Section Types.
Context {T : Type} `{!TimeText T} (number : string → option string).

Record ACMProviderHints := mkACMProviderHints {
  acmph_AgentLabels : option (option (gmap string string));
  acmph_BaseDomain : option string;
  acmph_InfraEnv : option string;
  acmph_Platform : option string;
  acmph_ReleaseImage : option string
}.

Definition acmph_fields : list (field ACMProviderHints) := [
  optional "agent_labels" (cmap cstring) acmph_AgentLabels (λ v '(mkACMProviderHints _ b c d e), mkACMProviderHints v b c d e);
  optional "base_domain" cstring acmph_BaseDomain (λ v '(mkACMProviderHints a _ c d e), mkACMProviderHints a v c d e);
  optional "infra_env" cstring acmph_InfraEnv (λ v '(mkACMProviderHints a b _ d e), mkACMProviderHints a b v d e);
  optional "platform" cstring acmph_Platform (λ v '(mkACMProviderHints a b c _ e), mkACMProviderHints a b c v e);
  optional "release_image" cstring acmph_ReleaseImage (λ v '(mkACMProviderHints a b c d _), mkACMProviderHints a b c d v)
].
Definition cACMProviderHints : codec ACMProviderHints :=
  cstruct (mkACMProviderHints None None None None None) acmph_fields.

Record ProviderHints := mkProviderHints { ph_Acm : option ACMProviderHints; ph_Additional : extra }.

Definition ph_reads : list (field ProviderHints) := [
  optional "acm" cACMProviderHints ph_Acm (λ v '(mkProviderHints _ b), mkProviderHints v b)
].
Definition ph_writes : list (field ProviderHints) := [
  optional "acm" cACMProviderHints ph_Acm (λ v '(mkProviderHints _ b), mkProviderHints v b)
].
Definition ph_extra (v : extra) (r : ProviderHints) : ProviderHints :=
  let '(mkProviderHints a _) := r in mkProviderHints a v.
Definition cProviderHints : codec ProviderHints :=
  cextensible number ph_Additional ph_extra (mkProviderHints None None) ph_reads ph_writes.

Record ClusterMetadata := mkClusterMetadata {
  cm_Labels : option (option (gmap string string));
  cm_Name : string
}.

Definition cm_fields : list (field ClusterMetadata) := [
  optional "labels" (cmap cstring) cm_Labels (λ v '(mkClusterMetadata _ b), mkClusterMetadata v b);
  required "name" cstring cm_Name (λ v '(mkClusterMetadata a _), mkClusterMetadata a v)
].
Definition cClusterMetadata : codec ClusterMetadata :=
  cstruct (mkClusterMetadata None (zero cstring)) cm_fields.

Record ControlPlaneSpec := mkControlPlaneSpec {
  cps_Count : option Z;
  cps_Cpu : option Z;
  cps_Memory : option string;
  cps_Storage : option string
}.

Definition cps_fields : list (field ControlPlaneSpec) := [
  optional "count" cint64 cps_Count (λ v '(mkControlPlaneSpec _ b c d), mkControlPlaneSpec v b c d);
  optional "cpu" cint64 cps_Cpu (λ v '(mkControlPlaneSpec a _ c d), mkControlPlaneSpec a v c d);
  optional "memory" cstring cps_Memory (λ v '(mkControlPlaneSpec a b _ d), mkControlPlaneSpec a b v d);
  optional "storage" cstring cps_Storage (λ v '(mkControlPlaneSpec a b c _), mkControlPlaneSpec a b c v)
].
Definition cControlPlaneSpec : codec ControlPlaneSpec :=
  cstruct (mkControlPlaneSpec None None None None) cps_fields.

Record WorkerSpec := mkWorkerSpec {
  ws_Count : option Z;
  ws_Cpu : option Z;
  ws_Memory : option string;
  ws_Storage : option string
}.

Definition ws_fields : list (field WorkerSpec) := [
  optional "count" cint64 ws_Count (λ v '(mkWorkerSpec _ b c d), mkWorkerSpec v b c d);
  optional "cpu" cint64 ws_Cpu (λ v '(mkWorkerSpec a _ c d), mkWorkerSpec a v c d);
  optional "memory" cstring ws_Memory (λ v '(mkWorkerSpec a b _ d), mkWorkerSpec a b v d);
  optional "storage" cstring ws_Storage (λ v '(mkWorkerSpec a b c _), mkWorkerSpec a b c v)
].
Definition cWorkerSpec : codec WorkerSpec :=
  cstruct (mkWorkerSpec None None None None) ws_fields.

Record ClusterNodes := mkClusterNodes {
  cn_ControlPlane : option ControlPlaneSpec;
  cn_Workers : option WorkerSpec
}.

Definition cn_fields : list (field ClusterNodes) := [
  optional "control_plane" cControlPlaneSpec cn_ControlPlane (λ v '(mkClusterNodes _ b), mkClusterNodes v b);
  optional "workers" cWorkerSpec cn_Workers (λ v '(mkClusterNodes a _), mkClusterNodes a v)
].
Definition cClusterNodes : codec ClusterNodes :=
  cstruct (mkClusterNodes None None) cn_fields.

Record ClusterSpec := mkClusterSpec {
  cs_Metadata : ClusterMetadata;
  cs_Nodes : option ClusterNodes;
  cs_ProviderHints : option ProviderHints;
  cs_ServiceType : string;
  cs_Version : string
}.

Definition cs_fields : list (field ClusterSpec) := [
  required "metadata" cClusterMetadata cs_Metadata (λ v '(mkClusterSpec _ b c d e), mkClusterSpec v b c d e);
  optional "nodes" cClusterNodes cs_Nodes (λ v '(mkClusterSpec a _ c d e), mkClusterSpec a v c d e);
  optional "provider_hints" cProviderHints cs_ProviderHints (λ v '(mkClusterSpec a b _ d e), mkClusterSpec a b v d e);
  required "service_type" cstring cs_ServiceType (λ v '(mkClusterSpec a b c _ e), mkClusterSpec a b c v e);
  required "version" cstring cs_Version (λ v '(mkClusterSpec a b c d _), mkClusterSpec a b c d v)
].
Definition cClusterSpec : codec ClusterSpec :=
  cstruct (mkClusterSpec (zero cClusterMetadata) None None (zero cstring) (zero cstring)) cs_fields.

Record Cluster := mkCluster {
  cl_ApiEndpoint : option string;
  cl_ConsoleUri : option string;
  cl_CreateTime : option T;
  cl_Id : option string;
  cl_Kubeconfig : option string;
  cl_Path : option string;
  cl_Spec : ClusterSpec;
  cl_Status : option string;
  cl_StatusMessage : option string;
  cl_UpdateTime : option T
}.

Definition cl_fields : list (field Cluster) := [
  optional "api_endpoint" cstring cl_ApiEndpoint (λ v '(mkCluster _ b c d e f g h i j), mkCluster v b c d e f g h i j);
  optional "console_uri" cstring cl_ConsoleUri (λ v '(mkCluster a _ c d e f g h i j), mkCluster a v c d e f g h i j);
  optional "create_time" ctime cl_CreateTime (λ v '(mkCluster a b _ d e f g h i j), mkCluster a b v d e f g h i j);
  optional "id" cstring cl_Id (λ v '(mkCluster a b c _ e f g h i j), mkCluster a b c v e f g h i j);
  optional "kubeconfig" cstring cl_Kubeconfig (λ v '(mkCluster a b c d _ f g h i j), mkCluster a b c d v f g h i j);
  optional "path" cstring cl_Path (λ v '(mkCluster a b c d e _ g h i j), mkCluster a b c d e v g h i j);
  required "spec" cClusterSpec cl_Spec (λ v '(mkCluster a b c d e f _ h i j), mkCluster a b c d e f v h i j);
  optional "status" cstring cl_Status (λ v '(mkCluster a b c d e f g _ i j), mkCluster a b c d e f g v i j);
  optional "status_message" cstring cl_StatusMessage (λ v '(mkCluster a b c d e f g h _ j), mkCluster a b c d e f g h v j);
  optional "update_time" ctime cl_UpdateTime (λ v '(mkCluster a b c d e f g h i _), mkCluster a b c d e f g h i v)
].
Definition cCluster : codec Cluster :=
  cstruct (mkCluster None None None None None None (zero cClusterSpec) None None None) cl_fields.

Record ClusterList := mkClusterList {
  clx_Clusters : option (option (list Cluster));
  clx_NextPageToken : option string
}.

Definition clx_fields : list (field ClusterList) := [
  optional "clusters" (cslice cCluster) clx_Clusters (λ v '(mkClusterList _ b), mkClusterList v b);
  optional "next_page_token" cstring clx_NextPageToken (λ v '(mkClusterList a _), mkClusterList a v)
].
Definition cClusterList : codec ClusterList :=
  cstruct (mkClusterList None None) clx_fields.

Record Health := mkHealth {
  he_Path : option string;
  he_Status : option string;
  he_Type : option string;
  he_Uptime : option Z;
  he_Version : option string
}.

Definition he_fields : list (field Health) := [
  optional "path" cstring he_Path (λ v '(mkHealth _ b c d e), mkHealth v b c d e);
  optional "status" cstring he_Status (λ v '(mkHealth a _ c d e), mkHealth a v c d e);
  optional "type" cstring he_Type (λ v '(mkHealth a b _ d e), mkHealth a b v d e);
  optional "uptime" cint64 he_Uptime (λ v '(mkHealth a b c _ e), mkHealth a b c v e);
  optional "version" cstring he_Version (λ v '(mkHealth a b c d _), mkHealth a b c d v)
].
Definition cHealth : codec Health :=
  cstruct (mkHealth None None None None None) he_fields.

Context (number_idem : ∀ lit lit', number lit = Some lit' → number lit' = Some lit') `{!TimeTextLaws T}.
#[local] Hint Resolve number_idem : codec.

Lemma cluster_ACMProviderHints_lawful : lawful cACMProviderHints.
Proof. struct_tac. Qed.
#[local] Hint Resolve cluster_ACMProviderHints_lawful : codec.
Lemma cluster_ProviderHints_lawful : lawful cProviderHints.
Proof. extensible_tac. Qed.
#[local] Hint Resolve cluster_ProviderHints_lawful : codec.
Lemma cluster_ProviderHints_unknown :
  keeps_unknown number ph_Additional cProviderHints ["acm"].
Proof. unknown_tac. Qed.
Lemma cluster_ClusterMetadata_lawful : lawful cClusterMetadata.
Proof. struct_tac. Qed.
#[local] Hint Resolve cluster_ClusterMetadata_lawful : codec.
Lemma cluster_ControlPlaneSpec_lawful : lawful cControlPlaneSpec.
Proof. struct_tac. Qed.
#[local] Hint Resolve cluster_ControlPlaneSpec_lawful : codec.
Lemma cluster_WorkerSpec_lawful : lawful cWorkerSpec.
Proof. struct_tac. Qed.
#[local] Hint Resolve cluster_WorkerSpec_lawful : codec.
Lemma cluster_ClusterNodes_lawful : lawful cClusterNodes.
Proof. struct_tac. Qed.
#[local] Hint Resolve cluster_ClusterNodes_lawful : codec.
Lemma cluster_ClusterSpec_lawful : lawful cClusterSpec.
Proof. struct_tac. Qed.
#[local] Hint Resolve cluster_ClusterSpec_lawful : codec.
Lemma cluster_Cluster_lawful : lawful cCluster.
Proof. struct_tac. Qed.
#[local] Hint Resolve cluster_Cluster_lawful : codec.
Lemma cluster_ClusterList_lawful : lawful cClusterList.
Proof. struct_tac. Qed.
#[local] Hint Resolve cluster_ClusterList_lawful : codec.
Lemma cluster_Health_lawful : lawful cHealth.
Proof. struct_tac. Qed.
#[local] Hint Resolve cluster_Health_lawful : codec.
End Types.
End ClusterApi.

(** ** vm/v1alpha1: the virtual machine API *)

Module VMApi.
Section Types.
Context {T : Type} `{!TimeText T} (number : string → option string).

Record Access := mkAccess { ac_SshPublicKey : option string; ac_Additional : extra }.

Definition ac_reads : list (field Access) := [
  optional "ssh_public_key" cstring ac_SshPublicKey (λ v '(mkAccess _ b), mkAccess v b)
].
Definition ac_writes : list (field Access) := [
  optional "ssh_public_key" cstring ac_SshPublicKey (λ v '(mkAccess _ b), mkAccess v b)
].
Definition ac_extra (v : extra) (r : Access) : Access :=
  let '(mkAccess a _) := r in mkAccess a v.
Definition cAccess : codec Access :=
  cextensible number ac_Additional ac_extra (mkAccess None None) ac_reads ac_writes.

Record Disk := mkDisk { di_Capacity : string; di_Name : string; di_Additional : extra }.

Definition di_reads : list (field Disk) := [
  required "capacity" cstring di_Capacity (λ v '(mkDisk _ b c), mkDisk v b c);
  required "name" cstring di_Name (λ v '(mkDisk a _ c), mkDisk a v c)
].
Definition di_writes : list (field Disk) := [
  required "capacity" cstring di_Capacity (λ v '(mkDisk _ b c), mkDisk v b c);
  required "name" cstring di_Name (λ v '(mkDisk a _ c), mkDisk a v c)
].
Definition di_extra (v : extra) (r : Disk) : Disk :=
  let '(mkDisk a b _) := r in mkDisk a b v.
Definition cDisk : codec Disk :=
  cextensible number di_Additional di_extra (mkDisk (zero cstring) (zero cstring) None) di_reads di_writes.

Record GuestOS := mkGuestOS { gos_Type : string; gos_Additional : extra }.

Definition gos_reads : list (field GuestOS) := [
  required "type" cstring gos_Type (λ v '(mkGuestOS _ b), mkGuestOS v b)
].
Definition gos_writes : list (field GuestOS) := [
  required "type" cstring gos_Type (λ v '(mkGuestOS _ b), mkGuestOS v b)
].
Definition gos_extra (v : extra) (r : GuestOS) : GuestOS :=
  let '(mkGuestOS a _) := r in mkGuestOS a v.
Definition cGuestOS : codec GuestOS :=
  cextensible number gos_Additional gos_extra (mkGuestOS (zero cstring) None) gos_reads gos_writes.

Record Memory := mkMemory { me_Size : string; me_Additional : extra }.

Definition me_reads : list (field Memory) := [
  required "size" cstring me_Size (λ v '(mkMemory _ b), mkMemory v b)
].
Definition me_writes : list (field Memory) := [
  required "size" cstring me_Size (λ v '(mkMemory _ b), mkMemory v b)
].
Definition me_extra (v : extra) (r : Memory) : Memory :=
  let '(mkMemory a _) := r in mkMemory a v.
Definition cMemory : codec Memory :=
  cextensible number me_Additional me_extra (mkMemory (zero cstring) None) me_reads me_writes.

Record ServiceMetadata := mkServiceMetadata {
  sm_Labels : option (option (gmap string string));
  sm_Name : string
}.

Definition sm_fields : list (field ServiceMetadata) := [
  optional "labels" (cmap cstring) sm_Labels (λ v '(mkServiceMetadata _ b), mkServiceMetadata v b);
  required "name" cstring sm_Name (λ v '(mkServiceMetadata a _), mkServiceMetadata a v)
].
Definition cServiceMetadata : codec ServiceMetadata :=
  cstruct (mkServiceMetadata None (zero cstring)) sm_fields.

Record Storage := mkStorage { st_Disks : option (list Disk); st_Additional : extra }.

Definition st_reads : list (field Storage) := [
  nonnil "disks" (cslice cDisk) st_Disks (λ v '(mkStorage _ b), mkStorage v b)
].
Definition st_writes : list (field Storage) := [
  nonnil "disks" (cslice cDisk) st_Disks (λ v '(mkStorage _ b), mkStorage v b)
].
Definition st_extra (v : extra) (r : Storage) : Storage :=
  let '(mkStorage a _) := r in mkStorage a v.
Definition cStorage : codec Storage :=
  cextensible number st_Additional st_extra (mkStorage (zero (cslice cDisk)) None) st_reads st_writes.

Record Vcpu := mkVcpu { vc_Count : Z; vc_Additional : extra }.

Definition vc_reads : list (field Vcpu) := [
  required "count" cint64 vc_Count (λ v '(mkVcpu _ b), mkVcpu v b)
].
Definition vc_writes : list (field Vcpu) := [
  required "count" cint64 vc_Count (λ v '(mkVcpu _ b), mkVcpu v b)
].
Definition vc_extra (v : extra) (r : Vcpu) : Vcpu :=
  let '(mkVcpu a _) := r in mkVcpu a v.
Definition cVcpu : codec Vcpu :=
  cextensible number vc_Additional vc_extra (mkVcpu (zero cint64) None) vc_reads vc_writes.

Record VMSpec := mkVMSpec {
  vms_Access : option Access;
  vms_CreateTime : option T;
  vms_GuestOs : GuestOS;
  vms_Id : option string;
  vms_Memory : Memory;
  vms_Metadata : ServiceMetadata;
  vms_Path : option string;
  vms_ProviderHints : option (option (gmap string (option (gmap string json))));
  vms_ServiceType : string;
  vms_Status : option string;
  vms_StatusMessage : option string;
  vms_Storage : Storage;
  vms_UpdateTime : option T;
  vms_Vcpu : Vcpu;
  vms_Additional : extra
}.

Definition vms_reads : list (field VMSpec) := [
  optional "access" cAccess vms_Access (λ v '(mkVMSpec _ b c d e f g h i j k l m n o), mkVMSpec v b c d e f g h i j k l m n o);
  optional "create_time" ctime vms_CreateTime (λ v '(mkVMSpec a _ c d e f g h i j k l m n o), mkVMSpec a v c d e f g h i j k l m n o);
  required "guest_os" cGuestOS vms_GuestOs (λ v '(mkVMSpec a b _ d e f g h i j k l m n o), mkVMSpec a b v d e f g h i j k l m n o);
  optional "id" cstring vms_Id (λ v '(mkVMSpec a b c _ e f g h i j k l m n o), mkVMSpec a b c v e f g h i j k l m n o);
  required "memory" cMemory vms_Memory (λ v '(mkVMSpec a b c d _ f g h i j k l m n o), mkVMSpec a b c d v f g h i j k l m n o);
  required "metadata" cServiceMetadata vms_Metadata (λ v '(mkVMSpec a b c d e _ g h i j k l m n o), mkVMSpec a b c d e v g h i j k l m n o);
  optional "path" cstring vms_Path (λ v '(mkVMSpec a b c d e f _ h i j k l m n o), mkVMSpec a b c d e f v h i j k l m n o);
  optional "provider_hints" (cmap (cmap (cany number))) vms_ProviderHints (λ v '(mkVMSpec a b c d e f g _ i j k l m n o), mkVMSpec a b c d e f g v i j k l m n o);
  required "service_type" cstring vms_ServiceType (λ v '(mkVMSpec a b c d e f g h _ j k l m n o), mkVMSpec a b c d e f g h v j k l m n o);
  optional "status" cstring vms_Status (λ v '(mkVMSpec a b c d e f g h i _ k l m n o), mkVMSpec a b c d e f g h i v k l m n o);
  optional "status_message" cstring vms_StatusMessage (λ v '(mkVMSpec a b c d e f g h i j _ l m n o), mkVMSpec a b c d e f g h i j v l m n o);
  required "storage" cStorage vms_Storage (λ v '(mkVMSpec a b c d e f g h i j k _ m n o), mkVMSpec a b c d e f g h i j k v m n o);
  optional "update_time" ctime vms_UpdateTime (λ v '(mkVMSpec a b c d e f g h i j k l _ n o), mkVMSpec a b c d e f g h i j k l v n o);
  required "vcpu" cVcpu vms_Vcpu (λ v '(mkVMSpec a b c d e f g h i j k l m _ o), mkVMSpec a b c d e f g h i j k l m v o)
].
Definition vms_writes : list (field VMSpec) := [
  optional "access" cAccess vms_Access (λ v '(mkVMSpec _ b c d e f g h i j k l m n o), mkVMSpec v b c d e f g h i j k l m n o);
  optional "create_time" ctime vms_CreateTime (λ v '(mkVMSpec a _ c d e f g h i j k l m n o), mkVMSpec a v c d e f g h i j k l m n o);
  required "guest_os" cGuestOS vms_GuestOs (λ v '(mkVMSpec a b _ d e f g h i j k l m n o), mkVMSpec a b v d e f g h i j k l m n o);
  optional "id" cstring vms_Id (λ v '(mkVMSpec a b c _ e f g h i j k l m n o), mkVMSpec a b c v e f g h i j k l m n o);
  required "memory" cMemory vms_Memory (λ v '(mkVMSpec a b c d _ f g h i j k l m n o), mkVMSpec a b c d v f g h i j k l m n o);
  required "metadata" cServiceMetadata vms_Metadata (λ v '(mkVMSpec a b c d e _ g h i j k l m n o), mkVMSpec a b c d e v g h i j k l m n o);
  optional "path" cstring vms_Path (λ v '(mkVMSpec a b c d e f _ h i j k l m n o), mkVMSpec a b c d e f v h i j k l m n o);
  optional "provider_hints" (cmap (cmap (cany number))) vms_ProviderHints (λ v '(mkVMSpec a b c d e f g _ i j k l m n o), mkVMSpec a b c d e f g v i j k l m n o);
  required "service_type" cstring vms_ServiceType (λ v '(mkVMSpec a b c d e f g h _ j k l m n o), mkVMSpec a b c d e f g h v j k l m n o);
  optional "status" cstring vms_Status (λ v '(mkVMSpec a b c d e f g h i _ k l m n o), mkVMSpec a b c d e f g h i v k l m n o);
  optional "status_message" cstring vms_StatusMessage (λ v '(mkVMSpec a b c d e f g h i j _ l m n o), mkVMSpec a b c d e f g h i j v l m n o);
  required "storage" cStorage vms_Storage (λ v '(mkVMSpec a b c d e f g h i j k _ m n o), mkVMSpec a b c d e f g h i j k v m n o);
  optional "update_time" ctime vms_UpdateTime (λ v '(mkVMSpec a b c d e f g h i j k l _ n o), mkVMSpec a b c d e f g h i j k l v n o);
  required "vcpu" cVcpu vms_Vcpu (λ v '(mkVMSpec a b c d e f g h i j k l m _ o), mkVMSpec a b c d e f g h i j k l m v o)
].
Definition vms_extra (v : extra) (r : VMSpec) : VMSpec :=
  let '(mkVMSpec a b c d e f g h i j k l m n _) := r in mkVMSpec a b c d e f g h i j k l m n v.
Definition cVMSpec : codec VMSpec :=
  cextensible number vms_Additional vms_extra (mkVMSpec None None (zero cGuestOS) None (zero cMemory) (zero cServiceMetadata) None None (zero cstring) None None (zero cStorage) None (zero cVcpu) None) vms_reads vms_writes.

Record VM := mkVM { vm_Path : option string; vm_Spec : VMSpec }.

Definition vm_fields : list (field VM) := [
  optional "path" cstring vm_Path (λ v '(mkVM _ b), mkVM v b);
  required "spec" cVMSpec vm_Spec (λ v '(mkVM a _), mkVM a v)
].
Definition cVM : codec VM :=
  cstruct (mkVM None (zero cVMSpec)) vm_fields.

Context (number_idem : ∀ lit lit', number lit = Some lit' → number lit' = Some lit') `{!TimeTextLaws T}.
#[local] Hint Resolve number_idem : codec.

Lemma vm_Access_lawful : lawful cAccess.
Proof. extensible_tac. Qed.
#[local] Hint Resolve vm_Access_lawful : codec.
Lemma vm_Access_unknown :
  keeps_unknown number ac_Additional cAccess ["ssh_public_key"].
Proof. unknown_tac. Qed.
Lemma vm_Disk_lawful : lawful cDisk.
Proof. extensible_tac. Qed.
#[local] Hint Resolve vm_Disk_lawful : codec.
Lemma vm_Disk_unknown :
  keeps_unknown number di_Additional cDisk ["capacity"; "name"].
Proof. unknown_tac. Qed.
Lemma vm_GuestOS_lawful : lawful cGuestOS.
Proof. extensible_tac. Qed.
#[local] Hint Resolve vm_GuestOS_lawful : codec.
Lemma vm_GuestOS_unknown :
  keeps_unknown number gos_Additional cGuestOS ["type"].
Proof. unknown_tac. Qed.
Lemma vm_Memory_lawful : lawful cMemory.
Proof. extensible_tac. Qed.
#[local] Hint Resolve vm_Memory_lawful : codec.
Lemma vm_Memory_unknown :
  keeps_unknown number me_Additional cMemory ["size"].
Proof. unknown_tac. Qed.
Lemma vm_ServiceMetadata_lawful : lawful cServiceMetadata.
Proof. struct_tac. Qed.
#[local] Hint Resolve vm_ServiceMetadata_lawful : codec.
Lemma vm_Storage_lawful : lawful cStorage.
Proof. extensible_tac. Qed.
#[local] Hint Resolve vm_Storage_lawful : codec.
Lemma vm_Storage_unknown :
  keeps_unknown number st_Additional cStorage ["disks"].
Proof. unknown_tac. Qed.
Lemma vm_Vcpu_lawful : lawful cVcpu.
Proof. extensible_tac. Qed.
#[local] Hint Resolve vm_Vcpu_lawful : codec.
Lemma vm_Vcpu_unknown :
  keeps_unknown number vc_Additional cVcpu ["count"].
Proof. unknown_tac. Qed.
Lemma vm_VMSpec_lawful : lawful cVMSpec.
Proof. extensible_tac. Qed.
#[local] Hint Resolve vm_VMSpec_lawful : codec.
Lemma vm_VMSpec_unknown :
  keeps_unknown number vms_Additional cVMSpec ["access"; "create_time"; "guest_os"; "id"; "memory"; "metadata"; "path"; "provider_hints"; "service_type"; "status"; "status_message"; "storage"; "update_time"; "vcpu"].
Proof. unknown_tac. Qed.
Lemma vm_VM_lawful : lawful cVM.
Proof. struct_tac. Qed.
#[local] Hint Resolve vm_VM_lawful : codec.
End Types.
End VMApi.

(** ** database/v1alpha1: the database API *)

Module DatabaseApi.
Section Types.
Context {T : Type} `{!TimeText T} (number : string → option string).

Record DatabaseCpu := mkDatabaseCpu { dc_Max : string; dc_Min : string; dc_Additional : extra }.

Definition dc_reads : list (field DatabaseCpu) := [
  required "max" cstring dc_Max (λ v '(mkDatabaseCpu _ b c), mkDatabaseCpu v b c);
  required "min" cstring dc_Min (λ v '(mkDatabaseCpu a _ c), mkDatabaseCpu a v c)
].
Definition dc_writes : list (field DatabaseCpu) := [
  required "max" cstring dc_Max (λ v '(mkDatabaseCpu _ b c), mkDatabaseCpu v b c);
  required "min" cstring dc_Min (λ v '(mkDatabaseCpu a _ c), mkDatabaseCpu a v c)
].
Definition dc_extra (v : extra) (r : DatabaseCpu) : DatabaseCpu :=
  let '(mkDatabaseCpu a b _) := r in mkDatabaseCpu a b v.
Definition cDatabaseCpu : codec DatabaseCpu :=
  cextensible number dc_Additional dc_extra (mkDatabaseCpu (zero cstring) (zero cstring) None) dc_reads dc_writes.

Record DatabaseMemory := mkDatabaseMemory { dm_Max : string; dm_Min : string; dm_Additional : extra }.

Definition dm_reads : list (field DatabaseMemory) := [
  required "max" cstring dm_Max (λ v '(mkDatabaseMemory _ b c), mkDatabaseMemory v b c);
  required "min" cstring dm_Min (λ v '(mkDatabaseMemory a _ c), mkDatabaseMemory a v c)
].
Definition dm_writes : list (field DatabaseMemory) := [
  required "max" cstring dm_Max (λ v '(mkDatabaseMemory _ b c), mkDatabaseMemory v b c);
  required "min" cstring dm_Min (λ v '(mkDatabaseMemory a _ c), mkDatabaseMemory a v c)
].
Definition dm_extra (v : extra) (r : DatabaseMemory) : DatabaseMemory :=
  let '(mkDatabaseMemory a b _) := r in mkDatabaseMemory a b v.
Definition cDatabaseMemory : codec DatabaseMemory :=
  cextensible number dm_Additional dm_extra (mkDatabaseMemory (zero cstring) (zero cstring) None) dm_reads dm_writes.

Record DatabaseMetadata := mkDatabaseMetadata {
  dmx_Labels : option (option (gmap string string));
  dmx_Name : string;
  dmx_Namespace : option string
}.

Definition dmx_fields : list (field DatabaseMetadata) := [
  optional "labels" (cmap cstring) dmx_Labels (λ v '(mkDatabaseMetadata _ b c), mkDatabaseMetadata v b c);
  required "name" cstring dmx_Name (λ v '(mkDatabaseMetadata a _ c), mkDatabaseMetadata a v c);
  optional "namespace" cstring dmx_Namespace (λ v '(mkDatabaseMetadata a b _), mkDatabaseMetadata a b v)
].
Definition cDatabaseMetadata : codec DatabaseMetadata :=
  cstruct (mkDatabaseMetadata None (zero cstring) None) dmx_fields.

Record DatabaseNetwork := mkDatabaseNetwork {
  dn_Port : option Z;
  dn_Visibility : option string;
  dn_Additional : extra
}.

Definition dn_reads : list (field DatabaseNetwork) := [
  optional "port" cint64 dn_Port (λ v '(mkDatabaseNetwork _ b c), mkDatabaseNetwork v b c);
  optional "visibility" cstring dn_Visibility (λ v '(mkDatabaseNetwork a _ c), mkDatabaseNetwork a v c)
].
Definition dn_writes : list (field DatabaseNetwork) := [
  optional "port" cint64 dn_Port (λ v '(mkDatabaseNetwork _ b c), mkDatabaseNetwork v b c);
  optional "visibility" cstring dn_Visibility (λ v '(mkDatabaseNetwork a _ c), mkDatabaseNetwork a v c)
].
Definition dn_extra (v : extra) (r : DatabaseNetwork) : DatabaseNetwork :=
  let '(mkDatabaseNetwork a b _) := r in mkDatabaseNetwork a b v.
Definition cDatabaseNetwork : codec DatabaseNetwork :=
  cextensible number dn_Additional dn_extra (mkDatabaseNetwork None None None) dn_reads dn_writes.

Record DatabaseResources := mkDatabaseResources {
  dr_Cpu : DatabaseCpu;
  dr_Memory : DatabaseMemory;
  dr_Storage : option string;
  dr_Additional : extra
}.

Definition dr_reads : list (field DatabaseResources) := [
  required "cpu" cDatabaseCpu dr_Cpu (λ v '(mkDatabaseResources _ b c d), mkDatabaseResources v b c d);
  required "memory" cDatabaseMemory dr_Memory (λ v '(mkDatabaseResources a _ c d), mkDatabaseResources a v c d);
  optional "storage" cstring dr_Storage (λ v '(mkDatabaseResources a b _ d), mkDatabaseResources a b v d)
].
Definition dr_writes : list (field DatabaseResources) := [
  required "cpu" cDatabaseCpu dr_Cpu (λ v '(mkDatabaseResources _ b c d), mkDatabaseResources v b c d);
  required "memory" cDatabaseMemory dr_Memory (λ v '(mkDatabaseResources a _ c d), mkDatabaseResources a v c d);
  optional "storage" cstring dr_Storage (λ v '(mkDatabaseResources a b _ d), mkDatabaseResources a b v d)
].
Definition dr_extra (v : extra) (r : DatabaseResources) : DatabaseResources :=
  let '(mkDatabaseResources a b c _) := r in mkDatabaseResources a b c v.
Definition cDatabaseResources : codec DatabaseResources :=
  cextensible number dr_Additional dr_extra (mkDatabaseResources (zero cDatabaseCpu) (zero cDatabaseMemory) None None) dr_reads dr_writes.

Record InitdbProviderHints := mkInitdbProviderHints {
  iph_Database : option string;
  iph_Password : option string;
  iph_User : option string
}.

Definition iph_fields : list (field InitdbProviderHints) := [
  optional "database" cstring iph_Database (λ v '(mkInitdbProviderHints _ b c), mkInitdbProviderHints v b c);
  optional "password" cstring iph_Password (λ v '(mkInitdbProviderHints a _ c), mkInitdbProviderHints a v c);
  optional "user" cstring iph_User (λ v '(mkInitdbProviderHints a b _), mkInitdbProviderHints a b v)
].
Definition cInitdbProviderHints : codec InitdbProviderHints :=
  cstruct (mkInitdbProviderHints None None None) iph_fields.

Record StorageProviderHints := mkStorageProviderHints { sph_StorageClass : option string }.

Definition sph_fields : list (field StorageProviderHints) := [
  optional "storage_class" cstring sph_StorageClass (λ v '(mkStorageProviderHints _), mkStorageProviderHints v)
].
Definition cStorageProviderHints : codec StorageProviderHints :=
  cstruct (mkStorageProviderHints None) sph_fields.

Record PostgresProviderHints := mkPostgresProviderHints {
  pph_Initdb : option InitdbProviderHints;
  pph_Storage : option StorageProviderHints
}.

Definition pph_fields : list (field PostgresProviderHints) := [
  optional "initdb" cInitdbProviderHints pph_Initdb (λ v '(mkPostgresProviderHints _ b), mkPostgresProviderHints v b);
  optional "storage" cStorageProviderHints pph_Storage (λ v '(mkPostgresProviderHints a _), mkPostgresProviderHints a v)
].
Definition cPostgresProviderHints : codec PostgresProviderHints :=
  cstruct (mkPostgresProviderHints None None) pph_fields.

Record ProviderHints := mkProviderHints { ph_Postgres : option PostgresProviderHints; ph_Additional : extra }.

Definition ph_reads : list (field ProviderHints) := [
  optional "postgres" cPostgresProviderHints ph_Postgres (λ v '(mkProviderHints _ b), mkProviderHints v b)
].
Definition ph_writes : list (field ProviderHints) := [
  optional "postgres" cPostgresProviderHints ph_Postgres (λ v '(mkProviderHints _ b), mkProviderHints v b)
].
Definition ph_extra (v : extra) (r : ProviderHints) : ProviderHints :=
  let '(mkProviderHints a _) := r in mkProviderHints a v.
Definition cProviderHints : codec ProviderHints :=
  cextensible number ph_Additional ph_extra (mkProviderHints None None) ph_reads ph_writes.

Record DatabaseSpec := mkDatabaseSpec {
  ds_ConnectionString : option string;
  ds_Engine : string;
  ds_Metadata : DatabaseMetadata;
  ds_Network : option DatabaseNetwork;
  ds_ProviderHints : option ProviderHints;
  ds_Replicas : option Z;
  ds_Resources : DatabaseResources;
  ds_ServiceType : string;
  ds_Version : option string
}.

Definition ds_fields : list (field DatabaseSpec) := [
  optional "connection_string" cstring ds_ConnectionString (λ v '(mkDatabaseSpec _ b c d e f g h i), mkDatabaseSpec v b c d e f g h i);
  required "engine" cstring ds_Engine (λ v '(mkDatabaseSpec a _ c d e f g h i), mkDatabaseSpec a v c d e f g h i);
  required "metadata" cDatabaseMetadata ds_Metadata (λ v '(mkDatabaseSpec a b _ d e f g h i), mkDatabaseSpec a b v d e f g h i);
  optional "network" cDatabaseNetwork ds_Network (λ v '(mkDatabaseSpec a b c _ e f g h i), mkDatabaseSpec a b c v e f g h i);
  optional "provider_hints" cProviderHints ds_ProviderHints (λ v '(mkDatabaseSpec a b c d _ f g h i), mkDatabaseSpec a b c d v f g h i);
  optional "replicas" cint64 ds_Replicas (λ v '(mkDatabaseSpec a b c d e _ g h i), mkDatabaseSpec a b c d e v g h i);
  required "resources" cDatabaseResources ds_Resources (λ v '(mkDatabaseSpec a b c d e f _ h i), mkDatabaseSpec a b c d e f v h i);
  required "service_type" cstring ds_ServiceType (λ v '(mkDatabaseSpec a b c d e f g _ i), mkDatabaseSpec a b c d e f g v i);
  optional "version" cstring ds_Version (λ v '(mkDatabaseSpec a b c d e f g h _), mkDatabaseSpec a b c d e f g h v)
].
Definition cDatabaseSpec : codec DatabaseSpec :=
  cstruct (mkDatabaseSpec None (zero cstring) (zero cDatabaseMetadata) None None None (zero cDatabaseResources) (zero cstring) None) ds_fields.

Record Database := mkDatabase {
  da_CreateTime : option T;
  da_Id : option string;
  da_Path : option string;
  da_Spec : DatabaseSpec;
  da_Status : option string;
  da_UpdateTime : option T
}.

Definition da_fields : list (field Database) := [
  optional "create_time" ctime da_CreateTime (λ v '(mkDatabase _ b c d e f), mkDatabase v b c d e f);
  optional "id" cstring da_Id (λ v '(mkDatabase a _ c d e f), mkDatabase a v c d e f);
  optional "path" cstring da_Path (λ v '(mkDatabase a b _ d e f), mkDatabase a b v d e f);
  required "spec" cDatabaseSpec da_Spec (λ v '(mkDatabase a b c _ e f), mkDatabase a b c v e f);
  optional "status" cstring da_Status (λ v '(mkDatabase a b c d _ f), mkDatabase a b c d v f);
  optional "update_time" ctime da_UpdateTime (λ v '(mkDatabase a b c d e _), mkDatabase a b c d e v)
].
Definition cDatabase : codec Database :=
  cstruct (mkDatabase None None None (zero cDatabaseSpec) None None) da_fields.

Record DatabaseList := mkDatabaseList {
  dl_NextPageToken : option string;
  dl_Results : option (option (list Database))
}.

Definition dl_fields : list (field DatabaseList) := [
  optional "next_page_token" cstring dl_NextPageToken (λ v '(mkDatabaseList _ b), mkDatabaseList v b);
  optional "results" (cslice cDatabase) dl_Results (λ v '(mkDatabaseList a _), mkDatabaseList a v)
].
Definition cDatabaseList : codec DatabaseList :=
  cstruct (mkDatabaseList None None) dl_fields.

Context (number_idem : ∀ lit lit', number lit = Some lit' → number lit' = Some lit') `{!TimeTextLaws T}.
#[local] Hint Resolve number_idem : codec.

Lemma database_DatabaseCpu_lawful : lawful cDatabaseCpu.
Proof. extensible_tac. Qed.
#[local] Hint Resolve database_DatabaseCpu_lawful : codec.
Lemma database_DatabaseCpu_unknown :
  keeps_unknown number dc_Additional cDatabaseCpu ["max"; "min"].
Proof. unknown_tac. Qed.
Lemma database_DatabaseMemory_lawful : lawful cDatabaseMemory.
Proof. extensible_tac. Qed.
#[local] Hint Resolve database_DatabaseMemory_lawful : codec.
Lemma database_DatabaseMemory_unknown :
  keeps_unknown number dm_Additional cDatabaseMemory ["max"; "min"].
Proof. unknown_tac. Qed.
Lemma database_DatabaseMetadata_lawful : lawful cDatabaseMetadata.
Proof. struct_tac. Qed.
#[local] Hint Resolve database_DatabaseMetadata_lawful : codec.
Lemma database_DatabaseNetwork_lawful : lawful cDatabaseNetwork.
Proof. extensible_tac. Qed.
#[local] Hint Resolve database_DatabaseNetwork_lawful : codec.
Lemma database_DatabaseNetwork_unknown :
  keeps_unknown number dn_Additional cDatabaseNetwork ["port"; "visibility"].
Proof. unknown_tac. Qed.
Lemma database_DatabaseResources_lawful : lawful cDatabaseResources.
Proof. extensible_tac. Qed.
#[local] Hint Resolve database_DatabaseResources_lawful : codec.
Lemma database_DatabaseResources_unknown :
  keeps_unknown number dr_Additional cDatabaseResources ["cpu"; "memory"; "storage"].
Proof. unknown_tac. Qed.
Lemma database_InitdbProviderHints_lawful : lawful cInitdbProviderHints.
Proof. struct_tac. Qed.
#[local] Hint Resolve database_InitdbProviderHints_lawful : codec.
Lemma database_StorageProviderHints_lawful : lawful cStorageProviderHints.
Proof. struct_tac. Qed.
#[local] Hint Resolve database_StorageProviderHints_lawful : codec.
Lemma database_PostgresProviderHints_lawful : lawful cPostgresProviderHints.
Proof. struct_tac. Qed.
#[local] Hint Resolve database_PostgresProviderHints_lawful : codec.
Lemma database_ProviderHints_lawful : lawful cProviderHints.
Proof. extensible_tac. Qed.
#[local] Hint Resolve database_ProviderHints_lawful : codec.
Lemma database_ProviderHints_unknown :
  keeps_unknown number ph_Additional cProviderHints ["postgres"].
Proof. unknown_tac. Qed.
Lemma database_DatabaseSpec_lawful : lawful cDatabaseSpec.
Proof. struct_tac. Qed.
#[local] Hint Resolve database_DatabaseSpec_lawful : codec.
Lemma database_Database_lawful : lawful cDatabase.
Proof. struct_tac. Qed.
#[local] Hint Resolve database_Database_lawful : codec.
Lemma database_DatabaseList_lawful : lawful cDatabaseList.
Proof. struct_tac. Qed.
#[local] Hint Resolve database_DatabaseList_lawful : codec.
End Types.
End DatabaseApi.

(** ** v1alpha1: the agent's own API *)

Module AgentApi.
Section Types.
Context {T : Type} `{!TimeText T} (number : string → option string).

Record ResourceCapacity := mkResourceCapacity {
  rc_TotalCpu : option string;
  rc_TotalMemory : option string;
  rc_TotalNode : option Z;
  rc_TotalStorage : option string
}.

Definition rc_fields : list (field ResourceCapacity) := [
  optional "total_cpu" cstring rc_TotalCpu (λ v '(mkResourceCapacity _ b c d), mkResourceCapacity v b c d);
  optional "total_memory" cstring rc_TotalMemory (λ v '(mkResourceCapacity a _ c d), mkResourceCapacity a v c d);
  optional "total_node" cint64 rc_TotalNode (λ v '(mkResourceCapacity a b _ d), mkResourceCapacity a b v d);
  optional "total_storage" cstring rc_TotalStorage (λ v '(mkResourceCapacity a b c _), mkResourceCapacity a b c v)
].
Definition cResourceCapacity : codec ResourceCapacity :=
  cstruct (mkResourceCapacity None None None None) rc_fields.

Record ProviderMetadata := mkProviderMetadata {
  pm_RegionCode : option string;
  pm_Resources : option ResourceCapacity;
  pm_Status : option string;
  pm_Zone : option string;
  pm_Additional : extra
}.

Definition pm_reads : list (field ProviderMetadata) := [
  optional "region_code" cstring pm_RegionCode (λ v '(mkProviderMetadata _ b c d e), mkProviderMetadata v b c d e);
  optional "resources" cResourceCapacity pm_Resources (λ v '(mkProviderMetadata a _ c d e), mkProviderMetadata a v c d e);
  optional "status" cstring pm_Status (λ v '(mkProviderMetadata a b _ d e), mkProviderMetadata a b v d e);
  optional "zone" cstring pm_Zone (λ v '(mkProviderMetadata a b c _ e), mkProviderMetadata a b c v e)
].
Definition pm_writes : list (field ProviderMetadata) := [
  optional "region_code" cstring pm_RegionCode (λ v '(mkProviderMetadata _ b c d e), mkProviderMetadata v b c d e);
  optional "resources" cResourceCapacity pm_Resources (λ v '(mkProviderMetadata a _ c d e), mkProviderMetadata a v c d e);
  optional "status" cstring pm_Status (λ v '(mkProviderMetadata a b _ d e), mkProviderMetadata a b v d e);
  optional "zone" cstring pm_Zone (λ v '(mkProviderMetadata a b c _ e), mkProviderMetadata a b c v e)
].
Definition pm_extra (v : extra) (r : ProviderMetadata) : ProviderMetadata :=
  let '(mkProviderMetadata a b c d _) := r in mkProviderMetadata a b c d v.
Definition cProviderMetadata : codec ProviderMetadata :=
  cextensible number pm_Additional pm_extra (mkProviderMetadata None None None None None) pm_reads pm_writes.

Record Provider := mkProvider {
  pr_CreateTime : option T;
  pr_DisplayName : option string;
  pr_Endpoint : string;
  pr_Id : option string;
  pr_LastCheckTime : option T;
  pr_Metadata : option ProviderMetadata;
  pr_Name : string;
  pr_Operations : option (option (list string));
  pr_Path : option string;
  pr_SchemaVersion : string;
  pr_ServiceType : string;
  pr_Status : option string;
  pr_Type : option string;
  pr_UpdateTime : option T
}.

Definition pr_fields : list (field Provider) := [
  optional "create_time" ctime pr_CreateTime (λ v '(mkProvider _ b c d e f g h i j k l m n), mkProvider v b c d e f g h i j k l m n);
  optional "display_name" cstring pr_DisplayName (λ v '(mkProvider a _ c d e f g h i j k l m n), mkProvider a v c d e f g h i j k l m n);
  required "endpoint" cstring pr_Endpoint (λ v '(mkProvider a b _ d e f g h i j k l m n), mkProvider a b v d e f g h i j k l m n);
  optional "id" cstring pr_Id (λ v '(mkProvider a b c _ e f g h i j k l m n), mkProvider a b c v e f g h i j k l m n);
  optional "last_check_time" ctime pr_LastCheckTime (λ v '(mkProvider a b c d _ f g h i j k l m n), mkProvider a b c d v f g h i j k l m n);
  optional "metadata" cProviderMetadata pr_Metadata (λ v '(mkProvider a b c d e _ g h i j k l m n), mkProvider a b c d e v g h i j k l m n);
  required "name" cstring pr_Name (λ v '(mkProvider a b c d e f _ h i j k l m n), mkProvider a b c d e f v h i j k l m n);
  optional "operations" (cslice cstring) pr_Operations (λ v '(mkProvider a b c d e f g _ i j k l m n), mkProvider a b c d e f g v i j k l m n);
  optional "path" cstring pr_Path (λ v '(mkProvider a b c d e f g h _ j k l m n), mkProvider a b c d e f g h v j k l m n);
  required "schema_version" cstring pr_SchemaVersion (λ v '(mkProvider a b c d e f g h i _ k l m n), mkProvider a b c d e f g h i v k l m n);
  required "service_type" cstring pr_ServiceType (λ v '(mkProvider a b c d e f g h i j _ l m n), mkProvider a b c d e f g h i j v l m n);
  optional "status" cstring pr_Status (λ v '(mkProvider a b c d e f g h i j k _ m n), mkProvider a b c d e f g h i j k v m n);
  optional "type" cstring pr_Type (λ v '(mkProvider a b c d e f g h i j k l _ n), mkProvider a b c d e f g h i j k l v n);
  optional "update_time" ctime pr_UpdateTime (λ v '(mkProvider a b c d e f g h i j k l m _), mkProvider a b c d e f g h i j k l m v)
].
Definition cProvider : codec Provider :=
  cstruct (mkProvider None None (zero cstring) None None None (zero cstring) None None (zero cstring) (zero cstring) None None None) pr_fields.

Record ProviderList := mkProviderList {
  pl_NextPageToken : option string;
  pl_Results : option (option (list Provider))
}.

Definition pl_fields : list (field ProviderList) := [
  optional "next_page_token" cstring pl_NextPageToken (λ v '(mkProviderList _ b), mkProviderList v b);
  optional "results" (cslice cProvider) pl_Results (λ v '(mkProviderList a _), mkProviderList a v)
].
Definition cProviderList : codec ProviderList :=
  cstruct (mkProviderList None None) pl_fields.

Record Error := mkError {
  er_Detail : option string;
  er_Instance : option string;
  er_Status : option Z;
  er_Title : string;
  er_Type : string
}.

Definition er_fields : list (field Error) := [
  optional "detail" cstring er_Detail (λ v '(mkError _ b c d e), mkError v b c d e);
  optional "instance" cstring er_Instance (λ v '(mkError a _ c d e), mkError a v c d e);
  optional "status" cint64 er_Status (λ v '(mkError a b _ d e), mkError a b v d e);
  required "title" cstring er_Title (λ v '(mkError a b c _ e), mkError a b c v e);
  required "type" cstring er_Type (λ v '(mkError a b c d _), mkError a b c d v)
].
Definition cError : codec Error :=
  cstruct (mkError None None None (zero cstring) (zero cstring)) er_fields.

Record Health := mkHealth { he_Path : option string; he_Status : option string }.

Definition he_fields : list (field Health) := [
  optional "path" cstring he_Path (λ v '(mkHealth _ b), mkHealth v b);
  optional "status" cstring he_Status (λ v '(mkHealth a _), mkHealth a v)
].
Definition cHealth : codec Health :=
  cstruct (mkHealth None None) he_fields.

Context (number_idem : ∀ lit lit', number lit = Some lit' → number lit' = Some lit') `{!TimeTextLaws T}.
#[local] Hint Resolve number_idem : codec.

Lemma agent_ResourceCapacity_lawful : lawful cResourceCapacity.
Proof. struct_tac. Qed.
#[local] Hint Resolve agent_ResourceCapacity_lawful : codec.
Lemma agent_ProviderMetadata_lawful : lawful cProviderMetadata.
Proof. extensible_tac. Qed.
#[local] Hint Resolve agent_ProviderMetadata_lawful : codec.
Lemma agent_ProviderMetadata_unknown :
  keeps_unknown number pm_Additional cProviderMetadata ["region_code"; "resources"; "status"; "zone"].
Proof. unknown_tac. Qed.
Lemma agent_Provider_lawful : lawful cProvider.
Proof. struct_tac. Qed.
#[local] Hint Resolve agent_Provider_lawful : codec.
Lemma agent_ProviderList_lawful : lawful cProviderList.
Proof. struct_tac. Qed.
#[local] Hint Resolve agent_ProviderList_lawful : codec.
Lemma agent_Error_lawful : lawful cError.
Proof. struct_tac. Qed.
#[local] Hint Resolve agent_Error_lawful : codec.
Lemma agent_Health_lawful : lawful cHealth.
Proof. struct_tac. Qed.
#[local] Hint Resolve agent_Health_lawful : codec.
End Types.
End AgentApi.

(** ** Documents *)

(** Whatever a document was, what it is read as can be written, and the written
    document reads as the same value. *)
Definition normalises {A} (c : codec A) : Prop :=
  ∀ j x, decode c (zero c) j = Some x → ∃ j', encode c x = Some j' ∧ decode c (zero c) j' = Some x.

Lemma lawful_normalises {A} (c : codec A) : lawful c → normalises c.
Proof. intros Hc j x Hd. apply roundtrip; [done|]. eapply wf_decode; [done|by apply wf_zero|done]. Qed.

(** A document and a value that stand for each other: the one reads as the
    other, which is written as the one, byte order of the members included. *)
Definition exchanged {A} (c : codec A) (doc : json) (x : A) : Prop :=
  decode c (zero c) doc = Some x ∧ encode c x = Some doc.

(** The types that keep additional properties, each with the properties its
    schema in openapi.yaml declares. *)
Definition unknown_members_kept (T : Type) `{!TimeText T} (number : string → option string) : Prop :=
  keeps_unknown number ContainerApi.cc_Additional (ContainerApi.cContainerCpu number) ["max"; "min"] ∧
  keeps_unknown number ContainerApi.cev_Additional (ContainerApi.cContainerEnvVar number) ["name"; "value"] ∧
  keeps_unknown number ContainerApi.ci_Additional (ContainerApi.cContainerImage number) ["reference"] ∧
  keeps_unknown number ContainerApi.cm_Additional (ContainerApi.cContainerMemory number) ["max"; "min"] ∧
  keeps_unknown number ContainerApi.cp_Additional (ContainerApi.cContainerPort number) ["container_port"; "visibility"] ∧
  keeps_unknown number ContainerApi.cn_Additional (ContainerApi.cContainerNetwork number) ["ip"; "ports"] ∧
  keeps_unknown number ContainerApi.cpx_Additional (ContainerApi.cContainerProcess number) ["args"; "command"; "env"] ∧
  keeps_unknown number ContainerApi.cr_Additional (ContainerApi.cContainerResources number) ["cpu"; "memory"] ∧
  keeps_unknown number NetworkApi.ph_Additional (NetworkApi.cProviderHints number) ["kubernetes"] ∧
  keeps_unknown number StorageApi.ph_Additional (StorageApi.cProviderHints number) ["kubernetes"] ∧
  keeps_unknown number ClusterApi.ph_Additional (ClusterApi.cProviderHints number) ["acm"] ∧
  keeps_unknown number VMApi.ac_Additional (VMApi.cAccess number) ["ssh_public_key"] ∧
  keeps_unknown number VMApi.di_Additional (VMApi.cDisk number) ["capacity"; "name"] ∧
  keeps_unknown number VMApi.gos_Additional (VMApi.cGuestOS number) ["type"] ∧
  keeps_unknown number VMApi.me_Additional (VMApi.cMemory number) ["size"] ∧
  keeps_unknown number VMApi.st_Additional (VMApi.cStorage number) ["disks"] ∧
  keeps_unknown number VMApi.vc_Additional (VMApi.cVcpu number) ["count"] ∧
  keeps_unknown number VMApi.vms_Additional (VMApi.cVMSpec (T := T) number) ["access"; "create_time"; "guest_os"; "id"; "memory"; "metadata"; "path"; "provider_hints"; "service_type"; "status"; "status_message"; "storage"; "update_time"; "vcpu"] ∧
  keeps_unknown number DatabaseApi.dc_Additional (DatabaseApi.cDatabaseCpu number) ["max"; "min"] ∧
  keeps_unknown number DatabaseApi.dm_Additional (DatabaseApi.cDatabaseMemory number) ["max"; "min"] ∧
  keeps_unknown number DatabaseApi.dn_Additional (DatabaseApi.cDatabaseNetwork number) ["port"; "visibility"] ∧
  keeps_unknown number DatabaseApi.dr_Additional (DatabaseApi.cDatabaseResources number) ["cpu"; "memory"; "storage"] ∧
  keeps_unknown number DatabaseApi.ph_Additional (DatabaseApi.cProviderHints number) ["postgres"] ∧
  keeps_unknown number AgentApi.pm_Additional (AgentApi.cProviderMetadata number) ["region_code"; "resources"; "status"; "zone"].

Lemma all_unknown_kept `{!TimeText T, !TimeTextLaws T} number :
  (∀ lit lit', number lit = Some lit' → number lit' = Some lit') → unknown_members_kept T number.
Proof.
  intros Hn. unfold unknown_members_kept. split_and!.
  - by apply ContainerApi.container_ContainerCpu_unknown.
  - by apply ContainerApi.container_ContainerEnvVar_unknown.
  - by apply ContainerApi.container_ContainerImage_unknown.
  - by apply ContainerApi.container_ContainerMemory_unknown.
  - by apply ContainerApi.container_ContainerPort_unknown.
  - by apply ContainerApi.container_ContainerNetwork_unknown.
  - by apply ContainerApi.container_ContainerProcess_unknown.
  - by apply ContainerApi.container_ContainerResources_unknown.
  - by apply NetworkApi.network_ProviderHints_unknown.
  - by apply StorageApi.storage_ProviderHints_unknown.
  - by apply ClusterApi.cluster_ProviderHints_unknown.
  - by apply VMApi.vm_Access_unknown.
  - by apply VMApi.vm_Disk_unknown.
  - by apply VMApi.vm_GuestOS_unknown.
  - by apply VMApi.vm_Memory_unknown.
  - by apply VMApi.vm_Storage_unknown.
  - by apply VMApi.vm_Vcpu_unknown.
  - by apply VMApi.vm_VMSpec_unknown.
  - by apply DatabaseApi.database_DatabaseCpu_unknown.
  - by apply DatabaseApi.database_DatabaseMemory_unknown.
  - by apply DatabaseApi.database_DatabaseNetwork_unknown.
  - by apply DatabaseApi.database_DatabaseResources_unknown.
  - by apply DatabaseApi.database_ProviderHints_unknown.
  - by apply AgentApi.agent_ProviderMetadata_unknown.
Qed.

(** A document of each resource with every member its schema has, an additional
    property where the type keeps them, and no value twice; and the struct it
    stands for, field by field. *)
Module FullDocuments.

Definition text_time : TimeText string := {| time_zero := ""; time_parse := Some; time_format := Some |}.
#[local] Existing Instance text_time.
Definition text_time_laws : TimeTextLaws string.
Proof. split; [by eexists|]. intros s t [= <-]. by eexists. Defined.

Definition Container_document : json :=
  JObject [("create_time", JString "v2"); ("id", JString "v3"); ("path", JString "v4"); ("service", JObject
  [("cluster_ip", JString "v6"); ("external_ip", JString "v7"); ("name", JString "v8"); ("ports", JArray [JObject
  [("port", JNumber "11"); ("protocol", JString "v12"); ("target_port", JNumber "13")]]); ("type", JString "v14")]);
  ("spec", JObject [("image", JObject [("reference", JString "v17"); ("z18", JString "v18")]); ("metadata", JObject
  [("labels", JObject [("k20", JString "v21")]); ("name", JString "v22"); ("namespace", JString "v23")]); ("network",
  JObject [("ip", JString "v25"); ("ports", JArray [JObject [("container_port", JNumber "28"); ("visibility", JString
  "v29"); ("z30", JString "v30")]]); ("z31", JString "v31")]); ("process", JObject [("args", JArray [JString "v34"]);
  ("command", JArray [JString "v36"]); ("env", JArray [JObject [("name", JString "v39"); ("value", JString "v40");
  ("z41", JString "v41")]]); ("z42", JString "v42")]); ("provider_hints", JObject [("k43", JString "v44")]);
  ("resources", JObject [("cpu", JObject [("max", JString "v47"); ("min", JString "v48"); ("z49", JString "v49")]);
  ("memory", JObject [("max", JString "v51"); ("min", JString "v52"); ("z53", JString "v53")]); ("z54", JString
  "v54")]); ("service_type", JString "v55")]); ("status", JString "v56"); ("update_time", JString "v57")].
Definition Container_value : ContainerApi.Container :=
  ContainerApi.mkContainer (Some "v2") (Some "v3") (Some "v4") (Some (ContainerApi.mkServiceInfo (Some "v6") (Some
  "v7") (Some "v8") (Some (Some [(ContainerApi.mkServicePort 11%Z (Some "v12") 13%Z)])) (Some "v14")))
  (ContainerApi.mkContainerSpec (ContainerApi.mkContainerImage "v17" (Some {[ "z18" := JString "v18" ]}))
  (ContainerApi.mkContainerMetadata (Some (Some {[ "k20" := "v21" ]})) "v22" (Some "v23")) (Some
  (ContainerApi.mkContainerNetwork (Some "v25") (Some (Some [(ContainerApi.mkContainerPort 28%Z "v29" (Some {[ "z30"
  := JString "v30" ]}))])) (Some {[ "z31" := JString "v31" ]}))) (Some (ContainerApi.mkContainerProcess (Some (Some
  ["v34"])) (Some (Some ["v36"])) (Some (Some [(ContainerApi.mkContainerEnvVar "v39" "v40" (Some {[ "z41" := JString
  "v41" ]}))])) (Some {[ "z42" := JString "v42" ]}))) (Some (Some {[ "k43" := (JString "v44") ]}))
  (ContainerApi.mkContainerResources (ContainerApi.mkContainerCpu "v47" "v48" (Some {[ "z49" := JString "v49" ]}))
  (ContainerApi.mkContainerMemory "v51" "v52" (Some {[ "z53" := JString "v53" ]})) (Some {[ "z54" := JString "v54"
  ]})) "v55") (Some "v56") (Some "v57").

Definition Network_document : json :=
  JObject [("create_time", JString "v2"); ("id", JString "v3"); ("kubernetes", JObject [("cluster_ip", JString "v5");
  ("external_ips", JArray [JString "v7"]); ("selector", JObject [("k8", JString "v9")]); ("type", JString "v10")]);
  ("path", JString "v11"); ("spec", JObject [("metadata", JObject [("labels", JObject [("k14", JString "v15")]);
  ("name", JString "v16"); ("namespace", JString "v17")]); ("ports", JArray [JObject [("name", JString "v20");
  ("node_port", JNumber "21"); ("port", JNumber "22"); ("protocol", JString "v23"); ("target_port", JNumber "24")]]);
  ("provider_hints", JObject [("kubernetes", JObject [("cluster_ip", JString "v27"); ("node_ports", JObject [("k28",
  JNumber "29")]); ("selector", JObject [("k30", JString "v31")])]); ("z32", JString "v32")]); ("routing_level",
  JString "v33"); ("service_type", JString "v34")]); ("status", JString "v35"); ("update_time", JString "v36")].
Definition Network_value : NetworkApi.Network :=
  NetworkApi.mkNetwork (Some "v2") (Some "v3") (Some (NetworkApi.mkKubernetesState (Some "v5") (Some (Some ["v7"]))
  (Some (Some {[ "k8" := "v9" ]})) (Some "v10"))) (Some "v11") (NetworkApi.mkNetworkSpec
  (NetworkApi.mkNetworkMetadata (Some (Some {[ "k14" := "v15" ]})) "v16" (Some "v17")) (Some [(NetworkApi.mkPortSpec
  (Some "v20") (Some 21%Z) 22%Z (Some "v23") (Some 24%Z))]) (Some (NetworkApi.mkProviderHints (Some
  (NetworkApi.mkKubernetesProviderHints (Some "v27") (Some (Some {[ "k28" := 29%Z ]})) (Some (Some {[ "k30" := "v31"
  ]})))) (Some {[ "z32" := JString "v32" ]}))) (Some "v33") "v34") (Some "v35") (Some "v36").

Definition Volume_document : json :=
  JObject [("create_time", JString "v2"); ("id", JString "v3"); ("path", JString "v4"); ("spec", JObject
  [("capacity", JString "v6"); ("metadata", JObject [("labels", JObject [("k8", JString "v9")]); ("name", JString
  "v10"); ("namespace", JString "v11"); ("storage_class", JString "v12"); ("volume_name", JString "v13")]);
  ("provider_hints", JObject [("kubernetes", JObject [("access_mode", JString "v16"); ("storage_class", JString
  "v17"); ("volume_mode", JString "v18")]); ("z19", JString "v19")]); ("service_type", JString "v20")]); ("status",
  JString "v21"); ("update_time", JString "v22")].
Definition Volume_value : StorageApi.Volume :=
  StorageApi.mkVolume (Some "v2") (Some "v3") (Some "v4") (StorageApi.mkStorageSpec "v6" (StorageApi.mkVolumeMetadata
  (Some (Some {[ "k8" := "v9" ]})) "v10" (Some "v11") (Some "v12") (Some "v13")) (Some (StorageApi.mkProviderHints
  (Some (StorageApi.mkKubernetesProviderHints (Some "v16") (Some "v17") (Some "v18"))) (Some {[ "z19" := JString
  "v19" ]}))) "v20") (Some "v21") (Some "v22").

Definition Cluster_document : json :=
  JObject [("api_endpoint", JString "v2"); ("console_uri", JString "v3"); ("create_time", JString "v4"); ("id",
  JString "v5"); ("kubeconfig", JString "v6"); ("path", JString "v7"); ("spec", JObject [("metadata", JObject
  [("labels", JObject [("k10", JString "v11")]); ("name", JString "v12")]); ("nodes", JObject [("control_plane",
  JObject [("count", JNumber "15"); ("cpu", JNumber "16"); ("memory", JString "v17"); ("storage", JString "v18")]);
  ("workers", JObject [("count", JNumber "20"); ("cpu", JNumber "21"); ("memory", JString "v22"); ("storage", JString
  "v23")])]); ("provider_hints", JObject [("acm", JObject [("agent_labels", JObject [("k26", JString "v27")]);
  ("base_domain", JString "v28"); ("infra_env", JString "v29"); ("platform", JString "v30"); ("release_image",
  JString "v31")]); ("z32", JString "v32")]); ("service_type", JString "v33"); ("version", JString "v34")]);
  ("status", JString "v35"); ("status_message", JString "v36"); ("update_time", JString "v37")].
Definition Cluster_value : ClusterApi.Cluster :=
  ClusterApi.mkCluster (Some "v2") (Some "v3") (Some "v4") (Some "v5") (Some "v6") (Some "v7")
  (ClusterApi.mkClusterSpec (ClusterApi.mkClusterMetadata (Some (Some {[ "k10" := "v11" ]})) "v12") (Some
  (ClusterApi.mkClusterNodes (Some (ClusterApi.mkControlPlaneSpec (Some 15%Z) (Some 16%Z) (Some "v17") (Some "v18")))
  (Some (ClusterApi.mkWorkerSpec (Some 20%Z) (Some 21%Z) (Some "v22") (Some "v23"))))) (Some
  (ClusterApi.mkProviderHints (Some (ClusterApi.mkACMProviderHints (Some (Some {[ "k26" := "v27" ]})) (Some "v28")
  (Some "v29") (Some "v30") (Some "v31"))) (Some {[ "z32" := JString "v32" ]}))) "v33" "v34") (Some "v35") (Some
  "v36") (Some "v37").

Definition VM_document : json :=
  JObject [("path", JString "v2"); ("spec", JObject [("access", JObject [("ssh_public_key", JString "v5"); ("z6",
  JString "v6")]); ("create_time", JString "v7"); ("guest_os", JObject [("type", JString "v9"); ("z10", JString
  "v10")]); ("id", JString "v11"); ("memory", JObject [("size", JString "v13"); ("z14", JString "v14")]);
  ("metadata", JObject [("labels", JObject [("k16", JString "v17")]); ("name", JString "v18")]); ("path", JString
  "v19"); ("provider_hints", JObject [("k20", JObject [("k21", JString "v22")])]); ("service_type", JString "v23");
  ("status", JString "v24"); ("status_message", JString "v25"); ("storage", JObject [("disks", JArray [JObject
  [("capacity", JString "v29"); ("name", JString "v30"); ("z31", JString "v31")]]); ("z32", JString "v32")]);
  ("update_time", JString "v33"); ("vcpu", JObject [("count", JNumber "35"); ("z36", JString "v36")]); ("z37",
  JString "v37")])].
Definition VM_value : VMApi.VM :=
  VMApi.mkVM (Some "v2") (VMApi.mkVMSpec (Some (VMApi.mkAccess (Some "v5") (Some {[ "z6" := JString "v6" ]}))) (Some
  "v7") (VMApi.mkGuestOS "v9" (Some {[ "z10" := JString "v10" ]})) (Some "v11") (VMApi.mkMemory "v13" (Some {[ "z14"
  := JString "v14" ]})) (VMApi.mkServiceMetadata (Some (Some {[ "k16" := "v17" ]})) "v18") (Some "v19") (Some (Some
  {[ "k20" := (Some {[ "k21" := (JString "v22") ]}) ]})) "v23" (Some "v24") (Some "v25") (VMApi.mkStorage (Some
  [(VMApi.mkDisk "v29" "v30" (Some {[ "z31" := JString "v31" ]}))]) (Some {[ "z32" := JString "v32" ]})) (Some "v33")
  (VMApi.mkVcpu 35%Z (Some {[ "z36" := JString "v36" ]})) (Some {[ "z37" := JString "v37" ]})).

Definition Database_document : json :=
  JObject [("create_time", JString "v2"); ("id", JString "v3"); ("path", JString "v4"); ("spec", JObject
  [("connection_string", JString "v6"); ("engine", JString "v7"); ("metadata", JObject [("labels", JObject [("k9",
  JString "v10")]); ("name", JString "v11"); ("namespace", JString "v12")]); ("network", JObject [("port", JNumber
  "14"); ("visibility", JString "v15"); ("z16", JString "v16")]); ("provider_hints", JObject [("postgres", JObject
  [("initdb", JObject [("database", JString "v20"); ("password", JString "v21"); ("user", JString "v22")]);
  ("storage", JObject [("storage_class", JString "v24")])]); ("z25", JString "v25")]); ("replicas", JNumber "26");
  ("resources", JObject [("cpu", JObject [("max", JString "v29"); ("min", JString "v30"); ("z31", JString "v31")]);
  ("memory", JObject [("max", JString "v33"); ("min", JString "v34"); ("z35", JString "v35")]); ("storage", JString
  "v36"); ("z37", JString "v37")]); ("service_type", JString "v38"); ("version", JString "v39")]); ("status", JString
  "v40"); ("update_time", JString "v41")].
Definition Database_value : DatabaseApi.Database :=
  DatabaseApi.mkDatabase (Some "v2") (Some "v3") (Some "v4") (DatabaseApi.mkDatabaseSpec (Some "v6") "v7"
  (DatabaseApi.mkDatabaseMetadata (Some (Some {[ "k9" := "v10" ]})) "v11" (Some "v12")) (Some
  (DatabaseApi.mkDatabaseNetwork (Some 14%Z) (Some "v15") (Some {[ "z16" := JString "v16" ]}))) (Some
  (DatabaseApi.mkProviderHints (Some (DatabaseApi.mkPostgresProviderHints (Some (DatabaseApi.mkInitdbProviderHints
  (Some "v20") (Some "v21") (Some "v22"))) (Some (DatabaseApi.mkStorageProviderHints (Some "v24"))))) (Some {[ "z25"
  := JString "v25" ]}))) (Some 26%Z) (DatabaseApi.mkDatabaseResources (DatabaseApi.mkDatabaseCpu "v29" "v30" (Some {[
  "z31" := JString "v31" ]})) (DatabaseApi.mkDatabaseMemory "v33" "v34" (Some {[ "z35" := JString "v35" ]})) (Some
  "v36") (Some {[ "z37" := JString "v37" ]})) "v38" (Some "v39")) (Some "v40") (Some "v41").

Definition Provider_document : json :=
  JObject [("create_time", JString "v2"); ("display_name", JString "v3"); ("endpoint", JString "v4"); ("id", JString
  "v5"); ("last_check_time", JString "v6"); ("metadata", JObject [("region_code", JString "v8"); ("resources",
  JObject [("total_cpu", JString "v10"); ("total_memory", JString "v11"); ("total_node", JNumber "12");
  ("total_storage", JString "v13")]); ("status", JString "v14"); ("z16", JString "v16"); ("zone", JString "v15")]);
  ("name", JString "v17"); ("operations", JArray [JString "v19"]); ("path", JString "v20"); ("schema_version",
  JString "v21"); ("service_type", JString "v22"); ("status", JString "v23"); ("type", JString "v24");
  ("update_time", JString "v25")].
Definition Provider_value : AgentApi.Provider :=
  AgentApi.mkProvider (Some "v2") (Some "v3") "v4" (Some "v5") (Some "v6") (Some (AgentApi.mkProviderMetadata (Some
  "v8") (Some (AgentApi.mkResourceCapacity (Some "v10") (Some "v11") (Some 12%Z) (Some "v13"))) (Some "v14") (Some
  "v15") (Some {[ "z16" := JString "v16" ]}))) "v17" (Some (Some ["v19"])) (Some "v20") "v21" "v22" (Some "v23")
  (Some "v24") (Some "v25").


Definition all_exchanged : Prop :=
  exchanged (ContainerApi.cContainer Some) Container_document Container_value ∧
  exchanged (NetworkApi.cNetwork Some) Network_document Network_value ∧
  exchanged (StorageApi.cVolume Some) Volume_document Volume_value ∧
  exchanged (ClusterApi.cCluster Some) Cluster_document Cluster_value ∧
  exchanged (VMApi.cVM Some) VM_document VM_value ∧
  exchanged (DatabaseApi.cDatabase Some) Database_document Database_value ∧
  exchanged (AgentApi.cProvider Some) Provider_document Provider_value.

Lemma full_documents : all_exchanged.
Proof. unfold all_exchanged, exchanged. split_and!; vm_compute; reflexivity. Qed.
End FullDocuments.

Section Documents.
Context {T : Type} `{!TimeText T, !TimeTextLaws T} (number : string → option string).

(** C35: reading and writing API documents, given that a number literal once
    normalised stays as it is and that times print to what they parse from.  For
    the resource types of all seven APIs every document that decodes yields a
    value that encodes, and decoding that again gives the same value (member
    order, letter case, repeated members and nulls included).  For every type
    that keeps additional properties, with the property names of its schema: a
    member of another name is in [AdditionalProperties] with its last value as an
    [interface{}] holds it, nothing else is, no declared name is, and writing
    sets that member to that value again.  And for each resource, a document (times by their text) that
    has every declared member reads as the struct with each value in its own
    field and is written as that document: the tags of the structs and the names
    in the generated [UnmarshalJSON] and [MarshalJSON] are the ones the schemas
    have. *)
Theorem api_documents_normalise :
  (∀ lit lit', number lit = Some lit' → number lit' = Some lit') →
  (normalises (ContainerApi.cContainer (T := T) number) ∧ normalises (NetworkApi.cNetwork (T := T) number) ∧
   normalises (StorageApi.cVolume (T := T) number) ∧ normalises (ClusterApi.cCluster (T := T) number) ∧
   normalises (VMApi.cVM (T := T) number) ∧ normalises (DatabaseApi.cDatabase (T := T) number) ∧
   normalises (AgentApi.cProvider (T := T) number)) ∧
  unknown_members_kept T number ∧ FullDocuments.all_exchanged.
Proof.
  intros Hn. split; [|split; [by apply all_unknown_kept|exact FullDocuments.full_documents]].
  split_and!; apply lawful_normalises.
  - by apply ContainerApi.container_Container_lawful.
  - by apply NetworkApi.network_Network_lawful.
  - by apply StorageApi.storage_Volume_lawful.
  - by apply ClusterApi.cluster_Cluster_lawful.
  - by apply VMApi.vm_VM_lawful.
  - by apply DatabaseApi.database_Database_lawful.
  - by apply AgentApi.agent_Provider_lawful.
Qed.
End Documents.

(** A document with repeated, unknown and oddly spelled members. *)
Module DocumentRun.
#[local] Existing Instance FullDocuments.text_time.
#[local] Existing Instance FullDocuments.text_time_laws.

Definition vm_document : json :=
  JObject [("PATH", JString "vms/a"); ("unknown", JBool true);
           ("spec", JObject [("vcpu", JObject [("count", JNumber "2"); ("sockets", JNumber "1")]);
                             ("vcpu", JObject [("count", JNumber "4"); ("sockets", JNumber "1")]);
                             ("guest_os", JObject [("type", JString "fedora")]);
                             ("metadata", JObject [("Name", JString "a"); ("labels", JNull)])])].

Lemma api_documents_normalise_witness :
  ∃ x, decode (VMApi.cVM Some) (zero (VMApi.cVM Some)) vm_document = Some x ∧
    VMApi.vc_Count (VMApi.vms_Vcpu (VMApi.vm_Spec x)) = 4%Z ∧
    ∃ j', encode (VMApi.cVM Some) x = Some j' ∧ decode (VMApi.cVM Some) (zero (VMApi.cVM Some)) j' = Some x.
Proof.
  destruct (decode (VMApi.cVM Some) (zero (VMApi.cVM Some)) vm_document) as [x|] eqn:Hd; [|by vm_compute in Hd].
  exists x. split; [done|]. split; [by vm_compute in Hd; injection Hd as <-|].
  destruct (api_documents_normalise (T := string) Some) as ((_ & _ & _ & _ & Hvm & _) & _); [by intros lit lit' [= <-]|].
  exact (Hvm vm_document x Hd).
Defined.
End DocumentRun.
