(* ===== verification/K8s.v ===== *)
(** * Kubernetes as the embedded service providers see it

    The objects the providers read and write are records with the fields they
    use.  The client library and the API server are not part of the agent: what
    the code calls of k8s.io/apimachinery is the class [KubeLib], the typed
    clients of k8s.io/client-go are the class [KubeAPI] (one instance per kind
    of object) on an abstract state of the cluster, and the documented behaviour
    theorems rely on is [KubeLaws].  [Module FakeKube] is a small API server
    that satisfies all of them.  The label conventions of the providers
    (internal/openshift/*/dcm/labels.go and kubernetes/labels.go) are here too,
    since they are the same code for every service type. *)

From stdpp Require Import stringmap.
From S2P Require Import Prelude GoStrings Provider.
From Stdlib Require Import Ascii.

(** ** Objects *)

Record ObjectMeta := mkMeta {
  Name : string;
  GenerateName : string;
  Namespace : string;
  Labels : gmap string string;
  CreationTimestamp : Z;
  DeletionTimestamp : option Z
}.

(** [intstr.IntOrString]. *)
Inductive IntOrString := IntVal (n : Z) | StrVal (s : string).

Record ServicePort := mkServicePort {
  sp_Name : string;
  sp_Protocol : string;
  sp_Port : Z;
  sp_TargetPort : IntOrString;
  sp_NodePort : Z
}.

Record LoadBalancerIngress := mkIngress { ing_IP : string; ing_Hostname : string }.

(** [corev1.Service] *)
Record Service := mkService {
  svc_Meta : ObjectMeta;
  svc_Type : string;
  svc_Ports : list ServicePort;
  svc_ClusterIP : string;
  svc_Selector : gmap string string;
  svc_Ingress : list LoadBalancerIngress
}.

(** A condition of a claim, pod or deployment. *)
Record Condition := mkCondition {
  c_Type : string;
  c_Status : string;
  c_Reason : string;
  c_Message : string;
  c_LastTransitionTime : Z
}.

(** [corev1.PersistentVolumeClaim]; [Q] is the type of resource quantities. *)
Record PVC (Q : Type) := mkPVC {
  pvc_Meta : ObjectMeta;
  pvc_AccessModes : list string;
  pvc_Storage : Q;
  pvc_StorageClassName : option string;
  pvc_VolumeMode : option string;
  pvc_VolumeName : string;
  pvc_Phase : string;
  pvc_Conditions : list Condition
}.
Arguments mkPVC {Q}.
Arguments pvc_Meta {Q}.
Arguments pvc_AccessModes {Q}.
Arguments pvc_Storage {Q}.
Arguments pvc_StorageClassName {Q}.
Arguments pvc_VolumeMode {Q}.
Arguments pvc_VolumeName {Q}.
Arguments pvc_Phase {Q}.
Arguments pvc_Conditions {Q}.

(** The waiting and terminated reasons of a container's status, where the state
    is set. *)
Record ContainerStatus := mkContainerStatus { cs_Waiting : option string; cs_Terminated : option string }.

(** [corev1.Pod] *)
Record Pod := mkPod {
  pod_Meta : ObjectMeta;
  pod_Phase : string;
  pod_PodIP : string;
  pod_ContainerStatuses : list ContainerStatus;
  pod_Conditions : list Condition
}.

(** [corev1.Container]: requests and limits by resource name. *)
Record KContainer (Q : Type) := mkKContainer {
  kc_Name : string;
  kc_Image : string;
  kc_Requests : gmap string Q;
  kc_Limits : gmap string Q;
  kc_Command : list string;
  kc_Args : list string;
  kc_Env : list (string * string);
  kc_Ports : list Z
}.
Arguments mkKContainer {Q}.
Arguments kc_Name {Q}.
Arguments kc_Image {Q}.
Arguments kc_Requests {Q}.
Arguments kc_Limits {Q}.
Arguments kc_Command {Q}.
Arguments kc_Args {Q}.
Arguments kc_Env {Q}.
Arguments kc_Ports {Q}.

(** [appsv1.Deployment] *)
Record Deployment (Q : Type) := mkDeployment {
  d_Meta : ObjectMeta;
  d_Replicas : option Z;
  d_MatchLabels : gmap string string;
  d_TemplateLabels : gmap string string;
  d_Containers : list (KContainer Q);
  d_Conditions : list Condition;
  d_UpdatedReplicas : Z;
  d_UnavailableReplicas : Z
}.
Arguments mkDeployment {Q}.
Arguments d_Meta {Q}.
Arguments d_Replicas {Q}.
Arguments d_MatchLabels {Q}.
Arguments d_TemplateLabels {Q}.
Arguments d_Containers {Q}.
Arguments d_Conditions {Q}.
Arguments d_UpdatedReplicas {Q}.
Arguments d_UnavailableReplicas {Q}.

(** [storagev1.StorageClass]: only its existence matters. *)
Record StorageClass := mkStorageClass { sc_Meta : ObjectMeta }.

Class HasMeta (O : Type) := meta : O → ObjectMeta.
#[export] Instance service_meta : HasMeta Service := svc_Meta.
#[export] Instance pvc_meta Q : HasMeta (PVC Q) := pvc_Meta.
#[export] Instance pod_meta : HasMeta Pod := pod_Meta.
#[export] Instance storageclass_meta : HasMeta StorageClass := sc_Meta.
#[export] Instance deployment_meta Q : HasMeta (Deployment Q) := d_Meta.

(** [m\[k\]] on a Go map of strings. *)
Definition label (m : gmap string string) (k : string) : string := default "" (m !! k).

(** ** The client library *)

(** [metav1.Status]; the causes are [None] when [Details] is nil. *)
Record Status := mkStatus {
  st_Reason : string;
  st_Code : Z;
  st_Message : string;
  st_Causes : option (list string)
}.

(** What the providers call of apimachinery: the classification and text of API
    errors ([X]), label sets, [intstr] and resource quantities ([Q]). *)
Class KubeLib (X Q : Type) := {
  IsNotFound : X → bool;
  IsAlreadyExists : X → bool;
  IsInvalid : X → bool;
  APIStatus : X → option Status;
  api_error_text : X → string;
  labels_Merge : gmap string string → gmap string string → gmap string string;
  labels_String : gmap string string → string;
  IntValue : IntOrString → Z;
  FromInt32 : Z → IntOrString;
  ParseQuantity : string → string + Q;
  Quantity_String : Q → string;
  MilliValue : Q → Z;
  Cmp : Q → Q → Z
}.

Record ListOptions := mkListOptions { lo_LabelSelector : string; lo_Limit : Z; lo_Continue : string }.

(** The client of one kind of object: namespace first, then the argument.  A
    list returns the items and the continue token. *)
Class KubeAPI (W X O : Type) := {
  api_create : string → O → W → (X + O) * W;
  api_get : string → string → W → (X + O) * W;
  api_list : string → ListOptions → W → (X + (list O * string)) * W;
  api_delete : string → string → W → option X * W
}.

(** ** Errors of a store

    [X]: errors of the client; [D]: the error types of the store's package. *)
Inductive serror (X D : Type) :=
  | SAPI (x : X)
  | SDomain (d : D)
  | SWrap (msg : string) (cause : serror X D)
  | SMsg (msg : string).
Arguments SAPI {X D} x.
Arguments SDomain {X D} d.
Arguments SWrap {X D} msg cause.
Arguments SMsg {X D} msg.

(** [errors.As] for an error type of the package. *)
Fixpoint as_domain {X D A} (f : D → option A) (e : serror X D) : option A :=
  match e with
  | SDomain d => f d
  | SWrap _ c => as_domain f c
  | _ => None
  end.

Section ErrorText.
Context {X Q : Type} `{!KubeLib X Q} {D : Type} (domain_text : D → string).

(** [err.Error()]; every wrapping format ends in [: %w]. *)
Fixpoint serror_text (e : serror X D) : string :=
  match e with
  | SAPI x => api_error_text x
  | SDomain d => domain_text d
  | SWrap msg c => msg +:+ ": " +:+ serror_text c
  | SMsg msg => msg
  end.
End ErrorText.

(** A computation that calls the cluster. *)
Definition kube (W A : Type) : Type := W → A * W.
#[export] Instance kube_ret W : MRet (kube W) := λ A a w, (a, w).
#[export] Instance kube_bind W : MBind (kube W) := λ A B f m w, let '(a, w') := m w in f a w'.

(** ** Labels of managed objects: internal/openshift/*/dcm/labels.go *)

Definition LabelManagedBy : string := "dcm.project/managed-by".
Definition LabelInstanceID : string := "dcm.project/dcm-instance-id".
Definition LabelServiceType : string := "dcm.project/dcm-service-type".
Definition ValueManagedByDCM : string := "dcm".

Definition ReservedLabelKeys : gset string := {[ LabelManagedBy; LabelInstanceID; LabelServiceType ]}.

Section Labels.
Context {X Q : Type} `{!KubeLib X Q}.

(** [Labels]: the labels of instance [instanceID] of a provider whose
    [ValueServiceType] is [vst]. *)
Definition dcmLabels (vst instanceID : string) : gmap string string :=
  {[ LabelManagedBy := ValueManagedByDCM; LabelInstanceID := instanceID; LabelServiceType := vst ]}.

Definition InstanceSelector (vst instanceID : string) : string :=
  labels_String {[ LabelInstanceID := instanceID; LabelManagedBy := ValueManagedByDCM; LabelServiceType := vst ]}.

Definition Selector (vst : string) : string :=
  labels_String {[ LabelManagedBy := ValueManagedByDCM; LabelServiceType := vst ]}.

Definition isDCMManaged (vst : string) (labels : gmap string string) (id : string) : bool :=
  (label labels LabelManagedBy =s? ValueManagedByDCM) && (label labels LabelServiceType =s? vst) &&
  (label labels LabelInstanceID =s? id).

Definition mergeLabels (base user : gmap string string) : gmap string string := labels_Merge user base.

(** The labels a store's [Create] puts on its objects. *)
Definition objectLabels (vst id : string) (user : option (gmap string string)) : gmap string string :=
  match user with Some user => mergeLabels (dcmLabels vst id) user | None => dcmLabels vst id end.
End Labels.

Definition userLabels (labels : gmap string string) : gmap string string :=
  filter (λ kv, kv.1 ∉ ReservedLabelKeys) labels.

Definition ExtractInstanceID (m : ObjectMeta) : string := label (Labels m) LabelInstanceID.

(** ** Code the stores share *)

(** [^[a-z0-9]([a-z0-9-]{0,61}[a-z0-9])?$], the pattern of instance
    identifiers (validate/validate.go of each provider). *)
Definition aep122IDPattern : regex := providerIDRegex.

Definition validateUserLabels (range : map_range) (labels : option (gmap string string)) : option string :=
  match labels with
  | None => None
  | Some m =>
      first_some ((λ '(k, _),
        check_that (bool_decide (k ∈ ReservedLabelKeys))
          ("label " +:+ Quote k +:+ " is reserved by DCM and cannot be set by the user")) <$> range _ m)
  end.

Definition normalizePageSize (maxPageSize : Z) : Z :=
  if maxPageSize <=? 0 then 50 else if 1000 <? maxPageSize then 1000 else maxPageSize.

(** The latest non-zero transition time. *)
Definition latest_time (conditions : list Condition) : option Z :=
  fold_left (λ latest c,
    let t := c_LastTransitionTime c in
    if time_is_zero t then latest
    else match latest with
         | None => Some t
         | Some l => if l <? t then Some t else latest
         end) conditions None.

(** ** Documented behaviour of the library and the API server *)

(** Label values: at most 63 characters, alphanumeric at both ends. *)
Definition label_value_class (c : Ascii.ascii) : bool :=
  is_lower c || is_upper c || is_digit c.

Definition label_value : regex :=
  ropt (RCat (RClass label_value_class)
    (ropt (RCat (RStar (RClass (λ c, label_value_class c || is_char "-" c || is_char "_" c || is_char "." c)))
      (RClass label_value_class)))).

Definition valid_label_value (v : string) : bool :=
  MatchString label_value v && (String.length v <=? 63)%nat.

Class KubeLibLaws (X Q : Type) `{!KubeLib X Q} := {
  labels_Merge_spec a b : labels_Merge a b = b ∪ a;
  IntValue_int n : IntValue (IntVal n) = n;
  FromInt32_spec n : FromInt32 n = IntVal n
}.

(** [objs w ns]: the objects of the kind in a namespace, by name;
    [admitted o o']: the stored object [o'] keeps what the request [o] sets
    (a relation given per kind below);
    [selects s l]: whether a label set satisfies a selector. *)
Class KubeLaws (W X Q O : Type) `{!HasMeta O, !KubeLib X Q, !KubeAPI W X O} (admitted : O → O → Prop) := {
  objs : W → string → gmap string O;
  selects : string → gmap string string → bool;
  objs_name w ns k o : objs w ns !! k = Some o → Name (meta o) = k;
  create_ok ns o w o' w' : api_create ns o w = (inr o', w') →
    objs w ns !! Name (meta o') = None ∧ objs w' ns = <[Name (meta o') := o']> (objs w ns) ∧
    admitted o o' ∧ Labels (meta o') = Labels (meta o) ∧
    (Name (meta o) ≠ "" → Name (meta o') = Name (meta o));
  create_rejected ns o w x w' : api_create ns o w = (inl x, w') →
    IsAlreadyExists x = true ∨ IsInvalid x = true → objs w' ns = objs w ns;
  get_ok ns k w o w' : api_get ns k w = (inr o, w') → objs w' = objs w ∧ objs w ns !! k = Some o;
  get_missing ns k w x w' : api_get ns k w = (inl x, w') →
    objs w' = objs w ∧ (IsNotFound x = true → objs w ns !! k = None);
  list_ok ns opts w items c w' : api_list ns opts w = (inr (items, c), w') →
    objs w' = objs w ∧
    (lo_Limit opts = 0 → lo_Continue opts = "" →
     items ≡ₚ filter (λ o, selects (lo_LabelSelector opts) (Labels (meta o)) = true) (map_to_list (objs w ns)).*2);
  list_err ns opts w x w' : api_list ns opts w = (inl x, w') → objs w' = objs w;
  delete_ok ns k w w' : api_delete ns k w = (None, w') →
    (∀ k', k' ≠ k → objs w' ns !! k' = objs w ns !! k') ∧
    (∀ o, objs w' ns !! k = Some o → is_Some (DeletionTimestamp (meta o)));
  delete_err ns k w x w' : api_delete ns k w = (Some x, w') → ∀ k', k' ≠ k → objs w' ns !! k' = objs w ns !! k';
  delete_missing ns k w x w' : api_delete ns k w = (Some x, w') →
    IsNotFound x = true → objs w' = objs w ∧ objs w ns !! k = None;
  selects_set (S l : gmap string string) :
    dom S ⊆ ReservedLabelKeys → map_Forall (λ _ v, valid_label_value v = true) S →
    selects (labels_String S) l = true ↔ S ⊆ l
}.

(** Calls on one kind of object ([O]) leave the objects of another ([O']). *)
Class KubeFrame (W X Q O O' : Type) {adm'} `{!HasMeta O', !KubeLib X Q, !KubeAPI W X O, !KubeAPI W X O'}
  `{!KubeLaws W X Q O' adm'} := {
  frame_create ns (o : O) w : objs (O := O') (api_create ns o w).2 = objs w;
  frame_get ns k w : objs (O := O') (api_get (O := O) ns k w).2 = objs w;
  frame_list ns opts w : objs (O := O') (api_list (O := O) ns opts w).2 = objs w;
  frame_delete ns k w : objs (O := O') (api_delete (O := O) ns k w).2 = objs w
}.

(** Ports keep their order, and what is set in them. *)
Definition port_admitted (p p' : ServicePort) : Prop :=
  sp_Name p' = sp_Name p ∧ sp_Protocol p' = sp_Protocol p ∧ sp_Port p' = sp_Port p ∧
  sp_TargetPort p' = sp_TargetPort p ∧ (sp_NodePort p ≠ 0 → sp_NodePort p' = sp_NodePort p).

Definition service_admitted (o o' : Service) : Prop :=
  Namespace (svc_Meta o') = Namespace (svc_Meta o) ∧ svc_Type o' = svc_Type o ∧
  Forall2 port_admitted (svc_Ports o) (svc_Ports o') ∧ svc_Selector o' = svc_Selector o ∧
  (svc_ClusterIP o ≠ "" → svc_ClusterIP o' = svc_ClusterIP o).

Definition pvc_admitted {Q} (o o' : PVC Q) : Prop :=
  Namespace (pvc_Meta o') = Namespace (pvc_Meta o) ∧ pvc_AccessModes o' = pvc_AccessModes o ∧
  pvc_Storage o' = pvc_Storage o ∧
  (is_Some (pvc_StorageClassName o) → pvc_StorageClassName o' = pvc_StorageClassName o) ∧
  (is_Some (pvc_VolumeMode o) → pvc_VolumeMode o' = pvc_VolumeMode o).

Definition deployment_admitted {Q} (o o' : Deployment Q) : Prop :=
  Namespace (d_Meta o') = Namespace (d_Meta o) ∧ d_MatchLabels o' = d_MatchLabels o ∧
  d_TemplateLabels o' = d_TemplateLabels o ∧ d_Containers o' = d_Containers o ∧
  (is_Some (d_Replicas o) → d_Replicas o' = d_Replicas o).

(** ** Lemmas on labels *)

Section LabelLemmas.
Context {X Q : Type} `{!KubeLib X Q, !KubeLibLaws X Q}.

Lemma reserved_spec k :
  k ∈ ReservedLabelKeys ↔ k = LabelManagedBy ∨ k = LabelInstanceID ∨ k = LabelServiceType.
Proof. unfold ReservedLabelKeys. set_solver. Qed.

Lemma dcmLabels_lookup vst id k :
  dcmLabels vst id !! k =
    if decide (k = LabelManagedBy) then Some ValueManagedByDCM
    else if decide (k = LabelInstanceID) then Some id
    else if decide (k = LabelServiceType) then Some vst else None.
Proof. unfold dcmLabels. by repeat (case_decide; subst; [simplify_map_eq|]); simplify_map_eq. Qed.

Lemma dcmLabels_reserved vst id k : k ∉ ReservedLabelKeys → dcmLabels vst id !! k = None.
Proof. rewrite reserved_spec, dcmLabels_lookup. intros H. by rewrite !decide_False by tauto. Qed.

Lemma default_nonempty (o : option string) v : default "" o = v → v ≠ "" → o = Some v.
Proof. destruct o; simpl; congruence. Qed.

Lemma isDCMManaged_spec vst l id :
  vst ≠ "" → id ≠ "" → isDCMManaged vst l id = true ↔ dcmLabels vst id ⊆ l.
Proof.
  intros Hv Hi. unfold isDCMManaged, label. split.
  - intros H. apply map_subseteq_spec. intros k v. rewrite dcmLabels_lookup. breflect.
    repeat (case_decide as Hk; [rewrite Hk; intros [= <-]; by apply default_nonempty|clear Hk]). by intros [=].
  - intros H. rewrite map_subseteq_spec in H.
    rewrite (H LabelManagedBy ValueManagedByDCM), (H LabelServiceType vst), (H LabelInstanceID id)
      by (rewrite dcmLabels_lookup; by repeat (case_decide; try done)).
    simpl. by rewrite !bool_decide_true.
Qed.

(** User labels that avoid the reserved keys survive the merge, and are what is
    read back. *)
Lemma userLabels_merge vst id user :
  (∀ k, k ∈ ReservedLabelKeys → user !! k = None) →
  userLabels (mergeLabels (dcmLabels vst id) user) = user.
Proof.
  intros Hu. unfold userLabels, mergeLabels. rewrite labels_Merge_spec. apply map_eq. intros k. apply option_eq. intros v.
  rewrite map_lookup_filter_Some, lookup_union_Some_raw. simpl. split.
  - intros [[H|[_ ?]] Hk]; [|done]. by rewrite (dcmLabels_reserved vst id k Hk) in H.
  - intros Hv. assert (k ∉ ReservedLabelKeys) as Hk by (intros Hk; rewrite (Hu k Hk) in Hv; done).
    split; [right|done]. by rewrite (dcmLabels_reserved vst id k Hk).
Qed.

Lemma userLabels_dcm vst id : userLabels (dcmLabels vst id) = ∅.
Proof.
  apply map_empty. intros k. apply map_lookup_filter_None. right. intros v Hv Hk. simpl in Hk.
  by rewrite (dcmLabels_reserved vst id k Hk) in Hv.
Qed.

Lemma managed_objectLabels vst id user :
  vst ≠ "" → id ≠ "" → isDCMManaged vst (objectLabels vst id user) id = true.
Proof.
  intros. apply isDCMManaged_spec; [done..|]. destruct user; [|done]. simpl. unfold mergeLabels.
  rewrite labels_Merge_spec. apply map_union_subseteq_l.
Qed.

(** What [metadata.labels] of an object read back is: the user's labels. *)
Lemma userLabels_back vst id user :
  (∀ k, k ∈ ReservedLabelKeys → default ∅ user !! k = None) →
  let labels := userLabels (objectLabels vst id user) in
  default ∅ (if bool_decide (labels = ∅) then None else Some labels) = default ∅ user.
Proof.
  intros Hu. cbv zeta. assert (userLabels (objectLabels vst id user) = default ∅ user) as ->.
  { destruct user; [by apply userLabels_merge|apply userLabels_dcm]. }
  case_bool_decide as H; [by rewrite H|done].
Qed.

Lemma selector_labels vst id :
  {[ LabelInstanceID := id; LabelManagedBy := ValueManagedByDCM; LabelServiceType := vst ]} = dcmLabels vst id.
Proof.
  apply map_eq. intros k. rewrite dcmLabels_lookup.
  repeat (case_decide; subst; [by simplify_map_eq|]). by simplify_map_eq.
Qed.
End LabelLemmas.

(** An AEP-122 identifier is a label value and is not empty. *)
Lemma aep122_label id : MatchString aep122IDPattern id = true → valid_label_value id = true ∧ id ≠ "".
Proof.
  intros H. pose proof H as Hl. unfold MatchString in Hl. apply rmatch_lang, id_regex_chars in Hl.
  destruct Hl as (Hlen & Hall & Hhd & Hlst). split; [|intros ->; simpl in Hlen; lia].
  unfold valid_label_value. apply andb_true_iff. split; [|rewrite <-length_chars; apply Nat.leb_le; lia].
  unfold MatchString. apply rmatch_lang. unfold label_value, ropt. rewrite lang_alt_inv. right.
  assert (∀ c, alnum_lower c = true → label_value_class c = true) as Hc.
  { intros c. unfold alnum_lower, label_value_class. intros [->| ->]%orb_true_iff; by rewrite ?orb_true_r. }
  destruct (chars id) as [|c l]; [simpl in Hlen; lia|]. apply lang_cat_inv. exists [c], l. split_and!; [done| |].
  { apply lang_class_inv. exists c. split; [done|]. by apply Hc, Hhd. }
  rewrite lang_alt_inv. destruct l as [|z m _] using rev_ind; [by left; apply lang_eps_inv|right].
  apply lang_cat_inv. exists m, [z]. split_and!; [done| |].
  - apply lang_star_class. inversion Hall as [|? ? _ Hall']; subst. apply Forall_app in Hall' as [Hm _].
    eapply Forall_impl; [done|]. intros d Hd. cbv beta. unfold id_char in Hd.
    apply orb_true_iff in Hd as [Hd| ->]; [by rewrite (Hc _ Hd)|by rewrite !orb_true_r].
  - apply lang_class_inv. exists z. split; [done|]. apply Hc, Hlst. by rewrite app_comm_cons, last_snoc.
Qed.

Lemma validated_labels range labels k :
  map_range_ok range → validateUserLabels range labels = None → k ∈ ReservedLabelKeys → default ∅ labels !! k = None.
Proof.
  intros Hr Hv Hk. destruct labels as [m|]; [|done]. simpl. destruct (m !! k) as [v|] eqn:Hm; [|done]. exfalso.
  eapply map_range_checks in Hv; [|done..]. simpl in Hv. apply check_that_None in Hv. by breflect.
Qed.

(** ** Lists by selector *)

Section Listing.
Context {O : Type} `{!HasMeta O} (selects : gmap string string → bool).

Definition selected (m : gmap string O) : list O := filter (λ o, selects (Labels (meta o)) = true) (map_to_list m).*2.

Lemma elem_of_selected m o : o ∈ selected m ↔ (∃ k, m !! k = Some o) ∧ selects (Labels (meta o)) = true.
Proof.
  unfold selected. rewrite list_elem_of_filter, list_elem_of_fmap. split.
  - intros [Hs ([k o'] & -> & Hk%elem_of_map_to_list)]. eauto.
  - intros [[k Hk] Hs]. split; [done|]. exists (k, o). by rewrite elem_of_map_to_list.
Qed.

Lemma selected_insert m k o :
  m !! k = None →
  selected (<[k := o]> m) ≡ₚ if selects (Labels (meta o)) then o :: selected m else selected m.
Proof.
  intros Hk. unfold selected. rewrite map_to_list_insert by done. simpl. rewrite filter_cons.
  destruct (selects _) eqn:Hs; [by rewrite decide_True|by rewrite decide_False by congruence].
Qed.

Lemma selected_none m : (∀ k o, m !! k = Some o → selects (Labels (meta o)) = false) → selected m = [].
Proof.
  intros H. destruct (selected m) as [|o l] eqn:E; [done|].
  assert (o ∈ selected m) as [[k Hk] Hs]%elem_of_selected by (rewrite E; left).
  rewrite (H k o Hk) in Hs. done.
Qed.

(** Changing one object of a selection that was empty leaves at most one. *)
Lemma selected_change m m' k :
  selected m = [] → (∀ k', k' ≠ k → m' !! k' = m !! k') → (length (selected m') ≤ 1)%nat.
Proof.
  intros Hm Hk. assert (delete k m' = delete k m) as Hd.
  { apply map_eq. intros k'. destruct (decide (k' = k)) as [->|Hne]; [by rewrite !lookup_delete_eq|].
    rewrite !lookup_delete_ne by done. by apply Hk. }
  assert (selected (delete k m) = []) as Hs.
  { apply selected_none. intros k' o [_ Ho]%lookup_delete_Some. apply not_true_is_false. intros Ht.
    assert (o ∈ selected m) as Hin by (apply elem_of_selected; eauto). rewrite Hm in Hin. by apply elem_of_nil in Hin. }
  destruct (m' !! k) as [o|] eqn:Ho.
  - rewrite <-(insert_delete_id m' k o Ho), selected_insert by apply lookup_delete_eq.
    rewrite Hd, Hs. destruct (selects _); simpl; lia.
  - rewrite <-(delete_id m' k Ho), Hd, Hs. simpl. lia.
Qed.

Lemma selected_unique m k o items :
  m !! k = None → selects (Labels (meta o)) = true →
  (∀ k' o', m !! k' = Some o' → selects (Labels (meta o')) = false) →
  items ≡ₚ selected (<[k := o]> m) → items = [o].
Proof.
  intros Hk Hs Hm. rewrite selected_insert, Hs, selected_none by done. by intros ->%Permutation_singleton_r.
Qed.
End Listing.

(** ** A small API server *)

Module FakeKube.

(** Strings of binary digits name positive numbers, and so label sets. *)
Fixpoint pos_string (p : positive) : string :=
  match p with xH => "" | xO q => String "0"%char (pos_string q) | xI q => String "1"%char (pos_string q) end.

Fixpoint string_pos (s : string) : positive :=
  match s with
  | EmptyString => xH
  | String c s' => if Ascii.eqb c "0"%char then xO (string_pos s') else xI (string_pos s')
  end.

Lemma string_pos_string p : string_pos (pos_string p) = p.
Proof. induction p; simpl; congruence. Qed.

Definition fake_selects (s : string) (l : gmap string string) : bool :=
  match decode (A := gmap string string) (string_pos s) with
  | Some ls => bool_decide (ls ⊆ l)
  | None => false
  end.

#[export] Instance lib : KubeLib Status Z := {|
  IsNotFound x := st_Reason x =s? "NotFound";
  IsAlreadyExists x := st_Reason x =s? "AlreadyExists";
  IsInvalid x := st_Reason x =s? "Invalid";
  APIStatus x := Some x;
  api_error_text := st_Message;
  labels_Merge a b := b ∪ a;
  labels_String S := pos_string (encode S);
  IntValue v := match v with IntVal n => n | StrVal _ => 0 end;
  FromInt32 := IntVal;
  ParseQuantity s :=
    match ParseInt64 s, ParseInt64 (String.substring 0 (String.length s - 2) s) with
    | Some n, _ => inr n
    | None, Some n => if HasSuffix s "Gi" then inr (wrap64 (n * 1024 ^ 3)) else inl "quantities must match the regular expression"
    | None, None => inl "quantities must match the regular expression"
    end;
  Quantity_String q := pretty q;
  MilliValue q := 1000 * q;
  Cmp a b := Z.sgn (a - b)
|}.

#[export] Instance lib_laws : KubeLibLaws Status Z.
Proof. by split. Qed.

Section Server.
Context {W O : Type} `{!HasMeta O}.
Context (get : W → gmap string (gmap string O)) (set : gmap string (gmap string O) → W → W).
Context (get_set : ∀ m w, get (set m w) = m).
Context (rename : string → O → O) (rename_name : ∀ n o, Name (meta (rename n o)) = n).
Context (rename_labels : ∀ n o, Labels (meta (rename n o)) = Labels (meta o)).

Definition in_ns (w : W) (ns : string) : gmap string O := default ∅ (get w !! ns).

(** Objects are kept under their names. *)
Definition named (m : gmap string O) : gmap string O := filter (λ ko, Name (meta ko.2) = ko.1) m.

Definition put (ns : string) (m : gmap string O) (w : W) : W := set (<[ns := m]> (get w)) w.

Definition choose_name (o : O) (m : gmap string O) : string :=
  if Name (meta o) =s? "" then fresh_string (GenerateName (meta o)) m else Name (meta o).

Definition fake_api : KubeAPI W Status O := {|
  api_create ns o w :=
    let m := named (in_ns w ns) in
    let n := choose_name o m in
    match m !! n with
    | Some _ => (inl (mkStatus "AlreadyExists" 409 "already exists" None), w)
    | None => (inr (rename n o), put ns (<[n := rename n o]> m) w)
    end;
  api_get ns k w :=
    match named (in_ns w ns) !! k with
    | Some o => (inr o, w)
    | None => (inl (mkStatus "NotFound" 404 "not found" None), w)
    end;
  api_list ns opts w :=
    (inr (filter (λ o, fake_selects (lo_LabelSelector opts) (Labels (meta o)) = true) (map_to_list (named (in_ns w ns))).*2, ""), w);
  api_delete ns k w :=
    match named (in_ns w ns) !! k with
    | Some _ => (None, put ns (delete k (named (in_ns w ns))) w)
    | None => (Some (mkStatus "NotFound" 404 "not found" None), w)
    end
|}.

Lemma in_ns_put ns m w : in_ns (put ns m w) ns = m.
Proof. unfold in_ns, put. by rewrite get_set, lookup_insert_eq. Qed.

Lemma named_idem m : named (named m) = named m.
Proof.
  unfold named. apply map_eq. intros k. apply option_eq. intros o. rewrite !map_lookup_filter_Some. tauto.
Qed.

Lemma named_insert n o m : Name (meta o) = n → named (<[n := o]> (named m)) = <[n := o]> (named m).
Proof. intros Hn. unfold named at 1. rewrite map_filter_insert_True by done. f_equal. apply named_idem. Qed.

Lemma named_delete n m : named (delete n (named m)) = delete n (named m).
Proof. unfold named at 1. rewrite map_filter_delete. f_equal. apply named_idem. Qed.

Definition fake_laws (admitted : O → O → Prop) :
  (∀ n o, admitted o (rename n o)) → @KubeLaws W Status Z O _ _ fake_api admitted.
Proof.
  intros Hadm.
  refine {| objs w ns := named (in_ns w ns) : gmap string O; selects := fake_selects |}; cbn [api_create api_get api_list api_delete fake_api].
  - intros w ns k o Hk. by apply map_lookup_filter_Some in Hk as [_ Hk].
  - intros ns o w o' w'. cbv zeta. destruct (_ !! choose_name _ _) eqn:Hn; [done|]. intros [= <- <-].
    rewrite rename_name, rename_labels, in_ns_put. split_and!; try done.
    + by apply named_insert.
    + unfold choose_name. intros Hne. by rewrite bool_decide_false.
  - intros ns o w x w'. cbv zeta. by destruct (_ !! choose_name _ _); intros [= <- <-].
  - intros ns k w o w'. destruct (_ !! k) eqn:Hk; by intros [= <- <-].
  - intros ns k w x w'. destruct (_ !! k) eqn:Hk; by intros [= <- <-].
  - intros ns opts w items c w' [= <- _ <-]. done.
  - done.
  - intros ns k w w'. destruct (_ !! k) as [o|] eqn:Hk; [|done]. intros [= <-]. rewrite in_ns_put, named_delete. split.
    + intros k' Hne. by rewrite lookup_delete_ne.
    + intros o'. by rewrite lookup_delete_eq.
  - intros ns k w x w'. destruct (_ !! k) eqn:Hk; [done|]. by intros [= <- <-].
  - intros ns k w x w'. destruct (_ !! k) eqn:Hk; [done|]. by intros [= <- <-].
  - intros ls l _ _. unfold fake_selects. simpl. rewrite string_pos_string, decode_encode. apply bool_decide_eq_true.
Defined.
End Server.

(** A cluster with the kinds the providers use. *)
Record world := mkWorld {
  f_services : gmap string (gmap string Service);
  f_pvcs : gmap string (gmap string (PVC Z));
  f_pods : gmap string (gmap string Pod);
  f_deployments : gmap string (gmap string (Deployment Z));
  f_classes : gmap string (gmap string StorageClass)
}.

Definition empty_world : world := mkWorld ∅ ∅ ∅ ∅ ∅.

Definition rename_meta (n : string) (m : ObjectMeta) : ObjectMeta :=
  mkMeta n (GenerateName m) (Namespace m) (Labels m) (CreationTimestamp m) (DeletionTimestamp m).
Definition rename_service (n : string) (o : Service) : Service :=
  mkService (rename_meta n (svc_Meta o)) (svc_Type o) (svc_Ports o) (svc_ClusterIP o) (svc_Selector o) (svc_Ingress o).
Definition rename_pvc (n : string) (o : PVC Z) : PVC Z :=
  mkPVC (rename_meta n (pvc_Meta o)) (pvc_AccessModes o) (pvc_Storage o) (pvc_StorageClassName o) (pvc_VolumeMode o)
    (pvc_VolumeName o) (pvc_Phase o) (pvc_Conditions o).
Definition rename_pod (n : string) (o : Pod) : Pod :=
  mkPod (rename_meta n (pod_Meta o)) (pod_Phase o) (pod_PodIP o) (pod_ContainerStatuses o) (pod_Conditions o).
Definition rename_deployment (n : string) (o : Deployment Z) : Deployment Z :=
  mkDeployment (rename_meta n (d_Meta o)) (d_Replicas o) (d_MatchLabels o) (d_TemplateLabels o) (d_Containers o)
    (d_Conditions o) (d_UpdatedReplicas o) (d_UnavailableReplicas o).

Definition rename_class (n : string) (o : StorageClass) : StorageClass := mkStorageClass (rename_meta n (sc_Meta o)).

#[export] Instance class_api : KubeAPI world Status StorageClass :=
  fake_api f_classes (λ m w, mkWorld (f_services w) (f_pvcs w) (f_pods w) (f_deployments w) m) rename_class.
#[export] Instance service_api : KubeAPI world Status Service :=
  fake_api f_services (λ m w, mkWorld m (f_pvcs w) (f_pods w) (f_deployments w) (f_classes w)) rename_service.
#[export] Instance pvc_api : KubeAPI world Status (PVC Z) :=
  fake_api f_pvcs (λ m w, mkWorld (f_services w) m (f_pods w) (f_deployments w) (f_classes w)) rename_pvc.
#[export] Instance pod_api : KubeAPI world Status Pod :=
  fake_api f_pods (λ m w, mkWorld (f_services w) (f_pvcs w) m (f_deployments w) (f_classes w)) rename_pod.
#[export] Instance deployment_api : KubeAPI world Status (Deployment Z) :=
  fake_api f_deployments (λ m w, mkWorld (f_services w) (f_pvcs w) (f_pods w) m (f_classes w)) rename_deployment.

#[export] Instance service_laws : KubeLaws world Status Z Service service_admitted.
Proof.
  refine (fake_laws _ _ _ _ _ _ _ _); try done. intros n o. split_and!; try done.
  simpl. induction (svc_Ports o) as [|p l IH]; constructor; [by split_and!|exact IH].
Defined.
#[export] Instance pvc_laws : KubeLaws world Status Z (PVC Z) pvc_admitted.
Proof. by refine (fake_laws _ _ _ _ _ _ _ _). Defined.
#[export] Instance pod_laws : KubeLaws world Status Z Pod (λ _ _, True).
Proof. by refine (fake_laws _ _ _ _ _ _ _ _). Defined.
#[export] Instance deployment_laws : KubeLaws world Status Z (Deployment Z) deployment_admitted.
Proof. by refine (fake_laws _ _ _ _ _ _ _ _). Defined.

#[export] Instance class_laws : KubeLaws world Status Z StorageClass (λ _ _, True).
Proof. by refine (fake_laws _ _ _ _ _ _ _ _). Defined.

(** Two kinds live in different fields. *)
Ltac frame_tac := split; intros; simpl; repeat case_match; done.
#[export] Instance class_pvc_frame : KubeFrame world Status Z StorageClass (PVC Z).
Proof. frame_tac. Qed.
#[export] Instance deployment_service_frame : KubeFrame world Status Z (Deployment Z) Service.
Proof. frame_tac. Qed.
#[export] Instance service_deployment_frame : KubeFrame world Status Z Service (Deployment Z).
Proof. frame_tac. Qed.
#[export] Instance pod_deployment_frame : KubeFrame world Status Z Pod (Deployment Z).
Proof. frame_tac. Qed.

Definition sorted_range : map_range := λ A m, map_to_list m.
Lemma sorted_range_ok : map_range_ok sorted_range.
Proof. by intros A m. Qed.
End FakeKube.
