(* ===== verification/StatusMon.v ===== *)
(** * Status monitors of the embedded providers

    Models internal/openshift/network/monitoring and
    internal/openshift/storage/monitoring: the informer callbacks, the maps of
    last published and last submitted events, the debouncer of [Debounce] and
    the publish callback with its retries, composed as one system whose steps
    are the code between two lock operations or two blocking calls.  The
    callbacks of one informer run on one goroutine; the storage monitor has two
    informers, so its callbacks interleave. *)

From S2P Require Import Prelude Effects GoStrings K8s Debounce.

(** ** Events: publisher.go *)

Record StatusEvent := mkEvent { InstanceID : string; EvStatus : string; EvMessage : string }.

#[export] Instance StatusEvent_eq_dec : EqDecision StatusEvent.
Proof. solve_decision. Defined.

Definition DELETED : string := "DELETED".
Definition FAILED : string := "FAILED".
Definition PROVISIONING : string := "PROVISIONING".
Definition PENDING : string := "PENDING".
Definition READY : string := "READY".
Definition RUNNING : string := "RUNNING".
Definition DELETING : string := "DELETING".
Definition UNKNOWN : string := "UNKNOWN".

(** ** Publishing with retries: [publishWithRetry] *)

Section Publish.
(** The outcome of the [n]th call of [Publish], and whether the context was
    done rather than the back-off over after it failed. *)
Context (publish : Z → bool) (ctx_done : Z → bool).

(** [left]: attempts that remain.  The back-offs waited for, and whether an
    attempt succeeded. *)
Fixpoint publish_loop (left : nat) (attempt maxAttempts backoff : Z) : list Z * bool :=
  match left with
  | O => ([], false)
  | S left' =>
      if publish attempt then ([], true)
      else if attempt <? maxAttempts then
        if ctx_done attempt then ([backoff], false)
        else
          let '(waits, ok) := publish_loop left' (attempt + 1) maxAttempts (wrap64 (backoff * 2)) in
          (backoff :: waits, ok)
      else publish_loop left' (attempt + 1) maxAttempts backoff
  end.

Definition publishWithRetry (PublishMaxAttempts : Z) : list Z * bool :=
  let maxAttempts := if PublishMaxAttempts <? 1 then 5 else PublishMaxAttempts in
  publish_loop (Z.to_nat maxAttempts) 1 maxAttempts (10 * Millisecond).

(** Success comes from an attempt within the limit, all earlier ones having
    failed with time left; the waits are the doubled back-offs in between. *)
Lemma publish_loop_ok left attempt max b waits :
  publish_loop left attempt max b = (waits, true) →
  ∃ k, (k < left)%nat ∧ publish (attempt + Z.of_nat k) = true ∧
       ∀ j, (j < k)%nat → publish (attempt + Z.of_nat j) = false.
Proof.
  revert attempt b waits. induction left as [|left IH]; intros attempt b waits; [done|]. simpl.
  destruct (publish attempt) eqn:Hp.
  - intros _. exists 0%nat. rewrite Z.add_0_r. split_and!; [lia|done|lia].
  - intros H. assert (∃ b' w', publish_loop left (attempt + 1) max b' = (w', true)) as (b' & w' & Hl).
    { destruct (attempt <? max); [|by eauto]. destruct (ctx_done attempt); [done|].
      destruct (publish_loop left _ _ _) as [w ok] eqn:E. simplify_eq. eauto. }
    destruct (IH _ _ _ Hl) as (k & Hk & Hok & Hfail). exists (S k). split_and!; [lia| |].
    + rewrite <-Hok. f_equal. lia.
    + intros [|j] Hj; [by rewrite Z.add_0_r|]. rewrite <-(Hfail j) by lia. f_equal. lia.
Qed.

Lemma publish_loop_waits left attempt max b waits ok :
  publish_loop left attempt max b = (waits, ok) → attempt + Z.of_nat left = max + 1 →
  (length waits ≤ left - 1)%nat ∧
  (0 ≤ b → b * 2 ^ Z.of_nat left ≤ int64_max →
   waits = (λ k, b * 2 ^ Z.of_nat k) <$> seq 0 (length waits)).
Proof.
  revert attempt b waits. induction left as [|left IH]; intros attempt b waits; simpl; [by intros [= <- <-]|].
  destruct (publish attempt); [intros [= <- <-] _; split; [simpl; lia|done]|].
  destruct (attempt <? max) eqn:Hlt; breflect.
  - destruct (ctx_done attempt).
    { intros [= <- <-] Hm. split; [simpl; lia|]. intros. simpl. by rewrite Z.mul_1_r. }
    destruct (publish_loop left _ _ _) as [w ok'] eqn:E. intros [= <- <-] Hm.
    destruct (IH _ _ _ E ltac:(lia)) as [Hlen Hw]. split; [simpl; lia|]. intros Hb Hmax.
    rewrite Nat2Z.inj_succ, Z.pow_succ_r in Hmax by lia.
    assert (1 ≤ 2 ^ Z.of_nat left) by (apply (Z.pow_le_mono_r 2 0); lia).
    rewrite wrap64_id in Hw by (unfold in_int64, int64_min in *; nia).
    rewrite Hw at 1 by nia. simpl. rewrite Z.mul_1_r. f_equal.
    rewrite <-fmap_S_seq, <-list_fmap_compose. apply list_fmap_ext. intros _ k _. simpl.
    rewrite Nat2Z.inj_succ, Z.pow_succ_r by lia. lia.
  - intros E Hm. assert (left = 0%nat) as -> by lia. simpl in E. simplify_eq. split; [simpl; lia|done].
Qed.
End Publish.

(** *** Steps of the debouncer seen from the monitor *)

Lemma run_other {E} (d : Draining.sys E) i j :
  i ≠ j → Draining.threads (Draining.step d (Draining.ARun i)) !! j = Draining.threads d !! j.
Proof.
  intros Hne. simpl. destruct (Draining.threads d !! i) as [th|]; [|done].
  unfold Draining.run_thread, Draining.beginPublish, Draining.endPublish.
  cases; simpl; rewrite ?list_lookup_insert_ne by done; done.
Qed.

Lemma run_publishing {E} (d : Draining.sys E) i th x :
  Draining.threads d !! i = Some th → Draining.publishes th = Some x →
  Draining.threads (Draining.step d (Draining.ARun i)) !! i ≫= Draining.publishes = None.
Proof.
  intros Hi Hp. simpl. rewrite Hi. pose proof (lookup_lt_Some _ _ _ Hi).
  destruct th as [| | | |[|[]]| | |]; simpl in *; simplify_eq; by rewrite list_lookup_insert_eq.
Qed.

Lemma fire_threads {E} (d : Draining.sys E) h j :
  Draining.threads (Draining.step d (Draining.AFire h)) !! j ≫= Draining.publishes =
  Draining.threads d !! j ≫= Draining.publishes.
Proof.
  simpl. destruct (Draining.armed d !! h) as [[id v]|]; [|done]. simpl.
  destruct (decide (j < length (Draining.threads d))%nat); [by rewrite lookup_app_l|].
  rewrite lookup_app_r, (lookup_ge_None_2 (Draining.threads d)) by lia. by destruct (j - _)%nat as [|[|]].
Qed.

Lemma stop_threads {E} (d : Draining.sys E) order j :
  Draining.threads (Draining.step d (Draining.AStop order)) !! j ≫= Draining.publishes =
  Draining.threads d !! j ≫= Draining.publishes.
Proof.
  simpl. destruct (Draining.Stop _ _) as [[d' ops] fl]. simpl.
  destruct (decide (j < length (Draining.threads d))%nat); [by rewrite lookup_app_l|].
  rewrite lookup_app_r, (lookup_ge_None_2 (Draining.threads d)) by lia. by destruct (j - _)%nat as [|[|]].
Qed.

Lemma submit_threads {E} (d : Draining.sys E) id ev :
  Draining.threads (Draining.step d (Draining.ASubmit id ev)) = Draining.threads d.
Proof. simpl. by destruct (Draining.Submit _ _ _ _). Qed.

Lemma submit_accepted {E} (d : Draining.sys E) id ev :
  Draining.accepted (Draining.step d (Draining.ASubmit id ev)) =
  if Draining.stopped (Draining.deb d) then Draining.accepted d else Draining.accepted d ++ [(id, ev)].
Proof. simpl. by destruct (Draining.Submit _ _ _ _). Qed.

Lemma internal_accepted {E} (d : Draining.sys E) a :
  (∀ id ev, a ≠ Draining.ASubmit id ev) → Draining.accepted (Draining.step d a) = Draining.accepted d.
Proof.
  intros Ha. destruct a as [id ev|h|i|order]; [by destruct (Ha id ev)|..]; simpl.
  - by destruct (Draining.armed d !! h) as [[]|].
  - destruct (Draining.threads d !! i); [apply Draining.run_thread_accepted|done].
  - by destruct (Draining.Stop _ _) as [[]].
Qed.

Lemma step_stopped {E} (d : Draining.sys E) a :
  (∀ order, a ≠ Draining.AStop order) →
  Draining.stopped (Draining.deb (Draining.step d a)) = Draining.stopped (Draining.deb d).
Proof.
  intros Ha. destruct a as [id ev|h|i|order]; [..|by destruct (Ha order)]; simpl.
  - unfold Draining.Submit. by destruct (Draining.stopped (Draining.deb d)) eqn:Hs; [|destruct (default false _)].
  - by destruct (Draining.armed d !! h) as [[]|].
  - destruct (Draining.threads d !! i) as [th|]; [|done].
    unfold Draining.run_thread, Draining.beginPublish, Draining.endPublish. by cases.
Qed.

(** Only the return of a publish callback adds to [delivered]. *)
Lemma run_delivered {E} (d : Draining.sys E) i :
  Draining.delivered (Draining.step d (Draining.ARun i)) =
  Draining.delivered d ++ option_list (Draining.threads d !! i ≫= Draining.publishes).
Proof.
  simpl. destruct (Draining.threads d !! i) as [th|]; [|by rewrite app_nil_r].
  destruct th as [id v|id v ev|id v|id ev|[|[id ev] todo]|id ev todo| |]; simpl; rewrite ?app_nil_r; try done;
    unfold Draining.beginPublish, Draining.endPublish; by cases.
Qed.

Lemma other_delivered {E} (d : Draining.sys E) a :
  (∀ i, a ≠ Draining.ARun i) → Draining.delivered (Draining.step d a) = Draining.delivered d.
Proof.
  intros Ha. destruct a as [id ev|h|i|order]; [..|by destruct (Ha i)|]; simpl.
  - by destruct (Draining.Submit _ _ _ _).
  - by destruct (Draining.armed d !! h) as [[]|].
  - by destruct (Draining.Stop _ _) as [[]].
Qed.

Lemma run_step_inv {E} (d : Draining.sys E) i : Draining.inv d → Draining.inv (Draining.step d (Draining.ARun i)).
Proof.
  intros Hinv. simpl. destruct (Draining.threads d !! i) eqn:Hth; [by apply Draining.run_thread_inv|done].
Qed.

Lemma elem_of_proj {E} id (x : E) (l : list (string * E)) : x ∈ proj id l ↔ (id, x) ∈ l.
Proof.
  unfold proj. rewrite list_elem_of_fmap. setoid_rewrite list_elem_of_filter. split.
  - by intros ([id' y] & -> & [Heq ?]); simpl in *; subst.
  - intros H. by exists (id, x).
Qed.

Lemma publishing_accepted {E} (d : Draining.sys E) i th id ev :
  Draining.inv d → Draining.threads d !! i = Some th → Draining.publishes th = Some (id, ev) →
  (id, ev) ∈ Draining.accepted d.
Proof.
  intros Hinv Hi Hp. apply elem_of_proj.
  eapply elem_of_sublist; [|apply (Draining.slot_sublist id d), (Draining.inv_slot d Hinv)].
  rewrite (Draining.inv_delivered d Hinv id). apply elem_of_app. right. apply list_elem_of_omap.
  destruct (Draining.publishes_owner id th ev Hp) as [Ho|[v Ho]]; eexists;
    (split; [by eapply Draining.own_elem|done]).
Qed.

(** ** The monitor: monitor.go *)

#[local] Arguments Draining.step : simpl never.

Section Monitor.
(** [suppress last event]: whether an event is dropped after [last] was
    submitted (the storage monitor's FAILED to PROVISIONING guard). *)
Context (suppress : StatusEvent → StatusEvent → bool).

Record maps := mkMaps {
  lastPublished : gmap string StatusEvent;
  lastSubmitted : gmap string StatusEvent
}.

(** The critical section of [submitIfChanged]: whether [debouncer.Submit] is
    called after it. *)
Definition submitIfChanged (event : StatusEvent) (m : maps) : bool * maps :=
  let unchanged :=
    match lastPublished m !! InstanceID event with
    | Some prev => (EvStatus prev =s? EvStatus event) && (EvMessage prev =s? EvMessage event)
    | None => false
    end in
  if unchanged then (false, m)
  else
    let held :=
      match lastSubmitted m !! InstanceID event with
      | Some last => suppress last event
      | None => false
      end in
    if held then (false, m)
    else (true, mkMaps (lastPublished m) (<[InstanceID event := event]> (lastSubmitted m))).

(** The critical section of [publishWithRetry] after a successful [Publish]. *)
Definition recordPublished (event : StatusEvent) (m : maps) : maps :=
  if EvStatus event =s? DELETED then
    mkMaps (delete (InstanceID event) (lastPublished m)) (delete (InstanceID event) (lastSubmitted m))
  else mkMaps (<[InstanceID event := event]> (lastPublished m)) (lastSubmitted m).

(** Events carry the number of their submission, which only the proofs use. *)
Abbreviation tagged := (nat * StatusEvent)%type.

(** [callbacks]: for each informer goroutine, the event it is about to submit;
    [acked]: goroutines whose [Publish] succeeded and which have not recorded it
    yet; [sent]: what [Publish] accepted. *)
Record mon := mkMon {
  debouncer : Draining.sys tagged;
  state : maps;
  callbacks : list (option StatusEvent);
  acked : gset nat;
  sent : list (string * StatusEvent)
}.

(** A monitor with [n] informers. *)
Definition mon_init (n : nat) : mon := mkMon Draining.init (mkMaps ∅ ∅) (replicate n None) ∅ [].

Inductive mact :=
  | Observe (g : nat) (ev : StatusEvent)     (* an informer callback, up to its unlock *)
  | Submitted (g : nat)                      (* debouncer.Submit of the callback *)
  | Fire (h : nat)                           (* a debounce timer fires *)
  | PublishCall (i : nat) (publish ctx_done : Z → bool) (max : Z) (* publishWithRetry up to its outcome *)
  | Run (i : nat)                            (* any other step of a goroutine *)
  | Shutdown (order : list string → list string). (* debouncer.Stop *)

Definition with_debouncer (d : Draining.sys tagged) (s : mon) : mon :=
  mkMon d (state s) (callbacks s) (acked s) (sent s).

(** What goroutine [i] is publishing. *)
Definition publishing (i : nat) (s : mon) : option (string * tagged) :=
  Draining.threads (debouncer s) !! i ≫= Draining.publishes.

Definition mstep (s : mon) (a : mact) : mon :=
  match a with
  | Observe g ev =>
      match callbacks s !! g with
      | Some None =>
          let '(changed, m) := submitIfChanged ev (state s) in
          mkMon (debouncer s) m (if changed then <[g := Some ev]> (callbacks s) else callbacks s) (acked s) (sent s)
      | _ => s
      end
  | Submitted g =>
      match callbacks s !! g with
      | Some (Some ev) =>
          let n := length (Draining.accepted (debouncer s)) in
          mkMon (Draining.step (debouncer s) (Draining.ASubmit (InstanceID ev) (n, ev)))
            (state s) (<[g := None]> (callbacks s)) (acked s) (sent s)
      | _ => s
      end
  | Fire h => with_debouncer (Draining.step (debouncer s) (Draining.AFire h)) s
  | PublishCall i publish ctx_done max =>
      match publishing i s with
      | Some (id, (_, ev)) =>
          if bool_decide (i ∈ acked s) then s
          else if (publishWithRetry publish ctx_done max).2 then
            mkMon (debouncer s) (state s) (callbacks s) ({[ i ]} ∪ acked s) (sent s ++ [(InstanceID ev, ev)])
          else with_debouncer (Draining.step (debouncer s) (Draining.ARun i)) s
      | None => s
      end
  | Run i =>
      match publishing i s with
      | Some (id, (_, ev)) =>
          if bool_decide (i ∈ acked s) then
            mkMon (Draining.step (debouncer s) (Draining.ARun i)) (recordPublished ev (state s))
              (callbacks s) (acked s ∖ {[ i ]}) (sent s)
          else s
      | None => with_debouncer (Draining.step (debouncer s) (Draining.ARun i)) s
      end
  | Shutdown order => with_debouncer (Draining.step (debouncer s) (Draining.AStop order)) s
  end.

Definition mruns (n : nat) (l : list mact) : mon := fold_left mstep l (mon_init n).

(** The last event the transport has, as [lastPublished] keeps it. *)
Definition published_view (o : option StatusEvent) : option StatusEvent :=
  match o with Some ev => if EvStatus ev =s? DELETED then None else Some ev | None => None end.

Definition mfair (a : mact) : Prop :=
  match a with Shutdown order => ∀ l, order l ≡ₚ l | _ => True end.

Record minv (s : mon) : Prop := {
  minv_deb : Draining.inv (debouncer s);
  minv_acked i : i ∈ acked s → is_Some (publishing i s);
  minv_key id n ev : (id, (n, ev)) ∈ Draining.accepted (debouncer s) → InstanceID ev = id;
  minv_tags : (Draining.accepted (debouncer s)).*2.*1 = seq 0 (length (Draining.accepted (debouncer s)));
  minv_sent_key id ev : (id, ev) ∈ sent s → InstanceID ev = id;
  minv_published id :
    (∀ i n ev, i ∈ acked s → publishing i s ≠ Some (id, (n, ev))) →
    lastPublished (state s) !! id = published_view (last (proj id (sent s)));
  minv_acked_last i id n ev : i ∈ acked s → publishing i s = Some (id, (n, ev)) → last (proj id (sent s)) = Some ev
}.
Lemma mon_init_inv n : minv (mon_init n).
Proof.
  split; simpl; [apply Draining.init_inv|set_solver|set_solver|done|set_solver|done|set_solver].
Qed.

Lemma minv_event s i id n ev : minv s → publishing i s = Some (id, (n, ev)) → InstanceID ev = id.
Proof.
  intros Hinv. unfold publishing. intros (th & Hi & Hp)%bind_Some. apply (minv_key s Hinv id n).
  by eapply publishing_accepted; [apply Hinv|..].
Qed.

(** Steps that leave the goroutines that are publishing alone. *)
Lemma minv_frame s d m cb :
  minv s → Draining.inv d → lastPublished m = lastPublished (state s) →
  Draining.accepted d = Draining.accepted (debouncer s) →
  (∀ i, i ∈ acked s → Draining.threads d !! i ≫= Draining.publishes = publishing i s) →
  minv (mkMon d m cb (acked s) (sent s)).
Proof.
  intros Hinv Hd Hm Ha Ht. split; simpl; unfold publishing; simpl; rewrite ?Ha, ?Hm; try apply Hinv; try done.
  - intros i Hi. rewrite (Ht i Hi). by apply Hinv.
  - intros id Hn. apply (minv_published s Hinv). intros i n ev Hi. rewrite <-(Ht i Hi). by apply Hn.
  - intros i id n ev Hi. rewrite (Ht i Hi). by apply Hinv.
Qed.

Lemma observe_inv s g ev : minv s → minv (mstep s (Observe g ev)).
Proof.
  intros Hinv. simpl. destruct (callbacks s !! g) as [[]|]; [done| |done].
  destruct (submitIfChanged ev (state s)) as [b m] eqn:Hs.
  apply minv_frame; [done|apply Hinv| |done..]. unfold submitIfChanged in Hs. cases_in Hs; done.
Qed.

Lemma submitted_inv s g :
  minv s → Z.of_nat (length (Draining.accepted (debouncer s))) + 1 < 2 ^ 64 → minv (mstep s (Submitted g)).
Proof.
  intros Hinv Hn. simpl. destruct (callbacks s !! g) as [[ev|]|]; [|done..].
  set (d := debouncer s). set (x := (length (Draining.accepted d), ev)).
  assert (Draining.inv (Draining.step d (Draining.ASubmit (InstanceID ev) x))) as Hd.
  { apply Draining.submit_inv; [apply Hinv|]. fold d in Hn. lia. }
  pose proof (submit_accepted d (InstanceID ev) x) as Ha. pose proof (submit_threads d (InstanceID ev) x) as Ht.
  revert Hd Ha Ht. generalize (Draining.step d (Draining.ASubmit (InstanceID ev) x)) as d'. intros d' Hd Ha Ht.
  split; simpl; unfold publishing; simpl; rewrite ?Ht; try apply Hinv; try done; rewrite ?Ha.
  - intros id n ev'. destruct (Draining.stopped _); [apply Hinv|].
    intros [H|H%list_elem_of_singleton]%elem_of_app; [by apply Hinv in H|unfold x in H; congruence].
  - destruct (Draining.stopped _); [apply Hinv|]. rewrite length_app. simpl. rewrite Nat.add_1_r, seq_S, !fmap_app.
    unfold d. rewrite (minv_tags s Hinv). done.
Qed.

Lemma run_silent_inv s i :
  minv s → i ∉ acked s → minv (with_debouncer (Draining.step (debouncer s) (Draining.ARun i)) s).
Proof.
  intros Hinv Hi. apply minv_frame; try done.
  - apply run_step_inv, Hinv.
  - by apply internal_accepted.
  - intros j Hj. unfold publishing. rewrite run_other; [done|]. by intros ->.
Qed.

Lemma acked_serial s i j id x y :
  minv s → i ≠ j → publishing i s = Some (id, x) → publishing j s = Some (id, y) → False.
Proof.
  intros Hinv Hne. unfold publishing. intros (ti & Hi & Hpi)%bind_Some (tj & Hj & Hpj)%bind_Some.
  by eapply (Draining.publish_serial (debouncer s) i j); [apply Hinv|..].
Qed.

Lemma publish_inv s i id n ev :
  minv s → publishing i s = Some (id, (n, ev)) → i ∉ acked s →
  minv (mkMon (debouncer s) (state s) (callbacks s) ({[ i ]} ∪ acked s) (sent s ++ [(InstanceID ev, ev)])).
Proof.
  intros Hinv Hp Hi. pose proof (minv_event s i id n ev Hinv Hp) as Hid. rewrite Hid.
  split; simpl; try apply Hinv.
  - intros j [->%elem_of_singleton|Hj]%elem_of_union; [done|by apply Hinv].
  - intros id' ev'. intros [H|H%list_elem_of_singleton]%elem_of_app; [by apply Hinv in H|congruence].
  - intros id' Hno. rewrite proj_snoc. case_decide as Heq.
    + subst id'. destruct (Hno i n ev); [set_solver|done].
    + apply (minv_published s Hinv). intros j n' ev' Hj. apply Hno. set_solver.
  - intros j id' n' ev' Hj Hpj. rewrite proj_snoc. destruct (decide (i = j)) as [<-|Hne].
    + unfold publishing in *. simpl in *. rewrite Hp in Hpj. simplify_eq. by rewrite decide_True, last_snoc.
    + rewrite decide_False; [apply (minv_acked_last s Hinv j id' n' ev'); [set_solver|done]|].
      intros ->. by eapply (acked_serial s i j).
Qed.

Lemma record_published ev m id :
  lastPublished (recordPublished ev m) !! id =
  if decide (InstanceID ev = id) then published_view (Some ev) else lastPublished m !! id.
Proof.
  unfold recordPublished, published_view. case_decide as H.
  - subst. destruct (_ =s? _); simpl; [apply lookup_delete_eq|apply lookup_insert_eq].
  - destruct (_ =s? _); simpl; [by apply lookup_delete_ne|by apply lookup_insert_ne].
Qed.

Lemma record_inv s i id n ev :
  minv s → publishing i s = Some (id, (n, ev)) → i ∈ acked s →
  minv (mkMon (Draining.step (debouncer s) (Draining.ARun i)) (recordPublished ev (state s))
          (callbacks s) (acked s ∖ {[ i ]}) (sent s)).
Proof.
  intros Hinv Hp Hi. pose proof (minv_event s i id n ev Hinv Hp) as Hid.
  assert (∀ j, j ≠ i → Draining.threads (Draining.step (debouncer s) (Draining.ARun i)) !! j ≫= Draining.publishes
                      = publishing j s) as Hother.
  { intros j Hne. unfold publishing. by rewrite run_other. }
  assert (Draining.accepted (Draining.step (debouncer s) (Draining.ARun i)) = Draining.accepted (debouncer s)) as Ha
    by (by apply internal_accepted).
  assert (Draining.inv (Draining.step (debouncer s) (Draining.ARun i))) as Hd by (apply run_step_inv, Hinv).
  revert Hother Ha Hd. generalize (Draining.step (debouncer s) (Draining.ARun i)) as d. intros d Hother Ha Hd.
  split; simpl; unfold publishing; simpl; rewrite ?Ha; try apply Hinv; try done.
  - intros j [Hj Hne]%elem_of_difference. rewrite Hother by set_solver. by apply Hinv.
  - intros id' Hno. rewrite record_published, Hid. case_decide as Heq.
    + subst id'. by rewrite (minv_acked_last s Hinv i id n ev Hi Hp).
    + apply (minv_published s Hinv). intros j n' ev' Hj Hpj. destruct (decide (j = i)) as [->|Hne]; [congruence|].
      apply (Hno j n' ev'); [set_solver|]. by rewrite Hother.
  - intros j id' n' ev' [Hj Hne]%elem_of_difference. rewrite Hother by set_solver. by apply Hinv.
Qed.

Lemma mstep_inv s a :
  minv s → mfair a → Z.of_nat (length (Draining.accepted (debouncer s))) + 1 < 2 ^ 64 → minv (mstep s a).
Proof.
  intros Hinv Hf Hn. destruct a as [g ev|g|h|i pub dn max|i|order].
  - by apply observe_inv.
  - by apply submitted_inv.
  - apply minv_frame; [done|apply Draining.fire_inv, Hinv|done|by apply internal_accepted|].
    intros i _. apply fire_threads.
  - simpl. destruct (publishing i s) as [[id [n ev]]|] eqn:Hp; [|done].
    case_bool_decide; [done|]. destruct (_.2); [by eapply publish_inv|by apply run_silent_inv].
  - simpl. destruct (publishing i s) as [[id [n ev]]|] eqn:Hp.
    + case_bool_decide; [by eapply record_inv|done].
    + apply run_silent_inv; [done|]. intros Hi%(minv_acked s Hinv). rewrite Hp in Hi. by destruct Hi.
  - apply minv_frame; [done|by apply Draining.stop_inv; [|apply Hinv]|done|by apply internal_accepted|].
    intros i _. apply stop_threads.
Qed.

(** ** Convergence of the published status *)

Lemma mstep_accepted s a :
  (length (Draining.accepted (debouncer (mstep s a))) ≤ S (length (Draining.accepted (debouncer s))))%nat.
Proof.
  pose proof (λ a, Draining.accepted_length a (debouncer s)) as H.
  destruct a as [g ev|g|h|i pub dn max|i|order]; simpl; try apply H.
  - cases; simpl; lia.
  - cases; [apply H|lia..].
  - cases; simpl; try lia; apply H.
  - cases; simpl; try lia; apply H.
Qed.

Lemma mruns_inv l s :
  minv s → Forall mfair l →
  Z.of_nat (length (Draining.accepted (debouncer s))) + Z.of_nat (length l) < 2 ^ 64 →
  minv (fold_left mstep l s).
Proof.
  revert s. induction l as [|a l IH]; intros s Hinv Hf Hn; [done|]. cbn [fold_left].
  apply Forall_cons in Hf as [Ha Hf]. pose proof (mstep_accepted s a). simpl in Hn.
  apply IH; [|done|lia]. apply mstep_inv; [done..|lia].
Qed.

(** Nothing is pending: no callback, timer or goroutine has work left. *)
Definition rest (s : mon) : Prop :=
  Draining.quiescent (debouncer s) ∧ Forall (λ c, c = None) (callbacks s).

(** The system's own actions; publishing succeeds within its attempts. *)
Definition settles (a : mact) : Prop :=
  match a with
  | Submitted _ | Fire _ | Run _ => True
  | PublishCall _ publish ctx_done max => (publishWithRetry publish ctx_done max).2 = true
  | _ => False
  end.

Section Since.
(** Progress since [s0] for instance [id], where goroutine [g] is about to
    submit [ev]. *)
Context (s0 : mon) (g : nat) (ev : StatusEvent).
#[local] Abbreviation id := (InstanceID ev).
#[local] Abbreviation N0 := (length (Draining.accepted (debouncer s0))).

Definition idle (s : mon) : Prop := ∀ i n e, i ∈ acked s → publishing i s ≠ Some (id, (n, e)).

Record since (s : mon) : Prop := {
  since_sent : ∃ D K,
    proj id (Draining.delivered (debouncer s)) = proj id (Draining.delivered (debouncer s0)) ++ D ∧
    proj id (sent s) = proj id (sent s0) ++ D.*2 ++ K ∧
    ((K = [] ∧ idle s) ∨ ∃ i n e, i ∈ acked s ∧ publishing i s = Some (id, (n, e)) ∧ K = [e]);
  since_stopped : Draining.stopped (Draining.deb (debouncer s)) = false;
  since_accepted :
    (callbacks s = <[g := Some ev]> (callbacks s0) ∧ Draining.accepted (debouncer s) = Draining.accepted (debouncer s0)) ∨
    (callbacks s = callbacks s0 ∧
     Draining.accepted (debouncer s) = Draining.accepted (debouncer s0) ++ [(id, (N0, ev))])
}.

(** Steps that touch neither the transport nor the publishing goroutines. *)
Lemma since_frame s d cb :
  since s → proj id (Draining.delivered d) = proj id (Draining.delivered (debouncer s)) →
  Draining.stopped (Draining.deb d) = false →
  (∀ i, i ∈ acked s → Draining.threads d !! i ≫= Draining.publishes = publishing i s) →
  ((callbacks s = cb ∧ Draining.accepted d = Draining.accepted (debouncer s)) ∨
   (cb = callbacks s0 ∧ Draining.accepted d = Draining.accepted (debouncer s0) ++ [(id, (N0, ev))])) →
  since (mkMon d (state s) cb (acked s) (sent s)).
Proof.
  intros Hs Hd Hst Ht Hacc. split; simpl; [|done|].
  - destruct (since_sent s Hs) as (D & K & HD & HK & Hcase). exists D, K. rewrite Hd. split_and!; [done..|].
    unfold idle, publishing in *. simpl. destruct Hcase as [[-> Hi]|(i & n & e & Hi & Hp & ->)]; [left|right].
    + split; [done|]. intros i n e Hi'. rewrite (Ht i Hi'). by apply Hi.
    + exists i, n, e. by rewrite (Ht i Hi).
  - destruct Hacc as [[<- ->]|?]; [apply Hs|by right].
Qed.

Context (Hidle0 : Forall (λ c, c = None) (callbacks s0)) (Hg : callbacks s0 !! g = Some None).

Lemma since_submitted s g' : since s → since (mstep s (Submitted g')).
Proof.
  intros Hs. simpl. destruct (callbacks s !! g') as [[e|]|] eqn:Hg'; [|done..].
  destruct (since_accepted s Hs) as [[Hcb Ha]|[Hcb _]].
  - rewrite Hcb in Hg'. apply list_lookup_insert_Some in Hg' as [(<- & [= ->] & Hlt)|[_ Hg']].
    + rewrite Ha. apply (since_frame s); [done| | | |].
      * by rewrite other_delivered.
      * rewrite step_stopped by done. apply Hs.
      * intros i _. by rewrite submit_threads.
      * right. rewrite Hcb, list_insert_insert_eq, submit_accepted, (since_stopped s Hs), Ha.
        split; [by apply list_insert_id|].
        congruence.
    + rewrite Forall_lookup in Hidle0. by apply Hidle0 in Hg'.
  - rewrite Hcb in Hg'. rewrite Forall_lookup in Hidle0. by apply Hidle0 in Hg'.
Qed.

Lemma since_publish s i id' n e :
  minv s → since s → publishing i s = Some (id', (n, e)) → i ∉ acked s →
  since (mkMon (debouncer s) (state s) (callbacks s) ({[ i ]} ∪ acked s) (sent s ++ [(InstanceID e, e)])).
Proof.
  intros Hinv Hs Hp Hi. pose proof (minv_event s i id' n e Hinv Hp) as Hid.
  split; simpl; [|apply Hs..]. destruct (since_sent s Hs) as (D & K & HD & HK & Hcase).
  rewrite Hid, proj_snoc. case_decide as Heq.
  - rewrite Heq in Hp. destruct Hcase as [[-> Hidle]|(j & m & e' & Hj & Hpj & _)].
    + exists D, [e]. rewrite app_nil_r in HK. split_and!; [done|by rewrite HK, <-app_assoc|].
      right. exists i, n, e. split_and!; [set_solver|exact Hp|done].
    + exfalso. eapply (acked_serial s i j); [done| |exact Hp|exact Hpj]. by intros ->.
  - exists D, K. split_and!; [done..|]. destruct Hcase as [[-> Hidle]|(j & m & e' & Hj & Hpj & ->)]; [left|right].
    + split; [done|]. intros j m e' [->%elem_of_singleton|Hj]%elem_of_union; [|by apply Hidle].
      unfold publishing in *. simpl. rewrite Hp. congruence.
    + exists j, m, e'. split_and!; [set_solver|exact Hpj|done].
Qed.

Lemma since_record s i id' n e :
  minv s → since s → publishing i s = Some (id', (n, e)) → i ∈ acked s →
  since (mkMon (Draining.step (debouncer s) (Draining.ARun i)) (recordPublished e (state s))
           (callbacks s) (acked s ∖ {[ i ]}) (sent s)).
Proof.
  intros Hinv Hs Hp Hi.
  assert (∀ j, j ≠ i → Draining.threads (Draining.step (debouncer s) (Draining.ARun i)) !! j ≫= Draining.publishes
                      = publishing j s) as Hother.
  { intros j Hne. unfold publishing. by rewrite run_other. }
  split; simpl.
  - destruct (since_sent s Hs) as (D & K & HD & HK & Hcase). rewrite run_delivered.
    unfold publishing in Hp. rewrite Hp. simpl. rewrite proj_snoc. case_decide as Heq.
    + subst id'. destruct Hcase as [[-> Hidle]|(j & m & e' & Hj & Hpj & ->)]; [by destruct (Hidle i n e Hi)|].
      destruct (decide (j = i)) as [->|Hne]; [|exfalso; by eapply (acked_serial s j i)].
      unfold publishing in Hpj. rewrite Hp in Hpj. simplify_eq.
      exists (D ++ [(m, e')]), []. rewrite HD, HK, fmap_app, app_nil_r, !app_assoc. split_and!; [done..|left].
      split; [done|]. intros j m2 e2 [Hj' Hne]%elem_of_difference. unfold publishing. simpl.
      rewrite Hother by set_solver. intros Hpj'. eapply (acked_serial s i j); [done|set_solver|exact Hp|exact Hpj'].
    + exists D, K. split_and!; [done..|]. destruct Hcase as [[-> Hidle]|(j & m & e' & Hj & Hpj & ->)]; [left|right].
      * split; [done|]. intros j m e' [Hj' Hne]%elem_of_difference. unfold publishing. simpl.
        rewrite Hother by set_solver. by apply Hidle.
      * assert (j ≠ i) as Hne by (intros ->; unfold publishing in Hpj; congruence).
        exists j, m, e'. split; [set_solver|]. unfold publishing. simpl. by rewrite Hother.
  - rewrite step_stopped by done. apply Hs.
  - rewrite internal_accepted by done. apply Hs.
Qed.

Lemma since_step s a : minv s → since s → settles a → since (mstep s a).
Proof.
  intros Hinv Hs Ha. destruct a as [g' e|g'|h|i pub dn max|i|order]; [done| | | | |done].
  - by apply since_submitted.
  - apply since_frame; [done|by rewrite other_delivered| | |left; split; [done|by rewrite internal_accepted]].
    + rewrite step_stopped by done. apply Hs.
    + intros i _. apply fire_threads.
  - simpl in *. destruct (publishing i s) as [[id' [n e]]|] eqn:Hp; [|done].
    case_bool_decide; [done|]. rewrite Ha. by eapply since_publish.
  - simpl. destruct (publishing i s) as [[id' [n e]]|] eqn:Hp.
    + case_bool_decide; [by eapply since_record|done].
    + apply since_frame; [done| | | |left; split; [done|by rewrite internal_accepted]].
      * rewrite run_delivered. unfold publishing in Hp. rewrite Hp. simpl. by rewrite app_nil_r.
      * rewrite step_stopped by done. apply Hs.
      * intros j Hj. unfold publishing. destruct (decide (i = j)) as [<-|Hne]; [|by rewrite run_other].
        apply (minv_acked s Hinv) in Hj. rewrite Hp in Hj. by destruct Hj.
Qed.

End Since.
Lemma rest_publishing s i : rest s → publishing i s = None.
Proof.
  intros [[_ Hq] _]. unfold publishing. destruct (Draining.threads (debouncer s) !! i) as [th|] eqn:Hi; [|done].
  rewrite Forall_lookup in Hq. by rewrite (Hq i th Hi).
Qed.

Lemma rest_published s id :
  minv s → rest s → lastPublished (state s) !! id = published_view (last (proj id (sent s))).
Proof.
  intros Hinv Hr. apply (minv_published s Hinv). intros i n ev _. by rewrite (rest_publishing s i Hr).
Qed.

Lemma since_run l g ev s0 s :
  Forall (λ c, c = None) (callbacks s0) → callbacks s0 !! g = Some None →
  minv s → since s0 g ev s → Forall settles l →
  Z.of_nat (length (Draining.accepted (debouncer s))) + Z.of_nat (length l) < 2 ^ 64 →
  minv (fold_left mstep l s) ∧ since s0 g ev (fold_left mstep l s).
Proof.
  intros H0 Hg. revert s. induction l as [|a l IH]; intros s Hinv Hs Hl Hn; [done|]. cbn [fold_left].
  apply Forall_cons in Hl as [Ha Hl]. pose proof (mstep_accepted s a). simpl in Hn. apply IH; [| |done|lia].
  - apply mstep_inv; [done|by destruct a|lia].
  - by apply since_step.
Qed.

(** The last submission is published, because its number is new. *)
Lemma since_rest s0 g ev s :
  minv s0 → callbacks s0 !! g = Some None →
  minv s → since s0 g ev s → rest s → last (proj (InstanceID ev) (sent s)) = Some ev.
Proof.
  intros Hinv0 Hg Hinv Hs Hr. destruct (since_sent s0 g ev s Hs) as (D & K & HD & HK & Hcase).
  destruct Hcase as [[-> _]|(i & n & e & _ & Hp & _)]; [|by rewrite (rest_publishing s i Hr) in Hp].
  destruct (since_accepted s0 g ev s Hs) as [[Hcb _]|[_ Ha]].
  { destruct Hr as [_ Hr]. rewrite Hcb, Forall_lookup in Hr. pose proof (lookup_lt_Some _ _ _ Hg).
    by specialize (Hr g (Some ev) ltac:(by apply list_lookup_insert_eq)). }
  destruct (Draining.quiescent_latest (debouncer s) (InstanceID ev) (minv_deb s Hinv) (proj1 Hr)) as [Hst [_ Hl]].
  rewrite Hst, HD, Ha, proj_snoc, decide_True, last_snoc in Hl by done.
  pose proof Hl as [l' Hl']%last_Some. destruct D as [|x D'] eqn:ED.
  - exfalso. rewrite app_nil_r in Hl'.
    assert ((InstanceID ev, (length (Draining.accepted (debouncer s0)), ev)) ∈ Draining.accepted (debouncer s0)) as Hin.
    { apply elem_of_proj. eapply elem_of_sublist; [|apply (Draining.slot_sublist _ _ (Draining.inv_slot _ (minv_deb s0 Hinv0) _))].
      rewrite (Draining.inv_delivered _ (minv_deb s0 Hinv0)), Hl'. set_solver. }
    apply (list_elem_of_fmap_2 snd), (list_elem_of_fmap_2 fst) in Hin. rewrite (minv_tags s0 Hinv0) in Hin.
    apply elem_of_seq in Hin. simpl in Hin. lia.
  - rewrite <-ED in *. rewrite HK, app_nil_r. rewrite last_app.
    rewrite last_app in Hl. destruct (last D) as [y|] eqn:Ey; [|subst; by apply last_None in Ey].
    injection Hl as ->. by rewrite fmap_last, Ey.
Qed.

(** ** Termination of the system's own steps *)

Definition menabled (s : mon) (a : mact) : Prop :=
  match a with
  | Submitted g => ∃ ev, callbacks s !! g = Some (Some ev)
  | Fire h => is_Some (Draining.armed (debouncer s) !! h)
  | PublishCall i _ _ _ => is_Some (publishing i s) ∧ i ∉ acked s
  | Run i =>
      (is_Some (publishing i s) ∧ i ∈ acked s) ∨
      (publishing i s = None ∧ Draining.enabled (debouncer s) (Draining.ARun i))
  | _ => False
  end.

(** A run of enabled actions in which every [publishWithRetry] succeeds. *)
Fixpoint mrun (s : mon) (l : list mact) : Prop :=
  match l with [] => True | a :: l' => menabled s a ∧ settles a ∧ mrun (mstep s a) l' end.

Definition waiting (cb : list (option StatusEvent)) : nat := length (filter (λ c, c ≠ None) cb).

Definition measure (s : mon) : nat :=
  (2 * Draining.potential (debouncer s) + 18 * waiting (callbacks s) - size (acked s))%nat.

Lemma submit_potential {E} (d : Draining.sys E) id ev :
  Draining.inv d →
  (Draining.potential (Draining.step d (Draining.ASubmit id ev)) ≤ Draining.potential d + 8)%nat.
Proof.
  intros Hinv. pose proof (Draining.started_length d Hinv). unfold Draining.step, Draining.Submit.
  destruct (Draining.stopped (Draining.deb d)) eqn:Hst.
  { unfold Draining.potential. simpl. rewrite ?Hst. lia. }
  assert (∀ tm h (ts : timers) x, (size (fold_left timer_do
    (match tm with Some t => [StopTimer t] | None => [] end ++ [AfterFunc h x.1 x.2]) ts) ≤ S (size ts))%nat) as Hsize.
  { intros tm h ts x. assert (∀ ts : timers, (size (<[h := (x.1, x.2)]> ts) ≤ S (size ts))%nat) as Hi.
    { intros ts'. rewrite map_size_insert. destruct (ts' !! h); simpl; lia. }
    destruct tm as [t|]; simpl; [|apply Hi]. etrans; [apply Hi|]. apply le_n_S.
    rewrite map_size_delete. destruct (ts !! t); simpl; lia. }
  destruct (default false _); unfold Draining.potential; simpl; rewrite ?Hst, ?length_app; simpl; [lia|].
  specialize (Hsize (Draining.instances (Draining.deb d) !! id ≫= Draining.timer) (Draining.next d)
    (Draining.armed d) (id, wrapU64 (default 0 (Draining.ver <$> Draining.instances (Draining.deb d) !! id) + 1))).
  simpl in Hsize. lia.
Qed.

Lemma publishing_weight {E} (ths : list (Draining.thread E)) (X : gset nat) :
  (∀ i, i ∈ X → is_Some (ths !! i ≫= Draining.publishes)) → (size X ≤ Draining.weights ths)%nat.
Proof.
  revert X. induction ths as [|th ths IH] using rev_ind; intros X HX.
  - assert (X = ∅) as ->; [|rewrite size_empty; lia]. apply elem_of_equiv_empty_L. intros i Hi. by destruct (HX i Hi).
  - unfold Draining.weights in *. rewrite sum_list_with_app. simpl.
    assert (size (X ∖ {[ length ths ]}) ≤ sum_list_with Draining.weight ths)%nat as Hle.
    { apply IH. intros i [Hi Hne]%elem_of_difference. specialize (HX i Hi).
      assert (i ≠ length ths) as Hne' by set_solver.
      destruct (decide (i < length ths)%nat); [by rewrite lookup_app_l in HX|].
      rewrite lookup_app_r in HX by lia. destruct (i - length ths)%nat as [|k] eqn:Ek; [lia|]. by destruct HX. }
    destruct (decide (length ths ∈ X)) as [Hin|Hout].
    + specialize (HX _ Hin). rewrite list_lookup_middle in HX by done. simpl in HX.
      rewrite size_difference in Hle by set_solver. rewrite size_singleton in Hle.
      destruct th; simpl in *; try (by destruct HX); lia.
    + replace (X ∖ {[length ths]}) with X in Hle by set_solver. lia.
Qed.

Lemma acked_potential s : minv s → (size (acked s) ≤ Draining.potential (debouncer s))%nat.
Proof.
  intros Hinv. etrans; [apply (publishing_weight (Draining.threads (debouncer s)))|unfold Draining.potential; lia].
  apply (minv_acked s Hinv).
Qed.

Lemma waiting_insert cb g x y :
  cb !! g = Some x → (waiting (<[g := y]> cb) + (if decide (x = None) then 0 else 1)
                      = waiting cb + (if decide (y = None) then 0 else 1))%nat.
Proof.
  intros Hg. unfold waiting. rewrite <-(take_drop_middle cb g x Hg) at 2.
  rewrite insert_take_drop by (by eapply lookup_lt_Some).
  rewrite !filter_app, !filter_cons, !length_app. repeat case_decide; simpl; subst; try done; lia.
Qed.

Lemma mstep_decreases s a : minv s → menabled s a → settles a → (measure (mstep s a) < measure s)%nat.
Proof.
  intros Hinv He Ha. pose proof (acked_potential s Hinv) as Hak.
  assert (∀ i, Draining.enabled (debouncer s) (Draining.ARun i) →
    (Draining.potential (Draining.step (debouncer s) (Draining.ARun i)) < Draining.potential (debouncer s))%nat) as Hrun.
  { intros i Hi. apply Draining.internal_decreases; [apply Hinv|done]. }
  assert (∀ i, is_Some (publishing i s) → Draining.enabled (debouncer s) (Draining.ARun i)) as Hpe.
  { intros i [x (th & Hi & Hp)%bind_Some]. simpl. rewrite Hi. by destruct th. }
  destruct a as [g e|g|h|i pub dn max|i|order]; [done| | | | |done]; unfold measure; simpl in *.
  - destruct He as [ev Hg]. rewrite Hg. simpl.
    pose proof (submit_potential (debouncer s) (InstanceID ev) (length (Draining.accepted (debouncer s)), ev) (minv_deb s Hinv)).
    pose proof (waiting_insert (callbacks s) g (Some ev) None Hg) as Hw. rewrite decide_False, decide_True in Hw by done. lia.
  - pose proof (Draining.internal_decreases (debouncer s) (Draining.AFire h) (minv_deb s Hinv) He) as [_ ?]. lia.
  - destruct He as [[[id [n ev]] Hp] Hi]. rewrite Hp, bool_decide_false, Ha by done. simpl.
    rewrite size_union, size_singleton by set_solver.
    assert (S (size (acked s)) ≤ Draining.potential (debouncer s))%nat as Hs; [|lia].
    etrans; [|apply (acked_potential _ (publish_inv s i id n ev Hinv Hp Hi))]. simpl.
    by rewrite size_union, size_singleton by set_solver.
  - destruct He as [[[[id [n ev]] Hp] Hi]|[Hp He]]; rewrite Hp; simpl.
    + rewrite bool_decide_true by done. simpl. specialize (Hrun i (Hpe i (mk_is_Some _ _ Hp))).
      rewrite size_difference, size_singleton by set_solver. lia.
    + specialize (Hrun i He). lia.
Qed.

Lemma blocked_rest s : minv s → (∀ a, ¬ menabled s a) → rest s.
Proof.
  intros Hinv Hno. split.
  - apply Draining.blocked_quiescent; [apply Hinv|]. intros [id ev|h|i|order] He; [done| | |done].
    + by apply (Hno (Fire h)).
    + destruct (publishing i s) as [x|] eqn:Hp; [|apply (Hno (Run i)); by right].
      destruct (decide (i ∈ acked s)); [apply (Hno (Run i)); left|apply (Hno (PublishCall i (λ _, true) (λ _, false) 1))];
        (split; [by rewrite Hp|done]).
  - apply Forall_lookup. intros g [ev|] Hg; [|done]. destruct (Hno (Submitted g)). by exists ev.
Qed.

Lemma mruns_accepted n l : Z.of_nat (length (Draining.accepted (debouncer (mruns n l)))) ≤ Z.of_nat (length l).
Proof.
  unfold mruns. induction l as [|a l IH] using rev_ind; [simpl; lia|].
  rewrite fold_left_app, length_app. simpl. pose proof (mstep_accepted (fold_left mstep l (mon_init n)) a). lia.
Qed.

Lemma rest_blocked s a : rest s → ¬ menabled s a.
Proof.
  intros Hr He.
  pose proof (λ i, rest_publishing s i Hr) as Hp. destruct Hr as [[Ha Hq] Hcb].
  rewrite Forall_lookup in Hq. rewrite Forall_lookup in Hcb.
  destruct a as [g e|g|h|i pub dn max|i|order]; simpl in He; rewrite ?Hp in He; try done.
  - destruct He as [ev Hg]. by apply Hcb in Hg.
  - rewrite Ha, lookup_empty in He. by destruct He.
  - by destruct He as [[]].
  - destruct He as [[[] _]|[_ He]]; [done|]. destruct (_ !! i) as [th|] eqn:Hi; [|done]. by rewrite (Hq i th Hi) in He.
Qed.

Lemma rest_mrun s l : rest s → mrun s l → l = [].
Proof. intros Hr. destruct l as [|a l]; [done|]. intros [He _]. by apply rest_blocked in He. Qed.

(** A dropped event is the one the transport has. *)
Lemma unchanged_sent s ev m :
  minv s → rest s → submitIfChanged ev (state s) = (false, m) →
  (∀ last, lastSubmitted (state s) !! InstanceID ev = Some last → suppress last ev = false) →
  last (proj (InstanceID ev) (sent s)) = Some ev.
Proof.
  intros Hinv Hr Hs Hsup. unfold submitIfChanged in Hs.
  destruct (lastPublished (state s) !! InstanceID ev) as [prev|] eqn:Hprev.
  2: { destruct (lastSubmitted (state s) !! InstanceID ev) as [x|] eqn:Hx; [rewrite (Hsup x eq_refl) in Hs|]; done. }
  destruct (_ && _) eqn:Hsame.
  2: { destruct (lastSubmitted (state s) !! InstanceID ev) as [x|] eqn:Hx; [rewrite (Hsup x eq_refl) in Hs|]; done. }
  breflect. rewrite (rest_published s _ Hinv Hr) in Hprev.
  destruct (last (proj (InstanceID ev) (sent s))) as [e|] eqn:Hl; [|done].
  apply last_Some in Hl as [k Hk]. assert (InstanceID e = InstanceID ev) as Hid.
  { apply (minv_sent_key s Hinv). apply elem_of_proj. rewrite Hk. set_solver. }
  unfold published_view in Hprev. destruct (_ =s? DELETED); [done|]. simplify_eq.
  f_equal. destruct ev, prev; simpl in *; congruence.
Qed.

Lemma mrun_bound s l :
  minv s → mrun s l → Z.of_nat (length (Draining.accepted (debouncer s))) + Z.of_nat (length l) < 2 ^ 64 →
  (length l ≤ measure s)%nat ∧ Forall settles l.
Proof.
  revert s. induction l as [|a l IH]; intros s Hinv Hr Hn; [simpl; split; [lia|constructor]|].
  destruct Hr as (He & Ha & Hr). pose proof (mstep_decreases s a Hinv He Ha). pose proof (mstep_accepted s a).
  simpl in Hn. destruct (IH (mstep s a)) as [Hlen Hall]; [|done|lia|simpl; split; [lia|by constructor]].
  apply mstep_inv; [done|by destruct a|lia].
Qed.

Lemma observe_since s g ev :
  callbacks s !! g = Some None → Draining.stopped (Draining.deb (debouncer s)) = false → rest s →
  since s g ev (mkMon (debouncer s) (submitIfChanged ev (state s)).2 (<[g := Some ev]> (callbacks s)) (acked s) (sent s)).
Proof.
  intros Hg Hst Hr. split; simpl; [|done|by left]. exists [], []. rewrite !app_nil_r. split_and!; [done..|left].
  split; [done|]. intros i n e _. unfold publishing. simpl. pose proof (rest_publishing s i Hr) as Hp.
  unfold publishing in Hp. by rewrite Hp.
Qed.

(** The published status converges.  Take a monitor at rest in any reachable
    state, and let one informer callback report the event of an instance's
    current state (as a resync does).  However timers and goroutines are then
    scheduled, they stop after a bounded number of steps, and when they have
    stopped, provided publishing succeeds within its attempts, the last event
    the transport has for that instance is exactly the reported one and the
    monitor's own record agrees.  (The storage monitor's guard against
    downgrading a failure is the hypothesis on [suppress].) *)
Lemma status_converges (n : nat) (l : list mact) (g : nat) (ev : StatusEvent) (l' : list mact) :
  Forall mfair l → Z.of_nat (length l) + Z.of_nat (length l') + 1 < 2 ^ 64 →
  let s := mruns n l in
  rest s → Draining.stopped (Draining.deb (debouncer s)) = false → callbacks s !! g = Some None →
  (∀ last, lastSubmitted (state s) !! InstanceID ev = Some last → suppress last ev = false) →
  let s1 := mstep s (Observe g ev) in
  mrun s1 l' →
  let s' := fold_left mstep l' s1 in
  (length l' ≤ measure s1)%nat ∧
  ((∀ a, ¬ menabled s' a) →
     last (proj (InstanceID ev) (sent s')) = Some ev ∧
     lastPublished (state s') !! InstanceID ev = published_view (Some ev)).
Proof.
  intros Hf Hn s Hr Hst Hg Hsup s1 Hrun s'.
  assert (Z.of_nat (length (Draining.accepted (debouncer s))) ≤ Z.of_nat (length l)) as Hacc by apply mruns_accepted.
  assert (minv s) as Hinv by (apply mruns_inv; [apply mon_init_inv|done|simpl; lia]).
  assert (minv s1) as Hinv1 by (by apply observe_inv).
  assert (Draining.accepted (debouncer s1) = Draining.accepted (debouncer s)) as Ha1.
  { unfold s1. simpl. rewrite Hg. by destruct (submitIfChanged _ _). }
  destruct (mrun_bound s1 l' Hinv1 Hrun ltac:(rewrite Ha1; lia)) as [Hlen Hall]. split; [done|]. intros Hblocked.
  assert (minv s') as Hinv'.
  { apply mruns_inv; [done| |rewrite Ha1; lia]. eapply Forall_impl; [done|]. by intros []. }
  pose proof (blocked_rest s' Hinv' Hblocked) as Hr'.
  enough (last (proj (InstanceID ev) (sent s')) = Some ev) as Hl
    by (split; [done|]; by rewrite (rest_published s' _ Hinv' Hr'), Hl).
  destruct (submitIfChanged ev (state s)) as [[] m] eqn:Hs.
  - pose proof (observe_since s g ev Hg Hst Hr) as Hsince. rewrite Hs in Hsince.
    assert (s1 = mkMon (debouncer s) m (<[g := Some ev]> (callbacks s)) (acked s) (sent s)) as Hs1.
    { unfold s1. simpl. by rewrite Hg, Hs. }
    simpl in Hsince. rewrite <-Hs1 in Hsince.
    destruct (since_run l' g ev s s1 (proj2 Hr) Hg Hinv1 Hsince Hall ltac:(rewrite Ha1; lia)) as [_ Hsince'].
    eapply (since_rest s g ev s'); done.
  - assert (s1 = s) as Hs1.
    { unfold s1. simpl. rewrite Hg, Hs. unfold submitIfChanged in Hs. cases_in Hs; by destruct s. }
    assert (l' = []) as -> by (apply (rest_mrun s); [done|by rewrite <-Hs1]).
    unfold s'. simpl. rewrite Hs1. by apply (unchanged_sent s ev m).
Qed.

Lemma mruns_callbacks n l : length (callbacks (mruns n l)) = n.
Proof.
  unfold mruns. induction l as [|a l IH] using rev_ind; [simpl; apply length_replicate|].
  rewrite fold_left_app. simpl. rewrite <-IH at 2. generalize (fold_left mstep l (mon_init n)). intros s.
  destruct a; simpl; cases; simpl; rewrite ?length_insert; done.
Qed.

Lemma rest_callback n l g : rest (mruns n l) → (g < n)%nat → callbacks (mruns n l) !! g = Some None.
Proof.
  intros [_ Hc] Hg. destruct (lookup_lt_is_Some_2 (callbacks (mruns n l)) g) as [c Hl]; [by rewrite mruns_callbacks|].
  rewrite Hl. f_equal. exact (Forall_lookup_1 _ _ _ _ Hc Hl).
Qed.

(** What holds of every observed event holds of every published one. *)
Record mall (P : StatusEvent → Prop) (s : mon) : Prop := {
  mall_callbacks g ev : callbacks s !! g = Some (Some ev) → P ev;
  mall_accepted id n ev : (id, (n, ev)) ∈ Draining.accepted (debouncer s) → P ev;
  mall_sent id ev : (id, ev) ∈ sent s → P ev
}.

Definition observes (P : StatusEvent → Prop) (a : mact) : Prop := match a with Observe _ ev => P ev | _ => True end.

Lemma mall_debouncer P s d : Draining.accepted d = Draining.accepted (debouncer s) → mall P s → mall P (with_debouncer d s).
Proof. intros Hd []. split; simpl; [done| |done]. by rewrite Hd. Qed.

Lemma mall_step P s a : minv s → mall P s → observes P a → mall P (mstep s a).
Proof.
  intros Hinv HP Ha. destruct a as [g ev|g|h|i publish ctx_done max|i|order]; simpl.
  - destruct (callbacks s !! g) as [[]|] eqn:Hg; try done. destruct (submitIfChanged ev (state s)) as [ch m].
    destruct HP as [Hc Hacc Hs]. split; simpl; [|done..]. intros g' ev'. destruct ch; [|by apply Hc].
    intros [(<- & [= <-] & _)|[_ ?]]%list_lookup_insert_Some; [done|by eapply Hc].
  - destruct (callbacks s !! g) as [[ev|]|] eqn:Hg; try done. destruct HP as [Hc Hacc Hs]. split; simpl; [| |done].
    + intros g' ev'. intros [(<- & [=] & _)|[_ ?]]%list_lookup_insert_Some. by eapply Hc.
    + intros id n ev'. rewrite submit_accepted. destruct (Draining.stopped _); [apply Hacc|].
      rewrite elem_of_app, list_elem_of_singleton. intros [?|[= -> -> ->]]; [by eapply Hacc|by eapply Hc].
  - apply mall_debouncer; [by apply internal_accepted|done].
  - destruct (publishing i s) as [[id [n ev]]|] eqn:Hp; [|done]. case_bool_decide; [done|].
    destruct (publishWithRetry _ _ _).2.
    + destruct HP as [Hc Hacc Hs]. split; simpl; [done..|]. intros id' ev'.
      rewrite elem_of_app, list_elem_of_singleton. intros [?|[= -> ->]]; [by eapply Hs|].
      unfold publishing in Hp. apply bind_Some in Hp as (th & Hth & Hth').
      eapply Hacc, publishing_accepted; [apply Hinv|done..].
    + apply mall_debouncer; [by apply internal_accepted|done].
  - destruct (publishing i s) as [[id [n ev]]|] eqn:Hp; [case_bool_decide; [|done]|].
    + destruct HP as [Hc Hacc Hs]. split; simpl; [done| |done]. by rewrite internal_accepted.
    + apply mall_debouncer; [by apply internal_accepted|done].
  - apply mall_debouncer; [by apply internal_accepted|done].
Qed.

Lemma sent_observed P n l :
  Forall mfair l → Z.of_nat (length l) < 2 ^ 64 → Forall (observes P) l → mall P (mruns n l).
Proof.
  intros Hf Hn HP.
  enough (∀ s, minv s → mall P s →
    Z.of_nat (length (Draining.accepted (debouncer s))) + Z.of_nat (length l) < 2 ^ 64 → mall P (fold_left mstep l s)) as H.
  { apply H; [apply mon_init_inv| |simpl; lia]. split; simpl; [|by intros ??? ?%elem_of_nil|by intros ?? ?%elem_of_nil].
    intros g ev Hg. apply lookup_replicate in Hg as [? _]. done. }
  clear Hn. induction l as [|a l IH]; intros s Hinv Hs Hn; [done|]. simpl in *.
  apply Forall_cons in Hf as [Hfa Hf]. apply Forall_cons in HP as [HPa HP]. pose proof (mstep_accepted s a).
  apply IH; [done|done| |by apply mall_step|lia]. apply mstep_inv; [done|done|lia].
Qed.

End Monitor.
