(* ===== verification/NetworkStore.v ===== *)
(** * The embedded network provider

    Models internal/openshift/network: the request types of
    api/network/v1alpha1, validation (validate/validate.go), the conversion
    between network specifications and Kubernetes Services
    (kubernetes/convert.go) and the store on the cluster's API
    (kubernetes/store*.go). *)

From S2P Require Import Prelude GoStrings Provider K8s.
#[local] Open Scope string_scope.
#[local] Open Scope Z_scope.

(** ** api/network/v1alpha1 *)

Record NetworkMetadata := mkNetMeta {
  nm_Labels : option (gmap string string);
  nm_Name : string;
  nm_Namespace : option string
}.

Record PortSpec := mkPort {
  p_Name : option string;
  p_NodePort : option Z;
  p_Port : Z;
  p_Protocol : option string;
  p_TargetPort : option Z
}.

Record KubernetesProviderHints := mkKHints {
  kh_ClusterIp : option string;
  kh_NodePorts : option (gmap string Z);
  kh_Selector : option (gmap string string)
}.

(** [ProviderHints] is the optional [Kubernetes] member; other members are kept
    by the JSON codec only. *)
Record NetworkSpec := mkNetSpec {
  ns_Metadata : NetworkMetadata;
  ns_Ports : list PortSpec;
  ns_ProviderHints : option (option KubernetesProviderHints);
  ns_RoutingLevel : option string;
  ns_ServiceType : string
}.

Record KubernetesState := mkKState {
  ks_ClusterIp : option string;
  ks_ExternalIps : option (list string);
  ks_Selector : option (gmap string string);
  ks_Type : option string
}.

Record Network := mkNetwork {
  n_CreateTime : option Z;
  n_Id : option string;
  n_Kubernetes : option KubernetesState;
  n_Path : option string;
  n_Spec : NetworkSpec;
  n_Status : option string;
  n_UpdateTime : option Z
}.

Record NetworkList := mkNetworkList { nl_NextPageToken : option string; nl_Results : option (list Network) }.

Definition RoutingLevel_Valid (e : string) : bool := (e =s? "application") || (e =s? "network").
Definition Protocol_Valid (e : string) : bool := (e =s? "TCP") || (e =s? "UDP").

(** The Kubernetes hints of a request, where present. *)
Definition hints (spec : NetworkSpec) : option KubernetesProviderHints := mjoin (ns_ProviderHints spec).

(** ** store/errors.go *)

Inductive net_error :=
  | NotFoundError (Resource ID : string)
  | ConflictError (Resource Field Value Message : string)
  | InvalidArgumentError (Field Message : string).

Definition net_error_text (e : net_error) : string :=
  match e with
  | NotFoundError r id => r ++ " " ++ Quote id ++ " not found"
  | ConflictError r f v m => if negb (m =s? "") then m else r ++ " with " ++ f ++ "=" ++ Quote v ++ " already exists"
  | InvalidArgumentError f m => "invalid " ++ f ++ ": " ++ m
  end.

(** ** validate/validate.go *)

Definition validateNetworkID (id : string) : option string :=
  if id =s? "health" then Some ("network ID " ++ Quote id ++ " is reserved and cannot be used")
  else if negb (MatchString aep122IDPattern id) then Some ("network ID " ++ Quote id ++ " must match AEP-122 pattern")
  else None.

(** An optional field that is checked only when it is set. *)
Definition when_set {A} (o : option A) (f : A → option string) : option string :=
  match o with Some a => f a | None => None end.

(** [names]: the port names seen so far. *)
Fixpoint validatePorts_from (names : gset string) (ports : list PortSpec) : option string :=
  match ports with
  | [] => None
  | p :: rest =>
      match first_some
        [check_that ((p_Port p <? 1) || (65535 <? p_Port p)) ("port " ++ pretty (p_Port p) ++ " out of range 1-65535");
         when_set (p_TargetPort p) (λ t,
           check_that ((t <? 1) || (65535 <? t)) ("target_port " ++ pretty t ++ " out of range 1-65535"));
         when_set (p_Protocol p) (λ pr, check_that (negb (Protocol_Valid pr)) ("unknown protocol " ++ Quote pr))]
      with
      | Some err => Some err
      | None =>
          match p_Name p with
          | Some n =>
              if n =s? "" then validatePorts_from names rest
              else if bool_decide (n ∈ names) then Some ("duplicate port name " ++ Quote n)
              else validatePorts_from ({[ n ]} ∪ names) rest
          | None => validatePorts_from names rest
          end
      end
  end.

Definition validatePorts (ports : list PortSpec) : option string := validatePorts_from ∅ ports.

Section Validate.
Context (range : map_range).

Definition validateNodePorts (spec : NetworkSpec) : option string :=
  match hints spec ≫= kh_NodePorts with
  | None => None
  | Some nodePorts =>
      first_some ((λ '(name, np),
        check_that ((np <? 30000) || (32767 <? np))
          ("node_port " ++ pretty np ++ " for " ++ Quote name ++ " out of range 30000-32767")) <$> range _ nodePorts)
  end.

Definition validateCreateSpec (spec : NetworkSpec) : option string :=
  first_some
    [check_that (negb (ns_ServiceType spec =s? "network")) ("service_type must be " ++ Quote "network");
     check_that (nm_Name (ns_Metadata spec) =s? "") "metadata.name is required";
     check_that (bool_decide (ns_Ports spec = [])) "at least one port is required";
     when_set (ns_RoutingLevel spec) (λ r,
       check_that (negb (RoutingLevel_Valid r)) ("unknown routing_level " ++ Quote r));
     validatePorts (ns_Ports spec);
     validateNodePorts spec].

Definition ValidateCreate (id : string) (spec : NetworkSpec) : option net_error :=
  match first_some
    [validateNetworkID id; validateCreateSpec spec; validateUserLabels range (nm_Labels (ns_Metadata spec))]
  with
  | Some msg => Some (InvalidArgumentError "" msg)
  | None => None
  end.
End Validate.

(** ** kubernetes/convert.go *)

Definition ServiceTypeClusterIP : string := "ClusterIP".
Definition ServiceTypeNodePort : string := "NodePort".
Definition ServiceTypeLoadBalancer : string := "LoadBalancer".

(** [nodePorts != nil && len( *nodePorts) > 0] *)
Definition nodePorts_of (spec : NetworkSpec) : option (gmap string Z) :=
  match hints spec ≫= kh_NodePorts with
  | Some m => if bool_decide (m = ∅) then None else Some m
  | None => None
  end.

Definition inferServiceType (spec : NetworkSpec) : string :=
  match ns_RoutingLevel spec with
  | None => match nodePorts_of spec with Some _ => ServiceTypeNodePort | None => ServiceTypeClusterIP end
  | Some _ => ServiceTypeLoadBalancer
  end.

Definition nonempty (o : option string) : string := default "" o.

Section Convert.
Context {X Q : Type} `{!KubeLib X Q}.

Definition resolvePort (p : PortSpec) : ServicePort :=
  mkServicePort (nonempty (p_Name p)) (default "TCP" (p_Protocol p)) (p_Port p)
    (match p_TargetPort p with
     | Some t => if 0 <? t then IntVal t else FromInt32 (p_Port p)
     | None => FromInt32 (p_Port p)
     end) 0.

Definition resolvePorts (specPorts : list PortSpec) : list ServicePort := resolvePort <$> specPorts.

Definition set_nodePort (nodePorts : gmap string Z) (p : ServicePort) : ServicePort :=
  match nodePorts !! sp_Name p with
  | Some np => mkServicePort (sp_Name p) (sp_Protocol p) (sp_Port p) (sp_TargetPort p) np
  | None => p
  end.

(** [ns]: the configured namespace. *)
Definition buildService (spec : NetworkSpec) (ns : string) (labels : gmap string string) : Service :=
  let ports := resolvePorts (ns_Ports spec) in
  mkService (mkMeta (nm_Name (ns_Metadata spec)) "" ns labels 0 None)
    (inferServiceType spec)
    (match nodePorts_of spec with Some m => set_nodePort m <$> ports | None => ports end)
    (nonempty (hints spec ≫= kh_ClusterIp))
    (default ∅ (hints spec ≫= kh_Selector)) [].

Definition portFromService (p : ServicePort) : PortSpec :=
  mkPort (if negb (sp_Name p =s? "") then Some (sp_Name p) else None)
    (if 0 <? sp_NodePort p then Some (sp_NodePort p) else None)
    (sp_Port p) (Some (sp_Protocol p))
    (let targetPort := IntValue (sp_TargetPort p) in if 0 <? targetPort then Some (wrap32 targetPort) else None).

Definition portsFromService (service : Service) : list PortSpec := portFromService <$> svc_Ports service.

Definition extractExternalIPs (ingress : list LoadBalancerIngress) : list string :=
  omap (λ ing, if negb (ing_IP ing =s? "") then Some (ing_IP ing)
               else if negb (ing_Hostname ing =s? "") then Some (ing_Hostname ing) else None) ingress.

Definition convertServiceType (k8sType : string) : string :=
  if k8sType =s? ServiceTypeNodePort then "NodePort"
  else if k8sType =s? ServiceTypeLoadBalancer then "LoadBalancer" else "ClusterIP".

(** [MapServiceToStatus]; [None] is a nil service. *)
Definition MapServiceToStatus (service : option Service) : string * string :=
  match service with
  | None => ("DELETED", "resource no longer exists")
  | Some service =>
      if (svc_Type service =s? ServiceTypeLoadBalancer) && bool_decide (svc_Ingress service = []) then
        ("PENDING", "waiting for external IP assignment")
      else ("READY", "service is ready")
  end.

Definition buildKubernetesState (service : Service) : KubernetesState :=
  mkKState (if negb (svc_ClusterIP service =s? "") then Some (svc_ClusterIP service) else None)
    (if svc_Type service =s? ServiceTypeLoadBalancer then
       match extractExternalIPs (svc_Ingress service) with [] => None | ips => Some ips end
     else None)
    (if bool_decide (svc_Selector service = ∅) then None else Some (svc_Selector service))
    (Some (convertServiceType (svc_Type service))).

Definition serviceToNetwork (service : Service) (instanceID : string) : Network :=
  let m := svc_Meta service in
  let labels := userLabels (Labels m) in
  let spec := mkNetSpec
    (mkNetMeta (if bool_decide (labels = ∅) then None else Some labels) (Name m) (Some (Namespace m)))
    (portsFromService service) None
    (if svc_Type service =s? ServiceTypeLoadBalancer then Some "network" else None) "network" in
  mkNetwork (Some (CreationTimestamp m)) (Some instanceID) (Some (buildKubernetesState service))
    (Some ("networks/" ++ instanceID)) spec (Some (MapServiceToStatus (Some service)).1) (Some (CreationTimestamp m)).
End Convert.

(** ** kubernetes/store*.go *)

Section Store.
Context {W X Q : Type} `{!KubeLib X Q, !KubeAPI W X Service}.
Context (range : map_range) (namespace : string).

Definition error := serror X net_error.
Definition ValueServiceType : string := "network".

Definition isDCMManagedService (svc : Service) (networkID : string) : bool :=
  isDCMManaged ValueServiceType (Labels (svc_Meta svc)) networkID.

Definition findService (networkID : string) : kube W (error + Service) := λ w,
  match api_list namespace (mkListOptions (InstanceSelector ValueServiceType networkID) 0 "") w with
  | (inl x, w') => (inl (SWrap "listing services" (SAPI x)), w')
  | (inr (items, _), w') =>
      match items with
      | [] => (inl (SDomain (NotFoundError "network" networkID)), w')
      | [svc] =>
          if negb (isDCMManagedService svc networkID) then (inl (SDomain (NotFoundError "network" networkID)), w')
          else (inr svc, w')
      | _ => (inl (SDomain (ConflictError "" "" "" ("multiple services found with id " ++ Quote networkID))), w')
      end
  end.

Definition Get (networkID : string) : kube W (error + Network) :=
  r ← findService networkID;
  mret (match r with
        | inl err => inl (SWrap "finding service" err)
        | inr service => inr (serviceToNetwork service networkID)
        end).

Definition Delete (networkID : string) : kube W (option error) := λ w,
  match findService networkID w with
  | (inl err, w') => (Some (SWrap "finding service" err), w')
  | (inr service, w') =>
      match api_delete (O := Service) namespace (Name (svc_Meta service)) w' with
      | (None, w'') => (None, w'')
      | (Some x, w'') => if IsNotFound x then (None, w'') else (Some (SWrap "deleting service" (SAPI x)), w'')
      end
  end.

(** The checks of [Create] on ports and node ports; each port adds its name to
    [portNames]. *)
Fixpoint checkPortNames (nodePorts : gmap string Z) (portNames : gset string) (ports : list PortSpec)
  : net_error + gset string :=
  match ports with
  | [] => inr portNames
  | port :: rest =>
      let n := nonempty (p_Name port) in
      if n =s? "" then inl (InvalidArgumentError "ports" "all ports must have names when node_ports are specified")
      else
        match nodePorts !! n with
        | None => inl (InvalidArgumentError "ports" ("port name " ++ Quote n ++ " not found in node_ports map"))
        | Some _ => checkPortNames nodePorts ({[ n ]} ∪ portNames) rest
        end
  end.

Definition checkNodePorts (spec : NetworkSpec) : option net_error :=
  match nodePorts_of spec with
  | None => None
  | Some nodePorts =>
      match checkPortNames nodePorts ∅ (ns_Ports spec) with
      | inl err => Some err
      | inr portNames =>
          first_some ((λ '(nodePortKey, _),
            check_that (negb (bool_decide (nodePortKey ∈ portNames)))
              (InvalidArgumentError "provider_hints.kubernetes.node_ports"
                 ("node_ports key " ++ Quote nodePortKey ++ " does not match any port name"))) <$> range _ nodePorts)
      end
  end.

Definition isNodePortAlreadyAllocated (err : X) : bool :=
  match APIStatus err ≫= st_Causes with
  | None => false
  | Some causes => existsb (λ cause, Contains cause "already allocated") causes
  end.

Definition create_error (spec : NetworkSpec) (x : X) : error :=
  if IsAlreadyExists x then
    SDomain (ConflictError "network" "metadata.name" (nm_Name (ns_Metadata spec)) "")
  else if IsInvalid x then
    if isNodePortAlreadyAllocated x then SDomain (ConflictError "network" "" "" (api_error_text x))
    else SDomain (InvalidArgumentError "" ("invalid service spec: " ++ api_error_text x))
  else SWrap "failed to create service" (SAPI x).

Definition create_labels (spec : NetworkSpec) (id : string) : gmap string string :=
  objectLabels ValueServiceType id (nm_Labels (ns_Metadata spec)).

Definition Create (spec : NetworkSpec) (id : string) : kube W (error + Network) := λ w,
  if bool_decide (ns_RoutingLevel spec = Some "application") then
    (inl (SDomain (InvalidArgumentError "routing_level" ("unknown routing_level " ++ Quote "application"))), w)
  else
    match checkNodePorts spec with
    | Some err => (inl (SDomain err), w)
    | None =>
        match api_create namespace (buildService spec namespace (create_labels spec id)) w with
        | (inl x, w') => (inl (create_error spec x), w')
        | (inr created, w') => (inr (serviceToNetwork created id), w')
        end
    end.

(** *** Paging *)

Definition mapListError (x : X) : error :=
  match APIStatus x with
  | Some s =>
      if st_Code s =? 400 then
        let msg := ToLower (st_Message s) in
        if Contains msg "continue" || Contains msg "page_token" || Contains msg "page token" then
          SDomain (InvalidArgumentError "page_token" "invalid page_token")
        else if negb (st_Message s =s? "") then SDomain (InvalidArgumentError "" (st_Message s))
        else SDomain (InvalidArgumentError "" "invalid argument")
      else SWrap "listing services" (SAPI x)
  | None => SWrap "listing services" (SAPI x)
  end.

Definition list_entry (svc : Service) : option Network :=
  let instanceID := label (Labels (svc_Meta svc)) LabelInstanceID in
  if (instanceID =s? "") || negb (isDCMManagedService svc instanceID) then None
  else Some (serviceToNetwork svc instanceID).

Definition List (maxPageSize : Z) (pageToken : string) : kube W (error + NetworkList) := λ w,
  match api_list namespace (mkListOptions (Selector ValueServiceType) (normalizePageSize maxPageSize) pageToken) w with
  | (inl x, w') => (inl (mapListError x), w')
  | (inr (items, continue), w') =>
      (inr (mkNetworkList (if negb (continue =s? "") then Some continue else None) (Some (omap list_entry items))), w')
  end.
End Store.

(** ** Properties *)

(** A port as it is read back: defaults filled in, and the requested node port. *)
Definition port_reads_back (nodePorts : option (gmap string Z)) (p p' : PortSpec) : Prop :=
  p_Port p' = p_Port p ∧ nonempty (p_Name p') = nonempty (p_Name p) ∧
  p_Protocol p' = Some (default "TCP" (p_Protocol p)) ∧
  p_TargetPort p' = Some (default (p_Port p) (p_TargetPort p)) ∧
  (∀ m, nodePorts = Some m → p_NodePort p' = m !! nonempty (p_Name p)).

Definition spec_reads_back (ns : string) (spec spec' : NetworkSpec) : Prop :=
  nm_Name (ns_Metadata spec') = nm_Name (ns_Metadata spec) ∧ nm_Namespace (ns_Metadata spec') = Some ns ∧
  default ∅ (nm_Labels (ns_Metadata spec')) = default ∅ (nm_Labels (ns_Metadata spec)) ∧
  ns_RoutingLevel spec' = ns_RoutingLevel spec ∧ ns_ServiceType spec' = ns_ServiceType spec ∧
  Forall2 (port_reads_back (nodePorts_of spec)) (ns_Ports spec) (ns_Ports spec').

Section Validated.
Context (range : map_range) (Hrange : map_range_ok range).

Lemma validated_ports names ports :
  validatePorts_from names ports = None →
  Forall (λ p, 1 ≤ p_Port p ≤ 65535 ∧ (∀ t, p_TargetPort p = Some t → 1 ≤ t ≤ 65535)) ports.
Proof.
  revert names. induction ports as [|p ports IH]; intros names; [constructor|]. cbn [validatePorts_from].
  destruct (first_some _) eqn:Hf; [done|]. apply first_some_None in Hf. rewrite !Forall_cons, !check_that_None in Hf.
  destruct Hf as (Hp & Ht & _). intros H. constructor.
  - breflect. split; [lia|]. intros t Hs. rewrite Hs in Ht. simpl in Ht. apply check_that_None in Ht. breflect. lia.
  - repeat case_match; try done; by eapply IH.
Qed.

Lemma validated_spec id spec :
  ValidateCreate range id spec = None →
  MatchString aep122IDPattern id = true ∧ ns_ServiceType spec = "network" ∧
  Forall (λ p, 1 ≤ p_Port p ≤ 65535 ∧ (∀ t, p_TargetPort p = Some t → 1 ≤ t ≤ 65535)) (ns_Ports spec) ∧
  (∀ r, ns_RoutingLevel spec = Some r → r = "application" ∨ r = "network") ∧
  (∀ k, k ∈ ReservedLabelKeys → default ∅ (nm_Labels (ns_Metadata spec)) !! k = None) ∧
  (∀ m k np, nodePorts_of spec = Some m → m !! k = Some np → 30000 ≤ np ≤ 32767).
Proof.
  unfold ValidateCreate. destruct (first_some _) eqn:Hf; [done|]. intros _.
  apply first_some_None in Hf. rewrite !Forall_cons in Hf. destruct Hf as (Hid & Hspec & Hlab & _).
  apply first_some_None in Hspec. rewrite !Forall_cons, !check_that_None in Hspec.
  destruct Hspec as (Hst & _ & _ & Hrl & Hports & Hnp & _). split_and!.
  - unfold validateNetworkID in Hid. destruct (_ =s? _); [done|]. by destruct (MatchString _ _).
  - by breflect.
  - by eapply validated_ports.
  - intros r Hr. rewrite Hr in Hrl. simpl in Hrl. apply check_that_None in Hrl.
    unfold RoutingLevel_Valid in Hrl. apply negb_false_iff, orb_true_iff in Hrl as [H|H]; breflect; auto.
  - intros k Hk. by eapply validated_labels.
  - intros m k np Hm Hk. unfold nodePorts_of, validateNodePorts in *.
    destruct (hints spec ≫= kh_NodePorts) as [m'|]; [|done]. destruct (bool_decide (m' = ∅)); [done|]. simplify_eq.
    eapply map_range_checks in Hnp; [|done..]. simpl in Hnp. apply check_that_None in Hnp. breflect. lia.
Qed.
End Validated.

Section Correct.
Context {W X Q : Type} `{!KubeLib X Q, !KubeLibLaws X Q, !KubeAPI W X Service}.
Context `{!KubeLaws W X Q Service service_admitted}.
Context (range : map_range) (Hrange : map_range_ok range) (ns : string).

(** No service of the namespace belongs to network [id]. *)
Definition unused (id : string) (m : gmap string Service) : Prop :=
  ∀ k o, m !! k = Some o → isDCMManagedService o id = false.

Lemma instance_selects id l :
  valid_label_value id = true → id ≠ "" →
  selects (O := Service) (InstanceSelector ValueServiceType id) l = isDCMManaged ValueServiceType l id.
Proof.
  intros Hv Hne. unfold InstanceSelector. rewrite selector_labels. apply eq_bool_prop_intro.
  rewrite !Is_true_true, isDCMManaged_spec, selects_set; [done| | |done..].
  - intros k [v Hk]%elem_of_dom. destruct (decide (k ∈ ReservedLabelKeys)); [done|].
    by rewrite dcmLabels_reserved in Hk.
  - intros k v. rewrite dcmLabels_lookup. repeat case_decide; by intros [= <-].
Qed.

Lemma port_roundtrip nodePorts (p : PortSpec) (sp : ServicePort) :
  1 ≤ p_Port p ≤ 65535 → (∀ t, p_TargetPort p = Some t → 1 ≤ t ≤ 65535) →
  (∀ m, nodePorts = Some m → ∃ np, m !! nonempty (p_Name p) = Some np ∧ 30000 ≤ np ≤ 32767) →
  port_admitted (match nodePorts with Some m => set_nodePort m (resolvePort p) | None => resolvePort p end) sp →
  port_reads_back nodePorts p (portFromService sp).
Proof.
  intros Hp Ht Hn (Hname & Hproto & Hport & Htarget & Hnode). unfold port_reads_back, portFromService. simpl.
  destruct nodePorts as [m|]; [destruct (Hn m eq_refl) as (np & Hnp & Hr)|].
  1: unfold set_nodePort in *; simpl in *; rewrite Hnp in *; simpl in *.
  all: rewrite Hname, Hproto, Hport, Htarget; simpl; split_and!; try done.
  all: try (by destruct (nonempty (p_Name p) =s? "") eqn:E; breflect; simpl; congruence).
  all: try (destruct (p_TargetPort p) as [t|] eqn:Et; [specialize (Ht t eq_refl); rewrite (proj2 (Z.ltb_lt 0 t)) by lia|];
    rewrite ?FromInt32_spec, IntValue_int, (proj2 (Z.ltb_lt 0 _)), wrap32_id by lia; done).
  intros m' [= <-]. rewrite Hnode by lia. by rewrite (proj2 (Z.ltb_lt 0 np)), Hnp by lia.
Qed.
Lemma checkPortNames_found m names ports names' :
  checkPortNames m names ports = inr names' → Forall (λ p, is_Some (m !! nonempty (p_Name p))) ports.
Proof.
  revert names. induction ports as [|p ports IH]; intros names; simpl; [constructor|].
  destruct (_ =s? _); [done|]. destruct (m !! _) eqn:Hm; [|done]. intros H. constructor; [by rewrite Hm|by eapply IH].
Qed.

Lemma create_spec spec id w n w' :
  ValidateCreate range id spec = None → Create range ns spec id w = (inr n, w') →
  ∃ created, n = serviceToNetwork created id ∧ objs w ns !! Name (svc_Meta created) = None ∧
    objs w' ns = <[Name (svc_Meta created) := created]> (objs w ns) ∧
    Labels (svc_Meta created) = create_labels spec id ∧ spec_reads_back ns spec (n_Spec n).
Proof.
  intros Hval. destruct (validated_spec range Hrange id spec Hval) as (_ & Hst & Hports & Hrl & Hlab & Hnp).
  unfold Create. case_bool_decide as Happ; [done|]. destruct (checkNodePorts range spec) eqn:Hchk; [done|].
  destruct (api_create _ _ w) as [[x|created] w1] eqn:Hc; [done|]. intros [= <- <-].
  apply create_ok in Hc as (Hnone & Hobjs & (Hns & Hty & Hpf & _) & Hlabels & Hname). exists created.
  split_and!; [done..|]. unfold spec_reads_back. simpl in *. split_and!.
  - apply Hname. intros Hempty. unfold ValidateCreate in Hval. destruct (first_some _) eqn:Hf; [done|].
    apply first_some_None in Hf. rewrite !Forall_cons in Hf. destruct Hf as (_ & Hs & _).
    apply first_some_None in Hs. rewrite !Forall_cons, !check_that_None in Hs. destruct Hs as (_ & Hs & _).
    by rewrite Hempty in Hs.
  - by rewrite Hns.
  - change (meta created) with (svc_Meta created) in Hlabels. rewrite Hlabels. by apply userLabels_back.
  - rewrite Hty. simpl. unfold inferServiceType. destruct (ns_RoutingLevel spec) as [r|].
    + simpl. destruct (Hrl r eq_refl) as [->| ->]; done.
    + by destruct (nodePorts_of spec).
  - done.
  - unfold portsFromService. apply Forall2_fmap_r. unfold checkNodePorts in Hchk.
    assert (Forall2 (λ p, port_admitted (match nodePorts_of spec with Some m => set_nodePort m (resolvePort p) | None => resolvePort p end))
      (ns_Ports spec) (svc_Ports created)) as Hpf'.
    { simpl in Hpf. destruct (nodePorts_of spec); unfold resolvePorts in Hpf; rewrite ?Forall2_fmap_l in Hpf; done. }
    eapply (Forall2_strengthen _ _ _ _ _ Hports).
    { eapply (Forall2_strengthen (λ p, ∀ m, nodePorts_of spec = Some m → is_Some (m !! nonempty (p_Name p)))); [|exact Hpf'|].
      - destruct (nodePorts_of spec) as [m|]; [|by apply Forall_true].
        destruct (checkPortNames m ∅ (ns_Ports spec)) as [|names'] eqn:Hck; [done|].
        eapply Forall_impl; [by eapply checkPortNames_found|]. by intros p Hs m' [= <-].
      - intros p sp Hs Hadm. exact (conj Hs Hadm). }
    intros p sp [Hp Ht] [Hs Hadm]. apply port_roundtrip; [done..| |done]. intros m Hm.
    destruct (Hs m Hm) as [np Hnp']. exists np. split; [done|]. by eapply Hnp.
Qed.
(** The one service of a network is found, unless the list call fails. *)
Lemma find_unique id k svc m w r w1 :
  MatchString aep122IDPattern id = true → objs w ns = <[k := svc]> m → m !! k = None → unused id m →
  isDCMManagedService svc id = true → findService ns id w = (r, w1) →
  objs w1 = objs w ∧ (r = inr svc ∨ ∃ x, r = inl (SWrap "listing services" (SAPI x))).
Proof.
  intros Hid Hobjs Hk Hun Hm. destruct (aep122_label id Hid) as [Hv Hne]. unfold findService.
  destruct (api_list _ _ w) as [[x|[items c]] w2] eqn:Hl.
  { intros [= <- <-]. apply list_err in Hl. eauto. }
  apply list_ok in Hl as [Hw Hitems]. specialize (Hitems eq_refl eq_refl). rewrite Hobjs in Hitems. simpl in Hitems.
  assert (items = [svc]) as ->.
  { apply (selected_unique (selects (O := Service) (InstanceSelector ValueServiceType id)) m k svc); [done| | |exact Hitems].
    - by rewrite instance_selects.
    - intros k' o' Hk'. rewrite instance_selects by done. by apply (Hun k'). }
  rewrite Hm. simpl. intros [= <- <-]. eauto.
Qed.

(** The network provider's store round-trips.  For a request that passes
    validation and an identifier no service of the namespace carries, a
    successful [Create] makes a service from which the specification is read
    back: name, user labels, routing level, and every port with its name,
    protocol, target and requested node port (defaults filled in).  A [Get]
    right after it returns exactly what [Create] returned, or the error of the
    list call; a successful [Delete] removes that service (or leaves it
    terminating) and touches no other. *)
Theorem network_create_get_delete spec id w n w' :
  ValidateCreate range id spec = None → unused id (objs w ns) →
  Create range ns spec id w = (inr n, w') →
  spec_reads_back ns spec (n_Spec n) ∧ n_Id n = Some id ∧
  (∀ r w2, Get ns id w' = (r, w2) →
     objs w2 = objs w' ∧ (r = inr n ∨ ∃ x, r = inl (SWrap "finding service" (SWrap "listing services" (SAPI x))))) ∧
  (∀ w2, Delete ns id w' = (None, w2) →
     (∀ k, k ≠ nm_Name (ns_Metadata spec) → objs w2 ns !! k = objs w ns !! k) ∧
     (∀ o, objs w2 ns !! nm_Name (ns_Metadata spec) = Some o → is_Some (DeletionTimestamp (svc_Meta o)))).
Proof.
  intros Hval Hun Hc. destruct (create_spec spec id w n w' Hval Hc) as (svc & -> & Hnone & Hobjs & Hlab & Hrb).
  destruct (validated_spec range Hrange id spec Hval) as (Hid & _).
  assert (isDCMManagedService svc id = true) as Hm.
  { unfold isDCMManagedService. rewrite Hlab. by apply managed_objectLabels, aep122_label. }
  pose proof (proj1 Hrb) as Hname. simpl in Hname. split_and!; [done|done| |].
  - intros r w2. unfold Get. destruct (findService ns id w') as [r1 w1] eqn:Hf.
    destruct (find_unique id _ svc _ w' r1 w1 Hid Hobjs Hnone Hun Hm Hf) as [Hw [->|[x ->]]];
      unfold mbind, kube_bind; rewrite Hf; intros [= <- <-]; eauto.
  - intros w2. unfold Delete. destruct (findService ns id w') as [r1 w1] eqn:Hf.
    destruct (find_unique id _ svc _ w' r1 w1 Hid Hobjs Hnone Hun Hm Hf) as [Hw [->|[x ->]]]; [|done].
    rewrite Hname. destruct (api_delete ns _ w1) as [[x|] w3] eqn:Hd.
    + destruct (IsNotFound x) eqn:Hnf; [|done]. apply delete_missing in Hd as [_ Hmiss]; [|done].
      rewrite Hw, Hobjs, Hname, lookup_insert_eq in Hmiss. done.
    + intros [= <-]. apply delete_ok in Hd as [Hother Hdel]. rewrite Hw, Hobjs, Hname in Hother. split; [|done].
      intros k Hk. rewrite Hother by done. by rewrite lookup_insert_ne by done.
Qed.

(** The network provider never touches a service that is not its own.
    Whatever the API server answers, [Get] and [Delete] of [id] use only a
    service the list call returned whose labels say it is managed by DCM, is a
    network and belongs to [id], and [Delete] changes the cluster at most by
    deleting that service's name. *)
Theorem network_delete_owned id w r w' :
  Delete ns id w = (r, w') →
  let '(listed, w1) := api_list ns (mkListOptions (InstanceSelector ValueServiceType id) 0 "") w in
  w' = w1 ∨
  ∃ svc c, listed = inr ([svc], c) ∧ isDCMManagedService svc id = true ∧
           w' = (api_delete (O := Service) ns (Name (svc_Meta svc)) w1).2.
Proof.
  unfold Delete, findService. destruct (api_list _ _ w) as [[x|[[|svc [|]] c]] w1]; try (intros [= _ <-]; by left).
  destruct (isDCMManagedService svc id) eqn:Hm; simpl; [|intros [= _ <-]; by left].
  destruct (api_delete ns _ w1) as [[x|] w2] eqn:Hd; [destruct (IsNotFound x)|]; intros [= _ <-]; right; exists svc, c;
    by rewrite Hd.
Qed.
End Correct.

(** ** Examples *)

Module NetworkRun.
Import FakeKube.

Definition web : PortSpec := mkPort (Some "http") None 80 None (Some 8080).
Definition spec (name : string) : NetworkSpec :=
  mkNetSpec (mkNetMeta (Some {[ "app" := "shop" ]}) name None) [web]
    (Some (Some (mkKHints None (Some {[ "http" := 30080 ]}) None))) None "network".

Definition created : Network * world :=
  match Create sorted_range "ns" (spec "shop") "net-1" empty_world with
  | (inr n, w) => (n, w)
  | (inl _, w) => (mkNetwork None None None None (spec "") None None, w)
  end.

Lemma network_create_get_delete_witness :
  ∃ n w', Create sorted_range "ns" (spec "shop") "net-1" empty_world = (inr n, w') ∧
          spec_reads_back "ns" (spec "shop") (n_Spec n) ∧ (Get "ns" "net-1" w').1 = inr n.
Proof.
  assert (Create sorted_range "ns" (spec "shop") "net-1" empty_world = (inr created.1, created.2)) as Hc by (by vm_compute).
  exists created.1, created.2. split; [done|].
  destruct (network_create_get_delete sorted_range sorted_range_ok "ns" (spec "shop") "net-1" empty_world created.1 created.2)
    as (Hrb & _ & Hget & _); [by vm_compute| |done|].
  - intros k o H. by vm_compute in H.
  - split; [done|]. destruct (Get "ns" "net-1" created.2) as [r w2] eqn:Hg.
    destruct (Hget r w2 eq_refl) as [_ [->|[x ->]]]; [done|]. by vm_compute in Hg.
Defined.

Lemma network_delete_owned_witness :
  (Delete "ns" "net-1" created.2).1 = None ∧
  let '(listed, w1) := api_list "ns" (mkListOptions (InstanceSelector ValueServiceType "net-1") 0 "") created.2 in
  (Delete "ns" "net-1" created.2).2 = w1 ∨
  ∃ svc c, listed = inr ([svc], c) ∧ isDCMManagedService svc "net-1" = true ∧
           (Delete "ns" "net-1" created.2).2 = (api_delete (O := Service) "ns" (Name (svc_Meta svc)) w1).2.
Proof.
  split; [by vm_compute|]. apply (network_delete_owned "ns" "net-1" created.2 _ _ (surjective_pairing _)).
Defined.

(** Nothing checks that the identifier is unused: two requests with one
    identifier and different names both succeed, and from then on the network
    can be neither read nor deleted. *)
Lemma network_duplicate_id :
  match Create sorted_range "ns" (spec "shop") "net-1" empty_world with
  | (inr _, w1) =>
      match Create sorted_range "ns" (mkNetSpec (mkNetMeta None "shop2" None) [web] None None "network") "net-1" w1 with
      | (inr _, w2) =>
          match (Get "ns" "net-1" w2).1, Delete "ns" "net-1" w2 with
          | inl (SWrap _ (SDomain (ConflictError _ _ _ _))), (Some (SWrap _ (SDomain (ConflictError _ _ _ _))), w3) =>
              dom (objs w3 "ns" : gmap string Service) = {[ "shop"; "shop2" ]}
          | _, _ => False
          end
      | _ => False
      end
  | _ => False
  end.
Proof. by vm_compute. Qed.
End NetworkRun.
