(* ===== verification/StorageStore.v ===== *)
(** * The embedded storage provider

    Models internal/openshift/storage: the request types of
    api/storage/v1alpha1, validation (validate/validate.go), the conversion
    between volume specifications and PersistentVolumeClaims
    (kubernetes/convert.go) and the store on the cluster's API
    (kubernetes/store*.go).  A volume is the claim whose name is the DCM
    instance identifier. *)

From S2P Require Import Prelude GoStrings Provider K8s.
#[local] Open Scope string_scope.
#[local] Open Scope Z_scope.

(** ** api/storage/v1alpha1 *)

Record KubernetesProviderHints := mkKHints {
  kh_AccessMode : option string;
  kh_StorageClass : option string;
  kh_VolumeMode : option string
}.

Record VolumeMetadata := mkVolMeta {
  vm_Labels : option (gmap string string);
  vm_Name : string;
  vm_Namespace : option string;
  vm_StorageClass : option string;
  vm_VolumeName : option string
}.

(** [ProviderHints] is the optional [Kubernetes] member; other members are kept
    by the JSON codec only. *)
Record StorageSpec := mkStorageSpec {
  ss_Capacity : string;
  ss_Metadata : VolumeMetadata;
  ss_ProviderHints : option (option KubernetesProviderHints);
  ss_ServiceType : string
}.

Record Volume := mkVolume {
  v_CreateTime : option Z;
  v_Id : option string;
  v_Path : option string;
  v_Spec : StorageSpec;
  v_Status : option string;
  v_UpdateTime : option Z
}.

Record VolumeList := mkVolumeList { vl_NextPageToken : option string; vl_Volumes : option (list Volume) }.

Definition hints (spec : StorageSpec) : option KubernetesProviderHints := mjoin (ss_ProviderHints spec).

(** ** store/errors.go *)

(** The wrapped error of [InvalidArgumentError] is kept as its text: only a
    quantity's parse error is ever put there. *)
Inductive vol_error :=
  | NotFoundError (ID : string)
  | ConflictError (Message : string)
  | InvalidArgumentError (Message : string) (Err : option string)
  | FailedPreconditionError (Message : string).

Definition vol_error_text (e : vol_error) : string :=
  match e with
  | NotFoundError id => "volume " ++ Quote id ++ " not found"
  | ConflictError m => m
  | InvalidArgumentError m None => m
  | InvalidArgumentError m (Some err) => m ++ ": " ++ err
  | FailedPreconditionError m => m
  end.

(** ** validate/validate.go *)

Definition validateVolumeID (id : string) : option string :=
  if id =s? "health" then Some ("volume ID " ++ Quote id ++ " is reserved and cannot be used")
  else if negb (MatchString aep122IDPattern id) then Some ("volume ID " ++ Quote id ++ " must match AEP-122 pattern")
  else None.

Definition validateCreateSpec (spec : StorageSpec) : option string :=
  first_some
    [check_that (negb (ss_ServiceType spec =s? "storage")) ("service_type must be " ++ Quote "storage");
     check_that (ss_Capacity spec =s? "") "capacity is required";
     check_that (vm_Name (ss_Metadata spec) =s? "") "metadata.name is required"].

Section Validate.
Context (range : map_range).

Definition ValidateCreate (id : string) (spec : StorageSpec) : option vol_error :=
  match first_some
    [validateVolumeID id; validateCreateSpec spec; validateUserLabels range (vm_Labels (ss_Metadata spec))]
  with
  | Some msg => Some (InvalidArgumentError msg None)
  | None => None
  end.
End Validate.

(** ** kubernetes/convert.go *)

Section Convert.
Context {X Q : Type} `{!KubeLib X Q}.

(** The first true condition of a resize type; [None] when there is none. *)
Fixpoint pvcResizeStatus (conditions : list Condition) : option string :=
  match conditions with
  | [] => None
  | c :: rest =>
      if negb (c_Status c =s? "True") then pvcResizeStatus rest
      else if c_Type c =s? "Resizing" then Some "volume expansion in progress"
      else if c_Type c =s? "FileSystemResizePending" then Some "filesystem resize pending"
      else pvcResizeStatus rest
  end.

(** [MapPVCToStatus]; [None] is a nil claim. *)
Definition MapPVCToStatus (pvc : option (PVC Q)) : string * string :=
  match pvc with
  | None => ("DELETED", "resource no longer exists")
  | Some pvc =>
      match DeletionTimestamp (pvc_Meta pvc) with
      | Some _ => ("DELETING", "PVC is terminating")
      | None =>
          if pvc_Phase pvc =s? "Pending" then ("PROVISIONING", "PVC is pending binding")
          else if pvc_Phase pvc =s? "Lost" then ("FAILED", "PVC is lost")
          else if pvc_Phase pvc =s? "Bound" then
            match pvcResizeStatus (pvc_Conditions pvc) with
            | Some msg => ("PROVISIONING", msg)
            | None =>
                ("RUNNING",
                 if negb (pvc_VolumeName pvc =s? "") then "PVC is bound to volume " ++ pvc_VolumeName pvc else "PVC is bound")
            end
          else ("PROVISIONING", pvc_Phase pvc)
      end
  end.

Definition latestPVCConditionTime (pvc : PVC Q) : option Z := latest_time (pvc_Conditions pvc).

Definition storageClassFromPVC (pvc : PVC Q) : string := default "" (pvc_StorageClassName pvc).

Definition providerHintsFromPVC (pvc : PVC Q) : option (option KubernetesProviderHints) :=
  let sc := storageClassFromPVC pvc in
  let storageClass := if negb (sc =s? "") then Some sc else None in
  let accessMode := head (pvc_AccessModes pvc) in
  match storageClass, pvc_VolumeMode pvc, accessMode with
  | None, None, None => None
  | _, _, _ => Some (Some (mkKHints accessMode storageClass (pvc_VolumeMode pvc)))
  end.

Definition volumeFromPVC (pvc : PVC Q) (instanceID : string) : Volume :=
  let m := pvc_Meta pvc in
  let sc := storageClassFromPVC pvc in
  let labels := userLabels (Labels m) in
  let spec := mkStorageSpec (Quantity_String (pvc_Storage pvc))
    (mkVolMeta (if bool_decide (labels = ∅) then None else Some labels) (Name m) (Some (Namespace m))
       (if negb (sc =s? "") then Some sc else None)
       (if negb (pvc_VolumeName pvc =s? "") then Some (pvc_VolumeName pvc) else None))
    (providerHintsFromPVC pvc) "storage" in
  mkVolume (Some (CreationTimestamp m)) (Some instanceID) (Some ("volumes/" ++ instanceID)) spec
    (Some (MapPVCToStatus (Some pvc)).1)
    (Some (default (CreationTimestamp m) (latestPVCConditionTime pvc))).

Definition known_access_mode (mode : string) : bool :=
  (mode =s? "ReadWriteOnce") || (mode =s? "ReadOnlyMany") || (mode =s? "ReadWriteMany").

Definition resolveVolumeMode (vm : string) : vol_error + string :=
  if (vm =s? "Filesystem") || (vm =s? "Block") then inr vm
  else inl (InvalidArgumentError ("unsupported volume mode " ++ Quote vm) None).

Definition resolveAccessMode (spec : StorageSpec) (defaultMode : string) : vol_error + string :=
  match hints spec ≫= kh_AccessMode with
  | Some mode =>
      if known_access_mode mode then inr mode
      else inl (InvalidArgumentError ("unsupported access mode " ++ Quote mode) None)
  | None =>
      if negb (defaultMode =s? "") then
        if known_access_mode defaultMode then inr defaultMode
        else inl (InvalidArgumentError ("unsupported default access mode " ++ Quote defaultMode) None)
      else inr "ReadWriteOnce"
  end.

Definition resolveStorageClass (spec : StorageSpec) (defaultClass : string) : string :=
  default defaultClass (hints spec ≫= kh_StorageClass).

Record K8sConfig := mkConfig { cfg_Namespace : string; cfg_DefaultStorageClass : string; cfg_DefaultAccessMode : string }.

Definition buildPVC (spec : StorageSpec) (cfg : K8sConfig) (labels : gmap string string)
  : serror X vol_error + PVC Q :=
  match ParseQuantity (ss_Capacity spec) with
  | inl err => inl (SDomain (InvalidArgumentError ("invalid capacity " ++ Quote (ss_Capacity spec)) (Some err)))
  | inr qty =>
      match resolveAccessMode spec (cfg_DefaultAccessMode cfg) with
      | inl err => inl (SWrap "resolving access mode" (SDomain err))
      | inr accessMode =>
          let storageClass := resolveStorageClass spec (cfg_DefaultStorageClass cfg) in
          let pvc volumeMode :=
            mkPVC (mkMeta (vm_Name (ss_Metadata spec)) "" (cfg_Namespace cfg) labels 0 None) [accessMode] qty
              (if negb (storageClass =s? "") then Some storageClass else None) volumeMode "" "" [] in
          match hints spec ≫= kh_VolumeMode with
          | None => inr (pvc None)
          | Some vm =>
              match resolveVolumeMode vm with
              | inl err => inl (SWrap "resolving volume mode" (SDomain err))
              | inr mode => inr (pvc (Some mode))
              end
          end
      end
  end.
End Convert.

(** ** kubernetes/store*.go *)

Section Store.
Context {W X Q : Type} `{!KubeLib X Q, !KubeAPI W X (PVC Q), !KubeAPI W X StorageClass}.
Context (cfg : K8sConfig).

Definition error := serror X vol_error.
Definition ValueServiceType : string := "storage".

Definition isDCMManagedPVC (pvc : PVC Q) (volumeID : string) : bool :=
  isDCMManaged ValueServiceType (Labels (pvc_Meta pvc)) volumeID.

Definition findPVC (volumeID : string) : kube W (error + PVC Q) := λ w,
  match api_get (cfg_Namespace cfg) volumeID w with
  | (inl x, w') =>
      if IsNotFound x then (inl (SDomain (NotFoundError volumeID)), w')
      else (inl (SWrap ("getting PVC " ++ Quote volumeID ++ " in namespace " ++ Quote (cfg_Namespace cfg)) (SAPI x)), w')
  | (inr pvc, w') =>
      if negb (isDCMManagedPVC pvc volumeID) then (inl (SDomain (NotFoundError volumeID)), w') else (inr pvc, w')
  end.

Definition Get (volumeID : string) : kube W (error + Volume) :=
  r ← findPVC volumeID;
  mret (match r with
        | inl err => inl (SWrap ("getting volume " ++ Quote volumeID) err)
        | inr pvc => inr (volumeFromPVC pvc volumeID)
        end).

Definition Delete (volumeID : string) : kube W (option error) := λ w,
  match findPVC volumeID w with
  | (inl err, w') => (Some (SWrap ("deleting volume " ++ Quote volumeID) err), w')
  | (inr pvc, w') =>
      match api_delete (O := PVC Q) (cfg_Namespace cfg) (Name (pvc_Meta pvc)) w' with
      | (None, w'') => (None, w'')
      | (Some x, w'') =>
          if IsNotFound x then (None, w'')
          else (Some (SWrap ("deleting PVC " ++ Quote (Name (pvc_Meta pvc)) ++ " in namespace "
                             ++ Quote (cfg_Namespace cfg)) (SAPI x)), w'')
      end
  end.

Definition validateStorageClass (name : string) : kube W (option error) := λ w,
  match api_get (O := StorageClass) "" name w with
  | (inl x, w') =>
      if IsNotFound x then
        (Some (SDomain (FailedPreconditionError ("StorageClass " ++ Quote name ++ " does not exist"))), w')
      else (Some (SWrap ("getting StorageClass " ++ Quote name) (SAPI x)), w')
  | (inr _, w') => (None, w')
  end.

(** [spec.Metadata.Name = id] *)
Definition rename_spec (spec : StorageSpec) (id : string) : StorageSpec :=
  let m := ss_Metadata spec in
  mkStorageSpec (ss_Capacity spec) (mkVolMeta (vm_Labels m) id (vm_Namespace m) (vm_StorageClass m) (vm_VolumeName m))
    (ss_ProviderHints spec) (ss_ServiceType spec).

Definition create_labels (spec : StorageSpec) (id : string) : gmap string string :=
  objectLabels ValueServiceType id (vm_Labels (ss_Metadata spec)).

Definition Create (spec0 : StorageSpec) (id : string) : kube W (error + Volume) :=
  let spec := rename_spec spec0 id in
  let storageClass := resolveStorageClass spec (cfg_DefaultStorageClass cfg) in
  classErr ← (if negb (storageClass =s? "") then validateStorageClass storageClass else mret None);
  match classErr with
  | Some err =>
      mret (inl (SWrap ("validating StorageClass " ++ Quote storageClass ++ " for volume " ++ Quote id) err))
  | None =>
      match buildPVC spec cfg (create_labels spec id) with
      | inl err => mret (inl (SWrap ("building PVC for volume " ++ Quote id) err))
      | inr pvc => λ w,
          match api_create (cfg_Namespace cfg) pvc w with
          | (inl x, w') =>
              if IsAlreadyExists x then (inl (SDomain (ConflictError ("volume " ++ Quote id ++ " already exists"))), w')
              else (inl (SWrap ("creating PVC " ++ Quote id ++ " in namespace " ++ Quote (cfg_Namespace cfg)) (SAPI x)), w')
          | (inr created, w') => (inr (volumeFromPVC created id), w')
          end
      end
  end.

(** *** Paging *)

Definition mapListError (x : X) : error :=
  match APIStatus x with
  | Some s =>
      if st_Code s =? 400 then
        let msg := ToLower (st_Message s) in
        if Contains msg "continue" || Contains msg "page_token" || Contains msg "page token" then
          SDomain (InvalidArgumentError "invalid page_token" None)
        else if negb (st_Message s =s? "") then SDomain (InvalidArgumentError (st_Message s) None)
        else SDomain (InvalidArgumentError "invalid argument" None)
      else SAPI x
  | None => SAPI x
  end.

Definition list_entry (pvc : PVC Q) : option Volume :=
  let name := Name (pvc_Meta pvc) in
  if negb (isDCMManagedPVC pvc name) then None else Some (volumeFromPVC pvc name).

Definition List (maxPageSize : Z) (pageToken : string) : kube W (error + VolumeList) := λ w,
  match api_list (cfg_Namespace cfg)
          (mkListOptions (Selector ValueServiceType) (normalizePageSize maxPageSize) pageToken) w with
  | (inl x, w') => (inl (SWrap ("listing PVCs in namespace " ++ Quote (cfg_Namespace cfg)) (mapListError x)), w')
  | (inr (items, continue), w') =>
      (inr (mkVolumeList (if negb (continue =s? "") then Some continue else None) (Some (omap list_entry items))), w')
  end.
End Store.

(** ** Properties *)

Section Correct.
Context {W X Q : Type} `{!KubeLib X Q, !KubeLibLaws X Q, !KubeAPI W X (PVC Q), !KubeAPI W X StorageClass}.
Context `{!KubeLaws W X Q (PVC Q) pvc_admitted, !KubeFrame W X Q StorageClass (PVC Q)}.
Context (range : map_range) (Hrange : map_range_ok range) (cfg : K8sConfig).
#[local] Abbreviation ns := (cfg_Namespace cfg).

(** What is read back of a request: the capacity in canonical form, the mode and
    class it resolves to. *)
Definition spec_reads_back (spec : StorageSpec) (id : string) (spec' : StorageSpec) : Prop :=
  vm_Name (ss_Metadata spec') = id ∧ vm_Namespace (ss_Metadata spec') = Some ns ∧
  default ∅ (vm_Labels (ss_Metadata spec')) = default ∅ (vm_Labels (ss_Metadata spec)) ∧
  ss_ServiceType spec' = ss_ServiceType spec ∧
  (∃ q, ParseQuantity (ss_Capacity spec) = inr q ∧ ss_Capacity spec' = Quantity_String q) ∧
  ∃ h mode, hints spec' = Some h ∧ resolveAccessMode spec (cfg_DefaultAccessMode cfg) = inr mode ∧
    kh_AccessMode h = Some mode ∧
    (∀ c, hints spec ≫= kh_StorageClass = Some c → c ≠ "" → kh_StorageClass h = Some c) ∧
    (∀ m, hints spec ≫= kh_VolumeMode = Some m → kh_VolumeMode h = Some m).

Lemma volume_class_frame sc w r w' : validateStorageClass sc w = (r, w') → objs (O := PVC Q) w' = objs w.
Proof.
  unfold validateStorageClass. pose proof (frame_get (O := StorageClass) (O' := PVC Q) "" sc w) as Hf.
  destruct (api_get "" sc w) as [[x|o] w1]; simpl in Hf; [destruct (IsNotFound x)|]; by intros [= _ <-].
Qed.

Lemma build_reads_back spec id pvc created :
  ss_ServiceType spec = "storage" → id ≠ "" →
  (∀ k, k ∈ ReservedLabelKeys → default ∅ (vm_Labels (ss_Metadata spec)) !! k = None) →
  buildPVC (rename_spec spec id) cfg (create_labels (rename_spec spec id) id) = inr pvc →
  pvc_admitted pvc created → Labels (pvc_Meta created) = Labels (pvc_Meta pvc) →
  Name (pvc_Meta created) = Name (pvc_Meta pvc) →
  spec_reads_back spec id (v_Spec (volumeFromPVC created id)) ∧ Name (pvc_Meta created) = id ∧
  isDCMManagedPVC created id = true.
Proof.
  intros Hst Hid Hlab. unfold buildPVC. cbn [ss_Capacity rename_spec].
  destruct (ParseQuantity (ss_Capacity spec)) as [|q] eqn:Hq; [done|].
  change (resolveAccessMode (rename_spec spec id)) with (resolveAccessMode spec).
  change (hints (rename_spec spec id)) with (hints spec).
  change (resolveStorageClass (rename_spec spec id)) with (resolveStorageClass spec).
  destruct (resolveAccessMode spec _) as [|mode] eqn:Hm; [done|]. intros Hb.
  assert (∃ vmode, (∀ m, hints spec ≫= kh_VolumeMode = Some m → vmode = Some m) ∧
    pvc = mkPVC (mkMeta id "" ns (create_labels (rename_spec spec id) id) 0 None) [mode] q
      (if negb (resolveStorageClass spec (cfg_DefaultStorageClass cfg) =s? "")
       then Some (resolveStorageClass spec (cfg_DefaultStorageClass cfg)) else None) vmode "" "" []) as (vmode & Hv & ->).
  { destruct (hints spec ≫= kh_VolumeMode) as [vm|]; [|exists None; by simplify_eq].
    unfold resolveVolumeMode in Hb. destruct (_ || _); [|done]. exists (Some vm). simplify_eq. split; [by intros m [= <-]|done]. }
  intros (Hns & Ham & Hqty & Hsc & Hvm) Hlabels Hname. simpl in *. split_and!; [|done|].
  - unfold spec_reads_back. simpl. rewrite Hname, Hns, Hlabels, Hqty. split_and!; try done.
    + by apply userLabels_back.
    + by exists q.
    + unfold hints at 1. simpl. unfold providerHintsFromPVC. rewrite Ham. simpl.
      set (sc := if negb (storageClassFromPVC created =s? "") then Some (storageClassFromPVC created) else None).
      exists (mkKHints (Some mode) sc (pvc_VolumeMode created)), mode. split_and!; try done.
      * by destruct sc, (pvc_VolumeMode created).
      * intros c Hc Hne. unfold sc, storageClassFromPVC. simpl. unfold resolveStorageClass in Hsc. rewrite Hc in Hsc.
        simpl in Hsc. rewrite bool_decide_false in Hsc by done. rewrite Hsc by (simpl; eauto). simpl.
        by rewrite bool_decide_false by done.
      * intros m Hm'. simpl. rewrite (Hv m Hm') in Hvm. by rewrite Hvm by eauto.
  - unfold isDCMManagedPVC. rewrite Hlabels. by apply managed_objectLabels.
Qed.
Lemma validated_volume id spec :
  ValidateCreate range id spec = None →
  id ≠ "" ∧ ss_ServiceType spec = "storage" ∧
  ∀ k, k ∈ ReservedLabelKeys → default ∅ (vm_Labels (ss_Metadata spec)) !! k = None.
Proof.
  unfold ValidateCreate. destruct (first_some _) eqn:Hf; [done|]. intros _.
  apply first_some_None in Hf. rewrite !Forall_cons in Hf. destruct Hf as (Hid & Hspec & Hlab & _).
  apply first_some_None in Hspec. rewrite !Forall_cons, !check_that_None in Hspec. destruct Hspec as (Hst & _).
  split_and!; [|by breflect|intros k Hk; by eapply validated_labels].
  unfold validateVolumeID in Hid. destruct (_ =s? _); [done|].
  destruct (MatchString aep122IDPattern id) eqn:Hm; [|done]. by apply aep122_label.
Qed.

Lemma create_volume_spec spec id w v w' :
  ValidateCreate range id spec = None → Create cfg spec id w = (inr v, w') →
  ∃ created, v = volumeFromPVC created id ∧ objs (O := PVC Q) w ns !! id = None ∧
    objs w' ns = <[id := created]> (objs w ns) ∧ isDCMManagedPVC created id = true ∧ Name (pvc_Meta created) = id ∧
    spec_reads_back spec id (v_Spec v).
Proof.
  intros Hval. destruct (validated_volume id spec Hval) as (Hid & Hst & Hlab).
  unfold Create, mbind, kube_bind.
  match goal with |- context [let '(a, w') := ?m in _] => destruct m as [cerr w1] eqn:Hclass end.
  assert (objs (O := PVC Q) w1 = objs w) as Hw1.
  { destruct (negb _); [by eapply volume_class_frame|by injection Hclass as _ <-]. }
  destruct cerr as [err|]; [done|]. destruct (buildPVC _ _ _) as [err|pvc] eqn:Hb; [done|].
  destruct (api_create ns pvc w1) as [[x|created] w2] eqn:Hc; [by destruct (IsAlreadyExists x)|]. intros [= <- <-].
  apply create_ok in Hc as (Hnone & Hobjs & Hadm & Hlabels & Hname).
  assert (Name (pvc_Meta pvc) = id) as Hpn.
  { revert Hb. unfold buildPVC. repeat case_match; try done; by intros [= <-]. }
  assert (Name (pvc_Meta created) = Name (pvc_Meta pvc)) as Hn by (apply Hname; by rewrite <-Hpn in Hid).
  destruct (build_reads_back spec id pvc created Hst Hid Hlab Hb Hadm Hlabels Hn) as (Hrb & Hcn & Hm).
  change (Name (meta created)) with (Name (pvc_Meta created)) in *. rewrite Hw1, Hcn in *. exists created. by split_and!.
Qed.

(** The storage provider's store round-trips and names are exclusive.  For a
    request that passes validation, [Create] succeeds only if no claim of the
    namespace has the identifier as its name; the claim it makes is the
    volume's own, and the specification is read back from it (canonical
    capacity, resolved access mode, class and volume mode, user labels).  A
    [Get] right after it returns exactly what [Create] returned, or an API
    error that is not "not found"; a successful [Delete] removes that claim (or
    leaves it terminating) and touches no other. *)
Theorem volume_create_get_delete spec id w v w' :
  ValidateCreate range id spec = None → Create cfg spec id w = (inr v, w') →
  objs (O := PVC Q) w ns !! id = None ∧ spec_reads_back spec id (v_Spec v) ∧
  (∀ r w2, Get cfg id w' = (r, w2) →
     r = inr v ∨ ∃ m1 m2 x, r = inl (SWrap m1 (SWrap m2 (SAPI x))) ∧ IsNotFound x = false) ∧
  (∀ w2, Delete cfg id w' = (None, w2) →
     (∀ k, k ≠ id → objs (O := PVC Q) w2 ns !! k = objs w ns !! k) ∧
     (∀ o : PVC Q, objs w2 ns !! id = Some o → is_Some (DeletionTimestamp (pvc_Meta o)))).
Proof.
  intros Hval Hc. destruct (create_volume_spec spec id w v w' Hval Hc) as (pvc & -> & Hnone & Hobjs & Hm & Hname & Hrb).
  assert (∀ r w1, findPVC cfg id w' = (r, w1) →
    objs (O := PVC Q) w1 = objs w' ∧
    (r = inr pvc ∨ ∃ m x, r = inl (SWrap m (SAPI x)) ∧ IsNotFound x = false)) as Hfind.
  { intros r w1. unfold findPVC. destruct (api_get ns id w') as [[x|o] w3] eqn:Hg.
    - apply get_missing in Hg as [Hw Hmiss]. destruct (IsNotFound x) eqn:Hx; [|intros [= <- <-]; eauto 10].
      rewrite Hobjs, lookup_insert_eq in Hmiss. by specialize (Hmiss eq_refl).
    - apply get_ok in Hg as [Hw Hk]. rewrite Hobjs, lookup_insert_eq in Hk. simplify_eq. rewrite Hm.
      intros [= <- <-]. eauto. }
  split_and!; [done|done| |].
  - intros r w2. unfold Get, mbind, kube_bind. destruct (findPVC cfg id w') as [r1 w1] eqn:Hf.
    destruct (Hfind r1 w1 eq_refl) as [_ [->|(m & x & -> & Hx)]]; intros [= <- <-]; [by left|right; eauto 10].
  - intros w2. unfold Delete. destruct (findPVC cfg id w') as [r1 w1] eqn:Hf.
    destruct (Hfind r1 w1 eq_refl) as [Hw [->|(m & x & -> & Hx)]]; [|done]. rewrite Hname.
    destruct (api_delete ns id w1) as [[x|] w3] eqn:Hd.
    + destruct (IsNotFound x) eqn:Hnf; [|done]. apply delete_missing in Hd as [_ Hmiss]; [|done].
      by rewrite Hw, Hobjs, lookup_insert_eq in Hmiss.
    + intros [= <-]. apply delete_ok in Hd as [Hother Hdel]. rewrite Hw, Hobjs in Hother. split; [|done].
      intros k Hk. rewrite Hother by done. by rewrite lookup_insert_ne by done.
Qed.
End Correct.

(** ** Example *)

Module StorageRun.
Import FakeKube.

Definition cfg : K8sConfig := mkConfig "ns" "" "ReadWriteMany".
Definition spec : StorageSpec :=
  mkStorageSpec "10" (mkVolMeta (Some {[ "app" := "shop" ]}) "data" None None None)
    (Some (Some (mkKHints None None (Some "Block")))) "storage".

Definition created : Volume * world :=
  match Create cfg spec "vol-1" empty_world with
  | (inr v, w) => (v, w)
  | (inl _, w) => (mkVolume None None None spec None None, w)
  end.

Lemma volume_create_get_delete_witness :
  ∃ v w', Create cfg spec "vol-1" empty_world = (inr v, w') ∧
    spec_reads_back cfg spec "vol-1" (v_Spec v) ∧ (Get cfg "vol-1" w').1 = inr v.
Proof.
  assert (Create cfg spec "vol-1" empty_world = (inr created.1, created.2)) as Hc by (by vm_compute).
  exists created.1, created.2. split; [done|].
  destruct (volume_create_get_delete sorted_range sorted_range_ok cfg spec "vol-1" empty_world created.1 created.2)
    as (_ & Hrb & Hget & _); [by vm_compute|done|].
  split; [done|]. destruct (Get cfg "vol-1" created.2) as [r w2] eqn:Hg.
  destruct (Hget r w2 eq_refl) as [->|(m1 & m2 & x & -> & _)]; [done|]. by vm_compute in Hg.
Defined.
End StorageRun.
