(* ===== verification/ContainerStore.v ===== *)
(** * The embedded container provider

    Models internal/openshift/container: the request types of
    api/container/v1alpha1, unit conversion (units/convert.go), validation
    (validate/validate.go), the conversion between container specifications and
    Deployments, Pods and Services (kubernetes/convert.go) and the store on the
    cluster's API (kubernetes/store*.go) with its page tokens. *)

From Stdlib Require Import Ascii.
From S2P Require Import Prelude GoStrings Provider Sets FileStore Json Effects K8s Encoding.
#[local] Open Scope string_scope.
#[local] Open Scope Z_scope.

(** ** api/container/v1alpha1 *)

Record ContainerCpu := mkCpu { cpu_Max : string; cpu_Min : string }.
Record ContainerMemory := mkMemory { mem_Max : string; mem_Min : string }.
Record ContainerResources := mkResources { r_Cpu : ContainerCpu; r_Memory : ContainerMemory }.
Record ContainerMetadata := mkConMeta {
  cm_Labels : option (gmap string string);
  cm_Name : string;
  cm_Namespace : option string
}.
Record ContainerPort := mkConPort { cp_ContainerPort : Z; cp_Visibility : string }.
Record ContainerNetwork := mkConNetwork { cn_Ip : option string; cn_Ports : option (list ContainerPort) }.
Record ContainerProcess := mkProcess {
  pr_Args : option (list string);
  pr_Command : option (list string);
  pr_Env : option (list (string * string))
}.

(** The image is its reference; provider hints are not read. *)
Record ContainerSpec := mkConSpec {
  cs_Image : string;
  cs_Metadata : ContainerMetadata;
  cs_Network : option ContainerNetwork;
  cs_Process : option ContainerProcess;
  cs_Resources : ContainerResources;
  cs_ServiceType : string
}.

(** [ServicePort] is port, protocol and target port. *)
Record ServiceInfo := mkServiceInfo {
  si_ClusterIp : option string;
  si_ExternalIp : option string;
  si_Name : option string;
  si_Ports : option (list (Z * string * Z));
  si_Type : option string
}.

Record Container := mkContainer {
  co_CreateTime : option Z;
  co_Id : option string;
  co_Path : option string;
  co_Service : option ServiceInfo;
  co_Spec : ContainerSpec;
  co_Status : option string;
  co_UpdateTime : option Z
}.

Record ContainerList := mkContainerList { cl_Containers : option (list Container); cl_NextPageToken : option string }.

(** ** store/errors.go *)

Inductive con_error :=
  | NotFoundError (ID : string)
  | ConflictError (Message : string)
  | InvalidArgumentError (Message : string).

Definition con_error_text (e : con_error) : string :=
  match e with
  | NotFoundError id => "container " ++ Quote id ++ " not found"
  | ConflictError m => m
  | InvalidArgumentError m => m
  end.

(** ** units/convert.go *)

Definition CutSuffix (s suffix : string) : option string :=
  if HasSuffix s suffix then Some (of_chars (take (String.length s - String.length suffix) (chars s))) else None.

Definition apiToK8s : gmap string string := {[ "MB" := "Mi"; "GB" := "Gi"; "TB" := "Ti" ]}.
Definition k8sToAPI : gmap string string := {[ "Mi" := "MB"; "Gi" := "GB"; "Ti" := "TB" ]}.

(** The first suffix of [s], in the order the map is visited, with its rest. *)
Fixpoint first_suffix (s : string) (entries : list (string * string)) : option (string * string) :=
  match entries with
  | [] => None
  | (suffix, unit) :: rest =>
      match CutSuffix s suffix with Some num => Some (num, unit) | None => first_suffix s rest end
  end.

Section Units.
Context {X Q : Type} `{!KubeLib X Q} (range : map_range).

Definition ConvertCPU (cpu : ContainerCpu) : string + Q * Q :=
  match ParseQuantity (cpu_Min cpu) with
  | inl err => inl ("invalid cpu.min " ++ Quote (cpu_Min cpu) ++ ": " ++ err)
  | inr requests =>
      match ParseQuantity (cpu_Max cpu) with
      | inl err => inl ("invalid cpu.max " ++ Quote (cpu_Max cpu) ++ ": " ++ err)
      | inr limits => inr (requests, limits)
      end
  end.

Definition CPUQuantityToAPI (q : Q) : string := pretty (MilliValue q) ++ "m".

Definition ConvertMemory (memoryStr : string) : string + Q :=
  match first_suffix memoryStr (range _ apiToK8s) with
  | Some (numStr, k8sUnit) => ParseQuantity (numStr ++ k8sUnit)
  | None => inl ("unsupported memory unit in " ++ Quote memoryStr)
  end.

Definition MemoryQuantityToAPI (q : Q) : string :=
  let s := Quantity_String q in
  match first_suffix s (range _ k8sToAPI) with
  | Some (numStr, apiUnit) => numStr ++ apiUnit
  | None => s
  end.

(** ** validate/validate.go *)

Record validationError := mkVErr { Detail : string; Pointer : string }.

Definition ptrCPUMin : string := "#/spec/resources/cpu/min".
Definition ptrCPUMax : string := "#/spec/resources/cpu/max".
Definition ptrMemMin : string := "#/spec/resources/memory/min".
Definition ptrMemMax : string := "#/spec/resources/memory/max".

(** [strings.ReplaceAll] of one character. *)
Definition replace_char (c : Ascii.ascii) (by_ : string) (s : string) : string :=
  of_chars (chars s ≫= λ d, if Ascii.eqb c d then chars by_ else [d]).

Definition jsonPointerEscape (s : string) : string :=
  replace_char "/"%char "~1" (replace_char "~"%char "~0" s).

Definition labelPointer (key : string) : string := "#/spec/metadata/labels/" ++ jsonPointerEscape key.

Definition checkContainerID (id : string) : option validationError :=
  if id =s? "health" then Some (mkVErr ("container ID " ++ Quote id ++ " is reserved and cannot be used") "#/spec/id")
  else None.

(** One of the two bounds did not parse. *)
Definition bound_error (what : string) (pointer value : string) (r : string + Q) : list validationError :=
  match r with
  | inl err => [mkVErr ("invalid " ++ what ++ " " ++ Quote value ++ ": " ++ err) pointer]
  | inr _ => []
  end.

Definition order_error (what : string) (pointer minStr maxStr : string) (lo hi : string + Q) : list validationError :=
  match lo, hi with
  | inr l, inr h =>
      if 0 <? Cmp l h then
        [mkVErr (what ++ ".min (" ++ minStr ++ ") must not exceed " ++ what ++ ".max (" ++ maxStr ++ ")") pointer]
      else []
  | _, _ => []
  end.

Definition checkResources (res : ContainerResources) : list validationError :=
  let minCPU := ParseQuantity (cpu_Min (r_Cpu res)) in
  let maxCPU := ParseQuantity (cpu_Max (r_Cpu res)) in
  let minMem := ConvertMemory (mem_Min (r_Memory res)) in
  let maxMem := ConvertMemory (mem_Max (r_Memory res)) in
  (bound_error "cpu.min" ptrCPUMin (cpu_Min (r_Cpu res)) minCPU ++
   bound_error "cpu.max" ptrCPUMax (cpu_Max (r_Cpu res)) maxCPU ++
   order_error "cpu" ptrCPUMin (cpu_Min (r_Cpu res)) (cpu_Max (r_Cpu res)) minCPU maxCPU ++
   bound_error "memory.min" ptrMemMin (mem_Min (r_Memory res)) minMem ++
   bound_error "memory.max" ptrMemMax (mem_Max (r_Memory res)) maxMem ++
   order_error "memory" ptrMemMin (mem_Min (r_Memory res)) (mem_Max (r_Memory res)) minMem maxMem)%list.

(** The reserved keys in sorted order. *)
Definition sorted_reserved : list string := [LabelInstanceID; LabelServiceType; LabelManagedBy].

Definition checkUserLabels (labels : option (gmap string string)) : list validationError :=
  match labels with
  | None => []
  | Some m =>
      omap (λ k, match m !! k with
                 | Some _ => Some (mkVErr ("label " ++ Quote k ++ " is reserved by DCM and cannot be set by the user") (labelPointer k))
                 | None => None
                 end) sorted_reserved
  end.

Definition ValidateCreate (id : string) (spec : ContainerSpec) : option con_error :=
  match checkContainerID id with
  | Some err => Some (InvalidArgumentError (Detail err))
  | None =>
      match (checkResources (cs_Resources spec) ++ checkUserLabels (cm_Labels (cs_Metadata spec)))%list with
      | [] => None
      | err :: _ => Some (InvalidArgumentError (Detail err))
      end
  end.
End Units.

(** ** kubernetes/convert.go *)

Definition MapPodPhaseToStatus (phase : string) : option string :=
  if phase =s? "Pending" then Some "PENDING"
  else if phase =s? "Running" then Some "RUNNING"
  else if phase =s? "Failed" then Some "FAILED"
  else if phase =s? "Unknown" then Some "UNKNOWN" else None.

Definition None_ : string := "none".
Definition Internal : string := "internal".
Definition External : string := "external".

Section Convert.
Context {X Q : Type} `{!KubeLib X Q} (range : map_range).

Definition resourcesFromContainer (k8sC : KContainer Q) : ContainerResources :=
  let q m k := default "" (CPUQuantityToAPI <$> (m !! k : option Q)) in
  let min0 := q (kc_Requests k8sC) "cpu" in
  let max0 := q (kc_Limits k8sC) "cpu" in
  let '(min, max) :=
    if (min0 =s? "") && negb (max0 =s? "") then (max0, max0)
    else if (max0 =s? "") && negb (min0 =s? "") then (min0, min0) else (min0, max0) in
  mkResources (mkCpu max min)
    (mkMemory (default "" (MemoryQuantityToAPI range <$> kc_Limits k8sC !! "memory"))
       (default "" (MemoryQuantityToAPI range <$> kc_Requests k8sC !! "memory"))).

Definition list_field {A} (l : list A) : option (list A) := match l with [] => None | _ => Some l end.

Definition processFromContainer (k8sC : KContainer Q) : option ContainerProcess :=
  match kc_Command k8sC, kc_Args k8sC, kc_Env k8sC with
  | [], [], [] => None
  | _, _, _ => Some (mkProcess (list_field (kc_Args k8sC)) (list_field (kc_Command k8sC)) (list_field (kc_Env k8sC)))
  end.

(** [containers\[0\]] panics when the pod template has none. *)
Definition containerFromDeployment (deploy : Deployment Q) (instanceID : string) : exc Container :=
  match d_Containers deploy with
  | [] => Panicked
  | k8sC :: _ =>
      let m := d_Meta deploy in
      let labels := userLabels (Labels m) in
      let spec := mkConSpec (kc_Image k8sC)
        (mkConMeta (if bool_decide (labels = ∅) then None else Some labels) (Name m) (Some (Namespace m)))
        (match kc_Ports k8sC with
         | [] => None
         | ports => Some (mkConNetwork None (Some ((λ p, mkConPort p None_) <$> ports)))
         end)
        (processFromContainer k8sC) (resourcesFromContainer k8sC) "container" in
      Val (mkContainer (Some (CreationTimestamp m)) (Some instanceID) (Some ("containers/" ++ instanceID)) None spec None None)
  end.

Definition with_network (n : option ContainerNetwork) (s : ContainerSpec) : ContainerSpec :=
  mkConSpec (cs_Image s) (cs_Metadata s) n (cs_Process s) (cs_Resources s) (cs_ServiceType s).

Definition latestPodTransitionTime (pod : Pod) : option Z := latest_time (pod_Conditions pod).
Definition latestDeploymentTransitionTime (deploy : Deployment Q) : option Z := latest_time (d_Conditions deploy).

Definition enrichWithPod (c : Container) (pod : Pod) : Container :=
  let status := match MapPodPhaseToStatus (pod_Phase pod) with Some s => Some s | None => co_Status c end in
  let spec :=
    if negb (pod_PodIP pod =s? "") then
      with_network (Some (mkConNetwork (Some (pod_PodIP pod)) (cs_Network (co_Spec c) ≫= cn_Ports))) (co_Spec c)
    else co_Spec c in
  let updated := match latestPodTransitionTime pod with Some t => Some t | None => co_UpdateTime c end in
  mkContainer (co_CreateTime c) (co_Id c) (co_Path c) (co_Service c) spec status updated.

Definition inferVisibility (svcType : string) : string :=
  if (svcType =s? "LoadBalancer") || (svcType =s? "NodePort") then External else Internal.

Definition enrichWithService (c : Container) (svc : Service) : Container :=
  let svcTargetPorts : list Z := (λ p, IntValue (sp_TargetPort p)) <$> svc_Ports svc in
  let info := mkServiceInfo
    (if negb (svc_ClusterIP svc =s? "") then Some (svc_ClusterIP svc) else None)
    (match svc_Ingress svc with
     | ing :: _ => if negb (ing_IP ing =s? "") then Some (ing_IP ing) else None
     | [] => None
     end)
    (Some (Name (svc_Meta svc)))
    (list_field ((λ p, (sp_Port p, sp_Protocol p, IntValue (sp_TargetPort p))) <$> svc_Ports svc))
    (Some (svc_Type svc)) in
  let visible p :=
    if bool_decide (cp_ContainerPort p ∈ svcTargetPorts) then mkConPort (cp_ContainerPort p) (inferVisibility (svc_Type svc)) else p in
  let spec :=
    match cs_Network (co_Spec c) with
    | Some n => with_network (Some (mkConNetwork (cn_Ip n) ((λ ps, visible <$> (ps : list ContainerPort)) <$> cn_Ports n))) (co_Spec c)
    | None => co_Spec c
    end in
  mkContainer (co_CreateTime c) (co_Id c) (co_Path c) (Some info) spec (co_Status c) (co_UpdateTime c).

Record K8sConfig := mkConfig { cfg_Namespace : string; cfg_ExternalServiceType : string }.

Definition ValueServiceType : string := "container".

(** [*spec.Network.Ports], nil when any pointer is. *)
Definition spec_ports (spec : ContainerSpec) : list ContainerPort := default [] (cs_Network spec ≫= cn_Ports).

Definition buildDeployment (spec : ContainerSpec) (id : string) (cfg : K8sConfig) (labels : gmap string string)
  : string + Deployment Q :=
  match ConvertCPU (r_Cpu (cs_Resources spec)) with
  | inl err => inl ("converting CPU resources: " ++ err)
  | inr (cpuReq, cpuLim) =>
      match ConvertMemory range (mem_Min (r_Memory (cs_Resources spec))) with
      | inl err => inl ("converting memory.min: " ++ err)
      | inr memReq =>
          match ConvertMemory range (mem_Max (r_Memory (cs_Resources spec))) with
          | inl err => inl ("converting memory.max: " ++ err)
          | inr memLim =>
              let k8sContainer := mkKContainer (cm_Name (cs_Metadata spec)) (cs_Image spec)
                {[ "cpu" := cpuReq; "memory" := memReq ]} {[ "cpu" := cpuLim; "memory" := memLim ]}
                (default [] (cs_Process spec ≫= pr_Command)) (default [] (cs_Process spec ≫= pr_Args))
                (default [] (cs_Process spec ≫= pr_Env))
                ((λ p, wrap32 (cp_ContainerPort p)) <$> spec_ports spec) in
              inr (mkDeployment (mkMeta "" (cm_Name (cs_Metadata spec) ++ "-") (cfg_Namespace cfg) labels 0 None)
                     (Some 1) (dcmLabels ValueServiceType id) labels [k8sContainer] [] 0 0)
          end
      end
  end.

Definition buildService (spec : ContainerSpec) (id : string) (cfg : K8sConfig) (labels : gmap string string)
  (svcType : string) (servicePorts : list ContainerPort) : Service :=
  mkService (mkMeta "" (cm_Name (cs_Metadata spec) ++ "-") (cfg_Namespace cfg) labels 0 None) svcType
    ((λ p, mkServicePort ("port-" ++ pretty (cp_ContainerPort p)) "TCP" (wrap32 (cp_ContainerPort p))
             (FromInt32 (wrap32 (cp_ContainerPort p))) 0) <$> servicePorts)
    "" (dcmLabels ValueServiceType id) [].
End Convert.

(** ** kubernetes/store*.go *)

Definition portsWithVisibility (spec : ContainerSpec) : list ContainerPort :=
  filter (λ p, cp_Visibility p ≠ None_) (spec_ports spec).

Definition hasExternalPort (ports : list ContainerPort) : bool := existsb (λ p, cp_Visibility p =s? External) ports.

Definition resolveServiceType (cfg : K8sConfig) (ports : list ContainerPort) : string :=
  if hasExternalPort ports then cfg_ExternalServiceType cfg else "ClusterIP".

Section Store.
Context {W X Q : Type} `{!KubeLib X Q}.
Context `{!KubeAPI W X (Deployment Q), !KubeAPI W X Service, !KubeAPI W X Pod}.
Context (range : map_range) (cfg : K8sConfig).

Definition error := serror X con_error.

(** dcm/labels.go: the selector does not name the service type. *)
Definition instanceSelector (instanceID : string) : string :=
  labels_String {[ LabelInstanceID := instanceID; LabelManagedBy := ValueManagedByDCM ]}.

Definition by_instance (instanceID : string) : ListOptions := mkListOptions (instanceSelector instanceID) 0 "".

Definition findDeployment (containerID : string) : kube W (error + Deployment Q) := λ w,
  match api_list (O := Deployment Q) (cfg_Namespace cfg) (by_instance containerID) w with
  | (inl x, w') => (inl (SAPI x), w')
  | (inr (items, _), w') =>
      match items with
      | [] => (inl (SDomain (NotFoundError containerID)), w')
      | [d] => (inr d, w')
      | _ => (inl (SDomain (ConflictError ("multiple deployments found for container " ++ Quote containerID))), w')
      end
  end.

Definition isRollingUpdate (deploy : Deployment Q) : bool :=
  match d_Replicas deploy with
  | Some r => if negb (d_UpdatedReplicas deploy =? r) then true else 0 <? d_UnavailableReplicas deploy
  | None => 0 <? d_UnavailableReplicas deploy
  end.

(** Only called with two pods. *)
Definition selectActivePod (first : Pod) (rest : list Pod) : Pod :=
  match List.find (λ p, pod_Phase p =s? "Running") (first :: rest) with
  | Some p => p
  | None =>
      fold_left (λ newest p,
        if CreationTimestamp (pod_Meta newest) <? CreationTimestamp (pod_Meta p) then p else newest) rest first
  end.

Definition enrichFromPods (c : Container) (deploy : Deployment Q) (instanceID : string) (pods : list Pod)
  : error + Container :=
  match pods with
  | [] =>
      inr (mkContainer (co_CreateTime c) (co_Id c) (co_Path c) (co_Service c) (co_Spec c) (Some "PENDING")
             (match latestDeploymentTransitionTime deploy with Some t => Some t | None => co_UpdateTime c end))
  | [pod] => inr (enrichWithPod c pod)
  | pod :: rest =>
      if bool_decide (length pods = 2%nat) && isRollingUpdate deploy then inr (enrichWithPod c (selectActivePod pod rest))
      else inl (SDomain (ConflictError ("multiple pods found for container " ++ Quote instanceID)))
  end.

Definition enrichFromCluster (c : Container) (deploy : Deployment Q) (instanceID : string) : kube W (error + Container) := λ w,
  match api_list (O := Pod) (cfg_Namespace cfg) (by_instance instanceID) w with
  | (inl x, w1) => (inl (SAPI x), w1)
  | (inr (pods, _), w1) =>
      match enrichFromPods c deploy instanceID pods with
      | inl err => (inl err, w1)
      | inr c1 =>
          match api_list (O := Service) (cfg_Namespace cfg) (by_instance instanceID) w1 with
          | (inl x, w2) => (inl (SAPI x), w2)
          | (inr ([svc], _), w2) => (inr (enrichWithService c1 svc), w2)
          | (inr _, w2) => (inr c1, w2)
          end
      end
  end.

Definition buildContainer (deploy : Deployment Q) (instanceID : string) : kube W (exc (error + Container)) := λ w,
  match containerFromDeployment range deploy instanceID with
  | Panicked => (Panicked, w)
  | Val c => let '(r, w') := enrichFromCluster c deploy instanceID w in (Val r, w')
  end.

Definition Get (containerID : string) : kube W (exc (error + Container)) := λ w,
  match findDeployment containerID w with
  | (inl err, w') => (Val (inl err), w')
  | (inr deploy, w') => buildContainer deploy containerID w'
  end.

(** [now]: the time [newContainerResult] reads. *)
Definition newContainerResult (spec : ContainerSpec) (id : string) (now : Z) : Container :=
  let m := cs_Metadata spec in
  let spec' := mkConSpec (cs_Image spec) (mkConMeta (cm_Labels m) (cm_Name m) (Some (cfg_Namespace cfg)))
    (cs_Network spec) (cs_Process spec) (cs_Resources spec) (cs_ServiceType spec) in
  mkContainer (Some now) (Some id) (Some ("containers/" ++ id)) None spec' (Some "PENDING") (Some now).

Definition Create (now : Z) (spec : ContainerSpec) (id : string) : kube W (error + Container) := λ w,
  let labels := objectLabels ValueServiceType id (cm_Labels (cs_Metadata spec)) in
  match api_list (O := Deployment Q) (cfg_Namespace cfg) (by_instance id) w with
  | (inl x, w1) => (inl (SAPI x), w1)
  | (inr (_ :: _, _), w1) =>
      (inl (SDomain (ConflictError ("container with instance ID " ++ Quote id ++ " already exists"))), w1)
  | (inr ([], _), w1) =>
      let servicePorts := portsWithVisibility spec in
      match buildDeployment range spec id cfg labels with
      | inl err => (inl (SDomain (InvalidArgumentError err)), w1)
      | inr deploy0 =>
          match api_create (cfg_Namespace cfg) deploy0 w1 with
          | (inl x, w2) =>
              if IsAlreadyExists x then
                (inl (SDomain (ConflictError ("deployment " ++ Quote (cm_Name (cs_Metadata spec)) ++ " already exists"))), w2)
              else (inl (SAPI x), w2)
          | (inr deploy, w2) =>
              match servicePorts with
              | [] => (inr (newContainerResult spec id now), w2)
              | _ =>
                  let svc := buildService spec id cfg labels (resolveServiceType cfg servicePorts) servicePorts in
                  match api_create (cfg_Namespace cfg) svc w2 with
                  | (inr _, w3) => (inr (newContainerResult spec id now), w3)
                  | (inl x, w3) =>
                      let '(_, w4) := api_delete (O := Deployment Q) (cfg_Namespace cfg) (Name (d_Meta deploy)) w3 in
                      (inl (SAPI x), w4)
                  end
              end
          end
      end
  end.

(** [Delete]'s loop over the instance's services. *)
Fixpoint deleteServices (svcs : list Service) : kube W (option error) := λ w,
  match svcs with
  | [] => (None, w)
  | svc :: rest =>
      match api_delete (O := Service) (cfg_Namespace cfg) (Name (svc_Meta svc)) w with
      | (Some x, w') => (Some (SAPI x), w')
      | (None, w') => deleteServices rest w'
      end
  end.

Definition Delete (containerID : string) : kube W (option error) := λ w,
  match findDeployment containerID w with
  | (inl err, w1) => (Some err, w1)
  | (inr deploy, w1) =>
      match api_list (O := Service) (cfg_Namespace cfg) (by_instance containerID) w1 with
      | (inl x, w2) => (Some (SAPI x), w2)
      | (inr (svcs, _), w2) =>
          match deleteServices svcs w2 with
          | (Some err, w3) => (Some err, w3)
          | (None, w3) =>
              match api_delete (O := Deployment Q) (cfg_Namespace cfg) (Name (d_Meta deploy)) w3 with
              | (Some x, w4) => (Some (SAPI x), w4)
              | (None, w4) => (None, w4)
              end
          end
      end
  end.

(** *** Paging *)

Definition decodePageToken (token : string) : error + Z :=
  if token =s? "" then inr 0
  else
    match DecodeString token with
    | None => inl (SDomain (InvalidArgumentError "invalid page_token"))
    | Some decoded =>
        match Atoi decoded with
        | None => inl (SDomain (InvalidArgumentError "invalid page_token"))
        | Some offset =>
            if offset <? 0 then inl (SDomain (InvalidArgumentError "invalid page_token")) else inr offset
        end
    end.

(** The loop that builds the page. *)
Fixpoint build_all (paged : list (Deployment Q)) : kube W (exc (error + list Container)) := λ w,
  match paged with
  | [] => (Val (inr []), w)
  | deploy :: rest =>
      match buildContainer deploy (label (Labels (d_Meta deploy)) LabelInstanceID) w with
      | (Panicked, w') => (Panicked, w')
      | (Val (inl err), w') => (Val (inl err), w')
      | (Val (inr c), w') =>
          match build_all rest w' with
          | (Val (inr cs), w'') => (Val (inr (c :: cs)), w'')
          | r => r
          end
      end
  end.

Definition List (maxPageSize : Z) (pageToken : string) : kube W (exc (error + ContainerList)) := λ w,
  let maxPageSize := if maxPageSize <=? 0 then 50 else maxPageSize in
  match decodePageToken pageToken with
  | inl err => (Val (inl err), w)
  | inr offset0 =>
      match api_list (O := Deployment Q) (cfg_Namespace cfg) (mkListOptions (Selector ValueServiceType) 0 "") w with
      | (inl x, w') => (Val (inl (SAPI x)), w')
      | (inr (items, _), w') =>
          let deploys := sort_by_name (λ d, Name (d_Meta d)) items in
          let total := Z.of_nat (length deploys) in
          let offset := if total <? offset0 then total else offset0 in
          let paged := drop (Z.to_nat offset) deploys in
          let limit := Z.min maxPageSize (Z.of_nat (length paged)) in
          match build_all (take (Z.to_nat limit) paged) w' with
          | (Panicked, w'') => (Panicked, w'')
          | (Val (inl err), w'') => (Val (inl err), w'')
          | (Val (inr containers), w'') =>
              (Val (inr (mkContainerList (Some containers)
                 (if offset + limit <? total then Some (EncodeToString (Itoa (offset + limit))) else None))), w'')
          end
      end
  end.
End Store.

(** ** Properties *)

(** What [instanceSelector id] selects. *)
Definition carries (id : string) (l : gmap string string) : bool :=
  (label l LabelInstanceID =s? id) && (label l LabelManagedBy =s? ValueManagedByDCM).

Lemma carries_spec id l : id ≠ "" →
  carries id l = true ↔ {[ LabelInstanceID := id; LabelManagedBy := ValueManagedByDCM ]} ⊆ l.
Proof.
  intros Hid. unfold carries, label. rewrite map_subseteq_spec. split.
  - intros H k v. breflect. intros [[<- <-]|[_ [<- <-]%lookup_singleton_Some]]%lookup_insert_Some.
    + by apply default_nonempty.
    + by apply default_nonempty.
  - intros H. rewrite (H LabelInstanceID id), (H LabelManagedBy ValueManagedByDCM) by done. simpl. by rewrite !bool_decide_true.
Qed.

Lemma managed_carries id l : id ≠ "" → isDCMManaged ValueServiceType l id = true → carries id l = true.
Proof. intros Hid. unfold isDCMManaged, carries. intros H. breflect. by rewrite !bool_decide_true. Qed.

Section Laws.
Context {W X Q : Type} `{!KubeLib X Q, !KubeLibLaws X Q}.
Context {O : Type} `{!HasMeta O, !KubeAPI W X O} {adm} `{!KubeLaws W X Q O adm}.

Lemma container_selects id l :
  valid_label_value id = true → id ≠ "" → selects (O := O) (instanceSelector id) l = carries id l.
Proof.
  intros Hv Hid. unfold instanceSelector. apply eq_bool_prop_intro. rewrite !Is_true_true, carries_spec, selects_set; [done| | |done].
  - unfold ReservedLabelKeys. set_solver.
  - intros k v [[<- <-]|[_ [<- <-]%lookup_singleton_Some]]%lookup_insert_Some; [done|by vm_compute].
Qed.

(** The objects of an instance. *)
Definition of_instance (id : string) (m : gmap string O) : list O := selected (carries id) m.

Lemma by_instance_items ns id w items c w' :
  valid_label_value id = true → id ≠ "" → api_list ns (by_instance id) w = (inr (items, c), w') →
  objs w' = objs w ∧ items ≡ₚ of_instance id (objs w ns).
Proof.
  intros Hv Hid Hl. apply list_ok in Hl as [Hw Hi]. split; [done|]. rewrite (Hi eq_refl eq_refl). simpl.
  unfold of_instance, selected. erewrite list_filter_iff; [done|]. intros o. cbv beta. by rewrite container_selects.
Qed.
End Laws.

Section Correct.
Context {W X Q : Type} `{!KubeLib X Q, !KubeLibLaws X Q}.
Context `{!KubeAPI W X (Deployment Q), !KubeAPI W X Service, !KubeAPI W X Pod}.
Context `{!KubeLaws W X Q (Deployment Q) deployment_admitted, !KubeLaws W X Q Service service_admitted}.
Context `{!KubeFrame W X Q (Deployment Q) Service, !KubeFrame W X Q Service (Deployment Q)}.
Context (range : map_range) (cfg : K8sConfig).
#[local] Abbreviation ns := (cfg_Namespace cfg).
#[local] Abbreviation deployments w := (objs (O := Deployment Q) w).
#[local] Abbreviation services w := (objs (O := Service) w).

(** A create call that reports an error has not created the object. *)
Definition clean_errors : Prop :=
  (∀ n (o : Deployment Q) w x w', api_create n o w = (inl x, w') → deployments w' = deployments w) ∧
  (∀ n (o : Service) w x w', api_create n o w = (inl x, w') → services w' = services w).

(** [k] is a new object on its way out, or the call that should remove it
    failed. *)
Definition rolled_back (k : string) (w w' : W) : Prop :=
  deployments w ns !! k = None ∧ (∀ k', k' ≠ k → deployments w' ns !! k' = deployments w ns !! k') ∧
  ((∀ o, deployments w' ns !! k = Some o → is_Some (DeletionTimestamp (d_Meta o))) ∨
   ∃ w3 x, api_delete (O := Deployment Q) ns k w3 = (Some x, w')).

(** The deployment runs one replica of the container asked for, in pods that
    carry the identifier and that its own selector matches. *)
Definition runs_spec (id : string) (spec : ContainerSpec) (d : Deployment Q) : Prop :=
  d_Replicas d = Some 1 ∧ carries id (d_TemplateLabels d) = true ∧ d_MatchLabels d ⊆ d_TemplateLabels d ∧
  ∃ c cpuReq cpuLim memReq memLim,
    d_Containers d = [c] ∧ kc_Name c = cm_Name (cs_Metadata spec) ∧ kc_Image c = cs_Image spec ∧
    kc_Ports c = ((λ p, wrap32 (cp_ContainerPort p)) <$> spec_ports spec) ∧
    kc_Command c = default [] (cs_Process spec ≫= pr_Command) ∧ kc_Args c = default [] (cs_Process spec ≫= pr_Args) ∧
    kc_Env c = default [] (cs_Process spec ≫= pr_Env) ∧
    ConvertCPU (r_Cpu (cs_Resources spec)) = inr (cpuReq, cpuLim) ∧
    ConvertMemory range (mem_Min (r_Memory (cs_Resources spec))) = inr memReq ∧
    ConvertMemory range (mem_Max (r_Memory (cs_Resources spec))) = inr memLim ∧
    kc_Requests c = {[ "cpu" := cpuReq; "memory" := memReq ]} ∧ kc_Limits c = {[ "cpu" := cpuLim; "memory" := memLim ]}.

Definition created_one (id : string) (spec : ContainerSpec) (w w' : W) : Prop :=
  ∃ d, deployments w ns !! Name (d_Meta d) = None ∧
    deployments w' ns = <[Name (d_Meta d) := d]> (deployments w ns) ∧ carries id (Labels (d_Meta d)) = true ∧
    runs_spec id spec d ∧
    match portsWithVisibility spec with
    | [] => services w' = services w
    | ports =>
        ∃ s, services w ns !! Name (svc_Meta s) = None ∧
          services w' ns = <[Name (svc_Meta s) := s]> (services w ns) ∧ carries id (Labels (svc_Meta s)) = true ∧
          svc_Selector s = dcmLabels ValueServiceType id ∧ svc_Selector s ⊆ d_TemplateLabels d ∧
          svc_Type s = resolveServiceType cfg ports ∧
          (λ sp, (sp_Port sp, sp_TargetPort sp)) <$> svc_Ports s =
            (λ p, (wrap32 (cp_ContainerPort p), FromInt32 (wrap32 (cp_ContainerPort p)))) <$> ports
    end.

Lemma list_deployments_frame n opts w r w1 :
  api_list (O := Deployment Q) n opts w = (r, w1) → deployments w1 = deployments w ∧ services w1 = services w.
Proof.
  intros Hl. pose proof (frame_list (O := Deployment Q) (O' := Service) n opts w) as Hf. rewrite Hl in Hf. simpl in Hf.
  split; [|done]. destruct r as [x|[items c]]; [by apply list_err in Hl|by apply list_ok in Hl as [? _]].
Qed.

Lemma objectLabels_carries id user : id ≠ "" → carries id (objectLabels ValueServiceType id user) = true.
Proof. intros Hid. apply managed_carries; [done|]. by apply managed_objectLabels. Qed.

Lemma build_deployment_labels spec id labels d :
  buildDeployment range spec id cfg labels = inr d → Labels (d_Meta d) = labels.
Proof.
  unfold buildDeployment. destruct (ConvertCPU _) as [|[??]]; [done|]. repeat (destruct (ConvertMemory _ _); [done|]).
  by intros [= <-].
Qed.

Lemma ports_admitted (l : list ContainerPort) (k : list ServicePort) (f : ContainerPort → ServicePort) :
  Forall2 port_admitted (f <$> l) k →
  (λ sp, (sp_Port sp, sp_TargetPort sp)) <$> k = (λ p, (sp_Port (f p), sp_TargetPort (f p))) <$> l.
Proof.
  revert k. induction l as [|p l IH]; intros k H; inversion H as [|? sp ? k' (_ & _ & Hp & Ht & _) H']; simplify_eq; [done|].
  simpl. rewrite Hp, Ht. f_equal. by apply IH.
Qed.

Lemma dcm_object_labels id user : id ≠ "" → dcmLabels ValueServiceType id ⊆ objectLabels ValueServiceType id user.
Proof. intros Hid. apply isDCMManaged_spec; [done..|]. by apply managed_objectLabels. Qed.

(** What is built, and admitted, runs the specification. *)
Lemma build_deployment_runs spec id user d0 d :
  id ≠ "" → buildDeployment range spec id cfg (objectLabels ValueServiceType id user) = inr d0 → deployment_admitted d0 d →
  runs_spec id spec d ∧ dcmLabels ValueServiceType id ⊆ d_TemplateLabels d.
Proof.
  intros Hid. unfold buildDeployment. destruct (ConvertCPU _) as [|[cpuReq cpuLim]] eqn:Ec; [done|].
  destruct (ConvertMemory _ (mem_Min _)) as [|memReq] eqn:Er; [done|].
  destruct (ConvertMemory _ (mem_Max _)) as [|memLim] eqn:El; [done|].
  intros [= <-] (_ & Hm & Ht & Hc & Hr). simpl in *. unfold runs_spec. rewrite Hm, Ht, Hc, Hr by done.
  split; [|by apply dcm_object_labels]. split; [done|]. split; [by apply objectLabels_carries|].
  split; [by apply dcm_object_labels|]. eexists _, cpuReq, cpuLim, memReq, memLim. by split_and!.
Qed.

(** The effect of [Create], on every branch. *)
Lemma create_effect now spec id w r w' :
  valid_label_value id = true → id ≠ "" → clean_errors → Create range cfg now spec id w = (r, w') →
  match r with
  | inr c => co_Id c = Some id ∧ of_instance id (deployments w ns) = [] ∧ created_one id spec w w'
  | inl _ => services w' = services w ∧ (deployments w' = deployments w ∨
      of_instance id (deployments w ns) = [] ∧ ∃ k, rolled_back k w w')
  end.
Proof.
  intros Hv Hid [Hcd Hcs]. unfold Create. set (labels := objectLabels _ _ _).
  destruct (api_list (O := Deployment Q) ns (by_instance id) w) as [lr w1] eqn:Hl.
  destruct (list_deployments_frame _ _ _ _ _ Hl) as [Hd1 Hs1].
  destruct lr as [x|[[|d0 items] c]]; [by intros [= <- <-]; eauto| |by intros [= <- <-]; eauto].
  apply by_instance_items in Hl as [_ Hitems%symmetry%Permutation_nil_r]; [|done..].
  destruct (buildDeployment range spec id cfg labels) as [err|deploy0] eqn:Hb; [by intros [= <- <-]; eauto|].
  pose proof (build_deployment_labels _ _ _ _ Hb) as Hlab0.
  destruct (api_create ns deploy0 w1) as [[x|d] w2] eqn:Hc.
  { pose proof (frame_create (O := Deployment Q) (O' := Service) ns deploy0 w1) as Hf. rewrite Hc in Hf. simpl in Hf.
    apply Hcd in Hc. destruct (IsAlreadyExists x); intros [= <- <-]; (split; [congruence|left; congruence]). }
  pose proof (frame_create (O := Deployment Q) (O' := Service) ns deploy0 w1) as Hf. rewrite Hc in Hf. simpl in Hf.
  apply create_ok in Hc as (Hnone & Hobjs & Hadm & Hlab & _).
  destruct (build_deployment_runs _ _ _ _ _ Hid Hb Hadm) as [Hruns Hpods]. change (meta d) with (d_Meta d) in *.
  rewrite Hd1 in Hnone, Hobjs. change (meta deploy0) with (d_Meta deploy0) in Hlab. rewrite Hlab0 in Hlab.
  assert (carries id (Labels (d_Meta d)) = true) as Hcar by (rewrite Hlab; by apply objectLabels_carries).
  destruct (portsWithVisibility spec) as [|p ports] eqn:Hports.
  { intros [= <- <-]. split_and!; [done..|]. exists d. rewrite Hports. split_and!; [done..|congruence]. }
  set (svc := buildService _ _ _ _ _ _). destruct (api_create ns svc w2) as [[x|s] w3] eqn:Hcr.
  - pose proof (frame_create (O := Service) (O' := Deployment Q) ns svc w2) as Hf2. rewrite Hcr in Hf2. simpl in Hf2.
    apply Hcs in Hcr. destruct (api_delete ns (Name (d_Meta d)) w3) as [del w4] eqn:Hdel. intros [= <- <-].
    pose proof (frame_delete (O := Deployment Q) (O' := Service) ns (Name (d_Meta d)) w3) as Hf3. rewrite Hdel in Hf3.
    simpl in Hf3. split; [congruence|]. right. split; [done|]. exists (Name (d_Meta d)). split; [done|].
    destruct del as [y|].
    + split; [|right; eauto]. intros k' Hk'. rewrite (delete_err _ _ _ _ _ Hdel k' Hk'), Hf2, Hobjs.
      by rewrite lookup_insert_ne.
    + apply delete_ok in Hdel as [Ho Hdel]. rewrite Hf2, Hobjs in Ho. split; [|by left].
      intros k' Hk'. rewrite Ho by done. by rewrite lookup_insert_ne.
  - pose proof (frame_create (O := Service) (O' := Deployment Q) ns svc w2) as Hf2. rewrite Hcr in Hf2. simpl in Hf2.
    apply create_ok in Hcr as (Hnone2 & Hobjs2 & (_ & Hty & Hports2 & Hsel & _) & Hlab2 & _).
    change (meta s) with (svc_Meta s) in *. rewrite Hf, Hs1 in *. intros [= <- <-]. split_and!; [done..|].
    exists d. split_and!; [done|congruence|done|done|]. rewrite Hports. exists s. split_and!; try done.
    + rewrite Hlab2. by apply objectLabels_carries.
    + by rewrite Hsel.
    + exact (ports_admitted (p :: ports) _ _ Hports2).
Qed.

(** C26: creating a container is all or nothing.  With an API server whose
    failed create calls create nothing, a successful [Create] of an identifier
    no deployment carried adds exactly one deployment that carries it (one
    replica of the image asked for, with its ports, command, environment and
    resources, in pods that the deployment's own selector matches) and, when some
    port is visible, exactly one service that selects those pods and has each
    visible port and no other, aimed at the container port of the same number.  A failed [Create] leaves the services as they were and
    every deployment that existed; a deployment it had made, for an identifier
    none carried, is removed again (or terminating), unless the API refused the
    roll-back. *)
Theorem container_create_atomic now spec id w r w' :
  valid_label_value id = true → id ≠ "" → clean_errors → Create range cfg now spec id w = (r, w') →
  match r with
  | inr c => co_Id c = Some id ∧ of_instance id (deployments w ns) = [] ∧ created_one id spec w w'
  | inl _ => services w' = services w ∧ (deployments w' = deployments w ∨
      of_instance id (deployments w ns) = [] ∧ ∃ k, rolled_back k w w')
  end.
Proof. apply create_effect. Qed.

(** *** Deletion *)

Lemma one_instance {O} `{!HasMeta O} id k (o : O) m items :
  m !! k = None → of_instance id m = [] → carries id (Labels (meta o)) = true →
  items ≡ₚ of_instance id (<[k := o]> m) → items = [o].
Proof.
  intros Hk Hm Hc Hi. apply (selected_unique (carries id) m k); [done..| |done].
  intros k' o' Hk'. apply not_true_is_false. intros Hs.
  assert (o' ∈ of_instance id m) as Hin by (apply elem_of_selected; eauto). rewrite Hm in Hin. by apply elem_of_nil in Hin.
Qed.

Lemma delete_services_one s w r w' :
  deleteServices cfg [s] w = (r, w') → r = None →
  (∀ k, k ≠ Name (svc_Meta s) → services w' ns !! k = services w ns !! k) ∧
  (∀ o, services w' ns !! Name (svc_Meta s) = Some o → is_Some (DeletionTimestamp (svc_Meta o))) ∧
  deployments w' = deployments w.
Proof.
  simpl. pose proof (frame_delete (O := Service) (O' := Deployment Q) ns (Name (svc_Meta s)) w) as Hf.
  destruct (api_delete ns (Name (svc_Meta s)) w) as [[x|] w1] eqn:Hd; intros [= <- <-]; [done|]. intros _.
  apply delete_ok in Hd as [Ho Hd]. by split_and!.
Qed.

(** Deleting a container removes what creating it made and nothing else.
    After a successful [Create], of an identifier that neither a deployment nor
    a service carried, a successful [Delete] leaves every other deployment and
    service of the namespace as it was before the [Create]; the container's own
    deployment and service are gone or terminating. *)
Theorem container_delete_restores id spec w w' w2 :
  valid_label_value id = true → id ≠ "" →
  of_instance id (deployments w ns) = [] → of_instance id (services w ns) = [] → created_one id spec w w' →
  Delete cfg id w' = (None, w2) →
  (∀ k, deployments w2 ns !! k = deployments w ns !! k ∨
        (deployments w ns !! k = None ∧ ∀ o, deployments w2 ns !! k = Some o → is_Some (DeletionTimestamp (d_Meta o)))) ∧
  (∀ k, services w2 ns !! k = services w ns !! k ∨
        (services w ns !! k = None ∧ ∀ o, services w2 ns !! k = Some o → is_Some (DeletionTimestamp (svc_Meta o)))).
Proof.
  intros Hv Hid Hnd Hns (d & Hdn & Hd & Hdc & _ & Hsvc). unfold Delete, findDeployment.
  destruct (api_list (O := Deployment Q) ns (by_instance id) w') as [lr w1] eqn:Hl.
  destruct (list_deployments_frame _ _ _ _ _ Hl) as [Hd1 Hs1]. destruct lr as [x|[items c]]; [done|].
  apply by_instance_items in Hl as [_ Hi]; [|done..]. rewrite Hd in Hi. apply one_instance in Hi as ->; [|done..].
  destruct (api_list (O := Service) ns (by_instance id) w1) as [lr2 w3] eqn:Hl2.
  pose proof (frame_list (O := Service) (O' := Deployment Q) ns (by_instance id) w1) as Hf2. rewrite Hl2 in Hf2. simpl in Hf2.
  destruct lr2 as [x|[svcs c2]]; [done|]. apply by_instance_items in Hl2 as [Hw3 Hi2]; [|done..].
  destruct (deleteServices cfg svcs w3) as [[err|] w4] eqn:Hds; [done|].
  pose proof (frame_delete (O := Deployment Q) (O' := Service) ns (Name (d_Meta d)) w4) as Hf4.
  destruct (api_delete ns (Name (d_Meta d)) w4) as [[x|] w5] eqn:Hdel; [done|]. intros [= <-]. simpl in Hf4.
  assert (deployments w4 = deployments w1 ∧
    (∀ k, services w4 ns !! k = services w ns !! k ∨
      (services w ns !! k = None ∧ ∀ o, services w4 ns !! k = Some o → is_Some (DeletionTimestamp (svc_Meta o))))) as [Hd4 Hsv].
  { rewrite Hs1 in Hi2, Hw3. destruct (portsWithVisibility spec) as [|p ports].
    - rewrite Hsvc, Hns in Hi2. apply Permutation_nil_r in Hi2 as ->. injection Hds as <-.
      split; [done|]. intros k. left. congruence.
    - destruct Hsvc as (s & Hsn & Hs & Hsc & _). rewrite Hs in Hi2. apply one_instance in Hi2 as ->; [|done..].
      destruct (delete_services_one s w3 None w4 Hds eq_refl) as (Ho & Ht & Hdep). split; [congruence|]. intros k.
      destruct (decide (k = Name (svc_Meta s))) as [->|Hne]; [by right|left].
      rewrite Ho, Hw3, Hs by done. by rewrite lookup_insert_ne. }
  apply delete_ok in Hdel as [Ho Ht]. rewrite Hf4. split; [|done]. intros k.
  destruct (decide (k = Name (d_Meta d))) as [->|Hne]; [by right|left].
  rewrite Ho, Hd4, Hd1, Hd by done. by rewrite lookup_insert_ne.
Qed.

(** *** Pages *)

(** A client that follows the page tokens until a page has none or a call
    fails; [None] is a client that has not finished. *)
Fixpoint walk (fuel : nat) (size : Z) (token : string) : kube W (option (exc (error + list Container))) := λ w,
  match fuel with
  | O => (None, w)
  | S fuel' =>
      match List range cfg size token w with
      | (Val (inr l), w') =>
          let cs := default [] (cl_Containers l) in
          match cl_NextPageToken l with
          | None => (Some (Val (inr cs)), w')
          | Some t =>
              match walk fuel' size t w' with
              | (Some (Val (inr rest)), w'') => (Some (Val (inr (app cs rest))), w'')
              | r => r
              end
          end
      | (Val (inl err), w') => (Some (Val (inl err)), w')
      | (Panicked, w') => (Some Panicked, w')
      end
  end.

Context `{!KubeFrame W X Q Pod (Deployment Q)}.

Lemma build_container_id deploy id w r w' :
  buildContainer range cfg deploy id w = (Val (inr r), w') → co_Id r = Some id ∧ deployments w' = deployments w.
Proof.
  unfold buildContainer. destruct (containerFromDeployment range deploy id) as [c|] eqn:Hc; [|done].
  assert (co_Id c = Some id) as Hid.
  { revert Hc. unfold containerFromDeployment. destruct (d_Containers deploy); [done|]. by intros [= <-]. }
  unfold enrichFromCluster. pose proof (frame_list (O := Pod) (O' := Deployment Q) ns (by_instance id) w) as Hf1.
  destruct (api_list (O := Pod) ns (by_instance id) w) as [[x|[pods cc]] w1]; [done|]. simpl in Hf1.
  destruct (enrichFromPods c deploy id pods) as [err|c1] eqn:He; [done|].
  assert (co_Id c1 = Some id) as Hid1.
  { revert He. unfold enrichFromPods. destruct pods as [|p [|p' ps]]; [by intros [= <-]|by intros [= <-]|].
    destruct (_ && _); [by intros [= <-]|done]. }
  pose proof (frame_list (O := Service) (O' := Deployment Q) ns (by_instance id) w1) as Hf2.
  destruct (api_list (O := Service) ns (by_instance id) w1) as [[x|[[|s [|]] cc2]] w2]; [done|..]; simpl in Hf2;
    intros [= <- <-]; (split; [done|congruence]).
Qed.

Lemma build_all_ids l w cs w' :
  build_all range cfg l w = (Val (inr cs), w') →
  co_Id <$> cs = (λ d, Some (label (Labels (d_Meta d)) LabelInstanceID)) <$> l ∧ deployments w' = deployments w.
Proof.
  revert w cs. induction l as [|d l IH]; intros w cs; simpl; [by intros [= <- <-]|].
  destruct (buildContainer range cfg d _ w) as [[[err|c]|] w1] eqn:Hb; [done| |done].
  apply build_container_id in Hb as [Hc Hw1].
  destruct (build_all range cfg l w1) as [[[err|cs']|] w2] eqn:Ha; [done| |done]. intros [= <- <-].
  apply IH in Ha as [Hids Hw2]. rewrite !fmap_cons, Hc, Hids. split; [done|congruence].
Qed.

(** The managed deployments in the order of the pages. *)
Definition listed (w : W) : list (Deployment Q) :=
  sort_by_name (λ d, Name (d_Meta d)) (selected (selects (O := Deployment Q) (Selector ValueServiceType)) (deployments w ns)).

Definition instance_ids (l : list (Deployment Q)) : list (option string) :=
  (λ d, Some (label (Labels (d_Meta d)) LabelInstanceID)) <$> l.

Lemma listed_stable w w' : deployments w' = deployments w → listed w' = listed w.
Proof. unfold listed. by intros ->. Qed.

Lemma listed_items w items c w' :
  api_list (O := Deployment Q) ns (mkListOptions (Selector ValueServiceType) 0 "") w = (inr (items, c), w') →
  sort_by_name (λ d, Name (d_Meta d)) items = listed w ∧ deployments w' = deployments w.
Proof.
  intros Hl. apply list_ok in Hl as [Hw Hi]. specialize (Hi eq_refl eq_refl). simpl in Hi. split; [|done].
  apply sort_by_name_unique; [|exact Hi]. intros x y Hx Hy Heq. rewrite Hi in Hx, Hy.
  apply elem_of_selected in Hx as [[k Hk] _]. apply elem_of_selected in Hy as [[k' Hk'] _].
  pose proof (objs_name _ _ _ _ Hk) as H1. pose proof (objs_name _ _ _ _ Hk') as H2.
  change (meta x) with (d_Meta x) in H1. change (meta y) with (d_Meta y) in H2. congruence.
Qed.

Lemma page_at size token k w l w' :
  decodePageToken (X := X) token = inr k → 0 ≤ k ≤ Z.of_nat (length (listed w)) →
  List range cfg size token w = (Val (inr l), w') →
  let total := Z.of_nat (length (listed w)) in
  let n := Z.min (if size <=? 0 then 50 else size) (total - k) in
  deployments w' = deployments w ∧
  co_Id <$> default [] (cl_Containers l) = instance_ids (take (Z.to_nat n) (drop (Z.to_nat k) (listed w))) ∧
  cl_NextPageToken l = if k + n <? total then Some (EncodeToString (Itoa (k + n))) else None.
Proof.
  intros Hk Hr. unfold List. rewrite Hk.
  destruct (api_list (O := Deployment Q) ns _ w) as [[x|[items c]] w1] eqn:Hl; [done|].
  apply listed_items in Hl as [-> Hw1]. rewrite (proj2 (Z.ltb_ge _ _)) by lia.
  rewrite length_drop, Nat2Z.inj_sub, Z2Nat.id by lia.
  destruct (build_all range cfg _ w1) as [[[err|cs]|] w2] eqn:Hb; [done| |done]. intros [= <- <-].
  apply build_all_ids in Hb as [Hids Hw2]. cbv zeta. simpl. split_and!; [congruence|exact Hids|done].
Qed.

Lemma page_token_roundtrip k : 0 ≤ k ≤ int64_max → decodePageToken (X := X) (EncodeToString (Itoa k)) = inr k.
Proof.
  intros Hk. unfold decodePageToken. rewrite bool_decide_false.
  - rewrite DecodeString_EncodeToString, Atoi_Itoa by done. by rewrite (proj2 (Z.ltb_ge _ _)) by lia.
  - intros He. pose proof (DecodeString_EncodeToString (Itoa k)) as Hd. rewrite He in Hd. change (DecodeString "") with (Some "") in Hd.
    pose proof (Atoi_Itoa k Hk) as Ha. injection Hd as Hd. rewrite <-Hd in Ha. done.
Qed.

(** The pages of the container list are complete.  On deployments that do
    not change, a client that follows [next_page_token] from the empty token
    finishes after at most one more page than there are containers, whatever
    the page size; unless a call failed, it has got every managed deployment's
    container exactly once, in the order of the deployments' names. *)
Theorem container_pages_complete size w :
  Z.of_nat (length (listed w)) ≤ int64_max →
  ∃ r w', walk (S (length (listed w))) size "" w = (Some r, w') ∧
    ∀ cs, r = Val (inr cs) → co_Id <$> cs = instance_ids (listed w).
Proof.
  intros Hmax.
  assert (∀ fuel k token w1, 0 ≤ k ≤ Z.of_nat (length (listed w)) → decodePageToken (X := X) token = inr k →
    deployments w1 = deployments w → Z.of_nat (length (listed w)) - k < Z.of_nat fuel →
    ∃ r w', walk fuel size token w1 = (Some r, w') ∧
      ∀ cs, r = Val (inr cs) → co_Id <$> cs = instance_ids (drop (Z.to_nat k) (listed w))) as Hgo.
  { induction fuel as [|fuel IH]; intros k token w1 Hk Hd Hw1 Hf; [lia|]. cbn [walk].
    destruct (List range cfg size token w1) as [[[err|l]|] w2] eqn:Hl; [naive_solver| |naive_solver].
    pose proof (listed_stable w w1 Hw1) as Hls.
    assert (0 ≤ k ≤ Z.of_nat (length (listed w1))) as Hk1 by (by rewrite Hls).
    destruct (page_at size token k w1 l w2 Hd Hk1 Hl) as (Hw2 & Hids & Hnext).
    rewrite Hls in Hids, Hnext. cbv zeta. rewrite Hnext.
    set (total := Z.of_nat (length (listed w))) in *.
    set (n := Z.min (if size <=? 0 then 50 else size) (total - k)) in *.
    assert (0 ≤ n ∧ (total - k = 0 ∨ 0 < n)) as Hn by (unfold n; destruct (size <=? 0) eqn:Hs; breflect; lia).
    assert (n ≤ total - k) as Hn' by (unfold n; lia).
    destruct (k + n <? total) eqn:Hlt; breflect.
    - destruct (IH (k + n) (EncodeToString (Itoa (k + n))) w2) as (r & w3 & Hwalk & Hcs);
        [fold total; lia|apply page_token_roundtrip; lia|congruence|fold total; lia|].
      rewrite Hwalk. destruct r as [[err|rest]|]; [naive_solver| |naive_solver].
      eexists _, w3. split; [done|]. intros cs [= <-]. rewrite fmap_app, Hids, (Hcs rest eq_refl). unfold instance_ids.
      rewrite <-fmap_app. f_equal. rewrite Z2Nat.inj_add, <-drop_drop by lia. apply take_drop.
    - eexists _, w2. split; [done|]. intros cs [= <-]. rewrite Hids. f_equal. apply take_ge. rewrite length_drop.
      unfold total in *. lia. }
  destruct (Hgo (S (length (listed w))) 0 "" w) as (r & w' & Hw & Hcs); [lia|done|done|lia|].
  exists r, w'. by split.
Qed.
End Correct.

(** ** A cluster *)

Module ContainerRun.
Import FakeKube.

Definition cfg : K8sConfig := mkConfig "ns" "LoadBalancer".
Definition spec (name : string) : ContainerSpec :=
  mkConSpec "quay.io/shop:1" (mkConMeta None name None)
    (Some (mkConNetwork None (Some [mkConPort 80 External; mkConPort 9090 None_]))) None
    (mkResources (mkCpu "2" "1") (mkMemory "2GB" "1GB")) "container".

Definition created : world := (Create sorted_range cfg 0 (spec "shop") "con-1" empty_world).2.
Definition both : world := (Create sorted_range cfg 0 (spec "cart") "con-2" created).2.

Lemma fake_clean : clean_errors (W := world) (X := Status) (Q := Z).
Proof. split; intros n o w x w' Hc; simpl in Hc; by case_match; simplify_eq. Qed.

(** The deployment of the container. *)
Definition the_deployment : Deployment Z :=
  match map_to_list (objs (O := Deployment Z) created "ns") with
  | (_, d) :: _ => d
  | [] => mkDeployment (mkMeta "" "" "" ∅ 0 None) None ∅ ∅ [] [] 0 0
  end.

Lemma created_shop : created_one sorted_range cfg "con-1" (spec "shop") empty_world created.
Proof.
  pose proof (create_effect sorted_range cfg 0 (spec "shop") "con-1" empty_world _ _
    ltac:(by vm_compute) ltac:(discriminate) fake_clean (surjective_pairing _)) as H.
  destruct (Create sorted_range cfg 0 (spec "shop") "con-1" empty_world).1 as [e|c] eqn:Hr; [by vm_compute in Hr|].
  apply H.
Qed.

Lemma container_create_atomic_witness :
  (∃ c, (Create sorted_range cfg 0 (spec "shop") "con-1" empty_world).1 = inr c ∧ co_Id c = Some "con-1") ∧
  created_one sorted_range cfg "con-1" (spec "shop") empty_world created.
Proof.
  assert (valid_label_value "con-1" = true) as Hv by (by vm_compute).
  pose proof (container_create_atomic sorted_range cfg 0 (spec "shop") "con-1" empty_world _ _
    Hv ltac:(discriminate) fake_clean (surjective_pairing _)) as H.
  destruct (Create sorted_range cfg 0 (spec "shop") "con-1" empty_world).1 as [e|c] eqn:Hr; [by vm_compute in Hr|].
  destruct H as (Hid & _ & Hone). split; [exists c; exact (conj eq_refl Hid)|exact Hone].
Defined.

Lemma container_delete_restores_witness :
  (Delete cfg "con-1" created).1 = None ∧
  ∀ k, objs (O := Deployment Z) (Delete cfg "con-1" created).2 "ns" !! k = objs (O := Deployment Z) empty_world "ns" !! k ∨
    (objs (O := Deployment Z) empty_world "ns" !! k = None ∧
     ∀ o, objs (O := Deployment Z) (Delete cfg "con-1" created).2 "ns" !! k = Some o → is_Some (DeletionTimestamp (d_Meta o))).
Proof.
  assert ((Delete cfg "con-1" created).1 = None) as Hd by (by vm_compute). split; [done|].
  assert (Delete cfg "con-1" created = (None, (Delete cfg "con-1" created).2)) as Hd'
    by (rewrite (surjective_pairing (Delete cfg "con-1" created)) at 1; by rewrite Hd).
  refine (proj1 (container_delete_restores sorted_range cfg "con-1" (spec "shop") empty_world created _ _ _ _ _ created_shop Hd'));
    [by vm_compute|discriminate|by vm_compute|by vm_compute].
Defined.

Lemma container_pages_complete_witness :
  length (listed cfg both) = 2%nat ∧
  ∃ cs, (walk sorted_range cfg 3 1 "" both).1 = Some (Val (inr cs)) ∧ co_Id <$> cs = [Some "con-2"; Some "con-1"].
Proof.
  assert (length (listed cfg both) = 2%nat) as Hlen by (by vm_compute). split; [done|].
  destruct (container_pages_complete sorted_range cfg 1 both) as (r & w' & Hw & Hr);
    [rewrite Hlen; unfold int64_max; lia|].
  rewrite Hlen in Hw. rewrite Hw. cbn [fst].
  assert (match (walk sorted_range cfg 3 1 "" both).1 with Some (Val (inr _)) => true | _ => false end = true) as Hok
    by (by vm_compute).
  rewrite Hw in Hok. cbn [fst] in Hok. destruct r as [[e|cs]|]; [done| |done].
  exists cs. split; [done|]. rewrite (Hr cs eq_refl). by vm_compute.
Defined.

(** The selector of a container names its identifier but not its service type:
    deleting a container deletes the Service of a network with that
    identifier. *)
Lemma container_delete_foreign_service :
  let foreign := mkService (mkMeta "net" "" "ns" (dcmLabels "network" "con-1") 0 None) "ClusterIP" [] "" ∅ [] in
  let w := (api_create "ns" foreign created).2 in
  objs (O := Service) w "ns" !! "net" = Some foreign ∧
  (Delete cfg "con-1" w).1 = None ∧ objs (O := Service) (Delete cfg "con-1" w).2 "ns" !! "net" = None.
Proof. by vm_compute. Qed.
End ContainerRun.
