(* ===== verification/Monitors.v ===== *)
(** * Informer callbacks of the embedded providers

    Models the callbacks of internal/openshift/network/monitoring/monitor.go,
    internal/openshift/storage/monitoring (monitor.go, k8s_events.go) and
    internal/openshift/container/monitoring (monitor.go, reconcile.go,
    indexer.go): which status event each object that an informer delivers leads
    to.  The network and storage callbacks run on the monitor of [StatusMon];
    the theorems compose the stores, the callbacks, the monitor and the
    debouncer. *)

From S2P Require Import Prelude GoStrings Effects K8s Debounce StatusMon.
From S2P Require Import NetworkStore StorageStore ContainerStore.
#[local] Open Scope string_scope.
#[local] Open Scope Z_scope.

(** ** What an informer delivers *)

(** [corev1.Event] *)
Record KEvent := mkKEvent {
  ke_Meta : ObjectMeta;
  ke_Type : string;
  ke_Reason : string;
  ke_Message : string;
  ke_Kind : string;       (* InvolvedObject *)
  ke_Namespace : string;
  ke_Name : string
}.

(** The dynamic types behind [obj any]; a tombstone is
    [cache.DeletedFinalStateUnknown]. *)
Inductive obj (Q : Type) :=
  | OService (s : Service)
  | OPVC (p : PVC Q)
  | ODeployment (d : Deployment Q)
  | OPod (p : Pod)
  | OEvent (e : KEvent)
  | OTombstone (o : obj Q)
  | OOther.
Arguments OService {Q} s.
Arguments OPVC {Q} p.
Arguments ODeployment {Q} d.
Arguments OPod {Q} p.
Arguments OEvent {Q} e.
Arguments OTombstone {Q} o.
Arguments OOther {Q}.

(** [obj.(metav1.Object)] *)
Definition as_object {Q} (o : obj Q) : option ObjectMeta :=
  match o with
  | OService s => Some (svc_Meta s)
  | OPVC p => Some (pvc_Meta p)
  | ODeployment d => Some (d_Meta d)
  | OPod p => Some (pod_Meta p)
  | OEvent e => Some (ke_Meta e)
  | OTombstone _ | OOther => None
  end.

(** The same function in the three packages. *)
Definition extractInstanceIDFromDelete {Q} (o : obj Q) : string :=
  let o := match o with OTombstone d => d | _ => o end in
  match as_object o with None => "" | Some m => ExtractInstanceID m end.

(** *** network/monitoring/monitor.go

    A callback is the event it passes to [submitIfChanged], if any. *)
Module NetworkMon.

Definition handleServiceEvent {Q} (o : obj Q) : option StatusEvent :=
  match o with
  | OService service =>
      let instanceID := ExtractInstanceID (svc_Meta service) in
      if instanceID =s? "" then None
      else
        let '(status, msg) := MapServiceToStatus (Some service) in
        Some (mkEvent instanceID status msg)
  | _ => None
  end.

Definition handleServiceDelete {Q} (o : obj Q) : option StatusEvent :=
  let instanceID := extractInstanceIDFromDelete o in
  if instanceID =s? "" then None else Some (mkEvent instanceID DELETED "resource no longer exists").

(** [submitIfChanged] has no further guard. *)
Definition suppress (last event : StatusEvent) : bool := false.
End NetworkMon.

(** *** storage/monitoring *)
Module StorageMon.

Definition terminalPVCWarningReasons : gset string :=
  {[ "FailedBinding"; "ProvisioningFailed"; "FailedProvisioning"; "AllocationFailed" ]}.

Definition isTerminalPVCWarning (event : KEvent) : bool :=
  if negb (ke_Type event =s? "Warning") then false
  else if negb (ke_Kind event =s? "PersistentVolumeClaim") then false
  else bool_decide (ke_Reason event ∈ terminalPVCWarningReasons).

Definition handlePVCEvent {Q} (o : obj Q) : option StatusEvent :=
  match o with
  | OPVC pvc =>
      let instanceID := ExtractInstanceID (pvc_Meta pvc) in
      if instanceID =s? "" then None
      else
        let '(status, msg) := MapPVCToStatus (Some pvc) in
        Some (mkEvent instanceID status msg)
  | _ => None
  end.

Definition handlePVCDelete {Q} (o : obj Q) : option StatusEvent :=
  let instanceID := extractInstanceIDFromDelete o in
  if instanceID =s? "" then None else Some (mkEvent instanceID DELETED "resource no longer exists").

(** [pvcLister]: the lister's cache by namespace and name. *)
Definition handleWarningEvent {Q} (namespace : string) (pvcLister : string → string → option (PVC Q)) (o : obj Q)
  : option StatusEvent :=
  match o with
  | OEvent event =>
      if negb (isTerminalPVCWarning event) then None
      else
        let ns := if ke_Namespace event =s? "" then namespace else ke_Namespace event in
        match pvcLister ns (ke_Name event) with
        | None => None
        | Some pvc =>
            let instanceID := ExtractInstanceID (pvc_Meta pvc) in
            if instanceID =s? "" then None
            else
              let msg := if ke_Message event =s? "" then "PVC failure: " ++ ke_Reason event
                         else ke_Reason event ++ ": " ++ ke_Message event in
              Some (mkEvent instanceID FAILED msg)
        end
  | _ => None
  end.

(** A submitted failure is not replaced by PROVISIONING. *)
Definition suppress (last event : StatusEvent) : bool :=
  (EvStatus last =s? FAILED) && (EvStatus event =s? PROVISIONING).
End StorageMon.

(** *** container/monitoring *)
Module ContainerMon.

(** indexer.go: the keys of an object in the index. *)
Definition InstanceIDIndexFunc {Q} (o : obj Q) : list string :=
  match as_object o with
  | None => []
  | Some m => let id := ExtractInstanceID m in if id =s? "" then [] else [id]
  end.

(** [indexer.ByIndex]: the cached objects whose keys include the identifier. *)
Definition ByIndex {Q} (cache : list (obj Q)) (instanceID : string) : list (obj Q) :=
  filter (λ o, instanceID ∈ InstanceIDIndexFunc o) cache.

Definition podPhasePriority (phase : string) : Z :=
  if phase =s? "Failed" then 4
  else if phase =s? "Unknown" then 3
  else if phase =s? "Pending" then 2
  else if phase =s? "Running" then 1 else 0.

Definition as_pod {Q} (o : obj Q) : option Pod := match o with OPod p => Some p | _ => None end.
Definition as_deployment {Q} (o : obj Q) : option (Deployment Q) := match o with ODeployment d => Some d | _ => None end.

(** The loop of [lookupPodByIndex]. *)
Fixpoint worst_pod {Q} (items : list (obj Q)) (worst : option Pod) (worstPriority : Z) : option Pod :=
  match items with
  | [] => worst
  | item :: rest =>
      match as_pod item with
      | None => worst_pod rest worst worstPriority
      | Some pod =>
          let p := podPhasePriority (pod_Phase pod) in
          if worstPriority <? p then worst_pod rest (Some pod) p else worst_pod rest worst worstPriority
      end
  end.

Definition lookupPodByIndex {Q} (cache : list (obj Q)) (instanceID : string) : option Pod :=
  match ByIndex cache instanceID with
  | [] => None
  | [item] => as_pod item
  | items => worst_pod items None (-1)
  end.

Definition lookupDeployByIndex {Q} (cache : list (obj Q)) (instanceID : string) : option (Deployment Q) :=
  match ByIndex cache instanceID with
  | [] => None
  | item :: _ => as_deployment item
  end.

(** reconcile.go *)

Definition progressDeadlineExceededReason : string := "ProgressDeadlineExceeded".

Fixpoint failure_reason (statuses : list ContainerStatus) : string :=
  match statuses with
  | [] => ""
  | cs :: rest =>
      match nonempty (cs_Waiting cs), nonempty (cs_Terminated cs) with
      | "", "" => failure_reason rest
      | "", terminated => terminated
      | waiting, _ => waiting
      end
  end.

Definition extractPodFailureReason (pod : Pod) : string := failure_reason (pod_ContainerStatuses pod).

Fixpoint stuck_condition (pod : option Pod) (conditions : list Condition) : option (string * string) :=
  match conditions with
  | [] => None
  | c :: rest =>
      if negb (c_Type c =s? "Progressing") || negb (c_Status c =s? "False") ||
         negb (c_Reason c =s? progressDeadlineExceededReason)
      then stuck_condition pod rest
      else
        let msg := if c_Message c =s? "" then progressDeadlineExceededReason else c_Message c in
        let msg := match pod with
                   | Some p =>
                       let reason := extractPodFailureReason p in
                       if negb (reason =s? "") then msg ++ " (" ++ reason ++ ")" else msg
                   | None => msg
                   end in
        Some (FAILED, msg)
  end.

Definition stuckRolloutStatus {Q} (deploy : Deployment Q) (pod : option Pod) : option (string * string) :=
  stuck_condition pod (d_Conditions deploy).

Fixpoint replica_failure (conditions : list Condition) : option (string * string) :=
  match conditions with
  | [] => None
  | c :: rest =>
      if (c_Type c =s? "ReplicaFailure") && (c_Status c =s? "True") then
        Some (FAILED, if negb (c_Message c =s? "") then c_Message c else "replica failure")
      else replica_failure rest
  end.

(** [None]: nothing to publish; [Panicked]: a nil deployment is dereferenced. *)
Definition ReconcileStatus {Q} (deploy : option (Deployment Q)) (pod : option Pod) : exc (option (string * string)) :=
  match deploy, pod with
  | None, None => Val (Some (DELETED, "resource no longer exists"))
  | _, _ =>
      match deploy ≫= λ d, stuckRolloutStatus d pod with
      | Some r => Val (Some r)
      | None =>
          match pod with
          | Some pod =>
              match MapPodPhaseToStatus (pod_Phase pod) with
              | None => Val None
              | Some status =>
                  let msg :=
                    if status =s? FAILED then
                      let reason := extractPodFailureReason pod in
                      if negb (reason =s? "") then reason else pod_Phase pod
                    else pod_Phase pod in
                  Val (Some (status, msg))
              end
          | None =>
              match deploy with
              | None => Panicked
              | Some d =>
                  if bool_decide (d_Replicas d = Some 0) then Val (Some (FAILED, "deployment scaled to zero"))
                  else
                    match replica_failure (d_Conditions d) with
                    | Some r => Val (Some r)
                    | None => Val (Some (PENDING, "waiting for pods"))
                    end
              end
          end
      end
  end.

(** The event passed to [debouncer.Submit], if any. *)
Definition reconcileAndSubmit {Q} (instanceID : string) (deploy : option (Deployment Q)) (pod : option Pod)
  : exc (option StatusEvent) :=
  match ReconcileStatus deploy pod with
  | Val (Some (status, msg)) => Val (Some (mkEvent instanceID status msg))
  | Val None => Val None
  | Panicked => Panicked
  end.

Section Handlers.
Context {Q : Type} (pods deploys : list (obj Q)).

Definition handleDeployEvent (o : obj Q) : exc (option StatusEvent) :=
  match as_object o with
  | None => Val None
  | Some m =>
      let instanceID := ExtractInstanceID m in
      if instanceID =s? "" then Val None
      else reconcileAndSubmit instanceID (as_deployment o) (lookupPodByIndex pods instanceID)
  end.

Definition handleDeployDelete (o : obj Q) : exc (option StatusEvent) :=
  let instanceID := extractInstanceIDFromDelete o in
  if instanceID =s? "" then Val None
  else reconcileAndSubmit (Q := Q) instanceID None (lookupPodByIndex pods instanceID).

Definition handlePodEvent (o : obj Q) : exc (option StatusEvent) :=
  match as_object o with
  | None => Val None
  | Some m =>
      let instanceID := ExtractInstanceID m in
      if instanceID =s? "" then Val None
      else reconcileAndSubmit instanceID (lookupDeployByIndex deploys instanceID) (as_pod o)
  end.

Definition handlePodDelete (o : obj Q) : exc (option StatusEvent) :=
  let instanceID := extractInstanceIDFromDelete o in
  if instanceID =s? "" then Val None
  else reconcileAndSubmit instanceID (lookupDeployByIndex deploys instanceID) (lookupPodByIndex pods instanceID).
End Handlers.
End ContainerMon.

(** ** Declared statuses: [Valid] of the generated types *)

Definition NetworkStatus_Valid (e : string) : bool := (e =s? DELETED) || (e =s? PENDING) || (e =s? READY).
Definition StorageStatus_Valid (e : string) : bool :=
  (e =s? DELETED) || (e =s? DELETING) || (e =s? FAILED) || (e =s? PROVISIONING) || (e =s? RUNNING).
Definition ContainerStatus_Valid (e : string) : bool :=
  (e =s? DELETED) || (e =s? FAILED) || (e =s? PENDING) || (e =s? RUNNING) || (e =s? UNKNOWN).

(** The events of a provider's callbacks. *)
Definition network_event {Q} (ev : StatusEvent) : Prop :=
  ∃ o : obj Q, NetworkMon.handleServiceEvent o = Some ev ∨ NetworkMon.handleServiceDelete o = Some ev.
Definition storage_event {Q} (namespace : string) (ev : StatusEvent) : Prop :=
  ∃ (o : obj Q) lister, StorageMon.handlePVCEvent o = Some ev ∨ StorageMon.handlePVCDelete o = Some ev ∨
    StorageMon.handleWarningEvent namespace lister o = Some ev.
Definition container_event {Q} (ev : StatusEvent) : Prop :=
  ∃ (pods deploys : list (obj Q)) o,
    ContainerMon.handleDeployEvent pods o = Val (Some ev) ∨ ContainerMon.handleDeployDelete pods o = Val (Some ev) ∨
    ContainerMon.handlePodEvent deploys o = Val (Some ev) ∨ ContainerMon.handlePodDelete pods deploys o = Val (Some ev).

Lemma network_event_valid {Q} ev :
  network_event (Q := Q) ev → InstanceID ev ≠ "" ∧ NetworkStatus_Valid (EvStatus ev) = true.
Proof.
  intros [o [H|H]].
  - destruct o; try done. simpl in H. cases_in H; by breflect.
  - unfold NetworkMon.handleServiceDelete in H. cases_in H. by breflect.
Qed.

Lemma storage_event_valid {Q} ns ev :
  storage_event (Q := Q) ns ev → InstanceID ev ≠ "" ∧ StorageStatus_Valid (EvStatus ev) = true.
Proof.
  intros (o & lister & [H|[H|H]]).
  - destruct o; try done. unfold StorageMon.handlePVCEvent, MapPVCToStatus in H. cases_in H; by breflect.
  - unfold StorageMon.handlePVCDelete in H. cases_in H. by breflect.
  - destruct o; try done. unfold StorageMon.handleWarningEvent in H. cases_in H; by breflect.
Qed.

(** ** Containers *)

Import ContainerMon.

Lemma worst_pod_spec {Q} (items : list (obj Q)) worst prio :
  match worst with Some w => podPhasePriority (pod_Phase w) = prio | None => prio = -1 end →
  match worst_pod items worst prio with
  | Some r =>
      (worst = Some r ∨ r ∈ omap as_pod items) ∧ prio ≤ podPhasePriority (pod_Phase r) ∧
      ∀ p, p ∈ omap as_pod items → podPhasePriority (pod_Phase p) ≤ podPhasePriority (pod_Phase r)
  | None => worst = None ∧ omap as_pod items = []
  end.
Proof.
  revert worst prio. induction items as [|item items IH]; intros worst prio Hw.
  { simpl. destruct worst as [w|]; [|done]. split_and!; [by left|lia|by intros p ?%elem_of_nil]. }
  cbn [worst_pod omap list_omap]. destruct (as_pod item) as [pod|]; [|by apply IH].
  destruct (prio <? podPhasePriority (pod_Phase pod)) eqn:Hp; breflect.
  - specialize (IH (Some pod) (podPhasePriority (pod_Phase pod)) eq_refl).
    destruct (worst_pod items _ _) as [r|]; [|by destruct IH]. destruct IH as (Hr & Hle & Hall). split_and!.
    + right. destruct Hr as [[= ->]|Hr]; [left|by right].
    + lia.
    + intros p [->|Hin]%elem_of_cons; [done|by apply Hall].
  - specialize (IH worst prio Hw). destruct (worst_pod items worst prio) as [r|].
    + destruct IH as (Hr & Hle & Hall). split_and!; [destruct Hr; [by left|right; by right]|done|].
      intros p [->|Hin]%elem_of_cons; [lia|by apply Hall].
    + destruct IH as [-> _]. assert (0 ≤ podPhasePriority (pod_Phase pod)) by (unfold podPhasePriority; cases; lia). lia.
Qed.

(** The pods of an instance in the informer's cache. *)
Definition pods_of {Q} (cache : list (obj Q)) (instanceID : string) : list Pod :=
  omap as_pod (ByIndex cache instanceID).

Lemma lookup_pod_spec {Q} (cache : list (obj Q)) id :
  match lookupPodByIndex cache id with
  | Some r => r ∈ pods_of cache id ∧
      ∀ p, p ∈ pods_of cache id → podPhasePriority (pod_Phase p) ≤ podPhasePriority (pod_Phase r)
  | None => pods_of cache id = []
  end.
Proof.
  unfold lookupPodByIndex, pods_of. destruct (ByIndex cache id) as [|item [|item' items]]; [done| |].
  - simpl. destruct (as_pod item) as [p|]; [|done]. split; [left|]. intros p' ->%list_elem_of_singleton. done.
  - pose proof (worst_pod_spec (item :: item' :: items) None (-1) eq_refl) as H.
    destruct (worst_pod _ _ _) as [r|]; [|by destruct H]. destruct H as ([|Hr] & _ & Hall); [done|]. done.
Qed.

(** The rollout has exceeded its deadline; a replica could not be created. *)
Definition rollout_stuck {Q} (d : Deployment Q) : bool :=
  existsb (λ c, (c_Type c =s? "Progressing") && (c_Status c =s? "False") &&
                (c_Reason c =s? progressDeadlineExceededReason)) (d_Conditions d).
Definition replica_failed {Q} (d : Deployment Q) : bool :=
  existsb (λ c, (c_Type c =s? "ReplicaFailure") && (c_Status c =s? "True")) (d_Conditions d).

Lemma stuck_spec {Q} (d : Deployment Q) pod :
  fst <$> stuckRolloutStatus d pod = if rollout_stuck d then Some FAILED else None.
Proof.
  unfold stuckRolloutStatus, rollout_stuck. induction (d_Conditions d) as [|c l IH]; [done|]. simpl.
  by destruct (c_Type c =s? "Progressing"), (c_Status c =s? "False"), (c_Reason c =s? progressDeadlineExceededReason); simpl.
Qed.

Lemma replica_failure_spec {Q} (d : Deployment Q) :
  fst <$> replica_failure (d_Conditions d) = if replica_failed d then Some FAILED else None.
Proof.
  unfold replica_failed. induction (d_Conditions d) as [|c l IH]; [done|]. simpl.
  by destruct ((c_Type c =s? "ReplicaFailure") && (c_Status c =s? "True")).
Qed.

(** What a status says of a deployment, if any, and of the pod looked up. *)
Lemma reconcile_spec {Q} (deploy : option (Deployment Q)) pod :
  ∃ r, ReconcileStatus deploy pod = Val r ∧
    fst <$> r =
      match deploy, pod with
      | None, None => Some DELETED
      | None, Some p => MapPodPhaseToStatus (pod_Phase p)
      | Some d, Some p => if rollout_stuck d then Some FAILED else MapPodPhaseToStatus (pod_Phase p)
      | Some d, None =>
          Some (if rollout_stuck d || bool_decide (d_Replicas d = Some 0) || replica_failed d then FAILED else PENDING)
      end.
Proof.
  unfold ReconcileStatus. destruct deploy as [d|], pod as [p|]; simpl; [| | |by eauto].
  - pose proof (stuck_spec d (Some p)) as Hs. destruct (stuckRolloutStatus d (Some p)) as [[]|]; simpl in Hs.
    + destruct (rollout_stuck d); simplify_eq. by eexists.
    + destruct (rollout_stuck d); [done|]. destruct (MapPodPhaseToStatus (pod_Phase p)); by eexists.
  - pose proof (stuck_spec d None) as Hs. destruct (stuckRolloutStatus d None) as [[]|]; simpl in Hs.
    + destruct (rollout_stuck d); simplify_eq. by eexists.
    + destruct (rollout_stuck d); [done|]. case_bool_decide; [by eexists|]. simpl.
      pose proof (replica_failure_spec d) as Hr. destruct (replica_failure (d_Conditions d)) as [[]|], (replica_failed d);
        simplify_eq/=; by eexists.
  - destruct (MapPodPhaseToStatus (pod_Phase p)); by eexists.
Qed.

Lemma reconcile_submit {Q} id (deploy : option (Deployment Q)) pod ev :
  reconcileAndSubmit id deploy pod = Val (Some ev) → InstanceID ev = id ∧ ContainerStatus_Valid (EvStatus ev) = true.
Proof.
  unfold reconcileAndSubmit. destruct (reconcile_spec deploy pod) as (r & -> & Hr).
  destruct r as [[st msg]|]; [|done]. intros [= <-]. simpl in Hr |- *. split; [done|].
  assert (∀ ph st', MapPodPhaseToStatus ph = Some st' → ContainerStatus_Valid st' = true) as Hm.
  { intros ph st'. unfold MapPodPhaseToStatus. cases; by intros [= <-]. }
  destruct deploy as [d|], pod as [p|]; [destruct (rollout_stuck d)|destruct (_ || replica_failed d)|..];
    simplify_eq; solve [done|by eapply Hm].
Qed.

Lemma container_event_valid {Q} ev :
  container_event (Q := Q) ev → InstanceID ev ≠ "" ∧ ContainerStatus_Valid (EvStatus ev) = true.
Proof.
  intros (pods & deploys & o & H).
  assert (∃ id (deploy : option (Deployment Q)) pod, id ≠ "" ∧ reconcileAndSubmit id deploy pod = Val (Some ev))
    as (id & deploy & pod & Hid & Hr).
  { unfold handleDeployEvent, handleDeployDelete, handlePodEvent, handlePodDelete in H.
    destruct H as [H|[H|[H|H]]]; cases_in H; breflect; eauto 10. }
  by apply reconcile_submit in Hr as [-> ?].
Qed.

(** C32: a deployment's status is the worst of its pods.  On every deployment
    event of an instance the callback returns without a nil dereference, for
    whatever order the pod cache has: a rollout past its deadline is FAILED;
    otherwise, with pods, the status is that of a pod whose phase is at least as
    concerning as every other one's (so one failed pod is enough for FAILED);
    without pods it is FAILED for a deployment scaled to zero or with a replica
    failure, and PENDING otherwise. *)
Theorem container_status_worst {Q} (pods : list (obj Q)) (d : Deployment Q) :
  let id := ExtractInstanceID (d_Meta d) in
  id ≠ "" →
  ∃ r, handleDeployEvent pods (ODeployment d) = Val r ∧ (∀ ev, r = Some ev → InstanceID ev = id) ∧
    match pods_of pods id with
    | [] =>
        EvStatus <$> r =
          Some (if rollout_stuck d || bool_decide (d_Replicas d = Some 0) || replica_failed d then FAILED else PENDING)
    | mine =>
        ∃ pod, pod ∈ mine ∧ (∀ p, p ∈ mine → podPhasePriority (pod_Phase p) ≤ podPhasePriority (pod_Phase pod)) ∧
          (EvStatus <$> r = if rollout_stuck d then Some FAILED else MapPodPhaseToStatus (pod_Phase pod)) ∧
          ∀ p, p ∈ mine → pod_Phase p = "Failed" → EvStatus <$> r = Some FAILED
    end.
Proof.
  intros id Hid. unfold handleDeployEvent. simpl. fold id. rewrite bool_decide_false by done.
  pose proof (lookup_pod_spec pods id) as Hl. unfold reconcileAndSubmit.
  destruct (reconcile_spec (Some d) (lookupPodByIndex pods id)) as (r & -> & Hr).
  exists (match r with Some (st, msg) => Some (mkEvent id st msg) | None => None end).
  split; [by destruct r as [[]|]|]. split; [intros ev Hev; by destruct r as [[]|]; simplify_eq|].
  assert (EvStatus <$> match r with Some (st, msg) => Some (mkEvent id st msg) | None => None end = fst <$> r) as ->
    by (by destruct r as [[]|]).
  rewrite Hr. destruct (lookupPodByIndex pods id) as [pod|].
  - destruct Hl as [Hin Hall]. destruct (pods_of pods id) as [|p0 l] eqn:Hp; [by apply elem_of_nil in Hin|].
    exists pod. split_and!; [done..|]. intros p Hpin Hf. destruct (rollout_stuck d); [done|].
    specialize (Hall p Hpin). rewrite Hf in Hall. unfold podPhasePriority in Hall. unfold MapPodPhaseToStatus.
    change ("Failed" =s? "Failed") with true in Hall. simpl in Hall.
    destruct (pod_Phase pod =s? "Failed") eqn:Hph; [|cases_in Hall; lia].
    breflect. by rewrite Hph.
  - by rewrite Hl.
Qed.

(** C38: published statuses are declared ones.  Whatever objects the informers
    deliver and however callbacks, timers, goroutines and the shutdown
    interleave, every event a network or storage monitor hands to the transport
    names an instance and carries a status that the API's generated [Valid]
    accepts for that service type; so does every event a container callback
    submits. *)
Theorem published_statuses_declared {Q} (namespace : string) (n : nat) (l : list mact) (id : string) (ev : StatusEvent) :
  Forall mfair l → Z.of_nat (length l) < 2 ^ 64 →
  (Forall (observes (network_event (Q := Q))) l → (id, ev) ∈ sent (mruns NetworkMon.suppress n l) →
     InstanceID ev ≠ "" ∧ NetworkStatus_Valid (EvStatus ev) = true) ∧
  (Forall (observes (storage_event (Q := Q) namespace)) l → (id, ev) ∈ sent (mruns StorageMon.suppress n l) →
     InstanceID ev ≠ "" ∧ StorageStatus_Valid (EvStatus ev) = true) ∧
  (container_event (Q := Q) ev → InstanceID ev ≠ "" ∧ ContainerStatus_Valid (EvStatus ev) = true).
Proof.
  intros Hf Hn. split_and!.
  - intros Ho Hs. eapply network_event_valid, mall_sent; [by apply sent_observed|done].
  - intros Ho Hs. eapply storage_event_valid, mall_sent; [by apply sent_observed|done].
  - apply container_event_valid.
Qed.

(** ** What the transport says agrees with what the API says *)

Section Agree.
Context {W X Q : Type} `{!KubeLib X Q, !KubeAPI W X Service, !KubeAPI W X (PVC Q)}.

Lemma find_service_id ns id w svc w' :
  findService ns id w = (inr svc, w') → ExtractInstanceID (svc_Meta svc) = id.
Proof.
  unfold findService. destruct (api_list ns _ w) as [[x|[[|s [|]] c]] w1]; try done.
  destruct (isDCMManagedService s id) eqn:Hm; [|done]. intros [= <- _].
  unfold isDCMManagedService, isDCMManaged in Hm. by breflect.
Qed.

Lemma find_pvc_id cfg id w pvc w' :
  findPVC (Q := Q) cfg id w = (inr pvc, w') → ExtractInstanceID (pvc_Meta pvc) = id.
Proof.
  unfold findPVC. destruct (api_get (StorageStore.cfg_Namespace cfg) id w) as [[x|p] w1]; [by cases|].
  destruct (isDCMManagedPVC p id) eqn:Hm; [|done]. intros [= <- _].
  unfold isDCMManagedPVC, isDCMManaged in Hm. by breflect.
Qed.

(** A network's status converges to the API's.  Take the network monitor at
    rest in any reachable state and a cluster on which [Get] answers for an
    instance.  When the informer delivers the service [Get] found (as every
    resync does), then however timers and goroutines are scheduled, they stop
    after a bounded number of steps; once they have stopped, provided publishing
    succeeds within its attempts, the last event the transport has for the
    instance carries exactly the status [Get] reports, and the monitor's record
    agrees. *)
Theorem network_status_agrees ns id (w w' : W) network (l l' : list mact) :
  Forall mfair l → Z.of_nat (length l) + Z.of_nat (length l') + 1 < 2 ^ 64 →
  let s := mruns NetworkMon.suppress 1 l in
  rest s → Draining.stopped (Draining.deb (debouncer s)) = false →
  id ≠ "" → NetworkStore.Get ns id w = (inr network, w') →
  ∃ svc ev, findService ns id w = (inr svc, w') ∧ NetworkMon.handleServiceEvent (Q := Q) (OService svc) = Some ev ∧
    let s1 := mstep NetworkMon.suppress s (Observe 0 ev) in
    (mrun NetworkMon.suppress s1 l' →
     let s' := fold_left (mstep NetworkMon.suppress) l' s1 in
     (length l' ≤ measure s1)%nat ∧
     ((∀ a, ¬ menabled s' a) →
      EvStatus <$> last (proj id (sent s')) = n_Status network ∧ lastPublished (state s') !! id = Some ev)).
Proof.
  intros Hf Hn s Hr Hst Hid Hget. unfold NetworkStore.Get, mbind, kube_bind in Hget.
  destruct (findService ns id w) as [[err|svc] w1] eqn:Hfs; [done|]. injection Hget as <- <-.
  pose proof (find_service_id _ _ _ _ _ Hfs) as Hsvc.
  destruct (MapServiceToStatus (Some svc)) as [st msg] eqn:Hm. exists svc, (mkEvent id st msg). split; [done|].
  split. { unfold NetworkMon.handleServiceEvent. by rewrite Hsvc, bool_decide_false, Hm. }
  intros s1 Hrun s'.
  destruct (status_converges NetworkMon.suppress 1 l 0 (mkEvent id st msg) l') as [Hlen Hdone]; try done.
  { apply rest_callback; [done|lia]. }
  split; [done|]. intros Hblocked. destruct (Hdone Hblocked) as [Hl Hp].
  change (InstanceID (mkEvent id st msg)) with id in Hl, Hp. fold s s1 s' in Hl, Hp. rewrite Hl, Hp. split.
  { change (n_Status (serviceToNetwork svc id)) with (Some (MapServiceToStatus (Some svc)).1). by rewrite Hm. }
  unfold MapServiceToStatus in Hm. by cases_in Hm.
Qed.

(** A volume's status converges to the API's, in the same sense, with the
    two informers of the storage monitor: any callback that delivers the claim
    [Get] found leads, once the monitor is at rest again, to that status being
    the last one published.  The exception is the guard of [submitIfChanged]: a
    claim that is PROVISIONING after a failure was submitted stays reported as
    failed. *)
Theorem volume_status_agrees cfg id (w w' : W) volume (l l' : list mact) (g : nat) :
  Forall mfair l → Z.of_nat (length l) + Z.of_nat (length l') + 1 < 2 ^ 64 →
  let s := mruns StorageMon.suppress 2 l in
  rest s → Draining.stopped (Draining.deb (debouncer s)) = false → (g < 2)%nat →
  id ≠ "" → StorageStore.Get (Q := Q) cfg id w = (inr volume, w') →
  (v_Status volume = Some PROVISIONING → EvStatus <$> lastSubmitted (state s) !! id ≠ Some FAILED) →
  ∃ pvc ev, findPVC cfg id w = (inr pvc, w') ∧ StorageMon.handlePVCEvent (Q := Q) (OPVC pvc) = Some ev ∧
    let s1 := mstep StorageMon.suppress s (Observe g ev) in
    (mrun StorageMon.suppress s1 l' →
     let s' := fold_left (mstep StorageMon.suppress) l' s1 in
     (length l' ≤ measure s1)%nat ∧
     ((∀ a, ¬ menabled s' a) →
      EvStatus <$> last (proj id (sent s')) = v_Status volume ∧ lastPublished (state s') !! id = Some ev)).
Proof.
  intros Hf Hn s Hr Hst Hg Hid Hget Hsup. unfold StorageStore.Get, mbind, kube_bind in Hget.
  destruct (findPVC cfg id w) as [[err|pvc] w1] eqn:Hfs; [done|]. injection Hget as <- <-.
  pose proof (find_pvc_id _ _ _ _ _ Hfs) as Hpvc.
  destruct (MapPVCToStatus (Some pvc)) as [st msg] eqn:Hm. exists pvc, (mkEvent id st msg). split; [done|].
  split. { unfold StorageMon.handlePVCEvent. by rewrite Hpvc, bool_decide_false, Hm. }
  intros s1 Hrun s'.
  destruct (status_converges StorageMon.suppress 2 l g (mkEvent id st msg) l') as [Hlen Hdone]; try done.
  { apply rest_callback; [done|lia]. }
  { intros lst Hlst. change (InstanceID (mkEvent id st msg)) with id in Hlst. fold s in Hlst.
    change (v_Status (volumeFromPVC pvc id)) with (Some (MapPVCToStatus (Some pvc)).1) in Hsup.
    rewrite Hm, Hlst in Hsup. unfold StorageMon.suppress. cbn [EvStatus]. apply andb_false_iff. rewrite !bool_decide_eq_false.
    destruct (decide (st = PROVISIONING)) as [->|]; [left|by right]. intros Hl. apply Hsup; [done|]. by rewrite <-Hl. }
  split; [done|]. intros Hblocked. destruct (Hdone Hblocked) as [Hl Hp].
  change (InstanceID (mkEvent id st msg)) with id in Hl, Hp. fold s s1 s' in Hl, Hp. rewrite Hl, Hp. split.
  { change (v_Status (volumeFromPVC pvc id)) with (Some (MapPVCToStatus (Some pvc)).1). by rewrite Hm. }
  unfold MapPVCToStatus in Hm. by cases_in Hm.
Qed.
End Agree.

(** ** Runs *)

Module MonitorRun.
Import FakeKube.

Definition always (_ : Z) : bool := true.

(** Goroutine [t] publishes its event with success. *)
Definition publish_one (t : nat) : list mact := [Run t; PublishCall t always always 5; Run t; Run t].
Definition deliver : list mact := [Submitted 0; Fire 0] ++ publish_one 0.

Definition ready : StatusEvent := mkEvent "net-1" READY "service is ready".
Definition pending : StatusEvent := mkEvent "net-1" PENDING "waiting for external IP assignment".
Definition provisioning : StatusEvent := mkEvent "vol-1" PROVISIONING "".
Definition failed_event : StatusEvent := mkEvent "vol-1" FAILED "FailedBinding: no volume".

Ltac rest_tac := split; [split; [vm_compute; reflexivity|]|]; vm_compute; repeat constructor.
Ltac enabled_tac :=
  match goal with
  | |- _ ∧ _ => split; enabled_tac
  | |- _ ∨ _ => first [left; enabled_tac|right; enabled_tac]
  | |- ∃ _, _ => eexists; reflexivity
  | |- _ = _ => reflexivity
  | |- _ → False => intro; discriminate
  | |- True => exact I
  end.
Ltac mrun_tac := vm_compute; enabled_tac.

Lemma container_status_worst_witness :
  let failed := mkPod (mkMeta "p1" "" "ns" (dcmLabels "container" "con-1") 0 None) "Failed" "" [] [] in
  let running := mkPod (mkMeta "p2" "" "ns" (dcmLabels "container" "con-1") 0 None) "Running" "" [] [] in
  ∃ r, handleDeployEvent [OPod failed; OPod running] (ODeployment ContainerRun.the_deployment) = Val r ∧
       EvStatus <$> r = Some FAILED.
Proof.
  intros failed running.
  destruct (container_status_worst [OPod failed; OPod running] ContainerRun.the_deployment) as (r & Hr & _ & H);
    [by vm_compute|].
  exists r. split; [done|].
  assert (pods_of (Q := Z) [OPod failed; OPod running] (ExtractInstanceID (d_Meta ContainerRun.the_deployment)) = [failed; running])
    as Hp by (vm_compute; reflexivity).
  rewrite Hp in H. destruct H as (pod & _ & _ & _ & H). apply (H failed); [left|reflexivity].
Defined.

Lemma network_status_agrees_witness :
  ∃ n, (NetworkStore.Get "ns" "net-1" NetworkRun.created.2).1 = inr n ∧
    let s1 := mstep NetworkMon.suppress (mruns NetworkMon.suppress 1 []) (Observe 0 ready) in
    let s' := fold_left (mstep NetworkMon.suppress) deliver s1 in
    EvStatus <$> last (proj "net-1" (sent s')) = n_Status n ∧ lastPublished (state s') !! "net-1" = Some ready.
Proof.
  destruct (NetworkStore.Get "ns" "net-1" NetworkRun.created.2) as [[err|n] w'] eqn:Hget; [by vm_compute in Hget|].
  exists n. split; [done|].
  assert (rest (mruns NetworkMon.suppress 1 [])) as Hrest by rest_tac.
  destruct (network_status_agrees (Q := Z) "ns" "net-1" NetworkRun.created.2 w' n [] deliver
    (Forall_nil_2 _) ltac:(vm_compute; reflexivity) Hrest eq_refl ltac:(discriminate) Hget) as (svc & ev & Hf & Hev & H).
  assert (Some ev = Some ready) as [= ->].
  { rewrite <-Hev. vm_compute in Hf. injection Hf as <- _. vm_compute. reflexivity. }
  cbv zeta in H |- *. destruct H as [_ H]; [mrun_tac|]. apply H. intros a. apply rest_blocked. rest_tac.
Defined.

Lemma volume_status_agrees_witness :
  ∃ v, (StorageStore.Get StorageRun.cfg "vol-1" StorageRun.created.2).1 = inr v ∧ v_Status v = Some PROVISIONING ∧
    let s1 := mstep StorageMon.suppress (mruns StorageMon.suppress 2 []) (Observe 0 provisioning) in
    let s' := fold_left (mstep StorageMon.suppress) deliver s1 in
    EvStatus <$> last (proj "vol-1" (sent s')) = v_Status v.
Proof.
  destruct (StorageStore.Get StorageRun.cfg "vol-1" StorageRun.created.2) as [[err|v] w'] eqn:Hget; [by vm_compute in Hget|].
  exists v. split; [done|]. split; [by vm_compute in Hget; injection Hget as <- _|].
  assert (rest (mruns StorageMon.suppress 2 [])) as Hrest by rest_tac.
  destruct (volume_status_agrees StorageRun.cfg "vol-1" StorageRun.created.2 w' v [] deliver 0
    (Forall_nil_2 _) ltac:(vm_compute; reflexivity) Hrest eq_refl ltac:(lia) ltac:(discriminate) Hget
    ltac:(vm_compute; discriminate)) as (pvc & ev & Hf & Hev & H).
  assert (Some ev = Some provisioning) as [= ->].
  { rewrite <-Hev. vm_compute in Hf. injection Hf as <- _. vm_compute. reflexivity. }
  cbv zeta in H |- *. destruct H as [_ H]; [mrun_tac|]. destruct H as [H _]; [|exact H].
  intros a. apply rest_blocked. rest_tac.
Defined.

Lemma published_statuses_declared_witness :
  let l := Observe 0 ready :: deliver in
  ("net-1", ready) ∈ sent (mruns NetworkMon.suppress 1 l) ∧ NetworkStatus_Valid (EvStatus ready) = true.
Proof.
  intros l. assert (("net-1", ready) ∈ sent (mruns NetworkMon.suppress 1 l)) as Hin by (vm_compute; left).
  split; [done|]. refine (proj2 (proj1 (published_statuses_declared (Q := Z) "ns" 1 l "net-1" ready _ _) _ Hin)).
  - repeat (apply Forall_cons_2; [done|]). apply Forall_nil_2.
  - vm_compute. reflexivity.
  - apply Forall_cons_2; [|repeat (apply Forall_cons_2; [done|]); apply Forall_nil_2].
    exists (OService (mkService (mkMeta "s" "" "ns" (dcmLabels "network" "net-1") 0 None) "ClusterIP" [] "" ∅ [])).
    left. vm_compute. reflexivity.
Defined.

(** A service that loses its address and gets it back within the debounce
    interval: the second change equals what was last published, so it is
    dropped while the first one is still queued, and the transport is left with
    PENDING for a ready service. *)
Lemma network_flap_publishes_stale :
  let l := Observe 0 ready :: deliver ++
           [Observe 0 pending; Submitted 0; Observe 0 ready; Fire 1] ++ publish_one 1 in
  let s := mruns NetworkMon.suppress 1 l in
  rest s ∧ last (proj "net-1" (sent s)) = Some pending.
Proof. split; [rest_tac|by vm_compute]. Qed.

(** The guard against downgrading a failure runs under the lock, but the event
    is queued after it is released: with the claim's callback between the two
    and a warning's callback in between, PROVISIONING replaces FAILED in the
    debouncer, and it alone is published. *)
Lemma storage_failure_downgraded :
  let l := ([Observe 0 provisioning; Observe 1 failed_event; Submitted 1; Submitted 0; Fire 1] ++ publish_one 0)%list in
  let s := mruns StorageMon.suppress 2 l in
  rest s ∧ proj "vol-1" (sent s) = [provisioning] ∧ lastSubmitted (state s) !! "vol-1" = Some failed_event.
Proof. split; [rest_tac|by vm_compute]. Qed.

(** A pod event is judged by that pod alone: with a failed pod in the cache,
    an update of a running one submits RUNNING. *)
Lemma pod_event_masks_failure :
  let failed := mkPod (mkMeta "p1" "" "ns" (dcmLabels "container" "con-1") 0 None) "Failed" "" [] [] in
  let running := mkPod (mkMeta "p2" "" "ns" (dcmLabels "container" "con-1") 0 None) "Running" "" [] [] in
  let d : obj Z := ODeployment ContainerRun.the_deployment in
  handlePodEvent [d] (OPod running) = Val (Some (mkEvent "con-1" RUNNING "Running")) ∧
  handleDeployEvent [OPod failed; OPod running] d = Val (Some (mkEvent "con-1" FAILED "Failed")).
Proof. split; vm_compute; reflexivity. Qed.
End MonitorRun.
