(* ===== verification/Kubevirt.v ===== *)
(** * The embedded virtual machine provider

    Models internal/openshift/kubevirtvm: the conversion between VM
    specifications and KubeVirt VirtualMachines (kubevirt/mapper.go), the client
    (kubevirt/client.go) and the status monitor (monitor/service.go, phase.go).
    The KubeVirt API server is [KubeAPI] for virtual machines; quantities and the
    not-found error are apimachinery's, floating point is the class [Float64]. *)

From S2P Require Import Prelude GoStrings Json Encoding Codec ApiTypes Effects K8s.
Import VMApi.
#[local] Open Scope string_scope.
#[local] Open Scope Z_scope.

(** ** kubevirtv1.VirtualMachine: the fields the provider sets or reads *)

Inductive VolumeSource (Q : Type) := ContainerDisk (image : string) | EmptyDisk (capacity : Q) | OtherSource.
Arguments ContainerDisk {Q} image.
Arguments EmptyDisk {Q} capacity.
Arguments OtherSource {Q}.

Record KDisk := mkKDisk { kd_Name : string; kd_Bus : string; kd_BootOrder : option Z }.
Record KInterface := mkKInterface { ki_Name : string; ki_Model : string; ki_Masquerade : bool }.
Record KNetwork := mkKNetwork { kn_Name : string; kn_Pod : bool }.

Record VMTemplate (Q : Type) := mkVMTemplate {
  t_Labels : gmap string string;
  t_Disks : list KDisk;
  t_Interfaces : list KInterface;
  t_Requests : gmap string Q;
  t_Machine : string;
  t_Networks : list KNetwork;
  t_Volumes : list (string * VolumeSource Q)
}.
Arguments mkVMTemplate {Q}.
Arguments t_Labels {Q}.
Arguments t_Disks {Q}.
Arguments t_Interfaces {Q}.
Arguments t_Requests {Q}.
Arguments t_Machine {Q}.
Arguments t_Networks {Q}.
Arguments t_Volumes {Q}.

Record VirtualMachine (Q : Type) := mkVirtualMachine {
  kvm_Meta : ObjectMeta;
  kvm_RunStrategy : string;
  kvm_Template : option (VMTemplate Q)
}.
Arguments mkVirtualMachine {Q}.
Arguments kvm_Meta {Q}.
Arguments kvm_RunStrategy {Q}.
Arguments kvm_Template {Q}.

#[export] Instance vm_meta Q : HasMeta (VirtualMachine Q) := kvm_Meta.

(** ** Parameters *)

(** [float64]: reading, arithmetic and truncation. *)
Class Float64 (F : Type) := {
  ParseFloat : string → option F;
  f_of : Z → F;
  f_mul : F → F → F;
  f_div : F → F → F;
  f_int64 : F → Z
}.

(** Further functions of apimachinery. *)
Class VMLib (X Q : Type) := {
  NewQuantity : Z → Q;               (* [resource.NewQuantity(n, resource.BinarySI)] *)
  NewNotFound : string → string → X  (* [apierrors.NewNotFound] *)
}.

(** ** kubevirt/mapper.go *)

Definition osImageUbuntu : string := "quay.io/containerdisks/ubuntu:latest".
Definition osImageCentosStream : string := "quay.io/containerdisks/centos-stream:latest".
Definition osImageFedora : string := "quay.io/containerdisks/fedora:latest".
Definition osImageDebian : string := "quay.io/containerdisks/debian:latest".
Definition osImageCirros : string := "quay.io/kubevirt/cirros-container-disk-demo:latest".

Definition osImages : gmap string string :=
  {[ "ubuntu" := osImageUbuntu; "centos" := osImageCentosStream; "centos-stream" := osImageCentosStream;
     "fedora" := osImageFedora; "cirros" := osImageCirros; "debian" := osImageDebian ]}.
Definition defaultOSImage : string := osImageCirros.

Definition getContainerDiskImage (guestOS : GuestOS) : string :=
  default defaultOSImage (osImages !! ToLower (gos_Type guestOS)).

Definition inferGuestOSFromImage (image : string) : string :=
  let image := ToLower image in
  if Contains image "ubuntu" then "ubuntu"
  else if Contains image "centos" then "centos"
  else if Contains image "fedora" then "fedora"
  else if Contains image "cirros" then "cirros"
  else "cirros".

Definition TrimSuffix (s suffix : string) : string :=
  if HasSuffix s suffix then of_chars (take (String.length s - String.length suffix) (chars s)) else s.

Section Mapper.
Context {X Q F T : Type} `{!KubeLib X Q, !VMLib X Q, !Float64 F}.

(** [resource.MustParse]. *)
Definition MustParse (s : string) : exc Q :=
  match ParseQuantity s with inr q => Val q | inl _ => Panicked end.

Definition parseMemorySize (sizeStr : string) : string + string :=
  let sizeStr := TrimSpace sizeStr in
  match ParseQuantity sizeStr with
  | inr quantity => inr (Quantity_String quantity)
  | inl _ =>
      let upperStr := ToUpper sizeStr in
      if HasSuffix upperStr "GB" then
        let numStr := TrimSuffix upperStr "GB" in
        match ParseFloat numStr with
        | None => inl ("invalid GB value: " ++ numStr)
        | Some num =>
            let giValue := f_div (f_mul (f_mul (f_mul num (f_of 1000)) (f_of 1000)) (f_of 1000))
                             (f_of (1024 * 1024 * 1024)) in
            inr (Quantity_String (NewQuantity
              (f_int64 (f_mul (f_mul (f_mul giValue (f_of 1024)) (f_of 1024)) (f_of 1024)))))
        end
      else if HasSuffix upperStr "MB" then
        let numStr := TrimSuffix upperStr "MB" in
        match ParseFloat numStr with
        | None => inl ("invalid MB value: " ++ numStr)
        | Some num =>
            let miValue := f_div (f_mul (f_mul num (f_of 1000)) (f_of 1000)) (f_of (1024 * 1024)) in
            inr (Quantity_String (NewQuantity (f_int64 (f_mul (f_mul miValue (f_of 1024)) (f_of 1024)))))
        end
      else
        match ParseInt64 sizeStr with
        | Some num => inr (Quantity_String (NewQuantity (wrap64 (wrap64 (num * 1024) * 1024))))
        | None => inl ("unable to parse memory size: " ++ sizeStr)
        end
  end.

Definition buildResources (vmSpec : VMSpec (T := T)) : exc (gmap string Q) :=
  match MustParse (Itoa (vc_Count (vms_Vcpu vmSpec))) with
  | Panicked => Panicked
  | Val cpu =>
      match parseMemorySize (me_Size (vms_Memory vmSpec)) with
      | inl _ => Val {[ "cpu" := cpu ]}
      | inr memorySize =>
          match MustParse memorySize with
          | Panicked => Panicked
          | Val memory => Val (<["memory" := memory]> {[ "cpu" := cpu ]})
          end
      end
  end.

Definition spec_disks (vmSpec : VMSpec (T := T)) : list Disk := default [] (st_Disks (vms_Storage vmSpec)).

Definition boots (i : nat) (disk : Disk) : bool := bool_decide (i = 0%nat) || (di_Name disk =s? "boot").

Definition buildDisks (vmSpec : VMSpec (T := T)) : list KDisk :=
  let disks := imap (λ i disk,
    mkKDisk (di_Name disk) "virtio" (if boots i disk then Some 1 else None)) (spec_disks vmSpec) in
  match disks with [] => [mkKDisk "boot" "virtio" (Some 1)] | _ => disks end.

(** [default_capacity]: [resource.MustParse("10Gi")]. *)
Definition buildVolumes (default_capacity : Q) (vmSpec : VMSpec (T := T)) : list (string * VolumeSource Q) :=
  let volumes := imap (λ i disk,
    (di_Name disk,
     if boots i disk then ContainerDisk (getContainerDiskImage (vms_GuestOs vmSpec))
     else EmptyDisk default_capacity)) (spec_disks vmSpec) in
  match volumes with
  | [] => [("boot", ContainerDisk (getContainerDiskImage (vms_GuestOs vmSpec)))]
  | _ => volumes
  end.

Definition buildNetworks : list KNetwork := [mkKNetwork "default" true].
Definition buildInterfaces : list KInterface := [mkKInterface "default" "virtio" true].

Definition vm_labels (vmID : string) : gmap string string :=
  {[ LabelManagedBy := ValueManagedByDCM; LabelInstanceID := vmID ]}.

Definition VMSpecToVirtualMachine (namespace : string) (vmSpec : VMSpec (T := T)) (vmID : string)
  : exc (VirtualMachine Q) :=
  match buildResources vmSpec, MustParse "10Gi" with
  | Val requests, Val capacity =>
      Val (mkVirtualMachine (mkMeta "" "dcm-" namespace (vm_labels vmID) 0 None) "Always"
             (Some (mkVMTemplate (vm_labels vmID) (buildDisks vmSpec) buildInterfaces requests "q35"
                      buildNetworks (buildVolumes capacity vmSpec))))
  | _, _ => Panicked
  end.

(** The fields [VirtualMachineToVMSpec] fills: CPU count, memory size, guest
    operating system and disk names; [None] where it leaves the zero value. *)
Record read_spec := mkReadSpec {
  rs_Cpu : option Z; rs_Memory : option string; rs_GuestOS : option string; rs_Disks : list string
}.

Definition VirtualMachineToVMSpec (vm : VirtualMachine Q) : read_spec :=
  match kvm_Template vm with
  | None => mkReadSpec None None None []
  | Some t =>
      mkReadSpec
        (match t_Requests t !! "cpu" with Some q => Atoi (Quantity_String q) | None => None end)
        (Quantity_String <$> t_Requests t !! "memory")
        (Some (match t_Volumes t with
               | (_, ContainerDisk image) :: _ => inferGuestOSFromImage image
               | _ => "cirros"
               end))
        (match kd_Name <$> t_Disks t with [] => ["boot"] | names => names end)
  end.
End Mapper.

(** ** kubevirt/client.go *)

Section Client.
Context {W X Q : Type} `{!KubeLib X Q, !VMLib X Q, !KubeAPI W X (VirtualMachine Q)} (namespace : string).

(** The package has no error types of its own. *)
Abbreviation vm_error := (serror X Empty_set).

Definition CreateVirtualMachine (vm : VirtualMachine Q) : kube W (vm_error + VirtualMachine Q) := λ w,
  match api_create namespace vm w with
  | (inl x, w') => (inl (SWrap "failed to create VirtualMachine" (SAPI x)), w')
  | (inr result, w') => (inr result, w')
  end.

Definition GetVirtualMachine (vmID : string) : kube W (vm_error + VirtualMachine Q) := λ w,
  match api_list namespace (mkListOptions (LabelInstanceID ++ "=" ++ vmID) 0 "") w with
  | (inl x, w') => (inl (SWrap "failed to get VirtualMachine by dcmlabelinstanceid" (SAPI x)), w')
  | (inr ([], _), w') => (inl (SAPI (NewNotFound "virtualmachines.kubevirt.io" vmID)), w')
  | (inr (vm :: _, _), w') => (inr vm, w')
  end.

Definition ListVirtualMachines (options : ListOptions) : kube W (vm_error + list (VirtualMachine Q)) := λ w,
  match api_list namespace options w with
  | (inl x, w') => (inl (SAPI x), w')
  | (inr (items, _), w') => (inr items, w')
  end.

Definition DeleteVirtualMachine (vmId : string) : kube W (option vm_error) := λ w,
  match GetVirtualMachine vmId w with
  | (inl err, w') => (Some err, w')
  | (inr item, w') =>
      match api_delete (O := VirtualMachine Q) namespace (Name (kvm_Meta item)) w' with
      | (None, w'') => (None, w'')
      | (Some x, w'') => (Some (SAPI x), w'')
      end
  end.

(** [put]: the API server's answer to replacing an object by its name. *)
Definition UpdateVirtualMachine (put : string → string → VirtualMachine Q → kube W (X + VirtualMachine Q)) (vm : VirtualMachine Q)
  : kube W (vm_error + VirtualMachine Q) := λ w,
  match put namespace (Name (kvm_Meta vm)) vm w with
  | (inl x, w') => (inl (SAPI x), w')
  | (inr result, w') => (inr result, w')
  end.
End Client.

(** ** monitor/phase.go, monitor/service.go *)

Record VMInfo := mkVMInfo { vi_VMID : string; vi_VMName : string; vi_Namespace : string; vi_Phase : string }.

Definition mapVMIPhase (phase : string) : string :=
  if phase =s? "Pending" then "Pending"
  else if phase =s? "Scheduling" then "Scheduling"
  else if phase =s? "Scheduled" then "Scheduled"
  else if phase =s? "Running" then "Running"
  else if phase =s? "Succeeded" then "Succeeded"
  else if phase =s? "Failed" then "Failed"
  else if phase =s? "Unknown" then "Unknown"
  else "Unknown".

(** A VirtualMachineInstance: metadata and phase. *)
Record VMI := mkVMI { vmi_Meta : ObjectMeta; vmi_Phase : string }.

Definition ExtractVMInfo (vmi : option VMI) : string + VMInfo :=
  match vmi with
  | None => inl "VMI object is nil"
  | Some vmi =>
      inr (mkVMInfo (label (Labels (vmi_Meta vmi)) LabelInstanceID) (Name (vmi_Meta vmi)) (Namespace (vmi_Meta vmi))
             (mapVMIPhase (vmi_Phase vmi)))
  end.

(** The event handed to the publisher: instance and status.  [None] for an
    object that is not unstructured or does not convert to an instance. *)
Definition handleVMEvent (obj : option VMI) : option (string * string) :=
  match obj with
  | None => None
  | Some vmi =>
      if label (Labels (vmi_Meta vmi)) LabelInstanceID =s? "" then None
      else
        match ExtractVMInfo (Some vmi) with
        | inl _ => None
        | inr vmInfo => Some (vi_VMID vmInfo, vi_Phase vmInfo)
        end
  end.

(** ** The conversion *)

(** Documented behaviour of [resource.Quantity]: integers are quantities, and a
    number below one thousand is its own canonical form; the canonical form of a
    quantity reads back as that quantity. *)
Class VMLibLaws (X Q : Type) `{!KubeLib X Q, !VMLib X Q} := {
  parse_integer n : in_int64 n → ∃ q, ParseQuantity (Itoa n) = inr q ∧ (0 ≤ n < 1000 → Quantity_String q = Itoa n);
  parse_canonical q :
    (∃ s, ParseQuantity s = inr q) ∨ (∃ n, q = NewQuantity n) →
    ∃ q', ParseQuantity (Quantity_String q) = inr q' ∧ Quantity_String q' = Quantity_String q;
  parse_10Gi : ∃ q, ParseQuantity "10Gi" = inr q
}.

(** What an image says of the guest it was chosen for. *)
Definition guest_family (os : string) : string :=
  let os := ToLower os in
  if os =s? "ubuntu" then "ubuntu"
  else if (os =s? "centos") || (os =s? "centos-stream") then "centos"
  else if os =s? "fedora" then "fedora"
  else "cirros".

Lemma infer_guest g : inferGuestOSFromImage (getContainerDiskImage g) = guest_family (gos_Type g).
Proof.
  unfold getContainerDiskImage, guest_family, osImages. set (os := ToLower (gos_Type g)).
  destruct (decide (os = "ubuntu")) as [->|?]; [by vm_compute|].
  destruct (decide (os = "centos")) as [->|?]; [by vm_compute|].
  destruct (decide (os = "centos-stream")) as [->|?]; [by vm_compute|].
  destruct (decide (os = "fedora")) as [->|?]; [by vm_compute|].
  destruct (decide (os = "cirros")) as [->|?]; [by vm_compute|].
  destruct (decide (os = "debian")) as [->|?]; [by vm_compute|].
  rewrite !lookup_insert_ne, lookup_singleton_ne by done. rewrite !bool_decide_false by done. by vm_compute.
Qed.

Section Conversion.
Context {X Q F T : Type} `{!KubeLib X Q, !VMLib X Q, !Float64 F, !VMLibLaws X Q}.
Implicit Type spec : VMSpec (T := T).

Lemma memory_canonical s m : parseMemorySize (F := F) s = inr m →
  ∃ q : Q, m = Quantity_String q ∧ ((∃ s, ParseQuantity s = inr q) ∨ (∃ n, q = NewQuantity n)).
Proof. unfold parseMemorySize. cases; intros [= <-]; eauto 6. Qed.

Lemma build_resources_ok spec :
  in_int64 (vc_Count (vms_Vcpu spec)) →
  ∃ r, buildResources (F := F) spec = Val r ∧
    (0 ≤ vc_Count (vms_Vcpu spec) < 1000 → Quantity_String <$> r !! "cpu" = Some (Itoa (vc_Count (vms_Vcpu spec)))) ∧
    Quantity_String <$> r !! "memory" =
      match parseMemorySize (F := F) (me_Size (vms_Memory spec)) with inr m => Some m | inl _ => None end.
Proof.
  intros Hn. unfold buildResources, MustParse. destruct (parse_integer _ Hn) as (cpu & -> & Hcpu).
  destruct (parseMemorySize _) as [err|m] eqn:Hm.
  - eexists. split; [done|]. split; [intros Hr; by rewrite lookup_singleton_eq, <-(Hcpu Hr)|by rewrite lookup_singleton_ne].
  - apply memory_canonical in Hm as (q & -> & Hm). destruct (parse_canonical q Hm) as (q' & -> & Hq).
    eexists. split; [done|]. split; [|by rewrite lookup_insert_eq, <-Hq].
    intros Hr. by rewrite lookup_insert_ne, lookup_singleton_eq, <-(Hcpu Hr).
Qed.

Definition disk_names spec : list string := match di_Name <$> spec_disks spec with [] => ["boot"] | l => l end.

Lemma build_disks_names spec : kd_Name <$> buildDisks spec = disk_names spec.
Proof.
  unfold buildDisks, disk_names. destruct (spec_disks spec) as [|d l]; [done|]. simpl. f_equal.
  apply list_eq. intros i. rewrite !list_lookup_fmap, list_lookup_imap. by destruct (l !! i).
Qed.

Lemma build_volumes_names (q : Q) spec : fst <$> buildVolumes q spec = disk_names spec.
Proof.
  unfold buildVolumes, disk_names. destruct (spec_disks spec) as [|d l]; [done|]. simpl. f_equal.
  apply list_eq. intros i. rewrite !list_lookup_fmap, list_lookup_imap. by destruct (l !! i).
Qed.

(** A VM specification survives its conversion.  Every specification
    converts without a panic, whatever its memory text; the machine's volumes
    are its disks, the first one boots from the image of the guest operating
    system, and its only interface is on the pod network.  Reading the machine
    back gives the CPU count (below one thousand), the memory size in canonical
    form (nothing when the text is no size), the disk names (the default boot
    disk when there are none) and the family of the guest operating system. *)
Theorem vm_conversion ns spec id :
  in_int64 (vc_Count (vms_Vcpu spec)) →
  ∃ (vm : VirtualMachine Q) t, VMSpecToVirtualMachine (F := F) ns spec id = Val vm ∧ kvm_Template vm = Some t ∧
    Labels (kvm_Meta vm) = vm_labels id ∧ t_Labels t = vm_labels id ∧
    (kd_Name <$> t_Disks t) = (fst <$> t_Volumes t) ∧ (ki_Name <$> t_Interfaces t) = (kn_Name <$> t_Networks t) ∧
    (∃ d v rest rest', t_Disks t = d :: rest ∧ kd_BootOrder d = Some 1 ∧
       t_Volumes t = (v, ContainerDisk (getContainerDiskImage (vms_GuestOs spec))) :: rest') ∧
    let r := VirtualMachineToVMSpec vm in
    (0 ≤ vc_Count (vms_Vcpu spec) < 1000 → rs_Cpu r = Some (vc_Count (vms_Vcpu spec))) ∧
    rs_Memory r = match parseMemorySize (F := F) (me_Size (vms_Memory spec)) with inr m => Some m | inl _ => None end ∧
    rs_Disks r = disk_names spec ∧ rs_GuestOS r = Some (guest_family (gos_Type (vms_GuestOs spec))).
Proof.
  intros Hn. unfold VMSpecToVirtualMachine. destruct (build_resources_ok spec Hn) as (requests & -> & Hcpu & Hmem).
  unfold MustParse. destruct parse_10Gi as [capacity ->].
  assert (∃ d v rest rest', buildDisks spec = d :: rest ∧ kd_BootOrder d = Some 1 ∧
    buildVolumes capacity spec = (v, ContainerDisk (getContainerDiskImage (vms_GuestOs spec))) :: rest')
    as (d & v & rest & rest' & Hd & Hb & Hv).
  { unfold buildDisks, buildVolumes. destruct (spec_disks spec); simpl; eauto 10. }
  eexists _, _. split; [done|]. split; [done|]. cbn [kvm_Meta Labels t_Labels t_Disks t_Volumes t_Interfaces t_Networks].
  split_and!; [done..|by rewrite build_disks_names, build_volumes_names|done|by exists d, v, rest, rest'| | | |];
    cbn [VirtualMachineToVMSpec kvm_Template rs_Cpu rs_Memory rs_Disks rs_GuestOS t_Requests t_Disks t_Volumes].
  - intros Hr. specialize (Hcpu Hr). destruct (requests !! "cpu") as [q|]; [|done]. simpl in Hcpu. injection Hcpu as ->.
    apply Atoi_Itoa. unfold int64_max. lia.
  - exact Hmem.
  - rewrite build_disks_names. unfold disk_names. by destruct (di_Name <$> spec_disks spec).
  - rewrite Hv. by rewrite infer_guest.
Qed.
End Conversion.

(** ** A machine *)

Module KubevirtRun.
Import FakeKube.

#[export] Instance vm_lib : VMLib Status Z :=
  {| NewQuantity := wrap64; NewNotFound gr name := mkStatus "NotFound" 404 (gr ++ " " ++ Quote name ++ " not found") None |}.

(** Integers stand for floating-point numbers. *)
#[export] Instance int_float : Float64 Z :=
  {| ParseFloat := ParseInt64; f_of n := n; f_mul := Z.mul; f_div := Z.div; f_int64 := wrap64 |}.

#[export] Instance vm_lib_laws : VMLibLaws Status Z.
Proof.
  split.
  - intros n Hn. exists n. split; [|done]. cbn [ParseQuantity lib].
    by rewrite (Atoi_Itoa_signed n Hn : ParseInt64 (Itoa n) = _).
  - intros q Hq. exists q. split; [|done].
    assert (in_int64 q) as Hr.
    { destruct Hq as [[s Hs]|[n ->]]; [|apply wrap64_range]. simpl in Hs.
      destruct (ParseInt64 s) as [n|] eqn:Hp; [simplify_eq; by apply ParseInt64_range in Hp|].
      cases_in Hs; apply wrap64_range. }
    change (Quantity_String q) with (Itoa q). cbn [ParseQuantity lib].
    by rewrite (Atoi_Itoa_signed q Hr : ParseInt64 (Itoa q) = _).
  - by eexists.
Qed.

Definition spec (os : string) (disks : list string) : VMSpec (T := Z) :=
  mkVMSpec None None (mkGuestOS os None) None (mkMemory "4GB" None) (mkServiceMetadata None "shop") None None "vm" None None
    (mkStorage (Some ((λ n, mkDisk "10GB" n None) <$> disks)) None) None (mkVcpu 4 None) None.

Lemma vm_conversion_witness :
  ∃ (vm : VirtualMachine Z), VMSpecToVirtualMachine (F := Z) "ns" (spec "Fedora" ["root"; "data"]) "vm-1" = Val vm ∧
    rs_Cpu (VirtualMachineToVMSpec vm) = Some 4 ∧ rs_GuestOS (VirtualMachineToVMSpec vm) = Some "fedora".
Proof.
  destruct (vm_conversion (F := Z) "ns" (spec "Fedora" ["root"; "data"]) "vm-1") as (vm & t & Hv & _ & _ & _ & _ & _ & _ & Hcpu & _ & _ & Hg).
  - by vm_compute.
  - exists vm. split; [done|]. split; [apply Hcpu; simpl; lia|exact Hg].
Defined.

(** Debian has an image, but its name is not among those that are inferred. *)
Lemma debian_reads_as_cirros :
  match VMSpecToVirtualMachine (F := Z) "ns" (spec "debian" ["boot"]) "vm-1" with
  | Val vm => rs_GuestOS (VirtualMachineToVMSpec (Q := Z) vm) = Some "cirros"
  | Panicked => False
  end.
Proof. by vm_compute. Qed.

(** A disk named boot that is not the first: two disks with boot order one. *)
Lemma boot_order_twice :
  kd_BootOrder <$> buildDisks (spec "fedora" ["data"; "boot"]) = [Some 1; Some 1].
Proof. by vm_compute. Qed.
End KubevirtRun.
