(* ===== verification/AcmMonitor.v ===== *)
(** * Status of clusters

    Models internal/openshift/acmcluster/service/status (mapping of HostedCluster
    and NodePool conditions, and their composite) and
    internal/openshift/acmcluster/monitoring (reconcile.go and the callbacks and
    publishing of monitor.go).  The state behind the mutex is a map of records
    and each critical section a function on it; the callbacks of the two
    informers run on goroutines of their own, so a critical section and the
    submission of its event to the debouncer of [Debounce] are two steps. *)

From S2P Require Import Prelude GoStrings Json K8s Debounce StatusMon.
#[local] Open Scope string_scope.
#[local] Open Scope Z_scope.

Definition UNAVAILABLE : string := "UNAVAILABLE".

(** ** service/status/mapper.go *)

(** The first condition of the type decides. *)
Fixpoint conditionIs (want : string) (conditions : list Condition) (condType : string) : bool :=
  match conditions with
  | [] => false
  | c :: rest => if c_Type c =s? condType then c_Status c =s? want else conditionIs want rest condType
  end.

Definition conditionIsTrue : list Condition → string → bool := conditionIs "True".
Definition conditionIsFalse : list Condition → string → bool := conditionIs "False".

Definition MapConditionsToStatus (conditions : list Condition) (deletionTimestamp : option Z) : string :=
  match deletionTimestamp with
  | Some _ => DELETING
  | None =>
      if conditionIsTrue conditions "Degraded" then FAILED
      else if conditionIsTrue conditions "Available" then READY
      else if conditionIsTrue conditions "Progressing" then PROVISIONING
      else if conditionIsFalse conditions "Available" && conditionIsFalse conditions "Progressing" then UNAVAILABLE
      else PENDING
  end.

(** ** service/status/nodepool_mapper.go *)

(** [None]: the pool is left out of the composite. *)
Definition MapNodePoolConditionsToStatus (conditions : list Condition) : option string :=
  match conditions with
  | [] => None
  | _ =>
      if conditionIsTrue conditions "UpdatingVersion" || conditionIsTrue conditions "UpdatingConfig" then Some PROVISIONING
      else if conditionIsFalse conditions "Ready" then Some UNAVAILABLE
      else if conditionIsTrue conditions "Ready" then Some READY
      else Some PENDING
  end.

(** ** service/status/composite.go *)

Definition StatusPriorities : gmap string Z :=
  {[ READY := 1; PENDING := 2; PROVISIONING := 3; UNAVAILABLE := 4; FAILED := 5; DELETING := 6; DELETED := 7 ]}.

(** Indexing a Go map: 0 for a missing key. *)
Definition StatusPriority (s : string) : Z := default 0 (StatusPriorities !! s).

Definition ComputeCompositeStatus (hcStatus : string) (npStatus : option string) : string :=
  match npStatus with
  | None => hcStatus
  | Some np => if StatusPriority hcStatus <? StatusPriority np then np else hcStatus
  end.

(** ** monitoring/reconcile.go *)

(** [unstructured.Unstructured]: the metadata its accessors read, and the member
    [status] of the object. *)
Record Unstructured := mkUns { uns_Meta : ObjectMeta; uns_status : option json }.

(** [m\[k\]] on the map a JSON object decodes into: its last member of that
    name. *)
Definition map_member (k : string) (ms : list (string * json)) : option json :=
  last (filter (λ m, m.1 = k) ms).*2.

Definition string_member (k : string) (ms : list (string * json)) : string :=
  match map_member k ms with Some (JString s) => s | _ => "" end.

Definition extractConditions (obj : Unstructured) : list Condition :=
  match uns_status obj with
  | Some (JObject status) =>
      match map_member "conditions" status with
      | Some (JArray items) =>
          items ≫= λ item,
            match item with
            | JObject c => [mkCondition (string_member "type" c) (string_member "status" c) "" (string_member "message" c) 0]
            | _ => []
            end
      | _ => []
      end
  | _ => []
  end.

(** The message of the first condition of one of the types, with a prefix. *)
Fixpoint firstMessage (prefix : string) (types : list string) (conditions : list Condition) : string :=
  match conditions with
  | [] => ""
  | c :: rest => if bool_decide (c_Type c ∈ types) then prefix ++ c_Message c else firstMessage prefix types rest
  end.

Definition extractHostedClusterMessage (conditions : list Condition) (dcmStatus : string) : string :=
  if dcmStatus =s? FAILED then firstMessage "" ["Degraded"] conditions
  else if dcmStatus =s? UNAVAILABLE then firstMessage "" ["Available"] conditions
  else "".

Definition extractNodePoolMessage (conditions : list Condition) (dcmStatus : string) : string :=
  if dcmStatus =s? UNAVAILABLE then firstMessage "NodePool: " ["Ready"] conditions
  else if dcmStatus =s? PROVISIONING then firstMessage "NodePool: " ["UpdatingVersion"; "UpdatingConfig"] conditions
  else "".

(** monitoring/indexer.go *)
Definition extractInstanceID (obj : Unstructured) : string := label (Labels (uns_Meta obj)) LabelInstanceID.

Definition InstanceIDIndexFunc (obj : Unstructured) : list string :=
  let id := extractInstanceID obj in if id =s? "" then [] else [id].

(** The empty string stands for a status or a name not seen. *)
Record instanceState := mkState {
  hcStatus : string;
  npStatus : string;
  hcMsg : string;
  npMsg : string;
  lastPublished : string;
  seenHC : string;
  seenNP : string
}.

Definition new_instance : instanceState := mkState "" "" "" "" "" "" "".

Abbreviation reconcileState := (gmap string instanceState).

Definition newReconcileState : reconcileState := ∅.

Definition compositeMessage (inst : instanceState) : string :=
  if negb (npStatus inst =s? "") && (StatusPriority (hcStatus inst) <? StatusPriority (npStatus inst))
  then npMsg inst else hcMsg inst.

Definition getOrCreate (s : reconcileState) (id : string) : instanceState := default new_instance (s !! id).

Inductive resourceType := HostedClusterType | NodePoolType.

Definition set_npMsg (m : string) (i : instanceState) : instanceState :=
  mkState (hcStatus i) (npStatus i) (hcMsg i) m (lastPublished i) (seenHC i) (seenNP i).
Definition set_np (st : string) (i : instanceState) : instanceState :=
  mkState (hcStatus i) st (hcMsg i) (npMsg i) (lastPublished i) (seenHC i) (seenNP i).
Definition set_hc (st msg : string) (i : instanceState) : instanceState :=
  mkState st (npStatus i) msg (npMsg i) (lastPublished i) (seenHC i) (seenNP i).
Definition set_published (st : string) (i : instanceState) : instanceState :=
  mkState (hcStatus i) (npStatus i) (hcMsg i) (npMsg i) st (seenHC i) (seenNP i).

(** Duplicate detection keeps the first name seen. *)
Definition note_name (rt : resourceType) (name : string) (i : instanceState) : instanceState :=
  match rt with
  | HostedClusterType =>
      if seenHC i =s? "" then mkState (hcStatus i) (npStatus i) (hcMsg i) (npMsg i) (lastPublished i) name (seenNP i) else i
  | NodePoolType =>
      if seenNP i =s? "" then mkState (hcStatus i) (npStatus i) (hcMsg i) (npMsg i) (lastPublished i) (seenHC i) name else i
  end.

(** The end of [reconcileResource]: the composite, published if it changed. *)
Definition publish_composite (id : string) (inst : instanceState) : instanceState * option StatusEvent :=
  let np := if npStatus inst =s? "" then None else Some (npStatus inst) in
  let composite := ComputeCompositeStatus (hcStatus inst) np in
  if lastPublished inst =s? composite then (inst, None)
  else let inst := set_published composite inst in (inst, Some (mkEvent id composite (compositeMessage inst))).

(** The critical section on one instance. *)
Definition reconcile_instance (id : string) (rt : resourceType) (name : string) (deletion : option Z)
    (conditions : list Condition) (inst : instanceState) : instanceState * option StatusEvent :=
  let inst := note_name rt name inst in
  match rt with
  | HostedClusterType =>
      let hc := MapConditionsToStatus conditions deletion in
      if hcStatus inst =s? hc then (inst, None)
      else publish_composite id (set_hc hc (extractHostedClusterMessage conditions hc) inst)
  | NodePoolType =>
      match MapNodePoolConditionsToStatus conditions with
      | None => (inst, None)
      | Some np =>
          let inst := set_npMsg (extractNodePoolMessage conditions np) inst in
          if npStatus inst =s? np then (inst, None)
          else
            let inst := set_np np inst in
            if hcStatus inst =s? "" then (inst, None) else publish_composite id inst
      end
  end.

Definition reconcileResource (obj : Unstructured) (rt : resourceType) (s : reconcileState) : reconcileState * option StatusEvent :=
  let id := extractInstanceID obj in
  if id =s? "" then (s, None)
  else
    let '(inst, ev) := reconcile_instance id rt (Name (uns_Meta obj)) (DeletionTimestamp (uns_Meta obj))
                         (extractConditions obj) (getOrCreate s id) in
    (<[id := inst]> s, ev).

(** What an informer hands to a callback. *)
Inductive informer_object :=
  | Object (u : Unstructured)
  | DeletedFinalStateUnknown (last : informer_object)
  | OtherObject.

(** The object of a delete notification, out of at most one tombstone. *)
Definition deleted_object (obj : informer_object) : option Unstructured :=
  match obj with
  | Object u | DeletedFinalStateUnknown (Object u) => Some u
  | _ => None
  end.

Definition handleDeleteHostedCluster (obj : informer_object) (s : reconcileState) : reconcileState * option StatusEvent :=
  match deleted_object obj with
  | None => (s, None)
  | Some u =>
      let id := extractInstanceID u in
      if id =s? "" then (s, None) else (delete id s, Some (mkEvent id DELETED ""))
  end.

Definition handleDeleteNodePool (obj : informer_object) (s : reconcileState) : reconcileState * option StatusEvent :=
  match deleted_object obj with
  | None => (s, None)
  | Some u =>
      let id := extractInstanceID u in
      if id =s? "" then (s, None)
      else
        match s !! id with
        | None => (s, None)
        | Some inst =>
            if hcStatus inst =s? "" then (s, None)
            else
              let inst := mkState (hcStatus inst) "" (hcMsg inst) "" (lastPublished inst) (seenHC inst) "" in
              if lastPublished inst =s? hcStatus inst then (<[id := inst]> s, None)
              else
                (<[id := set_published (hcStatus inst) inst]> s, Some (mkEvent id (hcStatus inst) (hcMsg inst)))
        end
  end.

(** ** monitoring/monitor.go *)

(** A notification of one of the two informers; additions and updates have the
    same callback. *)
Inductive notification :=
  | Upsert (rt : resourceType) (obj : informer_object)
  | Deleted (rt : resourceType) (obj : informer_object).

(** The callbacks [Start] registers, up to the call of [debouncer.Submit]. *)
Definition callback (n : notification) (s : reconcileState) : reconcileState * option StatusEvent :=
  match n with
  | Upsert rt (Object u) => reconcileResource u rt s
  | Upsert _ _ => (s, None)
  | Deleted HostedClusterType obj => handleDeleteHostedCluster obj s
  | Deleted NodePoolType obj => handleDeleteNodePool obj s
  end.

Section Publish.
Context (publish : Z → bool) (ctx_done : Z → bool).

(** The loop of [publishWithRetry] counts attempts from 0 to [PublishRetryMax];
    the result is the back-offs waited for and whether an attempt succeeded. *)
Definition acmPublishWithRetry (PublishRetryMax PublishRetryInterval : Z) : list Z * bool :=
  publish_loop publish ctx_done (Z.to_nat (PublishRetryMax + 1)) 0 PublishRetryMax PublishRetryInterval.
End Publish.

(** The monitor and its debouncer.  [held rt]: the event the callback of an
    informer is about to submit; [handled] and [emitted]: the notifications and
    the events in the order of the critical sections. *)
Record acm := mkAcm {
  state : reconcileState;
  debouncer : Simple.sys StatusEvent;
  heldHC : option StatusEvent;
  heldNP : option StatusEvent;
  handled : list notification;
  emitted : list (string * StatusEvent)
}.

Definition acm_init : acm := mkAcm newReconcileState Simple.init None None [] [].

Definition held (rt : resourceType) (s : acm) : option StatusEvent :=
  match rt with HostedClusterType => heldHC s | NodePoolType => heldNP s end.

Definition set_held (rt : resourceType) (e : option StatusEvent) (s : acm) : acm :=
  match rt with
  | HostedClusterType => mkAcm (state s) (debouncer s) e (heldNP s) (handled s) (emitted s)
  | NodePoolType => mkAcm (state s) (debouncer s) (heldHC s) e (handled s) (emitted s)
  end.

Definition on_debouncer (a : Simple.action StatusEvent) (s : acm) : acm :=
  mkAcm (state s) (Simple.step (debouncer s) a) (heldHC s) (heldNP s) (handled s) (emitted s).

(** The event of a critical section, under its instance. *)
Definition event_of (ev : option StatusEvent) : list (string * StatusEvent) :=
  match ev with Some e => [(InstanceID e, e)] | None => [] end.

Definition informer_of (n : notification) : resourceType := match n with Upsert rt _ | Deleted rt _ => rt end.

Inductive acm_action :=
  | Notify (n : notification)        (* the critical section of a callback *)
  | SubmitHeld (rt : resourceType)   (* debouncer.Submit of that callback *)
  | Fire (h : nat)                   (* a timer of the debouncer expires *)
  | Run (i : nat)                    (* a goroutine of the debouncer runs on *)
  | StopDebouncer.

(** A callback starts when the previous one of its informer has returned. *)
Definition acm_step (s : acm) (a : acm_action) : acm :=
  match a with
  | Notify n =>
      match held (informer_of n) s with
      | Some _ => s
      | None =>
          let '(st, ev) := callback n (state s) in
          set_held (informer_of n) ev
            (mkAcm st (debouncer s) (heldHC s) (heldNP s) (handled s ++ [n]) (emitted s ++ event_of ev))
      end
  | SubmitHeld rt =>
      match held rt s with
      | Some e =>
          set_held rt None (on_debouncer (Simple.ASubmit (InstanceID e) e) s)
      | None => s
      end
  | Fire h => on_debouncer (Simple.AFire h) s
  | Run i => on_debouncer (Simple.ARun i) s
  | StopDebouncer => on_debouncer Simple.AStop s
  end.

Definition acm_runs (l : list acm_action) : acm := fold_left acm_step l acm_init.

(** ** What is there of a cluster *)

Record view := mkView { v_hc : option string; v_np : option string }.

(** The object of instance [id] a notification is about. *)
Definition concerned (id : string) (n : notification) : option Unstructured :=
  match n with
  | Upsert _ (Object u) => if extractInstanceID u =s? id then Some u else None
  | Upsert _ _ => None
  | Deleted _ obj => match deleted_object obj with Some u => if extractInstanceID u =s? id then Some u else None | None => None end
  end.

(** The statuses of the HostedCluster and the NodePool that are there: that of
    the last notification about each, none before the first and after a removal.
    A NodePool whose conditions say nothing keeps its status. *)
Definition current_step (id : string) (v : view) (n : notification) : view :=
  match concerned id n, n with
  | Some u, Upsert HostedClusterType _ =>
      mkView (Some (MapConditionsToStatus (extractConditions u) (DeletionTimestamp (uns_Meta u)))) (v_np v)
  | Some u, Upsert NodePoolType _ =>
      mkView (v_hc v) (match MapNodePoolConditionsToStatus (extractConditions u) with Some st => Some st | None => v_np v end)
  | Some _, Deleted HostedClusterType _ => mkView None (v_np v)
  | Some _, Deleted NodePoolType _ => mkView (v_hc v) None
  | None, _ => v
  end.

Definition current (id : string) (ns : list notification) : view := fold_left (current_step id) ns (mkView None None).

(** The NodePool goes before the HostedCluster it belongs to, and not without
    one. *)
Definition nested_step (id : string) (v : view) (n : notification) : bool :=
  match concerned id n, n with
  | Some _, Deleted HostedClusterType _ => bool_decide (v_np v = None)
  | Some _, Deleted NodePoolType _ => bool_decide (v_np v = None) || bool_decide (v_hc v ≠ None)
  | _, _ => true
  end.

Fixpoint nested_from (id : string) (v : view) (ns : list notification) : bool :=
  match ns with
  | [] => true
  | n :: ns => nested_step id v n && nested_from id (current_step id v n) ns
  end.
Definition nested (id : string) (ns : list notification) : bool := nested_from id (mkView None None) ns.

(** The statuses NodePools of the instance have had. *)
Definition np_reported (id : string) (ns : list notification) : list string :=
  omap (λ n, match n, concerned id n with
             | Upsert NodePoolType _, Some u => MapNodePoolConditionsToStatus (extractConditions u)
             | _, _ => None
             end) ns.

(** What the monitor remembers: removing the HostedCluster forgets both, and
    removing a NodePool counts only while the HostedCluster is known. *)

Definition view_step (id : string) (v : view) (n : notification) : view :=
  match n with
  | Upsert rt (Object u) =>
      if extractInstanceID u =s? id then
        match rt with
        | HostedClusterType =>
            mkView (Some (MapConditionsToStatus (extractConditions u) (DeletionTimestamp (uns_Meta u)))) (v_np v)
        | NodePoolType =>
            match MapNodePoolConditionsToStatus (extractConditions u) with
            | Some st => mkView (v_hc v) (Some st)
            | None => v
            end
        end
      else v
  | Upsert _ _ => v
  | Deleted rt obj =>
      match deleted_object obj with
      | Some u =>
          if extractInstanceID u =s? id then
            match rt, v_hc v with
            | HostedClusterType, _ => mkView None None
            | NodePoolType, Some hc => mkView (Some hc) None
            | NodePoolType, None => v
            end
          else v
      | None => v
      end
  end.

Definition known (id : string) (ns : list notification) : view := fold_left (view_step id) ns (mkView None None).

(** The callbacks of [ns] one after the other. *)
Definition reconciles (ns : list notification) : reconcileState * list (string * StatusEvent) :=
  fold_left (λ '(s, out) n, let '(s', ev) := callback n s in (s', (out ++ event_of ev)%list)) ns (newReconcileState, []).

Definition ClusterStatuses : list string := [DELETED; DELETING; FAILED; PENDING; PROVISIONING; READY; UNAVAILABLE].

(** ** Lemmas *)

Definition mapped (st : string) : Prop := st ∈ ClusterStatuses ∧ st ≠ DELETED.

Ltac solve_mapped := split; [unfold ClusterStatuses; set_solver|done].

Lemma mapped_hc conds del : mapped (MapConditionsToStatus conds del).
Proof. unfold MapConditionsToStatus. cases; solve_mapped. Qed.

Lemma mapped_np conds st : MapNodePoolConditionsToStatus conds = Some st → mapped st.
Proof. unfold MapNodePoolConditionsToStatus. intros H. cases_in H; simplify_eq; solve_mapped. Qed.

Lemma mapped_composite hc np : mapped hc → (∀ st, np = Some st → mapped st) → mapped (ComputeCompositeStatus hc np).
Proof. intros Hh Hn. unfold ComputeCompositeStatus. cases; eauto. Qed.

Lemma mapped_nonempty st : mapped st → st ≠ "".
Proof. intros [H _] ->. unfold ClusterStatuses in H. by repeat (apply elem_of_cons in H as [H|H]; [done|]); apply elem_of_nil in H. Qed.

#[local] Hint Resolve mapped_hc mapped_np mapped_composite mapped_nonempty : core.

(** The composite is the worse of the two statuses. *)
Lemma composite_worst hc np :
  StatusPriority (ComputeCompositeStatus hc (Some np)) = Z.max (StatusPriority hc) (StatusPriority np) ∧
  ComputeCompositeStatus hc (Some np) ∈ [hc; np].
Proof. simpl. destruct (Z.ltb_spec (StatusPriority hc) (StatusPriority np)); split; [lia|set_solver|lia|set_solver]. Qed.

(** What the state of an instance says of the notifications and the events so
    far. *)
Definition tracks (o : option instanceState) (v : view) (e : option StatusEvent) : Prop :=
  (∀ st, v_hc v = Some st → mapped st) ∧ (∀ st, v_np v = Some st → mapped st) ∧
  match o with
  | None => v = mkView None None
  | Some i =>
      hcStatus i = default "" (v_hc v) ∧ npStatus i = default "" (v_np v) ∧ (v_hc v = None → lastPublished i = "")
  end ∧
  match v_hc v with
  | None => ∀ e', e = Some e' → EvStatus e' = DELETED
  | Some hc =>
      let c := ComputeCompositeStatus hc (v_np v) in
      (∀ i, o = Some i → lastPublished i = c) ∧ ∃ e', e = Some e' ∧ EvStatus e' = c
  end.

Lemma empty_default (o : option string) : (∀ st, o = Some st → mapped st) → (if default "" o =s? "" then None else o) = o.
Proof. destruct o as [st|]; [|done]. intros H. simpl. rewrite bool_decide_false; eauto. Qed.

(** The last event of an instance carries the status recorded as published;
    nothing is recorded before the first event and after a deletion. *)
Definition last_event (i : instanceState) (e : option StatusEvent) : Prop :=
  (lastPublished i = "" ∧ ∀ e0, e = Some e0 → EvStatus e0 = DELETED) ∨
  (∃ e0, e = Some e0 ∧ EvStatus e0 = lastPublished i).

Lemma tracks_last i v e : tracks (Some i) v e → last_event i e.
Proof.
  intros (Hh & Hn & (_ & _ & Hi) & Hv). destruct (v_hc v); [right|left].
  - destruct Hv as [Hp (e0 & -> & He)]. exists e0. by rewrite He, (Hp i).
  - split; [by apply Hi|done].
Qed.

(** What an event emitted after the last event [e] of instance [id] is. *)
Definition fresh_event (id : string) (e : option StatusEvent) (e' : StatusEvent) : Prop :=
  InstanceID e' = id ∧ mapped (EvStatus e') ∧ ∀ e0, e = Some e0 → EvStatus e0 ≠ EvStatus e'.

Lemma publish_composite_tracks id i v hc np e :
  v = mkView (Some hc) np → mapped hc → (∀ st, np = Some st → mapped st) →
  hcStatus i = hc → npStatus i = default "" np → last_event i e →
  let '(i', ev) := publish_composite id i in
  tracks (Some i') v (match ev with Some e' => Some e' | None => e end) ∧ (∀ e', ev = Some e' → fresh_event id e e').
Proof.
  intros -> Hhc Hnp Hi Hn He. unfold publish_composite.
  assert ((if npStatus i =s? "" then None else Some (npStatus i)) = np) as ->.
  { rewrite Hn. destruct np as [st|]; [|done]. simpl. rewrite bool_decide_false; eauto. }
  cbv zeta. rewrite Hi. set (c := ComputeCompositeStatus hc np). assert (mapped c) as Hc by (unfold c; auto).
  destruct (_ =s? _) eqn:Hp; breflect.
  - split; [|done]. destruct He as [[He _]|(e0 & -> & He)]; [by rewrite He in Hp; subst c; apply mapped_nonempty in Hc|].
    unfold tracks. simpl. fold c. rewrite Hn. split_and!; try done; try (intros ? [= <-]); eauto. exists e0. by rewrite He.
  - split.
    + unfold tracks, set_published. simpl. split_and!; try done; try (intros ? [= <-]); eauto.
    + intros ? [= <-]. split_and!; [done..|]. simpl. intros e0 ->. destruct He as [[_ He]|(? & [= <-] & He)].
      * rewrite (He e0) by done. intros E. by apply Hc.
      * by rewrite He.
Qed.

Lemma note_name_fields rt name i :
  let i' := note_name rt name i in
  hcStatus i' = hcStatus i ∧ npStatus i' = npStatus i ∧ lastPublished i' = lastPublished i.
Proof. unfold note_name. cases; done. Qed.

Lemma tracks_same i i' v e :
  hcStatus i' = hcStatus i → npStatus i' = npStatus i → lastPublished i' = lastPublished i →
  tracks (Some i) v e → tracks (Some i') v e.
Proof.
  intros H1 H2 H3 (Hh & Hn & Hi & Hv). split_and!; [done|done|by rewrite H1; apply Hi|by rewrite H2; apply Hi|by rewrite H3; apply Hi|].
  destruct (v_hc v); [|done]. destruct Hv as [Hp He]. split; [|done]. intros j [= <-]. rewrite H3. by apply Hp.
Qed.

Lemma tracks_new v e : tracks None v e → tracks (Some new_instance) v e.
Proof. intros (Hh & Hn & -> & Hv). by split_and!. Qed.

(** One callback on the instance it concerns. *)
Lemma reconcile_tracks id rt u i v e :
  tracks (Some i) v e → extractInstanceID u = id →
  let '(i', ev) := reconcile_instance id rt (Name (uns_Meta u)) (DeletionTimestamp (uns_Meta u)) (extractConditions u) i in
  tracks (Some i') (view_step id v (Upsert rt (Object u))) (match ev with Some e' => Some e' | None => e end) ∧
  (∀ e', ev = Some e' → fresh_event id e e').
Proof.
  intros Ht Hid. unfold reconcile_instance, view_step. rewrite (bool_decide_eq_true_2 _ Hid).
  destruct (note_name_fields rt (Name (uns_Meta u)) i) as (N1 & N2 & N3).
  apply (tracks_same i (note_name rt (Name (uns_Meta u)) i)) in Ht; [|done..]. clear N1 N2 N3.
  revert Ht. generalize (note_name rt (Name (uns_Meta u)) i) as j. clear i. intros j Ht.
  pose proof (tracks_last _ _ _ Ht) as Hl. destruct v as [h n]. destruct rt; cbv zeta.
  - destruct (_ =s? _) eqn:Heq; breflect.
    + split; [|done]. rewrite <-Heq. destruct Ht as (Hh & Hn & (Ei & En & Hempty) & Hv). simpl in *. rewrite Ei in *.
      destruct h as [h|]; [done|]. simpl in Heq. by destruct (mapped_nonempty _ (mapped_hc (extractConditions u) (DeletionTimestamp (uns_Meta u)))).
    + destruct Ht as (Hh & Hn & (Ei & En & Hempty) & Hv). by eapply (publish_composite_tracks id _ _ _ n); auto.
  - destruct (MapNodePoolConditionsToStatus _) as [np|] eqn:Hnp; [|done].
    apply mapped_np in Hnp. destruct Ht as (Hh & Hn & (Ei & En & Hempty) & Hv). simpl in *.
    destruct (npStatus j =s? np) eqn:Heq; breflect.
    + split; [|done]. destruct n as [n|]; simpl in En; [|by subst np; rewrite En in *; apply mapped_nonempty in Hnp].
      rewrite <-Heq, En. split_and!; simpl; try done. destruct h; [|done]. destruct Hv as [Hp He]. split; [|done]. intros ? [= <-]. by apply (Hp j).
    + destruct h as [h|]; simpl in *.
      * rewrite Ei. rewrite bool_decide_false by auto. apply (publish_composite_tracks _ _ _ h (Some np)); simpl; auto.
        by intros ? [= <-].
      * rewrite Ei. simpl. split; [|done]. split_and!; simpl; try done. by intros ? [= <-].
Qed.

Lemma view_other id v n : (∀ u, n = Upsert HostedClusterType (Object u) ∨ n = Upsert NodePoolType (Object u) → extractInstanceID u ≠ id) →
  (∀ rt obj u, n = Deleted rt obj → deleted_object obj = Some u → extractInstanceID u ≠ id) → view_step id v n = v.
Proof.
  intros H1 H2. destruct n as [rt [u| |]|rt obj]; try done; simpl.
  - rewrite bool_decide_false; [done|]. destruct rt; eauto.
  - destruct (deleted_object obj) as [u|] eqn:E; [|done]. by rewrite bool_decide_false by eauto.
Qed.

Definition then_last (ev e : option StatusEvent) : option StatusEvent := match ev with Some e' => Some e' | None => e end.

Definition mine (id : string) (ev : option StatusEvent) : option StatusEvent :=
  ev ≫= λ e, if decide (InstanceID e = id) then Some e else None.

(** A callback's result [r], seen from instance [id]. *)
Definition advances (id : string) (n : notification) (v : view) (e : option StatusEvent)
    (r : reconcileState * option StatusEvent) : Prop :=
  tracks (r.1 !! id) (view_step id v n) (then_last (mine id r.2) e) ∧
  (∀ e', mine id r.2 = Some e' → EvStatus e' ∈ ClusterStatuses ∧
     ∀ e0, e = Some e0 → EvStatus e0 = EvStatus e' → EvStatus e' = DELETED).

Lemma advances_skip id n v e s : view_step id v n = v → tracks (s !! id) v e → advances id n v e (s, None).
Proof. intros Hv Ht. split; [by rewrite Hv|done]. Qed.

Lemma advances_other id id' n v e s i ev :
  id' ≠ id → view_step id v n = v → (∀ e', ev = Some e' → InstanceID e' = id') →
  tracks (s !! id) v e → advances id n v e (<[id' := i]> s, ev).
Proof.
  intros Hne Hv Hev Ht. unfold advances. simpl. rewrite Hv, lookup_insert_ne by done.
  assert (mine id ev = None) as ->; [|done]. destruct ev as [e'|]; [|done]. simpl. rewrite decide_False; [done|].
  by rewrite (Hev e').
Qed.

Lemma reconcile_event_id id rt name del conds i e' :
  (reconcile_instance id rt name del conds i).2 = Some e' → InstanceID e' = id.
Proof. unfold reconcile_instance, publish_composite. cases; simpl; by intros [= <-]. Qed.

Lemma mine_fresh id e ev : (∀ e', ev = Some e' → fresh_event id e e') → mine id ev = ev ∧
  ∀ e', ev = Some e' → EvStatus e' ∈ ClusterStatuses ∧ ∀ e0, e = Some e0 → EvStatus e0 = EvStatus e' → EvStatus e' = DELETED.
Proof.
  intros H. destruct ev as [e'|]; [|done]. destruct (H e' eq_refl) as (Hi & [Hm _] & Hne). simpl.
  rewrite decide_True by done. split; [done|]. intros ? [= <-]. split; [done|]. intros e0 He E. by destruct (Hne e0 He).
Qed.

Lemma upsert_advances id rt u s v e :
  id ≠ "" → tracks (s !! id) v e → advances id (Upsert rt (Object u)) v e (reconcileResource u rt s).
Proof.
  intros Hid Ht. unfold reconcileResource. destruct (decide (extractInstanceID u = id)) as [E|E].
  - rewrite E, bool_decide_false by done. unfold getOrCreate.
    assert (tracks (Some (default new_instance (s !! id))) v e) as Ht'.
    { destruct (s !! id); [done|by apply tracks_new]. }
    pose proof (reconcile_tracks id rt u _ v e Ht' E) as H. destruct (reconcile_instance _ _ _ _ _ _) as [i ev].
    destruct H as [Hi Hev]. apply mine_fresh in Hev as [Hm Hev]. unfold advances. cbn [fst snd].
    by rewrite lookup_insert_eq, Hm.
  - assert (view_step id v (Upsert rt (Object u)) = v) as Hv.
    { unfold view_step. by rewrite bool_decide_false. }
    destruct (_ =s? "") eqn:Hempty; [by apply advances_skip|].
    pose proof (λ e', reconcile_event_id (extractInstanceID u) rt (Name (uns_Meta u)) (DeletionTimestamp (uns_Meta u))
      (extractConditions u) (getOrCreate s (extractInstanceID u)) e') as Hev.
    destruct (reconcile_instance _ _ _ _ _ _) as [i ev]. by apply advances_other.
Qed.

Lemma view_deleted_other id rt obj u v :
  deleted_object obj = Some u → extractInstanceID u ≠ id → view_step id v (Deleted rt obj) = v.
Proof. intros Hu Hne. unfold view_step. by rewrite Hu, bool_decide_false. Qed.

Lemma delete_hc_advances id obj s v e :
  id ≠ "" → tracks (s !! id) v e → advances id (Deleted HostedClusterType obj) v e (handleDeleteHostedCluster obj s).
Proof.
  intros Hid Ht. unfold handleDeleteHostedCluster. destruct (deleted_object obj) as [u|] eqn:Hu.
  2:{ apply advances_skip; [|done]. unfold view_step. by rewrite Hu. }
  destruct (decide (extractInstanceID u = id)) as [E|E].
  - rewrite E, bool_decide_false by done. unfold advances, mine, view_step. simpl.
    rewrite Hu, bool_decide_true, lookup_delete_eq, decide_True by done. simpl. split.
    + split_and!; try done. by intros ? [= <-].
    + intros ? [= <-]. split; [unfold ClusterStatuses; set_solver|done].
  - pose proof (view_deleted_other id HostedClusterType obj u v Hu E) as Hv.
    destruct (_ =s? ""); [by apply advances_skip|]. unfold advances. rewrite Hv. unfold mine. simpl.
    rewrite lookup_delete_ne, decide_False by done. done.
Qed.

Lemma delete_np_advances id obj s v e :
  id ≠ "" → tracks (s !! id) v e → advances id (Deleted NodePoolType obj) v e (handleDeleteNodePool obj s).
Proof.
  intros Hid Ht. unfold handleDeleteNodePool. destruct (deleted_object obj) as [u|] eqn:Hu.
  2:{ apply advances_skip; [|done]. unfold view_step. by rewrite Hu. }
  destruct (decide (extractInstanceID u = id)) as [E|E].
  - rewrite E, bool_decide_false by done. unfold advances, view_step. rewrite Hu, bool_decide_true by done.
    destruct (s !! id) as [i|] eqn:Hs.
    2:{ simpl. rewrite Hs. destruct Ht as (Hh & Hn & -> & Hv). by split. }
    pose proof (tracks_last _ _ _ Ht) as Hl. destruct Ht as (Hh & Hn & (Ei & En & Hempty) & Hv).
    destruct (v_hc v) as [h|] eqn:Ehc; simpl in Ei; rewrite Ei.
    2:{ simpl. rewrite Hs. split; [|done]. split_and!; try done; by rewrite ?Ehc. }
    rewrite bool_decide_false by auto. cbn [lastPublished hcStatus hcMsg].
    destruct (lastPublished i =s? h) eqn:Hp; breflect; simpl; rewrite lookup_insert_eq.
    + split; [|done]. destruct Hl as [[Hl _]|(e0 & -> & Hl)]; [by rewrite <-Hp, Hl in Hh; destruct (mapped_nonempty "" (Hh _ eq_refl))|].
      rewrite <-Hl in Hp. split_and!; simpl; try done; try (intros ? [= <-]); eauto. split; [|eauto]. intros ? [= <-]. simpl. congruence.
    + rewrite decide_True by done. simpl. split.
      * split_and!; simpl; try done; try (intros ? [= <-]); eauto. split; [|eauto]. by intros ? [= <-].
      * intros ? [= <-]. simpl. split; [by apply (Hh h)|]. intros e0 -> E0.
        destruct Hv as [Hlp (? & [= <-] & He)]. rewrite (Hlp i eq_refl) in Hp. congruence.
  - pose proof (view_deleted_other id NodePoolType obj u v Hu E) as Hv.
    cases; first [by apply advances_skip|by apply (advances_other _ (extractInstanceID u)); try done; intros ? [= <-]].
Qed.

Lemma callback_advances id n s v e : id ≠ "" → tracks (s !! id) v e → advances id n v e (callback n s).
Proof.
  intros Hid Ht. destruct n as [rt [u| |]|[] obj]; simpl;
    auto using upsert_advances, delete_hc_advances, delete_np_advances, advances_skip.
Qed.

(** Consecutive events of an instance differ, unless they report a deletion. *)
Definition no_stutter (l : list StatusEvent) : Prop :=
  ∀ i e e', l !! i = Some e → l !! S i = Some e' → EvStatus e = EvStatus e' → EvStatus e' = DELETED.

Lemma no_stutter_snoc l e :
  no_stutter l → (∀ e0, last l = Some e0 → EvStatus e0 = EvStatus e → EvStatus e = DELETED) → no_stutter (l ++ [e])%list.
Proof.
  intros Hl He i a b Ha Hb Hab. apply lookup_snoc_Some in Hb as [[Hi Hb]|[Hi ->]].
  - rewrite lookup_app_l in Ha by lia. by apply (Hl i a b).
  - apply (He a); [|done]. rewrite last_lookup, <-Hi. simpl. by rewrite lookup_app_l in Ha by lia.
Qed.

Lemma proj_event_of id ev : proj id (event_of ev) = match mine id ev with Some e => [e] | None => [] end.
Proof. destruct ev as [e|]; [|done]. simpl. rewrite proj_one. by case_decide. Qed.

Lemma known_snoc id ns n : known id (ns ++ [n])%list = view_step id (known id ns) n.
Proof. apply fold_left_app. Qed.

Lemma reconciles_snoc ns n :
  reconciles (ns ++ [n])%list =
    let '(s, out) := reconciles ns in let '(s', ev) := callback n s in (s', (out ++ event_of ev)%list).
Proof. unfold reconciles. rewrite fold_left_app. cbn [fold_left]. by destruct (fold_left _ _ _). Qed.

Lemma reconciles_tracks id ns :
  id ≠ "" →
  let '(s, out) := reconciles ns in
  tracks (s !! id) (known id ns) (last (proj id out)) ∧ no_stutter (proj id out) ∧
  Forall (λ e, EvStatus e ∈ ClusterStatuses) (proj id out).
Proof.
  intros Hid. induction ns as [|n ns IH] using rev_ind.
  { split_and!; try done. }
  rewrite reconciles_snoc, known_snoc. destruct (reconciles ns) as [s out]. destruct IH as (Ht & Hs & Hf).
  destruct (callback_advances id n s _ _ Hid Ht) as [Ht' Hev]. destruct (callback n s) as [s' ev]. cbn [fst snd] in *.
  rewrite proj_app, proj_event_of. destruct (mine id ev) as [e|]; [|by rewrite app_nil_r].
  destruct (Hev e eq_refl) as [Hin Hst]. rewrite last_snoc. split_and!; [done| |].
  - by apply no_stutter_snoc.
  - apply Forall_app. split; [done|]. by constructor.
Qed.

Lemma nested_snoc id v ns n :
  nested_from id v (ns ++ [n])%list = nested_from id v ns && nested_step id (fold_left (current_step id) ns v) n.
Proof.
  revert v. induction ns as [|m ns IH]; intros v; simpl; [by rewrite andb_true_r|]. by rewrite IH, andb_assoc.
Qed.

(** What the monitor remembers is what is there, as far as it looks. *)
Lemma known_current id ns :
  v_hc (known id ns) = v_hc (current id ns) ∧ (nested id ns = true → known id ns = current id ns) ∧
  ∀ st, v_np (known id ns) = Some st → st ∈ np_reported id ns.
Proof.
  induction ns as [|n ns IH] using rev_ind; [done|]. unfold nested in *. rewrite known_snoc, nested_snoc.
  unfold current in *. rewrite fold_left_app. cbn [fold_left]. fold (current id ns) in *.
  unfold np_reported in *. rewrite omap_app. destruct IH as (Hh & Hn & Hr).
  destruct (known id ns) as [kh kn], (current id ns) as [ch cn] eqn:Ec. simpl in Hh, Hr. subst kh.
  unfold view_step, current_step, nested_step, concerned. fold (current id ns). rewrite ?Ec.
  destruct n as [[] [u| |]|[] obj]; simpl; rewrite ?app_nil_r; try (by rewrite andb_true_r);
    try destruct (deleted_object obj) as [u|]; try destruct (_ =s? id); simpl; rewrite ?app_nil_r, ?andb_true_r; try done.
  - split; [done|]. split; [|done]. intros H. by injection (Hn H) as <-.
  - destruct (MapNodePoolConditionsToStatus _); simpl; rewrite ?app_nil_r; [|done]. split; [done|]. split; [|set_solver].
    intros H. by injection (Hn H) as <-.
  - split; [done|]. split; [|done]. intros [_ ->%bool_decide_eq_true]%andb_true_iff. done.
  - destruct ch as [h|]; simpl; [split; [done|]; split; [|done]; done|]. split; [done|]. split; [|done].
    intros [H [->%bool_decide_eq_true|?]%orb_true_iff]%andb_true_iff; [|done]. by injection (Hn H) as <-.
Qed.

(** C33: Whatever the order of the notifications of the two informers, the events
    emitted for an instance follow the composite of what is there of it: while
    there is a HostedCluster the last event carries the worse of its status and
    of a NodePool status reported for the instance, or its own; otherwise there
    is none since the beginning or the last one reports the deletion.  The
    NodePool status taken is that of the NodePool that is there (none, if there
    is none), provided that no HostedCluster was removed before its NodePool and
    no NodePool removed that had none; see [removed_nodepool_counts] for the
    other case.  Two successive events differ, except that every notification of
    a removed HostedCluster reports the deletion again; and every status is one
    the API declares. *)
Theorem cluster_status_composite (id : string) (ns : list notification) :
  id ≠ "" →
  let events := proj id (reconciles ns).2 in
  match v_hc (current id ns) with
  | Some hc =>
      ∃ e np, last events = Some e ∧ (∀ st, np = Some st → st ∈ np_reported id ns) ∧
        (nested id ns = true → np = v_np (current id ns)) ∧
        match np with
        | None => EvStatus e = hc
        | Some st =>
            EvStatus e ∈ [hc; st] ∧ StatusPriority (EvStatus e) = Z.max (StatusPriority hc) (StatusPriority st)
        end
  | None => ∀ e, last events = Some e → EvStatus e = DELETED
  end ∧
  no_stutter events ∧ Forall (λ e, EvStatus e ∈ ClusterStatuses) events.
Proof.
  intros Hid. pose proof (reconciles_tracks id ns Hid) as H. destruct (reconciles ns) as [s out]. cbv zeta. cbn [snd].
  destruct H as ((_ & _ & _ & Ht) & Hs & Hf). split; [|done]. destruct (known_current id ns) as (<- & Hn & Hr).
  destruct (known id ns) as [[hc|] np]; [|done]. simpl in *.
  destruct Ht as [_ (e & -> & He)]. exists e, np. split; [done|]. split; [done|].
  split; [intros H; by rewrite <-(Hn H)|]. destruct np as [st|]; [|done]. rewrite He. destruct (composite_worst hc st). done.
Qed.

(** ** The monitor with its debouncer *)

(** The callbacks of the two informers do not overlap: one starts only when the
    other has submitted its event. *)
Fixpoint serial (s : acm) (l : list acm_action) : Prop :=
  match l with
  | [] => True
  | a :: l' => (match a with Notify _ => heldHC s = None ∧ heldNP s = None | _ => True end) ∧ serial (acm_step s a) l'
  end.

Record acm_inv (s : acm) : Prop := {
  ai_debouncer : Simple.inv (debouncer s);
  ai_reconciles : reconciles (handled s) = (state s, emitted s);
  ai_one : heldHC s = None ∨ heldNP s = None;
  ai_accepted : Simple.stopped (Simple.deb (debouncer s)) = false →
    emitted s = (Simple.accepted (debouncer s) ++ event_of (heldHC s) ++ event_of (heldNP s))%list
}.

Lemma internal_step (d : Simple.sys StatusEvent) a :
  (∀ id ev, a ≠ Simple.ASubmit id ev) →
  Simple.accepted (Simple.step d a) = Simple.accepted d ∧
  (Simple.stopped (Simple.deb (Simple.step d a)) = false → Simple.stopped (Simple.deb d) = false).
Proof.
  intros Ha. destruct a as [id ev|h|i|]; [by destruct (Ha id ev)|..]; simpl.
  - by repeat case_match.
  - destruct (Simple.threads d !! i) as [th|]; [|done]. unfold Simple.run_thread, Simple.fired.
    destruct th; destruct (Simple.stopped (Simple.deb d)) eqn:H; simpl; rewrite ?H; try done; by case_match; simpl; rewrite ?H.
  - done.
Qed.

Lemma on_debouncer_inv s a : (∀ id ev, a ≠ Simple.ASubmit id ev) → acm_inv s → acm_inv (on_debouncer a s).
Proof.
  intros Ha [Hd Hr Ho Hac]. destruct (internal_step (debouncer s) a Ha) as [E Hst].
  split; simpl; [by apply Simple.simple_step_inv|done|done|]. intros H. rewrite E. by apply Hac, Hst.
Qed.

Lemma submit_step (d : Simple.sys StatusEvent) id ev :
  Simple.stopped (Simple.deb d) = false →
  Simple.accepted (Simple.step d (Simple.ASubmit id ev)) = (Simple.accepted d ++ [(id, ev)])%list.
Proof. intros H. simpl. unfold Simple.Submit. by rewrite H. Qed.

Lemma submit_stopped (d : Simple.sys StatusEvent) id ev :
  Simple.stopped (Simple.deb (Simple.step d (Simple.ASubmit id ev))) = Simple.stopped (Simple.deb d).
Proof. simpl. unfold Simple.Submit. by destruct (Simple.stopped (Simple.deb d)) eqn:H. Qed.

Lemma submit_held_inv s rt : acm_inv s → acm_inv (acm_step s (SubmitHeld rt)).
Proof.
  intros Hinv. unfold acm_step. destruct (held rt s) as [e|] eqn:He; [|done]. destruct Hinv as [Hd Hr Ho Hac].
  assert (Simple.inv (Simple.step (debouncer s) (Simple.ASubmit (InstanceID e) e))) as Hd' by by apply Simple.simple_step_inv.
  destruct rt; simpl in He; split; cbn -[Simple.step]; try done; try tauto; rewrite submit_stopped; intros H;
    rewrite Hac, submit_step, He by done; simpl; rewrite <-?app_assoc; simpl;
    destruct Ho as [Ho|Ho]; first [congruence|by rewrite Ho|by rewrite Ho, app_nil_r].
Qed.

Lemma notify_inv s n :
  acm_inv s → heldHC s = None → heldNP s = None → acm_inv (acm_step s (Notify n)).
Proof.
  intros [Hd Hr Ho Hac] H1 H2. unfold acm_step. replace (held (informer_of n) s) with (@None StatusEvent) by (by destruct (informer_of n)).
  destruct (callback n (state s)) as [st ev] eqn:Hc.
  assert (reconciles (handled s ++ [n])%list = (st, (emitted s ++ event_of ev)%list)) as Hr'.
  { rewrite reconciles_snoc, Hr. by rewrite Hc. }
  destruct (informer_of n); split; simpl; try done; try tauto; intros H; rewrite Hac, H1, H2 by done; simpl;
    by rewrite ?app_nil_r.
Qed.

Lemma acm_runs_inv l : serial acm_init l → acm_inv (acm_runs l).
Proof.
  unfold acm_runs. assert (acm_inv acm_init) as H0.
  { split; simpl; try done; [apply Simple.simple_init_inv|by left]. }
  revert H0. generalize acm_init. induction l as [|a l IH]; intros s Hinv; [done|]. intros [Ha Hl]. apply IH; [|done].
  destruct a; [by apply notify_inv; destruct Ha|by apply submit_held_inv|by apply on_debouncer_inv..].
Qed.

Lemma reconciles_tagged ns : Forall (λ x, InstanceID x.2 = x.1) (reconciles ns).2.
Proof.
  induction ns as [|n ns IH] using rev_ind; [by constructor|]. rewrite reconciles_snoc.
  destruct (reconciles ns) as [s out]. destruct (callback n s) as [s' [e|]]; simpl in *; rewrite ?app_nil_r; [|done].
  apply Forall_app. split; [done|]. by constructor.
Qed.

Lemma last_tagged ns id e : last (proj id (reconciles ns).2) = Some e → InstanceID e = id.
Proof.
  intros H. apply last_Some_elem_of, elem_of_proj in H.
  pose proof (reconciles_tagged ns) as Hf. rewrite Forall_forall in Hf. by apply (Hf _ H).
Qed.

(** With callbacks that do not overlap, once the debouncer is idle the
    status of every known cluster has been handed to the publisher: the composite
    of its HostedCluster and its NodePool, and the deletion of a HostedCluster
    that is gone if it was ever reported. *)
Theorem cluster_status_published (l : list acm_action) (id : string) :
  serial acm_init l → id ≠ "" →
  let s := acm_runs l in
  heldHC s = None → heldNP s = None → Simple.quiescent (debouncer s) → Simple.stopped (Simple.deb (debouncer s)) = false →
  match known id (handled s) with
  | mkView (Some hc) np => ∃ m, (id, mkEvent id (ComputeCompositeStatus hc np) m) ∈ Simple.delivered (debouncer s)
  | mkView None _ =>
      proj id (emitted s) = [] ∨ ∃ m, (id, mkEvent id DELETED m) ∈ Simple.delivered (debouncer s)
  end.
Proof.
  intros Hser Hid s H1 H2 Hq Hst. destruct (acm_runs_inv l Hser) as [Hd Hr _ Hac]. fold s in Hd, Hr, Hac.
  pose proof (reconciles_tracks id (handled s) Hid) as H. rewrite Hr in H. destruct H as ((_ & _ & _ & Ht) & _ & _).
  specialize (Hac Hst). rewrite H1, H2 in Hac. simpl in Hac. rewrite app_nil_r in Hac.
  assert (∀ e, last (proj id (emitted s)) = Some e →
    (id, mkEvent id (EvStatus e) (EvMessage e)) ∈ Simple.delivered (debouncer s)) as Hdel.
  { intros e He. assert (InstanceID e = id) as Hi by (apply (last_tagged (handled s)); by rewrite Hr).
    rewrite Hac in He. apply (Simple.quiescent_delivered _ _ _ Hd Hq Hst) in He. destruct e. simpl in Hi. by subst. }
  destruct (known id (handled s)) as [[hc|] np]; simpl in Ht.
  - destruct Ht as [_ (e & He & Hc)]. exists (EvMessage e). rewrite <-Hc. by apply Hdel.
  - destruct (last (proj id (emitted s))) as [e|] eqn:He; [right|left; by apply last_None].
    exists (EvMessage e). rewrite <-(Ht e) by done. by apply Hdel.
Qed.

(** The status of the resource after its callback. *)
Lemma reconcile_status id rt name del conds i :
  let i' := (reconcile_instance id rt name del conds i).1 in
  match rt with
  | HostedClusterType => hcStatus i' = MapConditionsToStatus conds del
  | NodePoolType => ∀ np, MapNodePoolConditionsToStatus conds = Some np → npStatus i' = np
  end.
Proof.
  unfold reconcile_instance, publish_composite. destruct rt; cbv zeta.
  - destruct (_ =s? _) eqn:E; breflect; [done|]. cases; done.
  - intros np ->. destruct (_ =s? np) eqn:E; breflect; [done|]. cases; done.
Qed.

(** A notification that repeats the object of the last one (a resync) emits
    nothing: an event whose publication was given up is not sent again. *)
Lemma resync_emits_nothing u rt s : (reconcileResource u rt (reconcileResource u rt s).1).2 = None.
Proof.
  unfold reconcileResource. destruct (_ =s? "") eqn:Hid; [done|].
  pose proof (reconcile_status (extractInstanceID u) rt (Name (uns_Meta u)) (DeletionTimestamp (uns_Meta u))
    (extractConditions u) (getOrCreate s (extractInstanceID u))) as H.
  destruct (reconcile_instance _ _ _ _ _ _) as [i ev]. cbn [fst] in *. unfold getOrCreate.
  rewrite lookup_insert_eq. change (default new_instance (Some i)) with i. unfold reconcile_instance.
  destruct (note_name_fields rt (Name (uns_Meta u)) i) as (N1 & N2 & _). destruct rt; cbv zeta.
  - by rewrite N1, bool_decide_true.
  - destruct (MapNodePoolConditionsToStatus _) as [np|]; [|done].
    cbn [npStatus set_npMsg]. by rewrite N2, bool_decide_true by auto.
Qed.

(** ** Runs *)

Module AcmRun.

Definition condition (t st msg : string) : json := JObject [("type", JString t); ("status", JString st); ("message", JString msg)].

Definition resource (name id : string) (conds : list json) : informer_object :=
  Object (mkUns (mkMeta name "" "clusters" {[ LabelInstanceID := id ]} 0 None) (Some (JObject [("conditions", JArray conds)]))).

Definition hc_ready : informer_object := resource "c" "c1" [condition "Available" "True" ""; condition "Progressing" "True" ""].
Definition np_ready : informer_object := resource "c" "c1" [condition "Ready" "True" ""].
Definition np_down : informer_object := resource "c" "c1" [condition "Ready" "False" "1 of 2 nodes"].

Definition degrading : list notification :=
  [Upsert NodePoolType np_ready; Upsert HostedClusterType hc_ready; Upsert NodePoolType np_down; Upsert HostedClusterType hc_ready].

Lemma cluster_status_composite_witness :
  proj "c1" (reconciles degrading).2 = [mkEvent "c1" READY ""; mkEvent "c1" UNAVAILABLE "NodePool: 1 of 2 nodes"] ∧
  nested "c1" degrading = true ∧ current "c1" degrading = mkView (Some READY) (Some UNAVAILABLE) ∧
  no_stutter (proj "c1" (reconciles degrading).2) ∧
  ∃ e, last (proj "c1" (reconciles degrading).2) = Some e ∧ StatusPriority (EvStatus e) = StatusPriority UNAVAILABLE.
Proof.
  assert (nested "c1" degrading = true) as Hn by (by vm_compute).
  assert (current "c1" degrading = mkView (Some READY) (Some UNAVAILABLE)) as Hc by (by vm_compute).
  destruct (cluster_status_composite "c1" degrading ltac:(done)) as [H [Hs _]].
  split; [by vm_compute|]. split; [done|]. split; [done|]. split; [exact Hs|].
  rewrite Hc in H. destruct H as (e & np & He & _ & Hnp & H). specialize (Hnp Hn). simpl in Hnp. subst np.
  exists e. split; [exact He|]. rewrite (proj2 H). by vm_compute.
Defined.

Definition published : list acm_action :=
  [Notify (Upsert HostedClusterType hc_ready); SubmitHeld HostedClusterType; Fire 0; Run 0; Run 0;
   Notify (Upsert NodePoolType np_down); SubmitHeld NodePoolType; Fire 1; Run 1; Run 1].

Lemma cluster_status_published_witness :
  ∃ m, ("c1", mkEvent "c1" UNAVAILABLE m) ∈ Simple.delivered (debouncer (acm_runs published)).
Proof.
  assert (Simple.quiescent (debouncer (acm_runs published))) as Hq by (split; vm_compute; [done|repeat constructor]).
  exact (cluster_status_published published "c1" ltac:(by vm_compute) ltac:(done) eq_refl eq_refl Hq eq_refl).
Defined.

(** The two informers' callbacks overlap: the HostedCluster's holds READY while
    the NodePool's emits and submits UNAVAILABLE.  READY is what is published
    last, and repeated notifications change nothing. *)
Definition overlapping : list acm_action :=
  [Notify (Upsert HostedClusterType hc_ready); Notify (Upsert NodePoolType np_down);
   SubmitHeld NodePoolType; SubmitHeld HostedClusterType; Fire 1; Run 0; Run 0;
   Notify (Upsert HostedClusterType hc_ready); Notify (Upsert NodePoolType np_down)].

Lemma overlapping_callbacks_publish_stale :
  let s := acm_runs overlapping in
  known "c1" (handled s) = mkView (Some READY) (Some UNAVAILABLE) ∧
  Simple.quiescent (debouncer s) ∧ heldHC s = None ∧ heldNP s = None ∧
  Simple.delivered (debouncer s) = [("c1", mkEvent "c1" READY "")].
Proof. split_and!; [by vm_compute|split; vm_compute; [done|repeat constructor]|by vm_compute..]. Qed.

(** The NodePool's last update and its removal arrive after the HostedCluster's
    removal: its status stays, and makes a new ready cluster of the same
    identifier UNAVAILABLE. *)
Definition recreated : list notification :=
  [Upsert HostedClusterType hc_ready; Upsert NodePoolType np_ready; Deleted HostedClusterType hc_ready;
   Upsert NodePoolType np_down; Deleted NodePoolType np_down; Upsert HostedClusterType hc_ready].

Lemma removed_nodepool_counts :
  EvStatus <$> proj "c1" (reconciles recreated).2 = [READY; DELETED; UNAVAILABLE].
Proof. by vm_compute. Qed.
End AcmRun.
