(* ===== verification/AcmCluster.v ===== *)
(** * The embedded cluster provider

    Models internal/openshift/acmcluster: version resolution (version), domain
    errors (service/errors.go) and their HTTP view (app/errors.go), the builders
    of the two platforms (cluster/kubevirtprovider, cluster/baremetal), the
    operations on HostedClusters and NodePools (cluster/*.go), the dispatcher,
    the pull secret, the derived configuration (app.PrepareConfig) and the health
    check.  The request and response types are those of [ApiTypes.ClusterApi]. *)

From Stdlib Require Import Ascii.
From S2P Require Import Prelude GoStrings Provider Sets FileStore Json Effects K8s Encoding Codec ApiTypes StatusMon AcmMonitor.
Import ClusterApi.
#[local] Open Scope string_scope.
#[local] Open Scope Z_scope.

(** ** Library functions *)

(** The text before and after the first [c]. *)
Fixpoint cut_char (c : ascii) (l : list ascii) : list ascii * option (list ascii) :=
  match l with
  | [] => ([], None)
  | d :: l' => if Ascii.eqb c d then ([], Some l') else let '(a, b) := cut_char c l' in (d :: a, b)
  end.

(** [strings.TrimSuffix] *)
Definition TrimSuffix (s suffix : string) : string :=
  if HasSuffix s suffix then of_chars (take (String.length s - String.length suffix) (chars s)) else s.

(** [strings.ReplaceAll] for an [old] that is not empty; the fuel is the length
    of the text. *)
Fixpoint replace_all (fuel : nat) (old new : string) (s : string) : string :=
  match fuel with
  | O => s
  | S fuel' =>
      match CutPrefix s old with
      | Some rest => new ++ replace_all fuel' old new rest
      | None =>
          match s with
          | EmptyString => ""
          | String c s' => String c (replace_all fuel' old new s')
          end
      end
  end.

Definition ReplaceAll (s old new : string) : string := replace_all (String.length s) old new s.

(** [net.JoinHostPort] *)
Definition JoinHostPort (host port : string) : string :=
  if Contains host ":" then "[" ++ host ++ "]:" ++ port else host ++ ":" ++ port.

Definition wrapU32 (z : Z) : Z := z mod 2 ^ 32.

(** ** service/errors.go *)

Definition NOT_FOUND : string := "https://dcm-project.github.io/problems/not-found".
Definition ALREADY_EXISTS : string := "https://dcm-project.github.io/problems/already-exists".
Definition INVALID_ARGUMENT : string := "https://dcm-project.github.io/problems/invalid-argument".
Definition UNPROCESSABLE_ENTITY : string := "https://dcm-project.github.io/problems/unprocessable-entity".
Definition INTERNAL : string := "https://dcm-project.github.io/problems/internal".
Definition PROBLEM_UNAVAILABLE : string := "https://dcm-project.github.io/problems/unavailable".
Definition PERMISSION_DENIED : string := "https://dcm-project.github.io/problems/permission-denied".
Definition UNAUTHENTICATED : string := "https://dcm-project.github.io/problems/unauthenticated".

(** What an internal error wraps: an API error, or the two errors of a failed
    roll-back. *)
Inductive cause (X : Type) := APICause (x : X) | RollbackCause (create rollback : X).
Arguments APICause {X}.
Arguments RollbackCause {X}.

Record DomainError (X : Type) := mkDomainError {
  de_Type : string;
  de_Message : string;
  de_Detail : string;
  de_Cause : option (cause X)
}.
Arguments mkDomainError {X}.
Arguments de_Type {X}.
Arguments de_Message {X}.
Arguments de_Detail {X}.
Arguments de_Cause {X}.

Definition NewNotFoundError {X} (msg : string) : DomainError X := mkDomainError NOT_FOUND msg "" None.
Definition NewAlreadyExistsError {X} (msg : string) : DomainError X := mkDomainError ALREADY_EXISTS msg "" None.
Definition NewInvalidArgumentError {X} (msg : string) : DomainError X := mkDomainError INVALID_ARGUMENT msg "" None.
Definition NewUnprocessableEntityError {X} (msg : string) : DomainError X := mkDomainError UNPROCESSABLE_ENTITY msg "" None.
Definition NewInternalError {X} (msg : string) (c : cause X) : DomainError X := mkDomainError INTERNAL msg "" (Some c).

Section ErrorTexts.
Context {X Q : Type} `{!KubeLib X Q}.

Definition cause_text (c : cause X) : string :=
  match c with
  | APICause x => api_error_text x
  | RollbackCause a b => "create: " ++ api_error_text a ++ ", rollback: " ++ api_error_text b
  end.

(** [Error] *)
Definition DomainError_text (e : DomainError X) : string :=
  match de_Cause e with
  | Some c => de_Type e ++ ": " ++ de_Message e ++ ": " ++ cause_text c
  | None => de_Type e ++ ": " ++ de_Message e
  end.
End ErrorTexts.

(** ** app/errors.go *)

Definition httpStatusForErrorType (t : string) : Z :=
  if t =s? INVALID_ARGUMENT then 400
  else if t =s? NOT_FOUND then 404
  else if t =s? ALREADY_EXISTS then 409
  else if t =s? UNPROCESSABLE_ENTITY then 422
  else if t =s? PROBLEM_UNAVAILABLE then 503
  else if t =s? PERMISSION_DENIED then 403
  else if t =s? UNAUTHENTICATED then 401
  else 500.

Record OperationError := mkOpError { oe_StatusCode : Z; oe_Message : string }.

(** An error of the cluster service: a domain error, or the text of another. *)
Definition MapOperationError {X} (err : option (DomainError X + string)) : option OperationError :=
  match err with
  | None => None
  | Some (inr text) => Some (mkOpError 500 text)
  | Some (inl e) =>
      let msg := if de_Detail e =s? "" then de_Message e else de_Detail e in
      let msg := if de_Type e =s? INTERNAL then "an internal error occurred" else msg in
      Some (mkOpError (httpStatusForErrorType (de_Type e)) msg)
  end.

(** ** version/matrix.go, version/resolver.go *)

Abbreviation CompatibilityMatrix := (gmap string string) (only parsing).

Definition DefaultCompatibilityMatrix : CompatibilityMatrix := list_to_map
  [("4.14", "1.27"); ("4.15", "1.28"); ("4.16", "1.29"); ("4.17", "1.30");
   ("4.18", "1.31"); ("4.19", "1.32"); ("4.20", "1.33"); ("4.21", "1.34")].

(** [read]: the file's content, [None] on an error; [parse]: its JSON.  The
    matrix is [None] when the document is [null]. *)
Definition LoadCompatibilityMatrix (read : string → option string) (parse : string → option json) (path : string)
  : string + option CompatibilityMatrix :=
  if path =s? "" then inr (Some DefaultCompatibilityMatrix)
  else
    match read path with
    | None => inl ("loading compatibility matrix from " ++ path)
    | Some data =>
        match parse data ≫= decode (cmap cstring) None with
        | None => inl ("parsing compatibility matrix from " ++ path)
        | Some matrix => inr matrix
        end
    end.

(** The tag is what follows the last colon; its first two dot-separated parts. *)
Definition ExtractOCPVersion (releaseImage : string) : string :=
  match cut_char ":" (reverse (chars releaseImage)) with
  | (_, None) => ""
  | (rtag, Some _) =>
      match cut_char "." (reverse rtag) with
      | (_, None) => ""
      | (major, Some rest) => of_chars major ++ "." ++ of_chars (cut_char "." rest).1
      end
  end.

Definition ReleaseImageToK8sVersion (releaseImage : string) (matrix : CompatibilityMatrix) : string :=
  let ocpMinor := ExtractOCPVersion releaseImage in
  if ocpMinor =s? "" then "" else default "" (matrix !! ocpMinor).

(** A ClusterImageSet: [spec.releaseImage], empty when it is absent or not a
    string. *)
Record ClusterImageSet := mkImageSet { cis_Meta : ObjectMeta; cis_ReleaseImage : string }.
#[export] Instance imageset_meta : HasMeta ClusterImageSet := cis_Meta.

Section Resolver.
Context {W X Q : Type} `{!KubeLib X Q, !KubeAPI W X ClusterImageSet} (range : map_range).

Definition k8sToOCP (matrix : CompatibilityMatrix) (k8sVersion : string) : DomainError X + string :=
  match List.find (λ e, e.2 =s? k8sVersion) (range _ matrix) with
  | Some (ocpVersion, _) => inr ocpVersion
  | None => inl (NewUnprocessableEntityError ("unsupported Kubernetes version: " ++ k8sVersion))
  end.

Definition Resolve (matrix : CompatibilityMatrix) (k8sVersion : string) : kube W (DomainError X + string) := λ w,
  match k8sToOCP matrix k8sVersion with
  | inl err => (inl err, w)
  | inr ocpVersion =>
      match api_list (O := ClusterImageSet) "" (mkListOptions "" 0 "") w with
      | (inl x, w') => (inl (NewInternalError "failed to list cluster image sets" (APICause x)), w')
      | (inr (items, _), w') =>
          match List.find (λ i, negb (i =s? "") && (ExtractOCPVersion i =s? ocpVersion)) (cis_ReleaseImage <$> items) with
          | Some releaseImage => (inr releaseImage, w')
          | None => (inl (NewUnprocessableEntityError ("no ClusterImageSet found for version " ++ k8sVersion)), w')
          end
      end
  end.
End Resolver.

(** ** HyperShift objects *)

Inductive PlatformType := KubevirtPlatform | AgentPlatform.
Inductive ServiceName := OAuthServer | Konnectivity | Ignition | APIServer.
Inductive PublishingType := Route | LoadBalancer.

Record HostedCluster := mkHC {
  hc_Meta : ObjectMeta;
  hc_Annotations : gmap string string;
  hc_Platform : PlatformType;
  hc_AgentNamespace : option string;
  hc_ReleaseImage : string;
  hc_BaseDomain : string;
  hc_Services : list (ServiceName * PublishingType);
  hc_PullSecret : string;
  hc_Conditions : list Condition;
  hc_KubeConfig : option string;
  hc_Endpoint : string * Z
}.
#[export] Instance hc_meta : HasMeta HostedCluster := hc_Meta.

(** Cores and memory of a KubeVirt node, and the size of its root volume. *)
Record KubevirtNodePool (Q : Type) := mkKubevirtNP { kv_Memory : option Q; kv_Cores : option Z; kv_RootVolume : Q }.
Arguments mkKubevirtNP {Q}.
Arguments kv_Memory {Q}.
Arguments kv_Cores {Q}.
Arguments kv_RootVolume {Q}.

Record NodePool (Q : Type) := mkNP {
  np_Meta : ObjectMeta;
  np_ClusterName : string;
  np_ReleaseImage : string;
  np_Replicas : option Z;
  np_Platform : PlatformType;
  np_Kubevirt : option (KubevirtNodePool Q);
  np_AgentLabels : option (gmap string string)
}.
Arguments mkNP {Q}.
Arguments np_Meta {Q}.
Arguments np_ClusterName {Q}.
Arguments np_ReleaseImage {Q}.
Arguments np_Replicas {Q}.
Arguments np_Platform {Q}.
Arguments np_Kubevirt {Q}.
Arguments np_AgentLabels {Q}.
#[export] Instance np_meta Q : HasMeta (NodePool Q) := np_Meta.

(** The data of a secret, by key, and its type. *)
Record Secret := mkSecret { sec_Meta : ObjectMeta; sec_Data : gmap string string; sec_Type : string }.
#[export] Instance secret_meta : HasMeta Secret := sec_Meta.

(** ** config/config.go *)

Record ClusterConfig := mkClusterConfig {
  ClusterNamespace : string;
  BaseDomain : string;
  PullSecret : string;
  PullSecretName : string;
  ConsoleURIPattern : string;
  VersionMatrixPath : string;
  DefaultInfraEnv : string;
  AgentNamespace : string;
  InfraEnvLabelKey : string;
  VersionMatrix : CompatibilityMatrix
}.

(** app.PrepareConfig *)
Definition PrepareConfig (read : string → option string) (parse : string → option json) (name : string) (cfg : ClusterConfig)
  : string + ClusterConfig :=
  match LoadCompatibilityMatrix read parse (VersionMatrixPath cfg) with
  | inl err => inl ("loading compatibility matrix: " ++ err)
  | inr matrix =>
      inr (mkClusterConfig (ClusterNamespace cfg) (BaseDomain cfg) (PullSecret cfg) (name ++ "-pull-secret")
             (ConsoleURIPattern cfg) (VersionMatrixPath cfg) (DefaultInfraEnv cfg) (AgentNamespace cfg)
             (InfraEnvLabelKey cfg) (default ∅ matrix))
  end.

(** ** cluster/labels.go *)

Definition ClusterServiceType : string := "cluster".
Definition DCMLabels (instanceID : string) : gmap string string := dcmLabels ClusterServiceType instanceID.

(** ** cluster/convert.go *)

(** The first condition of the type that has a message. *)
Definition conditionMessage (conditions : list Condition) (condType : string) : option string :=
  c_Message <$> List.find (λ c, (c_Type c =s? condType) && negb (c_Message c =s? "")) conditions.

Definition BuildConsoleURI (pattern : string) (hc : HostedCluster) : option string :=
  if hc_BaseDomain hc =s? "" then None
  else Some (ReplaceAll (ReplaceAll pattern "{name}" (Name (hc_Meta hc))) "{base_domain}" (hc_BaseDomain hc)).

Definition BuildAPIEndpoint (hc : HostedCluster) : option string :=
  let '(host, port) := hc_Endpoint hc in
  if host =s? "" then None else Some ("https://" ++ JoinHostPort host (pretty port)).

(** The hints of a request. *)
Definition acm_hints (req : Cluster (T := Z)) : option ACMProviderHints := cs_ProviderHints (cl_Spec req) ≫= ph_Acm.

(** ** cluster/create_helpers.go *)

Definition ResolveBaseDomain (req : Cluster (T := Z)) (configDefault : string) : string :=
  default configDefault (acm_hints req ≫= acmph_BaseDomain).

(** ** cluster/create.go *)

Definition DefaultServicePublishingStrategies : list (ServiceName * PublishingType) :=
  [(OAuthServer, Route); (Konnectivity, Route); (Ignition, Route); (APIServer, LoadBalancer)].

Section Cluster.
Context {W X Q : Type} `{!KubeLib X Q}.
Context `{!KubeAPI W X ClusterImageSet, !KubeAPI W X HostedCluster, !KubeAPI W X (NodePool Q), !KubeAPI W X Secret}.
Context (range : map_range).
(** [hyperv1.ResourceRequestOverrideAnnotationPrefix], and [resource.Quantity{}]. *)
Context (annotation_prefix : string) (zero_quantity : Q).

Definition ParseDCMMemory (s : string) : string + Q :=
  if s =s? "" then inl "empty memory/storage value"
  else
    let k8sValue := TrimSuffix s "B" in
    if k8sValue =s? s then inl ("unsupported memory/storage format: " ++ s)
    else
      match ParseQuantity k8sValue with
      | inl err => inl ("invalid memory/storage value " ++ Quote s ++ ": " ++ err)
      | inr q => inr q
      end.

Definition ExtractKubeconfig (hc : HostedCluster) : kube W (option string) := λ w,
  match hc_KubeConfig hc with
  | None => (None, w)
  | Some name =>
      if name =s? "" then (None, w)
      else
        match api_get (O := Secret) (Namespace (hc_Meta hc)) name w with
        | (inl _, w') => (None, w')
        | (inr secret, w') =>
            match sec_Data secret !! "kubeconfig" with
            | Some data => if data =s? "" then (None, w') else (Some (EncodeToString data), w')
            | None => (None, w')
            end
        end
  end.

(** The last transition of the first condition, or of a later one that is
    after it. *)
Definition conditions_time (conditions : list Condition) : option Z :=
  match conditions with
  | [] => None
  | c :: rest =>
      Some (fold_left (λ latest c, if latest <? c_LastTransitionTime c then c_LastTransitionTime c else latest) rest
              (c_LastTransitionTime c))
  end.

Definition HostedClusterToCluster (cfg : ClusterConfig) (hc : HostedCluster) : kube W (Cluster (T := Z)) := λ w,
  let instanceID := label (Labels (hc_Meta hc)) LabelInstanceID in
  let clusterStatus := MapConditionsToStatus (hc_Conditions hc) (DeletionTimestamp (hc_Meta hc)) in
  let statusMessage :=
    if clusterStatus =s? FAILED then conditionMessage (hc_Conditions hc) "Degraded"
    else if clusterStatus =s? UNAVAILABLE then conditionMessage (hc_Conditions hc) "Available"
    else None in
  let spec := mkClusterSpec (mkClusterMetadata None (Name (hc_Meta hc))) None None "cluster"
    (ReleaseImageToK8sVersion (hc_ReleaseImage hc) (VersionMatrix cfg)) in
  let createTime := if time_is_zero (CreationTimestamp (hc_Meta hc)) then None else Some (CreationTimestamp (hc_Meta hc)) in
  let updateTime := match conditions_time (hc_Conditions hc) with Some t => Some t | None => createTime end in
  let cl endpoint console kubeconfig :=
    mkCluster endpoint console createTime (Some instanceID) kubeconfig (Some ("clusters/" ++ instanceID)) spec
      (Some clusterStatus) statusMessage updateTime in
  if (clusterStatus =s? READY) || (clusterStatus =s? UNAVAILABLE) then
    let '(kubeconfig, w') := ExtractKubeconfig hc w in
    (cl (BuildAPIEndpoint hc) (BuildConsoleURI (ConsoleURIPattern cfg) hc) kubeconfig, w')
  else (cl None None None, w).

Definition ResolveReleaseImage (cfg : ClusterConfig) (req : Cluster (T := Z)) : kube W (DomainError X + string) := λ w,
  match acm_hints req ≫= acmph_ReleaseImage with
  | Some image => (inr image, w)
  | None =>
      let matrix := if bool_decide (VersionMatrix cfg = ∅) then DefaultCompatibilityMatrix else VersionMatrix cfg in
      Resolve range matrix (cs_Version (cl_Spec req)) w
  end.

(** ** cluster/operations.go *)

Definition by_instance_id (id : string) : ListOptions := mkListOptions (labels_String {[ LabelInstanceID := id ]}) 0 "".

Definition findByInstanceID (namespace id : string) : kube W (DomainError X + HostedCluster) := λ w,
  match api_list (O := HostedCluster) namespace (by_instance_id id) w with
  | (inl x, w') => (inl (NewInternalError "failed to list clusters" (APICause x)), w')
  | (inr ([], _), w') => (inl (NewNotFoundError ("cluster " ++ id ++ " not found")), w')
  | (inr (hc :: _, _), w') => (inr hc, w')
  end.

Fixpoint delete_each (items : list (NodePool Q)) : kube W (option (DomainError X)) := λ w,
  match items with
  | [] => (None, w)
  | np :: rest =>
      match api_delete (O := NodePool Q) (Namespace (np_Meta np)) (Name (np_Meta np)) w with
      | (Some x, w') =>
          if IsNotFound x then delete_each rest w'
          else (Some (NewInternalError "failed to delete node pool" (APICause x)), w')
      | (None, w') => delete_each rest w'
      end
  end.

Definition deleteNodePools (namespace instanceID : string) : kube W (option (DomainError X)) := λ w,
  match api_list (O := NodePool Q) namespace (by_instance_id instanceID) w with
  | (inl x, w') => (Some (NewInternalError "failed to list node pools for deletion" (APICause x)), w')
  | (inr (items, _), w') => delete_each items w'
  end.

Definition GetCluster (cfg : ClusterConfig) (id : string) : kube W (DomainError X + Cluster (T := Z)) := λ w,
  match findByInstanceID (ClusterNamespace cfg) id w with
  | (inl err, w') => (inl err, w')
  | (inr hc, w') => let '(c, w2) := HostedClusterToCluster cfg hc w' in (inr c, w2)
  end.

Fixpoint convert_page (cfg : ClusterConfig) (page : list HostedCluster) : kube W (list (Cluster (T := Z))) := λ w,
  match page with
  | [] => ([], w)
  | hc :: rest =>
      let '(c, w1) := HostedClusterToCluster cfg hc w in
      let '(cs, w2) := convert_page cfg rest w1 in
      (c :: cs, w2)
  end.

(** [l\[lo:hi\]] for [hi] at most the length: a panic unless [0 <= lo <= hi]. *)
Definition slice {A} (lo hi : Z) (l : list A) : exc (list A) :=
  if (0 <=? lo) && (lo <=? hi) && (hi <=? Z.of_nat (length l))
  then Val (take (Z.to_nat (hi - lo)) (drop (Z.to_nat lo) l)) else Panicked.

(** The offset a page token stands for. *)
Definition page_offset (pageToken : string) : option Z :=
  if pageToken =s? "" then Some 0
  else
    match DecodeString pageToken ≫= Atoi with
    | Some v => if v <? 0 then None else Some v
    | None => None
    end.

Definition ListClusters (cfg : ClusterConfig) (pageSize : Z) (pageToken : string)
  : kube W (exc (DomainError X + (list (Cluster (T := Z)) * option string))) := λ w,
  match api_list (O := HostedCluster) (ClusterNamespace cfg)
          (mkListOptions (labels_String {[ LabelManagedBy := ValueManagedByDCM; LabelServiceType := ClusterServiceType ]}) 0 "") w with
  | (inl x, w') => (Val (inl (NewInternalError "failed to list clusters" (APICause x))), w')
  | (inr (items, _), w') =>
      let items := sort_by_name (λ hc, Name (hc_Meta hc)) items in
      match page_offset pageToken with
      | None => (Val (inl (NewInvalidArgumentError "invalid page_token")), w')
      | Some offset =>
          let total := Z.of_nat (length items) in
          let offset := if total <? offset then total else offset in
          let end_ := wrap64 (offset + pageSize) in
          let end_ := if total <? end_ then total else end_ in
          match slice offset end_ items with
          | Panicked => (Panicked, w')
          | Val page =>
              let '(clusters, w2) := convert_page cfg page w' in
              (Val (inr (clusters, if end_ <? total then Some (EncodeToString (pretty end_)) else None)), w2)
          end
      end
  end.

Definition DeleteCluster (cfg : ClusterConfig) (id : string) : kube W (option (DomainError X)) := λ w,
  match findByInstanceID (ClusterNamespace cfg) id w with
  | (inl err, w') => (Some err, w')
  | (inr hc, w') =>
      match deleteNodePools (Namespace (hc_Meta hc)) id w' with
      | (Some err, w2) => (Some err, w2)
      | (None, w2) =>
          match api_delete (O := HostedCluster) (Namespace (hc_Meta hc)) (Name (hc_Meta hc)) w2 with
          | (Some x, w3) => (Some (NewInternalError "failed to delete cluster" (APICause x)), w3)
          | (None, w3) => (None, w3)
          end
      end
  end.

(** [PlatformBuilder]; building a node pool may panic. *)
Record PlatformBuilder := mkBuilder {
  BuildHostedCluster : Cluster (T := Z) → string → string → gmap string string → HostedCluster;
  BuildNodePool : Cluster (T := Z) → string → gmap string string → exc (NodePool Q)
}.

Definition applyControlPlaneResourceOverrides (hc : HostedCluster) (req : Cluster (T := Z)) : HostedCluster :=
  match cs_Nodes (cl_Spec req) ≫= cn_ControlPlane with
  | None => hc
  | Some cp =>
      let parts := app (match cps_Cpu cp with Some n => ["cpu=" ++ pretty n] | None => [] end)
                       (match cps_Memory cp with Some m => ["memory=" ++ TrimSuffix m "B"] | None => [] end) in
      match parts with
      | [] => hc
      | _ =>
          let value := String.concat "," parts in
          mkHC (hc_Meta hc)
            (<[annotation_prefix ++ "/etcd.etcd" := value]>
              (<[annotation_prefix ++ "/kube-apiserver.kube-apiserver" := value]> (hc_Annotations hc)))
            (hc_Platform hc) (hc_AgentNamespace hc) (hc_ReleaseImage hc) (hc_BaseDomain hc) (hc_Services hc)
            (hc_PullSecret hc) (hc_Conditions hc) (hc_KubeConfig hc) (hc_Endpoint hc)
      end
  end.

Definition with_pull_secret (name : string) (hc : HostedCluster) : HostedCluster :=
  mkHC (hc_Meta hc) (hc_Annotations hc) (hc_Platform hc) (hc_AgentNamespace hc) (hc_ReleaseImage hc) (hc_BaseDomain hc)
    (hc_Services hc) name (hc_Conditions hc) (hc_KubeConfig hc) (hc_Endpoint hc).

(** [now]: the time read at the end. *)
Definition CreateCluster (cfg : ClusterConfig) (now : Z) (id : string) (req : Cluster (T := Z)) (pb : PlatformBuilder)
  : kube W (exc (DomainError X + Cluster (T := Z))) := λ w,
  let baseDomain := ResolveBaseDomain req (BaseDomain cfg) in
  if baseDomain =s? "" then (Val (inl (NewInvalidArgumentError "base_domain is required")), w)
  else
    match ResolveReleaseImage cfg req w with
    | (inl err, w1) => (Val (inl err), w1)
    | (inr releaseImage, w1) =>
        match findByInstanceID (ClusterNamespace cfg) id w1 with
        | (inr _, w2) => (Val (inl (NewAlreadyExistsError "cluster with this ID already exists")), w2)
        | (inl err, w2) =>
            if negb (de_Type err =s? NOT_FOUND) then (Val (inl err), w2)
            else
              let labels := DCMLabels id in
              let hc := BuildHostedCluster pb req baseDomain releaseImage labels in
              let hc := with_pull_secret (PullSecretName cfg) (applyControlPlaneResourceOverrides hc req) in
              match api_create (Namespace (hc_Meta hc)) hc w2 with
              | (inl x, w3) =>
                  if IsAlreadyExists x then
                    (Val (inl (NewAlreadyExistsError
                      ("cluster with name " ++ Quote (cm_Name (cs_Metadata (cl_Spec req))) ++ " already exists"))), w3)
                  else (Val (inl (NewInternalError "failed to create cluster resources" (APICause x))), w3)
              | (inr hc', w3) =>
                  match BuildNodePool pb req releaseImage labels with
                  | Panicked => (Panicked, w3)
                  | Val np =>
                      match api_create (Namespace (np_Meta np)) np w3 with
                      | (inl x, w4) =>
                          match api_delete (O := HostedCluster) (Namespace (hc_Meta hc')) (Name (hc_Meta hc')) w4 with
                          | (Some y, w5) =>
                              (Val (inl (NewInternalError "failed to create node pool and rollback of hosted cluster failed"
                                 (RollbackCause x y))), w5)
                          | (None, w5) => (Val (inl (NewInternalError "failed to create cluster resources" (APICause x))), w5)
                          end
                      | (inr _, w4) =>
                          (Val (inr (mkCluster None None (Some now) (Some id) None (Some ("clusters/" ++ id)) (cl_Spec req)
                             (Some PENDING) None (Some now))), w4)
                      end
                  end
              end
        end
    end.

(** ** cluster/kubevirtprovider/create.go *)

Definition MustParse (s : string) : exc Q := match ParseQuantity s with inr q => Val q | inl _ => Panicked end.

(** A value of the request that does not parse is the zero quantity. *)
Definition parsed_or_zero (s : string) : Q := match ParseDCMMemory s with inr q => q | inl _ => zero_quantity end.

Definition kubevirt_platform (w : WorkerSpec) : exc (option (KubevirtNodePool Q)) :=
  let memory := parsed_or_zero <$> ws_Memory w in
  let cores := wrapU32 <$> ws_Cpu w in
  match ws_Memory w, ws_Cpu w, ws_Storage w with
  | None, None, None => Val None
  | _, _, Some s => Val (Some (mkKubevirtNP memory cores (parsed_or_zero s)))
  | _, _, None =>
      match MustParse "32Gi" with
      | Val defaultSize => Val (Some (mkKubevirtNP memory cores defaultSize))
      | Panicked => Panicked
      end
  end.

Definition kubevirtBuilder (cfg : ClusterConfig) : PlatformBuilder := {|
  BuildHostedCluster req baseDomain releaseImage labels :=
    mkHC (mkMeta (cm_Name (cs_Metadata (cl_Spec req))) "" (ClusterNamespace cfg) labels 0 None) ∅ KubevirtPlatform None
      releaseImage baseDomain DefaultServicePublishingStrategies "" [] None ("", 0);
  BuildNodePool req releaseImage labels :=
    let np replicas kv :=
      mkNP (mkMeta (cm_Name (cs_Metadata (cl_Spec req))) "" (ClusterNamespace cfg) labels 0 None)
        (cm_Name (cs_Metadata (cl_Spec req))) releaseImage replicas KubevirtPlatform kv None in
    match cs_Nodes (cl_Spec req) ≫= cn_Workers with
    | None => Val (np None None)
    | Some w =>
        match kubevirt_platform w with
        | Val kv => Val (np (Some (match ws_Count w with Some n => wrap32 n | None => 1 end)) kv)
        | Panicked => Panicked
        end
    end
|}.

(** ** cluster/baremetal/create.go *)

Definition resolveInfraEnv (cfg : ClusterConfig) (req : Cluster (T := Z)) : DomainError X + string :=
  match acm_hints req ≫= acmph_InfraEnv with
  | Some infraEnv => inr infraEnv
  | None =>
      if negb (DefaultInfraEnv cfg =s? "") then inr (DefaultInfraEnv cfg)
      else inl (NewInvalidArgumentError "infra_env is required: set provider_hints.acm.infra_env or SP_DEFAULT_INFRA_ENV")
  end.

Definition baremetalBuilder (cfg : ClusterConfig) (infraEnv : string) : PlatformBuilder := {|
  BuildHostedCluster req baseDomain releaseImage labels :=
    mkHC (mkMeta (cm_Name (cs_Metadata (cl_Spec req))) "" (ClusterNamespace cfg) labels 0 None) ∅ AgentPlatform
      (Some (AgentNamespace cfg)) releaseImage baseDomain DefaultServicePublishingStrategies "" [] None ("", 0);
  BuildNodePool req releaseImage labels :=
    let matchLabels : gmap string string := default ∅ (acm_hints req ≫= λ h, mjoin (acmph_AgentLabels h)) ∪ {[ InfraEnvLabelKey cfg := infraEnv ]} in
    let replicas := match (cs_Nodes (cl_Spec req) ≫= cn_Workers) ≫= ws_Count with Some n => wrap32 n | None => 1 end in
    Val (mkNP (mkMeta (cm_Name (cs_Metadata (cl_Spec req))) "" (ClusterNamespace cfg) labels 0 None)
           (cm_Name (cs_Metadata (cl_Spec req))) releaseImage (Some replicas) AgentPlatform None (Some matchLabels))
|}.

(** [Create] of the two platform services. *)
Definition kubevirtCreate (cfg : ClusterConfig) (now : Z) (id : string) (req : Cluster (T := Z))
  : kube W (exc (DomainError X + Cluster (T := Z))) := CreateCluster cfg now id req (kubevirtBuilder cfg).

Definition baremetalCreate (cfg : ClusterConfig) (now : Z) (id : string) (req : Cluster (T := Z))
  : kube W (exc (DomainError X + Cluster (T := Z))) := λ w,
  match resolveInfraEnv cfg req with
  | inl err => (Val (inl err), w)
  | inr infraEnv => CreateCluster cfg now id req (baremetalBuilder cfg infraEnv) w
  end.

(** ** cluster/dispatcher/dispatcher.go *)

(** The platform asked for, and its service if it is enabled. *)
Definition serviceForPlatform (enabledPlatforms : list string) (req : Cluster (T := Z))
  : string * option (ClusterConfig → Z → string → Cluster (T := Z) → kube W (exc (DomainError X + Cluster (T := Z)))) :=
  let platform := default "kubevirt" (acm_hints req ≫= acmph_Platform) in
  (platform,
   if bool_decide (platform = "kubevirt" ∧ "kubevirt" ∈ enabledPlatforms) then Some kubevirtCreate
   else if bool_decide (platform = "baremetal" ∧ "baremetal" ∈ enabledPlatforms) then Some baremetalCreate
   else None).

Definition dispatchCreate (cfg : ClusterConfig) (enabledPlatforms : list string) (now : Z) (id : string) (req : Cluster (T := Z))
  : kube W (exc (DomainError X + Cluster (T := Z))) := λ w,
  match serviceForPlatform enabledPlatforms req with
  | (platform, None) => (Val (inl (NewUnprocessableEntityError ("unsupported platform " ++ Quote platform))), w)
  | (_, Some create) => create cfg now id req w
  end.

(** ** cluster/pullsecret.go *)

Definition SecretTypeDockerConfigJson : string := "kubernetes.io/dockerconfigjson".

(** [json.RawMessage] as the value of a map: any value is kept. *)
Definition craw : codec json := {| zero := JNull; decode _ j := Some j; encode j := Some j; wf _ := True |}.

Definition auths_fields : list (field (option (gmap string json))) := [required "auths" (cmap craw) id (λ v _, v)].

(** [parse]: the JSON of a document; [update]: [client.Update]. *)
Definition EnsurePullSecret (parse : string → option json) (update : Secret → kube W (option X)) (cfg : ClusterConfig)
  : kube W (option string) := λ w,
  match DecodeString (PullSecret cfg) with
  | None => (Some "decoding SP_PULL_SECRET", w)
  | Some decoded =>
      match parse decoded ≫= struct_decode auths_fields None with
      | None => (Some "parsing SP_PULL_SECRET as .dockerconfigjson", w)
      | Some auths =>
          if bool_decide (default ∅ auths = ∅) then
            (Some "SP_PULL_SECRET .dockerconfigjson is missing required 'auths' entries", w)
          else
            let labels : gmap string string := {[ LabelManagedBy := ValueManagedByDCM; LabelServiceType := ClusterServiceType ]} in
            let data : gmap string string := {[ ".dockerconfigjson" := decoded ]} in
            let secret := mkSecret (mkMeta (PullSecretName cfg) "" (ClusterNamespace cfg) labels 0 None) data SecretTypeDockerConfigJson in
            match api_create (ClusterNamespace cfg) secret w with
            | (inr _, w1) => (None, w1)
            | (inl x, w1) =>
                if negb (IsAlreadyExists x) then (Some "creating pull secret", w1)
                else
                  match api_get (O := Secret) (ClusterNamespace cfg) (PullSecretName cfg) w1 with
                  | (inl _, w2) => (Some "getting existing pull secret", w2)
                  | (inr existing, w2) =>
                      let m := sec_Meta existing in
                      let existing := mkSecret (mkMeta (Name m) (GenerateName m) (Namespace m) (labels ∪ Labels m)
                        (CreationTimestamp m) (DeletionTimestamp m)) data (sec_Type existing) in
                      match update existing w2 with
                      | (Some _, w3) => (Some "updating pull secret", w3)
                      | (None, w3) => (None, w3)
                      end
                  end
            end
      end
  end.

(** ** health/health.go *)

(** Kinds whose lists are probed. *)
Inductive probe := HostedClusterList | VirtualMachineInstanceList | AgentList.

(** [recognizes]: whether the scheme has the kind; [list_one]: a list call with
    limit 1, and whether it failed. *)
Definition checkCRDAvailable (recognizes : probe → bool) (list_one : probe → kube W bool) (p : probe) : kube W bool := λ w,
  if negb (recognizes p) then (false, w) else let '(failed, w') := list_one p w in (negb failed, w').

Fixpoint check_platforms (recognizes : probe → bool) (list_one : probe → kube W bool) (platforms : list string) : kube W bool := λ w,
  match platforms with
  | [] => (true, w)
  | p :: rest =>
      let available gvk :=
        match checkCRDAvailable recognizes list_one gvk w with
        | (true, w') => check_platforms recognizes list_one rest w'
        | (false, w') => (false, w')
        end in
      if p =s? "kubevirt" then available VirtualMachineInstanceList
      else if p =s? "baremetal" then available AgentList
      else check_platforms recognizes list_one rest w
  end.

(** Status, type, path, version and uptime ([uptime] in whole seconds). *)
Definition Check (recognizes : probe → bool) (list_one : probe → kube W bool) (enabledPlatforms : list string)
  (version : string) (uptime : Z) : kube W (Health) := λ w,
  let h status := mkHealth (Some "health") (Some status) (Some "acm-cluster-service-provider.dcm.io/health")
    (Some (Z.max 0 uptime)) (Some version) in
  match checkCRDAvailable recognizes list_one HostedClusterList w with
  | (false, w') => (h "unhealthy", w')
  | (true, w') =>
      match check_platforms recognizes list_one enabledPlatforms w' with
      | (true, w2) => (h "healthy", w2)
      | (false, w2) => (h "unhealthy", w2)
      end
  end.
End Cluster.

(** ** Correctness *)

(** The stored objects keep what the request sets. *)
Definition hc_admitted (o o' : HostedCluster) : Prop :=
  Namespace (hc_Meta o') = Namespace (hc_Meta o) ∧ hc_Annotations o' = hc_Annotations o ∧ hc_Platform o' = hc_Platform o ∧
  hc_ReleaseImage o' = hc_ReleaseImage o ∧ hc_BaseDomain o' = hc_BaseDomain o ∧ hc_PullSecret o' = hc_PullSecret o.

Definition np_admitted {Q} (o o' : NodePool Q) : Prop :=
  Namespace (np_Meta o') = Namespace (np_Meta o) ∧ np_ClusterName o' = np_ClusterName o ∧
  np_ReleaseImage o' = np_ReleaseImage o ∧ np_Replicas o' = np_Replicas o ∧ np_Platform o' = np_Platform o.

(** The label that names the instance. *)
Definition named_instance (id : string) (l : gmap string string) : bool := bool_decide (l !! LabelInstanceID = Some id).

Section Instances.
Context {W X Q O : Type} {adm : O → O → Prop}.
Context `{!KubeLib X Q, !HasMeta O, !KubeAPI W X O, !KubeLaws W X Q O adm}.

Definition of_id (id : string) (m : gmap string O) : list O := selected (named_instance id) m.

Lemma by_instance_id_items ns id w items c w' :
  valid_label_value id = true → api_list ns (by_instance_id id) w = (inr (items, c), w') →
  objs w' = objs w ∧ items ≡ₚ of_id id (objs w ns).
Proof.
  intros Hv Hl. apply list_ok in Hl as [Hw Hi]. split; [done|]. rewrite (Hi eq_refl eq_refl).
  unfold of_id, selected. erewrite list_filter_iff; [done|]. intros o. cbv beta. cbn [lo_LabelSelector by_instance_id].
  rewrite selects_set, map_singleton_subseteq_l; unfold named_instance; [by rewrite bool_decide_eq_true|..].
  - rewrite dom_singleton. unfold ReservedLabelKeys. set_solver.
  - by apply map_Forall_singleton.
Qed.

Lemma elem_of_of_id id m o : o ∈ of_id id m ↔ (∃ k, m !! k = Some o) ∧ Labels (meta o) !! LabelInstanceID = Some id.
Proof. unfold of_id. rewrite elem_of_selected. unfold named_instance. by rewrite bool_decide_eq_true. Qed.
End Instances.

Lemma DCMLabels_id id : DCMLabels id !! LabelInstanceID = Some id.
Proof. unfold DCMLabels. rewrite dcmLabels_lookup. done. Qed.

Section Correct.
Context {W X Q : Type} `{!KubeLib X Q}.
Context `{!KubeAPI W X ClusterImageSet, !KubeAPI W X HostedCluster, !KubeAPI W X (NodePool Q), !KubeAPI W X Secret}.
Context `{!KubeLaws W X Q HostedCluster hc_admitted, !KubeLaws W X Q (NodePool Q) np_admitted}.
Context `{!KubeFrame W X Q HostedCluster (NodePool Q), !KubeFrame W X Q (NodePool Q) HostedCluster}.
Context `{!KubeFrame W X Q ClusterImageSet HostedCluster, !KubeFrame W X Q ClusterImageSet (NodePool Q)}.
Context `{!KubeFrame W X Q Secret HostedCluster, !KubeFrame W X Q Secret (NodePool Q)}.
Context (range : map_range) (prefix : string) (zq : Q) (cfg : ClusterConfig).
#[local] Abbreviation ns := (ClusterNamespace cfg).
#[local] Abbreviation hcs w := (objs (O := HostedCluster) w).
#[local] Abbreviation nps w := (objs (O := NodePool Q) w).

(** A create call that reports an error has not created the object. *)
Definition clean_create_errors : Prop :=
  (∀ n (o : HostedCluster) w x w', api_create n o w = (inl x, w') → hcs w' = hcs w) ∧
  (∀ n (o : NodePool Q) w x w', api_create n o w = (inl x, w') → nps w' = nps w).

(** The number of workers asked for, one by default. *)
Definition workers_count (w : WorkerSpec) : Z := default 1 (wrap32 <$> ws_Count w).

(** What the two platform builders guarantee to [CreateCluster]. *)
Class BuilderLaws (pb : PlatformBuilder (Q := Q)) : Prop := {
  build_hc req d i l :
    let m := hc_Meta (BuildHostedCluster pb req d i l) in
    Namespace m = ns ∧ Labels m = l ∧ Name m = cm_Name (cs_Metadata (cl_Spec req));
  build_hc_spec req d i l :
    let hc := BuildHostedCluster pb req d i l in hc_ReleaseImage hc = i ∧ hc_BaseDomain hc = d;
  build_np req i l : ∃ np, BuildNodePool pb req i l = Val np ∧
    Namespace (np_Meta np) = ns ∧ Labels (np_Meta np) = l ∧ np_ReleaseImage np = i ∧
    Name (np_Meta np) = cm_Name (cs_Metadata (cl_Spec req)) ∧ np_ClusterName np = cm_Name (cs_Metadata (cl_Spec req)) ∧
    (∀ w, cs_Nodes (cl_Spec req) ≫= cn_Workers = Some w → np_Replicas np = Some (workers_count w))
}.

#[local] Instance kubevirt_laws q : ParseQuantity "32Gi" = inr q → BuilderLaws (kubevirtBuilder zq cfg).
Proof.
  intros Hq. split; [done..|]. intros req i l. simpl.
  destruct (_ ≫= cn_Workers) as [w|]; [|eexists; by split_and!].
  assert (∃ kv, kubevirt_platform zq w = Val kv) as [kv ->].
  2:{ eexists. split_and!; try done. intros w' [= <-]. simpl. unfold workers_count. by destruct (ws_Count w). }
  unfold kubevirt_platform, MustParse. rewrite Hq. destruct (ws_Memory w), (ws_Cpu w), (ws_Storage w); eauto.
Qed.

#[local] Instance baremetal_laws env : BuilderLaws (baremetalBuilder cfg env).
Proof.
  split; [done..|]. intros. simpl. eexists. split_and!; try done. intros w ->. simpl. unfold workers_count. by destruct (ws_Count w).
Qed.

(** Steps of [CreateCluster] that only read. *)
Lemma resolve_frame req w r w1 :
  ResolveReleaseImage range cfg req w = (r, w1) → hcs w1 = hcs w ∧ nps w1 = nps w.
Proof.
  unfold ResolveReleaseImage, Resolve. destruct (_ ≫= acmph_ReleaseImage); [by intros [= _ <-]|].
  destruct (k8sToOCP _ _ _); [by intros [= _ <-]|].
  pose proof (frame_list (O := ClusterImageSet) (O' := HostedCluster) "" (mkListOptions "" 0 "") w) as H1.
  pose proof (frame_list (O := ClusterImageSet) (O' := NodePool Q) "" (mkListOptions "" 0 "") w) as H2.
  destruct (api_list (O := ClusterImageSet) _ _ _) as [[x|[items c]] w']; simpl in H1, H2; [by intros [= _ <-]|].
  destruct (List.find _ _); by intros [= _ <-].
Qed.

Lemma list_hcs_frame n opts w r w1 :
  api_list (O := HostedCluster) n opts w = (r, w1) → hcs w1 = hcs w ∧ nps w1 = nps w.
Proof.
  intros Hl. pose proof (frame_list (O := HostedCluster) (O' := NodePool Q) n opts w) as Hf. rewrite Hl in Hf.
  split; [|done]. destruct r as [x|[items c]]; [by apply list_err in Hl|by apply list_ok in Hl as [? _]].
Qed.

Lemma find_spec id w r w1 :
  valid_label_value id = true → findByInstanceID ns id w = (r, w1) →
  hcs w1 = hcs w ∧ nps w1 = nps w ∧
  match r with
  | inr hc => hc ∈ of_id id (hcs w ns)
  | inl err => de_Type err = NOT_FOUND ↔ of_id id (hcs w ns) = [] ∧ err = NewNotFoundError ("cluster " ++ id ++ " not found")
  end.
Proof.
  intros Hv. unfold findByInstanceID. destruct (api_list (O := HostedCluster) _ _ _) as [[x|[items c]] w'] eqn:Hl;
    pose proof (list_hcs_frame _ _ _ _ _ Hl) as [H1 H2].
  - intros [= <- <-]. split_and!; [done..|]. by split; [|intros [_ ?]].
  - apply by_instance_id_items in Hl as [_ Hi]; [|done].
    destruct items as [|hc items]; intros [= <- <-]; split_and!; try done.
    + apply Permutation_nil_l in Hi. by rewrite Hi.
    + rewrite <-Hi. left.
Qed.

Lemma overrides_keep req hc :
  let hc' := with_pull_secret (PullSecretName cfg) (applyControlPlaneResourceOverrides prefix hc req) in
  hc_Meta hc' = hc_Meta hc ∧ hc_ReleaseImage hc' = hc_ReleaseImage hc ∧ hc_BaseDomain hc' = hc_BaseDomain hc ∧
  hc_PullSecret hc' = PullSecretName cfg.
Proof. unfold applyControlPlaneResourceOverrides. cases; done. Qed.

(** One HostedCluster and one NodePool of the request's name are new, and carry
    the identifier. *)
Record created_cluster (id : string) (req : Cluster (T := Z)) (w w' : W) : Prop := {
  cc_none : of_id id (hcs w ns) = [];
  cc_hc : ∃ hc, hcs w ns !! Name (hc_Meta hc) = None ∧ hcs w' ns = <[Name (hc_Meta hc) := hc]> (hcs w ns) ∧
    Labels (hc_Meta hc) = DCMLabels id ∧ hc_BaseDomain hc = ResolveBaseDomain req (BaseDomain cfg) ∧
    (∃ w1, ResolveReleaseImage range cfg req w = (inr (hc_ReleaseImage hc), w1)) ∧
    Namespace (hc_Meta hc) = ns ∧
    (cm_Name (cs_Metadata (cl_Spec req)) ≠ "" → Name (hc_Meta hc) = cm_Name (cs_Metadata (cl_Spec req))) ∧
    hc_PullSecret hc = PullSecretName cfg;
  cc_np : ∃ np, nps w ns !! Name (np_Meta np) = None ∧ nps w' ns = <[Name (np_Meta np) := np]> (nps w ns) ∧
    Labels (np_Meta np) = DCMLabels id ∧ np_ClusterName np = cm_Name (cs_Metadata (cl_Spec req)) ∧ Namespace (np_Meta np) = ns ∧
    (∃ w1, ResolveReleaseImage range cfg req w = (inr (np_ReleaseImage np), w1)) ∧
    (∀ k, cs_Nodes (cl_Spec req) ≫= cn_Workers = Some k → np_Replicas np = Some (workers_count k))
}.

(** The HostedCluster [k] is new and on its way out, or the call that should
    remove it failed. *)
Definition hc_rolled_back (k : string) (w w' : W) : Prop :=
  hcs w ns !! k = None ∧ (∀ k', k' ≠ k → hcs w' ns !! k' = hcs w ns !! k') ∧
  ((∀ o, hcs w' ns !! k = Some o → is_Some (DeletionTimestamp (hc_Meta o))) ∨
   ∃ w3 x, api_delete (O := HostedCluster) ns k w3 = (Some x, w')).

Lemma rollback_spec k w w4 r w5 :
  hcs w ns !! k = None → (∀ k', k' ≠ k → hcs w4 ns !! k' = hcs w ns !! k') →
  api_delete (O := HostedCluster) ns k w4 = (r, w5) → nps w5 = nps w4 ∧ hc_rolled_back k w w5.
Proof.
  intros Hk Hw Hd. pose proof (frame_delete (O := HostedCluster) (O' := NodePool Q) ns k w4) as Fd. rewrite Hd in Fd.
  split; [done|]. split; [done|]. destruct r as [y|].
  - split; [|right; eauto]. intros k' Hk'. rewrite (delete_err _ _ _ _ _ Hd k' Hk'). by apply Hw.
  - apply delete_ok in Hd as [Ho Hd]. split; [|by left]. intros k' Hk'. rewrite Ho by done. by apply Hw.
Qed.

Lemma create_cluster_atomic pb now id req w r w' :
  BuilderLaws pb → valid_label_value id = true → clean_create_errors →
  CreateCluster range prefix cfg now id req pb w = (r, w') →
  match r with
  | Panicked => False
  | Val (inr c) => cl_Id c = Some id ∧ cl_Spec c = cl_Spec req ∧ cl_Status c = Some PENDING ∧ created_cluster id req w w'
  | Val (inl _) => nps w' = nps w ∧ (hcs w' = hcs w ∨ of_id id (hcs w ns) = [] ∧ ∃ k, hc_rolled_back k w w')
  end.
Proof.
  intros Hpb Hv [Hch Hcn]. unfold CreateCluster. destruct (_ =s? ""); [by intros [= <- <-]; auto|].
  destruct (ResolveReleaseImage range cfg req w) as [rr w1] eqn:Hres. destruct (resolve_frame _ _ _ _ Hres) as [Eh1 En1].
  destruct rr as [err|image]; [by intros [= <- <-]; auto|].
  destruct (findByInstanceID ns id w1) as [fr w2] eqn:Hf. apply find_spec in Hf as (Eh2 & En2 & Hf); [|done].
  rewrite Eh1 in Eh2, Hf. rewrite En1 in En2. destruct fr as [err|hc0]; [|by intros [= <- <-]; auto].
  destruct (de_Type err =s? NOT_FOUND) eqn:Ht; breflect; cbn [negb]; [|by intros [= <- <-]; auto].
  apply Hf in Ht as [Hnone _]. set (hc := with_pull_secret _ _).
  pose proof (build_hc (pb := pb) req (ResolveBaseDomain req (BaseDomain cfg)) image (DCMLabels id)) as (Bn & Bl & Bm).
  pose proof (build_hc_spec (pb := pb) req (ResolveBaseDomain req (BaseDomain cfg)) image (DCMLabels id)) as [Bi Bd].
  destruct (overrides_keep req (BuildHostedCluster pb req (ResolveBaseDomain req (BaseDomain cfg)) image (DCMLabels id))) as (Om & Oi & Od & Op).
  fold hc in Om, Oi, Od, Op. rewrite <-Om in Bn, Bl, Bm. rewrite <-Oi in Bi. rewrite <-Od in Bd. clear Om Oi Od. clearbody hc.
  rewrite Bn. destruct (api_create ns hc w2) as [cr w3] eqn:Hc.
  pose proof (frame_create (O := HostedCluster) (O' := NodePool Q) ns hc w2) as Fn. rewrite Hc in Fn. cbn [snd] in Fn.
  destruct cr as [x|hc'].
  { apply Hch in Hc. destruct (IsAlreadyExists x); intros [= <- <-]; (split; [congruence|left; congruence]). }
  apply create_ok in Hc as (Hfresh & Hins & (An & _ & _ & Ai & Ad & Ap) & Al & Am).
  change (meta hc') with (hc_Meta hc') in *. change (meta hc) with (hc_Meta hc) in *. rewrite Eh2 in Hfresh, Hins.
  destruct (build_np (pb := pb) req image (DCMLabels id)) as (np & -> & Pn & Pl & Pi & Pm & Pc & Pr). rewrite Pn.
  destruct (api_create ns np w3) as [pr w4] eqn:Hp.
  pose proof (frame_create (O := NodePool Q) (O' := HostedCluster) ns np w3) as Fh. rewrite Hp in Fh. cbn [snd] in Fh.
  destruct pr as [x|np'].
  - apply Hcn in Hp. rewrite An, Bn. destruct (api_delete (O := HostedCluster) ns (Name (hc_Meta hc')) w4) as [dr w5] eqn:Hd.
    apply (rollback_spec _ w) in Hd as [H1 H2]; [|done|intros k' Hk; by rewrite Fh, Hins, lookup_insert_ne].
    rewrite Hp, Fn, En2 in H1.
    destruct dr; intros [= <- <-]; eauto.
  - intros [= <- <-]. split_and!; [done..|]. apply create_ok in Hp as (Hfr & Hi & (Ans & Ac & Aim & Arp & _) & All & _).
    change (meta np') with (np_Meta np') in *. change (meta np) with (np_Meta np) in *.
    rewrite Fn, En2 in Hfr, Hi. split; [done| |].
    + exists hc'. rewrite Fh. split_and!; try congruence; [rewrite Ai, Bi; eauto|]. intros H. rewrite Am; congruence.
    + exists np'. split_and!; try congruence; [rewrite Aim, Pi; eauto|]. intros k Hk. rewrite Arp. by apply Pr.
Qed.

(** The effect of the dispatcher's [Create], on every branch. *)
Lemma dispatch_create_effect platforms now id req q w r w' :
  valid_label_value id = true → clean_create_errors → ParseQuantity "32Gi" = inr q →
  dispatchCreate range prefix zq cfg platforms now id req w = (r, w') →
  match r with
  | Panicked => False
  | Val (inr c) => cl_Id c = Some id ∧ cl_Spec c = cl_Spec req ∧ cl_Status c = Some PENDING ∧ created_cluster id req w w'
  | Val (inl _) => nps w' = nps w ∧ (hcs w' = hcs w ∨ of_id id (hcs w ns) = [] ∧ ∃ k, hc_rolled_back k w w')
  end.
Proof.
  intros Hv Hc Hq. unfold dispatchCreate, serviceForPlatform.
  case_bool_decide; [|case_bool_decide; [|by intros [= <- <-]; auto]].
  - intros H1. eapply create_cluster_atomic; [by apply (kubevirt_laws q)|done|done|exact H1].
  - unfold baremetalCreate. destruct (resolveInfraEnv cfg req) as [err|env]; [by intros [= <- <-]; auto|].
    intros H1. eapply create_cluster_atomic; [apply baremetal_laws|done|done|exact H1].
Qed.

(** C27: Creating a cluster is all or nothing, whichever platform serves it.  With
    an API server whose failed create calls create nothing, a successful [Create]
    of an identifier no HostedCluster carried adds exactly one HostedCluster and
    one NodePool, both with the instance's labels and the release image resolved
    for the request, the HostedCluster with the base domain and the configured
    pull secret, the NodePool with the number of workers asked for (1 if a worker
    specification names none), and reports the cluster as PENDING.
    A [Create] that fails leaves the node pools as they were and every
    HostedCluster that existed; a HostedCluster it had made, for an identifier
    none carried, is removed again (or terminating), unless the API refused the
    roll-back.  It never panics. *)
Theorem cluster_create_atomic platforms now id req q w r w' :
  valid_label_value id = true → clean_create_errors → ParseQuantity "32Gi" = inr q →
  dispatchCreate range prefix zq cfg platforms now id req w = (r, w') →
  match r with
  | Panicked => False
  | Val (inr c) => cl_Id c = Some id ∧ cl_Spec c = cl_Spec req ∧ cl_Status c = Some PENDING ∧ created_cluster id req w w'
  | Val (inl _) => nps w' = nps w ∧ (hcs w' = hcs w ∨ of_id id (hcs w ns) = [] ∧ ∃ k, hc_rolled_back k w w')
  end.
Proof. apply dispatch_create_effect. Qed.

(** *** Reading *)

Lemma find_Some_prop {A} (f : A → bool) l x : List.find f l = Some x → x ∈ l ∧ f x = true.
Proof. intros H. apply List.find_some in H as [Hin Hf]. split; [by apply list_elem_of_In|done]. Qed.

(** The version of the image found for a version is that version. *)
Lemma resolve_version matrix v w image w1 :
  map_range_ok range → matrix !! "" = None → Resolve range matrix v w = (inr image, w1) →
  ReleaseImageToK8sVersion image matrix = v.
Proof.
  intros Hr Hm. unfold Resolve, k8sToOCP. destruct (List.find _ (range _ _)) as [[ocp k]|] eqn:Hf; [|done].
  apply find_Some_prop in Hf as [Hin Hk]. apply map_range_elem in Hin; [|done]. simpl in Hk. breflect.
  destruct (api_list (O := ClusterImageSet) _ _ _) as [[x|[items c]] w']; [done|].
  destruct (List.find _ (cis_ReleaseImage <$> items)) as [i|] eqn:Hf; [|done]. intros [= <- <-].
  apply find_Some_prop in Hf as [_ Hi]. apply andb_true_iff in Hi as [_ Hi]. breflect.
  unfold ReleaseImageToK8sVersion. rewrite Hi. rewrite bool_decide_false by (intros ->; congruence). by rewrite Hin.
Qed.

Lemma kubeconfig_frame hc w r w1 :
  ExtractKubeconfig hc w = (r, w1) → hcs w1 = hcs w ∧ nps w1 = nps w.
Proof.
  unfold ExtractKubeconfig. destruct (hc_KubeConfig hc) as [n|]; [|by intros [= _ <-]].
  destruct (n =s? ""); [by intros [= _ <-]|].
  pose proof (frame_get (O := Secret) (O' := HostedCluster) (Namespace (hc_Meta hc)) n w) as H1.
  pose proof (frame_get (O := Secret) (O' := NodePool Q) (Namespace (hc_Meta hc)) n w) as H2.
  destruct (api_get (O := Secret) _ _ _) as [[x|s] w']; cbn [snd] in *; [by intros [= _ <-]|].
  repeat case_match; by intros [= _ <-].
Qed.

Lemma convert_fields hc w c w1 :
  HostedClusterToCluster cfg hc w = (c, w1) →
  hcs w1 = hcs w ∧ nps w1 = nps w ∧
  cl_Id c = Some (label (Labels (hc_Meta hc)) LabelInstanceID) ∧ cm_Name (cs_Metadata (cl_Spec c)) = Name (hc_Meta hc) ∧
  cs_Version (cl_Spec c) = ReleaseImageToK8sVersion (hc_ReleaseImage hc) (VersionMatrix cfg) ∧
  cl_Status c = Some (MapConditionsToStatus (hc_Conditions hc) (DeletionTimestamp (hc_Meta hc))).
Proof.
  unfold HostedClusterToCluster. destruct (_ || _); [|by intros [= <- <-]].
  destruct (ExtractKubeconfig hc w) as [k w'] eqn:Hk. intros [= <- <-]. apply kubeconfig_frame in Hk as [??]. done.
Qed.

Lemma unique_id id k (hc : HostedCluster) m items :
  m !! k = None → of_id id m = [] → Labels (hc_Meta hc) !! LabelInstanceID = Some id →
  items ≡ₚ of_id id (<[k := hc]> m) → items = [hc].
Proof.
  intros Hk Hm Hl Hi. apply (selected_unique (named_instance id) m k); [done| | |done].
  - by apply bool_decide_eq_true.
  - intros k' o' Hk'. apply not_true_is_false. intros Hs.
    assert (o' ∈ of_id id m) as Hin by (apply elem_of_selected; eauto). rewrite Hm in Hin. by apply elem_of_nil in Hin.
Qed.

(** What was created can be read back.  After a successful [Create] of a
    cluster that asks for a version of the configured matrix (and not for an
    image of its own), a [Get] that reaches the API returns it under its
    identifier, its name and the version asked for. *)
Theorem cluster_create_get id req w w' r w2 :
  valid_label_value id = true → map_range_ok range → VersionMatrix cfg ≠ ∅ → VersionMatrix cfg !! "" = None →
  acm_hints req ≫= acmph_ReleaseImage = None → cm_Name (cs_Metadata (cl_Spec req)) ≠ "" →
  created_cluster id req w w' → GetCluster cfg id w' = (r, w2) →
  match r with
  | inr c => cl_Id c = Some id ∧ cm_Name (cs_Metadata (cl_Spec c)) = cm_Name (cs_Metadata (cl_Spec req)) ∧
      cs_Version (cl_Spec c) = cs_Version (cl_Spec req)
  | inl err => ∃ x, err = NewInternalError "failed to list clusters" (APICause x)
  end ∧ hcs w2 = hcs w' ∧ nps w2 = nps w'.
Proof.
  intros Hv Hr Hne Hempty Hhint Hname [Hnone (hc & Hfresh & Hins & Hl & _ & [w1 Hres] & _ & Hn & _) _]. unfold GetCluster, findByInstanceID.
  destruct (api_list (O := HostedCluster) ns (by_instance_id id) w') as [lr w3] eqn:Hlist.
  pose proof (list_hcs_frame _ _ _ _ _ Hlist) as [E1 E2].
  destruct lr as [x|[items c]]; [by intros [= <- <-]; eauto|].
  apply by_instance_id_items in Hlist as [_ Hi]; [|done]. rewrite Hins in Hi.
  apply unique_id in Hi as ->; [|done|done|by rewrite Hl; apply DCMLabels_id].
  destruct (HostedClusterToCluster cfg hc w3) as [cl w4] eqn:Hc. intros [= <- <-].
  apply convert_fields in Hc as (F1 & F2 & Hid & Hnm & Hver & _). rewrite Hid, Hnm, Hver, Hl. unfold label.
  rewrite DCMLabels_id. split; [|split; congruence]. split_and!; [done|by apply Hn|].
  unfold ResolveReleaseImage in Hres. rewrite Hhint, bool_decide_false in Hres by done. by eapply resolve_version.
Qed.

(** *** Deletion *)

Definition going {O} `{!HasMeta O} (m : gmap string O) (k : string) : Prop :=
  ∀ o, m !! k = Some o → is_Some (DeletionTimestamp (meta o)).

Lemma delete_each_spec (items : list (NodePool Q)) w w' :
  Forall (λ np, Namespace (np_Meta np) = ns) items → delete_each items w = (None, w') →
  hcs w' = hcs w ∧
  ∀ k, (k ∈ Name ∘ np_Meta <$> items → going (nps w' ns) k) ∧
       (k ∉ Name ∘ np_Meta <$> items → nps w' ns !! k = nps w ns !! k).
Proof.
  intros Hns. revert w. induction Hns as [|np items Hn _ IH]; intros w; simpl.
  { intros [= <-]. split; [done|]. intros k. split; [by intros ?%elem_of_nil|done]. }
  rewrite Hn. pose proof (frame_delete (O := NodePool Q) (O' := HostedCluster) ns (Name (np_Meta np)) w) as Fh.
  destruct (api_delete (O := NodePool Q) _ _ _) as [r w1] eqn:Hd. cbn [snd] in Fh. intros H.
  assert (delete_each items w1 = (None, w') ∧ going (nps w1 ns) (Name (np_Meta np)) ∧
    ∀ k, k ≠ Name (np_Meta np) → nps w1 ns !! k = nps w ns !! k) as (H' & Hg & Ho).
  { destruct r as [x|]; [|by apply delete_ok in Hd as [? ?]]. destruct (IsNotFound x) eqn:Hx; [|done].
    apply delete_missing in Hd as [E Hk]; [|done]. rewrite E. split_and!; [done| |done]. intros o. by rewrite Hk. }
  destruct (IH _ H') as [Eh Hk]. split; [congruence|]. intros k. destruct (Hk k) as [Hin Hout]. split.
  - intros Hin'. destruct (decide (k ∈ Name ∘ np_Meta <$> items)) as [Hi|Hi]; [by apply Hin|].
    apply elem_of_cons in Hin' as [->|?]; [|done]. intros o. rewrite (Hout Hi). apply Hg.
  - intros [Hne Hi]%not_elem_of_cons. rewrite Hout by done. by apply Ho.
Qed.

Lemma delete_each_internal (items : list (NodePool Q)) w err w' :
  delete_each items w = (Some err, w') → de_Type err = INTERNAL.
Proof.
  revert w. induction items as [|np l IH]; intros w; simpl; [done|].
  destruct (api_delete (O := NodePool Q) _ _ _) as [[x|] w1]; [|by apply IH]. destruct (IsNotFound x); [by apply IH|].
  by intros [= <- <-].
Qed.

(** Objects are stored in their own namespace. *)
Definition located (w : W) : Prop :=
  (∀ k hc, hcs w ns !! k = Some hc → Namespace (hc_Meta hc) = ns) ∧
  (∀ k np, nps w ns !! k = Some np → Namespace (np_Meta np) = ns).

(** Deleting a cluster deletes its parts and nothing else.  When [Delete]
    succeeds, a HostedCluster that carries the identifier and every NodePool that
    carries it are gone or terminating, and every other HostedCluster and NodePool
    of the namespace is as it was.  It reports that there is no such cluster only
    if no HostedCluster carries the identifier, and then changes nothing. *)
Theorem cluster_delete_exact id w r w' :
  valid_label_value id = true → located w → DeleteCluster cfg id w = (r, w') →
  match r with
  | None => ∃ hc, hc ∈ of_id id (hcs w ns) ∧ going (hcs w' ns) (Name (hc_Meta hc)) ∧
      (∀ k, k ≠ Name (hc_Meta hc) → hcs w' ns !! k = hcs w ns !! k) ∧
      ∀ k np, nps w ns !! k = Some np →
        if named_instance id (Labels (np_Meta np)) then going (nps w' ns) k else nps w' ns !! k = nps w ns !! k
  | Some err => de_Type err = NOT_FOUND → of_id id (hcs w ns) = [] ∧ hcs w' = hcs w ∧ nps w' = nps w
  end.
Proof.
  intros Hv [Lh Ln]. unfold DeleteCluster. destruct (findByInstanceID ns id w) as [fr w1] eqn:Hf.
  apply find_spec in Hf as (Eh & En & Hf); [|done].
  destruct fr as [err|hc]; [intros [= <- <-] Ht; by apply Hf in Ht as [? _]|].
  assert (Namespace (hc_Meta hc) = ns) as -> by (apply elem_of_of_id in Hf as [[k Hk] _]; eauto).
  unfold deleteNodePools. destruct (api_list (O := NodePool Q) ns (by_instance_id id) w1) as [[x|[items c]] w2] eqn:Hl;
    [by intros [= <- <-]|].
  pose proof (frame_list (O := NodePool Q) (O' := HostedCluster) ns (by_instance_id id) w1) as Fh. rewrite Hl in Fh. cbn [snd] in Fh.
  apply by_instance_id_items in Hl as [E2 Hi]; [|done]. rewrite En in E2, Hi.
  destruct (delete_each items w2) as [[err|] w3] eqn:Hd.
  { intros [= <- <-]. by rewrite (delete_each_internal _ _ _ _ Hd). }
  apply delete_each_spec in Hd as [Eh3 Hk].
  2:{ apply Forall_forall. intros np Hin. rewrite Hi, elem_of_of_id in Hin. destruct Hin as [[k Hkk] _]. eauto. }
  pose proof (frame_delete (O := HostedCluster) (O' := NodePool Q) ns (Name (hc_Meta hc)) w3) as Fn.
  destruct (api_delete (O := HostedCluster) ns (Name (hc_Meta hc)) w3) as [[x|] w4] eqn:Hdel; [by intros [= <- <-]|].
  intros [= <- <-]. cbn [snd] in Fn. apply delete_ok in Hdel as [Ho Hg]. exists hc. split_and!; [done|exact Hg| |].
  - intros k Hne. rewrite Ho by done. by rewrite Eh3, Fh, Eh.
  - intros k np Hnp. rewrite Fn. assert (Name (np_Meta np) = k) as Hname by (change (np_Meta np) with (meta np); by eapply objs_name).
    destruct (named_instance id (Labels (np_Meta np))) eqn:Hid.
    + apply Hk. apply list_elem_of_fmap. exists np. split; [done|]. rewrite Hi. apply elem_of_selected. eauto.
    + rewrite (proj2 (Hk k)), E2; [done|]. intros (np' & -> & Hin)%list_elem_of_fmap.
      rewrite Hi in Hin. apply elem_of_selected in Hin as [[k' Hk'] Hid'].
      assert (Name (np_Meta np') = k') as <- by (change (np_Meta np') with (meta np'); by eapply objs_name). simpl in Hnp.
      change (meta np') with (np_Meta np') in Hid'. congruence.
Qed.

(** *** Pages *)

Lemma slice_total {A} (l : list A) lo hi :
  0 ≤ lo → lo ≤ hi → hi ≤ Z.of_nat (length l) →
  slice lo hi l = Val (take (Z.to_nat (hi - lo)) (drop (Z.to_nat lo) l)).
Proof.
  intros H1 H2 H3. unfold slice. apply Z.leb_le in H1, H2, H3. by rewrite H1, H2, H3.
Qed.

Lemma convert_page_names page w cs w' :
  convert_page cfg page w = (cs, w') →
  (λ c, cm_Name (cs_Metadata (cl_Spec c))) <$> cs = (λ hc, Name (hc_Meta hc)) <$> page.
Proof.
  revert w cs. induction page as [|hc page IH]; intros w cs; simpl; [by intros [= <- _]|].
  destruct (HostedClusterToCluster cfg hc w) as [c w1] eqn:Hc. destruct (convert_page cfg page w1) as [cs' w2] eqn:Hp.
  intros [= <- <-]. apply convert_fields in Hc as (_ & _ & _ & Hn & _). simpl. rewrite Hn. f_equal. by eapply IH.
Qed.

Lemma page_offset_nonneg token off : page_offset token = Some off → 0 ≤ off.
Proof.
  unfold page_offset. destruct (token =s? ""); [intros [= <-]; lia|]. destruct (_ ≫= Atoi) as [v|]; [|done].
  destruct (Z.ltb_spec v 0); [done|]. by intros [= <-].
Qed.

Lemma page_offset_token n : 0 ≤ n ≤ int64_max → page_offset (EncodeToString (pretty n)) = Some n.
Proof.
  intros Hn. unfold page_offset. destruct (_ =s? "") eqn:He; breflect.
  - exfalso. pose proof (DecodeString_EncodeToString (pretty n)) as Hd. rewrite He in Hd. injection Hd as Hd.
    pose proof (Atoi_Itoa n Hn) as Ha. unfold Itoa in Ha. rewrite <-Hd in Ha. done.
  - rewrite DecodeString_EncodeToString. simpl. change (pretty n) with (Itoa n). rewrite Atoi_Itoa by done.
    by destruct (Z.ltb_spec n 0); [lia|].
Qed.

Lemma wrap64_over z : int64_max < z ≤ 2 * int64_max → wrap64 z = z - 2 ^ 64.
Proof.
  unfold wrap64, int64_max. intros H. replace (z + 2 ^ 63) with ((z - 2 ^ 63) + 1 * 2 ^ 64) by lia.
  rewrite Z.mod_add by lia. rewrite Z.mod_small by lia. lia.
Qed.

(** The page as a part of the whole list, whichever bounds were cut. *)
Lemma page_take_drop {A} (l : list A) o off e size total :
  total = Z.of_nat (length l) → 0 ≤ o ≤ total → 0 ≤ off → 0 ≤ size →
  o = off ∨ o = total ∧ total < off → o ≤ e ≤ total → e = o + size ∨ e = total ∧ total < o + size →
  take (Z.to_nat (e - o)) (drop (Z.to_nat o) l) = take (Z.to_nat size) (drop (Z.to_nat off) l).
Proof.
  intros -> Ho Hoff Hs Hoo He Hee. destruct Hoo as [<-|[-> Hlt]].
  - destruct Hee as [->|[-> Hlt]]; [by replace (o + size - o) with size by lia|].
    rewrite !take_ge; [done|rewrite length_drop; lia..].
  - rewrite !drop_ge by lia. by rewrite !take_nil.
Qed.

(** C39: Pages of clusters stay within their bounds.  For a list the API returns,
    every page token yields an error (if it is not an encoded offset) or the
    clusters from that offset on in the order of their names, at most as many as
    the page size, and the token of the next page, which stands for the offset
    after them, exactly if there are more; except that the call panics exactly
    when the page size is negative or the sum of offset (cut to the number of
    clusters) and page size overflows an int. *)
Theorem cluster_list_bounds size token w items c w1 :
  api_list (O := HostedCluster) ns
    (mkListOptions (labels_String {[ LabelManagedBy := ValueManagedByDCM; LabelServiceType := ClusterServiceType ]}) 0 "") w
    = (inr (items, c), w1) →
  in_int64 size → Z.of_nat (length items) ≤ int64_max →
  let all := Name ∘ hc_Meta <$> sort_by_name (λ hc, Name (hc_Meta hc)) items in
  let total := Z.of_nat (length items) in
  match page_offset token with
  | None => (ListClusters cfg size token w).1 = Val (inl (NewInvalidArgumentError "invalid page_token"))
  | Some off =>
      if (size <? 0) || (int64_max <? Z.min off total + size) then (ListClusters cfg size token w).1 = Panicked
      else
        ∃ cs next, (ListClusters cfg size token w).1 = Val (inr (cs, next)) ∧
          (λ c, cm_Name (cs_Metadata (cl_Spec c))) <$> cs = take (Z.to_nat size) (drop (Z.to_nat off) all) ∧
          Z.of_nat (length cs) ≤ size ∧
          next ≫= page_offset = if off + size <? total then Some (off + size) else None
  end.
Proof.
  intros Hl Hs Hov. cbv zeta. unfold ListClusters. rewrite Hl.
  pose proof (sort_by_name_Permutation (λ hc, Name (hc_Meta hc)) items) as Hp.
  set (sorted := sort_by_name _ items) in *. apply Permutation_length in Hp. rewrite <-Hp in Hov |- *. clearbody sorted.
  destruct (page_offset token) as [off|] eqn:Hoff; [|done]. apply page_offset_nonneg in Hoff.
  set (total := Z.of_nat (length sorted)) in *. set (o := if total <? off then total else off).
  assert (0 ≤ o ≤ total ∧ (o = off ∨ o = total ∧ total < off)) as [Ho Hoo] by (unfold o; destruct (Z.ltb_spec total off); lia).
  assert (o = Z.min off total) as Em by lia. rewrite <-Em. clear Em.
  clearbody o. destruct ((size <? 0) || (int64_max <? o + size)) eqn:Hbad.
  { assert (wrap64 (o + size) < o) as Hlt.
    { apply orb_true_iff in Hbad as [Hb|Hb]; breflect; [rewrite wrap64_id by (unfold in_int64, int64_min in *; lia); lia|].
      rewrite wrap64_over by (unfold in_int64 in *; lia). unfold in_int64, int64_max in *. lia. }
    destruct (Z.ltb_spec total (wrap64 (o + size))); [lia|]. unfold slice.
    by replace (o <=? wrap64 (o + size)) with false by (symmetry; apply Z.leb_gt; lia); rewrite andb_false_r. }
  apply orb_false_iff in Hbad as [Hpos Hmax]. breflect. rewrite wrap64_id by (unfold in_int64, int64_min in *; lia).
  set (e := if total <? o + size then total else o + size).
  assert (o ≤ e ≤ total ∧ e - o ≤ size ∧ (e = o + size ∨ e = total ∧ total < o + size)) as (He & Hlen & Hee)
    by (unfold e; destruct (Z.ltb_spec total (o + size)); lia).
  clearbody e. rewrite slice_total by (try done; lia). destruct (convert_page cfg _ w1) as [cs w2] eqn:Hc.
  apply convert_page_names in Hc. exists cs. eexists. split; [done|]. rewrite Hc. split_and!.
  - rewrite fmap_take, fmap_drop. apply (page_take_drop _ o off e size total); try done. by rewrite length_fmap.
  - rewrite <-(length_fmap (λ c, cm_Name (cs_Metadata (cl_Spec c)))), Hc, length_fmap, length_take. lia.
  - destruct (Z.ltb_spec e total), (Z.ltb_spec (off + size) total); try lia; simpl; [|done].
    rewrite page_offset_token by (unfold int64_max in *; lia). f_equal. lia.
Qed.
End Correct.

(** ** A cluster's life on the small API server *)

Module AcmClusterRun.
Import FakeKube.

(** An API server with the kinds of this provider. *)
Record cworld := mkCWorld {
  f_sets : gmap string (gmap string ClusterImageSet);
  f_hcs : gmap string (gmap string HostedCluster);
  f_nps : gmap string (gmap string (NodePool Z));
  f_secrets : gmap string (gmap string Secret)
}.

Definition rename_set (n : string) (o : ClusterImageSet) : ClusterImageSet := mkImageSet (rename_meta n (cis_Meta o)) (cis_ReleaseImage o).
Definition rename_hc (n : string) (o : HostedCluster) : HostedCluster :=
  mkHC (rename_meta n (hc_Meta o)) (hc_Annotations o) (hc_Platform o) (hc_AgentNamespace o) (hc_ReleaseImage o) (hc_BaseDomain o)
    (hc_Services o) (hc_PullSecret o) (hc_Conditions o) (hc_KubeConfig o) (hc_Endpoint o).
Definition rename_np (n : string) (o : NodePool Z) : NodePool Z :=
  mkNP (rename_meta n (np_Meta o)) (np_ClusterName o) (np_ReleaseImage o) (np_Replicas o) (np_Platform o) (np_Kubevirt o) (np_AgentLabels o).
Definition rename_secret (n : string) (o : Secret) : Secret := mkSecret (rename_meta n (sec_Meta o)) (sec_Data o) (sec_Type o).

#[export] Instance set_api : KubeAPI cworld Status ClusterImageSet :=
  fake_api f_sets (λ m w, mkCWorld m (f_hcs w) (f_nps w) (f_secrets w)) rename_set.
#[export] Instance hc_api : KubeAPI cworld Status HostedCluster :=
  fake_api f_hcs (λ m w, mkCWorld (f_sets w) m (f_nps w) (f_secrets w)) rename_hc.
#[export] Instance np_api : KubeAPI cworld Status (NodePool Z) :=
  fake_api f_nps (λ m w, mkCWorld (f_sets w) (f_hcs w) m (f_secrets w)) rename_np.
#[export] Instance secret_api : KubeAPI cworld Status Secret :=
  fake_api f_secrets (λ m w, mkCWorld (f_sets w) (f_hcs w) (f_nps w) m) rename_secret.

#[export] Instance hc_laws : KubeLaws cworld Status Z HostedCluster hc_admitted.
Proof. by refine (fake_laws _ _ _ _ _ _ _ _). Defined.
#[export] Instance np_laws : KubeLaws cworld Status Z (NodePool Z) np_admitted.
Proof. by refine (fake_laws _ _ _ _ _ _ _ _). Defined.

Ltac cluster_frame := split; intros; simpl; repeat case_match; done.
#[export] Instance hc_np_frame : KubeFrame cworld Status Z HostedCluster (NodePool Z).
Proof. cluster_frame. Qed.
#[export] Instance np_hc_frame : KubeFrame cworld Status Z (NodePool Z) HostedCluster.
Proof. cluster_frame. Qed.
#[export] Instance set_hc_frame : KubeFrame cworld Status Z ClusterImageSet HostedCluster.
Proof. cluster_frame. Qed.
#[export] Instance set_np_frame : KubeFrame cworld Status Z ClusterImageSet (NodePool Z).
Proof. cluster_frame. Qed.
#[export] Instance secret_hc_frame : KubeFrame cworld Status Z Secret HostedCluster.
Proof. cluster_frame. Qed.
#[export] Instance secret_np_frame : KubeFrame cworld Status Z Secret (NodePool Z).
Proof. cluster_frame. Qed.

Definition cfg : ClusterConfig :=
  mkClusterConfig "clusters" "example.com" "" "acm-pull-secret" "https://console.apps.{name}.{base_domain}" "" "" "agents"
    "infraenvs.agent-install.openshift.io" DefaultCompatibilityMatrix.

Definition image : string := "quay.io/openshift-release-dev/ocp-release:4.17.3-multi".
Definition start : cworld :=
  mkCWorld {[ "" := {[ "img4.17.3" := mkImageSet (mkMeta "img4.17.3" "" "" ∅ 0 None) image ]} ]} ∅ ∅ ∅.

Definition request (name : string) (hints : option ProviderHints) : Cluster (T := Z) :=
  mkCluster None None None None None None
    (mkClusterSpec (mkClusterMetadata None name)
      (Some (mkClusterNodes (Some (mkControlPlaneSpec None (Some 4) (Some "16GB") None))
                            (Some (mkWorkerSpec (Some 2) (Some 8) None None)))) hints "cluster" "1.30") None None None.

Definition create (id name : string) (w : cworld) := dispatchCreate sorted_range "override" 0 cfg ["kubevirt"] 7 id (request name None) w.
Definition created : cworld := (create "c1" "shop" start).2.

Lemma fake_clean_create : clean_create_errors (W := cworld) (X := Status) (Q := Z).
Proof. split; intros n o w x w' Hc; simpl in Hc; by case_match; simplify_eq. Qed.

Lemma valid_c1 : valid_label_value "c1" = true.
Proof. by vm_compute. Qed.

Lemma quantity_32Gi : ParseQuantity (X := Status) (Q := Z) "32Gi" = inr (32 * 1024 ^ 3).
Proof. vm_compute. reflexivity. Qed.

Lemma cluster_create_atomic_witness :
  (∃ c, (create "c1" "shop" start).1 = Val (inr c) ∧ cl_Id c = Some "c1") ∧
  created_cluster sorted_range cfg "c1" (request "shop" None) start created.
Proof.
  pose proof (cluster_create_atomic sorted_range "override" 0 cfg ["kubevirt"] 7 "c1" (request "shop" None) (32 * 1024 ^ 3) start _ _
    valid_c1 fake_clean_create quantity_32Gi (surjective_pairing _)) as H.
  fold (create "c1" "shop" start) in H.
  destruct (create "c1" "shop" start).1 as [[e|c]|] eqn:Hr; [by vm_compute in Hr| |destruct H].
  destruct H as (Hid & _ & _ & Hone). split; [exists c; exact (conj eq_refl Hid)|exact Hone].
Defined.

(** The same run, for the witnesses below. *)
Lemma created_shop_cluster : created_cluster sorted_range cfg "c1" (request "shop" None) start created.
Proof.
  pose proof (create_cluster_atomic sorted_range "override" cfg (kubevirtBuilder 0 cfg) 7 "c1" (request "shop" None) start _ _
    (kubevirt_laws 0 cfg (32 * 1024 ^ 3) quantity_32Gi) valid_c1 fake_clean_create (surjective_pairing _)) as H.
  destruct (CreateCluster _ _ _ _ _ _ _ start).1 as [[e|c]|] eqn:Hr; [by vm_compute in Hr| |destruct H].
  exact (proj2 (proj2 (proj2 H))).
Qed.

Lemma cluster_create_get_witness :
  ∃ c, (GetCluster cfg "c1" created).1 = inr c ∧ cl_Id c = Some "c1" ∧ cs_Version (cl_Spec c) = "1.30".
Proof.
  pose proof (cluster_create_get sorted_range cfg "c1" (request "shop" None) start created _ _ valid_c1
    ltac:(intros A m; reflexivity) ltac:(discriminate) ltac:(vm_compute; reflexivity) eq_refl ltac:(discriminate) created_shop_cluster
    (surjective_pairing _)) as [H _].
  destruct (GetCluster cfg "c1" created).1 as [e|c] eqn:Hr; [by vm_compute in Hr|].
  exists c. exact (conj eq_refl (conj (proj1 H) (proj2 (proj2 H)))).
Defined.

Lemma located_created : located cfg created.
Proof.
  split.
  - apply (bool_decide_unpack (map_Forall (λ _ hc, Namespace (hc_Meta hc) = "clusters") (objs (O := HostedCluster) created "clusters"))).
    vm_compute. reflexivity.
  - apply (bool_decide_unpack (map_Forall (λ _ np, Namespace (np_Meta np) = "clusters") (objs (O := NodePool Z) created "clusters"))).
    vm_compute. reflexivity.
Qed.

Lemma cluster_delete_exact_witness :
  (DeleteCluster cfg "c1" created).1 = None ∧
  ∃ hc, hc ∈ of_id "c1" (objs (O := HostedCluster) created "clusters") ∧
    going (objs (O := HostedCluster) (DeleteCluster cfg "c1" created).2 "clusters") (Name (hc_Meta hc)).
Proof.
  assert ((DeleteCluster cfg "c1" created).1 = None) as Hd by (vm_compute; reflexivity). split; [exact Hd|].
  pose proof (cluster_delete_exact cfg "c1" created _ _ valid_c1 located_created (surjective_pairing _)) as H.
  rewrite Hd in H. destruct H as (hc & Hin & Hg & _). exists hc. exact (conj Hin Hg).
Defined.

Definition two : cworld := (create "c2" "cart" created).2.

(** What the API lists in [two]. *)
Lemma listed_two :
  ∃ items c, api_list (O := HostedCluster) "clusters"
      (mkListOptions (labels_String {[ LabelManagedBy := ValueManagedByDCM; LabelServiceType := ClusterServiceType ]}) 0 "") two
      = (inr (items, c), two) ∧
    length items = 2%nat ∧ Name ∘ hc_Meta <$> sort_by_name (λ hc, Name (hc_Meta hc)) items = ["cart"; "shop"].
Proof.
  exists (filter (λ o, fake_selects (labels_String {[ LabelManagedBy := ValueManagedByDCM; LabelServiceType := ClusterServiceType ]})
      (Labels (hc_Meta o)) = true) (map_to_list (objs (O := HostedCluster) two "clusters")).*2), "".
  split; [reflexivity|]. split; vm_compute; reflexivity.
Qed.

Lemma cluster_list_bounds_witness :
  ∃ cs next, (ListClusters cfg 1 "" two).1 = Val (inr (cs, next)) ∧
    (λ c, cm_Name (cs_Metadata (cl_Spec c))) <$> cs = ["cart"] ∧ next ≫= page_offset = Some 1.
Proof.
  destruct listed_two as (items & c & Hl & Hlen & Hs).
  pose proof (cluster_list_bounds cfg 1 "" two items c two Hl ltac:(unfold in_int64, int64_min, int64_max; lia)
    ltac:(rewrite Hlen; unfold int64_max; lia)) as H.
  cbv zeta in H. rewrite Hlen, Hs in H. destruct H as (cs & next & Hr & Hn & _ & Hnext).
  exists cs, next. exact (conj Hr (conj Hn Hnext)).
Defined.

(** A worker memory without a unit the provider knows is not refused: the node
    pool asks for no memory at all. *)
Lemma unknown_memory_unit_is_zero :
  kubevirt_platform (X := Status) (Q := Z) 0 (mkWorkerSpec None None (Some "16Gi") None) = Val (Some (mkKubevirtNP (Some 0) None (32 * 1024 ^ 3))).
Proof. vm_compute. reflexivity. Qed.
End AcmClusterRun.
