(* ===== verification/Embedded.v ===== *)
(** * Embedded providers in the agent

    Models internal/embedded: the handlers through which the router calls the
    cluster, container, network, storage and VM providers in process
    (the files handler.go, util/parser.go), their health checkers, the set-up and
    shut-down of the enabled providers (embedded.go, the files setup.go) and the life of
    a provider's background worker (internal/openshift/worker).  The stores and
    services behind the handlers are those of [NetworkStore], [StorageStore],
    [ContainerStore], [Kubevirt] and [AcmCluster]; requests are JSON values
    decoded with the codecs of [ApiTypes]. *)

From S2P Require Import Prelude GoStrings Provider Health Json Effects Routing K8s Encoding Codec ApiTypes.
From S2P Require Import NetworkStore StorageStore ContainerStore Kubevirt AcmCluster.
#[local] Open Scope string_scope.
#[local] Open Scope Z_scope.

(** The agent's errors; the stores have their own. *)
Abbreviation agent_error := Prelude.error.

(** ** util/parser.go *)

Section Parse.
(** [json_error]: the text of the decoding error of [encoding/json] for a
    value. *)
Context {T : Type} `{!TimeText T} (number : string → option string) (json_error : json → string).

(** The member [spec] of an envelope, as it is, or the whole value.  [None]: no
    bytes. *)
Definition SpecJSON (raw : option json) : string + json :=
  match raw with
  | None => inl "spec is required"
  | Some (JObject ms) =>
      inr (fold_left (λ acc '(k, v), if key_matches "spec" k then v else acc) ms (JObject ms))
  | Some JNull => inr JNull
  | Some j => inl ("invalid spec: " ++ json_error j)
  end.

(** ** Requests as the stores read them *)

Definition container_port (p : ContainerApi.ContainerPort) : ContainerPort :=
  mkConPort (ContainerApi.cp_ContainerPort p) (ContainerApi.cp_Visibility p).

Definition container_spec (s : ContainerApi.ContainerSpec) : ContainerSpec :=
  let m := ContainerApi.cs_Metadata s in
  let r := ContainerApi.cs_Resources s in
  mkConSpec (ContainerApi.ci_Reference (ContainerApi.cs_Image s))
    (mkConMeta (default ∅ <$> ContainerApi.cmx_Labels m) (ContainerApi.cmx_Name m) (ContainerApi.cmx_Namespace m))
    ((λ n, mkConNetwork (ContainerApi.cn_Ip n) ((λ o, container_port <$> default [] o) <$> ContainerApi.cn_Ports n)) <$> ContainerApi.cs_Network s)
    ((λ p, mkProcess (default [] <$> ContainerApi.cpx_Args p) (default [] <$> ContainerApi.cpx_Command p)
             ((λ o, (λ e, (ContainerApi.cev_Name e, ContainerApi.cev_Value e)) <$> default [] o) <$> ContainerApi.cpx_Env p))
       <$> ContainerApi.cs_Process s)
    (mkResources (mkCpu (ContainerApi.cc_Max (ContainerApi.cr_Cpu r)) (ContainerApi.cc_Min (ContainerApi.cr_Cpu r)))
                 (ContainerStore.mkMemory (ContainerApi.cm_Max (ContainerApi.cr_Memory r)) (ContainerApi.cm_Min (ContainerApi.cr_Memory r))))
    (ContainerApi.cs_ServiceType s).

Definition network_spec (s : NetworkApi.NetworkSpec) : NetworkSpec :=
  let m := NetworkApi.ns_Metadata s in
  mkNetSpec (mkNetMeta (default ∅ <$> NetworkApi.nm_Labels m) (NetworkApi.nm_Name m) (NetworkApi.nm_Namespace m))
    ((λ p, mkPort (NetworkApi.ps_Name p) (NetworkApi.ps_NodePort p) (NetworkApi.ps_Port p) (NetworkApi.ps_Protocol p)
             (NetworkApi.ps_TargetPort p)) <$> default [] (NetworkApi.ns_Ports s))
    ((λ h, (λ k, NetworkStore.mkKHints (NetworkApi.kph_ClusterIp k) (default ∅ <$> NetworkApi.kph_NodePorts k)
                   (default ∅ <$> NetworkApi.kph_Selector k)) <$> NetworkApi.ph_Kubernetes h) <$> NetworkApi.ns_ProviderHints s)
    (NetworkApi.ns_RoutingLevel s) (NetworkApi.ns_ServiceType s).

Definition storage_spec (s : StorageApi.StorageSpec) : StorageSpec :=
  let m := StorageApi.ss_Metadata s in
  mkStorageSpec (StorageApi.ss_Capacity s)
    (mkVolMeta (default ∅ <$> StorageApi.vm_Labels m) (StorageApi.vm_Name m) (StorageApi.vm_Namespace m)
       (StorageApi.vm_StorageClass m) (StorageApi.vm_VolumeName m))
    ((λ h, (λ k, StorageStore.mkKHints (StorageApi.kph_AccessMode k) (StorageApi.kph_StorageClass k) (StorageApi.kph_VolumeMode k))
             <$> StorageApi.ph_Kubernetes h) <$> StorageApi.ss_ProviderHints s)
    (StorageApi.ss_ServiceType s).

(** ** Parsing of specifications: the files handler.go *)

(** [json.Unmarshal] into a zero value. *)
Definition unmarshal {A} (c : codec A) (j : json) : option A := decode c (zero c) j.

Definition parseContainerSpec (raw : option json) : string + ContainerSpec :=
  match SpecJSON raw with
  | inl err => inl err
  | inr payload =>
      match unmarshal (ContainerApi.cContainerSpec number) payload with
      | None => inl ("invalid container spec: " ++ json_error payload)
      | Some spec =>
          if ContainerApi.cmx_Name (ContainerApi.cs_Metadata spec) =s? "" then inl "spec.metadata.name is required"
          else inr (container_spec spec)
      end
  end.

Definition parseNetworkSpec (raw : option json) : string + NetworkSpec :=
  match SpecJSON raw with
  | inl err => inl err
  | inr payload =>
      let bare :=
        match unmarshal (NetworkApi.cNetworkSpec number) payload with
        | None => inl ("invalid network spec: " ++ json_error payload)
        | Some spec =>
            if NetworkApi.nm_Name (NetworkApi.ns_Metadata spec) =s? "" then inl "spec.metadata.name is required"
            else inr (network_spec spec)
        end in
      match unmarshal (NetworkApi.cNetwork (T := T) number) payload with
      | Some wrapped =>
          if negb (NetworkApi.ns_ServiceType (NetworkApi.ne_Spec wrapped) =s? "") then inr (network_spec (NetworkApi.ne_Spec wrapped))
          else bare
      | None => bare
      end
  end.

Definition parseStorageSpec (raw : option json) : string + StorageSpec :=
  match SpecJSON raw with
  | inl err => inl err
  | inr payload =>
      let bare :=
        match unmarshal (StorageApi.cStorageSpec number) payload with
        | None => inl ("invalid storage spec: " ++ json_error payload)
        | Some spec =>
            if StorageApi.vm_Name (StorageApi.ss_Metadata spec) =s? "" then inl "spec.metadata.name is required"
            else inr (storage_spec spec)
        end in
      match unmarshal (StorageApi.cVolume (T := T) number) payload with
      | Some wrapped =>
          if negb (StorageApi.ss_ServiceType (StorageApi.vo_Spec wrapped) =s? "") then inr (storage_spec (StorageApi.vo_Spec wrapped))
          else bare
      | None => bare
      end
  end.

Definition parseVMSpec (raw : option json) : string + VMApi.VMSpec (T := T) :=
  match SpecJSON raw with
  | inl err => inl err
  | inr payload =>
      match unmarshal (VMApi.cVMSpec (T := T) number) payload with
      | None => inl ("invalid VM spec: " ++ json_error payload)
      | Some spec =>
          if VMApi.sm_Name (VMApi.vms_Metadata spec) =s? "" then inl "spec.metadata.name is required" else inr spec
      end
  end.

Definition parseCreateCluster (raw : option json) : string + ClusterApi.Cluster (T := T) :=
  match raw with
  | None => inl "spec is required"
  | Some payload =>
      match unmarshal (ClusterApi.cCluster (T := T) number) payload with
      | None => inl ("invalid cluster spec: " ++ json_error payload)
      | Some cluster => inr cluster
      end
  end.
End Parse.

(** ** Errors: [mapStoreError], [mapKubeVirtError], [mapServiceError] *)

Section Errors.
Context {X Q : Type} `{!KubeLib X Q}.

Definition is_found {A} (o : option A) : bool := match o with Some _ => true | None => false end.

Definition mapContainerError (err : ContainerStore.error (X := X)) : agent_error :=
  let msg := serror_text con_error_text err in
  if is_found (as_domain (λ d, match d with ContainerStore.NotFoundError _ => Some () | _ => None end) err) then ESPResponse 404 msg
  else if is_found (as_domain (λ d, match d with ContainerStore.ConflictError _ => Some () | _ => None end) err) then ESPResponse 409 msg
  else if is_found (as_domain (λ d, match d with ContainerStore.InvalidArgumentError _ => Some () | _ => None end) err) then ESPResponse 400 msg
  else ESPResponse 500 msg.

Definition mapNetworkError (err : NetworkStore.error (X := X)) : agent_error :=
  let msg := serror_text net_error_text err in
  if is_found (as_domain (λ d, match d with NetworkStore.NotFoundError _ _ => Some () | _ => None end) err) then ESPResponse 404 msg
  else if is_found (as_domain (λ d, match d with NetworkStore.ConflictError _ _ _ _ => Some () | _ => None end) err) then ESPResponse 409 msg
  else if is_found (as_domain (λ d, match d with NetworkStore.InvalidArgumentError _ _ => Some () | _ => None end) err) then ESPResponse 400 msg
  else ESPResponse 500 msg.

Definition mapStorageError (err : StorageStore.error (X := X)) : agent_error :=
  let msg := serror_text vol_error_text err in
  if is_found (as_domain (λ d, match d with StorageStore.NotFoundError _ => Some () | _ => None end) err) then ESPResponse 404 msg
  else if is_found (as_domain (λ d, match d with StorageStore.ConflictError _ => Some () | _ => None end) err) then ESPResponse 409 msg
  else if is_found (as_domain (λ d, match d with StorageStore.InvalidArgumentError _ _ => Some () | _ => None end) err) then ESPResponse 400 msg
  else if is_found (as_domain (λ d, match d with StorageStore.FailedPreconditionError _ => Some () | _ => None end) err) then ESPResponse 422 msg
  else ESPResponse 500 msg.

(** The API error an error wraps ([errors.As] for a status error). *)
Fixpoint as_api {D} (err : serror X D) : option Status :=
  match err with
  | SAPI x => APIStatus x
  | SWrap _ c => as_api c
  | _ => None
  end.

Definition mapKubeVirtError (err : serror X Empty_set) : agent_error :=
  let msg := serror_text (λ d : Empty_set, match d with end) err in
  match as_api err with
  | Some s => if bool_decide (st_Code s ∈ [409; 422; 400; 404]) then ESPResponse (st_Code s) msg else ESPResponse 500 msg
  | None => ESPResponse 500 msg
  end.

Definition mapServiceError (err : DomainError X) : option agent_error :=
  (λ e, ESPResponse (oe_StatusCode e) (oe_Message e)) <$> MapOperationError (Some (inl err)).
End Errors.

(** ** Handlers: [CreateResource] and [DeleteResource]

    A handler returns the error the router sees; [Panicked] when the provider's
    code panics. *)

Section Handlers.
Context {W X Q F T : Type} `{!KubeLib X Q, !VMLib X Q, !Float64 F, !TimeText T, !TimeText Z}.
Context `{!KubeAPI W X Service, !KubeAPI W X (PVC Q), !KubeAPI W X StorageClass, !KubeAPI W X (Deployment Q)}.
Context `{!KubeAPI W X (VirtualMachine Q), !KubeAPI W X ClusterImageSet, !KubeAPI W X HostedCluster, !KubeAPI W X (NodePool Q)}.
Context (range : map_range) (number : string → option string) (json_error : json → string).

Definition handler := kube W (exc (option agent_error)).

Definition bad_request (msg : string) : option agent_error := Some (ESPResponse 400 msg).

(** embedded/container *)
Definition containerCreateResource (cfg : ContainerStore.K8sConfig) (now : Z) (id : string) (raw : option json) : handler := λ w,
  match parseContainerSpec number json_error raw with
  | inl err => (Val (bad_request err), w)
  | inr spec =>
      match ContainerStore.ValidateCreate (X := X) (Q := Q) range id spec with
      | Some err => (Val (Some (mapContainerError (X := X) (Q := Q) (SDomain err))), w)
      | None =>
          match ContainerStore.Create (Q := Q) range cfg now spec id w with
          | (inl err, w') => (Val (Some (mapContainerError (Q := Q) err)), w')
          | (inr _, w') => (Val None, w')
          end
      end
  end.

Definition containerDeleteResource (cfg : ContainerStore.K8sConfig) (id : string) : handler := λ w,
  let '(r, w') := ContainerStore.Delete (Q := Q) cfg id w in (Val (mapContainerError (Q := Q) <$> r), w').

(** embedded/network: an empty routing level is no routing level. *)
Definition no_empty_routing (spec : NetworkSpec) : NetworkSpec :=
  if bool_decide (ns_RoutingLevel spec = Some "") then
    mkNetSpec (ns_Metadata spec) (ns_Ports spec) (ns_ProviderHints spec) None (ns_ServiceType spec)
  else spec.

Definition networkCreateResource (namespace : string) (id : string) (raw : option json) : handler := λ w,
  match parseNetworkSpec (T := T) number json_error raw with
  | inl err => (Val (bad_request err), w)
  | inr spec =>
      let spec := no_empty_routing spec in
      match NetworkStore.ValidateCreate range id spec with
      | Some err => (Val (Some (mapNetworkError (X := X) (Q := Q) (SDomain err))), w)
      | None =>
          match NetworkStore.Create (Q := Q) range namespace spec id w with
          | (inl err, w') => (Val (Some (mapNetworkError (Q := Q) err)), w')
          | (inr _, w') => (Val None, w')
          end
      end
  end.

Definition networkDeleteResource (namespace id : string) : handler := λ w,
  let '(r, w') := NetworkStore.Delete (Q := Q) namespace id w in (Val (mapNetworkError (Q := Q) <$> r), w').

(** embedded/storage: the volume's name becomes its identifier. *)
Definition name_by_id (id : string) (spec : StorageSpec) : StorageSpec :=
  let m := ss_Metadata spec in
  let renamed := mkStorageSpec (ss_Capacity spec)
    (mkVolMeta (vm_Labels m) id (vm_Namespace m) (vm_StorageClass m) (vm_VolumeName m)) (ss_ProviderHints spec) (ss_ServiceType spec) in
  if negb (vm_Name m =s? id) && negb (vm_Name m =s? "") then renamed
  else if vm_Name m =s? "" then renamed else spec.

Definition storageCreateResource (cfg : StorageStore.K8sConfig) (id : string) (raw : option json) : handler := λ w,
  match parseStorageSpec (T := T) number json_error raw with
  | inl err => (Val (bad_request err), w)
  | inr spec =>
      let spec := name_by_id id spec in
      match StorageStore.ValidateCreate range id spec with
      | Some err => (Val (Some (mapStorageError (X := X) (Q := Q) (SDomain err))), w)
      | None =>
          match StorageStore.Create (Q := Q) cfg spec id w with
          | (inl err, w') => (Val (Some (mapStorageError (Q := Q) err)), w')
          | (inr _, w') => (Val None, w')
          end
      end
  end.

Definition storageDeleteResource (cfg : StorageStore.K8sConfig) (id : string) : handler := λ w,
  let '(r, w') := StorageStore.Delete (Q := Q) cfg id w in (Val (mapStorageError (Q := Q) <$> r), w').

(** embedded/vm *)
Definition vmCreateResource (namespace : string) (vmID : string) (raw : option json) : handler := λ w,
  match parseVMSpec (T := T) number json_error raw with
  | inl err => (Val (bad_request err), w)
  | inr vmSpec =>
      match GetVirtualMachine (Q := Q) namespace vmID w with
      | (inr _, w1) => (Val (Some (ESPResponse 409 ("VM with instance ID " ++ vmID ++ " already exists"))), w1)
      | (inl _, w1) =>
          match VMSpecToVirtualMachine (F := F) namespace vmSpec vmID with
          | Panicked => (Panicked, w1)
          | Val virtualMachine =>
              match CreateVirtualMachine (Q := Q) namespace virtualMachine w1 with
              | (inl err, w2) => (Val (Some (mapKubeVirtError (Q := Q) err)), w2)
              | (inr _, w2) => (Val None, w2)
              end
          end
      end
  end.

Definition vmDeleteResource (namespace vmID : string) : handler := λ w,
  let '(r, w') := DeleteVirtualMachine (Q := Q) namespace vmID w in (Val (mapKubeVirtError (Q := Q) <$> r), w').

(** embedded/cluster *)
Definition clusterCreateResource (annotation_prefix : string) (zero_quantity : Q) (cfg : ClusterConfig) (platforms : list string)
  (now : Z) (id : string) (raw : option json) : handler := λ w,
  match parseCreateCluster (T := Z) number json_error raw with
  | inl err => (Val (bad_request err), w)
  | inr cluster =>
      match dispatchCreate range annotation_prefix zero_quantity cfg platforms now id cluster w with
      | (Val (inl err), w') => (Val (mapServiceError err), w')
      | (Val (inr _), w') => (Val None, w')
      | (Panicked, w') => (Panicked, w')
      end
  end.

Definition clusterDeleteResource (cfg : ClusterConfig) (id : string) : handler := λ w,
  let '(r, w') := DeleteCluster (Q := Q) cfg id w in (Val (r ≫= mapServiceError), w').
End Handlers.

(** ** Health checkers: health.go of each provider *)

(** Container, network, storage and VM: the server's version could be read. *)
Definition reachable_checker (err : option string) : HealthCheckResult :=
  match err with Some _ => CheckUnhealthy | None => CheckHealthy end.

Definition cluster_checker (h : ClusterApi.Health) : HealthCheckResult :=
  match ClusterApi.he_Status h with
  | None => CheckFailed
  | Some s =>
      let s := ToLower s in
      if s =s? "healthy" then CheckHealthy else if s =s? "unhealthy" then CheckUnhealthy else CheckFailed
  end.

(** ** Providers: embedded.go, the files setup.go *)

Inductive provider := PCluster | PContainer | PNetwork | PStorage | PVM.

#[export] Instance provider_eq_dec : EqDecision provider.
Proof. solve_decision. Defined.

(** In the order [Setup], [Start] and [Close] go through them. *)
Definition providers : list provider := [PCluster; PContainer; PNetwork; PStorage; PVM].

(** The constants [ServiceType]. *)
Definition ServiceTypeOf (p : provider) : string :=
  match p with
  | PCluster => "cluster" | PContainer => "container" | PNetwork => "network" | PStorage => "storage" | PVM => "vm"
  end.

Definition Enabled (p : provider) (embeddedSPs : list string) : bool :=
  existsb (λ st, TrimSpace st =s? ServiceTypeOf p) embeddedSPs.

(** [B]: the parts of a provider's bundle (its app, handler and checker);
    [made p]: how loading the configuration and building the app of [p] ends;
    [closed p b]: the error of closing it. *)
Section Setup.
Context {B : Type} (made : provider → string + B) (closed : provider → B → option string).

Inductive setup_event := Opened (p : provider) | ClosedBundle (p : provider).

(** The enabled providers; the others are nil in the struct. *)
Definition bundles := list (provider * B).

(** [done]: the bundles made so far.  On an error they are closed, their errors
    dropped. *)
Fixpoint setup_from (embeddedSPs : list string) (todo : list provider) (done : bundles) : (string + bundles) * list setup_event :=
  match todo with
  | [] => (inr done, [])
  | p :: rest =>
      if Enabled p embeddedSPs then
        match made p with
        | inl err => (inl (ServiceTypeOf p ++ " embedded setup: " ++ err), ClosedBundle <$> done.*1)
        | inr b => let '(r, tr) := setup_from embeddedSPs rest (done ++ [(p, b)])%list in (r, Opened p :: tr)
        end
      else setup_from embeddedSPs rest done
  end.

Definition Setup (embeddedSPs : list string) : (string + bundles) * list setup_event := setup_from embeddedSPs providers [].

(** The service types with a handler (or, alike, a checker); [None] when there
    is none. *)
Definition HandlerTypes (b : bundles) : option (gset string) :=
  let types : gset string := list_to_set (ServiceTypeOf <$> b.*1) in
  if bool_decide (types = ∅) then None else Some types.

(** [Bundles.Close]: every bundle is closed; the errors are joined. *)
Definition CloseAll (b : bundles) : list setup_event * list string :=
  (ClosedBundle <$> b.*1, omap (λ '(p, x), closed p x) b).
End Setup.
Arguments bundles : clear implicits.

(** ** internal/openshift/worker *)

Module Worker.

(** The goroutine of [Background]: running, or its [done] channel closed. *)
Inductive task := Running (cancelled : bool) | Finished.

(** The first call of [Close]: past [Stop]'s cancellation, waiting for the task
    if there was one then; or returned. *)
Inductive closing := NotClosed | Stopping (waits : bool) | Closed.

(** What happened, in order. *)
Inductive event := TaskStarted | TaskEnded | ResourceClosed (c : nat) | CloseReturned (first : bool).

(** [closers]: what [RegisterCloser] added; [started]: [startOnce] has fired;
    [later]: calls of [Close] that wait for the first one. *)
Record t := mk {
  started : bool;
  background : option task;
  closers : list nat;
  close : closing;
  later : nat;
  history : list event
}.

Definition NewAppLifecycle (closers : list nat) : t := mk false None closers NotClosed 0 [].

Inductive action :=
  | Start (run : bool)   (* whether the function is not nil *)
  | EndTask              (* the task's function returns *)
  | Close                (* a call *)
  | FinishClose          (* the first call, past <-b.done *)
  | ReturnLater.         (* another call, past closeOnce *)

Definition log (e : list event) (w : t) : list event := (history w ++ e)%list.

Definition step (w : t) (a : action) : t :=
  match a with
  | Start run =>
      if started w then w
      else if run then mk true (Some (Running false)) (closers w) (close w) (later w) (log [TaskStarted] w)
      else mk true (background w) (closers w) (close w) (later w) (history w)
  | EndTask =>
      match background w with
      | Some (Running _) => mk (started w) (Some Finished) (closers w) (close w) (later w) (log [TaskEnded] w)
      | _ => w
      end
  | Close =>
      match close w with
      | NotClosed =>
          mk (started w) (match background w with Some (Running _) => Some (Running true) | b => b end) (closers w)
            (Stopping (is_found (background w))) (later w) (history w)
      | _ => mk (started w) (background w) (closers w) (close w) (S (later w)) (history w)
      end
  | FinishClose =>
      match close w, background w with
      | Stopping false, _ | Stopping true, Some Finished =>
          mk (started w) (background w) (closers w) Closed (later w) (log ((ResourceClosed <$> closers w) ++ [CloseReturned true]) w)
      | _, _ => w
      end
  | ReturnLater =>
      match close w, later w with
      | Closed, S n => mk (started w) (background w) (closers w) (close w) n (log [CloseReturned false] w)
      | _, _ => w
      end
  end.

Definition runs (closers : list nat) (l : list action) : t := fold_left step l (NewAppLifecycle closers).
End Worker.

(** ** Set-up *)

Section SetupSpec.
Context {B : Type} (made : provider → string + B).

Lemma setup_from_spec sps todo done :
  let on := filter (λ p, Enabled p sps = true) todo in
  match setup_from made sps todo done with
  | (inr b, tr) => tr = Opened <$> on ∧ b.*1 = (done.*1 ++ on)%list ∧ Forall (λ p, ∃ x, made p = inr x) on
  | (inl err, tr) =>
      ∃ pre p post e, on = (pre ++ p :: post)%list ∧ made p = inl e ∧ err = ServiceTypeOf p ++ " embedded setup: " ++ e ∧
        tr = ((Opened <$> pre) ++ (ClosedBundle <$> (done.*1 ++ pre)))%list
  end.
Proof.
  revert done. induction todo as [|p todo IH]; intros done; simpl; [by rewrite app_nil_r|].
  rewrite filter_cons. destruct (Enabled p sps) eqn:He; [rewrite decide_True by done|by rewrite decide_False by done; apply IH].
  destruct (made p) as [e|b] eqn:Hm.
  { exists [], p, (filter (λ p, Enabled p sps = true) todo), e. rewrite app_nil_r. done. }
  specialize (IH (done ++ [(p, b)])%list). destruct (setup_from made sps todo _) as [[err|bs] tr]; cbv zeta in IH.
  - destruct IH as (pre & q & post & e & -> & Hq & -> & ->). exists (p :: pre), q, post, e.
    assert ((done ++ [(p, b)])%list.*1 ++ pre = done.*1 ++ p :: pre)%list as -> by (by rewrite fmap_app, <-app_assoc). done.
  - destruct IH as (-> & -> & Hf). rewrite fmap_app, <-app_assoc. split_and!; [done..|]. constructor; [eauto|done].
Qed.

(** Setting up the embedded providers leaves nothing behind when it fails.
    The enabled providers are made in order; if one cannot be made, exactly
    those made before it are closed, each once and in order, and the error names
    it.  Otherwise none is closed and the handlers (and checkers) are those of
    the enabled providers. *)
Theorem embedded_setup_exact (sps : list string) :
  let on := filter (λ p, Enabled p sps = true) providers in
  match Setup made sps with
  | (inr b, tr) =>
      tr = Opened <$> on ∧ Forall (λ p, ∃ x, made p = inr x) on ∧
      ∀ st, st ∈ default ∅ (HandlerTypes b) ↔ ∃ p, Enabled p sps = true ∧ ServiceTypeOf p = st
  | (inl err, tr) =>
      ∃ pre p post e, on = (pre ++ p :: post)%list ∧ made p = inl e ∧ err = ServiceTypeOf p ++ " embedded setup: " ++ e ∧
        tr = ((Opened <$> pre) ++ (ClosedBundle <$> pre))%list
  end.
Proof.
  cbv zeta. unfold Setup. pose proof (setup_from_spec sps providers []) as H.
  destruct (setup_from made sps providers []) as [[err|b] tr]; cbv zeta in H; [done|].
  destruct H as (Htr & Hb & Hf). split_and!; [done..|]. intros st.
  assert (st ∈ default ∅ (HandlerTypes b) ↔ st ∈ ServiceTypeOf <$> b.*1) as ->.
  { unfold HandlerTypes. case_bool_decide as E; simpl; rewrite <-(elem_of_list_to_set (C := gset string)); [by rewrite E|done]. }
  rewrite Hb, list_elem_of_fmap. simpl. split.
  - intros (p & -> & [Hp _]%list_elem_of_filter). eauto.
  - intros (p & Hp & <-). exists p. split; [done|]. apply list_elem_of_filter. split; [done|]. destruct p; set_solver.
Qed.
End SetupSpec.

(** ** The worker *)

Module WorkerSpec.
Import Worker.

(** The part of the history that the task makes. *)
Definition task_events (b : option task) : list event :=
  match b with None => [] | Some (Running _) => [TaskStarted] | Some Finished => [TaskStarted; TaskEnded] end.

Record inv (c : list nat) (w : t) : Prop := {
  inv_closers : closers w = c;
  inv_started : started w = false → background w = None;
  inv_history :
    match close w with
    | Closed => background w ≠ Some (Running true) ∧ background w ≠ Some (Running false) ∧
        ∃ k, history w = (task_events (background w) ++ (ResourceClosed <$> c) ++ CloseReturned true :: replicate k (CloseReturned false))%list
    | Stopping waits => history w = task_events (background w) ∧ waits = is_found (background w)
    | NotClosed => history w = task_events (background w)
    end
}.

(** [Start] is not called once [Close] has been. *)
Fixpoint orderly (w : t) (l : list action) : Prop :=
  match l with
  | [] => True
  | a :: l' => (match a with Start _ => close w = NotClosed | _ => True end) ∧ orderly (step w a) l'
  end.

Lemma worker_step_inv c w a :
  inv c w → (match a with Start _ => close w = NotClosed | _ => True end) → inv c (step w a).
Proof.
  intros [Hc Hs Hh] Ha. destruct w as [st bg cl clo lat hist]; simpl in *; subst.
  destruct a; simpl.
  - subst clo. destruct st; [by split|]. rewrite (Hs eq_refl) in *. destruct run; split; simpl; try done. by rewrite Hh.
  - destruct bg as [[b|]|]; [|by split..]. split; simpl; [done| |].
    + intros E. by apply Hs in E.
    + unfold log. simpl. destruct clo; [by rewrite Hh|by destruct Hh as [-> Hw]|]. destruct Hh as (H1 & H2 & _). by destruct b.
  - destruct clo; split; simpl; try done.
    + intros E. by rewrite (Hs E).
    + rewrite Hh. by destruct bg as [[]|].
  - destruct clo as [|waits|]; [by split| |by split]. destruct Hh as [Hh Hw].
    assert (waits = false → bg = None) as Hb by (destruct bg; simpl in Hw; congruence).
    destruct waits; [destruct bg as [[]|]; try by split|rewrite Hb in * by done]; split; simpl; try done;
      split_and!; try done; exists 0%nat; unfold log; simpl; by rewrite Hh.
  - destruct clo, lat; try by split. split; simpl; try done. destruct Hh as (H1 & H2 & k & Hh). split_and!; try done.
    exists (S k). unfold log. simpl. rewrite Hh, <-!app_assoc. simpl. f_equal. f_equal. f_equal. by rewrite replicate_cons_app.
Qed.

(** Shutting a provider's worker down.  If it is not started once it is being
    closed, its history is at any time: the task started at most once and its
    end, then, only after that end, every registered resource closed once in the
    order of registration, then the returns of [Close].  So no call of [Close]
    returns while the task runs, nothing is closed under a running task, and
    repeated calls close nothing again. *)
Theorem worker_close_order (c : list nat) (l : list action) :
  orderly (NewAppLifecycle c) l →
  let w := runs c l in
  match close w with
  | Closed => ∃ b k, (b = None ∨ b = Some Finished) ∧ background w = b ∧
      history w = (task_events b ++ (ResourceClosed <$> c) ++ CloseReturned true :: replicate k (CloseReturned false))%list
  | _ => history w = task_events (background w)
  end.
Proof.
  intros Ho. cbv zeta. assert (inv c (runs c l)) as [_ _ H].
  { unfold runs. assert (inv c (NewAppLifecycle c)) as Hi by by split. revert Hi Ho. generalize (NewAppLifecycle c).
    induction l as [|a l IH]; intros w Hi; [done|]. intros [Ha Ho]. apply IH; [by apply worker_step_inv|done]. }
  destruct (close (runs c l)); [done|by destruct H|]. destruct H as (H1 & H2 & k & H). exists (background (runs c l)), k.
  split_and!; try done. destruct (background (runs c l)) as [[[]|]|]; auto; done.
Qed.
End WorkerSpec.

(** ** What the router sees of a handler's errors *)

Section HandlerSpec.
Context {W X Q F T : Type} `{!KubeLib X Q, !VMLib X Q, !Float64 F, !TimeText T, !TimeText Z}.
Context `{!KubeAPI W X Service, !KubeAPI W X (PVC Q), !KubeAPI W X StorageClass, !KubeAPI W X (Deployment Q)}.
Context `{!KubeAPI W X (VirtualMachine Q), !KubeAPI W X ClusterImageSet, !KubeAPI W X HostedCluster, !KubeAPI W X (NodePool Q)}.
Context (range : map_range) (number : string → option string) (json_error : json → string).

(** The configuration of every provider. *)
Record configs := mkConfigs {
  cf_container : ContainerStore.K8sConfig;
  cf_network : string;
  cf_storage : StorageStore.K8sConfig;
  cf_vm : string;
  cf_cluster : ClusterConfig;
  cf_platforms : list string;
  cf_prefix : string;
  cf_zero : Q
}.

(** The handlers by provider. *)
Definition CreateResource (c : configs) (p : provider) (now : Z) (id : string) (raw : option json) : handler (W := W) :=
  match p with
  | PContainer => containerCreateResource (Q := Q) range number json_error (cf_container c) now id raw
  | PNetwork => networkCreateResource (Q := Q) (T := T) range number json_error (cf_network c) id raw
  | PStorage => storageCreateResource (Q := Q) (T := T) range number json_error (cf_storage c) id raw
  | PVM => vmCreateResource (Q := Q) (F := F) (T := T) number json_error (cf_vm c) id raw
  | PCluster => clusterCreateResource (Q := Q) range number json_error (cf_prefix c) (cf_zero c) (cf_cluster c) (cf_platforms c) now id raw
  end.

Definition DeleteResource (c : configs) (p : provider) (id : string) : handler (W := W) :=
  match p with
  | PContainer => containerDeleteResource (Q := Q) (cf_container c) id
  | PNetwork => networkDeleteResource (Q := Q) (cf_network c) id
  | PStorage => storageDeleteResource (Q := Q) (cf_storage c) id
  | PVM => vmDeleteResource (Q := Q) (cf_vm c) id
  | PCluster => clusterDeleteResource (Q := Q) (cf_cluster c) id
  end.

(** Whether a request's specification can be read and passes the provider's
    validation. *)
Definition acceptable (p : provider) (id : string) (raw : option json) : bool :=
  match p with
  | PContainer =>
      match parseContainerSpec number json_error raw with
      | inr spec => negb (is_found (ContainerStore.ValidateCreate (X := X) (Q := Q) range id spec))
      | inl _ => false
      end
  | PNetwork =>
      match parseNetworkSpec (T := T) number json_error raw with
      | inr spec => negb (is_found (NetworkStore.ValidateCreate range id (no_empty_routing spec)))
      | inl _ => false
      end
  | PStorage =>
      match parseStorageSpec (T := T) number json_error raw with
      | inr spec => negb (is_found (StorageStore.ValidateCreate range id (name_by_id id spec)))
      | inl _ => false
      end
  | PVM => match parseVMSpec (T := T) number json_error raw with inr _ => true | inl _ => false end
  | PCluster => match parseCreateCluster (T := Z) number json_error raw with inr _ => true | inl _ => false end
  end.

(** The codes a handler's error can have; the router retries those from 500
    on. *)
Definition handler_error (e : agent_error) : Prop :=
  ∃ code msg, e = ESPResponse code msg ∧ code ∈ [400; 401; 403; 404; 409; 422; 500; 503] ∧
    IsRetryable e = bool_decide (code ∈ [500; 503]).

Lemma handler_code code msg : code ∈ [400; 401; 403; 404; 409; 422; 500; 503] → handler_error (ESPResponse code msg).
Proof.
  intros H. exists code, msg. split_and!; [done..|].
  repeat (apply elem_of_cons in H as [->|H]; [reflexivity|]). by apply elem_of_nil in H.
Qed.

Ltac code_tac := apply handler_code; set_solver.

Lemma container_error_code err : handler_error (mapContainerError (X := X) (Q := Q) err).
Proof. unfold mapContainerError. repeat case_match; code_tac. Qed.
Lemma network_error_code err : handler_error (mapNetworkError (X := X) (Q := Q) err).
Proof. unfold mapNetworkError. repeat case_match; code_tac. Qed.
Lemma storage_error_code err : handler_error (mapStorageError (X := X) (Q := Q) err).
Proof. unfold mapStorageError. repeat case_match; code_tac. Qed.
Lemma vm_error_code err : handler_error (mapKubeVirtError (X := X) (Q := Q) err).
Proof. unfold mapKubeVirtError. repeat case_match; breflect; code_tac. Qed.
Lemma service_error_code (err : DomainError X) e : mapServiceError err = Some e → handler_error e.
Proof. unfold mapServiceError. simpl. intros [= <-]. unfold httpStatusForErrorType. repeat case_match; code_tac. Qed.

#[local] Hint Resolve container_error_code network_error_code storage_error_code vm_error_code service_error_code : core.

Lemma create_error_code c p now id raw w e w' :
  CreateResource c p now id raw w = (Val (Some e), w') → handler_error e.
Proof.
  destruct p; simpl.
  - unfold clusterCreateResource. destruct (parseCreateCluster _ _ _); [intros [= <- <-]; code_tac|].
    destruct (dispatchCreate _ _ _ _ _ _ _ _ _) as [[[d|]|] w2]; intros [= E <-].
    apply (service_error_code d). unfold mapServiceError. simpl. by rewrite E.
  - unfold containerCreateResource. destruct (parseContainerSpec _ _ _); [intros [= <- <-]; code_tac|].
    destruct (ContainerStore.ValidateCreate _ _ _); [intros [= <- <-]; auto|].
    destruct (ContainerStore.Create _ _ _ _ _ _) as [[] w2]; intros [= <- <-]; auto.
  - unfold networkCreateResource. destruct (parseNetworkSpec _ _ _); [intros [= <- <-]; code_tac|].
    destruct (NetworkStore.ValidateCreate _ _ _); [intros [= <- <-]; auto|].
    destruct (NetworkStore.Create _ _ _ _ _) as [[] w2]; intros [= <- <-]; auto.
  - unfold storageCreateResource. destruct (parseStorageSpec _ _ _); [intros [= <- <-]; code_tac|].
    destruct (StorageStore.ValidateCreate _ _ _); [intros [= <- <-]; auto|].
    destruct (StorageStore.Create _ _ _ _) as [[] w2]; intros [= <- <-]; auto.
  - unfold vmCreateResource. destruct (parseVMSpec _ _ _); [intros [= <- <-]; code_tac|].
    destruct (GetVirtualMachine _ _ _) as [[] w1]; [|intros [= <- <-]; code_tac].
    destruct (VMSpecToVirtualMachine _ _ _); [|done].
    destruct (CreateVirtualMachine _ _ _) as [[] w2]; intros [= <- <-]; auto.
Qed.

Lemma delete_error_code c p id w e w' : DeleteResource c p id w = (Val (Some e), w') → handler_error e.
Proof.
  destruct p; simpl; unfold clusterDeleteResource, containerDeleteResource, networkDeleteResource, storageDeleteResource, vmDeleteResource.
  - destruct (DeleteCluster _ _ _) as [[d|] w1]; simpl; intros [= E <-].
    apply (service_error_code d). unfold mapServiceError. simpl. by rewrite E.
  - destruct (ContainerStore.Delete _ _ _) as [[] w1]; simpl; intros [= <- <-]; auto.
  - destruct (NetworkStore.Delete _ _ _) as [[] w1]; simpl; intros [= <- <-]; auto.
  - destruct (StorageStore.Delete _ _ _) as [[] w1]; simpl; intros [= <- <-]; auto.
  - destruct (DeleteVirtualMachine _ _ _) as [[] w1]; simpl; intros [= <- <-]; auto.
Qed.

(** A request that is not acceptable is refused without a call to the cluster. *)
Lemma unacceptable_refused c p now id raw w :
  acceptable p id raw = false →
  ∃ code msg, CreateResource c p now id raw w = (Val (Some (ESPResponse code msg)), w) ∧ code ∈ [400; 404; 409; 422].
Proof.
  destruct p; simpl; unfold clusterCreateResource, containerCreateResource, networkCreateResource, storageCreateResource, vmCreateResource.
  - destruct (parseCreateCluster _ _ _); [|done]. intros _. eexists _, _. split; [done|set_solver].
  - destruct (parseContainerSpec _ _ _) as [|spec]; [intros _; eexists _, _; split; [done|set_solver]|].
    destruct (ContainerStore.ValidateCreate _ _ _) as [[]|]; [| | |done]; intros _; eexists _, _; (split; [done|set_solver]).
  - destruct (parseNetworkSpec _ _ _) as [|spec]; [intros _; eexists _, _; split; [done|set_solver]|].
    destruct (NetworkStore.ValidateCreate _ _ _) as [[]|]; [| | |done]; intros _; eexists _, _; (split; [done|set_solver]).
  - destruct (parseStorageSpec _ _ _) as [|spec]; [intros _; eexists _, _; split; [done|set_solver]|].
    destruct (StorageStore.ValidateCreate _ _ _) as [[]|]; [| | | |done]; intros _; eexists _, _; (split; [done|set_solver]).
  - destruct (parseVMSpec _ _ _); [|done]. intros _. eexists _, _. split; [done|set_solver].
Qed.

(** What the router makes of an embedded provider's answer.  Every error of
    [CreateResource] or [DeleteResource] of any provider is a provider response
    with a known status, and the router retries exactly the server errors.  A
    request whose specification cannot be read or does not pass validation is
    refused with a client error, which is not retried, and without a call to the
    cluster. *)
Theorem embedded_errors_classified c p now id raw w :
  (∀ e w', CreateResource c p now id raw w = (Val (Some e), w') → handler_error e) ∧
  (∀ e w', DeleteResource c p id w = (Val (Some e), w') → handler_error e) ∧
  (acceptable p id raw = false →
   ∃ e, CreateResource c p now id raw w = (Val (Some e), w) ∧ IsRetryable e = false).
Proof.
  split_and!; [intros e w'; apply create_error_code|intros e w'; apply delete_error_code|].
  intros H. destruct (unacceptable_refused c p now id raw w H) as (code & msg & Hc & Hin). exists (ESPResponse code msg). split; [done|].
  repeat (apply elem_of_cons in Hin as [->|Hin]; [reflexivity|]). by apply elem_of_nil in Hin.
Qed.
End HandlerSpec.

(** ** Repeated requests *)

Section Deliveries.
Context {W : Type}.

(** The cluster after the same identifier was asked for with each of [raws],
    whatever the handler answered. *)
Definition deliver (create : option json → handler (W := W)) (raws : list (option json)) (w : W) : W :=
  fold_left (λ w raw, (create raw w).2) raws w.

Lemma deliver_inv (P : W → Prop) create raws w :
  (∀ raw w, P w → P (create raw w).2) → P w → P (deliver create raws w).
Proof. intros Hs. unfold deliver. revert w. induction raws as [|raw raws IH]; intros w Hw; [done|]. by apply IH, Hs. Qed.
End Deliveries.

Section Unique.
Context {W X Q : Type} `{!KubeLib X Q, !KubeLibLaws X Q, !TimeText Z}.
Context `{!KubeAPI W X (Deployment Q), !KubeAPI W X Service, !KubeAPI W X ClusterImageSet}.
Context `{!KubeAPI W X HostedCluster, !KubeAPI W X (NodePool Q)}.
Context `{!KubeLaws W X Q (Deployment Q) deployment_admitted, !KubeLaws W X Q Service service_admitted}.
Context `{!KubeLaws W X Q HostedCluster hc_admitted, !KubeLaws W X Q (NodePool Q) np_admitted}.
Context `{!KubeFrame W X Q (Deployment Q) Service, !KubeFrame W X Q Service (Deployment Q)}.
Context `{!KubeFrame W X Q HostedCluster (NodePool Q), !KubeFrame W X Q (NodePool Q) HostedCluster}.
Context `{!KubeFrame W X Q ClusterImageSet HostedCluster, !KubeFrame W X Q ClusterImageSet (NodePool Q)}.
Context (range : map_range) (number : string → option string) (json_error : json → string).

Lemma container_create_unique cfg now id raw w :
  valid_label_value id = true → id ≠ "" → clean_errors (W := W) (X := X) (Q := Q) →
  let n w := length (of_instance id (objs (O := Deployment Q) w (cfg_Namespace cfg))) in
  (n w ≤ 1)%nat → (n (containerCreateResource (Q := Q) range number json_error cfg now id raw w).2 ≤ 1)%nat.
Proof.
  intros Hv Hid Hc n Hn. unfold containerCreateResource. destruct (parseContainerSpec _ _ _) as [|spec]; [done|].
  destruct (ContainerStore.ValidateCreate _ _ _); [done|].
  destruct (ContainerStore.Create range cfg now spec id w) as [r w'] eqn:Hr. apply create_effect in Hr; [|done..].
  destruct r as [err|con]; cbn [snd].
  - destruct Hr as [_ [E|[Hnone (k & _ & Hk & _)]]]; [unfold n; by rewrite E|]. by apply (selected_change _ _ _ k Hnone).
  - destruct Hr as (_ & Hnone & d & Hd & Hins & _). apply (selected_change _ _ _ (Name (d_Meta d)) Hnone).
    intros k Hk. rewrite Hins. by rewrite lookup_insert_ne.
Qed.

Lemma cluster_create_unique prefix zq cfg platforms now id raw q w :
  valid_label_value id = true → clean_create_errors (W := W) (X := X) (Q := Q) → ParseQuantity "32Gi" = inr q →
  let n w := length (of_id id (objs (O := HostedCluster) w (ClusterNamespace cfg))) in
  (n w ≤ 1)%nat → (n (clusterCreateResource (Q := Q) range number json_error prefix zq cfg platforms now id raw w).2 ≤ 1)%nat.
Proof.
  intros Hv Hc Hq n Hn. unfold clusterCreateResource. destruct (parseCreateCluster _ _ _) as [|req]; [done|].
  destruct (dispatchCreate range prefix zq cfg platforms now id req w) as [r w'] eqn:Hr.
  eapply dispatch_create_effect in Hr; [|done..]. assert (n w' ≤ 1)%nat; [|by destruct r as [[]|]].
  destruct r as [[err|c]|]; [| |done].
  - destruct Hr as [_ [E|[Hnone (k & _ & Hk & _)]]]; [unfold n; by rewrite E|]. by apply (selected_change _ _ _ k Hnone).
  - destruct Hr as (_ & _ & _ & [Hnone (hc & _ & Hins & _) _]). apply (selected_change _ _ _ (Name (hc_Meta hc)) Hnone).
    intros k Hk. rewrite Hins. by rewrite lookup_insert_ne.
Qed.

(** C28: However often and with whatever specifications the creation of a
    resource is requested, and wherever the attempts fail, an identifier never
    comes to name two containers or two clusters: from at most one Deployment
    (one HostedCluster) that carries it, any sequence of requests leaves at most
    one.  The API server's failed create calls are taken to create nothing. *)
Theorem embedded_instance_unique ccfg kcfg platforms prefix zq q now id (raws : list (option json)) w :
  valid_label_value id = true → id ≠ "" →
  clean_errors (W := W) (X := X) (Q := Q) → clean_create_errors (W := W) (X := X) (Q := Q) → ParseQuantity "32Gi" = inr q →
  let containers w := length (of_instance id (objs (O := Deployment Q) w (cfg_Namespace ccfg))) in
  let clusters w := length (of_id id (objs (O := HostedCluster) w (ClusterNamespace kcfg))) in
  let create_container := containerCreateResource (Q := Q) range number json_error ccfg now id in
  let create_cluster := clusterCreateResource (Q := Q) range number json_error prefix zq kcfg platforms now id in
  ((containers w ≤ 1)%nat → (containers (deliver create_container raws w) ≤ 1)%nat) ∧
  ((clusters w ≤ 1)%nat → (clusters (deliver create_cluster raws w) ≤ 1)%nat).
Proof.
  intros Hv Hid Hc Hk Hq. cbv zeta. split; intros H.
  - apply (deliver_inv (λ w, length (of_instance id (objs (O := Deployment Q) w (cfg_Namespace ccfg))) ≤ 1)%nat); [|done].
    intros raw w0. by apply container_create_unique.
  - apply (deliver_inv (λ w, length (of_id id (objs (O := HostedCluster) w (ClusterNamespace kcfg))) ≤ 1)%nat); [|done].
    intros raw w0. by apply (cluster_create_unique _ _ _ _ _ _ _ q).
Qed.
End Unique.

(** ** Runs *)

Module EmbeddedRun.
Import FakeKube KubevirtRun AcmClusterRun.

Definition worker_run : list Worker.action :=
  [Worker.Start true; Worker.Start true; Worker.Close; Worker.FinishClose; Worker.EndTask; Worker.Close; Worker.FinishClose; Worker.ReturnLater].

Lemma worker_close_order_witness :
  WorkerSpec.orderly (Worker.NewAppLifecycle [7%nat]) worker_run ∧
  ∃ b k, (b = None ∨ b = Some Worker.Finished) ∧ Worker.background (Worker.runs [7%nat] worker_run) = b ∧
    Worker.history (Worker.runs [7%nat] worker_run) =
      (WorkerSpec.task_events b ++ [Worker.ResourceClosed 7] ++ Worker.CloseReturned true :: replicate k (Worker.CloseReturned false))%list.
Proof.
  assert (WorkerSpec.orderly (Worker.NewAppLifecycle [7%nat]) worker_run) as Ho by (vm_compute; tauto).
  split; [exact Ho|exact (WorkerSpec.worker_close_order [7%nat] worker_run Ho)].
Defined.

(** A worker started after it was closed runs on with its resources closed. *)
Lemma start_after_close_runs :
  let w := Worker.runs [7%nat] [Worker.Close; Worker.FinishClose; Worker.Start true] in
  Worker.background w = Some (Worker.Running false) ∧ Worker.ResourceClosed 7%nat ∈ Worker.history w ∧
  ∀ l, Worker.EndTask ∉ l → Worker.background (fold_left Worker.step l w) = Some (Worker.Running false).
Proof.
  cbv zeta. split; [done|]. split; [vm_compute; set_solver|]. intros l.
  assert (∀ w : Worker.t, Worker.close w = Worker.Closed → Worker.started w = true → Worker.background w = Some (Worker.Running false) →
    Worker.EndTask ∉ l → Worker.background (fold_left Worker.step l w) = Some (Worker.Running false)) as H; [|by apply H].
  induction l as [|a l IH]; intros w Hc Hs Hb Hl; [done|]. apply not_elem_of_cons in Hl as [Ha Hl]. simpl.
  destruct a; simpl; rewrite ?Hs, ?Hb, ?Hc; try done; try (apply IH; done). destruct (Worker.later w); by apply IH.
Qed.

(** A cluster with the kinds of all these providers. *)
Definition kworld : Type := world * cworld.

#[export] Instance both_deployment : KubeAPI kworld Status (Deployment Z) :=
  fake_api (λ w, f_deployments w.1) (λ m w, (mkWorld (f_services w.1) (f_pvcs w.1) (f_pods w.1) m (f_classes w.1), w.2)) rename_deployment.
#[export] Instance both_service : KubeAPI kworld Status Service :=
  fake_api (λ w, f_services w.1) (λ m w, (mkWorld m (f_pvcs w.1) (f_pods w.1) (f_deployments w.1) (f_classes w.1), w.2)) rename_service.
#[export] Instance both_set : KubeAPI kworld Status ClusterImageSet :=
  fake_api (λ w, f_sets w.2) (λ m w, (w.1, mkCWorld m (f_hcs w.2) (f_nps w.2) (f_secrets w.2))) rename_set.
#[export] Instance both_hc : KubeAPI kworld Status HostedCluster :=
  fake_api (λ w, f_hcs w.2) (λ m w, (w.1, mkCWorld (f_sets w.2) m (f_nps w.2) (f_secrets w.2))) rename_hc.
#[export] Instance both_np : KubeAPI kworld Status (NodePool Z) :=
  fake_api (λ w, f_nps w.2) (λ m w, (w.1, mkCWorld (f_sets w.2) (f_hcs w.2) m (f_secrets w.2))) rename_np.

#[export] Instance both_deployment_laws : KubeLaws kworld Status Z (Deployment Z) deployment_admitted.
Proof. by refine (fake_laws _ _ _ _ _ _ _ _). Defined.
#[export] Instance both_service_laws : KubeLaws kworld Status Z Service service_admitted.
Proof.
  refine (fake_laws _ _ _ _ _ _ _ _); try done. intros n o. split_and!; try done.
  simpl. induction (svc_Ports o) as [|p l IH]; constructor; [by split_and!|exact IH].
Defined.
#[export] Instance both_hc_laws : KubeLaws kworld Status Z HostedCluster hc_admitted.
Proof. by refine (fake_laws _ _ _ _ _ _ _ _). Defined.
#[export] Instance both_np_laws : KubeLaws kworld Status Z (NodePool Z) np_admitted.
Proof. by refine (fake_laws _ _ _ _ _ _ _ _). Defined.

#[export] Instance both_f1 : KubeFrame kworld Status Z (Deployment Z) Service.
Proof. cluster_frame. Qed.
#[export] Instance both_f2 : KubeFrame kworld Status Z Service (Deployment Z).
Proof. cluster_frame. Qed.
#[export] Instance both_f3 : KubeFrame kworld Status Z HostedCluster (NodePool Z).
Proof. cluster_frame. Qed.
#[export] Instance both_f4 : KubeFrame kworld Status Z (NodePool Z) HostedCluster.
Proof. cluster_frame. Qed.
#[export] Instance both_f5 : KubeFrame kworld Status Z ClusterImageSet HostedCluster.
Proof. cluster_frame. Qed.
#[export] Instance both_f6 : KubeFrame kworld Status Z ClusterImageSet (NodePool Z).
Proof. cluster_frame. Qed.

Definition int_time : TimeText Z := {| time_zero := 0; time_parse := ParseInt64; time_format n := Some (pretty n) |}.
#[local] Existing Instance int_time.

(** An API server that cannot be reached. *)
Definition down_api O : KubeAPI () Status O := {|
  api_create _ _ w := (inl (mkStatus "" 0 "connection refused" None), w);
  api_get _ _ w := (inl (mkStatus "" 0 "connection refused" None), w);
  api_list _ _ w := (inl (mkStatus "" 0 "connection refused" None), w);
  api_delete _ _ w := (Some (mkStatus "" 0 "connection refused" None), w)
|}.
#[local] Existing Instance down_api.

Lemma embedded_errors_classified_witness :
  acceptable (X := Status) (Q := Z) (T := Z) sorted_range Some (λ _, "") PVM "vm-1" (Some JNull) = false ∧
  ∃ e, CreateResource (W := ()) (X := Status) (Q := Z) (F := Z) (T := Z) sorted_range Some (λ _, "")
         (mkConfigs (ContainerStore.mkConfig "ns" "LoadBalancer") "ns" (StorageStore.mkConfig "ns" "" "ReadWriteOnce") "ns"
            AcmClusterRun.cfg ["kubevirt"] "override" 0) PVM 0 "vm-1" (Some JNull) () = (Val (Some e), ()) ∧ IsRetryable e = false.
Proof.
  assert (acceptable (X := Status) (Q := Z) (T := Z) sorted_range Some (λ _, "") PVM "vm-1" (Some JNull) = false) as Ha
    by (vm_compute; reflexivity).
  split; [exact Ha|].
  exact (proj2 (proj2 (embedded_errors_classified (W := ()) (X := Status) (Q := Z) (F := Z) (T := Z) sorted_range Some (λ _, "")
    (mkConfigs (ContainerStore.mkConfig "ns" "LoadBalancer") "ns" (StorageStore.mkConfig "ns" "" "ReadWriteOnce") "ns"
       AcmClusterRun.cfg ["kubevirt"] "override" 0) PVM 0 "vm-1" (Some JNull) ())) Ha).
Defined.

(** The lookup before a VM is created counts any failure as absence: with a list
    call that fails, a VM that exists is created again under a new name. *)
#[local] Instance flaky_vm : KubeAPI (list (VirtualMachine Z)) Status (VirtualMachine Z) := {|
  api_create _ o w := (inr o, o :: w);
  api_get _ _ w := (inl (mkStatus "" 0 "timeout" None), w);
  api_list _ _ w := (inl (mkStatus "" 0 "timeout" None), w);
  api_delete _ _ w := (Some (mkStatus "" 0 "timeout" None), w)
|}.

Definition vm_document : json :=
  JObject [("service_type", JString "vm"); ("metadata", JObject [("name", JString "shop")]);
           ("guest_os", JObject [("type", JString "fedora")]); ("memory", JObject [("size", JString "4GB")]);
           ("vcpu", JObject [("count", JNumber "2")]); ("storage", JObject [("disks", JArray [])])].

Lemma failed_lookup_duplicates_vm :
  let create := vmCreateResource (W := list (VirtualMachine Z)) (X := Status) (Q := Z) (F := Z) (T := Z)
    Some (λ _, "") "ns" "vm-1" (Some vm_document) in
  let w := (create (create []).2).2 in
  (create []).1 = Val None ∧ (create (create []).2).1 = Val None ∧
  (λ vm, label (Labels (kvm_Meta vm)) LabelInstanceID) <$> w = ["vm-1"; "vm-1"].
Proof. vm_compute. split_and!; reflexivity. Qed.

(** A container request, in an envelope, with members the API does not name. *)
Definition container_document : json :=
  JObject [("Spec", JObject
    [("service_type", JString "container"); ("metadata", JObject [("name", JString "shop")]);
     ("image", JObject [("reference", JString "quay.io/shop:1"); ("pull", JString "always")]);
     ("resources", JObject [("cpu", JObject [("min", JString "1"); ("max", JString "2")]);
                            ("memory", JObject [("min", JString "1GB"); ("max", JString "2GB")])])])].

Definition ccfg : ContainerStore.K8sConfig := ContainerStore.mkConfig "ns" "LoadBalancer".
Definition create_shop : option json → handler := containerCreateResource (W := kworld) (X := Status) (Q := Z) sorted_range Some (λ _, "") ccfg 0 "con-1".

Lemma embedded_instance_unique_witness :
  (create_shop (Some container_document) (empty_world, start)).1 = Val None ∧
  (length (of_instance "con-1" (objs (O := Deployment Z)
     (deliver create_shop [Some container_document; None; Some container_document] (empty_world, start)) "ns")) ≤ 1)%nat.
Proof.
  split; [vm_compute; reflexivity|].
  assert (valid_label_value "con-1" = true) as Hv by (vm_compute; reflexivity).
  assert (clean_errors (W := kworld) (X := Status) (Q := Z)) as Hc
    by (split; intros n o w x w' H; simpl in H; by case_match; simplify_eq).
  assert (clean_create_errors (W := kworld) (X := Status) (Q := Z)) as Hk
    by (split; intros n o w x w' H; simpl in H; by case_match; simplify_eq).
  refine (proj1 (embedded_instance_unique sorted_range Some (λ _, "") ccfg AcmClusterRun.cfg ["kubevirt"] "override" 0 (32 * 1024 ^ 3) 0 "con-1"
    [Some container_document; None; Some container_document] (empty_world, start) Hv ltac:(discriminate) Hc Hk quantity_32Gi) _).
  vm_compute. lia.
Defined.
End EmbeddedRun.
