(* ===== verification/Http.v ===== *)
(** * The agent's HTTP server: responses, middleware, authentication

    src/internal/apiserver/middleware.go, src/internal/requestctx,
    src/internal/httperror and src/internal/auth, with the part of [net/http]
    they use.

    A handler takes a request and the state of the exchange to the state it
    leaves; it returns or panics.  The state holds the [http.ResponseWriter] the
    handler sees (the connection, the buffer of [RequestTimeout], or the
    recorder of [RequestLogger] around another writer), the [Outcome] the
    context points to, the log, and the state [W] behind the handlers.  A body
    is the sequence of what was written, a JSON document standing for its text.

    Given from outside: what the token validator answers, the clock, and
    whether the deadline had passed when the inner handler returned. *)

From Stdlib Require Import Ascii.
From S2P Require Import Prelude GoStrings Json Encoding Codec ApiTypes.
#[local] Open Scope string_scope.
#[local] Open Scope Z_scope.

(** ** net/http *)

Definition headers := gmap string (list string).

Fixpoint canonical (upper : bool) (l : list Ascii.ascii) : list Ascii.ascii :=
  match l with
  | [] => []
  | c :: l => (if upper then upper_ascii c else lower_ascii c) :: canonical (is_char "-"%char c) l
  end.
(** For keys of token characters, which all keys here are. *)
Definition CanonicalHeaderKey (k : string) : string := of_chars (canonical true (chars k)).

Definition Header_Set (k v : string) (h : headers) : headers := <[CanonicalHeaderKey k := [v]]> h.
Definition Header_Get (k : string) (h : headers) : string :=
  match h !! CanonicalHeaderKey k with Some (v :: _) => v | _ => "" end.

Inductive piece := Doc (j : json) | Text (s : string).

(** [Conn] is the server's own writer: the header is sent with the first final
    status and later changes of it are lost, as are further statuses. *)
Inductive ResponseWriter :=
  | Conn (header : headers) (sent : option (Z * headers)) (body : list piece)
  | Buffered (header : headers) (body : list piece) (code : Z) (wroteHeader : bool)
  | Recording (inner : ResponseWriter) (code : Z) (wroteHeader : bool).

(** [w.Header()] and a change of the map it returns. *)
Fixpoint on_Header (f : headers → headers) (w : ResponseWriter) : ResponseWriter :=
  match w with
  | Conn h sent b => Conn (f h) sent b
  | Buffered h b c wh => Buffered (f h) b c wh
  | Recording w c wh => Recording (on_Header f w) c wh
  end.

(** A 1xx status but 101 is sent ahead of the response and does not end its header. *)
Definition informational (code : Z) : bool := (100 <=? code) && (code <=? 199) && negb (code =? 101).

Fixpoint WriteHeader (code : Z) (w : ResponseWriter) : ResponseWriter :=
  match w with
  | Conn h None b => if informational code then Conn h None b else Conn h (Some (code, h)) b
  | Conn h (Some s) b => Conn h (Some s) b
  | Buffered h b c false => Buffered h b code true
  | Buffered h b c true => Buffered h b c true
  | Recording w c false => Recording (WriteHeader code w) code true
  | Recording w c true => Recording w c true
  end.

Fixpoint Write (p : list piece) (w : ResponseWriter) : ResponseWriter :=
  match w with
  | Conn h None b => Conn h (Some (200, h)) (b ++ p)
  | Conn h (Some s) b => Conn h (Some s) (b ++ p)
  | Buffered h b c false => Buffered h (b ++ p) 200 true
  | Buffered h b c true => Buffered h (b ++ p) c true
  | Recording w c false => Recording (Write p w) 200 true
  | Recording w c true => Recording (Write p w) c true
  end.

(** [buf.flushTo(dst)]; the values of a key are appended to those [dst] has. *)
Definition flushTo (buf dst : ResponseWriter) : ResponseWriter :=
  match buf with
  | Buffered h b c _ =>
      let dst := on_Header (λ own, union_with (λ old new, Some (old ++ new)%list) own h) dst in
      let dst := if 0 <? c then WriteHeader c dst else dst in
      Write b dst
  | _ => dst
  end.

Record response := mkResponse { StatusCode : Z; rsp_Header : headers; rsp_Body : list piece }.

(** What the client receives: a handler that wrote nothing answers 200. *)
Definition delivered (w : ResponseWriter) : option response :=
  match w with
  | Conn h (Some (c, h')) b => Some (mkResponse c h' b)
  | Conn h None b => Some (mkResponse 200 h b)
  | _ => None
  end.
Definition fresh : ResponseWriter := Conn ∅ None [].

(** ** Problem documents: httperror *)

Definition ErrorTypeALREADYEXISTS : string := "https://dcm-project.github.io/problems/already-exists".
Definition ErrorTypeINTERNAL : string := "https://dcm-project.github.io/problems/internal".
Definition ErrorTypeINVALIDARGUMENT : string := "https://dcm-project.github.io/problems/invalid-argument".
Definition ErrorTypeNOTFOUND : string := "https://dcm-project.github.io/problems/not-found".
Definition ErrorTypePERMISSIONDENIED : string := "https://dcm-project.github.io/problems/permission-denied".
Definition ErrorTypeUNAUTHENTICATED : string := "https://dcm-project.github.io/problems/unauthenticated".
Definition ErrorTypeUNAVAILABLE : string := "https://dcm-project.github.io/problems/unavailable".
Definition ErrorTypeUNPROCESSABLEENTITY : string := "https://dcm-project.github.io/problems/unprocessable-entity".

Definition ErrorTypes : list string :=
  [ErrorTypeALREADYEXISTS; ErrorTypeINTERNAL; ErrorTypeINVALIDARGUMENT; ErrorTypeNOTFOUND;
   ErrorTypePERMISSIONDENIED; ErrorTypeUNAUTHENTICATED; ErrorTypeUNAVAILABLE; ErrorTypeUNPROCESSABLEENTITY].
Definition ErrorType_Valid (t : string) : bool := bool_decide (t ∈ ErrorTypes).

Definition InternalTitle : string := "Internal Server Error".
Definition InternalDetail : string := "An unexpected internal error occurred".

Record ProblemFields := mkProblem { pf_Type : string; pf_Status : Z; pf_Title : string; pf_Detail : string }.

Definition mapErrorType (t : string) : Z * string :=
  if t =s? ErrorTypeINVALIDARGUMENT then (400, "Invalid argument")
  else if t =s? ErrorTypeUNAUTHENTICATED then (401, "Unauthenticated")
  else if t =s? ErrorTypePERMISSIONDENIED then (403, "Permission denied")
  else if t =s? ErrorTypeNOTFOUND then (404, "Not found")
  else if t =s? ErrorTypeALREADYEXISTS then (409, "Already exists")
  else if t =s? ErrorTypeUNPROCESSABLEENTITY then (422, "Unprocessable entity")
  else if t =s? ErrorTypeINTERNAL then (500, InternalTitle)
  else if t =s? ErrorTypeUNAVAILABLE then (503, "Service unavailable")
  else (500, InternalTitle).

Definition Problem (errType detail : string) : ProblemFields :=
  let errType := if negb (ErrorType_Valid errType) then ErrorTypeINTERNAL else errType in
  let '(status, title) := mapErrorType errType in
  let detail := if errType =s? ErrorTypeINTERNAL then InternalDetail else detail in
  mkProblem errType status title detail.

Definition Body (p : ProblemFields) (instance : option string) : AgentApi.Error :=
  AgentApi.mkError (Some (pf_Detail p)) instance (Some (pf_Status p)) (pf_Title p) (pf_Type p).

Definition marshalFailBody : json :=
  JObject [("type", JString ErrorTypeINTERNAL); ("title", JString InternalTitle);
           ("status", JNumber "500"); ("detail", JString InternalDetail)].

(** ** Requests and the state of an exchange *)

Record JWTClaims := mkClaims { Subject : string; PreferredUsername : string }.

(** The values of the request's context; [c_outcome]: it holds the pointer to
    the exchange's [Outcome]. *)
Record context := mkCtx {
  c_uri : option string;
  c_start : option Z;
  c_outcome : bool;
  c_claims : option JWTClaims
}.
Definition Background : context := mkCtx None None false None.

(** [r_Body] is the JSON value at the start of the body, if there is one. *)
Record request := mkRequest {
  r_Method : string;
  r_Path : string;
  r_RawPath : string;
  r_RequestURI : string;
  r_Header : headers;
  r_Query : list (string * string);
  r_Body : option json;
  r_ctx : context
}.
Definition WithContext (c : context) (r : request) : request :=
  mkRequest (r_Method r) (r_Path r) (r_RawPath r) (r_RequestURI r) (r_Header r) (r_Query r) (r_Body r) c.

Record Outcome := mkOutcome { Status : Z; Claims : option JWTClaims }.

Inductive entry :=
  | LogPanic (text : string)
  | LogAuthFailure (msg err method path : string)
  | LogAuthenticated (sub user method path : string)
  | LogRequest (method path : string) (status duration : Z) (sub user : option string)
  | LogError (msg : string).

Inductive panic := ErrAbortHandler | PanicValue (text : string).
Inductive ended := Returned | Panicking (p : panic).

Record exchange (W : Type) := mkExchange {
  writer : ResponseWriter;
  outcome : Outcome;
  log : list entry;
  world : W
}.
Arguments mkExchange {W}. Arguments writer {W}. Arguments outcome {W}. Arguments log {W}. Arguments world {W}.

Definition handler (W : Type) := request → exchange W → ended * exchange W.

(** The clock at the calls of [time.Now] and [time.Since], and whether the
    request's deadline had passed when the inner handler returned. *)
Record env := mkEnv { received : Z; answered : Z; deadline_passed : bool }.

Section Exchange.
Context {W : Type}.
Implicit Types (s : exchange W) (next : handler W).

Definition set_writer (w : ResponseWriter) s : exchange W := mkExchange w (outcome s) (log s) (world s).
Definition set_outcome (o : Outcome) s : exchange W := mkExchange (writer s) o (log s) (world s).
Definition logs (l : entry) s : exchange W := mkExchange (writer s) (outcome s) (log s ++ [l]) (world s).
Definition set_world (x : W) s : exchange W := mkExchange (writer s) (outcome s) (log s) x.
Definition on_writer (f : ResponseWriter → ResponseWriter) s : exchange W := set_writer (f (writer s)) s.

Definition newline : piece := Text (String (Ascii.ascii_of_nat 10) "").

(** [httperror.Write] *)
Definition WriteProblem (p : ProblemFields) (instance : option string) s : exchange W :=
  let '(status, body, s) :=
    match encode AgentApi.cError (Body p instance) with
    | Some j => (pf_Status p, j, s)
    | None => (500, marshalFailBody, logs (LogError "failed to marshal error response") s)
    end in
  on_writer (λ w, Write [Doc body; newline] (WriteHeader status
    (on_Header (Header_Set "Content-Type" "application/problem+json") w))) s.

Definition WriteType (errType detail : string) (instance : option string) s : exchange W :=
  WriteProblem (Problem errType detail) instance s.

Definition WriteInvalidArgument (r : request) (detail : string) s : exchange W :=
  WriteType ErrorTypeINVALIDARGUMENT detail (Some (r_RequestURI r)) s.

(** ** Middleware *)

Definition PanicRecovery next : handler W := λ r s,
  match next r s with
  | (Returned, s) => (Returned, s)
  | (Panicking ErrAbortHandler, s) => (Panicking ErrAbortHandler, s)
  | (Panicking (PanicValue text), s) =>
      let s := logs (LogPanic text) s in
      (Returned, WriteType ErrorTypeINTERNAL text (Some (r_RequestURI r)) s)
  end.

(** [requestctx.Middleware] *)
Definition ContextMiddleware (e : env) next : handler W := λ r s,
  let ctx := mkCtx (Some (r_RequestURI r)) (Some (received e)) true (c_claims (r_ctx r)) in
  next (WithContext ctx r) (set_outcome (mkOutcome 0 None) s).

Definition WithClaims (claims : JWTClaims) (c : context) : context :=
  mkCtx (c_uri c) (c_start c) (c_outcome c) (Some claims).

Definition RequestLogger next : handler W := λ r s,
  let '(fin, s1) := next r (on_writer (λ w, Recording w 200 false) s) in
  let '(w, recorded) := match writer s1 with Recording w c _ => (w, c) | w => (w, 200) end in
  let code := match fin with Panicking _ => 500 | Returned => recorded end in
  let s2 := set_writer w s1 in
  let s3 :=
    if c_outcome (r_ctx r) then
      let s3 := set_outcome (mkOutcome code (Claims (outcome s2))) s2 in
      match c_claims (r_ctx r) with
      | Some claims => set_outcome (mkOutcome (Status (outcome s3)) (Some claims)) s3
      | None => s3
      end
    else s2 in
  (fin, s3).

(** [auth.LogRequest] *)
Definition LogRequest_ (e : env) (claims : option JWTClaims) (r : request) (status start : Z) s : exchange W :=
  logs (LogRequest (r_Method r) (r_Path r) status (answered e - start)
    (Subject <$> claims)
    (claims ≫= λ c, if PreferredUsername c =s? "" then None else Some (PreferredUsername c))) s.

Definition detailRequestTimeout : string := "request timeout exceeded".

Definition RequestTimeout (e : env) (timeout : Z) next : handler W := λ r s,
  let w := writer s in
  let start := default (received e) (c_start (r_ctx r)) in
  let has_outcome := c_outcome (r_ctx r) in
  let logOutcome (status : Z) s :=
    let claims := match (if has_outcome then Claims (outcome s) else None) with
                  | Some c => Some c
                  | None => c_claims (r_ctx r)
                  end in
    LogRequest_ e claims r status start s in
  match next r (set_writer (Buffered ∅ [] 0 false) s) with
  | (Panicking p, s) =>
      let status := if has_outcome && negb (Status (outcome s) =? 0) then Status (outcome s) else 500 in
      (Panicking p, logOutcome status (set_writer w s))
  | (Returned, s) =>
      if (0 <? timeout) && deadline_passed e then
        (Returned, logOutcome 503
          (WriteType ErrorTypeUNAVAILABLE detailRequestTimeout (Some (r_RequestURI r)) (set_writer w s)))
      else
        let buf := writer s in
        let code := match buf with Buffered _ _ c _ => c | _ => 0 end in
        let finalStatus := if has_outcome && negb (Status (outcome s) =? 0) then Status (outcome s) else code in
        (Returned, logOutcome finalStatus (set_writer (flushTo buf w) s))
  end.

(** ** Authentication *)

Definition healthPath : string := "/api/v1alpha1/health".
Definition invalidTokenDetail : string := "invalid Bearer token".
Definition bearerPrefix : string := "bearer ".

(** The folds of the prefix's letters are ASCII, so [strings.EqualFold] with it
    compares lower-case bytes. *)
Definition ExtractBearerToken (r : request) : string + string :=
  let authHeader := Header_Get "Authorization" (r_Header r) in
  if authHeader =s? "" then inl "missing Authorization header"
  else if (String.length authHeader <? String.length bearerPrefix)%nat
          || negb (ToLower (String.substring 0 (String.length bearerPrefix) authHeader) =s? bearerPrefix)
  then inl "authorization scheme is not Bearer"
  else
    let token := drop_str (String.length bearerPrefix) authHeader in
    if token =s? "" then inl "empty Bearer token" else inr token.

(** What a [JWTValidator] answers. *)
Inductive validated := VClaims (c : JWTClaims) | VError (err : string) | VPanic (p : panic).

Definition logAuthFailure (r : request) (msg err : string) s : exchange W :=
  logs (LogAuthFailure msg err (r_Method r) (r_Path r)) s.

Definition writeAuthError (r : request) (detail : string) s : exchange W :=
  let s := on_writer (on_Header (Header_Set "WWW-Authenticate" "Bearer")) s in
  let s := WriteType ErrorTypeUNAUTHENTICATED detail (c_uri (r_ctx r)) s in
  if c_outcome (r_ctx r) then set_outcome (mkOutcome 401 (Claims (outcome s))) s else s.

Definition is_health (r : request) : bool := (r_Method r =s? "GET") && (r_Path r =s? healthPath).

(** [auth.Middleware] *)
Definition AuthMiddleware (Validate : string → validated) next : handler W := λ r s,
  if is_health r then next r s
  else
    match ExtractBearerToken r with
    | inl err =>
        (Returned, writeAuthError r invalidTokenDetail (logAuthFailure r "bearer token extraction failed" err s))
    | inr token =>
        match Validate token with
        | VPanic p => (Panicking p, s)
        | VError err =>
            (Returned, writeAuthError r invalidTokenDetail (logAuthFailure r "jwt validation failed" err s))
        | VClaims claims =>
            let s := logs (LogAuthenticated (Subject claims) (PreferredUsername claims) (r_Method r) (r_Path r)) s in
            next (WithContext (WithClaims claims (r_ctx r)) r) s
        end
    end.

Definition DisabledMiddleware next : handler W := next.

(** The chain [Server.Run] builds around [inner]; [None]: authentication is
    disabled. *)
Definition chain (e : env) (timeout : Z) (auth : option (string → validated)) (inner : handler W) : handler W :=
  PanicRecovery (ContextMiddleware e (RequestTimeout e timeout
    ((match auth with Some v => AuthMiddleware v | None => DisabledMiddleware end) (RequestLogger inner)))).
End Exchange.

(** ** The OIDC validator *)

Section Oidc.
(** [Verify] is go-oidc's check of signature, expiry, issuer and audience: the
    token's subject and claims. *)
Context (Verify : string → string + (string * json)).

Definition cJWTClaims : codec JWTClaims :=
  cstruct (mkClaims "" "")
    [required "Subject" cstring Subject (λ v '(mkClaims _ b), mkClaims v b);
     required "preferred_username" cstring PreferredUsername (λ v '(mkClaims a _), mkClaims a v)].

(** [json_error] is the text of [encoding/json]'s error. *)
Definition OIDCValidate (json_error : json → string) (rawToken : string) : validated :=
  match Verify rawToken with
  | inl err => VError ("verifying token: " +:+ err)
  | inr (subject, payload) =>
      match decode cJWTClaims (zero cJWTClaims) payload with
      | None => VError ("extracting claims: " +:+ json_error payload)
      | Some claims => VClaims (mkClaims subject (PreferredUsername claims))
      end
  end.
End Oidc.

(** ** What handlers may do to the exchange *)

Lemma final_status c : 200 ≤ c ≤ 999 → informational c = false.
Proof. unfold informational. lia. Qed.

Inductive write_op : ResponseWriter → ResponseWriter → Prop :=
  | op_header f w : write_op w (on_Header f w)
  | op_status c w : 200 ≤ c ≤ 999 → write_op w (WriteHeader c w)
  | op_body p w : write_op w (Write p w).

Definition is_request (l : entry) : bool := match l with LogRequest _ _ _ _ _ _ => true | _ => false end.
Definition audit (l : list entry) : list entry := filter is_request l.

Lemma audit_app l l' : audit (l ++ l') = (audit l ++ audit l')%list.
Proof. apply filter_app. Qed.

(** A handler below the middleware answers through its writer, with final
    statuses that [net/http] accepts; the outcome and the audit log are not its
    business. *)
Definition proper {W} (next : handler W) : Prop := ∀ r s,
  rtc write_op (writer s) (writer (next r s).2) ∧ outcome (next r s).2 = outcome s ∧
  audit (log (next r s).2) = audit (log s).

(** The recorder and the buffer below it agree. *)
Lemma recording_inv w :
  rtc write_op (Recording (Buffered ∅ [] 0 false) 200 false) w →
  ∃ h b c wh, w = Recording (Buffered h b (if wh : bool then c else 0) wh) c wh ∧ 200 ≤ c ≤ 999 ∧
    (wh = false → c = 200 ∧ b = []).
Proof.
  intros H. remember (Recording _ 200 false) as w0 eqn:E0.
  assert (∃ h b c (wh : bool), w0 = Recording (Buffered h b (if wh then c else 0) wh) c wh ∧ 200 ≤ c ≤ 999 ∧
    (wh = false → c = 200 ∧ b = [])) as I by (subst; exists ∅, [], 200, false; split_and!; [done|lia|lia|done]).
  clear E0. induction H as [w|w w1 w2 Hop _ IH]; [done|]. apply IH. clear IH.
  destruct I as (h & b & c & wh & -> & Hc & Hwh).
  inversion Hop as [f|c'|p]; subst; clear Hop.
  - exists (f h), b, c, wh. done.
  - destruct wh; [exists h, b, c, true|exists h, b, c', true]; done.
  - destruct wh; [exists h, (b ++ p)%list, c, true|exists h, (b ++ p)%list, 200, true]; (split; [done|split; [lia|done]]).
Qed.

(** ** Problems *)

Lemma Problem_internal detail detail' : Problem ErrorTypeINTERNAL detail = Problem ErrorTypeINTERNAL detail'.
Proof. reflexivity. Qed.

Lemma problem_status t d : 400 ≤ pf_Status (Problem t d) ≤ 503.
Proof. unfold Problem, mapErrorType. cases; simpl; lia. Qed.

Lemma problem_encodes t d i : ∃ j, encode AgentApi.cError (Body (Problem t d) i) = Some j.
Proof. destruct i; eexists; reflexivity. Qed.

Definition problem_doc (t d : string) (i : option string) : json :=
  default marshalFailBody (encode AgentApi.cError (Body (Problem t d) i)).

(** A complete problem response on [w]. *)
Definition problem_on (t d : string) (i : option string) (w : ResponseWriter) : ResponseWriter :=
  Write [Doc (problem_doc t d i); newline] (WriteHeader (pf_Status (Problem t d))
    (on_Header (Header_Set "Content-Type" "application/problem+json") w)).

Section Chain.
Context {W : Type}.
Implicit Types (s : exchange W).

Lemma WriteType_eq t d i s : WriteType t d i s = on_writer (problem_on t d i) s.
Proof.
  unfold WriteType, WriteProblem, problem_on, problem_doc. by destruct (problem_encodes t d i) as [j ->].
Qed.

Lemma problem_on_steps t d i w : rtc write_op w (problem_on t d i w).
Proof.
  eapply rtc_l; [apply op_header|]. eapply rtc_l; [apply op_status|apply rtc_once, op_body].
  pose proof (problem_status t d). lia.
Qed.

(** The claims of a request whose token was accepted. *)
Definition authenticated (auth : option (string → validated)) (r : request) : option JWTClaims :=
  match auth with
  | Some Validate =>
      if is_health r then None
      else match ExtractBearerToken r with
           | inr token => match Validate token with VClaims c => Some c | _ => None end
           | inl _ => None
           end
  | None => None
  end.

(** What [RequestTimeout] finds when the handler below it ended: a response in
    the buffer, and its status in the outcome. *)
Definition recorded (claims : option JWTClaims) (fin : ended) s : Prop :=
  ∃ h b c (wh : bool), writer s = Buffered h b (if wh then c else 0) wh ∧ 200 ≤ c ≤ 999 ∧ (wh = false → c = 200 ∧ b = []) ∧
    Claims (outcome s) = claims ∧
    match fin with Returned => Status (outcome s) = c | Panicking _ => Status (outcome s) ∈ [0; 500] end.

Lemma logger_records (inner : handler W) r s :
  proper inner → c_outcome (r_ctx r) = true → writer s = Buffered ∅ [] 0 false → Claims (outcome s) = None →
  let '(fin, s') := RequestLogger inner r s in
  recorded (c_claims (r_ctx r)) fin s' ∧ audit (log s') = audit (log s).
Proof.
  intros Hp Ho Hw Hc. unfold RequestLogger.
  destruct (Hp r (on_writer (λ w, Recording w 200 false) s)) as (Hs & Hout & Hlog).
  destruct (inner r _) as [fin s1]. cbn [snd] in *. unfold on_writer in Hs. cbn [writer set_writer] in Hs.
  rewrite Hw in Hs. destruct (recording_inv _ Hs) as (h & b & c & wh & Hw1 & Hrange & Hempty).
  rewrite Hw1, Ho. split.
  - exists h, b, c, wh. destruct (c_claims (r_ctx r)); simpl; rewrite ?Hout; simpl;
      (split_and!; [done|lia|lia|done..| |]); try done; destruct fin; set_solver.
  - destruct (c_claims (r_ctx r)); simpl; by rewrite Hlog.
Qed.

Lemma auth_records (auth : option (string → validated)) (inner : handler W) r s :
  proper inner → c_outcome (r_ctx r) = true → c_claims (r_ctx r) = None →
  writer s = Buffered ∅ [] 0 false → Status (outcome s) = 0 → Claims (outcome s) = None →
  let '(fin, s') := (match auth with Some v => AuthMiddleware v | None => DisabledMiddleware end) (RequestLogger inner) r s in
  recorded (authenticated auth r) fin s' ∧ audit (log s') = audit (log s).
Proof.
  intros Hp Ho Hcl Hw Hst Hc. unfold authenticated. destruct auth as [Validate|].
  2:{ unfold DisabledMiddleware. rewrite <-Hcl. by apply logger_records. }
  assert (∀ msg err, let s' := writeAuthError r invalidTokenDetail (logAuthFailure r msg err s) in
    recorded None Returned s' ∧ audit (log s') = audit (log s)) as Hdeny.
  { intros msg err. unfold writeAuthError, logAuthFailure. rewrite Ho, WriteType_eq. unfold on_writer, problem_on. simpl.
    rewrite Hw. split; [|by rewrite audit_app, app_nil_r]. eexists _, _, 401, true. by split_and!. }
  unfold AuthMiddleware. destruct (is_health r); [rewrite <-Hcl; by apply logger_records|].
  destruct (ExtractBearerToken r) as [err|token]; [apply Hdeny|]. destruct (Validate token) as [claims|err|p]; [|apply Hdeny|].
  - pose proof (logger_records inner (WithContext (WithClaims claims (r_ctx r)) r)
      (logs (LogAuthenticated (Subject claims) (PreferredUsername claims) (r_Method r) (r_Path r)) s) Hp Ho Hw Hc) as H.
    destruct (RequestLogger _ _ _) as [fin s']. destruct H as [H1 H2]. split; [done|]. rewrite H2. simpl.
    by rewrite audit_app, app_nil_r.
  - split; [|done]. exists ∅, [], 200, false. rewrite Hst. split_and!; [done..|set_solver].
Qed.

Lemma flush_delivers h b c (wh : bool) :
  200 ≤ c ≤ 999 → (wh = false → c = 200 ∧ b = []) →
  delivered (flushTo (Buffered h b (if wh then c else 0) wh) fresh) = Some (mkResponse c h b).
Proof.
  intros Hc Hwh. unfold flushTo, fresh.
  assert (union_with (λ old new : list string, Some (old ++ new)%list) ∅ h = h) as Hh.
  { apply map_eq. intros i. unfold headers in *. rewrite lookup_union_with, lookup_empty. by destruct (h !! i). }
  destruct wh.
  - rewrite (proj2 (Z.ltb_lt 0 c)) by lia. simpl. by rewrite final_status, Hh by done.
  - destruct (Hwh eq_refl) as [-> ->]. simpl. by rewrite Hh.
Qed.

Lemma problem_delivers t d i :
  delivered (problem_on t d i fresh) =
  Some (mkResponse (pf_Status (Problem t d)) {[ "Content-Type" := ["application/problem+json"] ]} [Doc (problem_doc t d i); newline]).
Proof.
  pose proof (problem_status t d). unfold problem_on, fresh. simpl. by rewrite final_status by lia.
Qed.

(** C20: Every request is audited once, as it was answered.  Around any inner
    handler that answers through its writer with final statuses (200 to 999) and
    leaves the audit log alone, with or without authentication: the server adds exactly one audit
    entry, with the request's method and path, the time since it was received
    and the identity of the token that was accepted (none if no token was
    checked or accepted).  The status in the entry is the status the client
    receives, also when the handler panics, the deadline passes or the token is
    rejected.  Only [http.ErrAbortHandler] leaves the server, and then nothing
    was sent. *)
Theorem every_request_audited e timeout auth (inner : handler W) r s :
  proper inner → writer s = fresh → c_claims (r_ctx r) = None →
  let '(fin, s') := chain e timeout auth inner r s in
  let claims := authenticated auth r in
  ∃ status,
    audit (log s') = (audit (log s) ++ [LogRequest (r_Method r) (r_Path r) status (answered e - received e)
      (Subject <$> claims) (claims ≫= λ c, if PreferredUsername c =s? "" then None else Some (PreferredUsername c))])%list ∧
    match fin with
    | Returned => StatusCode <$> delivered (writer s') = Some status
    | Panicking p => p = ErrAbortHandler ∧ writer s' = fresh ∧ status = 500
    end.
Proof.
  intros Hp Hw Hcl. unfold chain, PanicRecovery, ContextMiddleware, RequestTimeout.
  cbn [c_start r_ctx WithContext c_outcome default].
  set (r1 := WithContext _ r). set (s1 := set_writer _ (set_outcome _ s)).
  pose proof (auth_records auth inner r1 s1 Hp eq_refl Hcl eq_refl eq_refl eq_refl) as H.
  destruct ((match auth with Some v => AuthMiddleware v | None => DisabledMiddleware end) (RequestLogger inner) r1 s1)
    as [fin s2]. destruct H as [(h & b & c & wh & Hw2 & Hc & Hwh & Hcs & Hst) Hlog].
  change (authenticated auth r1) with (authenticated auth r) in Hcs. cbv zeta.
  change (writer (set_outcome (mkOutcome 0 None) s)) with (writer s). rewrite Hw.
  assert ((match authenticated auth r with Some x => Some x | None => None end) = authenticated auth r) as Hid
    by (by destruct (authenticated auth r)).
  destruct fin as [|p].
  - assert ((Status (outcome s2) =? 0) = false) as -> by (apply Z.eqb_neq; lia). cbn [andb negb].
    destruct ((0 <? timeout) && deadline_passed e).
    + rewrite WriteType_eq. cbn. rewrite ?Hcs, ?Hcl, ?Hid. exists 503. by rewrite audit_app, Hlog.
    + cbn. rewrite ?Hcs, ?Hcl, ?Hid. exists c. rewrite audit_app, Hlog, Hst. split; [done|].
      by rewrite Hw2, flush_delivers.
  - assert ((if true && negb (Status (outcome s2) =? 0) then Status (outcome s2) else 500) = 500) as ->
      by (apply elem_of_cons in Hst as [-> | ->%list_elem_of_singleton]; done).
    destruct p as [|text].
    + cbn. rewrite ?Hcs, ?Hcl, ?Hid. exists 500. by rewrite audit_app, Hlog.
    + rewrite WriteType_eq. cbn. rewrite ?Hcs, ?Hcl, ?Hid. exists 500. rewrite !audit_app, Hlog. simpl. by rewrite app_nil_r.
Qed.
End Chain.

(** A request that needs a token and has none that is accepted. *)
Definition rejected (auth : option (string → validated)) (r : request) : bool :=
  match auth with
  | Some Validate =>
      negb (is_health r) &&
      match ExtractBearerToken r with
      | inl _ => true
      | inr token => match Validate token with VError _ => true | _ => false end
      end
  | None => false
  end.

Definition unauthorized (r : request) : response :=
  mkResponse 401 (Header_Set "Content-Type" "application/problem+json" (Header_Set "WWW-Authenticate" "Bearer" ∅))
    [Doc (problem_doc ErrorTypeUNAUTHENTICATED invalidTokenDetail (Some (r_RequestURI r))); newline].
Definition timed_out (r : request) : response :=
  mkResponse 503 (Header_Set "Content-Type" "application/problem+json" ∅)
    [Doc (problem_doc ErrorTypeUNAVAILABLE detailRequestTimeout (Some (r_RequestURI r))); newline].

(** It is answered 401 (or 503 when the deadline has passed) with a fixed text
    whatever was wrong with the token, and no handler sees it. *)
Lemma rejected_answer {W} e timeout auth (inner : handler W) r s :
  rejected auth r = true → writer s = fresh →
  let '(fin, s') := chain e timeout auth inner r s in
  fin = Returned ∧ world s' = world s ∧
  delivered (writer s') = Some (if (0 <? timeout) && deadline_passed e then timed_out r else unauthorized r) ∧
  ∀ inner', chain e timeout auth inner' r s = (fin, s').
Proof.
  unfold rejected. destruct auth as [Validate|]; [|done]. intros [Hh Hr]%andb_true_iff Hw. apply negb_true_iff in Hh.
  unfold chain, PanicRecovery, ContextMiddleware, RequestTimeout, AuthMiddleware.
  change (is_health (WithContext _ r)) with (is_health r). rewrite Hh.
  change (ExtractBearerToken (WithContext _ r)) with (ExtractBearerToken r).
  destruct (ExtractBearerToken r) as [err|token]; [|destruct (Validate token) as [?|err|?]; try done];
    (destruct ((0 <? timeout) && deadline_passed e); cbv zeta;
     unfold writeAuthError; rewrite !WriteType_eq;
     (split; [done|split; [done|split; [|done]]]); cbn; rewrite Hw; reflexivity).
Qed.

(** The request as the handler below the middleware receives it, if it does. *)
Definition admitted (e : env) (auth : option (string → validated)) (r : request) : option request :=
  let ctx := mkCtx (Some (r_RequestURI r)) (Some (received e)) true (c_claims (r_ctx r)) in
  match auth with
  | None => Some (WithContext ctx r)
  | Some Validate =>
      if is_health r then Some (WithContext ctx r)
      else match ExtractBearerToken r with
           | inr token =>
               match Validate token with
               | VClaims c => Some (WithContext (WithClaims c ctx) r)
               | _ => None
               end
           | inl _ => None
           end
  end.

(** In time, the client gets what that handler wrote. *)
Lemma admitted_answer {W} e timeout auth (inner : handler W) r r' s h b c v :
  writer s = fresh → (0 <? timeout) && deadline_passed e = false → admitted e auth r = Some r' → 200 ≤ c ≤ 999 →
  (∀ s1, writer s1 = Recording (Buffered ∅ [] 0 false) 200 false → world s1 = world s →
     ∃ s2, inner r' s1 = (Returned, s2) ∧ writer s2 = Recording (Buffered h b c true) c true ∧ world s2 = v) →
  let '(fin, s') := chain e timeout auth inner r s in
  fin = Returned ∧ world s' = v ∧ delivered (writer s') = Some (mkResponse c h b).
Proof.
  intros Hw Hd Ha Hc Hin.
  set (ctx := mkCtx (Some (r_RequestURI r)) (Some (received e)) true (c_claims (r_ctx r))).
  assert (∀ r2 s1, c_outcome (r_ctx r2) = true → r2 = r' → writer s1 = Buffered ∅ [] 0 false → world s1 = world s →
    ∃ s2, RequestLogger inner r2 s1 = (Returned, s2) ∧ writer s2 = Buffered h b c true ∧ world s2 = v ∧ Status (outcome s2) = c) as HL.
  { intros r2 s1 Ho -> Hw1 Hv1. unfold RequestLogger.
    destruct (Hin (on_writer (λ w, Recording w 200 false) s1)) as (s2 & -> & Hw2 & Hv2);
      [unfold on_writer; simpl; by rewrite Hw1|done|].
    rewrite Hw2, Ho. eexists. split; [done|]. by destruct (c_claims (r_ctx r')). }
  assert (∃ s2, (match auth with Some v => AuthMiddleware v | None => DisabledMiddleware end) (RequestLogger inner)
    (WithContext ctx r) (set_writer (Buffered ∅ [] 0 false) (set_outcome (mkOutcome 0 None) s)) = (Returned, s2) ∧
    writer s2 = Buffered h b c true ∧ world s2 = v ∧ Status (outcome s2) = c) as (s2 & Hr & Hw2 & Hv2 & Hs2).
  { unfold admitted in Ha. fold ctx in Ha. destruct auth as [Validate|]; [|injection Ha as Ha; by apply HL].
    unfold AuthMiddleware. change (is_health (WithContext ctx r)) with (is_health r).
    destruct (is_health r); [injection Ha as Ha; by apply HL|].
    change (ExtractBearerToken (WithContext ctx r)) with (ExtractBearerToken r).
    destruct (ExtractBearerToken r) as [|token]; [done|]. destruct (Validate token); [|done..]. injection Ha as Ha. by apply HL. }
  unfold chain, PanicRecovery, ContextMiddleware, RequestTimeout. fold ctx. rewrite Hr, Hd. cbn.
  rewrite Hv2, Hw2, Hw. split_and!; [done..|]. by apply (flush_delivers h b c true).
Qed.

(** A handler that neither reads nor changes the state behind it. *)
Definition blind {W} (h : handler W) (r : request) : Prop := ∀ s v,
  h r (set_world v s) = (let '(fin, s') := h r s in (fin, set_world v s')) ∧ world (h r s).2 = world s.

Lemma chain_blind {W} e timeout auth (inner : handler W) r :
  (∀ ctx, blind inner (WithContext ctx r)) → blind (chain e timeout auth inner) r.
Proof.
  intros Hb. assert (∀ ctx, blind (RequestLogger inner) (WithContext ctx r)) as HL.
  { intros ctx s v. unfold RequestLogger.
    destruct (Hb ctx (on_writer (λ w, Recording w 200 false) s) v) as [H1 H2].
    change (on_writer _ (set_world v s)) with (set_world v (on_writer (λ w, Recording w 200 false) s)). rewrite H1.
    clear H1. destruct (inner (WithContext ctx r) (on_writer _ s)) as [fin s1]. cbn in *.
    destruct (c_outcome ctx), (c_claims ctx), (writer s1) eqn:E; cbn; rewrite ?E; (split; [reflexivity|exact H2]). }
  assert (∀ ctx, blind ((match auth with Some v => AuthMiddleware v | None => DisabledMiddleware end) (RequestLogger inner))
    (WithContext ctx r)) as HA.
  { intros ctx s v. destruct auth as [Validate|]; [|apply HL]. unfold AuthMiddleware.
    destruct (is_health _); [apply HL|]. unfold writeAuthError, logAuthFailure.
    destruct (ExtractBearerToken _) as [err|token];
      [|destruct (Validate token) as [claims|err|p]; [|by rewrite !WriteType_eq; destruct (c_outcome _)|done]].
    - rewrite !WriteType_eq. by destruct (c_outcome _).
    - apply (HL (WithClaims claims ctx) (logs (LogAuthenticated (Subject claims) (PreferredUsername claims) (r_Method r) (r_Path r)) s)). }
  intros s v. unfold chain, PanicRecovery, ContextMiddleware, RequestTimeout. cbv zeta.
  destruct (HA (mkCtx (Some (r_RequestURI r)) (Some (received e)) true (c_claims (r_ctx r)))
    (set_writer (Buffered ∅ [] 0 false) (set_outcome (mkOutcome 0 None) s)) v) as [H1 H2].
  change (set_writer (Buffered ∅ [] 0 false) (set_outcome (mkOutcome 0 None) (set_world v s)))
    with (set_world v (set_writer (Buffered ∅ [] 0 false) (set_outcome (mkOutcome 0 None) s))).
  rewrite H1. clear H1.
  destruct ((match auth with Some v => AuthMiddleware v | None => DisabledMiddleware end) (RequestLogger inner) _
    (set_writer (Buffered ∅ [] 0 false) (set_outcome (mkOutcome 0 None) s))) as [fin s1]. cbn in *.
  destruct fin as [|[|text]]; [destruct ((0 <? timeout) && deadline_passed e)| |]; rewrite ?WriteType_eq; (split; [reflexivity|exact H2]).
Qed.

(** ** A request with a handler that writes a text *)

Module HttpRun.
Definition hello : handler unit := λ _ s, (Returned, on_writer (Write [Text "hello"]) s).
Lemma hello_proper : proper hello.
Proof. intros r s. split_and!; [|done..]. apply rtc_once, op_body. Qed.

Definition validate (token : string) : validated :=
  if token =s? "t1" then VClaims (mkClaims "alice" "") else VError "unknown token".
Definition request_with (t : string) : request :=
  mkRequest "GET" "/api/v1alpha1/providers" "" "/api/v1alpha1/providers" {[ "Authorization" := ["Bearer " +:+ t] ]} [] None Background.
Definition clock : env := mkEnv 10 15 false.
Definition start : exchange unit := mkExchange fresh (mkOutcome 0 None) [] tt.

Lemma every_request_audited_witness :
  let '(fin, s') := chain clock 30 (Some validate) hello (request_with "t1") start in
  ∃ status, audit (log s') = [LogRequest "GET" "/api/v1alpha1/providers" status 5 (Some "alice") None] ∧
    fin = Returned ∧ StatusCode <$> delivered (writer s') = Some status.
Proof.
  pose proof (every_request_audited clock 30 (Some validate) hello (request_with "t1") start hello_proper eq_refl eq_refl) as H.
  assert ((chain clock 30 (Some validate) hello (request_with "t1") start).1 = Returned) as Hf by (by vm_compute).
  assert (authenticated (Some validate) (request_with "t1") = Some (mkClaims "alice" "")) as Ha by (by vm_compute).
  destruct (chain _ _ _ _ _ _) as [fin s']. cbn [fst] in Hf. subst fin. cbv zeta in H. rewrite Ha in H.
  destruct H as (status & Hl & Hd). exists status. split; [exact Hl|]. split; [reflexivity|exact Hd].
Defined.
End HttpRun.
