(* ===== verification/Api.v ===== *)
(** * The agent's API: generated server, handlers and client

    src/internal/api/server/server.gen.go (parameter binding, the strict
    handlers, the response objects and the routes), src/internal/handler, the
    health service, and src/pkg/client/client.gen.go (how a client reads the
    responses), inside the middleware of [Http] and on the provider service of
    [Service].

    Given from outside: chi's choice of a route, the OpenAPI request validator,
    the parameter binding of the oapi-codegen runtime, [url.Parse], and the text
    of JSON documents ([print], [parse]). *)

From Stdlib Require Import Ascii.
From S2P Require Import Prelude GoStrings Url FileStore Provider Health Service Json Encoding Codec ApiTypes Http.
#[local] Open Scope string_scope.
#[local] Open Scope Z_scope.

(** ** internal/health/service.go *)

Definition Health_Status (connected : bool) : AgentApi.Health :=
  let status := if negb connected then "unhealthy" else "healthy" in
  AgentApi.mkHealth (Some "health") (Some status).

Definition status_text (s : ProviderStatus) : string :=
  match s with Ready => "Ready" | Unhealthy => "Unhealthy" | Unavailable => "Unavailable" end.

(** ** Parameters of the operations *)

Record ListProvidersParams := mkListParams { lp_MaxPageSize : option Z; lp_PageToken : option string }.
Record CreateProviderParams := mkCreateParams { cp_Id : option string }.

(** [runtime.BindQueryParameterWithOptions]: a required parameter is missing,
    or its text has the wrong form. *)
Inductive bind_error := RequiredParameterError | BindFormatError (text : string).

Definition RequiredParamError (ParamName : string) : string :=
  "Query argument " +:+ ParamName +:+ " is required, but not found".
Definition InvalidParamFormatError (ParamName err : string) : string :=
  "Invalid format for parameter " +:+ ParamName +:+ ": " +:+ err.
Definition bind_error_text (ParamName : string) (e : bind_error) : string :=
  match e with
  | RequiredParameterError => RequiredParamError ParamName
  | BindFormatError err => InvalidParamFormatError ParamName err
  end.

(** ** Response objects *)

Section Responses.
Context `{!TimeText Z} (number : string → option string).
Abbreviation Provider := (AgentApi.Provider (T := Z)).
Abbreviation ProviderList := (AgentApi.ProviderList (T := Z)).

Inductive GetHealthResponseObject :=
  | GetHealth200JSONResponse (h : AgentApi.Health)
  | GetHealth400ApplicationProblemPlusJSONResponse (e : AgentApi.Error)
  | GetHealth401ApplicationProblemPlusJSONResponse (e : AgentApi.Error).

Inductive ListProvidersResponseObject :=
  | ListProviders200JSONResponse (l : ProviderList)
  | ListProviders400ApplicationProblemPlusJSONResponse (e : AgentApi.Error)
  | ListProviders401ApplicationProblemPlusJSONResponse (e : AgentApi.Error)
  | ListProviders503ApplicationProblemPlusJSONResponse (e : AgentApi.Error).

Inductive CreateProviderResponseObject :=
  | CreateProvider200JSONResponse (p : Provider)
  | CreateProvider201JSONResponse (p : Provider)
  | CreateProvider400ApplicationProblemPlusJSONResponse (e : AgentApi.Error)
  | CreateProvider401ApplicationProblemPlusJSONResponse (e : AgentApi.Error)
  | CreateProvider409ApplicationProblemPlusJSONResponse (e : AgentApi.Error)
  | CreateProvider422ApplicationProblemPlusJSONResponse (e : AgentApi.Error)
  | CreateProvider503ApplicationProblemPlusJSONResponse (e : AgentApi.Error).

Inductive GetProviderResponseObject :=
  | GetProvider200JSONResponse (p : Provider)
  | GetProvider400ApplicationProblemPlusJSONResponse (e : AgentApi.Error)
  | GetProvider401ApplicationProblemPlusJSONResponse (e : AgentApi.Error)
  | GetProvider404ApplicationProblemPlusJSONResponse (e : AgentApi.Error)
  | GetProvider503ApplicationProblemPlusJSONResponse (e : AgentApi.Error).

(** Each [Visit...Response] encodes into a buffer, and only then writes; the
    result says whether the encoding failed.  Writing to the buffer below does
    not fail. *)
Definition visit (code : Z) (contentType : string) (doc : option json) (w : ResponseWriter) : bool * ResponseWriter :=
  match doc with
  | None => (false, w)
  | Some j => (true, Write [Doc j; newline] (WriteHeader code (on_Header (Header_Set "Content-Type" contentType) w)))
  end.
Definition visit_problem (code : Z) (e : AgentApi.Error) : ResponseWriter → bool * ResponseWriter :=
  visit code "application/problem+json" (encode AgentApi.cError e).

Definition VisitGetHealthResponse (o : GetHealthResponseObject) : ResponseWriter → bool * ResponseWriter :=
  match o with
  | GetHealth200JSONResponse h => visit 200 "application/json" (encode AgentApi.cHealth h)
  | GetHealth400ApplicationProblemPlusJSONResponse e => visit_problem 400 e
  | GetHealth401ApplicationProblemPlusJSONResponse e => visit_problem 401 e
  end.

Definition VisitListProvidersResponse (o : ListProvidersResponseObject) : ResponseWriter → bool * ResponseWriter :=
  match o with
  | ListProviders200JSONResponse l => visit 200 "application/json" (encode (AgentApi.cProviderList number) l)
  | ListProviders400ApplicationProblemPlusJSONResponse e => visit_problem 400 e
  | ListProviders401ApplicationProblemPlusJSONResponse e => visit_problem 401 e
  | ListProviders503ApplicationProblemPlusJSONResponse e => visit_problem 503 e
  end.

Definition VisitCreateProviderResponse (o : CreateProviderResponseObject) : ResponseWriter → bool * ResponseWriter :=
  match o with
  | CreateProvider200JSONResponse p => visit 200 "application/json" (encode (AgentApi.cProvider number) p)
  | CreateProvider201JSONResponse p => visit 201 "application/json" (encode (AgentApi.cProvider number) p)
  | CreateProvider400ApplicationProblemPlusJSONResponse e => visit_problem 400 e
  | CreateProvider401ApplicationProblemPlusJSONResponse e => visit_problem 401 e
  | CreateProvider409ApplicationProblemPlusJSONResponse e => visit_problem 409 e
  | CreateProvider422ApplicationProblemPlusJSONResponse e => visit_problem 422 e
  | CreateProvider503ApplicationProblemPlusJSONResponse e => visit_problem 503 e
  end.

Definition VisitGetProviderResponse (o : GetProviderResponseObject) : ResponseWriter → bool * ResponseWriter :=
  match o with
  | GetProvider200JSONResponse p => visit 200 "application/json" (encode (AgentApi.cProvider number) p)
  | GetProvider400ApplicationProblemPlusJSONResponse e => visit_problem 400 e
  | GetProvider401ApplicationProblemPlusJSONResponse e => visit_problem 401 e
  | GetProvider404ApplicationProblemPlusJSONResponse e => visit_problem 404 e
  | GetProvider503ApplicationProblemPlusJSONResponse e => visit_problem 503 e
  end.
End Responses.

(** ** internal/handler *)

Section Handler.
Context {S IO : Type} `{Store S IO} `{!TimeText Z}.
Context (number : string → option string) (print : json → string) (parse : string → option json).
Context (url_Parse : string → option URL) (marshal_error : string).

Abbreviation Metadata_ := AgentApi.ProviderMetadata.

(** [json.Unmarshal] of the stored metadata. *)
Definition unmarshal_meta (text : string) : option Metadata_ :=
  parse text ≫= decode (AgentApi.cProviderMetadata number) (zero (AgentApi.cProviderMetadata number)).

(** The [v1alpha1.Provider] that [toAPI] fills in. *)
Definition provider_of (p : APIProvider Metadata_) : AgentApi.Provider (T := Z) :=
  AgentApi.mkProvider (Some (api_CreateTime p)) (api_DisplayName _ p) (api_Endpoint _ p) (Some (api_Id p))
    (api_LastCheckTime _ p) (api_Metadata _ p) (api_Name p) (Some <$> api_Operations _ p) (Some (api_Path _ p))
    (api_SchemaVersion _ p) (api_ServiceType p) (Some (status_text (api_Status p))) (Some (api_Type p))
    (Some (api_UpdateTime _ p)).

Definition validationError (field : string) (err : error) (instance : option string) : CreateProviderResponseObject :=
  let detail := "invalid " +:+ field +:+ ": " +:+ error_text err in
  CreateProvider422ApplicationProblemPlusJSONResponse (Body (Problem ErrorTypeUNPROCESSABLEENTITY detail) instance).

Definition GetHealth (connected : bool) : GetHealthResponseObject := GetHealth200JSONResponse (Health_Status connected).

(** The first of the request's fields that is refused, with the reason. *)
Definition refused_field (params : CreateProviderParams) (body : AgentApi.Provider (T := Z)) : option (string * error) :=
  let name := TrimSpace (AgentApi.pr_Name body) in
  let serviceType := TrimSpace (AgentApi.pr_ServiceType body) in
  first_some
    [pair "id" <$> (cp_Id params ≫= ValidateProviderID);
     pair "name" <$> ValidateName name;
     pair "service_type" <$> ValidateServiceType serviceType;
     pair "schema_version" <$> ValidateSchemaVersion (AgentApi.pr_SchemaVersion body);
     pair "endpoint" <$> ValidateEndpoint url_Parse (AgentApi.pr_Endpoint body)].

(** The input of [Register]; [marshal_error] is [json.Marshal]'s, should it fail. *)
Definition registration_input (params : CreateProviderParams) (body : AgentApi.Provider (T := Z)) : result RegistrationInput :=
  metadataRaw ← match AgentApi.pr_Metadata body with
                | None => Ok ""
                | Some m =>
                    match encode (AgentApi.cProviderMetadata number) m with
                    | Some j => Ok (print j)
                    | None => Err (ENew marshal_error)
                    end
                end;
  Ok (mkInput (TrimSpace (AgentApi.pr_Name body)) (AgentApi.pr_Endpoint body) (TrimSpace (AgentApi.pr_ServiceType body))
        (AgentApi.pr_SchemaVersion body) (AgentApi.pr_DisplayName body) (cp_Id params)
        (mjoin (AgentApi.pr_Operations body)) metadataRaw).

Definition CreateProvider (env : Env IO) (instance : option string) (params : CreateProviderParams)
    (body : AgentApi.Provider (T := Z)) (v : Svc S) : result CreateProviderResponseObject * Svc S :=
  match refused_field params body with
  | Some (field, err) => (Ok (validationError field err instance), v)
  | None =>
      match registration_input params body with
      | Err err => (Err err, v)
      | Ok inp =>
          match Register unmarshal_meta env inp v with
          | (Err (EDomain ErrCodeConflict msg), v') =>
              (Ok (CreateProvider409ApplicationProblemPlusJSONResponse (Body (Problem ErrorTypeALREADYEXISTS msg) instance)), v')
          | (Err err, v') => (Err err, v')
          | (Ok (result, isNew), v') =>
              (Ok (if isNew : bool then CreateProvider201JSONResponse (provider_of result)
                   else CreateProvider200JSONResponse (provider_of result)), v')
          end
      end
  end.

Definition ListProviders (env : Env IO) (params : ListProvidersParams) (v : Svc S) : result ListProvidersResponseObject :=
  match Service.ListProviders unmarshal_meta env v with
  | Err err => Err err
  | Ok providers => Ok (ListProviders200JSONResponse (AgentApi.mkProviderList None (Some (Some (provider_of <$> providers)))))
  end.

Definition GetProvider (env : Env IO) (instance : option string) (providerId : string) (v : Svc S)
  : result GetProviderResponseObject :=
  match Service.Get unmarshal_meta env providerId v with
  | Err (EDomain ErrCodeNotFound msg) =>
      Ok (GetProvider404ApplicationProblemPlusJSONResponse (Body (Problem ErrorTypeNOTFOUND msg) instance))
  | Err err => Err err
  | Ok result => Ok (GetProvider200JSONResponse (provider_of result))
  end.
End Handler.

(** ** Routing *)

Definition segments (s : string) : list string := of_chars <$> split_at "/" (chars s).

(** A path parameter: a pattern's segment in braces. *)
Definition param_name (seg : string) : option string :=
  match chars seg with
  | c :: rest =>
      if is_char "{" c && bool_decide (last rest = Some "}"%char) then Some (of_chars (removelast rest)) else None
  | [] => None
  end.

Fixpoint match_segments (pat path : list string) : option (list (string * string)) :=
  match pat, path with
  | [], [] => Some []
  | p :: pat, s :: path =>
      ps ← match_segments pat path;
      match param_name p with
      | Some name => if s =s? "" then None else Some ((name, s) :: ps)
      | None => if p =s? s then Some ps else None
      end
  | _, _ => None
  end.
Definition path_match (pat path : string) : option (list (string * string)) :=
  match_segments (segments pat) (segments path).

(** chi routes on the escaped path when the request has one. *)
Definition routePath (r : request) : string := if r_RawPath r =s? "" then r_Path r else r_RawPath r.

(** What chi's tree finds: a route by its position and the path parameters, or
    its own answer (404 or 405). *)
Inductive chi_match :=
  | ChiHandler (i : nat) (params : list (string * string))
  | ChiFallback (answer : ResponseWriter → ResponseWriter).

Class ChiLaws (chi : list (string * string) → request → chi_match) : Prop := {
  chi_found routes r i ps : chi routes r = ChiHandler i ps →
    ∃ pat, routes !! i = Some (r_Method r, pat) ∧ path_match pat (routePath r) = Some ps;
  chi_answers routes r f : chi routes r = ChiFallback f → ∀ w, rtc write_op w (f w)
}.

Definition BaseURL : string := "/api/v1alpha1".
Definition routes : list (string * string) :=
  [("GET", BaseURL +:+ "/health"); ("GET", BaseURL +:+ "/providers");
   ("POST", BaseURL +:+ "/providers"); ("GET", BaseURL +:+ "/providers/{provider_id}")].

Section Server.
Context {S IO : Type} `{Store S IO} `{!TimeText Z}.
Context (number : string → option string) (print : json → string) (parse : string → option json).
Context (url_Parse : string → option URL) (marshal_error : string).
Context (chi : list (string * string) → request → chi_match) (oapi : request → option string).
Context (bind_int : string → list (string * string) → bind_error + option Z).
Context (bind_string : string → list (string * string) → bind_error + option string).
Context (bind_path : string → bool → string + string).
(** Texts of errors that only appear in messages. *)
Context (json_error : request → string) (encode_error : string) (error_string : error → string).
(** The inputs of the request at hand. *)
Context (env : Env IO) (connected : bool).
Implicit Types (s : exchange (Svc S)) (r : request).

(** The options given to the strict handler in main.go. *)
Definition RequestErrorHandlerFunc r (err : string) s : exchange (Svc S) := WriteInvalidArgument r err s.
Definition ResponseErrorHandlerFunc r (err : string) s : exchange (Svc S) :=
  WriteType ErrorTypeINTERNAL err (Some (r_RequestURI r)) s.

Definition strict_answer {O} (Visit : O → ResponseWriter → bool * ResponseWriter) r (res : result O) s : exchange (Svc S) :=
  match res with
  | Err err => ResponseErrorHandlerFunc r (error_string err) s
  | Ok response =>
      let '(ok, w) := Visit response (writer s) in
      let s := set_writer w s in
      if ok : bool then s else ResponseErrorHandlerFunc r encode_error s
  end.

Definition strict_GetHealth : handler (Svc S) := λ r s,
  (Returned, strict_answer VisitGetHealthResponse r (Ok (GetHealth connected)) s).

Definition strict_ListProviders (params : ListProvidersParams) : handler (Svc S) := λ r s,
  (Returned, strict_answer (VisitListProvidersResponse number) r
    (ListProviders number parse env params (world s)) s).

Definition strict_CreateProvider (params : CreateProviderParams) : handler (Svc S) := λ r s,
  match r_Body r ≫= decode (AgentApi.cProvider number) (zero (AgentApi.cProvider number)) with
  | None => (Returned, RequestErrorHandlerFunc r ("can't decode JSON body: " +:+ json_error r) s)
  | Some body =>
      let '(res, v) := CreateProvider number print parse url_Parse marshal_error env (c_uri (r_ctx r)) params body (world s) in
      (Returned, strict_answer (VisitCreateProviderResponse number) r res (set_world v s))
  end.

Definition strict_GetProvider (providerId : string) : handler (Svc S) := λ r s,
  (Returned, strict_answer (VisitGetProviderResponse number) r
    (GetProvider number parse env (c_uri (r_ctx r)) providerId (world s)) s).

(** The [ServerInterfaceWrapper]: parameters first, then the strict handler;
    there are no operation middlewares. *)
Definition wrapper_ListProviders : handler (Svc S) := λ r s,
  match bind_int "max_page_size" (r_Query r) with
  | inl err => (Returned, WriteInvalidArgument r (bind_error_text "max_page_size" err) s)
  | inr size =>
      match bind_string "page_token" (r_Query r) with
      | inl err => (Returned, WriteInvalidArgument r (bind_error_text "page_token" err) s)
      | inr token => strict_ListProviders (mkListParams size token) r s
      end
  end.

Definition wrapper_CreateProvider : handler (Svc S) := λ r s,
  match bind_string "id" (r_Query r) with
  | inl err => (Returned, WriteInvalidArgument r (bind_error_text "id" err) s)
  | inr id => strict_CreateProvider (mkCreateParams id) r s
  end.

Definition wrapper_GetProvider (params : list (string * string)) : handler (Svc S) := λ r s,
  let urlParam := default "" (snd <$> List.find (λ kv, kv.1 =s? "provider_id") params) in
  match bind_path urlParam (r_RawPath r =s? "") with
  | inl err => (Returned, WriteInvalidArgument r (InvalidParamFormatError "provider_id" err) s)
  | inr providerId => strict_GetProvider providerId r s
  end.

(** [HandlerWithOptions]: the handlers in the order of [routes]. *)
Definition routeHTTP : handler (Svc S) := λ r s,
  match chi routes r with
  | ChiHandler 0 _ => strict_GetHealth r s
  | ChiHandler 1 _ => wrapper_ListProviders r s
  | ChiHandler 2 _ => wrapper_CreateProvider r s
  | ChiHandler _ params => wrapper_GetProvider params r s
  | ChiFallback answer => (Returned, on_writer answer s)
  end.

Definition OapiRequestValidator (next : handler (Svc S)) : handler (Svc S) := λ r s,
  match oapi r with
  | Some err => (Returned, WriteInvalidArgument r err s)
  | None => next r s
  end.

(** The handler that [Server.Run] serves. *)
Definition serve (e : Http.env) (timeout : Z) (auth : option (string → validated)) : handler (Svc S) :=
  chain e timeout auth (OapiRequestValidator routeHTTP).
End Server.

(** ** pkg/client: reading a response *)

Section Client.
Context `{!TimeText Z} (number : string → option string).

(** [json.Unmarshal] of a body that is one document. *)
Definition body_json (b : list piece) : option json :=
  match b with
  | [Doc j] => Some j
  | [Doc j; Text nl] => if TrimSpace nl =s? "" then Some j else None
  | _ => None
  end.
Definition unmarshal {A} (c : codec A) (rsp : response) : option A :=
  body_json (rsp_Body rsp) ≫= decode c (zero c).

(** [strings.Contains(rsp.Header.Get("Content-Type"), "json") && rsp.StatusCode == code] *)
Definition json_with (code : Z) (rsp : response) : bool :=
  Contains (Header_Get "Content-Type" (rsp_Header rsp)) "json" && (StatusCode rsp =? code).

Record GetHealthResponse := mkGetHealthResponse {
  gh_HTTPResponse : response;
  gh_JSON200 : option AgentApi.Health;
  gh_ApplicationproblemJSON400 : option AgentApi.Error;
  gh_ApplicationproblemJSON401 : option AgentApi.Error
}.

Definition ParseGetHealthResponse (rsp : response) : option GetHealthResponse :=
  if json_with 200 rsp then (λ d, mkGetHealthResponse rsp (Some d) None None) <$> unmarshal AgentApi.cHealth rsp
  else if json_with 400 rsp then (λ d, mkGetHealthResponse rsp None (Some d) None) <$> unmarshal AgentApi.cError rsp
  else if json_with 401 rsp then (λ d, mkGetHealthResponse rsp None None (Some d)) <$> unmarshal AgentApi.cError rsp
  else Some (mkGetHealthResponse rsp None None None).

Record ListProvidersResponse := mkListProvidersResponse {
  lp_HTTPResponse : response;
  lp_JSON200 : option (AgentApi.ProviderList (T := Z));
  lp_ApplicationproblemJSON400 : option AgentApi.Error;
  lp_ApplicationproblemJSON401 : option AgentApi.Error;
  lp_ApplicationproblemJSON503 : option AgentApi.Error
}.

Definition ParseListProvidersResponse (rsp : response) : option ListProvidersResponse :=
  let problem (f : option AgentApi.Error → ListProvidersResponse) := f ∘ Some <$> unmarshal AgentApi.cError rsp in
  if json_with 200 rsp then (λ d, mkListProvidersResponse rsp (Some d) None None None) <$> unmarshal (AgentApi.cProviderList number) rsp
  else if json_with 400 rsp then problem (λ d, mkListProvidersResponse rsp None d None None)
  else if json_with 401 rsp then problem (λ d, mkListProvidersResponse rsp None None d None)
  else if json_with 503 rsp then problem (λ d, mkListProvidersResponse rsp None None None d)
  else Some (mkListProvidersResponse rsp None None None None).

Record CreateProviderResponse := mkCreateProviderResponse {
  cr_HTTPResponse : response;
  cr_JSON200 : option (AgentApi.Provider (T := Z));
  cr_JSON201 : option (AgentApi.Provider (T := Z));
  cr_ApplicationproblemJSON400 : option AgentApi.Error;
  cr_ApplicationproblemJSON401 : option AgentApi.Error;
  cr_ApplicationproblemJSON409 : option AgentApi.Error;
  cr_ApplicationproblemJSON422 : option AgentApi.Error;
  cr_ApplicationproblemJSON503 : option AgentApi.Error
}.

Definition ParseCreateProviderResponse (rsp : response) : option CreateProviderResponse :=
  let provider (f : option (AgentApi.Provider (T := Z)) → CreateProviderResponse) := f ∘ Some <$> unmarshal (AgentApi.cProvider number) rsp in
  let problem (f : option AgentApi.Error → CreateProviderResponse) := f ∘ Some <$> unmarshal AgentApi.cError rsp in
  if json_with 200 rsp then provider (λ d, mkCreateProviderResponse rsp d None None None None None None)
  else if json_with 201 rsp then provider (λ d, mkCreateProviderResponse rsp None d None None None None None)
  else if json_with 400 rsp then problem (λ d, mkCreateProviderResponse rsp None None d None None None None)
  else if json_with 401 rsp then problem (λ d, mkCreateProviderResponse rsp None None None d None None None)
  else if json_with 409 rsp then problem (λ d, mkCreateProviderResponse rsp None None None None d None None)
  else if json_with 422 rsp then problem (λ d, mkCreateProviderResponse rsp None None None None None d None)
  else if json_with 503 rsp then problem (λ d, mkCreateProviderResponse rsp None None None None None None d)
  else Some (mkCreateProviderResponse rsp None None None None None None None).

Record GetProviderResponse := mkGetProviderResponse {
  gp_HTTPResponse : response;
  gp_JSON200 : option (AgentApi.Provider (T := Z));
  gp_ApplicationproblemJSON400 : option AgentApi.Error;
  gp_ApplicationproblemJSON401 : option AgentApi.Error;
  gp_ApplicationproblemJSON404 : option AgentApi.Error;
  gp_ApplicationproblemJSON503 : option AgentApi.Error
}.

Definition ParseGetProviderResponse (rsp : response) : option GetProviderResponse :=
  let problem (f : option AgentApi.Error → GetProviderResponse) := f ∘ Some <$> unmarshal AgentApi.cError rsp in
  if json_with 200 rsp then (λ d, mkGetProviderResponse rsp (Some d) None None None None) <$> unmarshal (AgentApi.cProvider number) rsp
  else if json_with 400 rsp then problem (λ d, mkGetProviderResponse rsp None d None None None)
  else if json_with 401 rsp then problem (λ d, mkGetProviderResponse rsp None None d None None)
  else if json_with 404 rsp then problem (λ d, mkGetProviderResponse rsp None None None d None)
  else if json_with 503 rsp then problem (λ d, mkGetProviderResponse rsp None None None None d)
  else Some (mkGetProviderResponse rsp None None None None None).
End Client.

(** ** Paths *)

(** A request's URL as [net/url] parses it: the escaped path is kept when it is
    not the default encoding. *)
Definition url_ok (r : request) : Prop := r_RawPath r = "" ∨ unescape encodePath (chars (r_RawPath r)) = Some (chars (r_Path r)).

Lemma segments_join s : chars s = join_with "/" (chars <$> segments s).
Proof.
  unfold segments. rewrite <-list_fmap_compose, (list_fmap_ext _ id), list_fmap_id, join_split_at; [done|].
  intros i x _. apply chars_of_chars.
Qed.

Lemma match_literal p pat path ps :
  param_name p = None → match_segments (p :: pat) path = Some ps → ∃ path', path = p :: path' ∧ match_segments pat path' = Some ps.
Proof.
  intros Hp. destruct path as [|s path]; [done|]. cbn [match_segments]. destruct (match_segments pat path) eqn:E; [|done].
  simpl. rewrite Hp. case_bool_decide as Hs; [|done]. intros [= ->]. subst. by eexists.
Qed.

Lemma match_param p name pat path ps :
  param_name p = Some name → match_segments (p :: pat) path = Some ps →
  ∃ s path' ps', path = s :: path' ∧ match_segments pat path' = Some ps' ∧ ps = (name, s) :: ps'.
Proof.
  intros Hp. destruct path as [|s path]; [done|]. cbn [match_segments]. destruct (match_segments pat path) as [ps'|] eqn:E; [|done].
  simpl. rewrite Hp. case_bool_decide as Hs; [done|]. intros [= <-]. by eexists _, _, _.
Qed.

Lemma match_end path ps : match_segments [] path = Some ps → path = [].
Proof. by destruct path. Qed.

Lemma match_providers path ps :
  path_match "/api/v1alpha1/providers" path = Some ps → chars path = chars "/api/v1alpha1/providers".
Proof.
  rewrite (segments_join path). unfold path_match.
  assert (segments "/api/v1alpha1/providers" = ["";"api";"v1alpha1";"providers"]) as -> by (by vm_compute). intros Hm.
  apply match_literal in Hm as (p1 & -> & Hm); [|done]. apply match_literal in Hm as (p2 & -> & Hm); [|done].
  apply match_literal in Hm as (p3 & -> & Hm); [|done]. apply match_literal in Hm as (p4 & -> & ->%match_end); [|done].
  by vm_compute.
Qed.

Lemma match_provider path ps :
  path_match "/api/v1alpha1/providers/{provider_id}" path = Some ps →
  ∃ id, chars path = (chars "/api/v1alpha1/providers/" ++ chars id)%list.
Proof.
  rewrite (segments_join path). unfold path_match.
  assert (segments "/api/v1alpha1/providers/{provider_id}" = ["";"api";"v1alpha1";"providers";"{provider_id}"]) as ->
    by (by vm_compute). intros Hm.
  apply match_literal in Hm as (p1 & -> & Hm); [|done]. apply match_literal in Hm as (p2 & -> & Hm); [|done].
  apply match_literal in Hm as (p3 & -> & Hm); [|done]. apply match_literal in Hm as (p4 & -> & Hm); [|done].
  apply (match_param _ "provider_id") in Hm as (id & p5 & ps' & -> & ->%match_end & _); [|by vm_compute].
  by exists id.
Qed.

(** ** The server answers through its writer *)

Lemma strict_answer_steps {S O} (Visit : O → ResponseWriter → bool * ResponseWriter) encode_error error_string r res
    (s : exchange (Svc S)) :
  (∀ o w, rtc write_op w (Visit o w).2) →
  let s' := strict_answer encode_error error_string Visit r res s in
  rtc write_op (writer s) (writer s') ∧ outcome s' = outcome s ∧ log s' = log s ∧ world s' = world s.
Proof.
  intros HV. unfold strict_answer, ResponseErrorHandlerFunc. destruct res as [o|err]; [|rewrite WriteType_eq].
  - specialize (HV o (writer s)). destruct (Visit o (writer s)) as [[] w]; [done|]. cbv beta iota zeta. rewrite WriteType_eq.
    split_and!; [|done..]. etrans; [exact HV|apply problem_on_steps].
  - split_and!; [apply problem_on_steps|done..].
Qed.

Lemma visit_steps code ct doc w : 200 ≤ code ≤ 999 → rtc write_op w (visit code ct doc w).2.
Proof.
  intros Hc. destruct doc; [|done]. simpl. eapply rtc_l; [apply op_header|]. eapply rtc_l; [by apply op_status|].
  apply rtc_once, op_body.
Qed.

Lemma invalid_argument_steps {W} r d (s : exchange W) :
  rtc write_op (writer s) (writer (WriteInvalidArgument r d s)) ∧
  outcome (WriteInvalidArgument r d s) = outcome s ∧ audit (log (WriteInvalidArgument r d s)) = audit (log s).
Proof. unfold WriteInvalidArgument. rewrite WriteType_eq. split_and!; [apply problem_on_steps|done..]. Qed.

(** The answer to a request whose handling failed: nothing of the failure. *)
Definition internal_response (r : request) : response :=
  mkResponse 500 {[ "Content-Type" := ["application/problem+json"] ]}
    [Doc (problem_doc ErrorTypeINTERNAL "" (Some (r_RequestURI r))); newline].

Definition document (code : Z) (contentType : string) (j : json) : response :=
  mkResponse code {[ "Content-Type" := [contentType] ]} [Doc j; newline].

(** The response a strict handler's result becomes. *)
Definition visited {O} (Visit : O → ResponseWriter → bool * ResponseWriter) (r : request) (res : result O) : option response :=
  match res with
  | Ok o => let '(ok, w) := Visit o fresh in if ok : bool then delivered w else Some (internal_response r)
  | Err _ => Some (internal_response r)
  end.

Definition visits {O} (Visit : O → ResponseWriter → bool * ResponseWriter) : Prop :=
  ∀ o, ∃ code ct doc, Visit o = visit code ct doc ∧ 200 ≤ code ≤ 999.

Lemma strict_answer_response {S O} (Visit : O → ResponseWriter → bool * ResponseWriter) encode_error error_string r r' res
    (s : exchange (Svc S)) :
  visits Visit → r_RequestURI r' = r_RequestURI r → writer s = Recording (Buffered ∅ [] 0 false) 200 false →
  ∃ h b c, writer (strict_answer encode_error error_string Visit r' res s) = Recording (Buffered h b c true) c true ∧
    200 ≤ c ≤ 999 ∧ visited Visit r res = Some (mkResponse c h b) ∧
    world (strict_answer encode_error error_string Visit r' res s) = world s.
Proof.
  intros HV HU Hw. unfold strict_answer, visited, ResponseErrorHandlerFunc, internal_response. rewrite HU. destruct res as [o|err].
  - destruct (HV o) as (code & ct & [j|] & -> & Hc); simpl visit; rewrite Hw.
    + eexists _, _, code. split; [reflexivity|]. split; [exact Hc|].
      unfold fresh. simpl. by rewrite final_status.
    + cbv beta iota zeta. rewrite WriteType_eq. eexists _, _, 500. split; [reflexivity|]. split; [lia|]. by split.
  - rewrite WriteType_eq. unfold on_writer. rewrite Hw. eexists _, _, 500. split; [reflexivity|]. split; [lia|]. by split.
Qed.

Lemma create_visits `{!TimeText Z} number : visits (VisitCreateProviderResponse number).
Proof. intros []; by eexists _, _, _. Qed.
Lemma get_visits `{!TimeText Z} number : visits (VisitGetProviderResponse number).
Proof. intros []; by eexists _, _, _. Qed.

Section Server.
Context {S IO : Type} `{Store S IO} `{!TimeText Z}.
Context (number : string → option string) (print : json → string) (parse : string → option json).
Context (url_Parse : string → option URL) (marshal_error : string).
Context (chi : list (string * string) → request → chi_match) `{!ChiLaws chi} (oapi : request → option string).
Context (bind_int : string → list (string * string) → bind_error + option Z).
Context (bind_string : string → list (string * string) → bind_error + option string).
Context (bind_path : string → bool → string + string).
Context (json_error : request → string) (encode_error : string) (error_string : error → string).

Abbreviation routed := (routeHTTP (S := S) (IO := IO) number print parse url_Parse marshal_error chi bind_int bind_string bind_path
  json_error encode_error error_string).
Abbreviation served := (serve (S := S) (IO := IO) number print parse url_Parse marshal_error chi oapi bind_int bind_string bind_path
  json_error encode_error error_string).

Ltac answer_tac :=
  first [apply invalid_argument_steps
        |match goal with |- context [strict_answer ?ee ?es ?V ?r ?res ?s] =>
           let H := fresh in
           pose proof (strict_answer_steps V ee es r res s) as H; cbn [snd] in *;
           destruct H as (H1 & H2 & H3 & _);
             [intros [] w; apply visit_steps; lia|rewrite H2, H3; exact (conj H1 (conj eq_refl eq_refl))]
         end].

Lemma routed_proper env connected : proper (OapiRequestValidator oapi (routed env connected)).
Proof.
  intros r s. unfold OapiRequestValidator. destruct (oapi r); [answer_tac|]. unfold routeHTTP.
  destruct (chi routes r) as [[|[|[|i]]] ps|f] eqn:E.
  - unfold strict_GetHealth. answer_tac.
  - unfold wrapper_ListProviders, strict_ListProviders. destruct (bind_int _ _); [answer_tac|].
    destruct (bind_string _ _); answer_tac.
  - unfold wrapper_CreateProvider, strict_CreateProvider, RequestErrorHandlerFunc. destruct (bind_string _ _); [answer_tac|].
    destruct (_ ≫= _); [|answer_tac]. destruct (CreateProvider _ _ _ _ _ _ _ _ _) as [res v].
    change (writer s) with (writer (set_world v s)). change (outcome s) with (outcome (set_world v s)).
    change (log s) with (log (set_world v s)). answer_tac.
  - unfold wrapper_GetProvider, strict_GetProvider. destruct (bind_path _ _); answer_tac.
  - split_and!; [|done..]. simpl. by eapply chi_answers.
Qed.

(** No escaped spelling of a provider path decodes to the health path. *)
Lemma health_route r i ps :
  is_health r = true → url_ok r → chi routes r = ChiHandler i ps → i = 0%nat.
Proof.
  unfold is_health. intros [Hm Hp]%andb_true_iff Hu Hc. apply bool_decide_eq_true in Hm, Hp.
  destruct (chi_found _ _ _ _ Hc) as (pat & Hr & Hpm). rewrite Hm in Hr. unfold path_match, routePath in Hpm.
  destruct i as [|[|[|[|i]]]]; [done| |done| |by destruct i]; injection Hr as <-; exfalso.
  - apply match_providers in Hpm. destruct Hu as [Hu|Hu]; [rewrite bool_decide_eq_true_2 in Hpm by done|].
    + rewrite Hp in Hpm. by vm_compute in Hpm.
    + revert Hpm. case_bool_decide; intros Hpm; [rewrite Hp in Hpm; by vm_compute in Hpm|].
      rewrite Hpm, Hp in Hu. by vm_compute in Hu.
  - apply match_provider in Hpm as (id & Hpm). revert Hpm. case_bool_decide; [rewrite Hp; by vm_compute|].
    destruct Hu as [Hu|Hu]; [done|]. intros Hpm. rewrite Hpm, Hp in Hu. cbn in Hu. by destruct (unescape encodePath (chars id)).
Qed.

Lemma health_blind env connected r : is_health r = true → url_ok r → blind (OapiRequestValidator oapi (routed env connected)) r.
Proof.
  intros Hh Hu s v. unfold OapiRequestValidator, WriteInvalidArgument. destruct (oapi r); [by rewrite !WriteType_eq|].
  unfold routeHTTP. destruct (chi routes r) as [i ps|f] eqn:E; [|done].
  rewrite (health_route r i ps Hh Hu E). unfold strict_GetHealth, strict_answer, GetHealth. cbn [VisitGetHealthResponse].
  by destruct (visit _ _ _ _) as [[] w].
Qed.

(** The request carries no token that is accepted. *)
Definition no_token (Validate : string → validated) (r : request) : bool :=
  match ExtractBearerToken r with
  | inl _ => true
  | inr token => match Validate token with VError _ => true | _ => false end
  end.

(** C19: Without an accepted token nothing is learnt and nothing is changed.
    With authentication on, a request with no accepted token leaves the
    provider service as it is, and everything about the exchange, the response
    and the log included, is the same whatever the service holds.  Unless it is a GET of the
    health path it is answered 401 (503 after the deadline) with a fixed text.
    The health path cannot be spelled, with escapes, such that it passes the
    check and is routed to a provider operation. *)
Theorem unauthenticated_learns_nothing e timeout Validate env connected r s v :
  url_ok r → no_token Validate r = true → writer s = fresh →
  let '(fin, s') := served env connected e timeout (Some Validate) r s in
  world s' = world s ∧
  served env connected e timeout (Some Validate) r (set_world v s) = (fin, set_world v s') ∧
  (is_health r = false →
   delivered (writer s') = Some (if (0 <? timeout) && deadline_passed e then timed_out r else unauthorized r)).
Proof.
  intros Hu Ht Hw. unfold serve. destruct (is_health r) eqn:Hh.
  - destruct (chain_blind e timeout (Some Validate) (OapiRequestValidator oapi (routed env connected)) r
      (λ ctx, health_blind env connected (WithContext ctx r) Hh Hu) s v) as [H1 H2].
    rewrite H1. by destruct (chain _ _ _ _ r s) as [fin s'].
  - assert (rejected (Some Validate) r = true) as Hr by (unfold rejected; by rewrite Hh).
    pose proof (rejected_answer e timeout (Some Validate) (OapiRequestValidator oapi (routed env connected)) r s Hr Hw) as H1.
    destruct (chain _ _ _ _ r s) as [fin s']. destruct H1 as (-> & H2 & H3 & H4). split; [done|]. split; [|done].
    destruct (chain_blind e timeout (Some Validate) (λ _ s, (Returned, s)) r (λ _ _ _, conj eq_refl eq_refl) s v) as [H5 _].
    rewrite (H4 (λ _ s, (Returned, s))) in H5.
    pose proof (rejected_answer e timeout (Some Validate) (λ _ s, (Returned, s)) r (set_world v s) Hr Hw) as H6.
    rewrite H5 in H6. by apply H6.
Qed.

(** *** Requests that reach their operation *)

Definition in_time (e : Http.env) (timeout : Z) : Prop := (0 <? timeout) && deadline_passed e = false.

(** The request passes authentication and the OpenAPI validator, and chi gives
    it to the [i]th route. *)
Record reaches (e : Http.env) (auth : option (string → validated)) (r : request) (i : nat) (ps : list (string * string)) : Prop := {
  reaches_admitted : ∃ r', admitted e auth r = Some r' ∧ oapi r' = None ∧ chi routes r' = ChiHandler i ps
}.

Lemma admitted_same e auth r r' :
  admitted e auth r = Some r' →
  r_RequestURI r' = r_RequestURI r ∧ r_Query r' = r_Query r ∧ r_Body r' = r_Body r ∧ r_RawPath r' = r_RawPath r ∧
  c_uri (r_ctx r') = Some (r_RequestURI r).
Proof. unfold admitted. repeat case_match; intros; simplify_eq; done. Qed.

Lemma served_create e timeout auth env connected r s ps id body :
  writer s = fresh → in_time e timeout → reaches e auth r 2 ps → bind_string "id" (r_Query r) = inr id →
  r_Body r ≫= decode (AgentApi.cProvider number) (zero (AgentApi.cProvider number)) = Some body →
  let '(fin, s') := served env connected e timeout auth r s in
  let '(res, v) := CreateProvider number print parse url_Parse marshal_error env (Some (r_RequestURI r)) (mkCreateParams id) body (world s) in
  fin = Returned ∧ world s' = v ∧ delivered (writer s') = visited (VisitCreateProviderResponse number) r res.
Proof.
  intros Hw Ht [(r' & Ha & Ho & Hc)] Hb Hd. destruct (admitted_same _ _ _ _ Ha) as (HU & HQ & HB & _ & HC).
  destruct (CreateProvider _ _ _ _ _ env (Some (r_RequestURI r)) _ body (world s)) as [res v] eqn:HR.
  destruct (strict_answer_response (S := S) (VisitCreateProviderResponse number) encode_error error_string r r' res
    (mkExchange (Recording (Buffered ∅ [] 0 false) 200 false) (mkOutcome 0 None) [] v) (create_visits number) HU eq_refl)
    as (h & b & c & _ & Hcode & Hv & _).
  rewrite Hv. refine (admitted_answer e timeout auth _ r r' s h b c v Hw Ht Ha Hcode _). intros s1 Hw1 Hv1.
  unfold OapiRequestValidator, routeHTTP, wrapper_CreateProvider, strict_CreateProvider. rewrite Ho, Hc, HQ, Hb, HB, Hd, HC, Hv1, HR.
  destruct (strict_answer_response (S := S) (VisitCreateProviderResponse number) encode_error error_string r r' res
    (set_world v s1) (create_visits number) HU Hw1) as (h' & b' & c' & Hw' & _ & Hv' & Hww).
  rewrite Hv in Hv'. injection Hv' as <- <- <-. by eexists.
Qed.

Lemma served_get e timeout auth env connected r s ps id :
  writer s = fresh → in_time e timeout → reaches e auth r 3 ps →
  bind_path (default "" (snd <$> List.find (λ kv, kv.1 =s? "provider_id") ps)) (r_RawPath r =s? "") = inr id →
  let '(fin, s') := served env connected e timeout auth r s in
  fin = Returned ∧ world s' = world s ∧
  delivered (writer s') = visited (VisitGetProviderResponse number) r (GetProvider number parse env (Some (r_RequestURI r)) id (world s)).
Proof.
  intros Hw Ht [(r' & Ha & Ho & Hc)] Hb. destruct (admitted_same _ _ _ _ Ha) as (HU & _ & _ & HRp & HC).
  set (res := GetProvider number parse env (Some (r_RequestURI r)) id (world s)).
  destruct (strict_answer_response (S := S) (VisitGetProviderResponse number) encode_error error_string r r' res
    (mkExchange (Recording (Buffered ∅ [] 0 false) 200 false) (mkOutcome 0 None) [] (world s)) (get_visits number) HU eq_refl)
    as (h & b & c & _ & Hcode & Hv & _).
  rewrite Hv. refine (admitted_answer e timeout auth _ r r' s h b c (world s) Hw Ht Ha Hcode _). intros s1 Hw1 Hv1.
  unfold OapiRequestValidator, routeHTTP, wrapper_GetProvider, strict_GetProvider. rewrite Ho, Hc, HRp, Hb, HC, Hv1.
  destruct (strict_answer_response (S := S) (VisitGetProviderResponse number) encode_error error_string r r' res
    s1 (get_visits number) HU Hw1) as (h' & b' & c' & Hw' & _ & Hv' & Hww).
  rewrite Hv in Hv'. injection Hv' as <- <- <-.
  eexists. split; [reflexivity|]. split; [exact Hw'|]. exact (eq_trans Hww Hv1).
Qed.

(** *** What the client reads *)

Lemma json_document k code ct j :
  Contains ct "json" = true → json_with k (document code ct j) = (code =? k).
Proof.
  intros Hct. unfold json_with, document, Header_Get. cbn [rsp_Header StatusCode].
  change (CanonicalHeaderKey "Content-Type") with "Content-Type".
  unfold headers. by rewrite lookup_singleton_eq, Hct.
Qed.

Lemma unmarshal_document {A} (c : codec A) code ct j : unmarshal c (document code ct j) = decode c (zero c) j.
Proof. reflexivity. Qed.

Lemma problem_wf t d i : wf AgentApi.cError (Body (Problem t d) i).
Proof.
  pose proof (problem_status t d) as Hs. unfold Body.
  repeat (apply Forall_cons_2; [|try apply Forall_nil_2]); simpl; try done.
  - by destruct i.
  - split; [|done]. unfold in_int64, int64_min, int64_max. lia.
Qed.

Lemma error_document code t d i :
  200 ≤ code ≤ 999 →
  ∃ j, encode AgentApi.cError (Body (Problem t d) i) = Some j ∧ decode AgentApi.cError (zero AgentApi.cError) j = Some (Body (Problem t d) i) ∧
    visit_problem code (Body (Problem t d) i) fresh = (true, Conn {[ "Content-Type" := ["application/problem+json"] ]}
      (Some (code, {[ "Content-Type" := ["application/problem+json"] ]})) [Doc j; newline]).
Proof.
  intros Hc. destruct (roundtrip _ AgentApi.agent_Error_lawful _ (problem_wf t d i)) as (j & He & Hd). exists j.
  split; [done|]. split; [done|]. unfold visit_problem. rewrite He. unfold fresh. simpl. by rewrite final_status.
Qed.

Lemma provider_document (p : AgentApi.Provider (T := Z)) code j :
  encode (AgentApi.cProvider number) p = Some j → 200 ≤ code ≤ 999 →
  visit code "application/json" (encode (AgentApi.cProvider number) p) fresh =
    (true, Conn {[ "Content-Type" := ["application/json"] ]} (Some (code, {[ "Content-Type" := ["application/json"] ]})) [Doc j; newline]).
Proof. intros -> Hc. unfold fresh. simpl. by rewrite final_status. Qed.

Lemma visited_422 r d i :
  ∃ rsp c, visited (VisitCreateProviderResponse number) r
      (Ok (CreateProvider422ApplicationProblemPlusJSONResponse (Body (Problem ErrorTypeUNPROCESSABLEENTITY d) i))) = Some rsp ∧
    ParseCreateProviderResponse number rsp = Some c ∧
    cr_ApplicationproblemJSON422 c = Some (Body (Problem ErrorTypeUNPROCESSABLEENTITY d) i).
Proof.
  unfold visited, VisitCreateProviderResponse. destruct (error_document 422 ErrorTypeUNPROCESSABLEENTITY d i ltac:(lia)) as (j & _ & Hdec & ->).
  eexists (document 422 "application/problem+json" j), _. split; [done|]. unfold ParseCreateProviderResponse.
  rewrite !json_document by done. cbn [Z.eqb Pos.eqb]. by rewrite unmarshal_document, Hdec.
Qed.

Lemma visited_409 r d i :
  ∃ rsp c, visited (VisitCreateProviderResponse number) r
      (Ok (CreateProvider409ApplicationProblemPlusJSONResponse (Body (Problem ErrorTypeALREADYEXISTS d) i))) = Some rsp ∧
    ParseCreateProviderResponse number rsp = Some c ∧
    cr_ApplicationproblemJSON409 c = Some (Body (Problem ErrorTypeALREADYEXISTS d) i).
Proof.
  unfold visited, VisitCreateProviderResponse. destruct (error_document 409 ErrorTypeALREADYEXISTS d i ltac:(lia)) as (j & _ & Hdec & ->).
  eexists (document 409 "application/problem+json" j), _. split; [done|]. unfold ParseCreateProviderResponse.
  rewrite !json_document by done. cbn [Z.eqb Pos.eqb]. by rewrite unmarshal_document, Hdec.
Qed.

(** A provider as the answer of a registration. *)
Definition registered (created : bool) (p : AgentApi.Provider (T := Z)) : CreateProviderResponseObject :=
  if created then CreateProvider201JSONResponse p else CreateProvider200JSONResponse p.

Lemma visited_registered r (created : bool) p j :
  encode (AgentApi.cProvider number) p = Some j →
  visited (VisitCreateProviderResponse number) r (Ok (registered created p)) =
    Some (document (if created then 201 else 200) "application/json" j).
Proof. intros He. destruct created; unfold visited, VisitCreateProviderResponse, registered; by rewrite (provider_document _ _ _ He) by lia. Qed.

Lemma parse_registered (created : bool) j p :
  decode (AgentApi.cProvider number) (zero (AgentApi.cProvider number)) j = Some p →
  ∃ c, ParseCreateProviderResponse number (document (if created then 201 else 200) "application/json" j) = Some c ∧
    (if created then cr_JSON201 c else cr_JSON200 c) = Some p.
Proof.
  intros Hd. unfold ParseCreateProviderResponse. destruct created; rewrite !json_document by done; cbn [Z.eqb Pos.eqb]; rewrite unmarshal_document, Hd; by eexists.
Qed.

Lemma read_registered `{!TimeTextLaws Z} r (created : bool) p :
  (∀ lit lit', number lit = Some lit' → number lit' = Some lit') →
  ∃ rsp, visited (VisitCreateProviderResponse number) r (Ok (registered created p)) = Some rsp ∧
    (wf (AgentApi.cProvider number) p →
     ∃ c, ParseCreateProviderResponse number rsp = Some c ∧ (if created then cr_JSON201 c else cr_JSON200 c) = Some p).
Proof.
  intros Hnum. destruct (encode (AgentApi.cProvider number) p) as [j|] eqn:Ej.
  - rewrite (visited_registered r created p j Ej). eexists; split; [done|]. intros Hwf. apply parse_registered.
    destruct (roundtrip _ (AgentApi.agent_Provider_lawful number Hnum) _ Hwf) as (j' & He & Hd). congruence.
  - exists (internal_response r). split; [destruct created; unfold visited, VisitCreateProviderResponse, registered; by rewrite Ej|].
    intros Hwf. destruct (roundtrip _ (AgentApi.agent_Provider_lawful number Hnum) _ Hwf) as (j' & He & Hd). congruence.
Qed.

(** C22: A client learns from the response exactly how its registration ended.
    For a POST of a provider that reaches its operation in time: the request is
    answered, the service changed as [Register] changes it, and the generated
    client reads a refused field as the 422 problem naming the field (nothing
    was registered), a conflict as the 409 problem with its message, and a
    provider that was created or updated as the provider itself, from 201 or
    200.  Any other failure is answered 500 with the fixed text, whatever the
    failure was. *)
Theorem api_create_answers `{!TimeTextLaws Z} e timeout auth env connected r s ps id body :
  (∀ lit lit', number lit = Some lit' → number lit' = Some lit') →
  writer s = fresh → in_time e timeout → reaches e auth r 2 ps → bind_string "id" (r_Query r) = inr id →
  r_Body r ≫= decode (AgentApi.cProvider number) (zero (AgentApi.cProvider number)) = Some body →
  let '(fin, s') := served env connected e timeout auth r s in
  let params := mkCreateParams id in let uri := Some (r_RequestURI r) in
  fin = Returned ∧ ∃ rsp, delivered (writer s') = Some rsp ∧
  match refused_field url_Parse params body, registration_input number print marshal_error params body with
  | Some (field, err), _ =>
      world s' = world s ∧ ∃ c, ParseCreateProviderResponse number rsp = Some c ∧
      cr_ApplicationproblemJSON422 c =
        Some (Body (Problem ErrorTypeUNPROCESSABLEENTITY ("invalid " +:+ field +:+ ": " +:+ error_text err)) uri)
  | None, Err _ => world s' = world s ∧ rsp = internal_response r
  | None, Ok inp =>
      let '(res, v) := Register (unmarshal_meta number parse) env inp (world s) in
      world s' = v ∧
      match res with
      | Ok (p, created) =>
          wf (AgentApi.cProvider number) (provider_of p) →
          ∃ c, ParseCreateProviderResponse number rsp = Some c ∧
            (if created : bool then cr_JSON201 c else cr_JSON200 c) = Some (provider_of p)
      | Err (EDomain ErrCodeConflict msg) =>
          ∃ c, ParseCreateProviderResponse number rsp = Some c ∧
          cr_ApplicationproblemJSON409 c = Some (Body (Problem ErrorTypeALREADYEXISTS msg) uri)
      | Err _ => rsp = internal_response r
      end
  end.
Proof.
  intros Hnum Hw Ht Hr Hb Hd. pose proof (served_create e timeout auth env connected r s ps id body Hw Ht Hr Hb Hd) as H1.
  destruct (served _ _ _ _ _ r s) as [fin s']. cbv zeta. unfold CreateProvider in H1.
  destruct (refused_field _ _ _) as [[field err]|].
  { destruct H1 as (-> & -> & ->). split; [done|]. unfold validationError.
    destruct (visited_422 r ("invalid " +:+ field +:+ ": " +:+ error_text err) (Some (r_RequestURI r))) as (rsp & c & -> & Hc). eauto. }
  destruct (registration_input _ _ _ _ _) as [inp|err]; [|destruct H1 as (-> & -> & ->); by split; [|eexists]].
  destruct (Register _ _ _ _) as [[[p created]|err] v].
  - destruct H1 as (-> & -> & Hdel). split; [done|].
    destruct (read_registered r created (provider_of p) Hnum) as (rsp & Hv & Hc).
    unfold registered in Hv. rewrite Hv in Hdel. eauto.
  - destruct err as [| | | | | | |[] msg| | |]; destruct H1 as (-> & -> & ->); (split; [done|]); try by eexists.
    destruct (visited_409 r msg (Some (r_RequestURI r))) as (rsp & c & -> & Hc). eauto.
Qed.

Lemma parse_got j p :
  decode (AgentApi.cProvider number) (zero (AgentApi.cProvider number)) j = Some p →
  ∃ c, ParseGetProviderResponse number (document 200 "application/json" j) = Some c ∧ gp_JSON200 c = Some p.
Proof.
  intros Hd. unfold ParseGetProviderResponse. rewrite !json_document by done. cbn [Z.eqb Pos.eqb].
  rewrite unmarshal_document, Hd. by eexists.
Qed.

(** What was registered over the API is what the API returns.  A POST that
    registers a provider (created or updated) is answered with a document, and
    a later GET of the provider's identifier, with nothing in between, is
    answered 200 with the same document, so the generated client reads the same
    provider from both.  Identifiers are unique in the store, a generated one
    is new, and the later read of the store succeeds. *)
Theorem api_create_then_get `{!StoreOk S IO} e e' timeout auth env env' connected r r2 s s2 ps ps2 id body inp a created v j :
  store_inv (store (world s)) → NoDup (ID <$> contents (store (world s))) →
  env_uuid env ∉ ID <$> contents (store (world s)) →
  (* the registration *)
  writer s = fresh → in_time e timeout → reaches e auth r 2 ps → bind_string "id" (r_Query r) = inr id →
  r_Body r ≫= decode (AgentApi.cProvider number) (zero (AgentApi.cProvider number)) = Some body →
  refused_field url_Parse (mkCreateParams id) body = None →
  registration_input number print marshal_error (mkCreateParams id) body = Ok inp →
  Register (unmarshal_meta number parse) env inp (world s) = (Ok (a, created), v) →
  encode (AgentApi.cProvider number) (provider_of a) = Some j →
  (* the read *)
  writer s2 = fresh → world s2 = v → in_time e' timeout → reaches e' auth r2 3 ps2 →
  bind_path (default "" (snd <$> List.find (λ kv, kv.1 =s? "provider_id") ps2)) (r_RawPath r2 =s? "") = inr (api_Id a) →
  (∀ err, GetByID (env_get_id env') (api_Id a) (store v) ≠ Err err) →
  let s' := (served env connected e timeout auth r s).2 in
  let s2' := (served env' connected e' timeout auth r2 s2).2 in
  world s' = v ∧ world s2' = v ∧
  ∃ rsp rsp2, delivered (writer s') = Some rsp ∧ delivered (writer s2') = Some rsp2 ∧
    StatusCode rsp = (if created then 201 else 200) ∧ StatusCode rsp2 = 200 ∧
    rsp_Body rsp = [Doc j; newline] ∧ rsp_Body rsp2 = rsp_Body rsp ∧
    ∀ p, decode (AgentApi.cProvider number) (zero (AgentApi.cProvider number)) j = Some p →
      (∃ c, ParseCreateProviderResponse number rsp = Some c ∧ (if created then cr_JSON201 c else cr_JSON200 c) = Some p) ∧
      (∃ c, ParseGetProviderResponse number rsp2 = Some c ∧ gp_JSON200 c = Some p).
Proof.
  intros Hs Hn Hu Hw Ht Hr Hb Hd Href Hinp Hreg He Hw2 Hv Ht2 Hr2 Hb2 Hread. cbv zeta.
  pose proof (served_create e timeout auth env connected r s ps id body Hw Ht Hr Hb Hd) as H1.
  destruct (served env _ _ _ _ r s) as [fin s']. unfold CreateProvider in H1. rewrite Href, Hinp, Hreg in H1.
  fold (registered created (provider_of a)) in H1. rewrite (visited_registered r created _ j He) in H1.
  destruct H1 as (_ & HW & HD).
  pose proof (served_get e' timeout auth env' connected r2 s2 ps2 (api_Id a) Hw2 Ht2 Hr2 Hb2) as H2.
  destruct (served env' _ _ _ _ r2 s2) as [fin2 s2']. destruct H2 as (_ & HW2 & HD2).
  pose proof (register_get (unmarshal_meta number parse) env env' inp (world s) a created v Hs Hn Hu Hreg) as Hg.
  revert HD2. unfold GetProvider. rewrite Hv. destruct (Get _ _ _ v) as [b|err]; [subst b|by destruct (Hread err)].
  unfold visited, VisitGetProviderResponse. rewrite (provider_document _ _ _ He) by lia. intros HD2. cbn [snd].
  split; [done|]. split; [congruence|]. eexists (document _ _ _), (document 200 "application/json" j).
  split; [exact HD|]. split; [exact HD2|]. split_and!; [done..|]. intros p Hp. split; [by apply parse_registered|by apply parse_got].
Qed.
End Server.

(** ** A provider registered over HTTP and read back *)

Module ApiRun.

Definition int_time : TimeText Z := {| time_zero := 0; time_parse := ParseInt64; time_format n := Some (pretty n) |}.
#[local] Existing Instance int_time.

(** The first route that matches. *)
Fixpoint find_route (i : nat) (rts : list (string * string)) (r : request) : chi_match :=
  match rts with
  | [] => ChiFallback (WriteHeader 404)
  | (m, pat) :: rts =>
      if r_Method r =s? m then
        match path_match pat (routePath r) with
        | Some ps => ChiHandler i ps
        | None => find_route (Datatypes.S i) rts r
        end
      else find_route (Datatypes.S i) rts r
  end.

Lemma find_route_found i rts r j ps :
  find_route i rts r = ChiHandler j ps →
  ∃ k pat, j = (i + k)%nat ∧ rts !! k = Some (r_Method r, pat) ∧ path_match pat (routePath r) = Some ps.
Proof.
  revert i. induction rts as [|[m pat] rts IH]; intros i; [done|]. cbn [find_route]. intros Hf.
  assert (find_route (Datatypes.S i) rts r = ChiHandler j ps →
    ∃ k pat0, j = (i + k)%nat ∧ ((m, pat) :: rts) !! k = Some (r_Method r, pat0) ∧ path_match pat0 (routePath r) = Some ps) as Hnext.
  { intros (k & pat0 & -> & Hk)%IH. exists (Datatypes.S k), pat0. split; [lia|done]. }
  case_bool_decide as Hm; [|by apply Hnext]. destruct (path_match pat (routePath r)) eqn:E; [|by apply Hnext].
  injection Hf as <- <-. exists 0%nat, pat. rewrite Hm. split; [lia|done].
Qed.

Lemma find_route_fallback i rts r f : find_route i rts r = ChiFallback f → f = WriteHeader 404.
Proof.
  revert i. induction rts as [|[m pat] rts IH]; intros i; cbn [find_route]; [by intros [= <-]|].
  case_bool_decide; [destruct (path_match _ _); [done|]|]; apply IH.
Qed.

#[local] Instance find_route_laws : ChiLaws (find_route 0).
Proof.
  split.
  - intros rts r i ps (k & pat & -> & Hk & Hp)%find_route_found. by exists pat.
  - intros rts r f ->%find_route_fallback w. by apply rtc_once, op_status.
Qed.

Definition bind (name : string) (q : list (string * string)) : bind_error + option string :=
  inr (snd <$> List.find (λ kv, kv.1 =s? name) q).
Definition validate (token : string) : validated :=
  if token =s? "t1" then VClaims (mkClaims "alice" "") else VError "unknown token".

Definition parse_url (_ : string) : option URL := Some {| Scheme := "http"; Host := "sp"; RawQuery := ""; Fragment := "" |}.
Definition any_object (_ : string) : option json := Some (JObject []).

Definition server (env : Env FileIO) : Http.env → Z → option (string → validated) → handler (Svc Disk) :=
  serve Some (λ _, "{}") any_object parse_url "" (find_route 0) (λ _, None) (λ _ _, inr None) bind (λ id _, inr id) (λ _, "") "" (λ _, "") env true.

Definition body : json :=
  JObject [("name", JString " shop "); ("endpoint", JString "http://sp/api"); ("service_type", JString "vm");
           ("schema_version", JString "v1alpha1")].
Definition bearer (t : string) : headers := {[ "Authorization" := ["Bearer " +:+ t] ]}.
Definition post (t : string) : request :=
  mkRequest "POST" "/api/v1alpha1/providers" "" "/api/v1alpha1/providers?id=p1" (bearer t) [("id", "p1")] (Some body) Background.
Definition get (t : string) : request :=
  mkRequest "GET" "/api/v1alpha1/providers/p1" "" "/api/v1alpha1/providers/p1" (bearer t) [] None Background.

Definition clock : Http.env := mkEnv 10 15 false.
Definition exchange_on (v : Svc Disk) : exchange (Svc Disk) := mkExchange fresh (mkOutcome 0 None) [] v.
Definition env1 : Env FileIO := sample_env 100 "u1" io_ok.

Definition posted : exchange (Svc Disk) := (server env1 clock 30 (Some validate) (post "t1") (exchange_on sample_start)).2.
Definition got : exchange (Svc Disk) := (server env1 clock 30 (Some validate) (get "t1") (exchange_on (world posted))).2.

Lemma unauthenticated_learns_nothing_witness :
  let '(fin, s') := server env1 clock 30 (Some validate) (post "t2") (exchange_on sample_start) in
  world s' = sample_start ∧ delivered (writer s') = Some (unauthorized (post "t2")).
Proof.
  pose proof (unauthenticated_learns_nothing Some (λ _, "{}") any_object parse_url "" (find_route 0) (λ _, None) (λ _ _, inr None)
    bind (λ id _, inr id) (λ _, "") "" (λ _, "") clock 30 validate env1 true (post "t2") (exchange_on sample_start) sample_start
    ltac:(by left) ltac:(by vm_compute) eq_refl) as H.
  unfold server. destruct (serve _ _ _ _ _ _ _ _ _ _ _ _ _ _ _ _ _ _ _ _) as [fin s']. destruct H as (Hv & _ & Hd).
  split; [exact Hv|]. apply Hd. by vm_compute.
Defined.

Definition seen (t : string) (r : request) : request :=
  WithContext (mkCtx (Some (r_RequestURI r)) (Some 10) true (Some (mkClaims "alice" ""))) r.

Lemma post_reaches : reaches (find_route 0) (λ _, None) clock (Some validate) (post "t1") 2 [].
Proof. constructor. exists (seen "t1" (post "t1")). split; [by vm_compute|]. split; [done|]. by vm_compute. Qed.
Lemma get_reaches : reaches (find_route 0) (λ _, None) clock (Some validate) (get "t1") 3 [("provider_id", "p1")].
Proof. constructor. exists (seen "t1" (get "t1")). split; [by vm_compute|]. split; [done|]. by vm_compute. Qed.

Definition provider : AgentApi.Provider (T := Z) :=
  AgentApi.mkProvider None None "http://sp/api" None None None " shop " None None "v1alpha1" "vm" None None None.
Definition input : RegistrationInput := mkInput "shop" "http://sp/api" "vm" "v1alpha1" None (Some "p1") None "".

Lemma body_decodes : Some body ≫= decode (AgentApi.cProvider Some) (zero (AgentApi.cProvider Some)) = Some provider.
Proof. by vm_compute. Qed.

Definition registration := Register (unmarshal_meta Some any_object) env1 input sample_start.

Definition answer : APIProvider AgentApi.ProviderMetadata :=
  mkAPI "p1" "providers/p1" "shop" "http://sp/api" "vm" "v1alpha1" None None "external" 100 100 Ready (Some 101) None.

Lemma registration_ok : registration = (Ok (answer, true), registration.2).
Proof. rewrite (surjective_pairing registration) at 1. f_equal. Qed.

Lemma int_time_laws : TimeTextLaws Z.
Proof.
  split; [by exists "0"|]. intros s t Hp%ParseInt64_range. exists (pretty t). split; [done|]. by apply Atoi_Itoa_signed.
Qed.

Lemma answer_wf : wf (AgentApi.cProvider Some) (provider_of answer).
Proof. repeat (apply Forall_cons_2; [|try apply Forall_nil_2]); simpl; try done; split; try done; by eexists. Qed.

Lemma api_create_answers_witness :
  let '(fin, s') := server env1 clock 30 (Some validate) (post "t1") (exchange_on sample_start) in
  fin = Returned ∧ ∃ rsp c, delivered (writer s') = Some rsp ∧
    ParseCreateProviderResponse Some rsp = Some c ∧ cr_JSON201 c = Some (provider_of answer).
Proof.
  pose proof (api_create_answers Some (λ _, "{}") any_object parse_url "" (find_route 0) (λ _, None) (λ _ _, inr None)
    bind (λ id _, inr id) (λ _, "") "" (λ _, "") (TimeTextLaws0 := int_time_laws) clock 30 (Some validate) env1 true (post "t1")
    (exchange_on sample_start) [] (Some "p1") provider ltac:(by intros lit lit' [= <-]) eq_refl eq_refl post_reaches
    ltac:(by vm_compute) body_decodes) as H.
  unfold server.
  destruct (serve _ _ _ _ _ _ _ _ _ _ _ _ _ _ _ _ _ _ _ _) as [fin s']. cbv zeta in H.
  assert (refused_field parse_url (mkCreateParams (Some "p1")) provider = None) as Href by (by vm_compute).
  assert (registration_input Some (λ _, "{}") "" (mkCreateParams (Some "p1")) provider = Ok input) as Hinp by (by vm_compute).
  rewrite Href, Hinp in H. destruct H as (Hf & rsp & Hd & H). split; [exact Hf|].
  change (Register _ env1 input (world (exchange_on sample_start))) with registration in H. rewrite registration_ok in H.
  destruct H as [_ H]. destruct (H answer_wf) as (c & Hc & Hp). exists rsp, c. split; [exact Hd|]. split; [exact Hc|exact Hp].
Defined.

Definition answer_doc : json := default JNull (encode (AgentApi.cProvider Some) (provider_of answer)).

Lemma start_inv : store_inv (store sample_start).
Proof. exact (si_store _ _ (reachable_inv no_meta _ sample_start_reachable)). Qed.
Lemma start_ids : NoDup (ID <$> contents (store sample_start)) ∧ "u1" ∉ ID <$> contents (store sample_start).
Proof.
  assert (ID <$> contents (store sample_start) = ["emb-1"]) as -> by (by vm_compute). split; [apply NoDup_singleton|].
  by intros ?%list_elem_of_singleton.
Qed.
Lemma registered_readable err : GetByID (env_get_id env1) "p1" (store registration.2) ≠ Err err.
Proof. by vm_compute. Qed.

Lemma create_then_get_run :
  let s := exchange_on sample_start in let s2 := exchange_on (world posted) in
  store_inv (store (world s)) ∧ NoDup (ID <$> contents (store (world s))) ∧ env_uuid env1 ∉ ID <$> contents (store (world s)) ∧
  bind "id" (r_Query (post "t1")) = inr (Some "p1") ∧
  r_Body (post "t1") ≫= decode (AgentApi.cProvider Some) (zero (AgentApi.cProvider Some)) = Some provider ∧
  refused_field parse_url (mkCreateParams (Some "p1")) provider = None ∧
  registration_input Some (λ _, "{}") "" (mkCreateParams (Some "p1")) provider = Ok input ∧
  Register (unmarshal_meta Some any_object) env1 input (world s) = (Ok (answer, true), registration.2) ∧
  encode (AgentApi.cProvider Some) (provider_of answer) = Some answer_doc ∧
  world s2 = registration.2.
Proof.
  cbv zeta. split; [exact start_inv|]. split; [exact (proj1 start_ids)|]. split; [exact (proj2 start_ids)|].
  split; [by vm_compute|]. split; [exact body_decodes|]. split; [by vm_compute|]. split; [by vm_compute|].
  split; [exact registration_ok|]. split; [by vm_compute|]. by vm_compute.
Qed.

Lemma api_create_then_get_witness :
  ∃ rsp rsp2 c p, delivered (writer posted) = Some rsp ∧ StatusCode rsp = 201 ∧ delivered (writer got) = Some rsp2 ∧
    ParseGetProviderResponse Some rsp2 = Some c ∧ gp_JSON200 c = Some p ∧ AgentApi.pr_Id p = Some "p1".
Proof.
  destruct create_then_get_run as (H1 & H2 & H3 & H4 & H5 & H6 & H7 & H8 & H9 & H10).
  pose proof (api_create_then_get Some (λ _, "{}") any_object parse_url "" (find_route 0) (λ _, None) (λ _ _, inr None)
    bind (λ id _, inr id) (λ _, "") "" (λ _, "") clock clock 30 (Some validate) env1 env1 true (post "t1") (get "t1")
    (exchange_on sample_start) (exchange_on (world posted)) [] [("provider_id", "p1")] (Some "p1") provider input answer true
    registration.2 answer_doc H1 H2 H3 eq_refl eq_refl post_reaches H4 H5 H6 H7 H8 H9
    eq_refl H10 eq_refl get_reaches eq_refl registered_readable) as H.
  destruct H as (_ & _ & rsp & rsp2 & Hd & Hd2 & Hs & _ & _ & _ & Hr).
  destruct (Hr (provider_of answer)) as [_ (c & Hc & Hg)]; [by vm_compute|].
  exists rsp, rsp2, c, (provider_of answer). split; [exact Hd|]. split; [exact Hs|]. split; [exact Hd2|].
  split; [exact Hc|]. split; [exact Hg|reflexivity].
Defined.

End ApiRun.
