(* ===== verification/Transition.v ===== *)
(** * Health transitions and what they set in motion

    Models internal/health/cepublisher.go and the callbacks
    cmd/environment-agent/main.go wires between the provider service, the
    health monitor and the registrar, and composes [Service], [Health] and
    [Dcm.Registrar] into the running agent, whose atomic steps are the critical
    sections of the source: the stages of a registration, the recording of a
    health check, the calls of the callbacks made outside the locks and the
    steps of the registrar's goroutine, in any order. *)

From S2P Require Import Prelude GoStrings Provider FileStore Health Service Effects Routing Dcm.

(** ** internal/health/cepublisher.go *)

(** [HealthEventData] (internal/routing/types.go). *)
Record HealthEventData := mkHealthEvent {
  he_AgentID : string; he_AgentName : string; he_TopicName : string;
  he_ServiceType : string; he_Reason : string; he_AffectedProvider : string
}.

Definition SubjectHealth : string := "dcm.agents.health".

(** What [PublishCE] hands to the message bus. *)
Record HealthEvent := mkEvent {
  ev_Subject : string; ev_Source : string; ev_Type : CEType; ev_Data : HealthEventData
}.

Record CEPublisher := mkPublisher { pub_agentName : string; pub_topicName : string }.

(** The switch of [OnTransition]: the event's type and reason. *)
Definition event_for (to : ProviderStatus) : option (CEType * string) :=
  match to with
  | Unhealthy => Some (TypeHealthDegraded, "service provider health check failures exceeded threshold")
  | Unavailable => Some (TypeHealthUnavailable, "service provider became unavailable")
  | _ => None
  end.

Definition event_data (p : CEPublisher) (sp : StoredProvider) (reason : string) : HealthEventData :=
  mkHealthEvent (pub_agentName p) (pub_agentName p) (pub_topicName p) (ServiceType sp) reason (Name sp).

(** The event handed to the bus, if any; a failure to publish is only logged. *)
Definition OnTransition {S IO} `{Store S IO} (p : CEPublisher) (io : IO) (s : S) (providerID : string)
    (to : ProviderStatus) : option HealthEvent :=
  match event_for to with
  | None => None
  | Some (ceType, reason) =>
      match GetByID io providerID s with
      | Err _ | Ok None => None
      | Ok (Some sp) =>
          match FormatSource (pub_agentName p) with
          | Err _ => None
          | Ok source => Some (mkEvent SubjectHealth source ceType (event_data p sp reason))
          end
      end
  end.

(** ** The callbacks of main.go *)

(** What a callback starts: a notification of the registrar, the processing of
    the retry topics, the publication of a health event. *)
Inductive action :=
  | NotifyRegistrar
  | StartRunTransition (providerID : string) (from to : ProviderStatus)
  | PublishHealth (providerID : string) (to : ProviderStatus).

(** The function given to [healthMonitor.SetOnTransition]. *)
Definition onTransition (t : transition) : list action :=
  (if bool_decide (tr_from t = Unavailable) || bool_decide (tr_to t = Unavailable)
   then [NotifyRegistrar] else [])
  ++ [StartRunTransition (tr_id t) (tr_from t) (tr_to t); PublishHealth (tr_id t) (tr_to t)].

(** [registrar.NotifyServiceTypeChange] is what [SetOnChange] is given. *)
Definition on_notification (n : notification) : list action :=
  match n with
  | NTransition t => onTransition t
  | NChange => [NotifyRegistrar]
  end.

Definition registrar_input (a : action) : option Registrar.input :=
  match a with NotifyRegistrar => Some Registrar.Notify | _ => None end.

(** ** The tracker follows the state machines *)

(** Distinct providers have distinct state machines, all allocated, and for
    the providers in [ok] the tracker shows the state of the machine. *)
Record mon_wf (ok : string → Prop) (m : Monitor) : Prop := {
  mw_addr : ∀ id e, providers m !! id = Some e → (sm e < next_sm m)%nat;
  mw_inj : ∀ i j e e', providers m !! i = Some e → providers m !! j = Some e' → sm e = sm e' → i = j;
  mw_shown : ∀ id e mc, ok id → providers m !! id = Some e → heap m !! sm e = Some mc →
    Status <$> tracker m !! id = Some (state mc)
}.

Definition named (id : string) : Prop := id ≠ "".
Definition but (id j : string) : Prop := j ≠ "" ∧ j ≠ id.

Lemma wf_weaken (ok ok' : string → Prop) m : (∀ j, ok' j → ok j) → mon_wf ok m → mon_wf ok' m.
Proof. intros Hi [H1 H2 H3]; split; [done..|]. intros id e mc ?%Hi; by apply H3. Qed.

(** A tracker write for [id] concerns [id] only. *)
Lemma wf_track id st t m :
  mon_wf named m →
  mon_wf (but id) (mkMonitor (HealthTracker.SetState id st t (tracker m)) (providers m) (heap m) (next_sm m)
    (threshold m) (callback m) (started m) (stopped m)).
Proof.
  intros [H1 H2 H3]; split; simpl; [done..|]. intros j e mc [Hj Hne] He Hm.
  change (_ !! j) with (HealthTracker.GetState j (HealthTracker.SetState id st t (tracker m))).
  rewrite HealthTracker.GetState_SetState_ne by done. by eapply H3.
Qed.

Lemma wf_enter id c st init m :
  mon_wf (but id) m → mon_wf (but id) (registerEntry id c st init m).2.
Proof.
  intros [H1 H2 H3]. unfold registerEntry. destruct (stopped m); [done|]. split; simpl.
  - intros j e [[_ <-]|[_ Hj]]%lookup_insert_Some; simpl; [lia|]. apply H1 in Hj; lia.
  - intros i j e e' [[<- <-]|[? Hi]]%lookup_insert_Some [[<- <-]|[? Hj]]%lookup_insert_Some; simpl;
      [done|intros; apply H1 in Hj; lia|intros; apply H1 in Hi; lia|by eauto].
  - intros j e mc [Hj Hne] He Hm. rewrite lookup_insert_ne in He by done.
    rewrite lookup_insert_ne in Hm; [by eapply H3|]. apply H1 in He; lia.
Qed.

(** Recording a check shows the new state of the provider it was made for. *)
Lemma wf_record_own (ok : string → Prop) id e mc r now m :
  (∀ j, ok j → named j) → mon_wf (λ j, ok j ∧ j ≠ id) m → providers m !! id = Some e → heap m !! sm e = Some mc →
  mon_wf ok (recordCheck id (sm e) r now m).2.
Proof.
  intros Hok [H1 H2 H3] Ee Em. unfold recordCheck. rewrite Ee, bool_decide_eq_true_2, Em by done.
  destruct (RecordResult r mc) as [[from to] mc'] eqn:Er. split; simpl; [done..|].
  intros j e' mc2 Hj He' Hm. destruct (decide (j = id)) as [->|Hne].
  - assert (e' = e) as -> by congruence. rewrite lookup_insert_eq in Hm. injection Hm as <-.
    change (_ !! id) with (HealthTracker.GetState id (HealthTracker.SetState id to now (tracker m))).
    rewrite HealthTracker.GetState_SetState by (by apply Hok). simpl. f_equal. revert Er. unfold RecordResult.
    by intros [= _ <- <-].
  - change (_ !! j) with (HealthTracker.GetState j (HealthTracker.SetState id to now (tracker m))).
    rewrite HealthTracker.GetState_SetState_ne by done. apply (H3 j e'); [done..|].
    rewrite lookup_insert_ne in Hm; [done|]. intros Heq; apply Hne; by eapply H2.
Qed.

Lemma wf_record (ok : string → Prop) id a r now m :
  (∀ j, ok j → named j) → mon_wf ok m → mon_wf ok (recordCheck id a r now m).2.
Proof.
  intros Hok Hm. destruct (providers m !! id) as [e|] eqn:Ee; [|unfold recordCheck; by rewrite Ee].
  destruct (decide (sm e = a)) as [<-|Hne]; [|unfold recordCheck; by rewrite Ee, bool_decide_eq_false_2].
  destruct (heap m !! sm e) as [mc|] eqn:Em.
  - apply (wf_record_own ok id e mc); [done| |done..]. eapply wf_weaken; [|done]. by intros j [? _].
  - unfold recordCheck. by rewrite Ee, bool_decide_eq_true_2, Em.
Qed.

(** Registering a provider whose status is already shown, or with a check. *)
Lemma wf_register id c st init b check now m :
  mon_wf (but id) m → stopped m = false →
  (b = true ∨ (id ≠ "" → Status <$> tracker m !! id = Some init)) →
  mon_wf named (RegisterProvider id c st init b check now m).2.
Proof.
  intros Hm Hs Hb. pose proof (wf_enter id c st init m Hm) as Hw. revert Hw.
  unfold RegisterProvider, registerEntry. rewrite Hs. simpl. intros Hw. destruct b.
  - unfold finishInitial. simpl.
    apply (wf_record_own named id {| sm := next_sm m; checker := c; serviceType := st |}
      (NewStateMachine (threshold m) init)); [done..|apply lookup_insert_eq|apply lookup_insert_eq].
  - destruct Hb as [|Hb]; [done|]. destruct Hw as [H1 H2 H3]. split; [done..|].
    intros j e mc Hj He Hmc. destruct (decide (j = id)) as [->|Hne]; [|by apply (H3 j e mc)].
    simpl in *. rewrite lookup_insert_eq in He. injection He as <-. simpl in Hmc.
    rewrite lookup_insert_eq in Hmc. injection Hmc as <-. simpl. by apply Hb.
Qed.

Lemma wf_deregister id m :
  mon_wf named m →
  mon_wf named (DeregisterProvider id
    (mkMonitor (HealthTracker.DeleteState id (tracker m)) (providers m) (heap m) (next_sm m)
       (threshold m) (callback m) (started m) (stopped m))).
Proof.
  intros [H1 H2 H3]. split; simpl.
  - by intros j e [_ Hj]%lookup_delete_Some; eapply H1.
  - intros i j e e' [_ Hi]%lookup_delete_Some [_ Hj]%lookup_delete_Some. by eapply H2.
  - intros j e mc Hj [Hne He]%lookup_delete_Some Hm. unfold HealthTracker.DeleteState.
    rewrite lookup_delete_ne by done. by eapply H3.
Qed.

(** Flags the operations of the monitor leave alone. *)
Definition flags (m : Monitor) : bool * bool := (callback m, stopped m).

Lemma record_flags id a r now m : flags (recordCheck id a r now m).2 = flags m.
Proof. unfold recordCheck. repeat case_match; simplify_eq; done. Qed.

Lemma register_flags id c st init b check now m :
  flags (RegisterProvider id c st init b check now m).2 = flags m.
Proof.
  unfold RegisterProvider, registerEntry. destruct (stopped m) eqn:Es; [done|]. destruct b.
  - unfold finishInitial. simpl. rewrite record_flags. unfold flags. simpl. by rewrite Es.
  - unfold flags. simpl. by rewrite Es.
Qed.

(** Recording a check keeps the entries and the machines allocated. *)
Lemma record_entries id a r now m :
  providers (recordCheck id a r now m).2 = providers m ∧
  ∀ n, is_Some (heap m !! n) → is_Some (heap (recordCheck id a r now m).2 !! n).
Proof.
  unfold recordCheck. repeat (case_match; simplify_eq/=); try done; (split; [done|]); intros n Hn;
    rewrite lookup_insert_is_Some'; by right.
Qed.

(** ** The running agent

    The atomic steps are the critical sections of the source: a registration
    saves its record, writes the status, enters the monitor and records its
    initial check under four different locks (the service's own lock keeps a
    second registration out, not the health checks nor the registrar); the
    monitor calls the transition callback, and [Register] calls [notifyChange],
    after they have released their locks. *)

Section Running.
Context {S IO M : Type} `{HStore : Store S IO} `{!StoreOk S IO}.
Context (unmarshal_meta : string → option M).
Context (http_ParseTime : string → option Z) (cfg : Registrar.RegistrarConfig) (publisher : CEPublisher).

Abbreviation toAPI := (toAPI unmarshal_meta).
Abbreviation Register := (Register unmarshal_meta).

(** The service types of the stored providers that are not Unavailable: what
    the lister answers when the store can be read ([lister_answer]). *)
Definition advertised (v : Svc S) : list string :=
  api_ServiceType <$> filter (λ p, api_Status p ≠ Unavailable) (toAPI v <$> contents (store v)).

(** The arguments of a call of [trackExternalProvider]. *)
Record tracking := mkTracking { k_id : string; k_endpoint : string; k_serviceType : string }.

(** [registerLocked] up to the call of [trackExternalProvider], and whether
    that call follows. *)
Definition saveRegistration (env : Env IO) (inp : RegistrationInput) (v : Svc S)
  : result (option tracking) * Svc S :=
  match GetByName (env_get env) (in_Name inp) (store v) with
  | Err e => (Err e, v)
  | Ok (Some existing) =>
      match ensureIDConsistency (ID existing) (in_ProviderID inp) with
      | Some e => (Err e, v)
      | None =>
          let moved := negb (ServiceType existing =s? in_ServiceType inp) in
          match (if moved then Registry.Move (Name existing) (ServiceType existing) (in_ServiceType inp) (registry v)
                 else (None, registry v)) with
          | (Some err, reg) => (Err (EDomain ErrCodeConflict (error_text err)), set_registry reg v)
          | (None, reg) =>
              let v1 := set_registry reg v in
              match Save (env_save env) (updated_record existing inp (env_now env)) (store v1) with
              | (Some err, s) =>
                  let v2 := set_store s v1 in
                  (Err err,
                   if moved then
                     set_registry
                       (Registry.Move (Name existing) (in_ServiceType inp) (ServiceType existing) (registry v2)).2 v2
                   else v2)
              | (None, s) =>
                  (Ok (if negb (Endpoint existing =s? in_Endpoint inp) || moved
                       then Some (mkTracking (ID existing) (in_Endpoint inp) (in_ServiceType inp)) else None),
                   set_store s v1)
              end
          end
      end
  | Ok None =>
      match assignProviderID env (in_ProviderID inp) v with
      | Err e => (Err e, v)
      | Ok id =>
          match Registry.Claim (in_Name inp) (in_ServiceType inp) (registry v) with
          | (Some err, reg) => (Err (EDomain ErrCodeConflict (error_text err)), set_registry reg v)
          | (None, reg) =>
              let v1 := set_registry reg v in
              match Save (env_save env) (new_record id inp (env_now env)) (store v1) with
              | (Some err, s) =>
                  (Err err, set_registry (Registry.Release (in_ServiceType inp) (registry v1)) (set_store s v1))
              | (None, s) => (Ok (Some (mkTracking id (in_Endpoint inp) (in_ServiceType inp))), set_store s v1)
              end
          end
      end
  end.

(** Where a registration that holds the service's lock stands: its record is
    saved; its status is written to the tracker; it is entered in the monitor
    with state machine [a], and its initial check runs. *)
Inductive stage := Saved | Tracked | Entered (a : nat).

Record registering := mkRegistering { g_env : Env IO; g_what : tracking; g_stage : stage }.

(** [notifies]: registrations that have released the lock and are about to call
    [notifyChange]; [callbacks]: transitions whose callback is about to be
    called; [events]: the health events published. *)
Record agent := mkAgent {
  svc : Svc S;
  underway : option registering;
  notifies : nat;
  callbacks : list transition;
  events : list HealthEvent;
  registrar : Registrar.sys
}.

Inductive agent_event :=
  | OnRegister (env : Env IO) (inp : RegistrationInput)
  | OnContinue
  | OnNotify
  | OnCheck (id : string) (a : nat) (result : HealthCheckResult) (now : Z)
  | OnCallback (i : nat) (io : IO)
  | OnRegistrar (lister_fails : bool) (e : Registrar.Env)
  | OnShutdown.

Definition feed (is_ : list Registrar.input) (s : Registrar.sys) : Registrar.sys :=
  fold_left (Registrar.sys_step http_ParseTime cfg) is_ s.

(** What the lister would answer is part of the registrar's surroundings. *)
Definition changed (v v' : Svc S) : list Registrar.input :=
  if decide (advertised v' = advertised v) then [] else [Registrar.Change (advertised v')].

(** The agent after a step of the provider side. *)
Definition provider_step (v : Svc S) (u : option registering) (n : nat) (ts : list transition) (a : agent) : agent :=
  mkAgent v u (notifies a + n) (callbacks a ++ ts) (events a) (feed (changed (svc a) v) (registrar a)).

(** The next critical section of [trackExternalProvider], up to the release of
    the service's lock. *)
Definition continue_registration (g : registering) (a : agent) : agent :=
  let v := svc a in
  let '(mkTracking id endpoint serviceType) := g_what g in
  let c := ExternalChecker (NewExternalChecker_endpoint endpoint) in
  match g_stage g with
  | Saved =>
      provider_step (set_health (HealthTracker.SetState id Unhealthy time_zero (tracker (mon v))) v)
        (Some (mkRegistering (g_env g) (g_what g) Tracked)) 0 [] a
  | Tracked =>
      if has_mon v then
        match registerEntry id c serviceType Unhealthy (mon v) with
        | (Some n, m) => provider_step (set_mon m [] v) (Some (mkRegistering (g_env g) (g_what g) (Entered n))) 0 [] a
        | (None, m) => provider_step (set_mon m [] v) None 1 [] a
        end
      else provider_step v None 1 [] a
  | Entered n =>
      let '(ts, m) := finishInitial id n (env_check (g_env g) c) (env_check_now (g_env g)) (mon v) in
      provider_step (set_mon m [] v) None 1 ts a
  end.

(** What the callbacks start: notifications of the registrar, health events. *)
Definition perform (io : IO) (acts : list action) (a : agent) : agent :=
  mkAgent (svc a) (underway a) (notifies a) (callbacks a)
    (events a ++ omap (λ x, match x with
                            | PublishHealth id to => OnTransition publisher io (store (svc a)) id to
                            | _ => None
                            end) acts)
    (feed (omap registrar_input acts) (registrar a)).

(** A registration waits while another one holds the lock; an event that is
    not possible changes nothing. *)
Definition agent_step (a : agent) (ev : agent_event) : agent :=
  match ev with
  | OnRegister env inp =>
      match underway a with
      | Some _ => a
      | None =>
          match saveRegistration env inp (svc a) with
          | (Err _, v) => provider_step v None 0 [] a
          | (Ok None, v) => provider_step v None 1 [] a
          | (Ok (Some k), v) => provider_step v (Some (mkRegistering env k Saved)) 0 [] a
          end
      end
  | OnContinue => match underway a with Some g => continue_registration g a | None => a end
  | OnNotify =>
      match notifies a with
      | O => a
      | Datatypes.S n =>
          mkAgent (svc a) (underway a) n (callbacks a) (events a)
            (if onChange (svc a) then feed (omap registrar_input (on_notification NChange)) (registrar a)
             else registrar a)
      end
  | OnCheck id n r now =>
      let '(ts, m) := recordCheck id n r now (mon (svc a)) in
      provider_step (set_mon m [] (svc a)) (underway a) 0 ts a
  | OnCallback i io =>
      match callbacks a !! i with
      | None => a
      | Some t =>
          perform io (on_notification (NTransition t))
            (mkAgent (svc a) (underway a) (notifies a) (delete i (callbacks a)) (events a) (registrar a))
      end
  | OnRegistrar fails e =>
      mkAgent (svc a) (underway a) (notifies a) (callbacks a) (events a) (feed [Registrar.Go fails e] (registrar a))
  | OnShutdown =>
      mkAgent (svc a) (underway a) (notifies a) (callbacks a) (events a) (feed [Registrar.Cancel] (registrar a))
  end.

(** [run]'s order: the embedded providers are registered, then the registrar
    is notified once and started. *)
Definition agent_start (v : Svc S) : agent :=
  mkAgent v None 0 [] [] (feed [Registrar.Notify] (Registrar.initial (advertised v))).

Definition agent_run (v : Svc S) (evs : list agent_event) : agent := fold_left agent_step evs (agent_start v).

(** *** The service keeps its monitor well formed *)

(** A service with a monitor that runs; [b]: the callbacks are set. *)
Record wired (b : bool) (v : Svc S) : Prop := {
  wi_has : has_mon v = true;
  wi_onChange : onChange v = b;
  wi_flags : flags (mon v) = (b, false);
  wi_mon : mon_wf named (mon v)
}.

Lemma wired_frame b (v v' : Svc S) :
  has_mon v' = has_mon v → onChange v' = onChange v → mon v' = mon v → wired b v → wired b v'.
Proof. intros E1 E2 E3 [? ? ? ?]. split; by rewrite ?E1, ?E2, ?E3. Qed.

Lemma wired_register b (env : Env IO) id c st init chk (v : Svc S) :
  wired b v → (chk = true ∨ (id ≠ "" → Status <$> tracker (mon v) !! id = Some init)) →
  wired b (monRegister env id c st init chk v).
Proof.
  intros [? ? Hf Hm] Hb. unfold monRegister.
  pose proof (register_flags id c st init chk (env_check env) (env_check_now env) (mon v)) as Ef.
  assert (stopped (mon v) = false) as Hs by (by injection Hf).
  pose proof (wf_register id c st init chk (env_check env) (env_check_now env) (mon v)) as Hw.
  destruct (RegisterProvider _ _ _ _ _ _ _ _) as [ts m]. simpl in *. split; simpl; [done..|by rewrite Ef|].
  apply Hw; [|done..]. eapply wf_weaken; [|done]. by intros j [? _].
Qed.

Lemma wired_track b (env : Env IO) id ep st chk (v : Svc S) :
  wired b v → wired b (trackExternalProvider env id ep st chk v).
Proof.
  intros [Hh Ho Hf Hm]. unfold trackExternalProvider, monRegister. rewrite Hh.
  set (v1 := set_health _ v). set (c := ExternalChecker _).
  pose proof (register_flags id c st Unhealthy chk (env_check env) (env_check_now env) (mon v1)) as Ef.
  pose proof (wf_register id c st Unhealthy chk (env_check env) (env_check_now env) (mon v1)) as Hw.
  destruct (RegisterProvider _ _ _ _ _ _ _ _) as [ts m]. simpl in *.
  split; simpl; [done..|by rewrite Ef|]. apply Hw; [by apply wf_track|by injection Hf|].
  right. intros Hid. change (_ !! id) with
    (HealthTracker.GetState id (HealthTracker.SetState id Unhealthy time_zero (tracker (mon v)))).
  by rewrite HealthTracker.GetState_SetState.
Qed.

Lemma wired_load (env : Env IO) l (v : Svc S) : wired false v → wired false (fold_left (loadOne env) l v).
Proof.
  revert v. induction l as [|p l IH]; intros v Hv; simpl; [done|]. apply IH. unfold loadOne.
  destruct (negb _); [done|]. destruct (Registry.Claim _ _ _) as [[e|] reg]; [by apply (wired_frame false v)|].
  apply wired_track. by apply (wired_frame false v).
Qed.

Lemma wired_cleanup b (env : Env IO) p (v : Svc S) : wired b v → wired b (cleanupEmbeddedRecord env p v).
Proof.
  intros [Hh Ho Hf Hm]. unfold cleanupEmbeddedRecord. destruct (Delete _ _ _) as [e s]. simpl. rewrite Hh.
  split; simpl; [done..|]. by apply wf_deregister.
Qed.

Lemma wired_stale b (env : string → Env IO) en l (v : Svc S) :
  wired b v → wired b (fold_left (removeStaleOne env en) l v).
Proof.
  revert v. induction l as [|p l IH]; intros v Hv; simpl; [done|]. apply IH. unfold removeStaleOne.
  destruct (_ && _); [|done]. apply wired_cleanup. repeat case_match; try done; by apply (wired_frame b v).
Qed.

Lemma wired_embedded b (env : Env IO) st (v : Svc S) : wired b v → wired b (registerEmbeddedType env v st).
Proof.
  intros Hv. unfold registerEmbeddedType. destruct (GetByName _ _ _) as [ex|]; [|done].
  destruct (is_type _ _); [done|]. destruct (Registry.Claim _ _ _) as [[e|] reg].
  - destruct ex; [|by apply (wired_frame b v)]. destruct (_ =s? _); [|by apply (wired_frame b v)].
    apply wired_cleanup. by apply (wired_frame b v).
  - destruct (resolveEmbeddedIdentity _ _ _) as [id ct]. destruct (Save _ _ _) as [err s]. simpl.
    rewrite (wi_has _ _ Hv).
    assert (wired b (monRegister env id (embeddedChecker st (set_store s (set_registry reg v))) st Ready true
      (set_store s (set_registry reg v)))) as Hr.
    { apply wired_register; [by apply (wired_frame b v)|by left]. }
    destruct err, ex; try done. by apply (wired_frame b v).
Qed.

Lemma wired_boot e th cs sps s (v : Svc S) : boot e th cs sps s = (None, v) → wired true v.
Proof.
  unfold boot, LoadPersisted. destruct (List_ _ _) as [l|]; [|done]. simpl. intros [= <-].
  set (v0 := NewService _ _ _ _). assert (wired false v0) as H0.
  { split; [done..|]. split; simpl; intros *; by rewrite lookup_empty. }
  apply (wired_load (boot_load e) l) in H0. clearbody v0. revert H0. generalize (fold_left (loadOne (boot_load e)) l v0).
  intros v1 [Hh Ho Hf Hm]. unfold RegisterEmbedded. set (v3 := SetEmbeddedCheckers _ _).
  assert (wired true v3) as H3.
  { split; [done..| |]; [injection Hf as _ Hs; unfold flags; simpl; by rewrite Hs|]. by destruct Hm. }
  clearbody v3. set (v4 := removeStaleEmbedded _ _ _ _). assert (wired true v4) as H4.
  { unfold v4, removeStaleEmbedded. destruct (List_ _ _); [|done]. by apply wired_stale. }
  clearbody v4. generalize 0%nat. revert v4 H4. induction (embedded_types sps) as [|t ts IH]; intros v4 H4 i; simpl; [done|].
  by apply IH, wired_embedded.
Qed.

(** *** A step that changes what is advertised notifies the registrar *)

Lemma lister_answer env (v : Svc S) :
  store_inv (store v) →
  AdvertisableServiceTypes unmarshal_meta env v = match List_ (env_get env) (store v) with
                                                  | Ok _ => advertised v
                                                  | Err _ => []
                                                  end.
Proof.
  intros Hs. unfold AdvertisableServiceTypes, ListProviders. destruct (List_ _ _) as [l|] eqn:E; [|done].
  apply list_spec in E as ->; [done|done].
Qed.

(** What is advertised depends on the records and on which are Unavailable. *)
Lemma advertised_same (v v' : Svc S) :
  contents (store v') = contents (store v) →
  (∀ p, p ∈ contents (store v) → api_Status (toAPI v' p) = Unavailable ↔ api_Status (toAPI v p) = Unavailable) →
  advertised v' = advertised v.
Proof.
  unfold advertised. intros ->. induction (contents (store v)) as [|p l IH]; intros Hp; [done|].
  rewrite !fmap_cons, !filter_cons. pose proof (Hp p (list_elem_of_here _ _)) as Hq.
  assert (api_ServiceType (toAPI v' p) = api_ServiceType (toAPI v p)) as Est.
  { unfold Service.toAPI. by repeat case_match. }
  do 2 case_decide; rewrite ?fmap_cons, ?Est, IH by (intros q ?; apply Hp; by right); tauto.
Qed.

Lemma toAPI_status (v : Svc S) p :
  api_Status (toAPI v p) = default Unavailable (Status <$> tracker (mon v) !! ID p).
Proof. unfold Service.toAPI, HealthTracker.GetState. by destruct (_ !! ID p). Qed.

(** The status the API shows of a provider. *)
Definition shown (m : Monitor) (id : string) : ProviderStatus := default Unavailable (Status <$> tracker m !! id).

(** A transition the registrar is told of. *)
Definition loud (t : transition) : Prop := tr_from t = Unavailable ∨ tr_to t = Unavailable.

(** A recorded check of a provider whose machine is the one shown: its
    transition is the change of the shown status, and no other status changes. *)
Lemma check_transition (ok : string → Prop) id n r now m ts m' :
  recordCheck id n r now m = (ts, m') → mon_wf ok m → ok id → named id → callback m = true →
  (∀ j, j ≠ id → shown m' j = shown m j) ∧
  ts = if decide (shown m' id = shown m id) then []
       else [{| tr_id := id; tr_from := shown m id; tr_to := shown m' id |}].
Proof.
  unfold recordCheck, shown. intros Hr [H1 H2 H3] Hok Hid Hcb.
  destruct (providers m !! id) as [e|] eqn:Ee; [|simplify_eq; by rewrite decide_True].
  case_bool_decide as Ha; [subst n|simplify_eq; by rewrite decide_True].
  destruct (heap m !! sm e) as [mc|] eqn:Em; [|simplify_eq; by rewrite decide_True].
  destruct (RecordResult r mc) as [[from to] mc'] eqn:Er. simplify_eq/=.
  assert (from = state mc) as -> by (revert Er; unfold RecordResult; by intros [= <- _ _]).
  rewrite (H3 id e mc Hok Ee Em), Hcb, andb_true_r. simpl.
  change (HealthTracker.SetState id to now (tracker m) !! id) with
    (HealthTracker.GetState id (HealthTracker.SetState id to now (tracker m))).
  rewrite HealthTracker.GetState_SetState by done. simpl. split.
  - intros j Hj. fold (HealthTracker.GetState j (HealthTracker.SetState id to now (tracker m))).
    by rewrite HealthTracker.GetState_SetState_ne.
  - case_bool_decide as E; simpl; [rewrite decide_True by done|rewrite decide_False by done]; done.
Qed.

Lemma check_anonymous n r now m ts m' : recordCheck "" n r now m = (ts, m') → tracker m' = tracker m.
Proof. unfold recordCheck. repeat case_match; intros; simplify_eq; done. Qed.

(** A check that changes what is advertised leaves a loud callback to call. *)
Lemma check_signalled (ok : string → Prop) id n r now (v : Svc S) ts m :
  recordCheck id n r now (mon v) = (ts, m) → mon_wf ok (mon v) → (id = "" ∨ ok id) → callback (mon v) = true →
  advertised (set_mon m [] v) ≠ advertised v → Exists loud ts.
Proof.
  intros Hr Hm Hok Hcb Hne. destruct (decide (id = "")) as [->|Hid].
  { apply check_anonymous in Hr. destruct Hne. apply advertised_same; [done|].
    intros p _. rewrite !toAPI_status. simpl. by rewrite Hr. }
  destruct Hok as [|Hok]; [done|].
  destruct (check_transition ok id n r now _ ts m Hr Hm Hok Hid Hcb) as [Hj ->].
  case_decide as Ed.
  - destruct Hne. apply advertised_same; [done|]. intros p _. rewrite !toAPI_status.
    fold (shown (mon v) (ID p)). simpl. fold (shown m (ID p)).
    destruct (decide (ID p = id)) as [->|]; [by rewrite Ed|]. by rewrite Hj.
  - apply Exists_cons_hd. unfold loud. simpl.
    destruct (decide (shown (mon v) id = Unavailable)) as [|Hu]; [by left|].
    destruct (decide (shown m id = Unavailable)) as [|Hu']; [by right|].
    destruct Hne. apply advertised_same; [done|]. intros p _. rewrite !toAPI_status.
    fold (shown (mon v) (ID p)). simpl. fold (shown m (ID p)).
    destruct (decide (ID p = id)) as [->|]; [|by rewrite Hj]. tauto.
Qed.

(** Saving a registration leaves the monitor alone; a failed one leaves what is
    advertised alone too. *)
Lemma save_frame env inp (v : Svc S) r v' :
  store_inv (store v) → saveRegistration env inp v = (r, v') →
  store_inv (store v') ∧ mon v' = mon v ∧ has_mon v' = has_mon v ∧ onChange v' = onChange v ∧
  (∀ e, r = Err e → advertised v' = advertised v).
Proof.
  intros Hs. unfold saveRegistration.
  destruct (GetByName _ _ _) as [[q|]|e0]; [| |by intros [= <- <-]].
  - destruct (ensureIDConsistency _ _); [by intros [= <- <-]|].
    destruct (if negb _ then Registry.Move _ _ _ _ else _) as [[e|] reg]; [by intros [= <- <-]|].
    pose proof (save_inv (env_save env) (updated_record q inp (env_now env)) (store v) Hs) as Hi.
    pose proof (save_err (env_save env) (updated_record q inp (env_now env)) (store v) Hs) as He. simpl.
    destruct (Save _ _ _) as [[e|] s]; simpl in *; intros [= <- <-]; [|done].
    specialize (He (λ H, ltac:(discriminate H))).
    destruct (negb _); (split_and!; [done..|]); intros _ _; by apply advertised_same.
  - destruct (assignProviderID _ _ _) as [id|]; [|by intros [= <- <-]].
    destruct (Registry.Claim _ _ _) as [[e|] reg]; [by intros [= <- <-]|].
    pose proof (save_inv (env_save env) (new_record id inp (env_now env)) (store v) Hs) as Hi.
    pose proof (save_err (env_save env) (new_record id inp (env_now env)) (store v) Hs) as He. simpl.
    destruct (Save _ _ _) as [[e|] s]; simpl in *; intros [= <- <-]; [|done].
    specialize (He (λ H, ltac:(discriminate H))).
    split_and!; [done..|]. intros _ _. by apply advertised_same.
Qed.

(** *** The registrar is told of every change *)

(** The provider whose registration has written its status and not yet recorded
    its initial check: the tracker may differ from its state machine. *)
Definition window (u : option registering) : option string :=
  match u with
  | Some g => match g_stage g with Saved => None | _ => Some (k_id (g_what g)) end
  | None => None
  end.

Definition settled (u : option registering) (id : string) : Prop := named id ∧ window u ≠ Some id.

Definition entered (u : option registering) (m : Monitor) : Prop :=
  match u with
  | Some (mkRegistering _ k (Entered n)) =>
      ∃ e, providers m !! k_id k = Some e ∧ sm e = n ∧ is_Some (heap m !! n)
  | _ => True
  end.

(** The provider side of the agent's invariant. *)
Record provider_inv (u : option registering) (v : Svc S) : Prop := {
  pi_has : has_mon v = true;
  pi_onChange : onChange v = true;
  pi_flags : flags (mon v) = (true, false);
  pi_mon : mon_wf (settled u) (mon v);
  pi_entered : entered u (mon v);
  pi_store : store_inv (store v)
}.

(** A notification of the registrar is certain to follow. *)
Definition promised (a : agent) : Prop :=
  underway a ≠ None ∨ notifies a ≠ O ∨ Exists loud (callbacks a).

Record agent_inv (a : agent) : Prop := {
  ai_provider : provider_inv (underway a) (svc a);
  ai_types : Registrar.types (registrar a) = advertised (svc a);
  ai_owed : Registrar.owed (registrar a) = true → promised a;
  ai_fresh : Registrar.fresh (registrar a)
}.

Lemma feed_fresh is_ s : Registrar.fresh s → Registrar.fresh (feed is_ s).
Proof.
  revert s. induction is_ as [|i is_ IH]; intros s Hs; simpl; [done|]. by apply IH, Registrar.step_fresh.
Qed.

Lemma go_frame fails e s :
  Registrar.types (Registrar.go http_ParseTime cfg fails e s) = Registrar.types s ∧
  Registrar.owed (Registrar.go http_ParseTime cfg fails e s) = Registrar.owed s.
Proof. unfold Registrar.go. by repeat (case_match; simplify_eq/=). Qed.

Lemma provider_step_inv v u n ts a :
  agent_inv a → provider_inv u v →
  (advertised v ≠ advertised (svc a) ∨ promised a →
   u ≠ None ∨ (notifies a + n)%nat ≠ O ∨ Exists loud (callbacks a ++ ts)) →
  agent_inv (provider_step v u n ts a).
Proof.
  intros [Hp Ht Ho Hf] Hv Hn. unfold provider_step, changed.
  split; simpl; [done| | |by apply feed_fresh]; case_decide as Ed; simpl; [congruence|done| |]; intros Hw; apply Hn; auto.
Qed.

Lemma settled_named u j : settled u j → named j.
Proof. by intros []. Qed.

Lemma check_inv a id n r now : agent_inv a → agent_inv (agent_step a (OnCheck id n r now)).
Proof.
  intros Ha. pose proof Ha as [[Hh Hc Hf Hm He Hs] _ _ _]. simpl.
  pose proof (wf_record _ id n r now _ (settled_named (underway a)) Hm) as Hw.
  pose proof (record_flags id n r now (mon (svc a))) as Hfl.
  pose proof (record_entries id n r now (mon (svc a))) as [Hpr Hhp].
  destruct (recordCheck id n r now (mon (svc a))) as [ts m] eqn:Er. simpl in *.
  assert (callback (mon (svc a)) = true) as Hcb by (by injection Hf).
  apply provider_step_inv; [done| |].
  - split; simpl; [done..|by rewrite Hfl|done| |done].
    unfold entered in *. destruct (underway a) as [[? k [| |b]]|]; [done..| |done].
    destruct He as (e & ? & ? & ?). exists e. rewrite Hpr. auto.
  - rewrite Nat.add_0_r, Exists_app. intros [Hne|[|[|]]]; [|by auto..].
    destruct (decide (underway a = None)) as [Hu|]; [|by left].
    right. right. right. eapply check_signalled; [done..| |done|done].
    destruct (decide (id = "")); [by left|right]. split; [done|]. by rewrite Hu.
Qed.

Lemma provider_inv_frame u u' (v v' : Svc S) :
  provider_inv u v → window u' = window u → entered u' (mon v) → has_mon v' = has_mon v → onChange v' = onChange v →
  mon v' = mon v → store_inv (store v') → provider_inv u' v'.
Proof.
  intros [? ? ? Hm ? ?] Hw He E1 E2 E3 Hs. split; rewrite ?E1, ?E2, ?E3; [done..| |done|done].
  eapply wf_weaken; [|done]. intros j [? Hj]. split; [done|]. by rewrite <-Hw.
Qed.

Lemma registering_inv a env inp : agent_inv a → agent_inv (agent_step a (OnRegister env inp)).
Proof.
  intros Ha. pose proof Ha as [Hp _ _ _]. cbn [agent_step]. destruct (underway a) as [g|] eqn:Eu; [done|].
  destruct (saveRegistration env inp (svc a)) as [r v] eqn:Er.
  apply save_frame in Er as (Hs & Em & Eh & Eo & He); [|apply Hp].
  destruct r as [[k|]|e]; apply provider_step_inv; try done; try (by eapply provider_inv_frame).
  - by left.
  - right. left. lia.
  - rewrite (He e), Nat.add_0_r, app_nil_r by done. unfold promised. rewrite Eu. intros [|[]]; auto.
Qed.

(** Writing the status opens the window. *)
Lemma track_inv env k (v : Svc S) :
  provider_inv (Some (mkRegistering env k Saved)) v →
  provider_inv (Some (mkRegistering env k Tracked))
    (set_health (HealthTracker.SetState (k_id k) Unhealthy time_zero (tracker (mon v))) v).
Proof.
  intros [? ? ? Hm _ ?]. split; simpl; [done..| |done|done].
  eapply wf_weaken; [|apply wf_track; eapply wf_weaken; [|exact Hm]].
  - intros j [? Hj]. split; [done|]. intros ->. by apply Hj.
  - by intros j ?.
Qed.

(** Entering the monitor. *)
Lemma enter_inv env k c st n m (v : Svc S) :
  provider_inv (Some (mkRegistering env k Tracked)) v →
  registerEntry (k_id k) c st Unhealthy (mon v) = (Some n, m) →
  provider_inv (Some (mkRegistering env k (Entered n))) (set_mon m [] v).
Proof.
  intros [? ? Hf Hm _ ?] He. pose proof (wf_enter (k_id k) c st Unhealthy (mon v)) as Hw. rewrite He in Hw. simpl in Hw.
  assert (mon_wf (but (k_id k)) (mon v)) as Hb.
  { eapply wf_weaken; [|exact Hm]. intros j [? Hj]. split; [done|]. intros [= <-]. by apply Hj. }
  specialize (Hw Hb). unfold registerEntry in He. assert (stopped (mon v) = false) as Hs by (by injection Hf).
  rewrite Hs in He. injection He as <- <-. split; simpl; [done..|by injection Hf as -> | | |done].
  - eapply wf_weaken; [|exact Hw]. intros j [? Hj]. split; [done|]. intros ->. by apply Hj.
  - eexists. rewrite lookup_insert_eq. split; [done|]. split; [done|]. by rewrite lookup_insert_eq.
Qed.

(** Recording the initial check closes the window. *)
Lemma finish_inv env k n r now ts m (v : Svc S) :
  provider_inv (Some (mkRegistering env k (Entered n))) v → finishInitial (k_id k) n r now (mon v) = (ts, m) →
  provider_inv None (set_mon m [] v).
Proof.
  intros [? ? Hf Hm (e & He & <- & [mc Hmc]) ?] Hr. unfold finishInitial in Hr.
  assert (stopped (mon v) = false) as Hs by (by injection Hf). rewrite Hs in Hr.
  pose proof (record_flags (k_id k) (sm e) r now (mon v)) as Hfl.
  pose proof (wf_record_own (settled None) (k_id k) e mc r now (mon v) (settled_named None)) as Hw.
  rewrite Hr in Hfl, Hw. simpl in Hfl, Hw. split; simpl; [done..|by rewrite Hfl| |done|done].
  apply Hw; [|done..]. eapply wf_weaken; [|exact Hm]. intros j [[? _] Hj]. split; [done|]. by intros [= <-].
Qed.

Lemma continue_inv a : agent_inv a → agent_inv (agent_step a OnContinue).
Proof.
  intros Ha. pose proof Ha as [Hp _ _ _]. cbn [agent_step]. destruct (underway a) as [[env k stg]|] eqn:Eu; [|done].
  unfold continue_registration. cbn [g_what g_stage g_env]. destruct k as [id ep st]. destruct stg as [| |n].
  - apply provider_step_inv; [done|by apply (track_inv env (mkTracking id ep st))|by left].
  - rewrite (pi_has _ _ Hp). destruct (registerEntry _ _ _ _ _) as [[n|] m] eqn:Ee.
    + apply provider_step_inv; [done|by eapply (enter_inv env (mkTracking id ep st))|by left].
    + exfalso. unfold registerEntry in Ee. pose proof (pi_flags _ _ Hp) as Hf. injection Hf as _ Hs.
      by rewrite Hs in Ee.
  - destruct (finishInitial _ _ _ _ _) as [ts m] eqn:Er.
    apply provider_step_inv; [done|by eapply (finish_inv env (mkTracking id ep st))|right; left; lia].
Qed.

Lemma notified_inv a : agent_inv a → agent_inv (agent_step a OnNotify).
Proof.
  intros Ha. cbn [agent_step]. destruct (notifies a) as [|n] eqn:En; [done|]. destruct Ha as [Hp Ht Ho Hf].
  rewrite (pi_onChange _ _ Hp). split; simpl; [done..|].
  by apply (feed_fresh [Registrar.Notify]).
Qed.

(** A loud callback notifies the registrar; a quiet one owes it nothing. *)
Lemma callback_inv a i io : agent_inv a → agent_inv (agent_step a (OnCallback i io)).
Proof.
  intros Ha. cbn [agent_step]. destruct (callbacks a !! i) as [t|] eqn:Et; [|done]. destruct Ha as [Hp Ht Ho Hf].
  unfold perform, on_notification, onTransition. rewrite !omap_app. simpl.
  destruct (bool_decide (tr_from t = Unavailable) || bool_decide (tr_to t = Unavailable)) eqn:El; simpl.
  - split; simpl; [done..|]. by apply (feed_fresh [Registrar.Notify]).
  - split; simpl; [done..| |done]. intros [|[|Hc]]%Ho; [by left|by right; left|]. right. right. simpl.
    apply Exists_exists in Hc as (t' & Hin & Hl). apply Exists_exists. exists t'. split; [|done].
    apply list_elem_of_lookup in Hin as [j Hj]. apply orb_false_iff in El as [E1%bool_decide_eq_false E2%bool_decide_eq_false].
    assert (i ≠ j) by (intros ->; destruct Hl; congruence).
    rewrite delete_take_drop. apply elem_of_app. destruct (decide (j < i)%nat).
    + left. apply list_elem_of_lookup. exists j. by rewrite lookup_take_lt.
    + right. apply list_elem_of_lookup. exists (j - Datatypes.S i)%nat. rewrite lookup_drop. by replace (_ + _)%nat with j by lia.
Qed.

Lemma agent_step_inv a ev : agent_inv a → agent_inv (agent_step a ev).
Proof.
  intros Ha. destruct ev as [env inp| | |id n r now|i io|fails e|];
    [by apply registering_inv|by apply continue_inv|by apply notified_inv|by apply check_inv|by apply callback_inv| |].
  - destruct Ha as [Hp Ht Ho Hf]. destruct (go_frame fails e (registrar a)) as [Et Eo].
    split; simpl; [done|congruence| |by apply (feed_fresh [Registrar.Go fails e])].
    rewrite Eo. exact Ho.
  - destruct Ha as [Hp Ht Ho Hf]. split; simpl; [done..|]. by apply (feed_fresh [Registrar.Cancel]).
Qed.

Lemma agent_run_inv e th cs sps s v evs :
  store_inv s → NoDup (Name <$> contents s) → NoDup (external_types (contents s)) →
  boot e th cs sps s = (None, v) → agent_inv (agent_run v evs).
Proof.
  intros H1 H2 H3 Hb. unfold agent_run. assert (agent_inv (agent_start v)) as H0.
  { split; [|done..]. pose proof (wired_boot _ _ _ _ _ _ Hb) as [? ? ? Hm].
    split; [done..| |done|by eapply si_store, boot_inv]. eapply wf_weaken; [|exact Hm]. by intros j []. }
  revert H0. generalize (agent_start v). induction evs as [|ev evs IH]; intros a Ha; simpl; [done|].
  by apply IH, agent_step_inv.
Qed.

Lemma locked_in_stages env inp (v : Svc S) :
  match saveRegistration env inp v with
  | (Err e, w) => registerLocked unmarshal_meta env inp v = (Err e, w)
  | (Ok None, w) => ∃ x, registerLocked unmarshal_meta env inp v = (Ok x, w)
  | (Ok (Some k), w) => ∃ x, registerLocked unmarshal_meta env inp v =
      (Ok x, trackExternalProvider env (k_id k) (k_endpoint k) (k_serviceType k) true w)
  end.
Proof.
  unfold saveRegistration, registerLocked, updateRegistration, createRegistration.
  destruct (GetByName _ _ _) as [[q|]|e0]; [| |done].
  - destruct (ensureIDConsistency _ _); [done|].
    destruct (if negb _ then Registry.Move _ _ _ _ else _) as [[e|] reg]; [done|].
    destruct (Save _ _ _) as [[e|] s]; [done|]. simpl. destruct (_ || _); by eexists.
  - destruct (assignProviderID _ _ _) as [id|]; [|done].
    destruct (Registry.Claim _ _ _) as [[e|] reg]; [done|].
    destruct (Save _ _ _) as [[e|] s]; [done|]. by eexists.
Qed.

Lemma continue_eq a g : underway a = Some g → agent_step a OnContinue = continue_registration g a.
Proof. intros Hu. cbn [agent_step]. by rewrite Hu. Qed.

(** Left alone, the stages after the save are [trackExternalProvider]. *)
Lemma track_in_stages env id ep st a :
  underway a = Some (mkRegistering env (mkTracking id ep st) Saved) → has_mon (svc a) = true →
  let a' := fold_left agent_step [OnContinue; OnContinue; OnContinue] a in
  let v' := trackExternalProvider env id ep st true (svc a) in
  store (svc a') = store v' ∧ registry (svc a') = registry v' ∧ mon (svc a') = mon v' ∧
  underway a' = None ∧ notifies a' = Datatypes.S (notifies a).
Proof.
  intros Hu Hh. cbn [fold_left]. rewrite (continue_eq a _ Hu). cbn [continue_registration g_what g_stage g_env].
  unfold trackExternalProvider, monRegister, RegisterProvider. rewrite Hh.
  set (v1 := set_health _ (svc a)). assert (has_mon v1 = true) as Hh1 by done.
  set (a1 := provider_step v1 _ _ _ a). assert (svc a1 = v1 ∧ notifies a1 = notifies a + 0)%nat as [Ev En] by done.
  assert (underway a1 = Some (mkRegistering env (mkTracking id ep st) Tracked)) as Hu1 by done. clearbody a1 v1.
  rewrite (continue_eq a1 _ Hu1). cbn [continue_registration g_what g_stage g_env]. rewrite Ev, Hh1.
  destruct (registerEntry _ _ _ _ _) as [[n|] m]; [|cbn; split_and!; try done; lia].
  set (v2 := set_mon m [] v1). set (a2 := provider_step v2 _ _ _ a1).
  assert (svc a2 = v2 ∧ notifies a2 = notifies a1 + 0)%nat as [Ev2 En2] by done.
  assert (underway a2 = Some (mkRegistering env (mkTracking id ep st) (Entered n))) as Hu2 by done.
  assert (mon v2 = m ∧ store v2 = store v1 ∧ registry v2 = registry v1) as (Em & Es & Er) by done. clearbody a2 v2.
  rewrite (continue_eq a2 _ Hu2). cbn [continue_registration g_what g_stage g_env]. rewrite Ev2, Em.
  destruct (finishInitial _ _ _ _ _) as [ts m']. cbn. split_and!; try done; lia.
Qed.

Lemma notify_step a : svc (agent_step a OnNotify) = svc a ∧ underway (agent_step a OnNotify) = underway a ∧
  notifies (agent_step a OnNotify) = pred (notifies a).
Proof. cbn [agent_step]. by destruct (notifies a) eqn:E; simpl; rewrite ?E. Qed.

(** Left alone, the stages of a registration are [Service.Register]. *)
Theorem register_in_stages env inp a :
  underway a = None → notifies a = O → has_mon (svc a) = true →
  let a' := fold_left agent_step [OnRegister env inp; OnContinue; OnContinue; OnContinue; OnNotify] a in
  let v' := (Register env inp (svc a)).2 in
  store (svc a') = store v' ∧ registry (svc a') = registry v' ∧ mon (svc a') = mon v' ∧
  underway a' = None ∧ notifies a' = O.
Proof.
  intros Hu Hn Hh. change [_; _; _; _; _] with ([OnRegister env inp] ++ [OnContinue; OnContinue; OnContinue] ++ [OnNotify]).
  rewrite !fold_left_app. cbn zeta. cbn [fold_left]. set (a1 := agent_step a (OnRegister env inp)).
  assert (∀ x, underway x = None → agent_step x OnContinue = x) as Hidle by (intros x Hx; cbn [agent_step]; by rewrite Hx).
  pose proof (track_in_stages env) as Htr. cbn [fold_left] in Htr.
  destruct (notify_step (agent_step (agent_step (agent_step a1 OnContinue) OnContinue) OnContinue)) as (-> & -> & ->).
  unfold Service.Register. pose proof (locked_in_stages env inp (svc a)) as Hl.
  assert (has_mon (saveRegistration env inp (svc a)).2 = true) as Hm.
  { unfold saveRegistration. by repeat (case_match; simplify_eq/=). }
  assert (a1 = match saveRegistration env inp (svc a) with
               | (Err _, v) => provider_step v None 0 [] a
               | (Ok None, v) => provider_step v None 1 [] a
               | (Ok (Some k), v) => provider_step v (Some (mkRegistering env k Saved)) 0 [] a
               end) as Ea by (unfold a1; cbn [agent_step]; by rewrite Hu).
  clearbody a1. destruct (saveRegistration env inp (svc a)) as [[[k|]|e] w]; simpl in Hm; subst a1.
  - destruct Hl as [x ->], k as [id ep st].
    destruct (Htr id ep st (provider_step w (Some (mkRegistering env (mkTracking id ep st) Saved)) 0 [] a) eq_refl Hm)
      as (-> & -> & -> & -> & ->).
    cbn [k_id k_endpoint k_serviceType fst snd svc provider_step].
    destruct (notifyChange_frame (trackExternalProvider env id ep st true w)) as (-> & -> & ->).
    split_and!; try done. simpl. rewrite Hn. done.
  - destruct Hl as [x ->]. rewrite !Hidle by done. cbn [fst snd]. destruct (notifyChange_frame w) as (-> & -> & ->).
    split_and!; try done. simpl. by rewrite Hn.
  - rewrite Hl, !Hidle by done. split_and!; try done. simpl. by rewrite Hn.
Qed.

(** C14: the control plane learns what the agent can serve: in an agent started
    on any consistent store, after any interleaving of the critical sections of
    registrations (a provider's record is saved, its status written, its monitor
    entry made and its initial check recorded in separate steps, other checks
    and the registrar in between), recorded health checks (stale ones included),
    calls of the transition callback and of notifyChange, and steps of the
    registrar: whenever no registration is under way, no callback and no
    notification is still to be made, and the registrar is in its event loop with
    no notification pending, the service types the control plane accepted are
    those of the stored providers whose status is not Unavailable, unless a
    re-registration was given up since the last accepted one or the provider
    store could not be read when the accepted one was built.  Reading the
    advertisable types is one step of the registrar. *)
Theorem advertised_types_converge e th cs sps s v evs :
  store_inv s → NoDup (Name <$> contents s) → NoDup (external_types (contents s)) →
  boot e th cs sps s = (None, v) →
  let a := agent_run v evs in
  underway a = None → notifies a = O → callbacks a = [] →
  Registrar.at_ (Registrar.reg (registrar a)) = Registrar.Idle →
  Registrar.ctxDone (Registrar.reg (registrar a)) = false →
  Registrar.notifyCh (Registrar.reg (registrar a)) = false →
  Registrar.given_up (registrar a) = false → Registrar.unread (registrar a) = false →
  Registrar.dcm (registrar a) = Some (advertised (svc a)).
Proof.
  intros H1 H2 H3 Hb a Hu Hn Hc. destruct (agent_run_inv e th cs sps s v evs H1 H2 H3 Hb) as [_ Ht Ho Hf].
  fold a in Ht, Ho, Hf. assert (Registrar.owed (registrar a) = false) as Ho'.
  { destruct (Registrar.owed _); [|done]. destruct Ho as [|[|Hl]]; [done..|]. rewrite Hc in Hl. by apply Exists_nil in Hl. }
  unfold Registrar.fresh in Hf. intros Ha Hd Hp Hg Hr.
  rewrite Ha, Hd, Hp, Ho', Hg, Hr, Ht in Hf. simpl in Hf. by destruct Hf as [|[|[]]].
Qed.


(** *** Health events *)

(** What is published when the shown status of a provider becomes [to]. *)
Definition event_of (p : CEPublisher) (sp : StoredProvider) (to : ProviderStatus) : list HealthEvent :=
  match event_for to with
  | Some (ty, reason) => [mkEvent SubjectHealth ("dcm/agents/" +:+ pub_agentName p) ty (event_data p sp reason)]
  | None => []
  end.

Lemma stored_id (s : S) id sp :
  store_inv s → List.find (by_id id) (contents s) = Some sp → ID sp = id ∧ id ≠ "".
Proof.
  intros Hs [Hin Hid]%List.find_some. apply bool_decide_eq_true in Hid. split; [done|]. subst id.
  pose proof (contents_valid s Hs) as Hv. rewrite List.Forall_forall in Hv. specialize (Hv sp Hin).
  intros He. revert Hv. unfold validateStoredProvider, missing. by rewrite He.
Qed.

Lemma publish_answer p io (s : S) id to r :
  pub_agentName p ≠ "" → store_inv s → GetByID io id s = Ok r →
  option_list (OnTransition p io s id to) = match List.find (by_id id) (contents s) with
                                            | Some sp => event_of p sp to
                                            | None => []
                                            end.
Proof.
  intros Hp Hs Hg. unfold OnTransition, event_of, FormatSource. rewrite Hg, bool_decide_eq_false_2 by done.
  apply get_by_id_spec in Hg as ->; [|done]. by destruct (event_for to) as [[ty reason]|], (List.find _ _).
Qed.

(** C29: health events match the statuses the API shows, in two steps.  At any
    moment of the running agent, recording a check of a stored provider hands the
    transition callback the change of the status the API shows of it, and
    nothing when that status does not change (a stale check included); calling
    the callback publishes one event when the new status is Unhealthy (degraded)
    or Unavailable and the provider is then stored, naming that provider, its
    service type and the agent, and none for a recovery.  The first part leaves
    out a provider whose registration has written its status and not yet recorded
    its initial check (see [stale_check_unreported]).  The agent has a name and
    the lookup of the provider succeeds. *)
Theorem health_events_match_status e th cs sps s v0 evs :
  store_inv s → NoDup (Name <$> contents s) → NoDup (external_types (contents s)) →
  boot e th cs sps s = (None, v0) → pub_agentName publisher ≠ "" →
  let a := agent_run v0 evs in
  (∀ id n r now sp, List.find (by_id id) (contents (store (svc a))) = Some sp → window (underway a) ≠ Some id →
     let a' := agent_step a (OnCheck id n r now) in
     let before := api_Status (toAPI (svc a) sp) in
     let after := api_Status (toAPI (svc a') sp) in
     events a' = events a ∧
     callbacks a' = callbacks a ++
       (if decide (after = before) then [] else [{| tr_id := id; tr_from := before; tr_to := after |}])) ∧
  (∀ i t io found, callbacks a !! i = Some t → GetByID io (tr_id t) (store (svc a)) = Ok found →
     let a' := agent_step a (OnCallback i io) in
     callbacks a' = delete i (callbacks a) ∧
     events a' = events a ++ match List.find (by_id (tr_id t)) (contents (store (svc a))) with
                             | Some sp => event_of publisher sp (tr_to t)
                             | None => []
                             end).
Proof.
  intros H1 H2 H3 Hb Hp a. destruct (agent_run_inv e th cs sps s v0 evs H1 H2 H3 Hb) as [[_ _ Hf Hm _ Hs] _ _ _].
  fold a in Hf, Hm, Hs. split.
  - intros id n r now sp Hsp Hw a' before after. subst a' before after. cbn [agent_step].
    destruct (recordCheck id n r now (mon (svc a))) as [ts m] eqn:Er. split; [done|]. cbn [callbacks provider_step]. f_equal.
    apply stored_id in Hsp as [Ei Hid]; [|done].
    assert (callback (mon (svc a)) = true) as Hcb by (by injection Hf).
    destruct (check_transition _ id n r now _ ts m Er Hm (conj Hid Hw) Hid Hcb) as [_ ->].
    rewrite !toAPI_status, Ei. reflexivity.
  - intros i t io found Hi Hg a'. subst a'. cbn [agent_step]. rewrite Hi. split; [done|].
    rewrite <-(publish_answer publisher io (store (svc a)) (tr_id t) (tr_to t) found Hp Hs Hg).
    cbn [events perform]. f_equal. unfold on_notification, onTransition. rewrite omap_app.
    cbn [svc]. destruct (_ || _); simpl; by destruct (OnTransition _ _ _ _ _).
Qed.

End Running.

(** ** A run of the agent

    Threshold 3, one embedded provider "db" and one external one registered for
    "vm", which then fails three checks. *)
Module TransitionRun.

Definition publisher : CEPublisher := mkPublisher "agent" "topic".

Definition go (p : Registrar.pick) : agent_event (IO := FileIO) := OnRegistrar false (Registrar.sample_env p).
Definition failed (id : string) (a : nat) : agent_event (IO := FileIO) := OnCheck id a CheckFailed 50.

(** "vm" is registered, here with a periodic check of "db" (machine 0) between
    the stages. *)
Definition register_vm : list agent_event :=
  [OnRegister (sample_env 40 "u2" io_ok) (sample_input "vm"); OnContinue; OnCheck "emb-1" 0 CheckHealthy 45;
   OnContinue; OnContinue; OnNotify].

(** The registrar registers "db", then "vm" comes and goes. *)
Definition life : list agent_event :=
  [go Registrar.PickTimer; go Registrar.PickTimer; go Registrar.PickTimer; go Registrar.PickTimer] ++
  register_vm ++ [go Registrar.PickNotify; go Registrar.PickTimer; go Registrar.PickTimer] ++
  [failed "id-1" 1; failed "id-1" 1; failed "id-1" 1; OnCallback 0 io_ok; OnCallback 0 io_ok] ++
  [go Registrar.PickNotify; go Registrar.PickTimer; go Registrar.PickTimer].

Definition run (n : nat) : agent (S := Disk) :=
  agent_run no_meta (λ _, None) Registrar.sample_cfg publisher sample_start (take n life).

Lemma disk_ok : store_inv empty_disk.
Proof. vm_compute. exact (conj I I) || (split; constructor) || constructor. Qed.

Lemma disk_empty : contents empty_disk = [].
Proof. vm_compute. reflexivity. Qed.

Lemma disk_names : NoDup (Name <$> contents empty_disk).
Proof. rewrite disk_empty. constructor. Qed.

Lemma disk_types : NoDup (external_types (contents empty_disk)).
Proof. rewrite disk_empty. constructor. Qed.

Lemma started_ok : boot sample_boot 3 ∅ [" db "; ""] empty_disk = (None, sample_start).
Proof. vm_compute. reflexivity. Qed.

Lemma advertised_types_converge_witness :
  Registrar.dcm (registrar (run 13)) = Some ["db"; "vm"] ∧
  Registrar.dcm (registrar (run 21)) = Some (advertised no_meta (svc (run 21))) ∧
  advertised no_meta (svc (run 21)) = ["db"].
Proof.
  split; [vm_compute; reflexivity|split; [|vm_compute; reflexivity]].
  apply (advertised_types_converge no_meta (λ _, None) Registrar.sample_cfg publisher sample_boot 3 ∅ [" db "; ""]
    empty_disk sample_start (take 21 life) disk_ok disk_names disk_types started_ok); vm_compute; reflexivity.
Defined.

Definition acme : StoredProvider := new_record "id-1" (sample_input "vm") 40.

Lemma named_agent : pub_agentName publisher ≠ "".
Proof. discriminate. Qed.

Abbreviation run_of evs := (agent_run no_meta (λ _, None) Registrar.sample_cfg publisher sample_start evs).
Abbreviation step_of a ev := (agent_step no_meta (λ _, None) Registrar.sample_cfg publisher a ev).

Lemma acme_stored : List.find (by_id "id-1") (contents (store (svc (run_of (take 15 life))))) = Some acme.
Proof. vm_compute. reflexivity. Qed.

Lemma acme_settled : window (underway (run_of (take 15 life))) ≠ Some "id-1".
Proof. vm_compute. discriminate. Qed.

Definition acme_lost : transition := {| tr_id := "id-1"; tr_from := Ready; tr_to := Unavailable |}.

Lemma lost_outstanding : callbacks (run_of (take 17 life)) !! 0%nat = Some acme_lost.
Proof. vm_compute. reflexivity. Qed.

Lemma lost_found : GetByID io_ok (tr_id acme_lost) (store (svc (run_of (take 17 life)))) = Ok (Some acme).
Proof. vm_compute. reflexivity. Qed.

(** The third failed check has its callback publish that "acme" became
    unavailable. *)
Lemma health_events_match_status_witness :
  callbacks (step_of (run_of (take 15 life)) (OnCheck "id-1" 1%nat CheckFailed 50)) =
    callbacks (run_of (take 15 life)) ++ [acme_lost] ∧
  events (step_of (run_of (take 17 life)) (OnCallback 0 io_ok)) = event_of publisher acme Unavailable.
Proof.
  pose proof (health_events_match_status no_meta (λ _, None) Registrar.sample_cfg publisher
    sample_boot 3 ∅ [" db "; ""] empty_disk sample_start (take 15 life)
    disk_ok disk_names disk_types started_ok named_agent) as [H _].
  pose proof (health_events_match_status no_meta (λ _, None) Registrar.sample_cfg publisher
    sample_boot 3 ∅ [" db "; ""] empty_disk sample_start (take 17 life)
    disk_ok disk_names disk_types started_ok named_agent) as [_ H'].
  destruct (H "id-1" 1%nat CheckFailed 50 acme acme_stored acme_settled) as [_ E].
  destruct (H' 0%nat acme_lost io_ok (Some acme) lost_outstanding lost_found) as [_ E'].
  split; [rewrite E|rewrite E']; clear; vm_compute; reflexivity.
Defined.

(** "acme" moves to another endpoint; the outcome of a check of the old one is
    recorded between the write of the new status and the new monitor entry. *)
Definition moved_input : RegistrationInput :=
  mkInput "acme" "http://acme2" "vm" "v1" None (Some "id-1") None "".

Definition moving (evs : list agent_event) : agent (S := Disk) :=
  fold_left (agent_step no_meta (λ _, None) Registrar.sample_cfg publisher)
    ([OnRegister (sample_env 60 "u3" io_ok) moved_input; OnContinue] ++ evs) (run 13).

(** The status the API shows goes from Unhealthy back to Ready with no
    transition: the state machine of the old endpoint was Ready already. *)
Theorem stale_check_unreported :
  let late := OnCheck "id-1" 1 CheckHealthy 61 in
  window (underway (moving [])) = Some "id-1" ∧
  api_Status (toAPI no_meta (svc (moving [])) acme) = Unhealthy ∧
  api_Status (toAPI no_meta (svc (moving [late])) acme) = Ready ∧
  callbacks (moving [late]) = callbacks (moving []).
Proof. vm_compute. split_and!; reflexivity. Qed.

End TransitionRun.
