(* ===== verification/Database.v ===== *)
(** * The database provider

    Models internal/openshift/database: unit conversion (units/convert.go),
    validation (validate/validate.go), the conversion between database
    specifications and CloudNativePG clusters (kubernetes/convert.go) and the
    store on the cluster's API (kubernetes/store*.go).  The request types are
    [ApiTypes.DatabaseApi].  Clusters are read and written through the dynamic
    client, as unstructured objects the runtime's converter encodes and decodes. *)

From Stdlib Require Import Ascii.
From S2P Require Import Prelude GoStrings Url Provider Json Effects K8s Encoding Codec ApiTypes ContainerStore.
Import DatabaseApi.
#[local] Open Scope string_scope.
#[local] Open Scope Z_scope.

Module DatabaseStore.

Abbreviation Database := (DatabaseApi.Database (T := Z)).

(** ** store/errors.go *)

Inductive db_error :=
  | NotFoundError (ID : string)
  | ConflictError (Message : string)
  | InvalidArgumentError (Message : string).

Definition db_error_text (e : db_error) : string :=
  match e with
  | NotFoundError id => "database " ++ Quote id ++ " not found"
  | ConflictError m => m
  | InvalidArgumentError m => m
  end.

(** ** Objects *)

(** [cnpgv1.ManagedService]: the selector type, and the name, labels and type
    of the service template. *)
Record ManagedService := mkManagedService {
  ms_SelectorType : string;
  ms_Name : string;
  ms_Labels : gmap string string;
  ms_Type : string
}.

Record ManagedServices := mkManagedServices {
  mss_DisabledDefaultServices : list string;
  mss_Additional : list ManagedService
}.

Record BootstrapInitDB := mkInitDB { idb_Database : string; idb_Owner : string; idb_Secret : option string }.

(** API group, kind, name and major version. *)
Record ImageCatalogRef := mkCatalogRef {
  icr_APIGroup : option string; icr_Kind : string; icr_Name : string; icr_Major : Z
}.

(** [cnpgv1.Cluster]; pointers are options.  [cl_Managed]: [Spec.Managed] and
    its [Services]; [cl_Bootstrap]: [Spec.Bootstrap] and its [InitDB];
    [cl_Major]: [Status.PGDataImageInfo.MajorVersion]. *)
Record Cluster (Q : Type) := mkCluster {
  cl_Meta : ObjectMeta;
  cl_InheritedLabels : option (gmap string string);
  cl_Instances : Z;
  cl_Requests : gmap string Q;
  cl_Limits : gmap string Q;
  cl_Size : string;
  cl_StorageClass : option string;
  cl_ImageCatalogRef : option ImageCatalogRef;
  cl_ImageName : string;
  cl_Managed : option (option ManagedServices);
  cl_Bootstrap : option (option BootstrapInitDB);
  cl_Major : option Z;
  cl_Conditions : list Condition
}.
Arguments mkCluster {Q}.
Arguments cl_Meta {Q}.
Arguments cl_InheritedLabels {Q}.
Arguments cl_Instances {Q}.
Arguments cl_Requests {Q}.
Arguments cl_Limits {Q}.
Arguments cl_Size {Q}.
Arguments cl_StorageClass {Q}.
Arguments cl_ImageCatalogRef {Q}.
Arguments cl_ImageName {Q}.
Arguments cl_Managed {Q}.
Arguments cl_Bootstrap {Q}.
Arguments cl_Major {Q}.
Arguments cl_Conditions {Q}.

(** [corev1.Secret] and [corev1.Node] (address type and address). *)
Record Secret := mkSecret {
  sec_Meta : ObjectMeta;
  sec_Type : string;
  sec_Data : gmap string string;
  sec_StringData : gmap string string
}.
Record Node := mkNode { node_Meta : ObjectMeta; node_Addresses : list (string * string) }.

#[export] Instance cluster_meta Q : HasMeta (Cluster Q) := cl_Meta.
#[export] Instance secret_meta : HasMeta Secret := sec_Meta.
#[export] Instance node_meta : HasMeta Node := node_Meta.

(** ** units/convert.go *)

Definition apiToK8s : gmap string string :=
  {[ "MB" := "Mi"; "GB" := "Gi"; "TB" := "Ti"; "MiB" := "Mi"; "GiB" := "Gi"; "TiB" := "Ti" ]}.

Section Units.
Context {X Q : Type} `{!KubeLib X Q} (range : map_range).

(** [resource.MustParse] panics on text that is not a quantity. *)
Definition MustParse (s : string) : exc Q :=
  match ParseQuantity s with inr q => Val q | inl _ => Panicked end.

Definition ConvertCPU (cpu : DatabaseCpu) : exc (Q * Q) :=
  match MustParse (dc_Min cpu) with
  | Panicked => Panicked
  | Val requests =>
      match MustParse (dc_Max cpu) with
      | Panicked => Panicked
      | Val limits => Val (requests, limits)
      end
  end.

Definition ConvertBytes (memoryStr : string) : string + Q :=
  match first_suffix memoryStr (range _ apiToK8s) with
  | Some (numStr, k8sUnit) => ParseQuantity (numStr ++ k8sUnit)
  | None => inl ("unsupported memory unit in " ++ Quote memoryStr)
  end.

Definition BytesQuantityToAPI (q : Q) : string :=
  let s := Quantity_String q in
  match first_suffix s (range _ k8sToAPI) with
  | Some (numStr, apiUnit) => numStr ++ apiUnit
  | None => s
  end.

(** ** validate/validate.go *)

Definition checkDatabaseID (id : string) : option validationError :=
  if id =s? "health" then Some (mkVErr ("database ID " ++ Quote id ++ " is reserved and cannot be used") "#/spec/id")
  else None.

Definition checkResources (res : DatabaseResources) : list validationError :=
  let minCPU := ParseQuantity (dc_Min (dr_Cpu res)) in
  let maxCPU := ParseQuantity (dc_Max (dr_Cpu res)) in
  let minMem := ConvertBytes (dm_Min (dr_Memory res)) in
  let maxMem := ConvertBytes (dm_Max (dr_Memory res)) in
  (bound_error "cpu.min" ptrCPUMin (dc_Min (dr_Cpu res)) minCPU ++
   bound_error "cpu.max" ptrCPUMax (dc_Max (dr_Cpu res)) maxCPU ++
   order_error "cpu" ptrCPUMin (dc_Min (dr_Cpu res)) (dc_Max (dr_Cpu res)) minCPU maxCPU ++
   bound_error "memory.min" ptrMemMin (dm_Min (dr_Memory res)) minMem ++
   bound_error "memory.max" ptrMemMax (dm_Max (dr_Memory res)) maxMem ++
   order_error "memory" ptrMemMin (dm_Min (dr_Memory res)) (dm_Max (dr_Memory res)) minMem maxMem)%list.

(** [metadata.labels]: no pointer, or a map (nil reads as empty). *)
Definition given_labels (m : DatabaseMetadata) : option (gmap string string) := default ∅ <$> dmx_Labels m.

Definition ValidateCreate (id : string) (spec : DatabaseSpec) : option db_error :=
  match checkDatabaseID id with
  | Some err => Some (InvalidArgumentError (Detail err))
  | None =>
      match (checkResources (ds_Resources spec) ++ checkUserLabels (given_labels (ds_Metadata spec)))%list with
      | [] => None
      | err :: _ => Some (InvalidArgumentError (Detail err))
      end
  end.
End Units.

(** ** net/url: the text of a URL with credentials *)

(** [(&url.URL{Scheme, User: url.UserPassword(..), Host, Path}).String()] *)
Definition URL_String (scheme username password host path : string) : string :=
  of_chars (Url.URL_String (mkUrl (chars scheme) [] (Some (chars username, Some (chars password))) (chars host) (chars path)
    [] false false [] [] [])).

Definition TrimSuffix (s suffix : string) : string := default s (CutSuffix s suffix).

(** ** kubernetes/convert.go *)

Definition engine : string := "postgresql".
Definition port : Z := 5432.
Definition imageRepo : string := "ghcr.io/cloudnative-pg/postgresql".
Definition latestTag : string := "latest".
Definition credentialsName (clusterName : string) : string := clusterName ++ "-credentials".
Definition ValueServiceType : string := "database".

(** [None] when the phase is not mapped. *)
Definition mapReplicaStatus (podPhase pvcPhase : string) : option string :=
  if podPhase =s? "Pending" then (if negb (pvcPhase =s? "Lost") then Some "PENDING" else Some "FAILED")
  else if podPhase =s? "Running" then Some "RUNNING"
  else if podPhase =s? "Failed" then Some "FAILED"
  else if podPhase =s? "Unknown" then Some "UNKNOWN" else None.

(** The statuses from the least to the most severe. *)
Definition severity : list string := ["DELETED"; "RUNNING"; "PENDING"; "UNKNOWN"; "FAILED"].

(** [slices.Index]: -1 when absent. *)
Fixpoint index_from (n : Z) (l : list string) (s : string) : Z :=
  match l with
  | [] => -1
  | x :: l' => if x =s? s then n else index_from (n + 1) l' s
  end.

(** The index panics when neither status is in the list. *)
Definition statusHigherPriority (status1 status2 : string) : exc string :=
  let i := Z.max (index_from 0 severity status1) (index_from 0 severity status2) in
  match (if i <? 0 then None else severity !! Z.to_nat i) with
  | Some s => Val s
  | None => Panicked
  end.

Definition latestTime (t1 t2 : Z) : Z := if t2 <? t1 then t1 else t2.

Section Convert.
Context {X Q : Type} `{!KubeLib X Q} (range : map_range).

Definition resourcesFromCluster (cluster : Cluster Q) : DatabaseResources :=
  let cpu (m : gmap string Q) := default "" (Quantity_String <$> m !! "cpu") in
  let memory (m : gmap string Q) := default "" (BytesQuantityToAPI range <$> m !! "memory") in
  mkDatabaseResources
    (mkDatabaseCpu (cpu (cl_Limits cluster)) (cpu (cl_Requests cluster)) None)
    (mkDatabaseMemory (memory (cl_Limits cluster)) (memory (cl_Requests cluster)) None)
    (if negb (cl_Size cluster =s? "") then
       match ParseQuantity (cl_Size cluster) with
       | inr q => Some (BytesQuantityToAPI range q)
       | inl _ => None
       end
     else None) None.

(** [cluster.Spec.Managed.Services.Additional] panics on a nil pointer. *)
Definition additional (cluster : Cluster Q) : exc (list ManagedService) :=
  match cl_Managed cluster with
  | Some (Some services) => Val (mss_Additional services)
  | _ => Panicked
  end.

Definition externalType (t : string) : bool := (t =s? "LoadBalancer") || (t =s? "NodePort").

Definition visibilityFromCluster (cluster : Cluster Q) : exc string :=
  match additional cluster with
  | Panicked => Panicked
  | Val services => Val (if existsb (λ s, externalType (ms_Type s)) services then External else Internal)
  end.

Definition databaseFromCluster (cluster : Cluster Q) (instanceID : string) : exc Database :=
  match visibilityFromCluster cluster with
  | Panicked => Panicked
  | Val visibility =>
      let m := cl_Meta cluster in
      let major := match cl_Major cluster with Some n => Itoa n | None => "18" end in
      let labels := userLabels (Labels m) in
      let spec := mkDatabaseSpec None engine
        (mkDatabaseMetadata (if bool_decide (labels = ∅) then None else Some (Some labels))
           (TrimSuffix (Name m) ("-" ++ instanceID)) (Some (Namespace m)))
        (Some (mkDatabaseNetwork (Some port) (Some visibility) None)) None
        (Some (cl_Instances cluster)) (resourcesFromCluster cluster) "database" (Some major) in
      Val (mkDatabase (Some (CreationTimestamp m)) (Some instanceID) (Some ("databases/" ++ instanceID)) spec None None)
  end.

Definition replica : Type := Pod * PVC Q.

Definition latestReplicaTransitionTime (rp : replica) : option Z :=
  latest_time (pod_Conditions rp.1 ++ pvc_Conditions rp.2)%list.

Definition latestClusterTransitionTime (cluster : Cluster Q) : option Z := latest_time (cl_Conditions cluster).

Definition replica_status (rp : replica) : string :=
  match mapReplicaStatus (pod_Phase rp.1) (pvc_Phase rp.2) with Some s => s | None => "UNKNOWN" end.

(** The loop of [enrichWithReplicas] on the status and the update time. *)
Fixpoint scan_replicas (replicas : list replica) (status : string) (updated : option Z)
  : exc (string * option Z) :=
  match replicas with
  | [] => Val (status, updated)
  | rp :: rest =>
      match statusHigherPriority status (replica_status rp) with
      | Panicked => Panicked
      | Val status' =>
          match latestReplicaTransitionTime rp, updated with
          | None, _ => scan_replicas rest status' updated
          | Some t, Some u => scan_replicas rest status' (Some (latestTime u t))
          | Some _, None => Panicked
          end
      end
  end.

Definition enrichWithReplicas (db : Database) (replicas : list replica) : exc Database :=
  match scan_replicas replicas "DELETED" (da_CreateTime db) with
  | Panicked => Panicked
  | Val (status, updated) =>
      Val (mkDatabase (da_CreateTime db) (da_Id db) (da_Path db) (da_Spec db) (Some status) updated)
  end.

Definition credentialSecretFromCluster (cluster : Cluster Q) : string :=
  match cl_Bootstrap cluster with
  | Some (Some (mkInitDB _ _ (Some name))) => if negb (name =s? "") then name else Name (cl_Meta cluster) ++ "-app"
  | _ => Name (cl_Meta cluster) ++ "-app"
  end.

Definition serviceFromCluster (cluster : Cluster Q) : exc string :=
  match additional cluster with
  | Panicked => Panicked
  | Val services =>
      Val (match List.find (λ s, externalType (ms_Type s) && (ms_SelectorType s =s? "rw")) services with
           | Some s => ms_Name s
           | None => Name (cl_Meta cluster) ++ "-rw"
           end)
  end.

Definition databaseNameFromCluster (cluster : Cluster Q) : string :=
  match cl_Bootstrap cluster with
  | Some (Some initDB) => if negb (idb_Database initDB =s? "") then idb_Database initDB else "app"
  | _ => "app"
  end.

Definition resolveStorageClass (providerHints : option ProviderHints) (defaultClass : string) : string :=
  default defaultClass (providerHints ≫= λ h, ph_Postgres h ≫= λ p, pph_Storage p ≫= sph_StorageClass).

Definition databaseUserFromBootstrap (bootstrap : option (option BootstrapInitDB)) : string :=
  match bootstrap with
  | Some (Some initDB) => if idb_Owner initDB =s? "" then "app" else idb_Owner initDB
  | _ => "app"
  end.

Definition initdb_hints (spec : DatabaseSpec) : option InitdbProviderHints :=
  ds_ProviderHints spec ≫= λ h, ph_Postgres h ≫= pph_Initdb.

Definition databasePasswordFromProviderHints (spec : DatabaseSpec) : option string :=
  initdb_hints spec ≫= iph_Password.

Definition address_of (type : string) (nodes : list Node) : option string :=
  head (nodes ≫= λ n, snd <$> filter (λ a, a.1 = type) (node_Addresses n)).

Definition nodeAddressFromNodes (nodes : list Node) : string :=
  match address_of "ExternalIP" nodes with
  | Some a => a
  | None => default "" (address_of "InternalIP" nodes)
  end.

Definition with_connection (db : Database) (c : string) : Database :=
  let s := da_Spec db in
  mkDatabase (da_CreateTime db) (da_Id db) (da_Path db)
    (mkDatabaseSpec (Some c) (ds_Engine s) (ds_Metadata s) (ds_Network s) (ds_ProviderHints s) (ds_Replicas s)
       (ds_Resources s) (ds_ServiceType s) (ds_Version s)) (da_Status db) (da_UpdateTime db).

(** [*database.Status] panics when the status is not set. *)
Definition populateConnectionString (db : Database) (secret : option Secret) (svc : option Service)
    (dbName nodeAddress : string) : exc (string + Database) :=
  match secret, svc with
  | Some secret, Some svc =>
      match da_Status db with
      | None => Panicked
      | Some status =>
          if status =s? "PENDING" then Val (inr (with_connection db ""))
          else
            let username := default "app" (sec_Data secret !! "username") in
            match sec_Data secret !! "password" with
            | None => Val (inl "broken secret: missing field - password")
            | Some password =>
                let address :=
                  if negb (svc_ClusterIP svc =s? "") && (svc_Type svc =s? "ClusterIP") then svc_ClusterIP svc else "" in
                let uri address connPort :=
                  Val (inr (with_connection db (URL_String "postgresql" username password (address ++ ":" ++ Itoa connPort) dbName))) in
                if svc_Type svc =s? "LoadBalancer" then
                  uri (match svc_Ingress svc with
                       | ing :: _ => if negb (ing_IP ing =s? "") then ing_IP ing else address
                       | [] => address
                       end) port
                else if svc_Type svc =s? "NodePort" then
                  if nodeAddress =s? "" then Val (inr (with_connection db ""))
                  else
                    uri nodeAddress
                      (match List.find (λ p, negb (sp_NodePort p =? 0)) (svc_Ports svc) with
                       | Some p => sp_NodePort p
                       | None => port
                       end)
                else uri address port
            end
      end
  | _, _ => Val (inr (with_connection db ""))
  end.

Record CnpgK8sConfig := mkConfig {
  cfg_Namespace : string;
  cfg_ExternalServiceType : string;
  cfg_ImageCatalogName : string;
  cfg_DefaultStorageClass : string;
  cfg_DefaultVersion : string
}.

Definition buildExternalManagedService (id : string) (spec : DatabaseSpec) (svcType : string) : ManagedService :=
  let clusterName := dmx_Name (ds_Metadata spec) ++ "-" ++ id in
  mkManagedService "rw" (clusterName ++ "-external-" ++ "rw") (dcmLabels ValueServiceType id) svcType.

(** The image: a catalog reference, or an image name. *)
Definition clusterImage (spec : DatabaseSpec) (cfg : CnpgK8sConfig) : db_error + (option ImageCatalogRef * string) :=
  let version :=
    match ds_Version spec with
    | Some v => if v =s? latestTag then "" else v
    | None => cfg_DefaultVersion cfg
    end in
  if negb (cfg_ImageCatalogName cfg =s? "") then
    let ref major := inr (Some (mkCatalogRef (Some "postgresql.cnpg.io") "ClusterImageCatalog" (cfg_ImageCatalogName cfg) major), "") in
    if negb (version =s? "") then
      match ParseInt64 version with
      | None => inl (InvalidArgumentError "version must be a valid integer major")
      | Some major => ref major
      end
    else ref 0
  else if version =s? "" then inl (InvalidArgumentError ("invalid version sepecified: " ++ version))
  else if version =s? latestTag then inr (None, imageRepo ++ ":" ++ version)
  else inr (None, imageRepo ++ ":" ++ version ++ "-" ++ "standard" ++ "-" ++ "trixie").

Definition external_asked (spec : DatabaseSpec) : bool :=
  match ds_Network spec ≫= dn_Visibility with Some v => v =s? External | None => false end.

Definition bootstrapFromHints (clusterName : string) (h : InitdbProviderHints) : BootstrapInitDB :=
  mkInitDB (default "" (iph_Database h)) (default "" (iph_User h))
    (match iph_Password h with Some _ => Some (credentialsName clusterName) | None => None end).

Definition invalid {A} (what err : string) : exc (db_error + A) :=
  Val (inl (InvalidArgumentError ("invalid " ++ what ++ " value: " ++ err))).

(** The processor and memory amounts of an invalid specification, and a missing
    storage size, panic or are refused in this order. *)
Definition buildCluster (spec : DatabaseSpec) (id : string) (cfg : CnpgK8sConfig) (labels : gmap string string)
  : exc (db_error + Cluster Q) :=
  let res := ds_Resources spec in
  let name := dmx_Name (ds_Metadata spec) ++ "-" ++ id in
  match ConvertCPU (dr_Cpu res) with
  | Panicked => Panicked
  | Val (cpuReq, cpuLim) =>
      match ConvertBytes range (dm_Min (dr_Memory res)) with
      | inl err => invalid "memory.min" err
      | inr memReq =>
          match ConvertBytes range (dm_Max (dr_Memory res)) with
          | inl err => invalid "memory.max" err
          | inr memLim =>
              match dr_Storage res with
              | None => Panicked
              | Some storage =>
                  match ConvertBytes range storage with
                  | inl err => invalid "storage" err
                  | inr storageSize =>
                      match clusterImage spec cfg with
                      | inl err => Val (inl err)
                      | inr (catalog, image) =>
                          Val (inr (mkCluster (mkMeta name "" "" labels 0 None) (Some labels)
                            (match ds_Replicas spec with None => 1 | Some n => n end)
                            {[ "cpu" := cpuReq; "memory" := memReq ]} {[ "cpu" := cpuLim; "memory" := memLim ]}
                            (Quantity_String storageSize)
                            (Some (resolveStorageClass (ds_ProviderHints spec) (cfg_DefaultStorageClass cfg)))
                            catalog image
                            (Some (Some (mkManagedServices ["r"; "ro"]
                               (if external_asked spec then [buildExternalManagedService id spec (cfg_ExternalServiceType cfg)] else []))))
                            (Some ∘ bootstrapFromHints name <$> initdb_hints spec) None []))
                      end
                  end
              end
          end
      end
  end.

Definition newCredentialsSecret (clusterName username password : string) (labels : gmap string string) : Secret :=
  mkSecret (mkMeta (credentialsName clusterName) "" "" labels 0 None) "kubernetes.io/basic-auth" ∅
    {[ "username" := username; "password" := password ]}.
End Convert.

(** ** kubernetes/store*.go *)

Section Store.
Context {W X Q U : Type} `{!KubeLib X Q}.
Context `{!KubeAPI W X U, !KubeAPI W X Secret, !KubeAPI W X Service, !KubeAPI W X Pod, !KubeAPI W X (PVC Q), !KubeAPI W X Node}.
(** [runtime.DefaultUnstructuredConverter]. *)
Context (ToUnstructured : Cluster Q → string + U) (FromUnstructured : U → string + Cluster Q).
Context (range : map_range) (cfg : CnpgK8sConfig).
#[local] Abbreviation ns := (cfg_Namespace cfg).

Definition error := serror X db_error.
Definition fail {A} (d : db_error) : error + A := inl (SDomain d).

Definition findCluster (databaseId : string) : kube W (error + Cluster Q) := λ w,
  match api_list (O := U) ns (by_instance databaseId) w with
  | (inl x, w') => (inl (SWrap "failed to list clusters" (SAPI x)), w')
  | (inr (items, _), w') =>
      (match items with
       | [] => fail (NotFoundError databaseId)
       | [u] =>
           match FromUnstructured u with
           | inl err => inl (SWrap ("decoding cluster for database " ++ Quote databaseId) (SMsg err))
           | inr cluster => inr cluster
           end
       | _ => fail (ConflictError ("multiple clusters found for database " ++ Quote databaseId))
       end, w')
  end.

Definition mismatched : db_error := ConflictError "database has mismatched pods/pvcs".

(** Take the first pod of the given name out of the list. *)
Fixpoint take_pod (name : string) (pods : list Pod) : option (Pod * list Pod) :=
  match pods with
  | [] => None
  | pod :: rest =>
      if Name (pod_Meta pod) =s? name then Some (pod, rest)
      else match take_pod name rest with Some (p, rest') => Some (p, pod :: rest') | None => None end
  end.

Fixpoint matchReplicas (pods : list Pod) (pvcs : list (PVC Q)) : db_error + list (Pod * PVC Q) :=
  match pvcs with
  | [] => match pods with [] => inr [] | _ => inl mismatched end
  | pvc :: rest =>
      match Labels (pvc_Meta pvc) !! "cnpg.io/instanceName" with
      | None => inl mismatched
      | Some podName =>
          match take_pod podName pods with
          | None => inl mismatched
          | Some (pod, pods') =>
              match matchReplicas pods' rest with
              | inl err => inl err
              | inr replicas => inr ((pod, pvc) :: replicas)
              end
          end
      end
  end.

(** The status and update time, from the instance's pods and claims. *)
Definition enrichStatus (db : Database) (cluster : Cluster Q) (pods : list Pod) (pvcs : list (PVC Q))
  : exc (db_error + Database) :=
  if negb (bool_decide (length pods = length pvcs)) then Val (inl mismatched)
  else
    match pods with
    | [] =>
        Val (inr (mkDatabase (da_CreateTime db) (da_Id db) (da_Path db) (da_Spec db) (Some "PENDING")
          (match latestClusterTransitionTime cluster with Some t => Some t | None => da_UpdateTime db end)))
    | _ =>
        match matchReplicas pods pvcs with
        | inl err => Val (inl err)
        | inr replicas =>
            match enrichWithReplicas db replicas with
            | Panicked => Panicked
            | Val db' => Val (inr db')
            end
        end
    end.

(** The first address of the nodes, when the service is of type NodePort. *)
Definition findNodeAddress (svc : option Service) : kube W string := λ w,
  match svc with
  | Some s =>
      if svc_Type s =s? "NodePort" then
        match api_list (O := Node) "" (mkListOptions "" 0 "") w with
        | (inr (nodes, _), w') => (nodeAddressFromNodes nodes, w')
        | (inl _, w') => ("", w')
        end
      else ("", w)
  | None => ("", w)
  end.

Definition opt_get {O} `{!KubeAPI W X O} (name : string) : kube W (option O) := λ w,
  match api_get (O := O) ns name w with (inr o, w') => (Some o, w') | (inl _, w') => (None, w') end.

Definition enrichFromCluster (db : Database) (cluster : Cluster Q) (instanceID : string)
  : kube W (exc (error + Database)) := λ w,
  match api_list (O := Pod) ns (by_instance instanceID) w with
  | (inl x, w1) => (Val (inl (SWrap ("listing pods for database " ++ Quote instanceID) (SAPI x))), w1)
  | (inr (pods, _), w1) =>
      match api_list (O := PVC Q) ns (by_instance instanceID) w1 with
      | (inl x, w2) => (Val (inl (SWrap ("listing pvcs for database " ++ Quote instanceID) (SAPI x))), w2)
      | (inr (pvcs, _), w2) =>
          match enrichStatus db cluster pods pvcs with
          | Panicked => (Panicked, w2)
          | Val (inl err) => (Val (inl (SDomain err)), w2)
          | Val (inr db1) =>
              let '(credentials, w3) := opt_get (O := Secret) (credentialSecretFromCluster cluster) w2 in
              match serviceFromCluster cluster with
              | Panicked => (Panicked, w3)
              | Val primarySvcName =>
                  let '(primarySvc, w4) := opt_get (O := Service) primarySvcName w3 in
                  let '(nodeAddress, w5) := findNodeAddress primarySvc w4 in
                  (match populateConnectionString db1 credentials primarySvc (databaseNameFromCluster cluster) nodeAddress with
                   | Panicked => Panicked
                   | Val (inl err) => Val (fail (InvalidArgumentError err))
                   | Val (inr db2) => Val (inr db2)
                   end, w5)
              end
          end
      end
  end.

Definition buildDatabase (cluster : Cluster Q) (instanceId : string) : kube W (exc (error + Database)) := λ w,
  match databaseFromCluster range cluster instanceId with
  | Panicked => (Panicked, w)
  | Val db => enrichFromCluster db cluster instanceId w
  end.

Definition Get (databaseID : string) : kube W (exc (error + Database)) := λ w,
  match findCluster databaseID w with
  | (inl err, w') => (Val (inl err), w')
  | (inr cluster, w') => buildDatabase cluster databaseID w'
  end.

(** [now]: the time it reads. *)
Definition newDatabaseResult (spec : DatabaseSpec) (id : string) (now : Z) : Database :=
  let m := ds_Metadata spec in
  let spec' := mkDatabaseSpec (ds_ConnectionString spec) (ds_Engine spec)
    (mkDatabaseMetadata (dmx_Labels m) (dmx_Name m) (Some ns)) (ds_Network spec) (ds_ProviderHints spec)
    (ds_Replicas spec) (ds_Resources spec) (ds_ServiceType spec) (ds_Version spec) in
  mkDatabase (Some now) (Some id) (Some ("databases/" ++ id)) spec' (Some "PENDING") (Some now).

(** Create the credentials secret when a password was given; the answer says
    whether this call created it ([secretCreated]). *)
Definition createSecret (spec : DatabaseSpec) (id : string) (cluster : Cluster Q) (labels : gmap string string)
  : kube W (error + bool) := λ w,
  match databasePasswordFromProviderHints spec with
  | None => (inr false, w)
  | Some password =>
      let username := databaseUserFromBootstrap (cl_Bootstrap cluster) in
      match api_create ns (newCredentialsSecret (Name (cl_Meta cluster)) username password labels) w with
      | (inr _, w') => (inr true, w')
      | (inl x, w') =>
          if IsAlreadyExists x then (inr false, w')
          else (inl (SWrap ("creating credentials secret for database " ++ Quote id) (SAPI x)), w')
      end
  end.

Definition deleteSecret (secretCreated : bool) (clusterName : string) : kube W unit := λ w,
  if secretCreated then (tt, (api_delete (O := Secret) ns (credentialsName clusterName) w).2) else (tt, w).

(** After the secret: encode, create and decode the cluster. *)
Definition createCluster (now : Z) (spec : DatabaseSpec) (id : string) (cluster : Cluster Q) (secretCreated : bool)
  : kube W (error + Database) := λ w,
  let clusterName := Name (cl_Meta cluster) in
  match ToUnstructured cluster with
  | inl err =>
      (inl (SWrap ("encoding cluster for database " ++ Quote id) (SMsg err)), (deleteSecret secretCreated clusterName w).2)
  | inr u =>
      match api_create ns u w with
      | (inl x, w1) =>
          let w2 := (deleteSecret secretCreated clusterName w1).2 in
          if IsAlreadyExists x then
            (fail (ConflictError ("cluster " ++ Quote (dmx_Name (ds_Metadata spec)) ++ " already exists")), w2)
          else (inl (SWrap ("creating cluster for database " ++ Quote id) (SAPI x)), w2)
      | (inr u', w1) =>
          match FromUnstructured u' with
          | inl err =>
              (inl (SWrap ("decoding created cluster for database " ++ Quote id) (SMsg err)),
               (deleteSecret secretCreated clusterName w1).2)
          | inr _ => (inr (newDatabaseResult spec id now), w1)
          end
      end
  end.

Definition is_not_found (e : error) : bool :=
  match as_domain (λ d, match d with NotFoundError i => Some i | _ => None end) e with Some _ => true | None => false end.

Definition Create (now : Z) (spec : DatabaseSpec) (id : string) : kube W (exc (error + Database)) := λ w,
  let labels := objectLabels ValueServiceType id (given_labels (ds_Metadata spec)) in
  match findCluster id w with
  | (inr _, w1) => (Val (fail (ConflictError ("database with instance ID " ++ Quote id ++ " already exists"))), w1)
  | (inl err, w1) =>
      if negb (is_not_found err) then (Val (inl (SWrap ("checking for existing database " ++ Quote id) err)), w1)
      else
        match buildCluster range spec id cfg labels with
        | Panicked => (Panicked, w1)
        | Val (inl err) => (Val (inl (SDomain err)), w1)
        | Val (inr cluster) =>
            match createSecret spec id cluster labels w1 with
            | (inl err, w2) => (Val (inl err), w2)
            | (inr secretCreated, w2) =>
                let '(r, w3) := createCluster now spec id cluster secretCreated w2 in (Val r, w3)
            end
        end
  end.

(** The custom credentials secret, if any. *)
Definition dropCredentials (databaseId clusterName : string) : kube W (option error) := λ w,
  match api_get (O := Secret) ns (credentialsName clusterName) w with
  | (inl x, w1) =>
      if negb (IsNotFound x)
      then (Some (SWrap ("looking up credentials secret for database " ++ Quote databaseId) (SAPI x)), w1)
      else (None, w1)
  | (inr secret, w1) =>
      match api_delete (O := Secret) ns (Name (sec_Meta secret)) w1 with
      | (Some x, w2) => (Some (SWrap ("deleting credentials secret for database " ++ Quote databaseId) (SAPI x)), w2)
      | (None, w2) => (None, w2)
      end
  end.

Definition Delete (databaseId : string) : kube W (option error) := λ w,
  match findCluster databaseId w with
  | (inl err, w1) => (Some err, w1)
  | (inr cluster, w1) =>
      match dropCredentials databaseId (Name (cl_Meta cluster)) w1 with
      | (Some err, w2) => (Some err, w2)
      | (None, w2) =>
          match api_delete (O := U) ns (Name (cl_Meta cluster)) w2 with
          | (Some x, w3) => (Some (SWrap ("deleting cluster for database " ++ Quote databaseId) (SAPI x)), w3)
          | (None, w3) => (None, w3)
          end
      end
  end.

(** *** Paging *)

Definition decodePageToken (token : string) : error + Z :=
  if token =s? "" then inr 0
  else
    match DecodeString token ≫= Atoi with
    | Some offset => if offset <? 0 then fail (InvalidArgumentError "invalid page_token") else inr offset
    | None => fail (InvalidArgumentError "invalid page_token")
    end.

Fixpoint decode_all (items : list U) : error + list (Cluster Q) :=
  match items with
  | [] => inr []
  | u :: rest =>
      match FromUnstructured u with
      | inl err => inl (SMsg err)
      | inr c => match decode_all rest with inr cs => inr (c :: cs) | inl err => inl err end
      end
  end.

Fixpoint build_all (paged : list (Cluster Q)) : kube W (exc (error + list Database)) := λ w,
  match paged with
  | [] => (Val (inr []), w)
  | cluster :: rest =>
      match buildDatabase cluster (label (Labels (cl_Meta cluster)) LabelInstanceID) w with
      | (Val (inr db), w') =>
          match build_all rest w' with
          | (Val (inr dbs), w'') => (Val (inr (db :: dbs)), w'')
          | r => r
          end
      | (Val (inl err), w') => (Val (inl err), w')
      | (Panicked, w') => (Panicked, w')
      end
  end.

Definition List (maxPageSize : Z) (pageToken : string) : kube W (exc (error + DatabaseList)) := λ w,
  let maxPageSize := if maxPageSize <=? 0 then 50 else maxPageSize in
  match decodePageToken pageToken with
  | inl err => (Val (inl err), w)
  | inr offset0 =>
      match api_list (O := U) ns (mkListOptions (Selector ValueServiceType) 0 "") w with
      | (inl x, w') => (Val (inl (SAPI x)), w')
      | (inr (items, _), w') =>
          match decode_all items with
          | inl err => (Val (inl err), w')
          | inr clusters0 =>
              let clusters := sort_by_name (λ c, Name (cl_Meta c)) clusters0 in
              let total := Z.of_nat (length clusters) in
              let offset := Z.min offset0 total in
              let paged := drop (Z.to_nat offset) clusters in
              let limit := Z.min maxPageSize (Z.of_nat (length paged)) in
              match build_all (take (Z.to_nat limit) paged) w' with
              | (Panicked, w'') => (Panicked, w'')
              | (Val (inl err), w'') => (Val (inl err), w'')
              | (Val (inr databases), w'') =>
                  (Val (inr (mkDatabaseList
                     (if offset + limit <? total then Some (EncodeToString (Itoa (offset + limit))) else None)
                     (Some (Some databases)))), w'')
              end
          end
      end
  end.
End Store.

(** ** Properties *)

(** *** The status is the worst of the replicas' *)

Definition rank (status : string) : Z := index_from 0 severity status.

(** Statuses the code assigns. *)
Definition known (status : string) : Prop := status ∈ severity.

Lemma known_cases s :
  known s → s = "DELETED" ∨ s = "RUNNING" ∨ s = "PENDING" ∨ s = "UNKNOWN" ∨ s = "FAILED".
Proof. unfold known, severity. rewrite !elem_of_cons, elem_of_nil. tauto. Qed.

Lemma statusHigherPriority_max s1 s2 :
  known s1 → known s2 →
  statusHigherPriority s1 s2 = Val (if rank s1 <? rank s2 then s2 else s1).
Proof.
  intros H1%known_cases H2%known_cases.
  repeat (destruct H1 as [->|H1] || subst s1); repeat (destruct H2 as [->|H2] || subst s2); reflexivity.
Qed.

Section Status.
Context {X Q : Type} `{!KubeLib X Q}.

Lemma replica_status_known (rp : Pod * PVC Q) : known (replica_status rp) ∧ 0 < rank (replica_status rp).
Proof.
  unfold replica_status, mapReplicaStatus.
  repeat case_match; simplify_eq/=; (split; [unfold known, severity; set_solver|done]).
Qed.

(** The worst of a status and those of the replicas. *)
Definition worst (status : string) (rps : list (Pod * PVC Q)) : string :=
  foldl (λ s rp, if rank s <? rank (replica_status rp) then replica_status rp else s) status rps.

Lemma worst_spec status rps :
  rank status ≤ rank (worst status rps) ∧ Forall (λ rp, rank (replica_status rp) ≤ rank (worst status rps)) rps ∧
  (worst status rps = status ∨ worst status rps ∈ replica_status <$> rps).
Proof.
  revert status. induction rps as [|rp rps IH]; intros s; simpl; [split_and!; [lia|done|by left]|].
  set (s' := if rank s <? rank (replica_status rp) then replica_status rp else s).
  destruct (IH s') as (H1 & H2 & H3). assert (rank s ≤ rank s' ∧ rank (replica_status rp) ≤ rank s') as [Ha Hb].
  { unfold s'. destruct (Z.ltb_spec (rank s) (rank (replica_status rp))); lia. }
  assert (s' = s ∨ s' = replica_status rp) as Hs' by (unfold s'; case_match; tauto). clearbody s'.
  split_and!; [lia|constructor; [lia|done]|]. destruct H3 as [H3|H3]; [|right; by right].
  destruct Hs' as [->| ->]; [by left|right]. fold (worst (replica_status rp) rps). rewrite H3. by left.
Qed.

Lemma scan_replicas_worst (rps : list (Pod * PVC Q)) status t :
  known status → ∃ t', scan_replicas rps status (Some t) = Val (worst status rps, Some t').
Proof.
  revert status t. induction rps as [|rp rps IH]; intros s t Hs; simpl; [by eauto|].
  destruct (replica_status_known rp) as [Hk _]. rewrite statusHigherPriority_max by done.
  assert (known (if rank s <? rank (replica_status rp) then replica_status rp else s)) by (by case_match).
  destruct (latestReplicaTransitionTime rp); by apply IH.
Qed.

(** *** Pods and claims are paired by name *)

Definition linked (rp : Pod * PVC Q) : Prop :=
  Labels (pvc_Meta rp.2) !! "cnpg.io/instanceName" = Some (Name (pod_Meta rp.1)).

(** Every pod with its own claim. *)
Definition pairing (pods : list Pod) (pvcs : list (PVC Q)) (rps : list (Pod * PVC Q)) : Prop :=
  rps.*1 ≡ₚ pods ∧ rps.*2 = pvcs ∧ Forall linked rps.

Lemma take_pod_some name pods pod rest :
  take_pod name pods = Some (pod, rest) → Name (pod_Meta pod) = name ∧ pods ≡ₚ pod :: rest.
Proof.
  revert rest. induction pods as [|p pods IH]; intros rest; simpl; [done|]. case_bool_decide as Hn.
  - by intros [= -> ->].
  - destruct (take_pod name pods) as [[p' rest']|]; [|done]. intros [= -> <-].
    destruct (IH rest' eq_refl) as [? ->]. split; [done|]. constructor.
Qed.

Lemma take_pod_none name pods : take_pod name pods = None → name ∉ (λ p, Name (pod_Meta p)) <$> pods.
Proof.
  induction pods as [|p pods IH]; simpl; [intros _; apply not_elem_of_nil|]. case_bool_decide as Hn; [done|].
  destruct (take_pod name pods) as [[]|]; [done|]. intros _. apply not_elem_of_cons. auto.
Qed.

Lemma matchReplicas_sound pods (pvcs : list (PVC Q)) rps :
  matchReplicas pods pvcs = inr rps → pairing pods pvcs rps.
Proof.
  revert pods rps. induction pvcs as [|pvc pvcs IH]; intros pods rps; simpl.
  - destruct pods; [|done]. by intros [= <-].
  - destruct (_ !! _) as [name|] eqn:Hl; [|done]. destruct (take_pod name pods) as [[pod rest]|] eqn:Ht; [|done].
    destruct (matchReplicas rest pvcs) as [|rps'] eqn:Hm; [done|]. intros [= <-].
    apply IH in Hm as (H1 & H2 & H3). apply take_pod_some in Ht as [<- Hp].
    split_and!; simpl; [rewrite Hp; by constructor|by f_equal|by constructor].
Qed.

(** Pods with distinct names are paired in one way, if at all. *)
Lemma matchReplicas_complete pods (pvcs : list (PVC Q)) rps :
  NoDup ((λ p, Name (pod_Meta p)) <$> pods) → pairing pods pvcs rps → ∃ rps', matchReplicas pods pvcs = inr rps'.
Proof.
  revert pods rps. induction pvcs as [|pvc pvcs IH]; intros pods rps Hn (H1 & H2 & H3).
  - apply fmap_nil_inv in H2 as ->. apply Permutation_nil_l in H1 as <-. by eexists.
  - destruct rps as [|[pod pvc'] rps]; [done|]. injection H2 as -> H2. apply Forall_cons in H3 as [Hl H3].
    unfold linked in Hl. simpl in *. rewrite Hl. destruct (take_pod _ pods) as [[p rest]|] eqn:Ht.
    + apply take_pod_some in Ht as [Hp Hperm]. rewrite Hperm in Hn, H1. rewrite fmap_cons, NoDup_cons in Hn.
      destruct Hn as [Hnp Hn]. assert (p = pod) as ->.
      { assert (pod ∈ p :: rest) as Hin by (rewrite <-H1; by left). apply elem_of_cons in Hin as [->|Hin]; [done|].
        destruct Hnp. rewrite Hp. by apply (list_elem_of_fmap_2 (λ p, Name (pod_Meta p))). }
      apply Permutation_cons_inv in H1. destruct (IH rest rps Hn) as [rps' ->]; [by split_and!|]. by eexists.
    + apply take_pod_none in Ht. destruct Ht. apply (list_elem_of_fmap_2 (λ p, Name (pod_Meta p))).
      rewrite <-H1. by left.
Qed.

(** The status of a database is the worst of its replicas'.  With pods of
    distinct names, [enrichFromCluster] never panics on them; it answers a
    conflict exactly when the pods and claims of the instance cannot be paired
    by the claims' instance labels; otherwise the status is PENDING when there
    are none, and else the status of some replica (pod and claim), with no
    replica in a more severe one (FAILED, UNKNOWN, PENDING, RUNNING, in that
    order). *)
Theorem database_status_worst (db : Database) (cluster : Cluster Q) pods pvcs t :
  da_CreateTime db = Some t → NoDup ((λ p, Name (pod_Meta p)) <$> pods) →
  match enrichStatus db cluster pods pvcs with
  | Panicked => False
  | Val (inl err) => err = mismatched ∧ ¬ ∃ rps, pairing pods pvcs rps
  | Val (inr db') =>
      da_Spec db' = da_Spec db ∧
      ∃ rps s, pairing pods pvcs rps ∧ da_Status db' = Some s ∧
        match rps with
        | [] => s = "PENDING"
        | _ => (∃ rp, rp ∈ rps ∧ replica_status rp = s) ∧ Forall (λ rp, rank (replica_status rp) ≤ rank s) rps
        end
  end.
Proof.
  intros Ht Hn. unfold enrichStatus. case_bool_decide as Hlen; simpl.
  2:{ split; [done|]. intros (rps & H1 & H2 & _). apply Hlen.
      by rewrite <-H1, <-H2, !length_fmap. }
  destruct pods as [|pod pods]; [destruct pvcs; [|done]; split; [done|]; by exists [], "PENDING"|].
  destruct (matchReplicas (pod :: pods) pvcs) as [err|rps] eqn:Hm.
  - split.
    + clear Hn Hlen. revert Hm. generalize (pod :: pods). clear. intros pods. revert pods.
      induction pvcs as [|pvc pvcs IH]; intros pods; simpl; [destruct pods; [done|by intros [= <-]]|].
      destruct (_ !! _); [|by intros [= <-]]. destruct (take_pod _ _) as [[p rest]|]; [|by intros [= <-]].
      destruct (matchReplicas rest pvcs) eqn:E; [|done]. intros [= <-]. by eapply IH.
    + intros [rps Hp]. destruct (matchReplicas_complete _ _ _ Hn Hp) as [rps' Hr]. by rewrite Hr in Hm.
  - apply matchReplicas_sound in Hm as Hp. unfold enrichWithReplicas. rewrite Ht.
    destruct (scan_replicas_worst rps "DELETED" t) as [t' ->]; [unfold known, severity; set_solver|].
    split; [done|]. exists rps, (worst "DELETED" rps). split; [done|]. split; [done|].
    destruct rps as [|rp rps]; [by destruct Hp as (?%Permutation_nil_l & _)|].
    destruct (worst_spec "DELETED" (rp :: rps)) as (H1 & H2 & [H3|H3]); [exfalso|split; [|done]].
    + apply Forall_cons in H2 as [H2 _]. rewrite H3 in H2. pose proof (replica_status_known rp) as [_ Hr].
      change (rank "DELETED") with 0 in H2. lia.
    + apply list_elem_of_fmap in H3 as (rp' & -> & ?). eauto.
Qed.
End Status.

(** *** What was asked for is what is read back *)


Section RoundTrip.
Context {X Q : Type} `{!KubeLib X Q, !KubeLibLaws X Q} (range : map_range).





End RoundTrip.

(** *** Creation and deletion on the API server *)

(** What the server keeps of a secret: the text data becomes data. *)
Definition secret_admitted (o o' : Secret) : Prop :=
  sec_Type o' = sec_Type o ∧ sec_Data o' = sec_StringData o ∪ sec_Data o.

Section Correct.
Context {W X Q U : Type} `{!KubeLib X Q, !KubeLibLaws X Q, !HasMeta U}.
Context `{!KubeAPI W X U, !KubeAPI W X Secret, !KubeAPI W X Service, !KubeAPI W X Pod, !KubeAPI W X (PVC Q), !KubeAPI W X Node}.
Context {adm : U → U → Prop} `{!KubeLaws W X Q U adm, !KubeLaws W X Q Secret secret_admitted}.
Context `{!KubeFrame W X Q U Secret, !KubeFrame W X Q Secret U}.
Context (ToUnstructured : Cluster Q → string + U) (FromUnstructured : U → string + Cluster Q).
Context (range : map_range) (cfg : CnpgK8sConfig).
#[local] Abbreviation ns := (cfg_Namespace cfg).
#[local] Abbreviation clusters w := (objs (O := U) w).
#[local] Abbreviation secrets w := (objs (O := Secret) w).

(** The converter keeps the metadata. *)
Definition converts : Prop :=
  (∀ c u, ToUnstructured c = inr u → meta u = cl_Meta c) ∧
  (∀ u c, FromUnstructured u = inr c → cl_Meta c = meta u).

(** A create call that reports an error has not created the object. *)
Definition clean_errors : Prop :=
  (∀ n (o : U) w x w', api_create n o w = (inl x, w') → clusters w' = clusters w) ∧
  (∀ n (o : Secret) w x w', api_create n o w = (inl x, w') → secrets w' = secrets w).

(** The secret [k], which did not exist, was created and removed again (or is
    terminating), unless the API refused the removal. *)
Definition secret_undone (k : string) (w w' : W) : Prop :=
  secrets w ns !! k = None ∧ (∀ k', k' ≠ k → secrets w' ns !! k' = secrets w ns !! k') ∧
  ((∀ o, secrets w' ns !! k = Some o → is_Some (DeletionTimestamp (sec_Meta o))) ∨
   ∃ w3 x, api_delete (O := Secret) ns k w3 = (Some x, w')).

(** The secret [k] of [spec]: created by this call, or left as it was. *)
Definition secret_made (spec : DatabaseSpec) (k : string) (made : bool) (w w' : W) : Prop :=
  if made then
    ∃ s pw, databasePasswordFromProviderHints spec = Some pw ∧ sec_Data s !! "password" = Some pw ∧
      secrets w ns !! k = None ∧ secrets w' ns = <[k := s]> (secrets w ns)
  else secrets w' = secrets w.

Lemma find_frame id w r w' :
  findCluster FromUnstructured cfg id w = (r, w') → clusters w' = clusters w ∧ secrets w' = secrets w.
Proof.
  unfold findCluster. pose proof (frame_list (O := U) (O' := Secret) ns (by_instance id) w) as Hf.
  destruct (api_list (O := U) ns (by_instance id) w) as [[x|[items c]] w1] eqn:Hl; simpl in Hf; intros [= _ <-].
  - by apply list_err in Hl.
  - by apply list_ok in Hl as [? _].
Qed.

Lemma find_missing id w e w' :
  valid_label_value id = true → id ≠ "" → findCluster FromUnstructured cfg id w = (inl e, w') →
  is_not_found e = true → of_instance id (clusters w ns) = [].
Proof.
  intros Hv Hid. unfold findCluster.
  destruct (api_list (O := U) ns (by_instance id) w) as [[x|[items c]] w1] eqn:Hl; [by intros [= <- _]|].
  apply by_instance_items in Hl as [_ Hi]; [|done..].
  destruct items as [|u [|]]; [by intros _ _; apply Permutation_nil_r|..]; [|by intros [= <- _]].
  destruct (FromUnstructured u); by intros [= <- _].
Qed.

Lemma credentials_nonempty n : credentialsName n ≠ "".
Proof. unfold credentialsName. by destruct n. Qed.

Lemma createSecret_effect spec id c labels w r w' :
  clean_errors → createSecret cfg spec id c labels w = (r, w') →
  clusters w' = clusters w ∧
  secret_made spec (credentialsName (Name (cl_Meta c))) (match r with inr b => b | inl _ => false end) w w'.
Proof.
  intros [_ Hcs]. unfold createSecret, secret_made.
  destruct (databasePasswordFromProviderHints spec) as [pw|]; [|by intros [= <- <-]].
  set (sec := newCredentialsSecret _ _ _ _). pose proof (frame_create (O := Secret) (O' := U) ns sec w) as Hf.
  destruct (api_create ns sec w) as [[x|s] w1] eqn:Hc; simpl in Hf.
  - apply Hcs in Hc. destruct (IsAlreadyExists x); by intros [= <- <-].
  - intros [= <- <-]. split; [done|].
    apply create_ok in Hc as (H1 & H2 & [_ H3] & _ & H4). specialize (H4 (credentials_nonempty _)).
    change (Name (meta sec)) with (credentialsName (Name (cl_Meta c))) in H4. rewrite H4 in H1, H2.
    exists s, pw. split_and!; [done| |done..]. rewrite H3. simpl.
    by rewrite map_union_empty, lookup_insert_ne, lookup_singleton_eq.
Qed.

Lemma deleteSecret_effect spec made n w w1 w2 :
  secret_made spec (credentialsName n) made w w1 → (secrets w2 = secrets w1) →
  clusters (deleteSecret cfg made n w2).2 = clusters w2 ∧
  (secrets (deleteSecret cfg made n w2).2 = secrets w ∨ secret_undone (credentialsName n) w (deleteSecret cfg made n w2).2).
Proof.
  intros Hm Hw. unfold deleteSecret. destruct made; simpl in *; [|split; [done|left; congruence]].
  destruct Hm as (s & pw & _ & _ & Hnone & Hins). split; [apply (frame_delete (O := Secret) (O' := U))|].
  right. split; [done|]. destruct (api_delete ns (credentialsName n) w2) as [[x|] w3] eqn:Hd; simpl.
  - split; [|right; eauto]. intros k' Hk. rewrite (delete_err _ _ _ _ _ Hd k' Hk), Hw, Hins. by rewrite lookup_insert_ne.
  - apply delete_ok in Hd as [Ho Ht]. split; [|by left]. intros k' Hk. rewrite Ho, Hw, Hins by done. by rewrite lookup_insert_ne.
Qed.

(** The new cluster of [id]. *)
Definition cluster_added (name id : string) (w w' : W) (u : U) : Prop :=
  clusters w ns !! name = None ∧ clusters w' ns = <[name := u]> (clusters w ns) ∧ carries id (Labels (meta u)) = true.

Lemma createCluster_effect now spec id c made name w w2 r w' :
  clean_errors → converts → Name (cl_Meta c) = name → name ≠ "" → carries id (Labels (cl_Meta c)) = true →
  clusters w2 = clusters w → secret_made spec (credentialsName name) made w w2 →
  createCluster ToUnstructured FromUnstructured cfg now spec id c made w2 = (r, w') →
  match r with
  | inr db => da_Id db = Some id ∧ (∃ u, cluster_added name id w w' u) ∧ secret_made spec (credentialsName name) made w w'
  | inl _ =>
      (clusters w' = clusters w ∨ ∃ u err, cluster_added name id w w' u ∧ FromUnstructured u = inl err) ∧
      (secrets w' = secrets w ∨ secret_undone (credentialsName name) w w')
  end.
Proof.
  intros Hclean [Hto _] Hn Hne Hcar Hc2 Hm. unfold createCluster, cluster_added. rewrite Hn.
  destruct (ToUnstructured c) as [err|u] eqn:Hu.
  { intros [= <- <-]. destruct (deleteSecret_effect spec made name w w2 w2 Hm eq_refl) as [-> Hd].
    split; [left; congruence|done]. }
  pose proof (frame_create (O := U) (O' := Secret) ns u w2) as Hfr.
  destruct (api_create ns u w2) as [[x|u'] w3] eqn:Hcr; simpl in Hfr.
  { apply (proj1 Hclean) in Hcr. destruct (deleteSecret_effect spec made name w w2 w3 Hm Hfr) as [Hd1 Hd2].
    destruct (IsAlreadyExists x); intros [= <- <-]; (split; [left; congruence|done]). }
  apply create_ok in Hcr as (Hno & Hins & _ & Hlab & Hnm). rewrite (Hto c u Hu), Hn in Hnm. rewrite (Hto c u Hu) in Hlab.
  rewrite Hnm, Hc2 in Hno, Hins by done. rewrite <-Hlab in Hcar.
  destruct (FromUnstructured u') as [err|c'] eqn:Hfu; intros [= <- <-].
  - destruct (deleteSecret_effect spec made name w w2 w3 Hm Hfr) as [Hd1 Hd2].
    split; [right|done]. exists u', err. by rewrite Hd1.
  - split_and!; [done|by exists u'|]. destruct made; simpl in *; [by rewrite Hfr|congruence].
Qed.

Lemma created_labels id spec : id ≠ "" →
  carries id (objectLabels (X := X) (Q := Q) ValueServiceType id (given_labels (ds_Metadata spec))) = true.
Proof.
  intros Hid. pose proof (managed_objectLabels (X := X) (Q := Q) ValueServiceType id
    (given_labels (ds_Metadata spec)) ltac:(done) Hid) as Hm. revert Hm. unfold isDCMManaged, carries. intros Hm. breflect.
  by rewrite !bool_decide_true.
Qed.

(** The server answers that a secret already exists only when it does. *)
Definition honest_exists : Prop :=
  ∀ n (o : Secret) w x w', Name (sec_Meta o) ≠ "" → api_create n o w = (inl x, w') → IsAlreadyExists x = true →
  is_Some (secrets w n !! Name (sec_Meta o)).

(** A secret that was not there and whose password is asked for is made. *)
Lemma createSecret_makes spec id c labels w b w' :
  honest_exists → secrets w ns !! credentialsName (Name (cl_Meta c)) = None →
  createSecret cfg spec id c labels w = (inr b, w') → b = bool_decide (is_Some (databasePasswordFromProviderHints spec)).
Proof.
  intros He Hn. unfold createSecret. destruct (databasePasswordFromProviderHints spec) as [pw|]; [|by intros [= <- _]].
  rewrite bool_decide_true by done. destruct (api_create _ _ _) as [[x|s] w1] eqn:Hc; [|by intros [= <- _]].
  destruct (IsAlreadyExists x) eqn:Hx; [|done].
  assert (is_Some (secrets w ns !! credentialsName (Name (cl_Meta c)))) as [s Hs]; [|congruence].
  refine (He _ _ _ _ _ _ Hc Hx). apply credentials_nonempty.
Qed.

(** The effect of [Create], on every branch, whether the secret is there already
    ([made]: this call has created it) or not. *)
Lemma create_any now spec id w r w' :
  valid_label_value id = true → id ≠ "" → clean_errors → converts →
  Create ToUnstructured FromUnstructured range cfg now spec id w = (r, w') →
  let name := dmx_Name (ds_Metadata spec) ++ "-" ++ id in
  match r with
  | Val (inr db) =>
      da_Id db = Some id ∧ of_instance id (clusters w ns) = [] ∧ (∃ u, cluster_added name id w w' u) ∧
      ∃ made, secret_made spec (credentialsName name) made w w' ∧
        (honest_exists → secrets w ns !! credentialsName name = None →
         made = bool_decide (is_Some (databasePasswordFromProviderHints spec)))
  | Val (inl _) =>
      (clusters w' = clusters w ∨ ∃ u err, cluster_added name id w w' u ∧ FromUnstructured u = inl err) ∧
      (secrets w' = secrets w ∨ secret_undone (credentialsName name) w w')
  | Panicked => clusters w' = clusters w ∧ secrets w' = secrets w
  end.
Proof.
  intros Hv Hid Hclean Hconv Hc name. revert Hc. unfold Create. set (labels := objectLabels _ _ _).
  destruct (findCluster _ cfg id w) as [[e|c0] w1] eqn:Hf; destruct (find_frame _ _ _ _ Hf) as [Hc1 Hs1];
    [|intros [= <- <-]; split; by auto].
  destruct (is_not_found e) eqn:Hnf; simpl; [|intros [= <- <-]; split; by auto].
  pose proof (find_missing _ _ _ _ Hv Hid Hf Hnf) as Hnone.
  destruct (buildCluster range spec id cfg labels) as [[err|c]|] eqn:Hb; [intros [= <- <-]; split; by auto| |by intros [= <- <-]].
  assert (Name (cl_Meta c) = name ∧ Labels (cl_Meta c) = labels) as [Hn Hl].
  { revert Hb. unfold buildCluster, invalid. repeat (case_match; try done); by intros [= <-]. }
  pose proof (λ b w2 He Hn, createSecret_makes spec id c labels w1 b w2 He Hn) as Hmk. rewrite Hn, Hs1 in Hmk.
  destruct (createSecret cfg spec id c labels w1) as [[err|made] w2] eqn:Hcs;
    apply createSecret_effect in Hcs as [Hc2 Hmade]; try done; rewrite Hn in Hmade.
  { intros [= <- <-]. simpl in Hmade. split; left; congruence. }
  assert (secret_made spec (credentialsName name) made w w2) as Hm.
  { destruct made; simpl in *; [|congruence]. by rewrite <-Hs1. }
  destruct (createCluster _ _ cfg now spec id c made w2) as [r3 w3] eqn:Hcc.
  apply (createCluster_effect now spec id c made name w) in Hcc; try done;
    [|unfold name; by destruct (dmx_Name _)|rewrite Hl; by apply created_labels|congruence].
  intros [= <- <-]. destruct r3; [done|]. destruct Hcc as (? & ? & ?). split_and!; [done..|].
  exists made. split; [done|]. intros He Hno. by eapply Hmk.
Qed.

(** C36: creating a database is all or nothing.  With an API server whose failed
    create calls create nothing, and when the database's credentials secret is
    not there yet (the server says that it is only if it is), a successful
    [Create] of an identifier no cluster carried adds exactly one cluster, of the
    name asked for with the identifier appended, that carries it, and the
    credentials secret with the password asked for if one is asked for, else no
    secret.  A [Create] that fails or panics adds no cluster, unless the server's
    answer to the creation cannot be decoded, and no secret: one it had made is
    removed again (or terminating) unless the API refuses.  Nothing is claimed
    of a secret left behind by an earlier attempt. *)
Theorem database_create_atomic now spec id w r w' :
  valid_label_value id = true → id ≠ "" → clean_errors → honest_exists → converts →
  let name := dmx_Name (ds_Metadata spec) ++ "-" ++ id in
  secrets w ns !! credentialsName name = None →
  Create ToUnstructured FromUnstructured range cfg now spec id w = (r, w') →
  match r with
  | Val (inr db) =>
      da_Id db = Some id ∧ of_instance id (clusters w ns) = [] ∧ (∃ u, cluster_added name id w w' u) ∧
      match databasePasswordFromProviderHints spec with
      | Some pw => ∃ s, sec_Data s !! "password" = Some pw ∧ secrets w' ns = <[credentialsName name := s]> (secrets w ns)
      | None => secrets w' = secrets w
      end
  | Val (inl _) =>
      (clusters w' = clusters w ∨ ∃ u err, cluster_added name id w w' u ∧ FromUnstructured u = inl err) ∧
      (secrets w' = secrets w ∨ secret_undone (credentialsName name) w w')
  | Panicked => clusters w' = clusters w ∧ secrets w' = secrets w
  end.
Proof.
  intros Hv Hid Hclean Hex Hconv name Hno Hc. pose proof (create_any now spec id w r w' Hv Hid Hclean Hconv Hc) as H.
  destruct r as [[e|db]|]; [exact H| |exact H]. cbv zeta in H. destruct H as (H1 & H2 & H3 & made & Hm & Hmade).
  split_and!; [done..|]. rewrite (Hmade Hex Hno) in Hm. unfold secret_made in Hm.
  destruct (databasePasswordFromProviderHints spec) as [pw|]; [|done]. rewrite bool_decide_true in Hm by done.
  destruct Hm as (s & pw' & [= <-] & ? & _ & ?). by exists s.
Qed.

(** Gone, or on its way out. *)
Definition leaving {O} `{!HasMeta O} (o : option O) : Prop :=
  match o with Some o => is_Some (DeletionTimestamp (meta o)) | None => True end.

Lemma dropCredentials_effect id n w w' :
  dropCredentials cfg id n w = (None, w') →
  clusters w' = clusters w ∧ (∀ k, k ≠ credentialsName n → secrets w' ns !! k = secrets w ns !! k) ∧
  leaving (secrets w' ns !! credentialsName n).
Proof.
  unfold dropCredentials. pose proof (frame_get (O := Secret) (O' := U) ns (credentialsName n) w) as Hf.
  destruct (api_get ns (credentialsName n) w) as [[x|sec] w1] eqn:Hg; simpl in Hf.
  - apply get_missing in Hg as [Hw Hm]. destruct (IsNotFound x); [|done]. intros [= <-].
    split_and!; [done|by rewrite Hw|]. by rewrite Hw, Hm.
  - apply get_ok in Hg as [Hw Hs]. apply objs_name in Hs as Hn. change (sec_Meta sec) with (meta sec). rewrite Hn.
    pose proof (frame_delete (O := Secret) (O' := U) ns (credentialsName n) w1) as Hf2.
    destruct (api_delete ns (credentialsName n) w1) as [[x|] w2] eqn:Hd; [done|]. intros [= <-]. simpl in Hf2.
    apply delete_ok in Hd as [Ho Ht]. split_and!; [congruence|intros k Hk; rewrite Ho by done; by rewrite Hw|].
    unfold leaving. by case_match; [apply Ht|].
Qed.

(** A successful [Delete] removes the one cluster of the identifier and the
    credentials secret made for it (they are gone or terminating), and nothing
    else. *)
Theorem database_delete_exact id w w' :
  valid_label_value id = true → id ≠ "" → converts → Delete FromUnstructured cfg id w = (None, w') →
  ∃ u, of_instance id (clusters w ns) = [u] ∧ let n := Name (meta u) in
    (∀ k, k ≠ n → clusters w' ns !! k = clusters w ns !! k) ∧ leaving (clusters w' ns !! n) ∧
    (∀ k, k ≠ credentialsName n → secrets w' ns !! k = secrets w ns !! k) ∧
    leaving (secrets w' ns !! credentialsName n).
Proof.
  intros Hv Hid [_ Hfrom]. unfold Delete. destruct (findCluster FromUnstructured cfg id w) as [[e|c] w1] eqn:Hf; [done|].
  destruct (find_frame _ _ _ _ Hf) as [Hc1 Hs1]. revert Hf. unfold findCluster.
  destruct (api_list (O := U) ns (by_instance id) w) as [[x|[items t]] w1'] eqn:Hl; [done|].
  apply by_instance_items in Hl as [_ Hi]; [|done..]. destruct items as [|u [|]]; [done| |done].
  destruct (FromUnstructured u) as [|c'] eqn:Hu; [done|]. intros [= -> ->]. apply Hfrom in Hu. rewrite Hu.
  destruct (dropCredentials cfg id (Name (meta u)) w1) as [[e|] w2] eqn:Hd; [done|].
  apply dropCredentials_effect in Hd as (Hc2 & Ho & Hlv).
  pose proof (frame_delete (O := U) (O' := Secret) ns (Name (meta u)) w2) as Hf3.
  destruct (api_delete ns (Name (meta u)) w2) as [[x|] w3] eqn:Hdel; [done|]. intros [= <-]. simpl in Hf3.
  apply delete_ok in Hdel as [Hko Hkt]. exists u. split; [by symmetry in Hi; apply Permutation_singleton_r in Hi|].
  cbv zeta. rewrite Hf3. split_and!; [| |intros k Hk; by rewrite Ho, Hs1|done].
  - intros k Hk. rewrite Hko by done. by rewrite Hc2, Hc1.
  - unfold leaving. by case_match; [apply Hkt|].
Qed.
End Correct.
End DatabaseStore.

(** ** A database on a small API server *)

Module DatabaseRun.
Import DatabaseStore FakeKube.

Record db_world := mkDbWorld {
  w_clusters : gmap string (gmap string (Cluster Z));
  w_secrets : gmap string (gmap string Secret)
}.
Definition empty_db_world : db_world := mkDbWorld ∅ ∅.

Definition rename_cluster (n : string) (o : Cluster Z) : Cluster Z :=
  mkCluster (rename_meta n (cl_Meta o)) (cl_InheritedLabels o) (cl_Instances o) (cl_Requests o) (cl_Limits o)
    (cl_Size o) (cl_StorageClass o) (cl_ImageCatalogRef o) (cl_ImageName o) (cl_Managed o) (cl_Bootstrap o)
    (cl_Major o) (cl_Conditions o).
Definition rename_secret (n : string) (o : Secret) : Secret :=
  mkSecret (rename_meta n (sec_Meta o)) (sec_Type o) (sec_StringData o ∪ sec_Data o) ∅.

#[export] Instance run_clusters : KubeAPI db_world Status (Cluster Z) :=
  fake_api w_clusters (λ m w, mkDbWorld m (w_secrets w)) rename_cluster.
#[export] Instance run_secrets : KubeAPI db_world Status Secret :=
  fake_api w_secrets (λ m w, mkDbWorld (w_clusters w) m) rename_secret.

#[export] Instance run_clusters_laws : KubeLaws db_world Status Z (Cluster Z) (λ _ _, True).
Proof. by refine (fake_laws _ _ _ _ _ _ _ _). Defined.
#[export] Instance run_secrets_laws : KubeLaws db_world Status Z Secret secret_admitted.
Proof. by refine (fake_laws _ _ _ _ _ _ _ _). Defined.
#[export] Instance clusters_secrets_frame : KubeFrame db_world Status Z (Cluster Z) Secret.
Proof. frame_tac. Qed.
#[export] Instance secrets_clusters_frame : KubeFrame db_world Status Z Secret (Cluster Z).
Proof. frame_tac. Qed.

Definition to_u (c : Cluster Z) : string + Cluster Z := inr c.
Definition from_u (c : Cluster Z) : string + Cluster Z := inr c.

Lemma run_converts : converts to_u from_u.
Proof. split; intros ? ? [= <-]; done. Qed.

Lemma run_clean : clean_errors (W := db_world) (X := Status) (Q := Z) (U := Cluster Z).
Proof. split; intros n o w x w' Hc; simpl in Hc; by case_match; simplify_eq. Qed.

Lemma run_honest : honest_exists (W := db_world) (X := Status) (Q := Z).
Proof.
  intros n o w x w' Hne Hc Hx. simpl in Hc. unfold choose_name in Hc. rewrite bool_decide_false in Hc by done.
  case_match; simplify_eq. by eexists.
Qed.

Definition db_cfg : CnpgK8sConfig := mkConfig "ns" "NodePort" "" "" "18".

Definition db_spec (storage version : option string) : DatabaseSpec :=
  mkDatabaseSpec None "postgresql" (mkDatabaseMetadata (Some (Some {[ "team" := "x" ]})) "shop" None)
    (Some (mkDatabaseNetwork None (Some "external") None))
    (Some (mkProviderHints (Some (mkPostgresProviderHints (Some (mkInitdbProviderHints None (Some "s3cret") None)) None)) None))
    (Some 2) (mkDatabaseResources (mkDatabaseCpu "2" "1" None) (mkDatabaseMemory "2GB" "1GB" None) storage None)
    "database" version.

Definition shop : DatabaseSpec := db_spec (Some "10GB") None.

Definition run_create (spec : DatabaseSpec) (id : string) (w : db_world) : exc (serror Status db_error + Database) * db_world :=
  Create to_u from_u sorted_range db_cfg 7 spec id w.

Definition with_shop : db_world := (run_create shop "db-1" empty_db_world).2.

Lemma label_db1 : valid_label_value "db-1" = true.
Proof. by vm_compute. Qed.

Definition answer_ok {A B} (r : exc (A + B)) : bool := match r with Val (inr _) => true | _ => false end.

Lemma shop_created : answer_ok (run_create shop "db-1" empty_db_world).1 = true.
Proof. vm_compute. reflexivity. Qed.

Lemma database_create_atomic_witness :
  ∃ db u, (run_create shop "db-1" empty_db_world).1 = Val (inr db) ∧ da_Id db = Some "db-1" ∧
    cluster_added (Q := Z) (U := Cluster Z) db_cfg "shop-db-1" "db-1" empty_db_world with_shop u ∧
    ∃ s, sec_Data s !! "password" = Some "s3cret" ∧
      objs (O := Secret) with_shop "ns" = <["shop-db-1-credentials" := s]> (objs (O := Secret) empty_db_world "ns").
Proof.
  pose proof (database_create_atomic to_u from_u sorted_range db_cfg 7 shop "db-1" empty_db_world _ _
    label_db1 ltac:(discriminate) run_clean run_honest run_converts eq_refl (surjective_pairing (run_create shop "db-1" empty_db_world))) as H.
  fold with_shop in H. cbv zeta in H. pose proof shop_created as Hok.
  destruct (run_create shop "db-1" empty_db_world).1 as [[e|db]|]; [discriminate Hok| |discriminate Hok].
  destruct H as (Hid & _ & [u Hu] & Hs). exists db, u. split; [reflexivity|]. split; [exact Hid|]. split; [exact Hu|exact Hs].
Defined.

(** A specification without a storage size, which validation accepts, makes
    [Create] dereference a nil pointer. *)
Theorem database_missing_storage_panics :
  ValidateCreate sorted_range "db-1" (db_spec None None) = None ∧
  (run_create (db_spec None None) "db-1" empty_db_world).1 = Panicked.
Proof. vm_compute. done. Qed.

(** The documented version "latest" is refused without an image catalog. *)
Theorem database_latest_refused :
  (run_create (db_spec (Some "10GB") (Some "latest")) "db-1" empty_db_world).1 =
    Val (inl (SDomain (InvalidArgumentError "invalid version sepecified: "))).
Proof. vm_compute. reflexivity. Qed.

(** A secret left by an earlier attempt is kept with its old password: the new
    database is created for a password other than the one asked for. *)
Definition leftover : Secret := newCredentialsSecret "shop-db-1" "app" "old" ∅.
Definition after_attempt : db_world := (api_create (O := Secret) "ns" leftover empty_db_world).2.

Theorem database_leftover_password :
  answer_ok (run_create shop "db-1" after_attempt).1 = true ∧
  databasePasswordFromProviderHints shop = Some "s3cret" ∧
  (objs (O := Secret) (run_create shop "db-1" after_attempt).2 "ns" !! "shop-db-1-credentials")
    ≫= (λ s, sec_Data s !! "password") = Some "old".
Proof. vm_compute. done. Qed.

(** A load balancer without an address yet yields a URI without a host. *)
Theorem database_uri_without_host :
  populateConnectionString (mkDatabase (Some 1) (Some "db-1") None shop (Some "RUNNING") None)
    (Some (mkSecret (mkMeta "s" "" "ns" ∅ 0 None) "" {[ "password" := "p@ss" ]} ∅))
    (Some (mkService (mkMeta "shop-db-1-external-rw" "" "ns" ∅ 0 None) "LoadBalancer" [] "10.0.0.9" ∅ []))
    "app" "" =
  Val (inr (with_connection (mkDatabase (Some 1) (Some "db-1") None shop (Some "RUNNING") None)
    "postgresql://app:p%40ss@:5432/app")).
Proof. vm_compute. reflexivity. Qed.

(** *** Reading back, and the status *)

Definition built : Cluster Z :=
  match buildCluster sorted_range shop "db-1" db_cfg (objectLabels ValueServiceType "db-1" (given_labels (ds_Metadata shop))) with
  | Val (inr c) => c
  | _ => mkCluster (mkMeta "" "" "" ∅ 0 None) None 0 ∅ ∅ "" None None "" None None None []
  end.






Definition run_pod (name phase : string) : Pod := mkPod (mkMeta name "" "ns" ∅ 0 None) phase "" [] [].
Definition run_pvc (name pod phase : string) : PVC Z :=
  mkPVC (mkMeta name "" "ns" {[ "cnpg.io/instanceName" := pod ]} 0 None) [] 1 None None "" phase [].
Definition run_db : Database := mkDatabase (Some 1) (Some "db-1") None shop None None.

Lemma run_names : NoDup ((λ p, Name (pod_Meta p)) <$> [run_pod "shop-1" "Running"; run_pod "shop-2" "Pending"]).
Proof. apply (bool_decide_unpack _). vm_compute. exact I. Qed.

(** One replica runs, the claim of the other is lost: the database has failed. *)
Lemma database_status_worst_witness :
  ∃ db' rps, enrichStatus run_db built [run_pod "shop-1" "Running"; run_pod "shop-2" "Pending"]
      [run_pvc "b" "shop-2" "Lost"; run_pvc "a" "shop-1" "Bound"] = Val (inr db') ∧
    da_Status db' = Some "FAILED" ∧ pairing [run_pod "shop-1" "Running"; run_pod "shop-2" "Pending"]
      [run_pvc "b" "shop-2" "Lost"; run_pvc "a" "shop-1" "Bound"] rps.
Proof.
  pose proof (database_status_worst run_db built [run_pod "shop-1" "Running"; run_pod "shop-2" "Pending"]
    [run_pvc "b" "shop-2" "Lost"; run_pvc "a" "shop-1" "Bound"] 1 eq_refl run_names) as H.
  destruct (enrichStatus _ _ _ _) as [[e|db']|] eqn:E; [vm_compute in E; discriminate E| |destruct H].
  destruct H as (_ & rps & s & Hp & _). exists db', rps. split; [reflexivity|]. split; [|exact Hp].
  vm_compute in E. injection E as <-. reflexivity.
Defined.
End DatabaseRun.
