(* ===== verification/Apps.v ===== *)
(** * Configuration, construction and set-up of the embedded providers

    Models internal/openshift/shared/config.go, the files config/config.go,
    kubernetes/client.go, app/app.go and monitoring/publisher.go of the storage,
    container, network, VM and cluster providers, and the files
    setup.go under internal/embedded, composed by internal/embedded/embedded.go.

    The state is the set of NATS connections the process has open, a log of
    what was done with connections, and the Kubernetes world [W].  The
    theorems show that set-up leaks no connection: a provider that cannot be
    built leaves the open connections as they were, and the connections of the
    providers that are built are exactly those their closers close. *)

From S2P Require Import Prelude GoStrings Json Effects Config K8s Codec ApiTypes.
From S2P Require Import Debounce StatusMon NetworkStore StorageStore ContainerStore Kubevirt AcmCluster Embedded.
#[local] Open Scope string_scope.
#[local] Open Scope Z_scope.

(** ** The libraries *)

(** The options of [nats.Connect] that the providers set, handlers apart. *)
Record NatsOptions := mkNatsOptions { MaxReconnects : Z; ReconnectWait : Z; RetryOnFailedConnect : bool }.

(** The fields of a REST configuration that the VM client sets. *)
Record RestOverride := mkOverride { ro_GroupVersion : string * string; ro_APIPath : string; ro_UserAgent : string }.

(** client-go, controller-runtime and nats.go: how each call ends.  An error is
    its text.  Calls on connections take the number of earlier calls too, so
    that they may end differently each time. *)
Class Libs := {
  Rest : Type;
  Clientset : Type;
  Dynamic : Type;
  KubevirtRest : Type;
  CtrlClient : Type;
  JetStream : Type;
  BuildConfigFromFlags : string → string + Rest;
  InClusterConfig : string + Rest;
  rest_UserAgent : Rest → string;
  DefaultKubernetesUserAgent : string;
  kubernetes_NewForConfig : Rest → string + Clientset;
  dynamic_NewForConfig : Rest → string + Dynamic;
  RESTClientFor : RestOverride → Rest → string + KubevirtRest;
  BuildScheme : option string;
  client_New : Rest → string + CtrlClient;
  nats_Connect : NatsOptions → string → nat → option string;
  nats_Drain : nat → nat → option string;
  nats_Publish : nat → string → json → nat → option string;
  nats_IsConnected : nat → nat → bool;
  jetstream_New : nat → nat → string + JetStream;
  jetstream_Publish : JetStream → string → json → nat → option string
}.

(** ** State and errors *)

Inductive conn_event :=
  | Connected (c : nat) (opts : NatsOptions) (url : string)
  | Refused (url : string)
  | DrainedConn (c : nat)
  | ClosedConn (c : nat)
  | Sent (c : nat) (subject : string) (data : json).

(** [s_next]: the number of the next connection; [s_live]: those open. *)
Record sys (W : Type) := mkSys { s_next : nat; s_live : gset nat; s_log : list conn_event; s_kube : W }.
Arguments mkSys {W}.
Arguments s_next {W}.
Arguments s_live {W}.
Arguments s_log {W}.
Arguments s_kube {W}.

(** A call: it panics, returns an error, or returns a value. *)
Definition call (W A : Type) : Type := sys W → exc (string + A) * sys W.

Section Calls.
Context {W : Type}.

Definition give {A} (a : A) : call W A := λ s, (Val (inr a), s).
Definition raise {A} (e : string) : call W A := λ s, (Val (inl e), s).
Definition panic {A} : call W A := λ s, (Panicked, s).
Definition lift_result {A} (r : string + A) : call W A := λ s, (Val r, s).

Definition cbind {A B} (m : call W A) (f : A → call W B) : call W B := λ s,
  match m s with
  | (Val (inr a), s') => f a s'
  | (Val (inl e), s') => (Val (inl e), s')
  | (Panicked, s') => (Panicked, s')
  end.

(** [fmt.Errorf("...: %w", err)] *)
Definition wrap_text (context e : string) : string := context ++ ": " ++ e.
Definition wrap {A} (context : string) (m : call W A) : call W A := λ s,
  match m s with (Val (inl e), s') => (Val (inl (wrap_text context e)), s') | r => r end.

(** [if err != nil { cleanup(); return err }], the outcome of the cleanup
    dropped unless it panics. *)
Definition on_error {A B} (m : call W A) (cleanup : call W B) : call W A := λ s,
  match m s with
  | (Val (inl e), s') => match cleanup s' with (Panicked, s'') => (Panicked, s'') | (Val _, s'') => (Val (inl e), s'') end
  | r => r
  end.

Definition note (e : conn_event) (s : sys W) : sys W := mkSys (s_next s) (s_live s) (s_log s ++ [e]) (s_kube s).
End Calls.

Declare Scope call_scope.
Delimit Scope call_scope with call.
Notation "x <- m ;; k" := (cbind m (λ x, k)) (at level 100, m at next level, right associativity) : call_scope.
#[local] Open Scope call_scope.

Definition wrap_result {A} (context : string) (r : string + A) : string + A :=
  match r with inl e => inl (wrap_text context e) | inr a => inr a end.

(** ** internal/openshift/shared/config.go *)

Record Agent := mkAgentDefaults { ad_MessagingURL : string; ad_Kubeconfig : string }.
Record SharedConfig := mkShared { sc_Name : string; sc_Kubeconfig : string; sc_MessagingURL : string }.

Definition FromAgent (cfg : option AppConfig) : Agent :=
  match cfg with
  | None => mkAgentDefaults "" ""
  | Some c => mkAgentDefaults (ms_URL (app_Messaging c)) (sp_DefaultKubeconfig (app_SP c))
  end.

Definition Apply (cfg : SharedConfig) (agent : Agent) : string + SharedConfig :=
  if ad_MessagingURL agent =s? "" then inl "messaging URL is required"
  else inr (mkShared (sc_Name cfg) (if sc_Kubeconfig cfg =s? "" then ad_Kubeconfig agent else sc_Kubeconfig cfg)
              (ad_MessagingURL agent)).

(** [if cfg.Name == "" { cfg.Name = defaultName }] *)
Definition name_or (defaultName : string) (cfg : SharedConfig) : SharedConfig :=
  if sc_Name cfg =s? "" then mkShared defaultName (sc_Kubeconfig cfg) (sc_MessagingURL cfg) else cfg.

(** [parsed]: how [env.Parse] of the structure ends, here and below. *)
Definition LoadInto (parsed : string + SharedConfig) (agent : Agent) (defaultName : string) : string + SharedConfig :=
  match parsed with
  | inl e => inl (wrap_text "loading shared SP config" e)
  | inr cfg => Apply (name_or defaultName cfg) agent
  end.

(** ** Kubernetes clients *)

Section Clients.
Context `{Libs}.

(** internal/openshift/kubeconfig *)
Definition RESTConfig (kubeconfigPath : string) : string + Rest :=
  if negb (kubeconfigPath =s? "") then
    wrap_result ("building config from kubeconfig " ++ Quote kubeconfigPath) (BuildConfigFromFlags kubeconfigPath)
  else wrap_result "loading in-cluster config" InClusterConfig.

(** The functions NewClient of the files kubernetes/client.go have one text. *)
Definition new_clientset (kubeconfig : string) : string + Clientset :=
  match (if negb (kubeconfig =s? "") then BuildConfigFromFlags kubeconfig else InClusterConfig) with
  | inl e => inl (wrap_text "building kubernetes config" e)
  | inr restCfg => wrap_result "creating kubernetes client" (kubernetes_NewForConfig restCfg)
  end.
End Clients.

(** ** NATS connections and publishers *)

Record NATSPublisher := mkPublisher { pub_conn : nat; pub_providerName : string; pub_subject : string }.

Section Connections.
Context `{Libs} {W : Type}.

Definition connect (opts : NatsOptions) (url : string) : call W nat := λ s,
  match nats_Connect opts url (s_next s) with
  | Some e => (Val (inl e), mkSys (S (s_next s)) (s_live s) (s_log s ++ [Refused url])%list (s_kube s))
  | None => (Val (inr (s_next s)),
             mkSys (S (s_next s)) ({[ s_next s ]} ∪ s_live s) (s_log s ++ [Connected (s_next s) opts url])%list (s_kube s))
  end.

(** [Conn.Close] *)
Definition conn_Close (c : nat) : call W () := λ s,
  (Val (inr ()), mkSys (s_next s) (s_live s ∖ {[ c ]}) (s_log s ++ [ClosedConn c])%list (s_kube s)).

(** [Conn.Drain]: it sends what is buffered and then closes the connection, in
    the background; on an error nothing is done. *)
Definition conn_Drain (c : nat) : call W () := λ s,
  match nats_Drain c (length (s_log s)) with
  | Some e => (Val (inl e), s)
  | None => (Val (inr ()), mkSys (s_next s) (s_live s ∖ {[ c ]}) (s_log s ++ [DrainedConn c])%list (s_kube s))
  end.

Definition conn_Publish (c : nat) (subject : string) (data : json) : call W () := λ s,
  match nats_Publish c subject data (length (s_log s)) with
  | Some e => (Val (inl e), s)
  | None => (Val (inr ()), note (Sent c subject data) s)
  end.

Definition publisher_options : NatsOptions := mkNatsOptions (-1) (2 * Second) true.

(** NewNATSPublisher of the storage, container, network and cluster monitors;
    they differ in the subject. *)
Definition new_nats_publisher (subject natsURL providerName : string) : call W NATSPublisher :=
  conn <- wrap ("connecting to NATS at " ++ natsURL) (connect publisher_options natsURL);;
  give (mkPublisher conn providerName subject).

(** Close of the storage, container and cluster publishers. *)
Definition close_publisher (p : NATSPublisher) : call W () :=
  _ <- conn_Close (pub_conn p);; give ().

(** Close of the network publisher. *)
Definition drain_publisher (p : NATSPublisher) : call W () :=
  wrap "draining NATS connection" (on_error (conn_Drain (pub_conn p)) (conn_Close (pub_conn p))).

(** worker.Close, the task having ended: every closer is called, the first
    error is returned. *)
Fixpoint worker_Close (closers : list (call W ())) : call W () := λ s,
  match closers with
  | [] => give () s
  | c :: rest =>
      match c s with
      | (Panicked, s') => (Panicked, s')
      | (Val r, s') =>
          match worker_Close rest s' with
          | (Val r', s'') => (Val (match r with inl e => inl e | inr _ => r' end), s'')
          | (Panicked, s'') => (Panicked, s'')
          end
      end
  end.
End Connections.

(** ** CloudEvents of status changes *)

(** The fields of an event; [ce_data] its JSON data. *)
Record status_ce := mkStatusCE {
  sce_id : string;
  sce_source : string;
  sce_type : string;
  sce_subject : string;
  sce_time : string;
  sce_data : json
}.

(** The structures statusEventData, cloudEventData and StatusPayload. *)
Definition status_data (e : StatusEvent) : json :=
  JObject [("id", JString (InstanceID e)); ("status", JString (EvStatus e)); ("message", JString (EvMessage e))].

Definition status_source (providerName : string) : string := "dcm/providers/" ++ providerName.

(** [uuid], [now]: a new identifier and the time; [set_data], [marshal]: the
    CloudEvents SDK's SetData and MarshalJSON. *)
Record EventTools := mkTools {
  et_uuid : string;
  et_now : string;
  et_set_data : json → option string;
  et_marshal : status_ce → string + json
}.

(** event.go of the network and storage monitors, on the SDK. *)
Definition sdk_status_event (type subject providerName : string) (t : EventTools) (e : StatusEvent) : string + json :=
  match et_set_data t (status_data e) with
  | Some err => inl (wrap_text "setting cloud event data" err)
  | None =>
      wrap_result "marshaling cloud event"
        (et_marshal t (mkStatusCE (et_uuid t) (status_source providerName) type subject (et_now t) (status_data e)))
  end.

(** event.go of the container monitor, with a structure of its own: its
    encoding cannot fail. *)
Definition container_status_event (subject providerName : string) (t : EventTools) (e : StatusEvent) : json :=
  JObject [("specversion", JString "1.0"); ("id", JString (et_uuid t)); ("source", JString (status_source providerName));
           ("type", JString "dcm.status.container"); ("subject", JString subject); ("time", JString (et_now t));
           ("datacontenttype", JString "application/json"); ("data", status_data e)].

(** event.go of the cluster monitor. *)
Definition cluster_status_event (providerName : string) (t : EventTools) (e : StatusEvent) : json :=
  JObject [("specversion", JString "1.0"); ("id", JString (et_uuid t)); ("source", JString (status_source providerName));
           ("type", JString "dcm.status.cluster"); ("time", JString (et_now t)); ("subject", JString "dcm.cluster");
           ("datacontenttype", JString "application/json"); ("data", status_data e)].

(** Publish of the network and storage publishers; [ctx_err k]: ctx.Err() at
    its [k]th call; [make]: NewStatusCloudEvent. *)
Definition publish_checked `{Libs} {W} (make : string → string → EventTools → StatusEvent → string + json)
    (p : NATSPublisher) (t : EventTools) (ctx_err : nat → option string) (event : StatusEvent) : call W () :=
  match ctx_err 0%nat with
  | Some e => raise e
  | None =>
      data <- wrap "constructing cloud event" (lift_result (make (pub_subject p) (pub_providerName p) t event));;
      match ctx_err 1%nat with
      | Some e => raise e
      | None => wrap ("publishing to NATS subject " ++ Quote (pub_subject p)) (conn_Publish (pub_conn p) (pub_subject p) data)
      end
  end.

(** Bundle of the files setup.go: the app, and what its handler and its
    checker work on (both are built on what the app serves). *)
Record Bundle (A S C : Type) := mkBundle { b_App : A; b_Handler : S; b_Checker : C }.
Arguments mkBundle {A S C}.
Arguments b_App {A S C}.
Arguments b_Handler {A S C}.
Arguments b_Checker {A S C}.

(** ** internal/openshift/storage *)

Module StorageApp.
Record Config := mkConfig {
  Shared : SharedConfig;
  Namespace : string;
  DefaultStorageClass : string;
  DefaultAccessMode : string;
  DebounceMs : Z;
  ResyncPeriod : Z;
  PublishMaxAttempts : Z
}.

Definition defaultProviderName : string := "storage".

Definition with_shared (c : Config) (s : SharedConfig) : Config :=
  mkConfig s (Namespace c) (DefaultStorageClass c) (DefaultAccessMode c) (DebounceMs c) (ResyncPeriod c) (PublishMaxAttempts c).

Definition validate (c : Config) : option string :=
  if bool_decide (DefaultAccessMode c ∈ ["ReadWriteOnce"; "ReadOnlyMany"; "ReadWriteMany"; ""]) then None
  else Some ("invalid SP_K8S_DEFAULT_ACCESS_MODE " ++ Quote (DefaultAccessMode c)
             ++ ": must be ReadWriteOnce, ReadOnlyMany, ReadWriteMany, or empty (no explicit default)").

Definition Load (parsed : string + Config) (agent : Agent) : string + Config :=
  match parsed with
  | inl e => inl (wrap_text "loading storage SP config" e)
  | inr cfg =>
      match Apply (name_or defaultProviderName (Shared cfg)) agent with
      | inl e => inl (wrap_text "applying agent configuration" e)
      | inr shared =>
          let cfg := with_shared cfg shared in
          match validate cfg with
          | Some e => inl (wrap_text "loading configuration" e)
          | None => inr cfg
          end
      end
  end.

Record MonitorConfig := mkMonitorConfig {
  mc_Namespace : string; mc_DebounceMs : Z; mc_ResyncPeriod : Z; mc_PublishMaxAttempts : Z; mc_ShutdownPublishTimeout : Z
}.

Section App.
Context `{Libs} {W : Type}.

(** The store: its client and configuration. *)
Definition Repository : Type := Clientset * StorageStore.K8sConfig.

Record App := mkApp {
  cfg : Config;
  repo : option Repository;
  publisher : option NATSPublisher;
  monitor : option (Clientset * MonitorConfig * NATSPublisher);
  closers : list NATSPublisher
}.

Definition NewClient (kubeconfig : string) : string + Clientset := new_clientset kubeconfig.

Definition NewNATSPublisher : string → string → call W NATSPublisher := new_nats_publisher "dcm.storage".

Definition NewStatusCloudEvent : string → string → EventTools → StatusEvent → string + json :=
  sdk_status_event "dcm.status.storage".

Definition Publish : NATSPublisher → EventTools → (nat → option string) → StatusEvent → call W () :=
  publish_checked NewStatusCloudEvent.

Definition ClosePublisher (p : NATSPublisher) : call W () := close_publisher p.

Definition k8s_config (c : Config) : StorageStore.K8sConfig :=
  StorageStore.mkConfig (Namespace c) (DefaultStorageClass c) (DefaultAccessMode c).

Definition buildStore (c : Config) : string + Repository :=
  match NewClient (sc_Kubeconfig (Shared c)) with
  | inl e => inl (wrap_text "creating kubernetes client" e)
  | inr k8sClient => inr (k8sClient, k8s_config c)
  end.

Definition New (config : option Config) (DisableMonitor : bool) : call W App :=
  match config with
  | None => panic
  | Some c =>
      if DisableMonitor then
        repo <- wrap "building volume store" (lift_result (buildStore c));;
        give (mkApp c (Some repo) None None [])
      else
        publisher <- wrap "creating NATS publisher" (NewNATSPublisher (sc_MessagingURL (Shared c)) (sc_Name (Shared c)));;
        k8sClient <- on_error (wrap "creating kubernetes client" (lift_result (NewClient (sc_Kubeconfig (Shared c)))))
                       (ClosePublisher publisher);;
        let monitorCfg := mkMonitorConfig (Namespace c) (DebounceMs c) (ResyncPeriod c) (PublishMaxAttempts c) 0 in
        give (mkApp c (Some (k8sClient, k8s_config c)) (Some publisher) (Some (k8sClient, monitorCfg, publisher)) [publisher])
  end.

Definition Close (a : App) : call W () := worker_Close (ClosePublisher <$> closers a).

(** [None]: not enabled. *)
Definition Setup (parsed : string + Config) (agentCfg : AppConfig)
  : call W (option (Bundle App (option Repository) (option Repository))) :=
  if negb (Enabled PStorage (pc_EmbeddedSPs (app_Provider agentCfg))) then give None
  else
    c <- wrap "loading storage SP config" (lift_result (Load parsed (FromAgent (Some agentCfg))));;
    a <- wrap "creating storage SP app" (New (Some c) false);;
    give (Some (mkBundle a (repo a) (repo a))).
End App.
Arguments App {_}.
End StorageApp.

(** ** internal/openshift/container *)

Module ContainerApp.
Record Config := mkConfig {
  Shared : SharedConfig;
  Namespace : string;
  ExternalServiceType : string;
  DebounceMs : Z;
  ResyncPeriod : Z
}.

Definition defaultProviderName : string := "container-sp".

Definition with_shared (c : Config) (s : SharedConfig) : Config :=
  mkConfig s (Namespace c) (ExternalServiceType c) (DebounceMs c) (ResyncPeriod c).

Definition validateKubernetes (c : Config) : option string :=
  if bool_decide (ExternalServiceType c ∈ ["LoadBalancer"; "NodePort"]) then None
  else Some ("invalid SP_K8S_EXTERNAL_SVC_TYPE " ++ Quote (ExternalServiceType c) ++ ": must be LoadBalancer or NodePort").

Definition Load (parsed : string + Config) (agent : Agent) : string + Config :=
  match parsed with
  | inl e => inl (wrap_text "loading container SP config" e)
  | inr cfg =>
      match Apply (name_or defaultProviderName (Shared cfg)) agent with
      | inl e => inl e
      | inr shared =>
          let cfg := with_shared cfg shared in
          match validateKubernetes cfg with
          | Some e => inl (wrap_text "loading configuration" e)
          | None => inr cfg
          end
      end
  end.

Record MonitorConfig := mkMonitorConfig {
  mc_Namespace : string; mc_ProviderName : string; mc_DebounceMs : Z; mc_ResyncPeriod : Z
}.

Section App.
Context `{Libs} {W : Type}.

(** The store: its client and configuration. *)
Definition Repository : Type := Clientset * ContainerStore.K8sConfig.

Record App := mkApp {
  cfg : Config;
  repo : option Repository;
  publisher : option NATSPublisher;
  monitor : option (Clientset * MonitorConfig * NATSPublisher);
  closers : list NATSPublisher
}.

Definition NewClient (kubeconfig : string) : string + Clientset := new_clientset kubeconfig.

Definition NewNATSPublisher : string → string → call W NATSPublisher := new_nats_publisher "dcm.container".

(** The context is not looked at. *)
Definition Publish (p : NATSPublisher) (t : EventTools) (event : StatusEvent) : call W () :=
  conn_Publish (pub_conn p) (pub_subject p) (container_status_event (pub_subject p) (pub_providerName p) t event).

Definition ClosePublisher (p : NATSPublisher) : call W () := close_publisher p.

Definition k8s_config (c : Config) : ContainerStore.K8sConfig := ContainerStore.mkConfig (Namespace c) (ExternalServiceType c).

Definition buildStore (c : Config) : string + Repository :=
  match NewClient (sc_Kubeconfig (Shared c)) with
  | inl e => inl (wrap_text "creating kubernetes client" e)
  | inr k8sClient => inr (k8sClient, k8s_config c)
  end.

Definition New (config : option Config) (DisableMonitor : bool) : call W App :=
  match config with
  | None => panic
  | Some c =>
      if DisableMonitor then
        repo <- lift_result (buildStore c);;
        give (mkApp c (Some repo) None None [])
      else
        publisher <- wrap "creating NATS publisher" (NewNATSPublisher (sc_MessagingURL (Shared c)) (sc_Name (Shared c)));;
        k8sClient <- on_error (wrap "creating kubernetes client" (lift_result (NewClient (sc_Kubeconfig (Shared c)))))
                       (ClosePublisher publisher);;
        let monitorCfg := mkMonitorConfig (Namespace c) (sc_Name (Shared c)) (DebounceMs c) (ResyncPeriod c) in
        give (mkApp c (Some (k8sClient, k8s_config c)) (Some publisher) (Some (k8sClient, monitorCfg, publisher)) [publisher])
  end.

Definition Close (a : App) : call W () := worker_Close (ClosePublisher <$> closers a).

Definition Setup (parsed : string + Config) (agentCfg : AppConfig)
  : call W (option (Bundle App (option Repository) (option Repository))) :=
  if negb (Enabled PContainer (pc_EmbeddedSPs (app_Provider agentCfg))) then give None
  else
    c <- wrap "loading container SP config" (lift_result (Load parsed (FromAgent (Some agentCfg))));;
    a <- wrap "creating container SP app" (New (Some c) false);;
    give (Some (mkBundle a (repo a) (repo a))).
End App.
Arguments App {_}.
End ContainerApp.

(** ** internal/openshift/network *)

Module NetworkApp.
Record Config := mkConfig {
  Shared : SharedConfig;
  Namespace : string;
  DebounceMs : Z;
  ResyncPeriod : Z;
  PublishMaxAttempts : Z
}.

Definition defaultProviderName : string := "network".

Definition with_shared (c : Config) (s : SharedConfig) : Config :=
  mkConfig s (Namespace c) (DebounceMs c) (ResyncPeriod c) (PublishMaxAttempts c).

Definition Load (parsed : string + Config) (agent : Agent) : string + Config :=
  match parsed with
  | inl e => inl (wrap_text "loading network SP config" e)
  | inr cfg =>
      match Apply (name_or defaultProviderName (Shared cfg)) agent with
      | inl e => inl (wrap_text "applying agent configuration" e)
      | inr shared => inr (with_shared cfg shared)
      end
  end.

Record MonitorConfig := mkMonitorConfig {
  mc_Namespace : string; mc_DebounceMs : Z; mc_ResyncPeriod : Z; mc_PublishMaxAttempts : Z; mc_ShutdownPublishTimeout : Z
}.

Section App.
Context `{Libs} {W : Type}.

(** The store: its client and namespace. *)
Definition Repository : Type := Clientset * string.

Record App := mkApp {
  cfg : Config;
  repo : option Repository;
  publisher : option NATSPublisher;
  monitor : option (Clientset * MonitorConfig * NATSPublisher);
  closers : list NATSPublisher
}.

Definition NewClient (kubeconfig : string) : string + Clientset := new_clientset kubeconfig.

(** The logger is not nil: [New] puts the default one in place of nil. *)
Definition NewNATSPublisher : string → string → call W NATSPublisher := new_nats_publisher "dcm.network".

Definition NewStatusCloudEvent : string → string → EventTools → StatusEvent → string + json :=
  sdk_status_event "dcm.status.network".

Definition Publish : NATSPublisher → EventTools → (nat → option string) → StatusEvent → call W () :=
  publish_checked NewStatusCloudEvent.

Definition ClosePublisher (p : NATSPublisher) : call W () := drain_publisher p.

Definition buildStore (c : Config) : string + (Repository * Clientset) :=
  match NewClient (sc_Kubeconfig (Shared c)) with
  | inl e => inl (wrap_text "creating kubernetes client" e)
  | inr k8sClient => inr ((k8sClient, Namespace c), k8sClient)
  end.

Definition New (config : option Config) (DisableMonitor : bool) : call W App :=
  match config with
  | None => panic
  | Some c =>
      built <- wrap "building network store" (lift_result (buildStore c));;
      let '(repo, k8sClient) := built in
      if DisableMonitor then give (mkApp c (Some repo) None None [])
      else
        publisher <- wrap "creating NATS publisher" (NewNATSPublisher (sc_MessagingURL (Shared c)) (sc_Name (Shared c)));;
        let monitorCfg := mkMonitorConfig (Namespace c) (DebounceMs c) (ResyncPeriod c) (PublishMaxAttempts c) 0 in
        give (mkApp c (Some repo) (Some publisher) (Some (k8sClient, monitorCfg, publisher)) [publisher])
  end.

Definition Close (a : App) : call W () := worker_Close (ClosePublisher <$> closers a).

Definition Setup (parsed : string + Config) (agentCfg : AppConfig)
  : call W (option (Bundle App (option Repository) (option Repository))) :=
  if negb (Enabled PNetwork (pc_EmbeddedSPs (app_Provider agentCfg))) then give None
  else
    c <- wrap "loading network SP config" (lift_result (Load parsed (FromAgent (Some agentCfg))));;
    a <- wrap "creating network SP app" (New (Some c) false);;
    give (Some (mkBundle a (repo a) (repo a))).
End App.
Arguments App {_}.
End NetworkApp.

(** ** internal/openshift/kubevirtvm *)

Module VMApp.
Record Config := mkConfig {
  Shared : SharedConfig;
  Namespace : string;
  Timeout : Z;
  MaxRetries : Z;
  NATSMaxReconnect : Z;
  NATSSubject : string;
  EventsEnabled : bool;
  EventsResyncPeriod : Z
}.

Definition defaultProviderName : string := "kubevirt-vm-sp".

Definition with_shared (c : Config) (s : SharedConfig) : Config :=
  mkConfig s (Namespace c) (Timeout c) (MaxRetries c) (NATSMaxReconnect c) (NATSSubject c) (EventsEnabled c) (EventsResyncPeriod c).

Definition Load (parsed : string + Config) (agent : Agent) : string + Config :=
  match parsed with
  | inl e => inl (wrap_text "loading VM SP config" e)
  | inr cfg =>
      match Apply (name_or defaultProviderName (Shared cfg)) agent with
      | inl e => inl e
      | inr shared => inr (with_shared cfg shared)
      end
  end.

(** events.VMEvent *)
Record VMEvent := mkVMEvent { Id : string; Status : string; Timestamp : string }.

Definition vm_event_data (e : VMEvent) : json :=
  JObject [("id", JString (Id e)); ("status", JString (Status e)); ("timestamp", JString (Timestamp e))].

Record MonitorConfig := mkMonitorConfig { mc_Namespace : string; mc_ResyncPeriod : Z }.

Section App.
Context `{Libs} {W : Type}.

Record Client := mkClient {
  restClient : KubevirtRest;
  dynamicClient : Dynamic;
  kubeClient : Clientset;
  namespace : string;
  timeout : Z;
  maxRetries : Z
}.

Definition NewClient (config : option Config) : call W Client :=
  match config with
  | None => panic
  | Some cfg =>
      let kubeconfig := sc_Kubeconfig (Shared cfg) in
      restConfig <- lift_result
        (if negb (kubeconfig =s? "") then
           wrap_result ("failed to build config from kubeconfig file " ++ kubeconfig) (BuildConfigFromFlags kubeconfig)
         else wrap_result "failed to build in-cluster config" InClusterConfig);;
      let userAgent := if rest_UserAgent restConfig =s? "" then DefaultKubernetesUserAgent else rest_UserAgent restConfig in
      restClient <- wrap "failed to create KubeVirt REST client"
        (lift_result (RESTClientFor (mkOverride ("kubevirt.io", "v1") "/apis" userAgent) restConfig));;
      dynamicClient <- wrap "failed to create dynamic client" (lift_result (dynamic_NewForConfig restConfig));;
      kubeClient <- wrap "failed to create Kubernetes clientset" (lift_result (kubernetes_NewForConfig restConfig));;
      give (mkClient restClient dynamicClient kubeClient (Namespace cfg) (Timeout cfg) (MaxRetries cfg))
  end.

(** events.Publisher *)
Record Publisher := mkVMPublisher { natsConn : nat; js : JetStream; natsURL : string; subject : string; maxReconnect : Z }.

Definition jetstream (c : nat) : call W JetStream := λ s, (Val (jetstream_New c (length (s_log s))), s).

(** NewPublisher with connect *)
Definition NewPublisher (natsURL subject : string) (maxReconnect : Z) : call W Publisher :=
  wrap "failed to create NATS publisher"
    (nc <- wrap "failed to connect to NATS" (connect (mkNatsOptions maxReconnect (2 * Second) false) natsURL);;
     js <- wrap "failed to create JetStream context" (on_error (jetstream nc) (conn_Close nc));;
     give (mkVMPublisher nc js natsURL subject maxReconnect)).

Definition IsConnected (p : Publisher) (s : sys W) : bool := nats_IsConnected (natsConn p) (length (s_log s)).

Definition PublishVMEvent (p : Publisher) (t : EventTools) (vmEvent : VMEvent) : call W () := λ s,
  (if negb (IsConnected p s) then raise "NATS connection not available"
   else
     match et_set_data t (vm_event_data vmEvent) with
     | Some err => raise (wrap_text "failed to set CloudEvent data" err)
     | None =>
         data <- wrap "failed to marshal CloudEvent"
           (lift_result (et_marshal t (mkStatusCE (et_uuid t) "kubevirt.localhost" "dcm.status.vm" (subject p)
              (Timestamp vmEvent) (vm_event_data vmEvent))));;
         λ s', match jetstream_Publish (js p) (subject p) data (length (s_log s')) with
               | Some err => raise (wrap_text "failed to publish event to JetStream" err) s'
               | None => give () (note (Sent (natsConn p) (subject p) data) s')
               end
     end) s.

Definition ClosePublisher (p : Publisher) : call W () := _ <- conn_Close (natsConn p);; give ().

Record App := mkApp {
  client : Client;
  mapper : string;
  publisher : option Publisher;
  monitor : option (Dynamic * Publisher * MonitorConfig);
  closers : list Publisher
}.

Definition New (config : option Config) (DisableMonitor : bool) : call W App :=
  match config with
  | None => panic
  | Some cfg =>
      client <- wrap "creating kubevirt client" (NewClient (Some cfg));;
      if DisableMonitor || negb (EventsEnabled cfg) then give (mkApp client (Namespace cfg) None None [])
      else
        publisher <- wrap "creating VM event publisher"
          (NewPublisher (sc_MessagingURL (Shared cfg)) (NATSSubject cfg) (NATSMaxReconnect cfg));;
        let monitorCfg := mkMonitorConfig (Namespace cfg) (EventsResyncPeriod cfg) in
        give (mkApp client (Namespace cfg) (Some publisher) (Some (dynamicClient client, publisher, monitorCfg)) [publisher])
  end.

Definition Close (a : App) : call W () := worker_Close (ClosePublisher <$> closers a).

Definition Setup (parsed : string + Config) (agentCfg : AppConfig) : call W (option (Bundle App (Client * string) Client)) :=
  if negb (Enabled PVM (pc_EmbeddedSPs (app_Provider agentCfg))) then give None
  else
    c <- wrap "loading VM SP config" (lift_result (Load parsed (FromAgent (Some agentCfg))));;
    a <- wrap "creating VM SP app" (New (Some c) false);;
    give (Some (mkBundle a (client a, mapper a) (client a))).
End App.
Arguments App {_}.
Arguments Client {_}.
Arguments Publisher {_}.
End VMApp.

(** ** internal/openshift/acmcluster *)

Module ClusterApp.
Record HealthConfig := mkHealthConfig { CheckTimeout : Z; EnabledPlatforms : list string }.

Record MonitoringConfig := mkMonitoringConfig {
  DebounceInterval : Z; ResyncInterval : Z; PublishRetryMax : Z; PublishRetryInterval : Z
}.

Record Config := mkConfig {
  Shared : SharedConfig;
  Health : HealthConfig;
  Cluster : ClusterConfig;
  Monitoring : MonitoringConfig
}.

Definition defaultProviderName : string := "acm-cluster-sp".

(** How [env.Parse] ends for each of the four structures. *)
Record Parsed := mkParsed {
  p_shared : string + SharedConfig;
  p_health : string + HealthConfig;
  p_cluster : string + ClusterConfig;
  p_monitoring : string + MonitoringConfig
}.

Definition Load (parsed : Parsed) (agent : Agent) : string + Config :=
  match LoadInto (p_shared parsed) agent defaultProviderName with
  | inl e => inl e
  | inr shared =>
      match p_health parsed with
      | inl e => inl (wrap_text "SP health config" e)
      | inr health =>
          match p_cluster parsed with
          | inl e => inl (wrap_text "SP cluster config" e)
          | inr cluster =>
              match p_monitoring parsed with
              | inl e => inl (wrap_text "SP monitoring config" e)
              | inr monitoring => inr (mkConfig shared health cluster monitoring)
              end
          end
      end
  end.

(** app.PrepareConfig, on the whole configuration. *)
Definition Prepare (read : string → option string) (parse : string → option json) (cfg : option Config) : string + Config :=
  match cfg with
  | None => inl "config is required"
  | Some c =>
      match PrepareConfig read parse (sc_Name (Shared c)) (Cluster c) with
      | inl e => inl e
      | inr cluster => inr (mkConfig (Shared c) (Health c) cluster (Monitoring c))
      end
  end.

Record MonitorConfig := mkMonitorConfig {
  mc_Namespace : string; mc_ProviderName : string; mc_DebounceInterval : Z; mc_ResyncInterval : Z;
  mc_PublishRetryMax : Z; mc_PublishRetryInterval : Z
}.

Section App.
Context `{Libs} {W X Q : Type} `{!KubeLib X Q, !KubeAPI W X Secret}.

(** app/options.go *)
Record Options := mkOptions {
  Version : string;
  DisableMonitor : bool;
  KubernetesClient : option CtrlClient;
  RestConfig : option Rest;
  DynamicClient : option Dynamic
}.

Definition no_options : Options := mkOptions "" false None None None.

Definition version (o : Options) : string := if negb (Version o =s? "") then Version o else "0.0.1-dev".

Record App := mkApp {
  cfg : Config;
  clusterService : CtrlClient * ClusterConfig * list string;
  healthChecker : CtrlClient * HealthConfig * string;
  monitor : option (Dynamic * MonitorConfig * NATSPublisher);
  publisher : option NATSPublisher;
  closers : list NATSPublisher
}.

Definition NewNATSPublisher : string → string → call W NATSPublisher := new_nats_publisher "dcm.cluster".

Definition Publish (p : NATSPublisher) (t : EventTools) (event : StatusEvent) : call W () :=
  conn_Publish (pub_conn p) (pub_subject p) (cluster_status_event (pub_providerName p) t event).

Definition ClosePublisher (p : NATSPublisher) : call W () := close_publisher p.

Definition resolveKubernetesClients (kubeconfigPath : string) (opts : Options) : string + (option Rest * CtrlClient) :=
  match KubernetesClient opts with
  | Some k =>
      if DisableMonitor opts || bool_decide (is_Some (RestConfig opts)) then inr (RestConfig opts, k)
      else inl "RestConfig is required when KubernetesClient is set and status monitor is enabled"
  | None =>
      match RESTConfig kubeconfigPath with
      | inl e => inl (wrap_text "loading kubeconfig" e)
      | inr restCfg =>
          match BuildScheme with
          | Some e => inl (wrap_text "building scheme" e)
          | None =>
              match client_New restCfg with
              | inl e => inl (wrap_text "creating kubernetes client" e)
              | inr k8sClient => inr (Some restCfg, k8sClient)
              end
          end
      end
  end.

Definition initMonitor (a : App) (restCfg : option Rest) (opts : Options) : call W App :=
  if DisableMonitor opts then give a
  else
    dynamicClient <- match DynamicClient opts, restCfg with
                     | Some d, _ => give d
                     | None, None => raise "rest config is required for status monitor"
                     | None, Some r => wrap "creating dynamic kubernetes client" (lift_result (dynamic_NewForConfig r))
                     end;;
    publisher <- wrap "creating NATS publisher"
      (NewNATSPublisher (sc_MessagingURL (Shared (cfg a))) (sc_Name (Shared (cfg a))));;
    let m := Monitoring (cfg a) in
    let monitorCfg := mkMonitorConfig (ClusterNamespace (Cluster (cfg a))) (sc_Name (Shared (cfg a)))
      (DebounceInterval m) (ResyncInterval m) (PublishRetryMax m) (PublishRetryInterval m) in
    give (mkApp (cfg a) (clusterService a) (healthChecker a) (Some (dynamicClient, monitorCfg, publisher)) (Some publisher)
            (closers a ++ [publisher])).

(** A call on the Kubernetes API. *)
Definition on_kube (f : kube W (option string)) : call W () := λ s,
  let '(r, w) := f (s_kube s) in
  (Val (match r with Some e => inl e | None => inr () end), mkSys (s_next s) (s_live s) (s_log s) w).

Definition Close (a : App) : call W () := worker_Close (ClosePublisher <$> closers a).

Definition New (parse : string → option json) (update : Secret → kube W (option X)) (config : option Config) (opts : Options)
  : call W App :=
  match config with
  | None => panic
  | Some c =>
      if PullSecretName (Cluster c) =s? "" then raise "cluster pull secret name is empty"
      else
        clients <- lift_result (resolveKubernetesClients (sc_Kubeconfig (Shared c)) opts);;
        let '(restCfg, k8sClient) := clients in
        _ <- wrap "ensuring pull secret" (on_kube (EnsurePullSecret parse update (Cluster c)));;
        let a := mkApp c (k8sClient, Cluster c, EnabledPlatforms (Health c)) (k8sClient, Health c, version opts) None None [] in
        on_error (initMonitor a restCfg opts) (Close a)
  end.

Definition Setup (read : string → option string) (parse : string → option json) (update : Secret → kube W (option X))
    (parsed : Parsed) (agentCfg : AppConfig)
  : call W (option (Bundle App (CtrlClient * ClusterConfig * list string) (CtrlClient * HealthConfig * string))) :=
  if negb (Enabled PCluster (pc_EmbeddedSPs (app_Provider agentCfg))) then give None
  else
    c <- wrap "loading cluster SP config" (lift_result (Load parsed (FromAgent (Some agentCfg))));;
    c <- wrap "preparing cluster SP config" (lift_result (Prepare read parse (Some c)));;
    a <- wrap "creating cluster SP app" (New parse update (Some c) no_options);;
    give (Some (mkBundle a (clusterService a) (healthChecker a))).
End App.
Arguments App {_}.
End ClusterApp.

(** ** internal/openshift/database/config *)

Module DatabaseConf.
Record Config := mkConfig {
  Shared : SharedConfig;
  Namespace : string;
  DefaultStorageClass : string;
  ImageCatalog : string;
  ExternalServiceType : string;
  DefaultVersion : Z;
  DebounceMs : Z;
  ResyncPeriod : Z;
  PublishMaxAttempts : Z
}.

Definition defaultProviderName : string := "database".

Definition validate (c : Config) : option string :=
  if bool_decide (ExternalServiceType c ∈ ["LoadBalancer"; "NodePort"]) then None
  else Some ("invalid SP_DATABASE_EXTERNAL_SVC_TYPE " ++ Quote (ExternalServiceType c) ++ ": must be LoadBalancer or NodePort").

Definition Load (parsed : string + Config) (agent : Agent) : string + Config :=
  match parsed with
  | inl e => inl (wrap_text "loading configuration" e)
  | inr c =>
      match Apply (name_or defaultProviderName (Shared c)) agent with
      | inl e => inl (wrap_text "applying agent configuration" e)
      | inr shared =>
          let c := mkConfig shared (Namespace c) (DefaultStorageClass c) (ImageCatalog c) (ExternalServiceType c)
                     (DefaultVersion c) (DebounceMs c) (ResyncPeriod c) (PublishMaxAttempts c) in
          match validate c with
          | Some e => inl (wrap_text "loading configuration" e)
          | None => inr c
          end
      end
  end.
End DatabaseConf.

(** ** internal/embedded/embedded.go *)

Section Bundles.
Context `{Libs} {W X Q : Type} `{!KubeLib X Q, !KubeAPI W X Secret}.

(** The environment of the process as the five configurations read it, and the
    file and API calls of the cluster provider. *)
Record environment := mkEnvironment {
  e_cluster : ClusterApp.Parsed;
  e_container : string + ContainerApp.Config;
  e_network : string + NetworkApp.Config;
  e_storage : string + StorageApp.Config;
  e_vm : string + VMApp.Config;
  e_read : string → option string;
  e_parse : string → option json;
  e_update : Secret → kube W (option X)
}.

Inductive bundle :=
  | BCluster (a : ClusterApp.App)
  | BContainer (a : ContainerApp.App)
  | BNetwork (a : NetworkApp.App)
  | BStorage (a : StorageApp.App)
  | BVM (a : VMApp.App).

Definition bundle_of {A S C} (f : A → bundle) (b : option (Bundle A S C)) : option bundle := (f ∘ b_App) <$> b.

Definition setup_provider (env : environment) (agentCfg : AppConfig) (p : provider) : call W (option bundle) :=
  match p with
  | PCluster => b <- ClusterApp.Setup (e_read env) (e_parse env) (e_update env) (e_cluster env) agentCfg;; give (bundle_of BCluster b)
  | PContainer => b <- ContainerApp.Setup (e_container env) agentCfg;; give (bundle_of BContainer b)
  | PNetwork => b <- NetworkApp.Setup (e_network env) agentCfg;; give (bundle_of BNetwork b)
  | PStorage => b <- StorageApp.Setup (e_storage env) agentCfg;; give (bundle_of BStorage b)
  | PVM => b <- VMApp.Setup (e_vm env) agentCfg;; give (bundle_of BVM b)
  end.

(** Bundle.Close of each provider. *)
Definition bundle_Close (b : bundle) : call W () :=
  match b with
  | BCluster a => ClusterApp.Close a
  | BContainer a => ContainerApp.Close a
  | BNetwork a => NetworkApp.Close a
  | BStorage a => StorageApp.Close a
  | BVM a => VMApp.Close a
  end.

(** Closing of bundles one after the other: [errors.Join] of their errors. *)
Fixpoint close_bundles (l : list bundle) : call W () := λ s,
  match l with
  | [] => give () s
  | b :: rest =>
      match bundle_Close b s with
      | (Panicked, s') => (Panicked, s')
      | (Val r, s') =>
          match close_bundles rest s' with
          | (Val r', s'') =>
              (Val (match r, r' with
                    | inl e, inl e' => inl (e ++ String (Ascii.ascii_of_nat 10) e')
                    | inl e, inr _ => inl e
                    | inr _, _ => r'
                    end), s'')
          | (Panicked, s'') => (Panicked, s'')
          end
      end
  end.

(** [made]: the bundles that are not nil so far. *)
Fixpoint setup_bundles (env : environment) (agentCfg : AppConfig) (todo : list provider) (made : list bundle)
  : call W (list bundle) :=
  match todo with
  | [] => give made
  | p :: rest =>
      b <- on_error (wrap (ServiceTypeOf p ++ " embedded setup") (setup_provider env agentCfg p)) (close_bundles made);;
      setup_bundles env agentCfg rest (made ++ option_list b)
  end.

Definition SetupBundles (env : environment) (agentCfg : AppConfig) : call W (list bundle) :=
  setup_bundles env agentCfg providers [].
End Bundles.
Arguments bundle {_}.
Arguments environment : clear implicits.

(** ** Ownership of connections

    [owns u P m h R]: started with the connections [P] beside any others, [m]
    does not panic; if it fails, the connections [P] are no longer open; if it
    returns [a], it holds [h a] in their place and [R a].  The others stay as
    they were, and new connections are to [u]. *)

Section Ownership.
Context {W : Type}.

Definition numbered (s : sys W) : Prop := ∀ c, c ∈ s_live s → (c < s_next s)%nat.

Definition to_url (u : string) (e : conn_event) : Prop :=
  match e with Connected _ _ url | Refused url => url = u | _ => True end.

Definition grows (u : string) (s s' : sys W) : Prop :=
  ∃ new, s_log s' = (s_log s ++ new)%list ∧ Forall (to_url u) new.

Definition owns (u : string) {A} (P : gset nat) (m : call W A) (h : A → gset nat) (R : A → Prop) : Prop :=
  ∀ base s, numbered s → s_live s = P ∪ base → P ## base →
  let '(r, s') := m s in
  numbered s' ∧ grows u s s' ∧
  match r with
  | Panicked => False
  | Val (inl _) => s_live s' = base
  | Val (inr a) => s_live s' = h a ∪ base ∧ h a ## base ∧ R a
  end.

Definition nothing {A} (_ : A) : gset nat := ∅.

Lemma grows_refl u s : grows u s s.
Proof. exists []. by rewrite app_nil_r. Qed.

Lemma grows_trans u s1 s2 s3 : grows u s1 s2 → grows u s2 s3 → grows u s1 s3.
Proof. intros (n1 & H1 & F1) (n2 & H2 & F2). exists (n1 ++ n2)%list. rewrite H2, H1, app_assoc. split; [done|]. by apply Forall_app. Qed.

Lemma grows_one u s s' e : s_log s' = (s_log s ++ [e])%list → to_url u e → grows u s s'.
Proof. intros H1 H2. exists [e]. split; [done|]. by constructor. Qed.
Hint Resolve grows_refl : core.

Lemma owns_give u {A} (a : A) (h : A → gset nat) (R : A → Prop) : R a → owns u (h a) (give a) h R.
Proof. intros Ha base s Hn Hl Hd. simpl. auto. Qed.

Lemma owns_raise u {A} e (h : A → gset nat) R : owns u ∅ (raise e) h R.
Proof. intros base s Hn Hl Hd. simpl. split_and!; [done..|]. by rewrite Hl, (left_id_L ∅ (∪)). Qed.

Lemma owns_lift u {A} (r : string + A) (R : A → Prop) : (∀ a, r = inr a → R a) → owns u ∅ (lift_result r) nothing R.
Proof. intros Hr base s Hn Hl Hd. simpl. rewrite (left_id_L ∅ (∪)) in Hl. destruct r; split_and!; auto; unfold nothing; set_solver. Qed.

Lemma owns_bind u {A B} P (m : call W A) h R (f : A → call W B) h' R' :
  owns u P m h R → (∀ a, R a → owns u (h a) (f a) h' R') → owns u P (cbind m f) h' R'.
Proof.
  intros Hm Hf base s Hn Hl Hd. specialize (Hm base s Hn Hl Hd). unfold cbind. destruct (m s) as [[[e|a]|] s'].
  - done.
  - destruct Hm as (Hn' & Hg & Hl' & Hd' & Ha). specialize (Hf a Ha base s' Hn' Hl' Hd'). destruct (f a s') as [r s''].
    destruct Hf as (H1 & H2 & H3). split_and!; [done|by eapply grows_trans|done].
  - by destruct Hm as (_ & _ & []).
Qed.

Lemma owns_wrap u {A} P context (m : call W A) h R : owns u P m h R → owns u P (wrap context m) h R.
Proof. intros Hm base s Hn Hl Hd. specialize (Hm base s Hn Hl Hd). unfold wrap. by destruct (m s) as [[[e|a]|] s']. Qed.

(** While [m] runs, the connections [F] are held by the caller; [cleanup]
    closes them. *)
Lemma owns_on_error u {A B} F (m : call W A) (cleanup : call W B) h R :
  owns u ∅ m h R → owns u F cleanup nothing (λ _, True) →
  owns u F (on_error m cleanup) (λ a, h a ∪ F) (λ a, R a ∧ h a ## F).
Proof.
  intros Hm Hc base s Hn Hl Hd. specialize (Hm (F ∪ base) s Hn). rewrite (left_id_L ∅ (∪)) in Hm.
  specialize (Hm Hl ltac:(set_solver)). unfold on_error. destruct (m s) as [[[e|a]|] s'].
  - destruct Hm as (Hn' & Hg & Hl'). specialize (Hc base s' Hn' Hl' Hd). destruct (cleanup s') as [[r|] s'']; [|by destruct Hc as (_ & _ & [])].
    destruct Hc as (Hn'' & Hg' & Hr). split_and!; [done|by eapply grows_trans|].
    destruct r as [|b]; [done|]. destruct Hr as (-> & _). unfold nothing. by rewrite (left_id_L ∅ (∪)).
  - destruct Hm as (Hn' & Hg & Hl' & Hd' & Ha). split_and!; [done..| |set_solver|done|set_solver]. rewrite Hl'. set_solver.
  - by destruct Hm as (_ & _ & []).
Qed.

Lemma owns_weaken u {A} P (m : call W A) h h' (R R' : A → Prop) :
  owns u P m h R → (∀ a, R a → h a = h' a ∧ R' a) → owns u P m h' R'.
Proof.
  intros Hm Hw base s Hn Hl Hd. specialize (Hm base s Hn Hl Hd). destruct (m s) as [[[e|a]|] s']; [done| |done].
  destruct Hm as (H1 & H2 & H3 & H4 & H5). destruct (Hw a H5) as [<- ?]. done.
Qed.

(** Calls that succeed or fail and release what they were given either way. *)
Definition releases (u : string) (P : gset nat) (m : call W ()) : Prop := owns u P m nothing (λ _, True).

(** [seq] runs both whatever the first one returns. *)
Lemma releases_both u P P' (m k : call W ()) (join : string + () → string + () → string + ()) :
  releases u P m → releases u P' k → P ## P' →
  releases u (P ∪ P') (λ s,
    match m s with
    | (Panicked, s') => (Panicked, s')
    | (Val r, s') => match k s' with (Val r', s'') => (Val (join r r'), s'') | (Panicked, s'') => (Panicked, s'') end
    end).
Proof.
  intros Hm Hk Hp base s Hn Hl Hd. specialize (Hm (P' ∪ base) s Hn). rewrite Hl, (assoc_L (∪)) in Hm. specialize (Hm eq_refl ltac:(set_solver)).
  destruct (m s) as [[r|] s']; [|by destruct Hm as (_ & _ & [])]. destruct Hm as (Hn' & Hg & Hr).
  assert (s_live s' = P' ∪ base) as Hl'. { destruct r; [done|]. destruct Hr as (-> & _). unfold nothing. set_solver. }
  specialize (Hk base s' Hn' Hl' ltac:(set_solver)). destruct (k s') as [[r'|] s'']; [|by destruct Hk as (_ & _ & [])].
  destruct Hk as (Hn'' & Hg' & Hr'). split_and!; [done|by eapply grows_trans|].
  assert (s_live s'' = base) as Hl''. { destruct r'; [done|]. destruct Hr' as (-> & _). unfold nothing. set_solver. }
  destruct (join r r'); [done|]. unfold nothing. set_solver.
Qed.
End Ownership.
#[export] Hint Resolve grows_refl : core.

Section ConnectionRules.
Context `{Libs} {W : Type}.
Implicit Types s : sys W.

Lemma owns_connect opts u : owns (W := W) u ∅ (connect opts u) (λ c, {[ c ]}) (λ _, True).
Proof.
  intros base s Hn Hl Hd. unfold connect. destruct (nats_Connect opts u (s_next s)); cbn [s_live s_next s_log].
  - split_and!; [intros c Hc%Hn; simpl; lia|by eapply grows_one|simpl; set_solver].
  - split_and!; [|by eapply grows_one|simpl; set_solver| |done].
    + intros c Hc. simpl in *. apply elem_of_union in Hc as [->%elem_of_singleton|Hc%Hn]; lia.
    + intros c ->%elem_of_singleton Hc. assert (s_next s < s_next s)%nat; [|lia]. apply Hn. set_solver.
Qed.

Lemma releases_Close u c : releases (W := W) u {[ c ]} (conn_Close c).
Proof.
  intros base s Hn Hl Hd. simpl. split_and!; [|by eapply grows_one|unfold nothing; set_solver|unfold nothing; set_solver|done].
  intros x Hx. simpl in *. apply Hn. set_solver.
Qed.

Lemma releases_Drain u c base s : numbered s → s_live s = {[ c ]} ∪ base → {[ c ]} ## base →
  let '(r, s') := conn_Drain (W := W) c s in
  numbered s' ∧ grows u s s' ∧ r ≠ Panicked ∧ s_live s' = match r with Val (inl _) => {[ c ]} ∪ base | _ => base end.
Proof.
  intros Hn Hl Hd. unfold conn_Drain. destruct (nats_Drain _ _); [done|].
  split_and!; [|by eapply grows_one|done|simpl; set_solver]. intros x Hx. simpl in *. apply Hn. set_solver.
Qed.

Lemma releases_close_publisher u p : releases (W := W) u {[ pub_conn p ]} (close_publisher p).
Proof. eapply owns_bind; [apply releases_Close|]. intros a _. by apply (owns_give u () nothing). Qed.

Lemma releases_drain_publisher u p : releases (W := W) u {[ pub_conn p ]} (drain_publisher p).
Proof.
  apply owns_wrap. intros base s Hn Hl Hd. pose proof (releases_Drain u (pub_conn p) base s Hn Hl Hd) as HD.
  unfold on_error. destruct (conn_Drain (pub_conn p) s) as [[[e|[]]|] s']; destruct HD as (Hn' & Hg & Hr & Hl').
  - pose proof (releases_Close u (pub_conn p) base s' Hn' Hl' Hd) as HC.
    destruct (conn_Close (pub_conn p) s') as [[r|] s'']; [|by destruct HC as (_ & _ & [])]. destruct HC as (H1 & H2 & H3).
    split_and!; [done|by eapply grows_trans|]. destruct r; [done|]. destruct H3 as (-> & _). unfold nothing. set_solver.
  - split_and!; [done..|unfold nothing; set_solver|unfold nothing; set_solver|done].
  - done.
Qed.

Lemma owns_new_publisher subject u name :
  owns (W := W) u ∅ (new_nats_publisher subject u name) (λ p, {[ pub_conn p ]})
    (λ p, pub_providerName p = name ∧ pub_subject p = subject).
Proof.
  eapply owns_bind; [apply owns_wrap, owns_connect|]. intros c _. by apply (owns_give u (mkPublisher c name subject) (λ p, {[ pub_conn p ]})).
Qed.

(** The connections of a list of publishers, in the order of their closers. *)
Definition held {A} (conn : A → nat) (l : list A) : gset nat := list_to_set (conn <$> l).

Lemma releases_worker_Close {A} u (conn : A → nat) (close : A → call W ()) (l : list A) :
  (∀ p, releases u {[ conn p ]} (close p)) → NoDup (conn <$> l) → releases u (held conn l) (worker_Close (close <$> l)).
Proof.
  intros Hc. induction l as [|p l IH]; intros Hd; [by apply (owns_give u () nothing)|].
  apply NoDup_cons in Hd as [Hp Hd].
  pose proof (releases_both u {[ conn p ]} (held conn l) (close p) (worker_Close (close <$> l))
    (λ r r', match r with inl e => inl e | inr _ => r' end)) as Hb. apply Hb; [done|by apply IH|]. clear Hb.
  unfold held. intros c ->%elem_of_singleton Hc'%elem_of_list_to_set. done.
Qed.

(** One publisher, as every app with a monitor has. *)
Lemma releases_one {A} u (conn : A → nat) (close : A → call W ()) (l : list A) :
  (∀ p, releases u {[ conn p ]} (close p)) → (length l ≤ 1)%nat → releases u (held conn l) (worker_Close (close <$> l)).
Proof.
  intros Hc Hl. apply releases_worker_Close; [done|]. destruct l as [|p [|q l]]; simpl in *; [constructor| |lia].
  apply NoDup_singleton.
Qed.

(** A Kubernetes client is needed once the connection is open. *)
Lemma owns_client u {A} context (r : string + A) p (close : NATSPublisher → call W ()) :
  releases u {[ pub_conn p ]} (close p) →
  owns u {[ pub_conn p ]} (on_error (wrap context (lift_result r)) (close p)) (λ _, {[ pub_conn p ]}) (λ k, r = inr k).
Proof.
  intros Hc. eapply owns_weaken; [eapply owns_on_error; [apply owns_wrap, owns_lift; by intros a Ha; exact Ha|done]|].
  intros k [Hk _]. split; [|done]. unfold nothing. by rewrite (left_id_L ∅ (∪)).
Qed.
End ConnectionRules.

(** ** What set-up makes of a provider *)

Section AppRules.
Context `{Libs} {W X Q : Type} `{!KubeLib X Q, !KubeAPI W X Secret}.
Implicit Types agentCfg : AppConfig.

(** The settings common to the providers of an agent. *)
Definition shared_ok (agentCfg : AppConfig) (s : SharedConfig) : Prop :=
  sc_MessagingURL s = ms_URL (app_Messaging agentCfg) ∧ sc_MessagingURL s ≠ "" ∧ sc_Name s ≠ "".

Lemma Apply_ok name cfg agentCfg s :
  name ≠ "" → Apply (name_or name cfg) (FromAgent (Some agentCfg)) = inr s → shared_ok agentCfg s.
Proof.
  unfold Apply, name_or, FromAgent. simpl. intros Hname. case_bool_decide as Hu; [done|]. intros [= <-]. unfold shared_ok. simpl.
  split_and!; [done..|]. by case_bool_decide.
Qed.

(** The publisher of an app with a status monitor: the app's only closer, named
    after the provider. *)
Definition publishes (subject : string) (s : SharedConfig) (publisher : option NATSPublisher) (closers : list NATSPublisher) : Prop :=
  ∃ p, publisher = Some p ∧ closers = [p] ∧ pub_subject p = subject ∧ pub_providerName p = sc_Name s.

Definition storage_ok agentCfg (a : StorageApp.App) : Prop :=
  let c := StorageApp.cfg a in
  shared_ok agentCfg (StorageApp.Shared c) ∧
  StorageApp.DefaultAccessMode c ∈ ["ReadWriteOnce"; "ReadOnlyMany"; "ReadWriteMany"; ""] ∧
  (∃ k, StorageApp.repo a = Some (k, StorageApp.k8s_config c) ∧ new_clientset (sc_Kubeconfig (StorageApp.Shared c)) = inr k) ∧
  publishes "dcm.storage" (StorageApp.Shared c) (StorageApp.publisher a) (StorageApp.closers a).

Definition container_ok agentCfg (a : ContainerApp.App) : Prop :=
  let c := ContainerApp.cfg a in
  shared_ok agentCfg (ContainerApp.Shared c) ∧
  ContainerApp.ExternalServiceType c ∈ ["LoadBalancer"; "NodePort"] ∧
  (∃ k, ContainerApp.repo a = Some (k, ContainerApp.k8s_config c) ∧ new_clientset (sc_Kubeconfig (ContainerApp.Shared c)) = inr k) ∧
  publishes "dcm.container" (ContainerApp.Shared c) (ContainerApp.publisher a) (ContainerApp.closers a).

Definition network_ok agentCfg (a : NetworkApp.App) : Prop :=
  let c := NetworkApp.cfg a in
  shared_ok agentCfg (NetworkApp.Shared c) ∧
  (∃ k, NetworkApp.repo a = Some (k, NetworkApp.Namespace c) ∧ new_clientset (sc_Kubeconfig (NetworkApp.Shared c)) = inr k) ∧
  publishes "dcm.network" (NetworkApp.Shared c) (NetworkApp.publisher a) (NetworkApp.closers a).

(** Events are optional for VMs. *)
Definition vm_ok (a : VMApp.App) : Prop :=
  match VMApp.publisher a with
  | Some p => VMApp.closers a = [p] ∧ ∃ m, VMApp.monitor a = Some m ∧ m.1.2 = p
  | None => VMApp.closers a = [] ∧ VMApp.monitor a = None
  end.

Definition cluster_ok agentCfg (a : ClusterApp.App) : Prop :=
  let c := ClusterApp.cfg a in
  shared_ok agentCfg (ClusterApp.Shared c) ∧
  PullSecretName (ClusterApp.Cluster c) = sc_Name (ClusterApp.Shared c) ++ "-pull-secret" ∧
  publishes "dcm.cluster" (ClusterApp.Shared c) (ClusterApp.publisher a) (ClusterApp.closers a).

Lemma StorageLoad_ok parsed agentCfg c : StorageApp.Load parsed (FromAgent (Some agentCfg)) = inr c →
  shared_ok agentCfg (StorageApp.Shared c) ∧ StorageApp.DefaultAccessMode c ∈ ["ReadWriteOnce"; "ReadOnlyMany"; "ReadWriteMany"; ""].
Proof.
  unfold StorageApp.Load. destruct parsed as [e|c0]; [done|].
  destruct (Apply _ _) as [e|s] eqn:HA; [done|]. unfold StorageApp.validate. case_bool_decide as Hm; [|done].
  intros [= <-]. split; [|done]. refine (Apply_ok _ _ _ _ _ HA). discriminate.
Qed.

Lemma ContainerLoad_ok parsed agentCfg c : ContainerApp.Load parsed (FromAgent (Some agentCfg)) = inr c →
  shared_ok agentCfg (ContainerApp.Shared c) ∧ ContainerApp.ExternalServiceType c ∈ ["LoadBalancer"; "NodePort"].
Proof.
  unfold ContainerApp.Load. destruct parsed as [e|c0]; [done|].
  destruct (Apply _ _) as [e|s] eqn:HA; [done|]. unfold ContainerApp.validateKubernetes. case_bool_decide as Hm; [|done].
  intros [= <-]. split; [|done]. refine (Apply_ok _ _ _ _ _ HA). discriminate.
Qed.

Lemma NetworkLoad_ok parsed agentCfg c : NetworkApp.Load parsed (FromAgent (Some agentCfg)) = inr c →
  shared_ok agentCfg (NetworkApp.Shared c).
Proof.
  unfold NetworkApp.Load. destruct parsed as [e|c0]; [done|]. destruct (Apply _ _) as [e|s] eqn:HA; [done|].
  intros [= <-]. refine (Apply_ok _ _ _ _ _ HA). discriminate.
Qed.

Lemma VMLoad_ok parsed agentCfg c : VMApp.Load parsed (FromAgent (Some agentCfg)) = inr c →
  shared_ok agentCfg (VMApp.Shared c).
Proof.
  unfold VMApp.Load. destruct parsed as [e|c0]; [done|]. destruct (Apply _ _) as [e|s] eqn:HA; [done|].
  intros [= <-]. refine (Apply_ok _ _ _ _ _ HA). discriminate.
Qed.

Lemma ClusterLoad_ok read parse parsed agentCfg c c' : ClusterApp.Load parsed (FromAgent (Some agentCfg)) = inr c →
  ClusterApp.Prepare read parse (Some c) = inr c' →
  shared_ok agentCfg (ClusterApp.Shared c') ∧ PullSecretName (ClusterApp.Cluster c') = sc_Name (ClusterApp.Shared c') ++ "-pull-secret".
Proof.
  unfold ClusterApp.Load, LoadInto. destruct (ClusterApp.p_shared parsed) as [e|c0]; [done|].
  destruct (Apply _ _) as [e|s] eqn:HA; [done|]. destruct (ClusterApp.p_health parsed); [done|].
  destruct (ClusterApp.p_cluster parsed); [done|]. destruct (ClusterApp.p_monitoring parsed); [done|]. intros [= <-].
  unfold ClusterApp.Prepare, PrepareConfig. simpl. destruct (LoadCompatibilityMatrix _ _ _); [done|]. intros [= <-]. simpl.
  split; [|done]. refine (Apply_ok _ _ _ _ _ HA). discriminate.
Qed.

(** Set-up of one provider: nothing is held when it is not enabled. *)
Definition bundle_held {A S C} (conns : A → gset nat) (b : option (Bundle A S C)) : gset nat :=
  match b with Some b => conns (b_App b) | None => ∅ end.
Definition bundle_is {A S C} (ok : A → Prop) (b : option (Bundle A S C)) : Prop :=
  match b with Some b => ok (b_App b) | None => True end.

Lemma owns_bundle {A S C} u (b : Bundle A S C) (h : A → gset nat) (ok : A → Prop) :
  ok (b_App b) → owns (W := W) u (h (b_App b)) (give (Some b)) (bundle_held h) (bundle_is ok).
Proof. intros Hok. by apply (owns_give u (Some b) (bundle_held h)). Qed.

(** The files setup.go, up to the names: load the configuration, build the app. *)
Lemma owns_setup {K A S C} u t1 t2 (on : bool) (load : string + K) (new : K → call W A) (mk : A → Bundle A S C)
    (h : A → gset nat) (ok : A → Prop) :
  (∀ a, b_App (mk a) = a) → (∀ c, load = inr c → owns u ∅ (new c) h ok) →
  owns u ∅ (if negb on then give None
            else cbind (wrap t1 (lift_result load)) (λ c, cbind (wrap t2 (new c)) (λ a, give (Some (mk a)))))
    (bundle_held h) (bundle_is ok).
Proof.
  intros Hmk Hnew. destruct on; simpl; [|by apply (owns_give u None (bundle_held h))].
  eapply owns_bind; [apply owns_wrap, owns_lift; intros c Hc; exact Hc|]. intros c Hc.
  eapply owns_bind; [by apply owns_wrap, Hnew|]. intros a Ha.
  pose proof (owns_bundle u (mk a) h ok) as Hb. rewrite Hmk in Hb. by apply Hb.
Qed.

(** An app whose only closer is [p]. *)
Lemma owns_app {A B} u (a : A) (conn : B → nat) (closers : A → list B) p (ok : A → Prop) :
  closers a = [p] → ok a → owns (W := W) u {[ conn p ]} (give a) (λ a, held conn (closers a)) ok.
Proof.
  intros Ha Hok. replace ({[ conn p ]} : gset nat) with (held conn (closers a)); [by apply (owns_give u a (λ a, held conn (closers a)))|].
  unfold held. rewrite Ha. simpl. by rewrite (right_id_L ∅ (∪)).
Qed.

Lemma owns_storage parsed agentCfg :
  owns (ms_URL (app_Messaging agentCfg)) ∅ (StorageApp.Setup (W := W) parsed agentCfg)
    (bundle_held (λ a, held pub_conn (StorageApp.closers a))) (bundle_is (storage_ok agentCfg)).
Proof.
  apply owns_setup; [done|]. intros c [Hs Hm]%StorageLoad_ok. pose proof Hs as [<- _]. simpl.
  eapply owns_bind; [apply owns_wrap, owns_new_publisher|]. intros p [Hn Hsub].
  eapply owns_bind; [apply owns_client, releases_close_publisher|]. intros k Hk.
  apply owns_app with (p := p); [done|]. split_and!; [done..|by exists k|by exists p].
Qed.

Lemma owns_container parsed agentCfg :
  owns (ms_URL (app_Messaging agentCfg)) ∅ (ContainerApp.Setup (W := W) parsed agentCfg)
    (bundle_held (λ a, held pub_conn (ContainerApp.closers a))) (bundle_is (container_ok agentCfg)).
Proof.
  apply owns_setup; [done|]. intros c [Hs Hm]%ContainerLoad_ok. pose proof Hs as [<- _]. simpl.
  eapply owns_bind; [apply owns_wrap, owns_new_publisher|]. intros p [Hn Hsub].
  eapply owns_bind; [apply owns_client, releases_close_publisher|]. intros k Hk.
  apply owns_app with (p := p); [done|]. split_and!; [done..|by exists k|by exists p].
Qed.

Lemma owns_network parsed agentCfg :
  owns (ms_URL (app_Messaging agentCfg)) ∅ (NetworkApp.Setup (W := W) parsed agentCfg)
    (bundle_held (λ a, held pub_conn (NetworkApp.closers a))) (bundle_is (network_ok agentCfg)).
Proof.
  apply owns_setup; [done|]. intros c Hs%NetworkLoad_ok. pose proof Hs as [<- _]. simpl.
  eapply owns_bind; [apply owns_wrap, owns_lift; intros r Hr; exact Hr|]. intros [repo k] Hb.
  unfold NetworkApp.buildStore in Hb. destruct (NetworkApp.NewClient _) as [e|k'] eqn:Hk; [done|]. simplify_eq/=.
  eapply owns_bind; [apply owns_wrap, owns_new_publisher|]. intros p [Hn Hsub].
  apply owns_app with (p := p); [done|]. split_and!; [done..|by exists k|by exists p].
Qed.

Lemma owns_empty {A} u (a : A) (h : A → gset nat) (R : A → Prop) : h a = ∅ → R a → owns (W := W) u ∅ (give a) h R.
Proof. intros <-. apply owns_give. Qed.

Lemma owns_jetstream u c : owns (W := W) u ∅ (VMApp.jetstream c) nothing (λ _, True).
Proof. intros base s Hn Hl Hd. by apply (owns_lift u (jetstream_New c (length (s_log s))) (λ _, True)). Qed.

Lemma owns_vm_publisher u subject max :
  owns (W := W) u ∅ (VMApp.NewPublisher u subject max) (λ p, {[ VMApp.natsConn p ]}) (λ _, True).
Proof.
  apply owns_wrap. eapply owns_bind; [apply owns_wrap, owns_connect|]. intros c _.
  eapply owns_bind; [apply owns_wrap, owns_on_error; [apply owns_jetstream|apply releases_Close]|].
  intros j _. unfold nothing. rewrite (left_id_L ∅ (∪)). by apply (owns_give u (VMApp.mkVMPublisher c j u subject max) (λ p, {[ VMApp.natsConn p ]})).
Qed.

Lemma owns_vm_client u c : owns (W := W) u ∅ (VMApp.NewClient (Some c)) nothing (λ _, True).
Proof.
  simpl. eapply owns_bind; [by apply owns_lift with (R := λ _, True)|]. intros r _. eapply owns_bind; [by apply owns_wrap, owns_lift with (R := λ _, True)|]. intros v _.
  eapply owns_bind; [by apply owns_wrap, owns_lift with (R := λ _, True)|]. intros d _. eapply owns_bind; [by apply owns_wrap, owns_lift with (R := λ _, True)|]. intros k _.
  by apply (owns_empty u).
Qed.

Lemma owns_vm parsed agentCfg :
  owns (ms_URL (app_Messaging agentCfg)) ∅ (VMApp.Setup (W := W) parsed agentCfg)
    (bundle_held (λ a, held VMApp.natsConn (VMApp.closers a))) (bundle_is vm_ok).
Proof.
  apply owns_setup; [done|]. intros c Hs%VMLoad_ok. destruct Hs as [<- _]. cbn [VMApp.New].
  eapply owns_bind; [apply owns_wrap, owns_vm_client|]. intros client _. destruct (VMApp.EventsEnabled c); simpl.
  - eapply owns_bind; [apply owns_wrap, owns_vm_publisher|]. intros p _.
    apply (owns_app _ _ VMApp.natsConn VMApp.closers p); [done|]. split; [done|]. by eexists.
  - by apply owns_empty.
Qed.
Lemma owns_on_kube u f : owns (W := W) u ∅ (ClusterApp.on_kube f) nothing (λ _, True).
Proof.
  intros base s Hn Hl Hd. unfold ClusterApp.on_kube. destruct (f (s_kube s)) as [r w]. rewrite (left_id_L ∅ (∪)) in Hl.
  split_and!; [done|by exists []; rewrite app_nil_r|]. destruct r; simpl; unfold nothing; set_solver.
Qed.

Lemma owns_initMonitor u a r : sc_MessagingURL (ClusterApp.Shared (ClusterApp.cfg a)) = u → ClusterApp.closers a = [] →
  owns (W := W) u ∅ (ClusterApp.initMonitor a r ClusterApp.no_options) (λ a, held pub_conn (ClusterApp.closers a))
    (λ a', ClusterApp.cfg a' = ClusterApp.cfg a ∧
       publishes "dcm.cluster" (ClusterApp.Shared (ClusterApp.cfg a)) (ClusterApp.publisher a') (ClusterApp.closers a')).
Proof.
  intros Hu Hc. unfold ClusterApp.initMonitor. simpl.
  eapply owns_bind with (R := λ _, True) (h := nothing).
  - destruct r; [by apply owns_wrap, owns_lift|apply owns_raise].
  - intros d _. rewrite Hu. eapply owns_bind; [apply owns_wrap, owns_new_publisher|]. intros p [Hn Hsub].
    apply owns_app with (p := p) (closers := ClusterApp.closers); simpl; [by rewrite Hc|]. split; [done|]. exists p. by rewrite Hc.
Qed.

Lemma owns_cluster read parse update parsed agentCfg :
  owns (ms_URL (app_Messaging agentCfg)) ∅ (ClusterApp.Setup (W := W) read parse update parsed agentCfg)
    (bundle_held (λ a, held pub_conn (ClusterApp.closers a))) (bundle_is (cluster_ok agentCfg)).
Proof.
  unfold ClusterApp.Setup. destruct (Enabled _ _); simpl; [|by apply owns_empty].
  eapply owns_bind; [apply owns_wrap, owns_lift; intros c Hc; exact Hc|]. intros c0 Hc0.
  eapply owns_bind; [apply owns_wrap, owns_lift; intros c Hc; exact Hc|]. intros c Hc.
  destruct (ClusterLoad_ok _ _ _ _ _ _ Hc0 Hc) as [Hs Hp]. pose proof Hs as [Hu _].
  eapply owns_bind with (h := λ a, held pub_conn (ClusterApp.closers a)) (R := cluster_ok agentCfg);
    [|by intros a Ha; apply (owns_bundle _ (mkBundle a _ _) (λ a, held pub_conn (ClusterApp.closers a)))].
  apply owns_wrap. simpl. case_bool_decide; [apply owns_raise|].
  eapply owns_bind; [by apply owns_lift with (R := λ _, True)|]. intros [r k] _.
  eapply owns_bind; [apply owns_wrap, owns_on_kube|]. intros [] _.
  eapply owns_weaken; [apply owns_on_error; [by apply owns_initMonitor|by apply (owns_give _ () nothing)]|].
  intros a [[Hcfg Hpub] _]. split; [unfold nothing; by rewrite (right_id_L ∅ (∪))|]. unfold cluster_ok. rewrite Hcfg. done.
Qed.
End AppRules.

(** ** The bundles *)

Section BundleRules.
Context `{Libs} {W X Q : Type} `{!KubeLib X Q, !KubeAPI W X Secret}.

(** The connections a bundle closes, and what set-up promises of it. *)
Definition bundle_conns (b : bundle) : list nat :=
  match b with
  | BCluster a => pub_conn <$> ClusterApp.closers a
  | BContainer a => pub_conn <$> ContainerApp.closers a
  | BNetwork a => pub_conn <$> NetworkApp.closers a
  | BStorage a => pub_conn <$> StorageApp.closers a
  | BVM a => VMApp.natsConn <$> VMApp.closers a
  end.

Definition bundle_ok (agentCfg : AppConfig) (b : bundle) : Prop :=
  match b with
  | BCluster a => cluster_ok agentCfg a
  | BContainer a => container_ok agentCfg a
  | BNetwork a => network_ok agentCfg a
  | BStorage a => storage_ok agentCfg a
  | BVM a => vm_ok a
  end.

Definition conns_of (l : list bundle) : list nat := l ≫= bundle_conns.

Lemma releases_bundle u b : NoDup (bundle_conns b) → releases (W := W) u (list_to_set (bundle_conns b)) (bundle_Close b).
Proof.
  destruct b; simpl; intros Hd; (apply releases_worker_Close; [|done]); intros p;
    [apply releases_close_publisher|apply releases_close_publisher|apply releases_drain_publisher|apply releases_close_publisher|].
  eapply owns_bind; [apply releases_Close|]. intros [] _. by apply owns_empty.
Qed.

Lemma releases_bundles u l : NoDup (conns_of l) → releases (W := W) u (list_to_set (conns_of l)) (close_bundles l).
Proof.
  induction l as [|b l IH]; intros Hd; [by apply owns_empty|].
  unfold conns_of in *. cbn in Hd |- *. apply NoDup_app in Hd as (Hb & Hbl & Hl). rewrite list_to_set_app_L.
  pose proof (releases_both (W := W) u (list_to_set (bundle_conns b)) (list_to_set (conns_of l)) (bundle_Close b) (close_bundles l)
    (λ r r', match r, r' with
             | inl e, inl e' => inl (e ++ String (Ascii.ascii_of_nat 10) e')
             | inl e, inr _ => inl e
             | inr _, _ => r'
             end)) as HB. apply HB; [by apply releases_bundle|by apply IH|]. clear HB.
  intros c Hc1%elem_of_list_to_set Hc2%elem_of_list_to_set. by apply (Hbl c).
Qed.

(** What set-up gives for a provider, as a list of at most one bundle. *)
Definition made_ok (agentCfg : AppConfig) (l : list bundle) : Prop := NoDup (conns_of l) ∧ Forall (bundle_ok agentCfg) l.

Lemma owns_made {A S C} u agentCfg (m : call W (option (Bundle A S C))) (f : A → bundle) (ok : A → Prop) :
  owns u ∅ m (bundle_held (λ a, list_to_set (bundle_conns (f a)))) (bundle_is ok) →
  (∀ a, ok a → NoDup (bundle_conns (f a)) ∧ bundle_ok agentCfg (f a)) →
  owns u ∅ (cbind m (λ b, give (bundle_of f b))) (λ b, list_to_set (conns_of (option_list b))) (λ b, made_ok agentCfg (option_list b)).
Proof.
  intros Hm Hok. eapply owns_bind; [exact Hm|]. intros [b|] Hb; simpl in *.
  - destruct (Hok _ Hb) as [Hd Ha]. set (h := λ b : option bundle, list_to_set (conns_of (option_list b)) : gset nat).
    assert (list_to_set (bundle_conns (f (b_App b))) = h (Some (f (b_App b)))) as ->
      by (unfold h, conns_of; cbn; by rewrite app_nil_r).
    apply owns_give. split; [unfold conns_of; cbn; by rewrite app_nil_r|by constructor].
  - apply owns_empty; [done|]. split; constructor.
Qed.

Lemma publishes_nodup subject s publisher closers : publishes subject s publisher closers → NoDup (pub_conn <$> closers).
Proof. intros (p & _ & -> & _). apply NoDup_singleton. Qed.

Lemma owns_provider env agentCfg p :
  owns (W := W) (ms_URL (app_Messaging agentCfg)) ∅ (setup_provider env agentCfg p)
    (λ b, list_to_set (conns_of (option_list b))) (λ b, made_ok agentCfg (option_list b)).
Proof.
  destruct p; simpl.
  - eapply owns_made; [apply owns_cluster|]. intros a Ha. split; [|done]. destruct Ha as (_ & _ & Hp). by eapply publishes_nodup.
  - eapply owns_made; [apply owns_container|]. intros a Ha. split; [|done]. destruct Ha as (_ & _ & _ & Hp). by eapply publishes_nodup.
  - eapply owns_made; [apply owns_network|]. intros a Ha. split; [|done]. destruct Ha as (_ & _ & Hp). by eapply publishes_nodup.
  - eapply owns_made; [apply owns_storage|]. intros a Ha. split; [|done]. destruct Ha as (_ & _ & _ & Hp). by eapply publishes_nodup.
  - eapply owns_made; [apply owns_vm|]. intros a Ha. split; [|done]. simpl. unfold vm_ok in Ha.
    destruct (VMApp.publisher a); destruct Ha as [-> _]; [apply NoDup_singleton|constructor].
Qed.

Lemma owns_bundles env agentCfg todo made : made_ok agentCfg made →
  owns (W := W) (ms_URL (app_Messaging agentCfg)) (list_to_set (conns_of made)) (setup_bundles env agentCfg todo made)
    (λ l, list_to_set (conns_of l)) (made_ok agentCfg).
Proof.
  revert made. induction todo as [|p todo IH]; intros made Hmade; simpl.
  { by apply (owns_give _ made (λ l, list_to_set (conns_of l))). }
  eapply owns_bind; [apply owns_on_error; [apply owns_wrap, owns_provider|by apply releases_bundles, Hmade]|].
  intros b [[Hd Hf] Hdisj]. rewrite <-list_to_set_app_L.
  assert (list_to_set (conns_of (option_list b) ++ conns_of made) = list_to_set (C := gset nat) (conns_of (made ++ option_list b))) as ->.
  { unfold conns_of. rewrite bind_app, !list_to_set_app_L. apply (comm_L (∪)). }
  apply IH. destruct Hmade as [Hd' Hf']. split; [|by apply Forall_app]. unfold conns_of. rewrite bind_app.
  apply NoDup_app. split_and!; [done| |done]. intros c Hc1 Hc2. apply (Hdisj c); by apply elem_of_list_to_set.
Qed.

(** C30: setting up the embedded providers never leaks a connection to the
    broker.  Whatever the environment says and however the calls on the broker,
    Kubernetes and the file system end, set-up does not panic; when it fails,
    the open connections are those open before.  When it succeeds, the new ones
    are exactly those the bundles close, no two bundles share one, each
    provider has a name, a valid configuration and the publisher for its
    subject, every connection made is to the agent's broker, and closing the
    bundles, whatever errors that meets, leaves the connections open before. *)
Theorem embedded_connections_released env agentCfg (s : sys W) :
  numbered s →
  let url := ms_URL (app_Messaging agentCfg) in
  let '(r, s') := SetupBundles env agentCfg s in
  grows url s s' ∧
  match r with
  | Panicked => False
  | Val (inl _) => s_live s' = s_live s
  | Val (inr l) =>
      s_live s' = list_to_set (conns_of l) ∪ s_live s ∧ list_to_set (conns_of l) ## s_live s ∧
      NoDup (conns_of l) ∧ Forall (bundle_ok agentCfg) l ∧
      let '(r', s'') := close_bundles l s' in
      r' ≠ Panicked ∧ s_live s'' = s_live s
  end.
Proof.
  intros Hn. cbv zeta. pose proof (owns_bundles env agentCfg providers []) as Ho.
  specialize (Ho ltac:(split; constructor) (s_live s) s Hn). cbn [conns_of mbind list_bind list_to_set] in Ho.
  specialize (Ho ltac:(by rewrite (left_id_L ∅ (∪))) ltac:(set_solver)). unfold SetupBundles.
  destruct (setup_bundles env agentCfg providers [] s) as [[[e|l]|] s']; destruct Ho as (Hn' & Hg & Hr); [done| |done].
  destruct Hr as (Hl & Hdj & Hd & Hf). split_and!; [done..|].
  pose proof (releases_bundles "" l Hd (s_live s) s' Hn' Hl Hdj) as Hc.
  destruct (close_bundles l s') as [[r'|] s'']; [|by destruct Hc as (_ & _ & [])]. destruct Hc as (_ & _ & Hc). split; [done|].
  destruct r' as [e|[]]; [done|]. destruct Hc as (-> & _). unfold nothing. set_solver.
Qed.
End BundleRules.

(** ** Runs *)

Module AppsRun.
Import FakeKube.

(** A broker that cannot be reached: only a connection that is retried is
    made (nats.go documents that Connect then returns no error). *)
#[local] Instance unreachable : Libs := {|
  Rest := string; Clientset := string; Dynamic := string; KubevirtRest := string; CtrlClient := string; JetStream := nat;
  BuildConfigFromFlags path := inr path;
  InClusterConfig := inl "not in a cluster";
  rest_UserAgent _ := "";
  DefaultKubernetesUserAgent := "agent";
  kubernetes_NewForConfig r := inr r;
  dynamic_NewForConfig r := inr r;
  RESTClientFor _ r := inr r;
  BuildScheme := None;
  client_New r := inr r;
  nats_Connect o _ _ := if RetryOnFailedConnect o then None else Some "nats: no servers available for connection";
  nats_Drain _ _ := Some "nats: connection reconnecting";
  nats_Publish _ _ _ _ := None;
  nats_IsConnected _ _ := false;
  jetstream_New c _ := inr c;
  jetstream_Publish _ _ _ _ := None
|}.

#[local] Instance secrets : KubeAPI () Status Secret := EmbeddedRun.down_api Secret.

Definition agent (sps : list string) : AppConfig :=
  mkApp (mkServer ":8080" (15 * Second) (30 * Second)) (mkProviderConfig sps "providers.json")
    (mkHealth (10 * Second) (5 * Second) 3 "") (mkAgent "agent" "lab" "low") (mkSP "/etc/kubeconfig")
    (mkDCM "http://dcm" Second Minute (30 * Second) (5 * Second) "" "" "" "") (mkHeartbeatConfig (30 * Second))
    (mkMessaging "nats://nats" "" Minute (15 * Second) 10 Second Minute)
    (mkRouting 3 Second (30 * Second) 100000 (30 * Second) (10 * Second) Second) (mkAuth true "" "").

Definition unset : SharedConfig := mkShared "" "" "".

Definition env : environment () Status := mkEnvironment
  (ClusterApp.mkParsed (inr unset) (inl "unused") (inl "unused") (inl "unused"))
  (inr (ContainerApp.mkConfig unset "default" "" 500 (10 * Minute)))
  (inr (NetworkApp.mkConfig unset "default" 500 (10 * Minute) 5))
  (inr (StorageApp.mkConfig unset "default" "" "ReadWriteOnce" 500 (10 * Minute) 5))
  (inr (VMApp.mkConfig unset "default" Minute 3 (-1) "dcm.vm" true (30 * Minute)))
  (λ _, None) (λ _, None) (λ _ w, (None, w)).

(** One connection, the agent's own, is open. *)
Definition booted : sys () := mkSys 1 {[ 0%nat ]} [] ().

Lemma booted_numbered : numbered booted.
Proof. intros c Hc. apply (elem_of_singleton c 0%nat) in Hc as ->. simpl. lia. Qed.

(** Storage and network start without the broker. *)
Example starts_without_broker :
  match SetupBundles env (agent ["network"; "storage"]) booted with
  | (Val (inr l), s) => conns_of l = [1; 2]%nat ∧ s_live s = {[ 0; 1; 2 ]}%nat
  | _ => False
  end.
Proof. vm_compute. done. Qed.

(** The VM provider connects without retries, so with it the whole set-up
    fails; the connections of the others are closed again. *)
Lemma embedded_connections_released_witness :
  numbered booted ∧
  ∃ s', SetupBundles env (agent ["network"; "storage"; "vm"]) booted =
    (Val (inl ("vm embedded setup: creating VM SP app: creating VM event publisher: failed to create NATS publisher: "
               ++ "failed to connect to NATS: nats: no servers available for connection")), s') ∧
    grows "nats://nats" booted s' ∧ s_live s' = {[ 0%nat ]}.
Proof.
  split; [exact booted_numbered|].
  pose proof (embedded_connections_released env (agent ["network"; "storage"; "vm"]) booted booted_numbered) as Ht. cbv zeta in Ht.
  assert (SetupBundles env (agent ["network"; "storage"; "vm"]) booted =
    (Val (inl ("vm embedded setup: creating VM SP app: creating VM event publisher: failed to create NATS publisher: "
               ++ "failed to connect to NATS: nats: no servers available for connection")),
     (SetupBundles env (agent ["network"; "storage"; "vm"]) booted).2)) as E by (vm_compute; reflexivity).
  exists (SetupBundles env (agent ["network"; "storage"; "vm"]) booted).2. split; [exact E|].
  destruct (SetupBundles env (agent ["network"; "storage"; "vm"]) booted) as [r s']. simpl in E. injection E as ->. exact Ht.
Defined.

(** Without a service type the container provider does not load. *)
Example container_needs_service_type :
  (SetupBundles env (agent ["container"]) booted).1 =
  Val (inl ("container embedded setup: loading container SP config: loading configuration: "
            ++ "invalid SP_K8S_EXTERNAL_SVC_TYPE " ++ Quote "" ++ ": must be LoadBalancer or NodePort")).
Proof. vm_compute. reflexivity. Qed.
End AppsRun.
