(* ===== verification/Watch.v ===== *)
(** * Watching Kubernetes and shutting a provider down

    Models the methods Start of the status monitors of the network, storage,
    container and cluster providers (monitoring/monitor.go), the VM monitor
    service (kubevirtvm/monitor/service.go) and the methods Start of the apps
    (app/app.go): which informers are made with which options, which callback
    each notification goes to, in what order informers, debouncer and
    publisher are started and stopped, and how each call ends.  The callbacks
    are those of [Monitors] and [Kubevirt], the apps those of [Apps], the
    worker that runs a monitor that of [Embedded]. *)

From S2P Require Import Prelude GoStrings Effects K8s Debounce StatusMon Monitors Kubevirt AcmMonitor AcmCluster Embedded Apps.
#[local] Open Scope string_scope.
#[local] Open Scope Z_scope.

(** ** Informers *)

Inductive factory := MainFactory | EventFactory.
Inductive informer := Services | PVCs | Events | Deployments | Pods | HostedClusters | NodePools | VMIs.

(** The debouncers of network and storage ([Debounce.Draining]) publish what is
    pending when they are stopped, those of container and cluster
    ([Debounce.Simple]) drop it. *)
Inductive debouncer_kind := DrainingDebouncer | DroppingDebouncer.

#[export] Instance factory_eq_dec : EqDecision factory.
Proof. solve_decision. Defined.

(** The options a factory is made with. *)
Record FactoryOptions := mkFactory { fo_Resync : Z; fo_Namespace : string; fo_LabelSelector : string; fo_FieldSelector : string }.

Inductive watch_event :=
  | MadeFactory (f : factory) (o : FactoryOptions)
  | AddedIndexers (i : informer)
  | MadeDebouncer (k : debouncer_kind) (interval : Z)
  | AddedHandler (i : informer)
  | StartedFactory (f : factory)
  | SawDone                        (* <-ctx.Done() *)
  | StoppedDebouncer (k : debouncer_kind)   (* debouncer.Stop() has returned *)
  | ShutFactory (f : factory).     (* factory.Shutdown() has returned *)

(** client-go's answers: errors of AddIndexers and AddEventHandler, the result
    of WaitForCacheSync in the order it is ranged over, and ctx.Err() after it. *)
Record WatchEnv := mkWatchEnv {
  we_indexers : informer → option string;
  we_handler : informer → option string;
  we_synced : factory → list (string * bool);
  we_ctx_err : factory → option string
}.

(** A run up to an error or a value. *)
Definition watch (A : Type) : Type := list watch_event * (string + A).

Definition wret {A} (a : A) : watch A := ([], inr a).
Definition wfail {A} (e : string) : watch A := ([], inl e).
Definition tell (l : list watch_event) : watch () := (l, inr ()).
Definition wbind {A B} (m : watch A) (f : A → watch B) : watch B :=
  match m with
  | (tr, inl e) => (tr, inl e)
  | (tr, inr a) => let '(tr', r) := f a in (tr ++ tr', r)%list
  end.
(** [defer]: [l] happens after [m], however it ends. *)
Definition deferring {A} (l : list watch_event) (m : watch A) : watch A := let '(tr, r) := m in (tr ++ l, r)%list.

Declare Scope watch_scope.
Delimit Scope watch_scope with watch.
Notation "m ;; k" := (wbind m (λ _, k)) (at level 100, k at level 200, right associativity) : watch_scope.
#[local] Open Scope watch_scope.

Section Start.
Context {X Q : Type} `{!KubeLib X Q} (env : WatchEnv).

Definition AddIndexers (i : informer) (context : string) : watch () :=
  match we_indexers env i with Some e => wfail (wrap_text context e) | None => tell [AddedIndexers i] end.
Definition AddEventHandler (i : informer) (context : string) : watch () :=
  match we_handler env i with Some e => wfail (wrap_text context e) | None => tell [AddedHandler i] end.

(** The first type whose cache did not sync. *)
Definition not_synced (f : factory) : option string := fst <$> List.find (λ x, negb x.2) (we_synced env f).

(** waitForCacheSync of the network and storage monitors. *)
Fixpoint waitForCacheSync (factories : list factory) : watch () :=
  match factories with
  | [] => wret ()
  | f :: rest =>
      match we_ctx_err env f with
      | Some e => wfail e
      | None =>
          match not_synced f with
          | Some typ => wfail ("cache sync failed for " ++ typ)
          | None => waitForCacheSync rest
          end
      end
  end.

(** The same in the container and cluster monitors: once the context is done the
    caches do not matter. *)
Definition sync_or_done (f : factory) : watch () :=
  match we_ctx_err env f with
  | Some _ => wret ()
  | None => match not_synced f with Some typ => wfail ("cache sync failed for " ++ typ) | None => wret () end
  end.

Definition milliseconds (n : Z) : Z := wrap64 (n * Millisecond).

Definition NetworkStart (cfg : NetworkApp.MonitorConfig) : watch () :=
  tell [MadeFactory MainFactory (mkFactory (NetworkApp.mc_ResyncPeriod cfg) (NetworkApp.mc_Namespace cfg) (Selector "network") "");
        MadeDebouncer DrainingDebouncer (milliseconds (NetworkApp.mc_DebounceMs cfg))];;
  AddEventHandler Services "adding Service event handler";;
  tell [StartedFactory MainFactory];;
  deferring [StoppedDebouncer DrainingDebouncer; ShutFactory MainFactory] (waitForCacheSync [MainFactory];; tell [SawDone]).

Definition StorageStart (cfg : StorageApp.MonitorConfig) : watch () :=
  tell [MadeFactory MainFactory (mkFactory (StorageApp.mc_ResyncPeriod cfg) (StorageApp.mc_Namespace cfg) (Selector "storage") "");
        MadeFactory EventFactory (mkFactory (StorageApp.mc_ResyncPeriod cfg) (StorageApp.mc_Namespace cfg) ""
          "involvedObject.kind=PersistentVolumeClaim");
        MadeDebouncer DrainingDebouncer (milliseconds (StorageApp.mc_DebounceMs cfg))];;
  AddEventHandler PVCs "adding PVC event handler";;
  AddEventHandler Events "adding Warning event handler";;
  tell [StartedFactory MainFactory; StartedFactory EventFactory];;
  deferring [StoppedDebouncer DrainingDebouncer; ShutFactory EventFactory; ShutFactory MainFactory]
    (waitForCacheSync [MainFactory; EventFactory];; tell [SawDone]).

Definition ContainerStart (cfg : ContainerApp.MonitorConfig) : watch () :=
  tell [MadeFactory MainFactory (mkFactory (ContainerApp.mc_ResyncPeriod cfg) (ContainerApp.mc_Namespace cfg) (Selector "container") "")];;
  AddIndexers Deployments "adding deployment indexer";;
  AddIndexers Pods "adding pod indexer";;
  tell [MadeDebouncer DroppingDebouncer (milliseconds (ContainerApp.mc_DebounceMs cfg))];;
  AddEventHandler Deployments "adding deployment event handler";;
  AddEventHandler Pods "adding pod event handler";;
  tell [StartedFactory MainFactory];;
  deferring [StoppedDebouncer DroppingDebouncer; ShutFactory MainFactory] (sync_or_done MainFactory;; tell [SawDone]).

(** The selector is written out: the managed-by and the service-type label. *)
Definition cluster_selector : string :=
  LabelManagedBy ++ "=" ++ ValueManagedByDCM ++ "," ++ LabelServiceType ++ "=" ++ ClusterServiceType.

Definition ClusterStart (cfg : ClusterApp.MonitorConfig) : watch () :=
  tell [MadeFactory MainFactory (mkFactory (ClusterApp.mc_ResyncInterval cfg) (ClusterApp.mc_Namespace cfg) cluster_selector "")];;
  AddIndexers HostedClusters "adding HC indexers";;
  AddIndexers NodePools "adding NP indexers";;
  tell [MadeDebouncer DroppingDebouncer (ClusterApp.mc_DebounceInterval cfg)];;
  AddEventHandler HostedClusters "adding HC event handler";;
  AddEventHandler NodePools "adding NP event handler";;
  tell [StartedFactory MainFactory];;
  deferring [StoppedDebouncer DroppingDebouncer; ShutFactory MainFactory] (sync_or_done MainFactory;; tell [SawDone]).

(** NewMonitorService with setupInformers: an error of AddEventHandler is only
    logged. *)
Definition NewMonitorService (cfg : VMApp.MonitorConfig) : list watch_event :=
  MadeFactory MainFactory (mkFactory (VMApp.mc_ResyncPeriod cfg) (VMApp.mc_Namespace cfg) (LabelManagedBy ++ "=" ++ ValueManagedByDCM) "") ::
  match we_handler env VMIs with Some _ => [] | None => [AddedHandler VMIs] end.

(** cache.WaitForCacheSync is false when the context is done first. *)
Definition VMRun : watch () :=
  tell [StartedFactory MainFactory];;
  (if bool_decide (is_Some (we_ctx_err env MainFactory)) || bool_decide (is_Some (not_synced MainFactory))
   then wfail "failed to sync informer caches" else wret ());;
  tell [SawDone].
End Start.

(** ** Callbacks *)

(** What an informer tells its handler. *)
Inductive notification (O : Type) := Added (o : O) | Updated (old new : O) | Removed (o : O).
Arguments Added {O} o.
Arguments Updated {O} old new.
Arguments Removed {O} o.

(** cache.ResourceEventHandlerFuncs: a function that is nil does nothing. *)
Record handler_funcs (O R : Type) := mkFuncs { AddFunc : option (O → R); UpdateFunc : option (O → O → R); DeleteFunc : option (O → R) }.
Arguments mkFuncs {O R}.
Arguments AddFunc {O R}.
Arguments UpdateFunc {O R}.
Arguments DeleteFunc {O R}.

Definition notify {O R} (h : handler_funcs O R) (n : notification O) : option R :=
  match n with
  | Added o => (λ f, f o) <$> AddFunc h
  | Updated old new => (λ f, f old new) <$> UpdateFunc h
  | Removed o => (λ f, f o) <$> DeleteFunc h
  end.

Section Funcs.
Context {Q : Type}.

Definition service_funcs : handler_funcs (obj Q) (option StatusEvent) :=
  mkFuncs (Some NetworkMon.handleServiceEvent) (Some (λ _ newObj, NetworkMon.handleServiceEvent newObj)) (Some NetworkMon.handleServiceDelete).

Definition pvc_funcs : handler_funcs (obj Q) (option StatusEvent) :=
  mkFuncs (Some StorageMon.handlePVCEvent) (Some (λ _ newObj, StorageMon.handlePVCEvent newObj)) (Some StorageMon.handlePVCDelete).

Definition warning_funcs (namespace : string) (pvcLister : string → string → option (PVC Q)) : handler_funcs (obj Q) (option StatusEvent) :=
  mkFuncs (Some (StorageMon.handleWarningEvent namespace pvcLister))
    (Some (λ _ newObj, StorageMon.handleWarningEvent namespace pvcLister newObj)) None.

(** [pods], [deploys]: what the indexers hold when the callback reads them. *)
Definition deployment_funcs (pods : list (obj Q)) : handler_funcs (obj Q) (exc (option StatusEvent)) :=
  mkFuncs (Some (ContainerMon.handleDeployEvent pods)) (Some (λ _ newObj, ContainerMon.handleDeployEvent pods newObj))
    (Some (ContainerMon.handleDeployDelete pods)).

Definition pod_funcs (pods deploys : list (obj Q)) : handler_funcs (obj Q) (exc (option StatusEvent)) :=
  mkFuncs (Some (ContainerMon.handlePodEvent deploys)) (Some (λ _ newObj, ContainerMon.handlePodEvent deploys newObj))
    (Some (ContainerMon.handlePodDelete pods deploys)).
End Funcs.

(** The VM monitor does not listen to removals. *)
Definition vmi_funcs : handler_funcs (option VMI) (option (string * string)) :=
  mkFuncs (Some handleVMEvent) (Some (λ _ newObj, handleVMEvent newObj)) None.

(** The context of a publication: the monitor's, or, once that is done, a new
    one with a deadline ([None]: the monitor's). *)
Definition shutdownPublishTimeout (configured : Z) : Z := if 0 <? configured then configured else 30 * Second.
Definition publish_context (ctx_done : bool) (configured : Z) : option Z :=
  if ctx_done then Some (shutdownPublishTimeout configured) else None.

(** ** App.Start and the life of an app *)

Section AppStart.
Context `{Libs} {X Q : Type} `{!KubeLib X Q} (env : WatchEnv).

(** The functions the apps hand to their worker. *)
Definition app_task (b : bundle) : watch () :=
  match b with
  | BCluster a => match ClusterApp.monitor a with Some (_, cfg, _) => ClusterStart env cfg | None => wret () end
  | BContainer a => match ContainerApp.monitor a with Some (_, cfg, _) => ContainerStart env cfg | None => wret () end
  | BNetwork a => match NetworkApp.monitor a with Some (_, cfg, _) => NetworkStart env cfg | None => wret () end
  | BStorage a => match StorageApp.monitor a with Some (_, cfg, _) => StorageStart env cfg | None => wret () end
  | BVM a => match VMApp.monitor a with Some _ => VMRun env | None => wret () end
  end.

(** The worker of an app: it closes the connections of its publishers. *)
Definition app_worker (b : bundle) : Worker.t := Worker.NewAppLifecycle (bundle_conns b).

(** What happens in the life of an app: the events of its worker, and between
    the start of the task and its end those of the task. *)
Inductive app_event := Life (e : Worker.event) | Task (e : watch_event).

Definition task_trace (b : bundle) (e : Worker.event) : list app_event :=
  match e with
  | Worker.TaskStarted => [Life e]
  | Worker.TaskEnded => (Task <$> (app_task b).1) ++ [Life e]
  | _ => [Life e]
  end.

(** [l]: the calls on the app and the steps of its task. *)
Definition app_life (b : bundle) (l : list Worker.action) : list app_event :=
  Worker.history (fold_left Worker.step l (app_worker b)) ≫= task_trace b.
End AppStart.

(** ** Order of start and stop *)

(** What comes before the informers run. *)
Definition preparing (e : watch_event) : bool :=
  match e with MadeFactory _ _ | AddedIndexers _ | MadeDebouncer _ _ | AddedHandler _ => true | _ => false end.

(** A monitor with the informers [infs] and a debouncer of kind [k]: either it fails before anything runs;
    or all handlers are registered, then the factories start, then it waits,
    and last that debouncer is stopped and after it the factories, the last
    started first.  It returns without an error iff the context ended it. *)
Definition orderly_watch (infs : list informer) (k : debouncer_kind) (m : watch ()) : Prop :=
  let '(tr, r) := m in
  (Forall (λ e, preparing e = true) tr ∧ ∃ e, r = inl e) ∨
  ∃ pre mid fs,
    tr = (pre ++ (StartedFactory <$> fs) ++ mid ++ StoppedDebouncer k :: (ShutFactory <$> reverse fs))%list ∧
    (∃ interval, MadeDebouncer k interval ∈ pre) ∧
    Forall (λ e, preparing e = true) pre ∧ (∀ i, i ∈ infs → AddedHandler i ∈ pre) ∧ fs ≠ [] ∧ NoDup fs ∧
    (∀ f, f ∈ fs ↔ ∃ o, MadeFactory f o ∈ pre) ∧
    ((mid = [SawDone] ∧ r = inr ()) ∨ (mid = [] ∧ ∃ e, r = inl e)).

Lemma wait_outcome env fs : waitForCacheSync env fs = wret () ∨ ∃ e, waitForCacheSync env fs = wfail e.
Proof.
  induction fs as [|f fs IH]; simpl; [by left|]. destruct (we_ctx_err env f); [by right; eexists|].
  destruct (not_synced env f); [by right; eexists|done].
Qed.

Lemma sync_outcome env f : sync_or_done env f = wret () ∨ ∃ e, sync_or_done env f = wfail e.
Proof. unfold sync_or_done. destruct (we_ctx_err env f); [by left|]. destruct (not_synced env f); [by right; eexists|by left]. Qed.

(** The part common to the four monitors: [pre] has been done, the factories
    [fs] are started. *)
Lemma orderly_run infs k pre fs (wait : watch ()) :
  (∃ interval, MadeDebouncer k interval ∈ pre) →
  Forall (λ e, preparing e = true) pre → (∀ i, i ∈ infs → AddedHandler i ∈ pre) → fs ≠ [] → NoDup fs →
  (∀ f, f ∈ fs ↔ ∃ o, MadeFactory f o ∈ pre) →
  (wait = wret () ∨ ∃ e, wait = wfail e) →
  orderly_watch infs k (wbind (pre, inr ()) (λ _, wbind (tell (StartedFactory <$> fs)) (λ _,
    deferring (StoppedDebouncer k :: (ShutFactory <$> reverse fs)) (wbind wait (λ _, tell [SawDone]))))).
Proof.
  intros Hk Hp Hi Hf Hd Hm Hw. unfold orderly_watch. destruct Hw as [->|[e ->]]; simpl; right.
  - exists pre, [SawDone], fs. split_and!; auto.
  - exists pre, [], fs. split_and!; eauto.
Qed.

(** A step that may fail, before anything runs. *)
Lemma orderly_step infs d pre (step : watch ()) (k : watch ()) ev :
  Forall (λ e, preparing e = true) pre → (step = tell [ev] ∨ ∃ e, step = wfail e) →
  orderly_watch infs d (wbind ((pre ++ [ev])%list, inr ()) (λ _, k)) →
  orderly_watch infs d (wbind (pre, inr ()) (λ _, wbind step (λ _, k))).
Proof.
  intros Hp [->|[e ->]] Hk.
  - unfold wbind, tell in *. destruct k as [tr r]. rewrite <-app_assoc in Hk. exact Hk.
  - left. simpl. rewrite app_nil_r. eauto.
Qed.

Lemma handler_step env i context : AddEventHandler env i context = tell [AddedHandler i] ∨ ∃ e, AddEventHandler env i context = wfail e.
Proof. unfold AddEventHandler. destruct (we_handler env i); [by right; eexists|by left]. Qed.
Lemma indexer_step env i context : AddIndexers env i context = tell [AddedIndexers i] ∨ ∃ e, AddIndexers env i context = wfail e.
Proof. unfold AddIndexers. destruct (we_indexers env i); [by right; eexists|by left]. Qed.

Ltac watch_run fs :=
  eapply (orderly_run _ _ _ fs); [eexists; repeat first [apply list_elem_of_here | apply list_elem_of_further]|by repeat constructor|set_solver|done|repeat constructor; set_solver|
    intros []; set_solver|first [apply wait_outcome|apply sync_outcome]].
Ltac watch_step :=
  eapply orderly_step;
    [by repeat constructor|first [apply handler_step|apply indexer_step|left; reflexivity]|cbn [app]].
Ltac watch_steps fs := repeat first [solve [watch_run fs] | watch_step].

Section StartOrder.
Context {X Q : Type} `{!KubeLib X Q} (env : WatchEnv).

Lemma network_orderly cfg : orderly_watch [Services] DrainingDebouncer (NetworkStart env cfg).
Proof. unfold NetworkStart, tell at 1. watch_steps [MainFactory]. Qed.

Lemma storage_orderly cfg : orderly_watch [PVCs; Events] DrainingDebouncer (StorageStart env cfg).
Proof. unfold StorageStart, tell at 1. watch_steps [MainFactory; EventFactory]. Qed.

Lemma container_orderly cfg : orderly_watch [Deployments; Pods] DroppingDebouncer (ContainerStart env cfg).
Proof. unfold ContainerStart, tell at 1. watch_steps [MainFactory]. Qed.

Lemma cluster_orderly cfg : orderly_watch [HostedClusters; NodePools] DroppingDebouncer (ClusterStart env cfg).
Proof. unfold ClusterStart, tell at 1. watch_steps [MainFactory]. Qed.
End StartOrder.

Section Shutdown.
Context `{Libs} {X Q : Type} `{!KubeLib X Q} (env : WatchEnv).

(** The informers and the debouncer of a provider whose monitor is on; the VM
    monitor has no debouncer and leaves its informers to the context. *)
Definition watched (b : bundle) : option (list informer * debouncer_kind) :=
  match b with
  | BCluster a => (λ _, ([HostedClusters; NodePools], DroppingDebouncer)) <$> ClusterApp.monitor a
  | BContainer a => (λ _, ([Deployments; Pods], DroppingDebouncer)) <$> ContainerApp.monitor a
  | BNetwork a => (λ _, ([Services], DrainingDebouncer)) <$> NetworkApp.monitor a
  | BStorage a => (λ _, ([PVCs; Events], DrainingDebouncer)) <$> StorageApp.monitor a
  | BVM _ => None
  end.

Lemma app_task_orderly b infs k : watched b = Some (infs, k) → orderly_watch infs k (app_task env b).
Proof.
  destruct b as [a|a|a|a|a]; simpl; [destruct (ClusterApp.monitor a) as [[[d cfg] p]|]|destruct (ContainerApp.monitor a) as [[[d cfg] p]|]|
    destruct (NetworkApp.monitor a) as [[[d cfg] p]|]|destruct (StorageApp.monitor a) as [[[d cfg] p]|]|]; try done; intros [= <- <-];
    [apply cluster_orderly|apply container_orderly|apply network_orderly|apply storage_orderly].
Qed.

(** The history of a worker that does not involve its task is kept. *)
Lemma trace_rest b (l : list Worker.event) :
  Forall (λ e, e ≠ Worker.TaskEnded) l → l ≫= task_trace env b = Life <$> l.
Proof. induction 1 as [|e l He _ IH]; [done|]. cbn. rewrite IH. by destruct e. Qed.

(** C31: an embedded provider is shut down in order.  If an app is not started
    once it is being closed, then in every run of calls on it its connection to
    the broker is not closed before [Close]; and once [Close] has returned, what
    happened is: the monitor's task with all its events, its end, then every
    connection of the app closed once, then the returns of [Close].  The task of
    the network, storage, container or cluster provider, if it got to run its
    informers, had waited until [Stop] of its debouncer returned and after it
    shut the informers down, all before the connection was closed; otherwise it
    failed before anything ran.  That a status still pending then is published
    is not claimed: container and cluster debouncers drop it when they are
    stopped, and the others may still be publishing when [Stop] returns. *)
Theorem provider_shutdown_order (b : bundle) (l : list Worker.action) :
  WorkerSpec.orderly (app_worker b) l →
  let w := fold_left Worker.step l (app_worker b) in
  (∀ infs k, watched b = Some (infs, k) → orderly_watch infs k (app_task env b)) ∧
  match Worker.close w with
  | Worker.Closed => ∃ ran k,
      app_life env b l =
        ((if ran : bool then Life Worker.TaskStarted :: (Task <$> (app_task env b).1) ++ [Life Worker.TaskEnded] else []) ++
         ((Life ∘ Worker.ResourceClosed) <$> bundle_conns b) ++
         Life (Worker.CloseReturned true) :: replicate k (Life (Worker.CloseReturned false)))%list
  | _ => ∀ c, Life (Worker.ResourceClosed c) ∉ app_life env b l
  end.
Proof.
  intros Ho. cbv zeta. split; [apply app_task_orderly|]. pose proof (WorkerSpec.worker_close_order (bundle_conns b) l Ho) as Hw.
  unfold app_life. change (fold_left Worker.step l (app_worker b)) with (Worker.runs (bundle_conns b) l). cbv zeta in Hw.
  assert (∀ t c, Life (Worker.ResourceClosed c) ∉ WorkerSpec.task_events t ≫= task_trace env b) as Hno.
  { intros [[]|] c; cbn; rewrite ?app_nil_r; [set_solver| |set_solver].
    intros [?|[[e [? _]]%list_elem_of_fmap|?]%elem_of_app]%elem_of_cons; set_solver. }
  destruct (Worker.close _); [by rewrite Hw|by rewrite Hw|].
  destruct Hw as (t & k & Ht & _ & ->). exists (match t with Some _ => true | None => false end), k.
  rewrite bind_app, (trace_rest b (_ ++ _)%list).
  - rewrite fmap_app, fmap_cons, fmap_replicate, <-list_fmap_compose. f_equal.
    destruct Ht as [->| ->]; [done|]. cbn. by rewrite app_nil_r.
  - apply Forall_app; split; [by apply Forall_fmap, Forall_true|]. constructor; [done|]. by apply Forall_replicate.
Qed.
End Shutdown.

(** ** Runs *)

Module WatchRun.
Import FakeKube.
#[local] Existing Instance AppsRun.unreachable.

(** Everything works; the context ends after the caches have synced. *)
Definition works : WatchEnv := mkWatchEnv (λ _, None) (λ _, None) (λ _, [("*v1.PersistentVolumeClaim", true)]) (λ _, None).

Definition shared : SharedConfig := mkShared "storage" "/etc/kubeconfig" "nats://nats".
Definition storage_cfg : StorageApp.Config := StorageApp.mkConfig shared "default" "" "ReadWriteOnce" 500 (10 * Minute) 5.
Definition storage : bundle :=
  match (StorageApp.New (W := ()) (Some storage_cfg) false (mkSys 1 {[ 0%nat ]} [] ())).1 with
  | Val (inr a) => BStorage a
  | _ => BStorage (StorageApp.mkApp storage_cfg None None None [])
  end.

Definition calls : list Worker.action := [Worker.Start true; Worker.Close; Worker.EndTask; Worker.FinishClose].

Definition storage_trace : list watch_event :=
  [MadeFactory MainFactory (mkFactory (10 * Minute) "default" (Selector (X := Status) (Q := Z) "storage") "");
   MadeFactory EventFactory (mkFactory (10 * Minute) "default" "" "involvedObject.kind=PersistentVolumeClaim");
   MadeDebouncer DrainingDebouncer (500 * Millisecond); AddedHandler PVCs; AddedHandler Events; StartedFactory MainFactory; StartedFactory EventFactory;
   SawDone; StoppedDebouncer DrainingDebouncer; ShutFactory EventFactory; ShutFactory MainFactory].

Lemma storage_life : app_life (X := Status) (Q := Z) works storage calls =
  (Life Worker.TaskStarted :: (Task <$> storage_trace) ++ [Life Worker.TaskEnded; Life (Worker.ResourceClosed 1); Life (Worker.CloseReturned true)])%list.
Proof. vm_compute. reflexivity. Qed.

Lemma provider_shutdown_order_witness :
  WorkerSpec.orderly (app_worker storage) calls ∧
  orderly_watch [PVCs; Events] DrainingDebouncer (app_task (X := Status) (Q := Z) works storage) ∧
  ∃ ran k,
    app_life (X := Status) (Q := Z) works storage calls =
      ((if ran : bool then Life Worker.TaskStarted :: (Task <$> (app_task (X := Status) (Q := Z) works storage).1) ++ [Life Worker.TaskEnded] else []) ++
       [Life (Worker.ResourceClosed 1)] ++ Life (Worker.CloseReturned true) :: replicate k (Life (Worker.CloseReturned false)))%list.
Proof.
  assert (WorkerSpec.orderly (app_worker storage) calls) as Ho by (vm_compute; done).
  split; [exact Ho|]. pose proof (provider_shutdown_order (X := Status) (Q := Z) works storage calls Ho) as [Hw Hl].
  split; [apply Hw; reflexivity|exact Hl].
Defined.
End WatchRun.
