(* ===== verification/ApiClient.v ===== *)
(** * The generated API client

    Models src/pkg/client/client.gen.go: options and construction of the
    client, the five request builders on the URLs of [Url], request editors,
    the calls and their variants that read the response (the reading itself is
    in [Api]).

    Given from outside: the oapi-codegen runtime's styling of a parameter, the
    HTTP client ([Do]) and the texts of errors.  The theorems compose the
    client with the agent's server: what the client asks for is what the server
    is asked. *)

From Stdlib Require Import Ascii.
From S2P Require Import Prelude GoStrings Url FileStore Provider Health Service Json Encoding Codec ApiTypes Http Api.
#[local] Open Scope string_scope.
#[local] Open Scope Z_scope.

(** ** net/http: requests of a client *)

Record http_request := mkHttpRequest {
  hr_Method : string;
  hr_URL : url;
  hr_Header : headers;
  hr_Body : option json
}.

Definition Header_Add (k v : string) (h : headers) : headers :=
  <[CanonicalHeaderKey k := (default [] (h !! CanonicalHeaderKey k) ++ [v])%list]> h.

(** [runtime.StyleParamWithOptions]: style, explode, name, value, location; the
    value is a string or an integer. *)
Inductive style_value := StyleString (s : string) | StyleInt (n : Z).
Inductive param_location := ParamLocationPath | ParamLocationQuery.

Section Client.
Context (style : string → bool → string → style_value → param_location → string + string).
Context (parse_ip_literal : text → option text) (url_error : string → string) (marshal_error : string).
Context `{!TimeText Z} (number : string → option string).

Definition url_parse (s : string) : string + url :=
  match Parse parse_ip_literal (chars s) with Some u => inr u | None => inl (url_error s) end.

(** [serverURL.Parse(operationPath)] *)
Definition url_parse_ref (u : url) (ref : string) : string + url :=
  match ParseRef parse_ip_literal u (chars ref) with Some v => inr v | None => inl (url_error ref) end.

(** [http.NewRequest] with a method it knows. *)
Definition NewRequest (method : string) (target : string) (body : option json) : string + http_request :=
  match url_parse target with
  | inl e => inl e
  | inr u => inr (mkHttpRequest method u ∅ body)
  end.

(** [if operationPath[0] == '/' { operationPath = "." + operationPath }] *)
Definition relative (operationPath : string) : string := if HasPrefix operationPath "/" then "." ++ operationPath else operationPath.

Definition NewGetHealthRequest (server : string) : string + http_request :=
  match url_parse server with
  | inl e => inl e
  | inr serverURL =>
      match url_parse_ref serverURL (relative "/health") with
      | inl e => inl e
      | inr queryURL => NewRequest "GET" (of_chars (URL_String queryURL)) None
      end
  end.

(** A parameter that is set is styled; the fragments between ampersands are
    collected. *)
Definition query_fragments (name : string) (value : option style_value) : string + list text :=
  match value with
  | None => inr []
  | Some v =>
      match style "form" true name v ParamLocationQuery with
      | inl e => inl e
      | inr queryFrag => inr (split_at "&" (chars queryFrag))
      end
  end.

(** The query of a URL with parameters: the fragments, then what the URL had. *)
Definition with_query (fragments : list text) (u : url) : url :=
  let encoded := Encode (Query u) in
  let all := if bool_decide (encoded = []) then fragments else (fragments ++ [encoded])%list in
  mkUrl (u_Scheme u) (u_Opaque u) (u_User u) (u_Host u) (u_Path u) (u_RawPath u) (u_OmitHost u) (u_ForceQuery u)
    (join_with "&" all) (u_Fragment u) (u_RawFragment u).

Definition NewListProvidersRequest (server : string) (params : option ListProvidersParams) : string + http_request :=
  match url_parse server with
  | inl e => inl e
  | inr serverURL =>
      match url_parse_ref serverURL (relative "/providers") with
      | inl e => inl e
      | inr queryURL =>
          let queried :=
            match params with
            | None => inr queryURL
            | Some p =>
                match query_fragments "max_page_size" (StyleInt <$> lp_MaxPageSize p) with
                | inl e => inl e
                | inr sizeFragments =>
                    match query_fragments "page_token" (StyleString <$> lp_PageToken p) with
                    | inl e => inl e
                    | inr tokenFragments => inr (with_query (sizeFragments ++ tokenFragments) queryURL)
                    end
                end
            end in
          match queried with
          | inl e => inl e
          | inr queryURL => NewRequest "GET" (of_chars (URL_String queryURL)) None
          end
      end
  end.

Definition NewCreateProviderRequestWithBody (server : string) (params : option CreateProviderParams) (contentType : string)
    (body : option json) : string + http_request :=
  match url_parse server with
  | inl e => inl e
  | inr serverURL =>
      match url_parse_ref serverURL (relative "/providers") with
      | inl e => inl e
      | inr queryURL =>
          let queried :=
            match params with
            | None => inr queryURL
            | Some p =>
                match query_fragments "id" (StyleString <$> cp_Id p) with
                | inl e => inl e
                | inr fragments => inr (with_query fragments queryURL)
                end
            end in
          match queried with
          | inl e => inl e
          | inr queryURL =>
              match NewRequest "POST" (of_chars (URL_String queryURL)) body with
              | inl e => inl e
              | inr req => inr (mkHttpRequest (hr_Method req) (hr_URL req) (Header_Add "Content-Type" contentType (hr_Header req)) (hr_Body req))
              end
          end
      end
  end.

Definition NewCreateProviderRequest (server : string) (params : option CreateProviderParams) (body : AgentApi.Provider (T := Z))
  : string + http_request :=
  match encode (AgentApi.cProvider number) body with
  | None => inl marshal_error
  | Some buf => NewCreateProviderRequestWithBody server params "application/json" (Some buf)
  end.

Definition NewGetProviderRequest (server providerId : string) : string + http_request :=
  match style "simple" false "provider_id" (StyleString providerId) ParamLocationPath with
  | inl e => inl e
  | inr pathParam0 =>
      match url_parse server with
      | inl e => inl e
      | inr serverURL =>
          match url_parse_ref serverURL (relative ("/providers/" ++ pathParam0)) with
          | inl e => inl e
          | inr queryURL => NewRequest "GET" (of_chars (URL_String queryURL)) None
          end
      end
  end.

(** ** The client *)

(** [RequestEditorFn]: an error, or the request as the callback leaves it. *)
Definition RequestEditorFn : Type := http_request → string + http_request.

(** [HttpRequestDoer], on the world [S] of the server. *)
Definition HttpRequestDoer (S : Type) : Type := http_request → S → (string + response) * S.

Record Client (S : Type) := mkClient {
  Server : string;
  Doer : option (HttpRequestDoer S);
  RequestEditors : list RequestEditorFn
}.
Arguments mkClient {S}.
Arguments Server {S}.
Arguments Doer {S}.
Arguments RequestEditors {S}.

Definition ClientOption (S : Type) : Type := Client S → string + Client S.

Section Calls.
Context {S : Type} (http_Client : HttpRequestDoer S).

Fixpoint apply_options (opts : list (ClientOption S)) (c : Client S) : string + Client S :=
  match opts with
  | [] => inr c
  | o :: rest => match o c with inl e => inl e | inr c' => apply_options rest c' end
  end.

Definition NewClient (server : string) (opts : list (ClientOption S)) : string + Client S :=
  match apply_options opts (mkClient server None []) with
  | inl e => inl e
  | inr client =>
      let server := if negb (HasSuffix (Server client) "/") then Server client ++ "/" else Server client in
      let doer := match Doer client with None => http_Client | Some d => d end in
      inr (mkClient server (Some doer) (RequestEditors client))
  end.

Definition WithHTTPClient (doer : HttpRequestDoer S) : ClientOption S := λ c, inr (mkClient (Server c) (Some doer) (RequestEditors c)).

Definition WithRequestEditorFn (fn : RequestEditorFn) : ClientOption S := λ c,
  inr (mkClient (Server c) (Doer c) (RequestEditors c ++ [fn])).

Definition WithBaseURL (baseURL : string) : ClientOption S := λ c,
  match url_parse baseURL with
  | inl e => inl e
  | inr newBaseURL => inr (mkClient (of_chars (URL_String newBaseURL)) (Doer c) (RequestEditors c))
  end.

Fixpoint edit (editors : list RequestEditorFn) (req : http_request) : string + http_request :=
  match editors with
  | [] => inr req
  | r :: rest => match r req with inl e => inl e | inr req' => edit rest req' end
  end.

Definition applyEditors (c : Client S) (additionalEditors : list RequestEditorFn) (req : http_request) : string + http_request :=
  match edit (RequestEditors c) req with
  | inl e => inl e
  | inr req' => edit additionalEditors req'
  end.

(** The calls: build, edit, do.  [c] comes from [NewClient], so it has a doer. *)
Definition send (c : Client S) (built : string + http_request) (reqEditors : list RequestEditorFn) (s : S) : (string + response) * S :=
  match built with
  | inl e => (inl e, s)
  | inr req =>
      match applyEditors c reqEditors req with
      | inl e => (inl e, s)
      | inr req => default http_Client (Doer c) req s
      end
  end.

Definition client_GetHealth (c : Client S) (reqEditors : list RequestEditorFn) : S → (string + response) * S :=
  send c (NewGetHealthRequest (Server c)) reqEditors.

Definition client_ListProviders (c : Client S) (params : option ListProvidersParams) (reqEditors : list RequestEditorFn)
  : S → (string + response) * S :=
  send c (NewListProvidersRequest (Server c) params) reqEditors.

Definition client_CreateProviderWithBody (c : Client S) (params : option CreateProviderParams) (contentType : string)
    (body : option json) (reqEditors : list RequestEditorFn) : S → (string + response) * S :=
  send c (NewCreateProviderRequestWithBody (Server c) params contentType body) reqEditors.

Definition client_CreateProvider (c : Client S) (params : option CreateProviderParams) (body : AgentApi.Provider (T := Z))
    (reqEditors : list RequestEditorFn) : S → (string + response) * S :=
  send c (NewCreateProviderRequest (Server c) params body) reqEditors.

Definition client_GetProvider (c : Client S) (providerId : string) (reqEditors : list RequestEditorFn) : S → (string + response) * S :=
  send c (NewGetProviderRequest (Server c) providerId) reqEditors.

(** The response read; [unmarshal_error]: of a body that does not decode. *)
Definition read_response {R} (unmarshal_error : string) (Parse : response → option R) (r : (string + response) * S) : (string + R) * S :=
  match r with
  | (inl e, s) => (inl e, s)
  | (inr rsp, s) => (match Parse rsp with Some v => inr v | None => inl unmarshal_error end, s)
  end.

Context (unmarshal_error : string).

Definition NewClientWithResponses (server : string) (opts : list (ClientOption S)) : string + Client S := NewClient server opts.

Definition GetHealthWithResponse (c : Client S) (reqEditors : list RequestEditorFn) (s : S) : (string + GetHealthResponse) * S :=
  read_response unmarshal_error ParseGetHealthResponse (client_GetHealth c reqEditors s).

Definition ListProvidersWithResponse (c : Client S) (params : option ListProvidersParams) (reqEditors : list RequestEditorFn) (s : S)
  : (string + ListProvidersResponse) * S :=
  read_response unmarshal_error (ParseListProvidersResponse number) (client_ListProviders c params reqEditors s).

Definition CreateProviderWithBodyWithResponse (c : Client S) (params : option CreateProviderParams) (contentType : string)
    (body : option json) (reqEditors : list RequestEditorFn) (s : S) : (string + CreateProviderResponse) * S :=
  read_response unmarshal_error (ParseCreateProviderResponse number) (client_CreateProviderWithBody c params contentType body reqEditors s).

Definition CreateProviderWithResponse (c : Client S) (params : option CreateProviderParams) (body : AgentApi.Provider (T := Z))
    (reqEditors : list RequestEditorFn) (s : S) : (string + CreateProviderResponse) * S :=
  read_response unmarshal_error (ParseCreateProviderResponse number) (client_CreateProvider c params body reqEditors s).

Definition GetProviderWithResponse (c : Client S) (providerId : string) (reqEditors : list RequestEditorFn) (s : S)
  : (string + GetProviderResponse) * S :=
  read_response unmarshal_error (ParseGetProviderResponse number) (client_GetProvider c providerId reqEditors s).
End Calls.
End Client.
Arguments mkClient {S}.
Arguments Server {S}.
Arguments Doer {S}.
Arguments RequestEditors {S}.

(** ** What the server receives *)

(** The target of the request goes over the connection; the server parses it. *)
Definition received (parse_ip_literal : text → option text) (hr : http_request) : option request :=
  let uri := RequestURI (hr_URL hr) in
  u ← ParseRequestURI parse_ip_literal uri;
  Some (mkRequest (hr_Method hr) (of_chars (u_Path u)) (of_chars (u_RawPath u)) (of_chars uri) (hr_Header hr)
          ((λ kv, (of_chars kv.1, of_chars kv.2)) <$> Query u) (hr_Body hr) Background).

(** ** The laws of the libraries *)

(** The runtime package: a path parameter of the simple style is escaped as a
    path segment; a query parameter of the form style is [name=value] with the
    value escaped as a query component. *)
Class StyleLaws (style : string → bool → string → style_value → param_location → string + string) : Prop := {
  style_simple name v : style "simple" false name (StyleString v) ParamLocationPath = inr (of_chars (PathEscape (chars v)));
  style_form name v : style "form" true name (StyleString v) ParamLocationQuery =
    inr (of_chars (param_text (chars name, chars v)));
  style_form_int name n : style "form" true name (StyleInt n) ParamLocationQuery = inr (of_chars (param_text (chars name, chars (pretty n))))
}.

(** The binding of the server: the inverse on values that were styled. *)
Class BindLaws (bind_string : string → list (string * string) → bind_error + option string) (bind_path : string → bool → string + string) : Prop := {
  bind_one name v : bind_string name [(name, v)] = inr (Some v);
  bind_none name : bind_string name [] = inr None;
  bind_path_plain v : bind_path v true = inr v;
  bind_path_escaped l v : unescape encodePath l = Some v → bind_path (of_chars l) false = inr (of_chars v)
}.

(** chi: a request that exactly one route of its method matches goes to it. *)
Class ChiComplete (chi : list (string * string) → request → chi_match) : Prop :=
  chi_only rts r i pat ps : rts !! i = Some (r_Method r, pat) → path_match pat (routePath r) = Some ps →
    (∀ j pat', j ≠ i → rts !! j = Some (r_Method r, pat') → path_match pat' (routePath r) = None) →
    chi rts r = ChiHandler i ps.

(** ** Addresses *)

Record address := mkAddress { ad_scheme : text; ad_host : text; ad_segs : list text }.

Record address_ok (a : address) : Prop := {
  ad_server : server_ok (ad_scheme a) (ad_host a);
  ad_base : Forall seg_ok (ad_segs a)
}.

Definition address_text (a : address) : string := of_chars (server_text (ad_scheme a) (ad_host a) (ad_segs a)).

(** A path below an address, and the URL of a request to it. *)
Definition target_path (a : address) (tail : text) : text := base_of (ad_segs a) ++ "/"%char :: tail.
Definition request_url (a : address) (tail : text) (kvs : list (text * text)) : option url :=
  set_path (target_path a tail)
    (mkUrl (ad_scheme a) [] None (ad_host a) [] [] false false (join_with "&" (param_text <$> kvs)) [] []).

(** A path as it is sent: what it decodes to, no segment that is dropped. *)
Record tail_ok (tail dec : text) : Prop := {
  tail_chars : forallb path_char tail = true;
  tail_dots : Forall no_dots (split_at "/" tail);
  tail_dec : unescape encodePath tail = Some dec
}.

(** What the server sees of a path: the escaped form when it is not the default
    one. *)
Definition raw_path (a : address) (tail dec : text) : text :=
  if bool_decide (target_path a tail = escape encodePath (target_path a dec)) then [] else target_path a tail.

Section Sent.
Context (parse_ip_literal : text → option text) (url_error : string → string).
Implicit Types (a : address) (tail dec : text) (kvs : list (text * text)).

Lemma target_dec a tail dec : address_ok a → tail_ok tail dec → unescape encodePath (target_path a tail) = Some (target_path a dec).
Proof.
  intros [_ Hb] [_ _ Hd]. unfold target_path. rewrite unescape_plain by by apply base_plain.
  change ("/"%char :: tail) with (["/"%char] ++ tail)%list. by rewrite unescape_plain, Hd.
Qed.

Lemma target_chars a tail dec : address_ok a → tail_ok tail dec → forallb path_char (target_path a tail) = true.
Proof.
  intros [_ Hb] [Ht _ _]. unfold target_path. rewrite forallb_app. cbn [forallb]. rewrite Ht.
  by rewrite path_chars_plain by by apply base_plain.
Qed.

Lemma target_starts a tail : starts ["/"%char] (target_path a tail) = true.
Proof. unfold target_path. destruct (ad_segs a); apply starts_cons. Qed.

Lemma target_not_star a dec : target_path a dec ≠ ["*"%char].
Proof. unfold target_path. by destruct (ad_segs a); intros [=]. Qed.

(** The URL is written and read back by the client's library, and the server
    reads the path and the parameters. *)
Lemma sent_received a tail dec kvs method hdr body u :
  address_ok a → tail_ok tail dec → Forall (λ kv, key_ok kv.1) kvs → request_url a tail kvs = Some u →
  Parse parse_ip_literal (URL_String u) = Some u ∧
  received parse_ip_literal (mkHttpRequest method u hdr body) =
    Some (mkRequest method (of_chars (target_path a dec)) (of_chars (raw_path a tail dec)) (of_chars (RequestURI u)) hdr
            ((λ kv, (of_chars kv.1, of_chars kv.2)) <$> kvs) body Background).
Proof.
  intros Ha Ht Hk Hu. pose proof (target_dec a tail dec Ha Ht) as Hd. pose proof (target_chars a tail dec Ha Ht) as Hc.
  assert (target_ok (target_path a tail) (join_with "&" (param_text <$> kvs))) as Hok
    by (split_and!; [apply target_starts|done|by apply params_chars]).
  destruct Ha as [Hs _]. pose proof Hs as (_ & Hsn & [Hh _ Hhn]).
  destruct (URL_String_server (ad_scheme a) (ad_host a) (join_with "&" (param_text <$> kvs)) u (target_path a tail) (target_path a dec)
    Hsn Hh Hhn (target_starts a tail) Hc Hd (target_not_star a dec) Hu) as [HS HR].
  split; [by rewrite HS, Parse_server|]. unfold received. cbn [hr_URL hr_Method hr_Header hr_Body]. rewrite HR, ParseRequestURI_target by done.
  rewrite (set_path_spec _ _ _ Hd). cbn [mbind option_bind u_Path u_RawPath u_RawQuery u_Scheme u_Opaque u_User u_Host u_OmitHost u_ForceQuery u_Fragment u_RawFragment].
  rewrite (Query_params _ kvs) by done. done.
Qed.

Lemma server_parsed a : address_ok a →
  url_parse parse_ip_literal url_error (address_text a) = inr (server_url (ad_scheme a) (ad_host a) (ad_segs a)).
Proof. intros [Hs Hb]. unfold url_parse, address_text. by rewrite chars_of_chars, Parse_server_text. Qed.

(** A reference below the address, with the parameters put in. *)
Lemma ref_parsed a ref tail dec : address_ok a → tail_ok tail dec → chars ref = "."%char :: "/"%char :: tail →
  ∃ u, url_parse_ref parse_ip_literal url_error (server_url (ad_scheme a) (ad_host a) (ad_segs a)) ref = inr u ∧ request_url a tail [] = Some u.
Proof.
  intros [Hs Hb] [Hc Hd Hu] Hr. unfold url_parse_ref. rewrite Hr, (ParseRef_below _ _ _ _ _ dec) by done. unfold request_url, target_path. cbn [fmap list_fmap join_with].
  destruct (set_path _ _) as [u|] eqn:E; [by eexists|]. exfalso. unfold set_path in E.
  pose proof (target_dec a tail dec (Build_address_ok a Hs Hb) (Build_tail_ok tail dec Hc Hd Hu)) as HD. unfold target_path in HD. by rewrite HD in E.
Qed.

Lemma with_query_url a tail kvs u : Forall (λ kv, key_ok kv.1) kvs → request_url a tail [] = Some u →
  request_url a tail kvs = Some (with_query (param_text <$> kvs) u).
Proof.
  unfold request_url, set_path. cbn [fmap list_fmap join_with]. destruct (unescape encodePath (target_path a tail)) as [dec|]; [|done].
  cbn [mbind option_bind]. intros Hk [= <-]. unfold with_query.
  assert (∀ s o us h p w oh fq f rf, Query (mkUrl s o us h p w oh fq [] f rf) = []) as -> by done. done.
Qed.

Lemma request_made a tail dec kvs method body u :
  address_ok a → tail_ok tail dec → Forall (λ kv, key_ok kv.1) kvs → request_url a tail kvs = Some u →
  NewRequest parse_ip_literal url_error method (of_chars (URL_String u)) body = inr (mkHttpRequest method u ∅ body).
Proof.
  intros Ha Ht Hk Hu. unfold NewRequest, url_parse. rewrite chars_of_chars.
  by rewrite (proj1 (sent_received a tail dec kvs method ∅ body u Ha Ht Hk Hu)).
Qed.
End Sent.

(** ** The requests that the builders make *)

Definition get_tail (id : string) : text := chars "providers/" ++ PathEscape (chars id).

(** An identifier that a path can carry: the two dot segments are resolved away
    by the client's own library. *)
Definition id_ok (id : string) : Prop := id ≠ "" ∧ id ≠ "." ∧ id ≠ "..".

Lemma segment_chars l : forallb path_char (PathEscape l) = true.
Proof. apply escape_chars. by vm_compute. Qed.
Lemma segment_slash l : has "/" (PathEscape l) = false.
Proof. apply (has_outside "/" (λ c, negb (is_char "/" c))); [done|]. apply escape_chars. by vm_compute. Qed.

Lemma segment_inj l l' : PathEscape l = PathEscape l' → l = l'.
Proof.
  intros E. pose proof (unescape_segment l []) as H1. pose proof (unescape_segment l' []) as H2. rewrite E in H1. rewrite H2 in H1.
  cbn in H1. rewrite !app_nil_r in H1. by injection H1.
Qed.

Lemma get_tail_ok id : id_ok id → tail_ok (get_tail id) (chars "providers/" ++ chars id).
Proof.
  intros (Hn & Hd & Hdd). unfold get_tail. split.
  - rewrite forallb_app, segment_chars. done.
  - change (chars "providers/") with (chars "providers" ++ ["/"%char])%list. rewrite <-app_assoc. cbn [app].
    rewrite split_app by done. rewrite split_none by apply segment_slash. repeat constructor; try done.
    + change dot with (PathEscape (chars ".")). intros E%segment_inj%chars_inj. done.
    + change dotdot with (PathEscape (chars "..")). intros E%segment_inj%chars_inj. done.
  - rewrite unescape_plain by done. pose proof (unescape_segment (chars id) []) as H. rewrite app_nil_r in H. rewrite H. cbn. by rewrite app_nil_r.
Qed.

Lemma list_tail_ok : tail_ok (chars "providers") (chars "providers").
Proof. split; [done| |done]. by repeat constructor. Qed.

Section Builders.
Context (style : string → bool → string → style_value → param_location → string + string) `{!StyleLaws style}.
Context (ip : text → option text) (url_error : string → string) (marshal_error : string).
Context `{!TimeText Z} (number : string → option string).

Lemma get_request a id : address_ok a → id_ok id →
  ∃ u, NewGetProviderRequest style ip url_error (address_text a) id = inr (mkHttpRequest "GET" u ∅ None) ∧
    request_url a (get_tail id) [] = Some u.
Proof.
  intros Ha Hid. unfold NewGetProviderRequest. rewrite style_simple, server_parsed by done.
  destruct (ref_parsed ip url_error a (relative ("/providers/" ++ of_chars (PathEscape (chars id)))) (get_tail id) _ Ha (get_tail_ok id Hid)) as (u & -> & Hu).
  { change (relative ("/providers/" ++ of_chars (PathEscape (chars id)))) with ("./providers/" +:+ of_chars (PathEscape (chars id))).
    by rewrite chars_app, chars_of_chars. }
  exists u. split; [|done]. by apply (request_made ip url_error a (get_tail id) (chars "providers/" ++ chars id) []); [|apply get_tail_ok| |].
Qed.

(** The parameters of a registration. *)
Definition id_param (params : option CreateProviderParams) : list (text * text) :=
  match params ≫= cp_Id with Some v => [(chars "id", chars v)] | None => [] end.

Lemma id_param_ok params : Forall (λ kv, key_ok kv.1) (id_param params).
Proof. unfold id_param. destruct (params ≫= cp_Id); by repeat constructor. Qed.

Lemma create_request a params contentType body : address_ok a →
  ∃ u, NewCreateProviderRequestWithBody style ip url_error (address_text a) params contentType body =
      inr (mkHttpRequest "POST" u (Header_Add "Content-Type" contentType ∅) body) ∧
    request_url a (chars "providers") (id_param params) = Some u.
Proof.
  intros Ha. unfold NewCreateProviderRequestWithBody. rewrite server_parsed by done.
  destruct (ref_parsed ip url_error a (relative "/providers") (chars "providers") _ Ha list_tail_ok eq_refl) as (u & -> & Hu).
  assert (request_url a (chars "providers") (id_param params) = Some (with_query (param_text <$> id_param params) u)) as Hq
    by (apply with_query_url; [apply id_param_ok|done]).
  assert (∃ u', (match params with
                 | None => inr u
                 | Some p => match query_fragments style "id" (StyleString <$> cp_Id p) with inl e => inl e | inr fs => inr (with_query fs u) end
                 end) = inr u' ∧ request_url a (chars "providers") (id_param params) = Some u') as (u' & -> & Hu').
  { destruct params as [[[v|]]|]; cbn.
    - rewrite style_form, chars_of_chars. eexists. split; [done|]. rewrite split_none by (by apply param_has). exact Hq.
    - eexists. split; [done|]. exact Hq.
    - by exists u. }
  rewrite (request_made ip url_error a (chars "providers") (chars "providers") (id_param params)) by (done || apply list_tail_ok || apply id_param_ok).
  by exists u'.
Qed.
End Builders.

(** ** Routing of the requests *)

(** An address of the agent's API. *)
Definition agent_address (scheme host : text) : address := mkAddress scheme host [chars "api"; chars "v1alpha1"].

Lemma agent_address_ok scheme host : server_ok scheme host → address_ok (agent_address scheme host).
Proof. intros Hs. split; [done|]. by repeat constructor. Qed.

Lemma segments_target scheme host tail :
  segments (of_chars (target_path (agent_address scheme host) tail)) = "" :: "api" :: "v1alpha1" :: (of_chars <$> split_at "/" tail).
Proof. unfold segments, target_path. rewrite chars_of_chars, split_base; [done|]. by repeat constructor. Qed.

Lemma escape_slash mode l : shouldEscape "/" mode = false → has "/" l = true → has "/" (escape mode l) = true.
Proof.
  intros Hs Hl. unfold has in *. apply existsb_exists in Hl as (c & Hc & <-%is_char_eq). apply existsb_exists.
  exists "/"%char. split; [|done]. apply list_elem_of_In, list_elem_of_bind. exists "/"%char. split; [|by apply list_elem_of_In].
  unfold escape_char. rewrite Hs. set_solver.
Qed.

Lemma escape_app mode l l' : escape mode (l ++ l')%list = (escape mode l ++ escape mode l')%list.
Proof. apply bind_app. Qed.

(** The path parameter that the server finds, and what it is bound to. *)
Definition found_segment (scheme host : text) (id : string) : string :=
  if bool_decide (raw_path (agent_address scheme host) (get_tail id) (chars "providers/" ++ chars id) = []) then id
  else of_chars (PathEscape (chars id)).

Lemma raw_default scheme host id :
  raw_path (agent_address scheme host) (get_tail id) (chars "providers/" ++ chars id) = [] → has "/" (chars id) = false.
Proof.
  unfold raw_path. case_bool_decide as He; [|by intros ?%app_eq_nil; naive_solver]. intros _.
  assert (PathEscape (chars id) = escape encodePath (chars id)) as E.
  { unfold target_path, get_tail in He. rewrite escape_app in He.
    assert (escape encodePath (base_of (ad_segs (agent_address scheme host))) = base_of (ad_segs (agent_address scheme host))) as Hb
      by (apply escape_plain, base_plain; by repeat constructor).
    rewrite Hb in He. apply app_inv_head in He.
    change ("/"%char :: chars "providers/" ++ PathEscape (chars id))%list with (chars "/providers/" ++ PathEscape (chars id))%list in He.
    change ("/"%char :: chars "providers/" ++ chars id)%list with (chars "/providers/" ++ chars id)%list in He.
    rewrite escape_app, (escape_plain (chars "/providers/")) in He by done. by apply app_inv_head in He. }
  apply not_true_iff_false. intros Hs. pose proof (escape_slash encodePath (chars id) eq_refl Hs) as H. rewrite <-E, segment_slash in H. done.
Qed.

Lemma get_matched scheme host id r :
  id_ok id →
  r_Path r = of_chars (target_path (agent_address scheme host) (chars "providers/" ++ chars id)) →
  r_RawPath r = of_chars (raw_path (agent_address scheme host) (get_tail id) (chars "providers/" ++ chars id)) →
  segments (routePath r) = ["" ; "api"; "v1alpha1"; "providers"; found_segment scheme host id].
Proof.
  intros Hid Hp Hr. unfold routePath, found_segment. rewrite Hp, Hr.
  destruct (raw_path _ _ _) as [|c l] eqn:Er.
  - rewrite !bool_decide_eq_true_2 by done. rewrite segments_target.
    change (chars "providers/") with (chars "providers" ++ ["/"%char])%list. rewrite <-app_assoc. cbn [app].
    rewrite split_app, split_none by (done || exact (raw_default scheme host id Er)). cbn [fmap list_fmap]. by rewrite !of_chars_chars.
  - rewrite !bool_decide_eq_false_2 by done. rewrite <-Er.
    assert (raw_path (agent_address scheme host) (get_tail id) (chars "providers/" ++ chars id) = target_path (agent_address scheme host) (get_tail id)) as ->
      by (unfold raw_path in *; by case_bool_decide).
    rewrite segments_target. unfold get_tail. change (chars "providers/") with (chars "providers" ++ ["/"%char])%list.
    rewrite <-app_assoc. cbn [app]. by rewrite split_app, split_none by (done || apply segment_slash).
Qed.

Lemma found_nonempty scheme host id : id_ok id → found_segment scheme host id ≠ "".
Proof.
  intros (Hn & _). unfold found_segment. case_bool_decide; [done|]. intros E. apply (f_equal chars) in E. rewrite chars_of_chars in E.
  change (chars "") with (PathEscape (chars "")) in E. by apply segment_inj, chars_inj in E.
Qed.

Lemma match_provider_id s :
  match_segments ["";"api";"v1alpha1";"providers";"{provider_id}"] ["";"api";"v1alpha1";"providers";s] =
  if s =s? "" then None else Some [("provider_id", s)].
Proof. cbn [match_segments]. change (param_name "{provider_id}") with (Some "provider_id"). cbn [mbind option_bind]. destruct (decide (s = "")) as [->|Hs]; [by vm_compute|]. rewrite !(bool_decide_eq_false_2 (s = "")) by done. by vm_compute. Qed.

Lemma get_route chi `{!ChiComplete chi} scheme host id r :
  id_ok id → r_Method r = "GET" →
  r_Path r = of_chars (target_path (agent_address scheme host) (chars "providers/" ++ chars id)) →
  r_RawPath r = of_chars (raw_path (agent_address scheme host) (get_tail id) (chars "providers/" ++ chars id)) →
  chi routes r = ChiHandler 3 [("provider_id", found_segment scheme host id)].
Proof.
  intros Hid Hm Hp Hr. pose proof (get_matched scheme host id r Hid Hp Hr) as Hs.
  assert (∀ pat, path_match pat (routePath r) = match_segments (segments pat) ["" ; "api"; "v1alpha1"; "providers"; found_segment scheme host id]) as Hpm
    by (intros pat; unfold path_match; by rewrite Hs).
  apply (chi_only routes r 3 (BaseURL +:+ "/providers/{provider_id}")); rewrite ?Hm.
  - done.
  - rewrite Hpm. assert (segments (BaseURL +:+ "/providers/{provider_id}") = ["";"api";"v1alpha1";"providers";"{provider_id}"]) as -> by (by vm_compute).
    by rewrite match_provider_id, bool_decide_eq_false_2 by by apply found_nonempty.
  - intros j pat Hj. rewrite Hpm. destruct j as [|[|[|[|j]]]]; cbn; intros [= <-]; done.
Qed.

Lemma create_raw scheme host : raw_path (agent_address scheme host) (chars "providers") (chars "providers") = [].
Proof. by vm_compute. Qed.

Lemma create_route chi `{!ChiComplete chi} r :
  r_Method r = "POST" → r_Path r = "/api/v1alpha1/providers" → r_RawPath r = "" → chi routes r = ChiHandler 2 [].
Proof.
  intros Hm Hp Hr. apply (chi_only routes r 2 (BaseURL +:+ "/providers")); rewrite ?Hm.
  - done.
  - unfold routePath. by rewrite Hp, Hr.
  - intros j pat Hj. destruct j as [|[|[|[|j]]]]; cbn; intros [= <-]; done.
Qed.

Lemma admitted_target e auth r r' : admitted e auth r = Some r' →
  r_Method r' = r_Method r ∧ r_Path r' = r_Path r ∧ r_RawPath r' = r_RawPath r.
Proof. unfold admitted. repeat case_match; intros; simplify_eq; done. Qed.

(** ** The client and the agent together *)

Section EndToEnd.
Context {S IO : Type} `{Store S IO} `{!TimeText Z, !TimeTextLaws Z}.
Context (number : string → option string) (print : json → string) (parse : string → option json).
Context (url_Parse : string → option URL) (marshal_error : string).
Context (chi : list (string * string) → request → chi_match) `{!ChiLaws chi, !ChiComplete chi} (oapi : request → option string).
Context (bind_int : string → list (string * string) → bind_error + option Z).
Context (bind_string : string → list (string * string) → bind_error + option string).
Context (bind_path : string → bool → string + string) `{!BindLaws bind_string bind_path}.
Context (json_error : request → string) (encode_error : string) (error_string : error → string).
Context (style : string → bool → string → style_value → param_location → string + string) `{!StyleLaws style}.
Context (ip : text → option text) (url_error : string → string) (unmarshal_error : string).
Context (connected : bool) (timeout : Z) (auth : option (string → validated)).

Abbreviation served := (serve (S := S) (IO := IO) number print parse url_Parse marshal_error chi oapi bind_int bind_string bind_path
  json_error encode_error error_string).

(** The agent behind an HTTP client: each request takes the next of the given
    conditions (store answers, new identifiers, clock) and is served. *)
Definition agent_world : Type := list (Env IO * Http.env) * Svc S.

Definition agent_Do : HttpRequestDoer agent_world := λ hr w,
  match w.1, received ip hr with
  | (env, e) :: envs, Some r =>
      let '(_, s) := served env connected e timeout auth r (mkExchange fresh (mkOutcome 0 None) [] w.2) in
      (match delivered (writer s) with Some rsp => inr rsp | None => inl "EOF" end, (envs, world s))
  | _, _ => (inl "connection refused", w)
  end.

(** An editor that only sets headers. *)
Definition header_editor (f : headers → headers) : RequestEditorFn := λ hr,
  inr (mkHttpRequest (hr_Method hr) (hr_URL hr) (f (hr_Header hr)) (hr_Body hr)).

(** The agent lets the edited request in. *)
Definition lets_in (e : Http.env) (f : headers → headers) (hr : http_request) : Prop :=
  ∀ r, received ip (mkHttpRequest (hr_Method hr) (hr_URL hr) (f (hr_Header hr)) (hr_Body hr)) = Some r →
  ∃ r', admitted e auth r = Some r' ∧ oapi r' = None.

(** The address an operator gives to the client. *)
Definition agent_text (scheme host : text) : string :=
  of_chars (scheme ++ ":"%char :: "/"%char :: "/"%char :: host ++ chars BaseURL).

Lemma NewClient_agent http_Client scheme host f :
  NewClient http_Client (agent_text scheme host) [WithHTTPClient agent_Do; WithRequestEditorFn (header_editor f)] =
  inr (mkClient (address_text (agent_address scheme host)) (Some agent_Do) [header_editor f]).
Proof.
  unfold NewClient. cbn [apply_options WithHTTPClient WithRequestEditorFn Server Doer RequestEditors app].
  assert (HasSuffix (agent_text scheme host) "/" = false) as ->.
  { apply not_true_iff_false. intros (t & Ht)%HasSuffix_spec. apply (f_equal chars) in Ht. unfold agent_text in Ht.
    rewrite chars_of_chars, chars_app in Ht. change (chars BaseURL) with (chars "/api/v1alpha" ++ ["1"%char])%list in Ht.
    assert (∃ l, scheme ++ ":"%char :: "/"%char :: "/"%char :: host ++ chars "/api/v1alpha" ++ ["1"%char] = l ++ ["1"%char])%list as (l & El).
    { exists (scheme ++ ":"%char :: "/"%char :: "/"%char :: host ++ chars "/api/v1alpha")%list. rewrite <-app_assoc. cbn [app]. by rewrite <-app_assoc. }
    rewrite El in Ht. by apply app_inj_tail in Ht as [_ ?]. }
  cbn [negb]. f_equal. f_equal. apply chars_inj. unfold agent_text, address_text, server_text. rewrite chars_app, !chars_of_chars.
  rewrite <-app_assoc. cbn [app]. rewrite <-app_assoc. done.
Qed.

(** The requests as the agent receives them. *)
Definition post_received (scheme host : text) (f : headers → headers) (id : option string) (doc : json) (u : url) : request :=
  mkRequest "POST" "/api/v1alpha1/providers" "" (of_chars (RequestURI u)) (f (Header_Add "Content-Type" "application/json" ∅))
    (match id with Some v => [("id", v)] | None => [] end) (Some doc) Background.

Definition get_received (scheme host : text) (f : headers → headers) (id : string) (u : url) : request :=
  mkRequest "GET" (of_chars (target_path (agent_address scheme host) (chars "providers/" ++ chars id)))
    (of_chars (raw_path (agent_address scheme host) (get_tail id) (chars "providers/" ++ chars id)))
    (of_chars (RequestURI u)) (f ∅) [] None Background.

Lemma post_sent scheme host f id doc u :
  server_ok scheme host → request_url (agent_address scheme host) (chars "providers") (id_param (Some (mkCreateParams id))) = Some u →
  received ip (mkHttpRequest "POST" u (f (Header_Add "Content-Type" "application/json" ∅)) (Some doc)) =
    Some (post_received scheme host f id doc u).
Proof.
  intros Hs Hu.
  rewrite (proj2 (sent_received ip _ _ _ _ "POST" _ (Some doc) u (agent_address_ok _ _ Hs) list_tail_ok (id_param_ok _) Hu)).
  rewrite create_raw. unfold post_received, id_param. cbn [mbind option_bind cp_Id]. by destruct id as [v|]; cbn; rewrite ?of_chars_chars.
Qed.

Lemma get_sent scheme host f id u :
  server_ok scheme host → id_ok id → request_url (agent_address scheme host) (get_tail id) [] = Some u →
  received ip (mkHttpRequest "GET" u (f ∅) None) = Some (get_received scheme host f id u).
Proof.
  intros Hs Hid Hu.
  by rewrite (proj2 (sent_received ip _ _ _ [] "GET" _ None u (agent_address_ok _ _ Hs) (get_tail_ok id Hid) ltac:(constructor) Hu)).
Qed.

Lemma bind_found scheme host f id u : id_ok id →
  bind_path (default "" (snd <$> List.find (λ kv, kv.1 =s? "provider_id") [("provider_id", found_segment scheme host id)]))
    (r_RawPath (get_received scheme host f id u) =s? "") = inr id.
Proof.
  intros Hid.
  assert (default "" (snd <$> List.find (λ kv, kv.1 =s? "provider_id") [("provider_id", found_segment scheme host id)]) =
    found_segment scheme host id) as -> by done.
  unfold found_segment, get_received. cbn [r_RawPath]. destruct (raw_path _ _ _) as [|c l].
  - rewrite !bool_decide_eq_true_2 by done. apply bind_path_plain.
  - rewrite !bool_decide_eq_false_2 by done. rewrite (bind_path_escaped (PathEscape (chars id)) (chars id)); [by rewrite of_chars_chars|].
    pose proof (unescape_segment (chars id) []) as HU. rewrite app_nil_r in HU. rewrite HU. cbn. by rewrite app_nil_r.
Qed.

Abbreviation fresh_exchange v := (mkExchange fresh (mkOutcome 0 None) [] v).
Abbreviation agent_client scheme host f := (mkClient (address_text (agent_address scheme host)) (Some agent_Do) [header_editor f]).

(** A call on the agent, from its request on. *)
Lemma send_agent http_Client scheme host f hr r env e envs v :
  received ip (mkHttpRequest (hr_Method hr) (hr_URL hr) (f (hr_Header hr)) (hr_Body hr)) = Some r →
  send http_Client (agent_client scheme host f) (inr hr) [] ((env, e) :: envs, v) =
  let '(_, s) := served env connected e timeout auth r (fresh_exchange v) in
  (match delivered (writer s) with Some rsp => inr rsp | None => inl "EOF" end, (envs, world s)).
Proof. intros Hr. unfold send, applyEditors. cbn. unfold agent_Do. cbn [fst snd]. by rewrite Hr. Qed.

(** C21: the generated client and the agent agree on every identifier.  A client
    made for the agent's address registers a provider and then asks for it by
    the identifier it got.  Whatever bytes the identifiers consist of (they are
    escaped into the query and into the path; only the two dot segments cannot
    be asked for), the requests reach the two operations with exactly these
    identifiers and the document that was sent, the agent registers the
    provider as [Register] does, and the client reads the same provider, the
    registered one, from both answers.  The agent lets the requests in, the
    store's identifiers are unique, and the later read of the store succeeds. *)
Theorem client_create_then_get `{!StoreOk S IO} http_Client scheme host f c id body env env' e e' v doc inp a created v' :
  (∀ lit lit', number lit = Some lit' → number lit' = Some lit') →
  server_ok scheme host →
  NewClient http_Client (agent_text scheme host) [WithHTTPClient agent_Do; WithRequestEditorFn (header_editor f)] = inr c →
  in_time e timeout → in_time e' timeout →
  (∀ hr, NewCreateProviderRequest style ip url_error marshal_error number (Server c) (Some (mkCreateParams id)) body = inr hr → lets_in e f hr) →
  (∀ hr, NewGetProviderRequest style ip url_error (Server c) (api_Id a) = inr hr → lets_in e' f hr) →
  store_inv (store v) → NoDup (ID <$> contents (store v)) → env_uuid env ∉ ID <$> contents (store v) →
  encode (AgentApi.cProvider number) body = Some doc → wf (AgentApi.cProvider number) body →
  refused_field url_Parse (mkCreateParams id) body = None →
  registration_input number print marshal_error (mkCreateParams id) body = Ok inp →
  Register (unmarshal_meta number parse) env inp v = (Ok (a, created), v') →
  wf (AgentApi.cProvider number) (provider_of a) → id_ok (api_Id a) →
  (∀ err, GetByID (env_get_id env') (api_Id a) (store v') ≠ Err err) →
  ∃ rc rg,
    CreateProviderWithResponse style ip url_error marshal_error number http_Client unmarshal_error c (Some (mkCreateParams id)) body []
      ([(env, e); (env', e')], v) = (inr rc, ([(env', e')], v')) ∧
    GetProviderWithResponse style ip url_error number http_Client unmarshal_error c (api_Id a) [] ([(env', e')], v') = (inr rg, ([], v')) ∧
    (if created then cr_JSON201 rc else cr_JSON200 rc) = Some (provider_of a) ∧ gp_JSON200 rg = Some (provider_of a).
Proof.
  intros Hnum Hserver Hc Ht Ht' Hin Hin' Hinv Hnd Hu Hdoc Hwf Hvalid Hinp Hreg Hwa Hid Hread.
  rewrite NewClient_agent in Hc. injection Hc as <-. cbn [Server] in *.
  destruct (create_request style ip url_error (agent_address scheme host) (Some (mkCreateParams id)) "application/json" (Some doc)
    (agent_address_ok _ _ Hserver)) as (u & Hu1 & Hu2).
  destruct (get_request style ip url_error (agent_address scheme host) (api_Id a) (agent_address_ok _ _ Hserver) Hid) as (g & Hg1 & Hg2).
  unfold NewCreateProviderRequest in Hin. rewrite Hdoc, Hu1 in Hin. rewrite Hg1 in Hin'.
  pose proof (post_sent scheme host f id doc u Hserver Hu2) as Hp. pose proof (get_sent scheme host f (api_Id a) g Hserver Hid Hg2) as Hgs.
  destruct (Hin _ eq_refl _ Hp) as (r1 & Ha1 & Ho1). destruct (Hin' _ eq_refl _ Hgs) as (r2 & Ha2 & Ho2).
  destruct (roundtrip _ (AgentApi.agent_Provider_lawful number Hnum) _ Hwf) as (j0 & Hj0 & Hdec0). assert (j0 = doc) as -> by congruence.
  destruct (roundtrip _ (AgentApi.agent_Provider_lawful number Hnum) _ Hwa) as (j & Hj & Hdec).
  assert (reaches chi oapi e auth (post_received scheme host f id doc u) 2 []) as Hr1.
  { destruct (admitted_target _ _ _ _ Ha1) as (Hm1 & Hp1 & Hr1). split. exists r1. split_and!; [done..|]. by apply create_route. }
  assert (reaches chi oapi e' auth (get_received scheme host f (api_Id a) g) 3 [("provider_id", found_segment scheme host (api_Id a))]) as Hr2.
  { destruct (admitted_target _ _ _ _ Ha2) as (Hm2 & Hp2 & Hr2). split. exists r2. split_and!; [done..|]. by apply get_route. }
  pose proof (api_create_then_get number print parse url_Parse marshal_error chi oapi bind_int bind_string bind_path json_error encode_error
    error_string e e' timeout auth env env' connected (post_received scheme host f id doc u) (get_received scheme host f (api_Id a) g)
    (fresh_exchange v) (fresh_exchange v') [] [("provider_id", found_segment scheme host (api_Id a))] id body inp a created v' j Hinv Hnd Hu eq_refl Ht Hr1) as HA.
  specialize (HA ltac:(destruct id; [apply bind_one|apply bind_none]) Hdec0 Hvalid Hinp Hreg Hj eq_refl eq_refl Ht' Hr2).
  specialize (HA (bind_found scheme host f (api_Id a) g Hid) Hread). cbv zeta in HA.
  unfold CreateProviderWithResponse, GetProviderWithResponse, client_CreateProvider, client_GetProvider, NewCreateProviderRequest.
  cbn [Server]. rewrite Hdoc, Hu1, Hg1.
  rewrite (send_agent http_Client scheme host f (mkHttpRequest "POST" u (Header_Add "Content-Type" "application/json" ∅) (Some doc)) _ env e _ v Hp).
  rewrite (send_agent http_Client scheme host f (mkHttpRequest "GET" g ∅ None) _ env' e' _ v' Hgs).
  destruct (served env connected e timeout auth (post_received scheme host f id doc u) (fresh_exchange v)) as [fin1 s1].
  destruct (served env' connected e' timeout auth (get_received scheme host f (api_Id a) g) (fresh_exchange v')) as [fin2 s2].
  cbn [snd] in HA. destruct HA as (-> & -> & rsp & rsp2 & -> & -> & _ & _ & _ & _ & HP).
  destruct (HP _ Hdec) as [(rc & Hrc & Hcr) (rg & Hrg & Hgp)]. exists rc, rg. unfold read_response. by rewrite Hrc, Hrg.
Qed.
End EndToEnd.

(** ** A run *)

Module ApiClientRun.
Import ApiRun.
#[local] Existing Instance int_time.

Lemma find_route_only i rts r k pat ps : rts !! k = Some (r_Method r, pat) → path_match pat (routePath r) = Some ps →
  (∀ j pat', j ≠ k → rts !! j = Some (r_Method r, pat') → path_match pat' (routePath r) = None) →
  find_route i rts r = ChiHandler (i + k) ps.
Proof.
  revert i k. induction rts as [|[m p] rts IH]; intros i k Hk Hp Hu; [done|]. cbn [find_route]. destruct k as [|k].
  - injection Hk as -> ->. rewrite bool_decide_eq_true_2, Hp by done. f_equal. lia.
  - assert (find_route (S i) rts r = ChiHandler (i + S k) ps) as Hrest.
    { erewrite (IH (S i) k); [f_equal; lia|done|done|]. intros j pat' Hj Hl. by apply (Hu (S j) pat'); [lia|]. }
    case_bool_decide as Hm; [|done]. rewrite (Hu 0%nat p) by (lia || by rewrite Hm). done.
Qed.

#[local] Instance find_route_complete : ChiComplete (find_route 0).
Proof. intros rts r i pat ps. apply find_route_only. Qed.

Definition bind_path (v : string) (unescaped : bool) : string + string :=
  if unescaped then inr v else match unescape encodePath (chars v) with Some l => inr (of_chars l) | None => inl "invalid URL escape" end.

#[local] Instance bind_laws : BindLaws bind bind_path.
Proof.
  split.
  - intros name v. unfold bind. cbn. by rewrite bool_decide_eq_true_2.
  - done.
  - done.
  - intros l v Hv. unfold bind_path. by rewrite chars_of_chars, Hv.
Qed.

Definition style (_ : string) (_ : bool) (name : string) (v : style_value) (l : param_location) : string + string :=
  let s := match v with StyleString s => s | StyleInt n => pretty n end in
  inr (of_chars (match l with ParamLocationPath => PathEscape (chars s) | ParamLocationQuery => param_text (chars name, chars s) end)).

#[local] Instance style_laws : StyleLaws style.
Proof. by split. Qed.

#[local] Existing Instance int_time_laws.
#[local] Existing Instance find_route_laws.

(** [url.Parse] as the provider service uses it. *)
Definition service_Parse (s : string) : option URL :=
  u ← Parse (λ _, None) (chars s);
  Some {| Scheme := of_chars (u_Scheme u); Host := of_chars (u_Host u); RawQuery := of_chars (u_RawQuery u); Fragment := of_chars (u_Fragment u) |}.

Definition no_ip : text → option text := λ _, None.
Definition http : text := chars "http".
Definition host : text := chars "agent.lab:8080".

Lemma http_ok : server_ok http host.
Proof. by repeat constructor. Qed.

Definition with_token (h : headers) : headers := <["Authorization" := ["Bearer t1"]]> h.

Definition agent : HttpRequestDoer (agent_world (S := Disk) (IO := FileIO)) :=
  agent_Do Some (λ _, "{}") any_object service_Parse "" (find_route 0) (λ _, None) (λ _ _, inr None) bind bind_path (λ _, "") "" (λ _, "")
    no_ip true 30 (Some validate).

Definition refuse : HttpRequestDoer (agent_world (S := Disk) (IO := FileIO)) := λ _ w, (inl "connection refused", w).

Definition client : Client (agent_world (S := Disk) (IO := FileIO)) :=
  mkClient (address_text (agent_address http host)) (Some agent) [header_editor with_token].

Lemma client_made : NewClient refuse "http://agent.lab:8080/api/v1alpha1" [WithHTTPClient agent; WithRequestEditorFn (header_editor with_token)] = inr client.
Proof. reflexivity. Qed.

Lemma token_admitted r : r_Header r !! "Authorization" = Some ["Bearer t1"] → ∃ r', admitted clock (Some validate) r = Some r'.
Proof.
  intros Hr. unfold admitted. destruct (is_health r); [by eexists|].
  assert (ExtractBearerToken r = inr "t1") as ->; [|by eexists].
  unfold ExtractBearerToken, Header_Get. change (CanonicalHeaderKey "Authorization") with "Authorization". by rewrite Hr.
Qed.

Lemma received_header hr r : received no_ip hr = Some r → r_Header r = hr_Header hr.
Proof. unfold received. by destruct (ParseRequestURI _ _); intros; simplify_eq/=. Qed.

Lemma token_lets_in hr : lets_in (λ _, None) no_ip (Some validate) clock with_token hr.
Proof.
  intros r Hr. destruct (token_admitted r) as [r' Hr']; [|by exists r'].
  rewrite (received_header _ _ Hr). apply lookup_insert_eq.
Qed.

Definition provider_doc : json := default JNull (encode (AgentApi.cProvider Some) provider).
Lemma provider_encodes : encode (AgentApi.cProvider Some) provider = Some provider_doc.
Proof. by vm_compute. Qed.
Lemma provider_wf : wf (AgentApi.cProvider Some) provider.
Proof. repeat (apply Forall_cons_2; [|try apply Forall_nil_2]); simpl; try done; split; try done; by eexists. Qed.
Lemma provider_accepted : refused_field service_Parse (mkCreateParams (Some "p1")) provider = None.
Proof. by vm_compute. Qed.
Lemma provider_input : registration_input Some (λ _, "{}") "" (mkCreateParams (Some "p1")) provider = Ok input.
Proof. by vm_compute. Qed.

Lemma client_create_then_get_witness :
  ∃ c rc rg, NewClient refuse "http://agent.lab:8080/api/v1alpha1" [WithHTTPClient agent; WithRequestEditorFn (header_editor with_token)] = inr c ∧
    CreateProviderWithResponse style no_ip (λ _, "") "" Some refuse "" c (Some (mkCreateParams (Some "p1"))) provider []
      ([(env1, clock); (env1, clock)], sample_start) = (inr rc, ([(env1, clock)], registration.2)) ∧
    GetProviderWithResponse style no_ip (λ _, "") Some refuse "" c "p1" [] ([(env1, clock)], registration.2) = (inr rg, ([], registration.2)) ∧
    cr_JSON201 rc = Some (provider_of answer) ∧ gp_JSON200 rg = Some (provider_of answer).
Proof.
  destruct (client_create_then_get Some (λ _, "{}") any_object service_Parse "" (find_route 0) (λ _, None) (λ _ _, inr None)
    bind bind_path (λ _, "") "" (λ _, "") style no_ip (λ _, "") "" true 30 (Some validate) refuse http host with_token client (Some "p1") provider
    env1 env1 clock clock
    sample_start provider_doc input answer true registration.2
    ltac:(by intros lit lit' [= <-]) http_ok client_made eq_refl eq_refl (λ hr _, token_lets_in hr) (λ hr _, token_lets_in hr)
    start_inv (proj1 start_ids) (proj2 start_ids) provider_encodes provider_wf provider_accepted provider_input registration_ok
    answer_wf ltac:(by split_and!) registered_readable) as (rc & rg & H1 & H2 & H3 & H4).
  exists client, rc, rg. split; [exact client_made|]. split; [exact H1|]. split; [exact H2|]. split; [exact H3|exact H4].
Defined.

End ApiClientRun.
