(* ===== verification/ControlPlane.v ===== *)
(** * Requests to the control plane

    Models internal/dcm/client.go down to the HTTP requests: the address of the
    control plane, the two endpoints ([JoinPath] of net/url), the documents and
    headers that are sent.  What is made of the answers is in [Dcm], whose
    [register] and [heartbeat] the registrar is modelled with; the theorem shows
    that these are what the requests come to.

    Given from outside: the token source, the HTTP transport and the texts of
    the library's errors. *)

From Stdlib Require Import Ascii.
From S2P Require Import Prelude GoStrings Url Json Encoding Codec Http Api ApiClient Dcm.
#[local] Open Scope string_scope.
#[local] Open Scope Z_scope.

(** ** net/url: JoinPath *)

(** [path.Clean] on a path that starts with a slash, segment by segment. *)
Definition clean_elem (out : list text) (e : text) : list text :=
  if bool_decide (e = []) || bool_decide (e = dot) then out
  else if bool_decide (e = dotdot) then removelast out
  else (out ++ [e])%list.
Definition Clean (p : text) : text :=
  match fold_left clean_elem (split_at "/" p) [] with [] => ["/"%char] | l => base_of l end.
Definition path_Join (elem : list text) : text := Clean (join_with "/" (filter (λ e, e ≠ []) elem)).

Definition ends_slash (l : text) : bool := starts ["/"%char] (reverse l).

Section JoinPath.
(** What JoinPath gives when the elements are not in escaped form, as it asks
    for. *)
Context (malformed : url → text → url).

Definition JoinPath (u : url) (elem : list text) : url :=
  let base := EscapedPath u in
  let rooted := starts ["/"%char] base in
  let elem := (if rooted then base else "/"%char :: base) :: elem in
  let p := if rooted then path_Join elem else drop 1 (path_Join elem) in
  let p := if ends_slash (default [] (last elem)) && negb (ends_slash p) then (p ++ ["/"%char])%list else p in
  match set_path p u with Some v => v | None => malformed u p end.
End JoinPath.

(** ** client.go *)

Section Client.
Context (parse_ip_literal : text → option text) (url_error : string → string) (malformed : url → text → url).
Context `{!TimeText Z} (marshal_error : error) (http_ParseTime : string → option Z).
(** The world: what token source and transport depend on. *)
Context {S : Type} (Do : http_request → S → result Response * S).

Definition TokenSource : Type := S → result string * S.
Record dcmClient := mkDcmClient { baseURL : url; tokenSource : option TokenSource }.

Definition newDCMClient (registrationURL : string) (ts : option TokenSource) : result dcmClient :=
  match url_parse parse_ip_literal url_error registrationURL with
  | inl e => Err (EWrap "invalid registration URL" (ENew e))
  | inr u =>
      if bool_decide (u_Host u = []) then Err (ENew "invalid registration URL: missing host")
      else Ok (mkDcmClient u ts)
  end.

(** The documents, with their members in the order of the structures. *)
Definition registration_json (p : registrationPayload) : option json :=
  Some (JObject ([("name", JString (rp_Name p)); ("environment", JString (rp_Environment p)); ("cost", JString (rp_Cost p));
    ("topic_name", JString (rp_TopicName p)); ("service_types", JArray (JString <$> rp_ServiceTypes p))] ++
    match rp_ResourcesAvailable p with Some j => [("resources_available", j)] | None => [] end)).
Definition heartbeat_json (p : heartbeatPayload) : option json :=
  t ← time_format (hp_Timestamp p);
  Some (JObject [("timestamp", JString t); ("consumer_lag", JNumber (Itoa (hp_ConsumerLag p)))]).

(** The answer of the token source, if there is one. *)
Definition ask_token (c : dcmClient) (s : S) : option (result string) * S :=
  match tokenSource c with
  | None => (None, s)
  | Some ts => let '(r, s) := ts s in (Some r, s)
  end.

Definition set_auth (auth : option string) (req : http_request) : http_request :=
  match auth with
  | Some a => mkHttpRequest (hr_Method req) (hr_URL req) (Header_Set "Authorization" a (hr_Header req)) (hr_Body req)
  | None => req
  end.

(** From the document to the answer; [call] names the operation in error texts. *)
Definition exchange (c : dcmClient) (call : string) (method : string) (elem : list text) (body : option json) (s : S)
  : result Response * S :=
  match body with
  | None => (Err (EWrap ("marshal " ++ call ++ " payload") marshal_error), s)
  | Some _ =>
      match NewRequest parse_ip_literal url_error method (of_chars (URL_String (JoinPath malformed (baseURL c) elem))) body with
      | inl e => (Err (EWrap ("create " ++ call ++ " request") (ENew e)), s)
      | inr req =>
          let req := mkHttpRequest (hr_Method req) (hr_URL req) (Header_Set "Content-Type" "application/json" (hr_Header req)) (hr_Body req) in
          let '(token, s) := ask_token c s in
          match setAuthHeader token with
          | Err e => (Err (EWrap call e), s)
          | Ok auth =>
              match Do (set_auth auth req) s with
              | (Err e, s) => (Err (EWrap (call ++ " request failed") e), s)
              | (Ok resp, s) => (Ok resp, s)
              end
          end
      end
  end.

Definition agents_path : list text := [chars "api"; chars "v1alpha1"; chars "agents"].

(** [now]: the clock when the answer is read. *)
Definition register (c : dcmClient) (now : Z) (payload : registrationPayload) (s : S) : result string * S :=
  match exchange c "registration" "POST" agents_path (registration_json payload) s with
  | (Err e, s) => (Err e, s)
  | (Ok resp, s) => (handleRegistrationResponse http_ParseTime now resp, s)
  end.

Definition heartbeat (c : dcmClient) (agentID : string) (payload : heartbeatPayload) (s : S) : option error * S :=
  match exchange c "heartbeat" "PUT" (agents_path ++ [chars agentID; chars "heartbeat"])%list (heartbeat_json payload) s with
  | (Err e, s) => (Some e, s)
  | (Ok resp, s) =>
      (if is_success (StatusCode resp) then None
       else Some (ENew ("heartbeat failed (HTTP " ++ pretty (StatusCode resp) ++ ")")), s)
  end.
End Client.

(** ** The endpoints *)

Lemma clean_elems l out : Forall (λ e, e = [] ∨ seg_ok e) l → fold_left clean_elem l out = (out ++ filter (λ e, e ≠ []) l)%list.
Proof.
  intros Hl. revert out. induction Hl as [|e l He _ IH]; intros out; [by rewrite app_nil_r|]. cbn [fold_left]. unfold clean_elem at 2.
  destruct He as [->|(_ & Hn & Hd & Hdd)].
  - rewrite bool_decide_eq_true_2 by done. cbn [orb]. rewrite IH. by rewrite filter_cons_False by (intros H; by apply H).
  - rewrite !bool_decide_eq_false_2 by done. cbn [orb]. rewrite IH, filter_cons_True by done. by rewrite <-app_assoc.
Qed.

Lemma split_cat c a b : split_at c (a ++ c :: b) = (split_at c a ++ split_at c b)%list.
Proof.
  induction a as [|d a IH].
  - cbn [app split_at]. by rewrite (proj2 (is_char_eq c c) eq_refl).
  - cbn [app split_at]. destruct (is_char c d) eqn:E; [by rewrite IH|]. rewrite IH. pose proof (split_nonempty c a). by destruct (split_at c a).
Qed.

Lemma seg_plain s : seg_ok s → has "/" s = false.
Proof. intros (Hs & _). by apply (has_outside _ plain). Qed.

Lemma base_join elems : elems ≠ [] → base_of elems = "/"%char :: join_with "/" elems.
Proof.
  intros Hn. induction elems as [|e elems IH]; [done|]. destruct elems as [|e' elems]; [unfold base_of; cbn; by rewrite app_nil_r|].
  unfold base_of in *. cbn [mbind list_bind] in *. rewrite IH by done. done.
Qed.

(** The base path, with or without a slash at its end. *)
Definition base_text (segs : list text) (slash : bool) : text := (base_of segs ++ if slash then ["/"%char] else [])%list.

Lemma split_base_text segs slash : Forall seg_ok segs → base_text segs slash ≠ [] →
  Forall (λ e, e = [] ∨ seg_ok e) (split_at "/" (base_text segs slash)) ∧
  filter (λ e, e ≠ []) (split_at "/" (base_text segs slash)) = segs.
Proof.
  intros Hs Hn.
  assert (∀ l : list text, Forall seg_ok l → filter (λ e, e ≠ []) l = l) as Hf
    by (induction 1 as [|s l (_ & H & _) _ IH]; [done|]; by rewrite filter_cons_True, IH).
  assert (Forall (λ s, has "/" s = false) segs) as Hh by (eapply Forall_impl; [done|apply seg_plain]).
  unfold base_text in *. destruct slash.
  - rewrite split_base by done. split.
    + constructor; [by left|]. apply Forall_app. split; [|by constructor; [left|]].
      eapply Forall_impl; [exact Hs|by right].
    + rewrite filter_cons_False by (intros H; by apply H). rewrite filter_app, (Hf segs) by done. cbn [split_at].
      rewrite filter_cons_False by (intros H; by apply H). by rewrite app_nil_r.
  - rewrite app_nil_r in *. destruct segs as [|s segs]; [done|]. rewrite base_join by done.
    change (split_at "/" ("/"%char :: ?l)) with ([] :: split_at "/" l). rewrite split_join by done. split.
    + constructor; [by left|]. eapply Forall_impl; [exact Hs|by right].
    + rewrite filter_cons_False by (intros H; by apply H). by apply Hf.
Qed.

Lemma path_Join_below segs slash elems :
  Forall seg_ok segs → Forall seg_ok elems → elems ≠ [] → base_text segs slash ≠ [] →
  path_Join (base_text segs slash :: elems) = base_of (segs ++ elems).
Proof.
  intros Hs He Hn Hb. destruct (split_base_text segs slash Hs Hb) as [Hall Hfil].
  assert (filter (λ e, e ≠ []) (base_text segs slash :: elems) = base_text segs slash :: elems) as HF.
  { rewrite filter_cons_True by done. f_equal. clear -He. induction He as [|s l (_ & H & _) _ IH]; [done|]. by rewrite filter_cons_True, IH. }
  unfold path_Join. rewrite HF. destruct elems as [|e elems]; [done|]. cbn [join_with]. unfold Clean.
  change (match elems with [] => e | _ :: _ => (e ++ "/"%char :: join_with "/" elems)%list end) with (join_with "/" (e :: elems)).
  rewrite split_cat, split_join by (done || by eapply Forall_impl; [exact He|apply seg_plain]).
  rewrite clean_elems by (apply Forall_app; split; [done|]; eapply Forall_impl; [exact He|by right]).
  rewrite filter_app, Hfil. assert (filter (λ s, s ≠ []) (e :: elems) = e :: elems) as ->.
  { rewrite filter_cons_True in HF by done. by injection HF. }
  cbn [app]. by destruct segs.
Qed.

(** The address as it is configured and as it is parsed. *)
Definition control_plane_text (a : address) (slash : bool) : string :=
  of_chars (ad_scheme a ++ ":"%char :: "/"%char :: "/"%char :: ad_host a ++ base_text (ad_segs a) slash).
Definition base_url (a : address) (slash : bool) : url :=
  mkUrl (ad_scheme a) [] None (ad_host a) (base_text (ad_segs a) slash) [] false false [] [] [].

Lemma base_text_plain segs slash : Forall seg_ok segs → forallb (λ c, plain c || is_char "/" c) (base_text segs slash) = true.
Proof. intros Hs. unfold base_text. rewrite forallb_app, base_plain by done. by destruct slash. Qed.

Lemma base_text_starts segs slash : base_text segs slash = [] ∨ starts ["/"%char] (base_text segs slash) = true.
Proof. destruct segs as [|s segs]; [|right; apply starts_cons]. destruct slash; [right; apply starts_cons|by left]. Qed.

Lemma plain_dec l : forallb (λ c, plain c || is_char "/" c) l = true → unescape encodePath l = Some l.
Proof. intros Hl. pose proof (unescape_plain l [] Hl) as HU. rewrite app_nil_r in HU. rewrite HU. cbn. by rewrite app_nil_r. Qed.

Lemma plain_not_star l : forallb (λ c, plain c || is_char "/" c) l = true → l ≠ ["*"%char].
Proof. by intros Hl ->. Qed.

Lemma plain_set_path l u : forallb (λ c, plain c || is_char "/" c) l = true →
  set_path l u = Some (mkUrl (u_Scheme u) (u_Opaque u) (u_User u) (u_Host u) l [] (u_OmitHost u) (u_ForceQuery u) (u_RawQuery u)
    (u_Fragment u) (u_RawFragment u)).
Proof. intros Hl. rewrite (set_path_spec _ _ _ (plain_dec l Hl)), escape_plain by done. by rewrite bool_decide_eq_true_2. Qed.

Lemma base_url_path a slash : address_ok a → EscapedPath (base_url a slash) = base_text (ad_segs a) slash.
Proof.
  intros [_ Hb]. unfold EscapedPath, base_url. cbn [u_RawPath u_Path]. rewrite (bool_decide_eq_true_2 (@nil ascii = [])) by done. cbn [negb andb].
  rewrite bool_decide_eq_false_2 by by apply plain_not_star, base_text_plain. by apply escape_plain, base_text_plain.
Qed.

Lemma join_plain elems : Forall seg_ok elems → forallb (λ c, plain c || is_char "/" c) (join_with "/" elems) = true.
Proof.
  intros He. destruct elems as [|e elems]; [done|]. pose proof (base_plain (e :: elems) He) as H. rewrite base_join in H by done. by cbn [forallb] in H.
Qed.

Lemma elems_tail_ok elems : Forall seg_ok elems → elems ≠ [] → tail_ok (join_with "/" elems) (join_with "/" elems).
Proof.
  intros He Hn. split; [by apply path_chars_plain, join_plain| |by apply plain_dec, join_plain].
  rewrite split_join by (done || by eapply Forall_impl; [exact He|apply seg_plain]). eapply Forall_impl; [exact He|]. by intros s (_ & _ & ? & ?).
Qed.

Lemma last_no_slash elems x : Forall seg_ok elems → elems ≠ [] → ends_slash (default [] (last (x :: elems))) = false.
Proof.
  intros He Hn. destruct (last elems) as [e|] eqn:E; [|by apply last_None in E].
  assert (last (x :: elems) = Some e) as -> by (by destruct elems). change (default [] (Some e)) with e. apply last_Some in E as [l ->].
  apply Forall_app in He as [_ [He _]%Forall_cons]. unfold ends_slash. apply bool_decide_eq_false_2. intros [k Hk].
  pose proof (seg_plain e He) as Hs. rewrite <-(has_reverse "/" e), Hk in Hs. done.
Qed.

(** A path without a slash in front is written with one. *)
Lemma slash_written scheme host l : scheme ≠ [] → host ≠ [] → forallb (λ c, plain c || is_char "/" c) l = true → l ≠ [] → starts ["/"%char] l = false →
  URL_String (mkUrl scheme [] None host l [] false false [] [] []) = URL_String (mkUrl scheme [] None host ("/"%char :: l) [] false false [] [] []).
Proof.
  intros Hs Hh Hp Hn Hst. assert (forallb (λ c, plain c || is_char "/" c) ("/"%char :: l) = true) as Hp' by (cbn [forallb]; by rewrite Hp).
  unfold URL_String, EscapedPath. cbn [u_Scheme u_Opaque u_User u_Host u_Path u_OmitHost u_Fragment u_RawPath u_ForceQuery u_RawQuery u_RawFragment].
  rewrite !(bool_decide_eq_true_2 (@nil ascii = [])) by done. cbn [negb andb].
  rewrite !(bool_decide_eq_false_2 (_ = ["*"%char])) by by apply plain_not_star.
  rewrite !escape_plain by done. rewrite Hst, starts_cons, (bool_decide_eq_false_2 (scheme = [])), (bool_decide_eq_false_2 (host = [])), (bool_decide_eq_false_2 (l = [])) by done.
  cbn [negb orb andb]. rewrite !andb_false_r. cbn [andb]. rewrite !bool_decide_eq_false_2 by (by destruct scheme). cbn [andb app].
  by rewrite <-!app_assoc.
Qed.

Lemma join_seg elems : Forall seg_ok elems → elems ≠ [] → join_with "/" elems ≠ [] ∧ starts ["/"%char] (join_with "/" elems) = false.
Proof.
  intros He Hn. destruct elems as [|e l]; [done|]. pose proof (seg_plain e (Forall_inv He)) as Hs. pose proof (Forall_inv He) as (_ & Hen & _).
  destruct e as [|c e]; [done|]. split; [by destruct l|]. apply bool_decide_eq_false_2. intros [k Hk]. destruct l; injection Hk as -> _; done.
Qed.

(** The endpoint below the address, as it is written. *)
Lemma endpoint_text malformed a slash elems : address_ok a → Forall seg_ok elems → elems ≠ [] →
  ∃ u, request_url a (join_with "/" elems) [] = Some u ∧ URL_String (JoinPath malformed (base_url a slash) elems) = URL_String u.
Proof.
  intros Ha He Hn. pose proof Ha as [(_ & Hsn & [_ _ Hhn]) Hb].
  assert (forallb (λ c, plain c || is_char "/" c) (target_path a (join_with "/" elems)) = true) as Hp.
  { unfold target_path. rewrite forallb_app, base_plain by done. cbn [forallb]. by rewrite join_plain. }
  unfold request_url. cbn [fmap list_fmap join_with]. rewrite (plain_set_path _ _ Hp). eexists. split; [done|].
  unfold JoinPath. rewrite (base_url_path a slash Ha), last_no_slash by done. cbn [andb].
  assert (base_of (ad_segs a ++ elems) = target_path a (join_with "/" elems)) as Hbase.
  { unfold target_path. rewrite <-base_join by done. unfold base_of. by rewrite bind_app. }
  destruct (base_text_starts (ad_segs a) slash) as [E|E].
  - assert (ad_segs a = []) as Hs0 by (unfold base_text in E; by destruct (ad_segs a)).
    assert (starts ["/"%char] (base_text (ad_segs a) slash) = false) as -> by (by rewrite E).
    rewrite E. change ("/"%char :: []) with (base_text [] true). rewrite path_Join_below by done. cbn [app]. rewrite base_join by done.
    cbn [drop]. rewrite plain_set_path by by apply join_plain. destruct (join_seg elems He Hn). unfold target_path. rewrite Hs0.
    apply slash_written; [done..| | |]; try done. by apply join_plain.
  - rewrite E, path_Join_below by (done || by intros E0; rewrite E0 in E). by rewrite Hbase, plain_set_path.
Qed.

Section Sent.
Context (ip : text → option text) (url_error : string → string) (malformed : url → text → url).
Context `{!TimeText Z} (marshal_error : error) (http_ParseTime : string → option Z).
Context {S : Type} (Do : http_request → S → result Response * S).

Lemma control_client_made a slash (ts : option (S → result string * S)) : address_ok a →
  newDCMClient ip url_error (control_plane_text a slash) ts = Ok (mkDcmClient (base_url a slash) ts).
Proof.
  intros [Hs Hb]. pose proof Hs as (_ & _ & [_ _ Hhn]). unfold newDCMClient, url_parse, control_plane_text. rewrite chars_of_chars.
  pose proof (Parse_host ip (ad_scheme a) (ad_host a) (base_text (ad_segs a) slash) [] Hs (base_text_starts _ _)
    ltac:(by apply path_chars_plain, base_text_plain) eq_refl) as HP. cbn [query_text] in HP. rewrite app_nil_r in HP.
  rewrite HP, plain_set_path by by apply base_text_plain. cbn [u_Host]. by rewrite bool_decide_eq_false_2.
Qed.

(** What the control plane gets: a request for a path below its address, with
    the document and the token. *)
Definition sent_headers (auth : option string) : headers :=
  match auth with
  | Some a => Header_Set "Authorization" a (Header_Set "Content-Type" "application/json" ∅)
  | None => Header_Set "Content-Type" "application/json" ∅
  end.
Definition control_request (method : string) (a : address) (elems : list text) (auth : option string) (doc : json) : request :=
  let path := of_chars (base_of (ad_segs a ++ elems)) in
  mkRequest method path "" path (sent_headers auth) [] (Some doc) Background.

Lemma exchange_sent a slash ts call method elems doc s :
  address_ok a → Forall seg_ok elems → elems ≠ [] →
  let c := mkDcmClient (base_url a slash) ts in
  let '(token, s1) := ask_token c s in
  match setAuthHeader token with
  | Err e => exchange ip url_error malformed marshal_error Do c call method elems (Some doc) s = (Err (EWrap call e), s1)
  | Ok auth => ∃ req, received ip req = Some (control_request method a elems auth doc) ∧
      exchange ip url_error malformed marshal_error Do c call method elems (Some doc) s =
      match Do req s1 with
      | (Err e, s) => (Err (EWrap (call ++ " request failed") e), s)
      | (Ok resp, s) => (Ok resp, s)
      end
  end.
Proof.
  intros Ha He Hn c. destruct (endpoint_text malformed a slash elems Ha He Hn) as (u & Hu & Ht).
  pose proof (elems_tail_ok elems He Hn) as Htail. unfold exchange. cbn [baseURL c]. rewrite Ht.
  rewrite (request_made ip url_error a _ _ [] method (Some doc) u Ha Htail) by done. cbn [hr_Method hr_URL hr_Header hr_Body].
  destruct (ask_token c s) as [token s1]. destruct (setAuthHeader token) as [auth|e]; [|done]. eexists. split; [|done].
  assert (set_auth auth (mkHttpRequest method u (Header_Set "Content-Type" "application/json" ∅) (Some doc)) =
    mkHttpRequest method u (sent_headers auth) (Some doc)) as -> by (by destruct auth).
  rewrite (proj2 (sent_received ip a _ _ [] method (sent_headers auth) (Some doc) u Ha Htail ltac:(constructor) Hu)).
  assert (base_of (ad_segs a ++ elems) = target_path a (join_with "/" elems)) as Hbase.
  { unfold target_path. rewrite <-base_join by done. unfold base_of. by rewrite bind_app. }
  assert (forallb (λ c, plain c || is_char "/" c) (target_path a (join_with "/" elems)) = true) as Hp.
  { rewrite <-Hbase. apply base_plain, Forall_app. by destruct Ha. }
  unfold control_request, raw_path. rewrite Hbase, escape_plain, bool_decide_eq_true_2 by done. cbn [fmap list_fmap]. do 2 f_equal.
  unfold request_url in Hu. rewrite plain_set_path in Hu by done. injection Hu as <-. unfold RequestURI, EscapedPath.
  cbn [u_Opaque u_RawPath u_Path]. rewrite (bool_decide_eq_true_2 (@nil ascii = [])) by done. cbn [negb andb].
  rewrite bool_decide_eq_false_2, escape_plain by (done || by apply plain_not_star). rewrite app_nil_r.
  pose proof (target_starts a (join_with "/" elems)) as [p' ->]%starts_inv. done.
Qed.

Lemma agents_path_ok : Forall seg_ok agents_path.
Proof. by repeat constructor. Qed.

Lemma agent_path_ok id : seg_ok (chars id) → Forall seg_ok (agents_path ++ [chars id; chars "heartbeat"]).
Proof. intros Hid. apply Forall_app. split; [apply agents_path_ok|]. constructor; [done|]. by repeat constructor. Qed.

(** The requests to the control plane.  Whatever base path its address has, with
    or without a slash at the end: a client made for it registers with a POST of
    the payload's document to the collection of agents below that path and
    sends heartbeats with a PUT below the agent's own entry, each with the token
    the source gives for it and none when it gives none; no request is made
    without the token that was asked for; and the results are those the
    registrar is modelled with. *)
Theorem control_plane_requests a slash (ts : option (S → result string * S)) c :
  address_ok a → newDCMClient ip url_error (control_plane_text a slash) ts = Ok c →
  ∀ s, let '(token, s1) := ask_token c s in
  (∀ now p doc, registration_json p = Some doc →
     match setAuthHeader token with
     | Err _ => ∀ answer, register ip url_error malformed marshal_error http_ParseTime Do c now p s = (Dcm.register http_ParseTime now token answer, s1)
     | Ok auth => ∃ req, received ip req = Some (control_request "POST" a agents_path auth doc) ∧
         register ip url_error malformed marshal_error http_ParseTime Do c now p s =
         (let '(answer, s2) := Do req s1 in (Dcm.register http_ParseTime now token answer, s2))
     end) ∧
  (∀ id p doc, seg_ok (chars id) → heartbeat_json p = Some doc →
     match setAuthHeader token with
     | Err _ => ∀ answer, heartbeat ip url_error malformed marshal_error Do c id p s = (Dcm.heartbeat token answer, s1)
     | Ok auth => ∃ req, received ip req = Some (control_request "PUT" a (agents_path ++ [chars id; chars "heartbeat"]) auth doc) ∧
         heartbeat ip url_error malformed marshal_error Do c id p s = (let '(answer, s2) := Do req s1 in (Dcm.heartbeat token answer, s2))
     end).
Proof.
  intros Ha Hc s. rewrite control_client_made in Hc by done. injection Hc as <-. destruct (ask_token _ s) as [token s1] eqn:Et. split.
  - intros now p doc Hd. pose proof (exchange_sent a slash ts "registration" "POST" agents_path doc s Ha) as Hx. cbn zeta in Hx. rewrite Et in Hx.
    specialize (Hx agents_path_ok ltac:(done)). unfold register, Dcm.register. rewrite Hd.
    destruct (setAuthHeader token) as [auth|e]; [|intros answer; by rewrite Hx].
    destruct Hx as (req & Hr & Hx). exists req. split; [done|]. rewrite Hx. by destruct (Do req s1) as [[resp|e] s2].
  - intros id p doc Hid Hd.
    pose proof (exchange_sent a slash ts "heartbeat" "PUT" (agents_path ++ [chars id; chars "heartbeat"]) doc s Ha) as Hx. cbn zeta in Hx. rewrite Et in Hx.
    specialize (Hx (agent_path_ok id Hid) ltac:(done)). unfold heartbeat, Dcm.heartbeat. rewrite Hd.
    destruct (setAuthHeader token) as [auth|e]; [|intros answer; by rewrite Hx].
    destruct Hx as (req & Hr & Hx). exists req. split; [done|]. rewrite Hx. by destruct (Do req s1) as [[resp|e] s2].
Qed.
End Sent.

(** A heartbeat to a control plane below a base path. *)
Example heartbeat_endpoint :
  of_chars (URL_String (JoinPath (λ u _, u) (base_url (mkAddress (chars "https") (chars "cp:8443") [chars "dcm"]) true)
    (agents_path ++ [chars "agent-1"; chars "heartbeat"]))) = "https://cp:8443/dcm/api/v1alpha1/agents/agent-1/heartbeat".
Proof. by vm_compute. Qed.
