(* ===== verification/Client.v ===== *)
(** * Life cycle of the messaging client

    Models internal/messaging/client.go: connecting, the set-up of streams and
    durable consumers with its retries, the start of consumption, publishing,
    lag reporting and the shut-down.  These run in several goroutines (NATS
    callbacks, the background retry, the caller of Stop) on one [Client] with
    two mutexes and a few atomics.  A method is a tree of atomic actions, a
    state of the system the client, the NATS side and the code the goroutines
    have still to run; every interleaving, every answer of the broker and every
    passing of time is a list of choices.

    The theorems are proved in a small rely-guarantee logic: a mutex owns what
    it guards, and every action of a goroutine keeps what the others rely on. *)

From S2P Require Import Transition.
From S2P Require Import Prelude GoStrings Backoff Provider FileStore Json Effects Routing Topics Messaging.
#[local] Open Scope string_scope.
#[local] Open Scope Z_scope.

(** ** JetStream *)

Record StreamConfig := mkStream { st_Name : string; st_Subjects : list string }.
Inductive AckPolicy := AckExplicitPolicy | AckNonePolicy | AckAllPolicy.
Record ConsumerConfig := mkConsumer {
  co_Durable : string; co_FilterSubject : string; co_AckPolicy : AckPolicy; co_AckWait : Z; co_MaxDeliver : Z
}.

(** The requests by which the client sets up streams and durable consumers. *)
Inductive js_request :=
  | CreateOrUpdateStream (c : StreamConfig)
  | CreateOrUpdateConsumer (stream : string) (c : ConsumerConfig).

Inductive js_error := ErrStreamNotFound | JSError (text : string).
Definition js_text (e : js_error) : error :=
  match e with ErrStreamNotFound => ENew "nats: stream not found" | JSError t => ENew t end.

(** A consume loop ([ConsumeContext]) on a durable consumer: it takes messages,
    only finishes those it has (since when), or is closed. *)
Inductive loop_state := Consuming | Draining (since : Z) | Closed.
Record loop := mkLoop { lp_durable : string; lp_state : loop_state }.

#[export] Instance loop_state_eq_dec : EqDecision loop_state.
Proof. solve_decision. Defined.

(** ** The client *)

Record client := mkClient {
  conn : bool;
  js : bool;
  mainCons : option string;
  cancelCons : option string;
  consumers : list nat;
  consuming : bool;
  connected : bool;
  stopped : bool;
  consumeRequested : bool;
  mainHandler : bool;
  cancelHandler : bool;
  setupDone : bool;
  retrying : bool;
  stopCh : bool;
  onSetupReady : bool
}.

Definition NewClient : client := mkClient false false None None [] false false false false false false false false false false.

(** Set-before-Start fields; whether they are set is all the client looks at. *)
Definition SetMainHandler (c : client) : client :=
  mkClient (conn c) (js c) (mainCons c) (cancelCons c) (consumers c) (consuming c) (connected c) (stopped c) (consumeRequested c)
    true (cancelHandler c) (setupDone c) (retrying c) (stopCh c) (onSetupReady c).
Definition SetCancelHandler (c : client) : client :=
  mkClient (conn c) (js c) (mainCons c) (cancelCons c) (consumers c) (consuming c) (connected c) (stopped c) (consumeRequested c)
    (mainHandler c) true (setupDone c) (retrying c) (stopCh c) (onSetupReady c).
Definition SetOnSetupReady (c : client) : client :=
  mkClient (conn c) (js c) (mainCons c) (cancelCons c) (consumers c) (consuming c) (connected c) (stopped c) (consumeRequested c)
    (mainHandler c) (cancelHandler c) (setupDone c) (retrying c) (stopCh c) true.

(** The fields behind [mu], those behind [setupMu] and the atomics. *)
Definition set_mu (cn j : bool) (m cc : option string) (cs : list nat) (k : bool) (c : client) : client :=
  mkClient cn j m cc cs k (connected c) (stopped c) (consumeRequested c) (mainHandler c) (cancelHandler c)
    (setupDone c) (retrying c) (stopCh c) (onSetupReady c).
Definition set_setup (d r : bool) (c : client) : client :=
  mkClient (conn c) (js c) (mainCons c) (cancelCons c) (consumers c) (consuming c) (connected c) (stopped c) (consumeRequested c)
    (mainHandler c) (cancelHandler c) d r (stopCh c) (onSetupReady c).
Definition set_atomics (cd s q ch : bool) (c : client) : client :=
  mkClient (conn c) (js c) (mainCons c) (cancelCons c) (consumers c) (consuming c) cd s q (mainHandler c) (cancelHandler c)
    (setupDone c) (retrying c) ch (onSetupReady c).

Inductive mutex := Mu | SetupMu.

(** Noted for the theorems: the calls of [onSetupReady], and that the restart
    processing has returned. *)
Inductive note := ReadyCalled | RestartDone.

(** The state the goroutines share.  [mu] and [setupMu] are the holders of the
    mutexes; [taken]: Stop has taken the consume loops; [retrier]: the goroutine
    that set [retrying]; [stopper]: the call of Stop that runs its function. *)
Record world := mkWorld {
  cl : client;
  mu : option nat;
  setupMu : option nat;
  loops : list loop;
  dialed : bool;
  conn_closed : bool;
  asked : list js_request;
  accepted : list js_request;
  published : list (string * string * option string);
  now : Z;
  notes : list note;
  taken : bool;
  retrier : option nat;
  stopper : option nat
}.

Definition upd_cl (f : client → client) (w : world) : world :=
  mkWorld (f (cl w)) (mu w) (setupMu w) (loops w) (dialed w) (conn_closed w) (asked w) (accepted w) (published w) (now w)
    (notes w) (taken w) (retrier w) (stopper w).
Definition upd_locks (m s : option nat) (w : world) : world :=
  mkWorld (cl w) m s (loops w) (dialed w) (conn_closed w) (asked w) (accepted w) (published w) (now w) (notes w) (taken w)
    (retrier w) (stopper w).
Definition upd_loops (l : list loop) (w : world) : world :=
  mkWorld (cl w) (mu w) (setupMu w) l (dialed w) (conn_closed w) (asked w) (accepted w) (published w) (now w) (notes w) (taken w)
    (retrier w) (stopper w).
Definition upd_conn (d o : bool) (w : world) : world :=
  mkWorld (cl w) (mu w) (setupMu w) (loops w) d o (asked w) (accepted w) (published w) (now w) (notes w) (taken w)
    (retrier w) (stopper w).
Definition upd_js (a b : list js_request) (p : list (string * string * option string)) (w : world) : world :=
  mkWorld (cl w) (mu w) (setupMu w) (loops w) (dialed w) (conn_closed w) a b p (now w) (notes w) (taken w) (retrier w) (stopper w).
Definition upd_now (t : Z) (w : world) : world :=
  mkWorld (cl w) (mu w) (setupMu w) (loops w) (dialed w) (conn_closed w) (asked w) (accepted w) (published w) t (notes w) (taken w)
    (retrier w) (stopper w).
Definition upd_ghost (n : list note) (t : bool) (r s : option nat) (w : world) : world :=
  mkWorld (cl w) (mu w) (setupMu w) (loops w) (dialed w) (conn_closed w) (asked w) (accepted w) (published w) (now w) n t r s.

(** ** Actions *)

Inductive act :=
  | Lock (l : mutex) | Unlock (l : mutex)
  (* atomics and the stop channel *)
  | LoadStopped | StoreStopped | CloseStopCh
  | LoadConsumeRequested | StoreConsumeRequested
  | StoreConnected (b : bool)
  (* set before Start *)
  | HasHandlers | HasReady
  (* guarded by setupMu *)
  | ReadSetupDone | WriteSetupDone | SwapRetrying | ClearRetrying
  (* guarded by mu *)
  | ReadConsuming | ReadCons | ReadJS | WriteConn | WriteMainCons (m : string) | WriteSetup (m c : string)
  | AppendConsumers (a b : nat) | TakeConsumers
  (* NATS *)
  | Connect | ConnIsConnected | CloseConn
  | NewJetStream | Request (r : js_request)
  | Consume (durable : string) | StopLoop (id : nat) | DrainLoop (id : nat) | WaitClosed (id : nat) (until : Z)
  | JSPublish (subject data : string) (msgID : option string)
  | ConsumerInfo (durable : string) | CachedInfo (durable : string)
  (* time *)
  | Now | SleepOrStop (until : Z) | TickOrDone
  (* the rest *)
  | Outside (o : op) | Noted (n : note) | Crash | OutOfFuel.

(** What the outside decides about an action. *)
Definition ans (a : act) : Type :=
  match a with
  | Connect | NewJetStream | Consume _ | JSPublish _ _ _ => option error
  | Request _ => option js_error
  | ConnIsConnected | SleepOrStop _ | TickOrDone => bool
  | ConsumerInfo _ => result (Z * Z)
  | CachedInfo _ => Z * Z
  | Outside o => resp o
  | _ => unit
  end.

Definition reply (a : act) : Type :=
  match a with
  | LoadStopped | LoadConsumeRequested | HasHandlers | HasReady | ReadSetupDone | SwapRetrying | ReadConsuming | ReadJS
  | ConnIsConnected | SleepOrStop _ | TickOrDone => bool
  | ReadCons => option string * option string
  | TakeConsumers => list nat * bool
  | Connect | NewJetStream | JSPublish _ _ _ => option error
  | Request _ => option js_error
  | Consume _ => result nat
  | ConsumerInfo _ => result (Z * Z)
  | CachedInfo _ => Z * Z
  | Now => Z
  | Outside o => resp o
  | _ => unit
  end.

Inductive outcome (A : Type) := Blocked | Fault | Next (a : A) (w : world).
Arguments Blocked {A}.
Arguments Fault {A}.
Arguments Next {A} a w.

Definition owner (l : mutex) (w : world) : option nat := match l with Mu => mu w | SetupMu => setupMu w end.
Definition set_owner (l : mutex) (o : option nat) (w : world) : world :=
  match l with Mu => upd_locks o (setupMu w) w | SetupMu => upd_locks (mu w) o w end.

(** The mutex an access needs. *)
Definition guard (a : act) : option mutex :=
  match a with
  | ReadSetupDone | WriteSetupDone | SwapRetrying | ClearRetrying => Some SetupMu
  | ReadConsuming | ReadCons | ReadJS | WriteConn | WriteMainCons _ | WriteSetup _ _ | AppendConsumers _ _ | TakeConsumers => Some Mu
  | Unlock l => Some l
  | _ => None
  end.

Definition close_loop (l : loop) : loop := mkLoop (lp_durable l) Closed.
(** Draining a loop that drains already, or is closed, changes nothing. *)
Definition drain_loop (t : Z) (l : loop) : loop :=
  match lp_state l with Consuming => mkLoop (lp_durable l) (Draining t) | _ => l end.
Definition close_drained (l : loop) : loop :=
  match lp_state l with Draining _ => mkLoop (lp_durable l) Closed | _ => l end.
Definition loop_is_closed (w : world) (id : nat) : bool :=
  match loops w !! id with Some l => bool_decide (lp_state l = Closed) | None => true end.

(** What an action of goroutine [i] does. *)
Definition effect (i : nat) (a : act) : ans a → world → outcome (reply a) :=
  match a return ans a → world → outcome (reply a) with
  | Lock l => λ _ w, match owner l w with None => Next tt (set_owner l (Some i) w) | Some _ => Blocked end
  | Unlock l => λ _ w, Next tt (set_owner l None w)
  | LoadStopped => λ _ w, Next (stopped (cl w)) w
  | StoreStopped => λ _ w, Next tt (upd_cl (λ c, set_atomics (connected c) true (consumeRequested c) (stopCh c) c) w)
  | CloseStopCh => λ _ w, Next tt (upd_cl (λ c, set_atomics (connected c) (stopped c) (consumeRequested c) true c) w)
  | LoadConsumeRequested => λ _ w, Next (consumeRequested (cl w)) w
  | StoreConsumeRequested => λ _ w, Next tt (upd_cl (λ c, set_atomics (connected c) (stopped c) true (stopCh c) c) w)
  | StoreConnected b => λ _ w, Next tt (upd_cl (λ c, set_atomics b (stopped c) (consumeRequested c) (stopCh c) c) w)
  | HasHandlers => λ _ w, Next (mainHandler (cl w) && cancelHandler (cl w)) w
  | HasReady => λ _ w, Next (onSetupReady (cl w)) w
  | ReadSetupDone => λ _ w, Next (setupDone (cl w)) w
  | WriteSetupDone => λ _ w, Next tt (upd_cl (λ c, set_setup true (retrying c) c) w)
  | SwapRetrying => λ _ w,
      Next (retrying (cl w))
        (upd_ghost (notes w) (taken w) (if retrying (cl w) then retrier w else Some i) (stopper w)
           (upd_cl (λ c, set_setup (setupDone c) true c) w))
  | ClearRetrying => λ _ w,
      Next tt (upd_ghost (notes w) (taken w) None (stopper w) (upd_cl (λ c, set_setup (setupDone c) false c) w))
  | ReadConsuming => λ _ w, Next (consuming (cl w)) w
  | ReadCons => λ _ w, Next (mainCons (cl w), cancelCons (cl w)) w
  | ReadJS => λ _ w, Next (js (cl w)) w
  | WriteConn => λ _ w,
      Next tt (upd_cl (λ c, set_mu true (js c) (mainCons c) (cancelCons c) (consumers c) (consuming c) c) w)
  | WriteMainCons m => λ _ w,
      Next tt (upd_cl (λ c, set_mu (conn c) (js c) (Some m) (cancelCons c) (consumers c) (consuming c) c) w)
  | WriteSetup m cc => λ _ w,
      Next tt (upd_cl (λ c, set_mu true true (Some m) (Some cc) (consumers c) (consuming c) c) w)
  | AppendConsumers a b => λ _ w,
      Next tt (upd_cl (λ c, set_mu (conn c) (js c) (mainCons c) (cancelCons c) (consumers c ++ [a; b]) true c) w)
  | TakeConsumers => λ _ w,
      Next (consumers (cl w), conn (cl w))
        (upd_ghost (notes w) true (retrier w) (stopper w)
           (upd_cl (λ c, set_mu (conn c) (js c) (mainCons c) (cancelCons c) [] (consuming c) c) w))
  | Connect => λ e w, match e with Some e => Next (Some e) w | None => Next None (upd_conn true (conn_closed w) w) end
  | ConnIsConnected => λ b w, Next b w
  | CloseConn => λ _ w, Next tt (upd_conn (dialed w) true w)
  | NewJetStream => λ e w, Next e w
  | Request r => λ e w,
      Next e (upd_js (asked w ++ [r]) (if e then accepted w else accepted w ++ [r]) (published w) w)
  | Consume d => λ e w,
      match e with
      | Some e => Next (Err e) w
      | None => Next (Ok (length (loops w))) (upd_loops (loops w ++ [mkLoop d Consuming]) w)
      end
  | StopLoop id => λ _ w, Next tt (upd_loops (alter close_loop id (loops w)) w)
  | DrainLoop id => λ _ w, Next tt (upd_loops (alter (drain_loop (now w)) id (loops w)) w)
  | WaitClosed id until => λ _ w, if loop_is_closed w id || (until <=? now w) then Next tt w else Blocked
  | JSPublish s d id => λ e w,
      match e with
      | Some e => Next (Some e) w
      | None => Next None (upd_js (asked w) (accepted w) (published w ++ [(s, d, id)]) w)
      end
  | ConsumerInfo _ => λ r w, Next r w
  | CachedInfo _ => λ r w, Next r w
  | Now => λ _ w, Next (now w) w
  | SleepOrStop until => λ stop w,
      if stop then if stopCh (cl w) then Next true w else Blocked
      else if until <=? now w then Next false w else Blocked
  | TickOrDone => λ b w, Next b w
  | Outside o => λ r w, Next r w
  | Noted n => λ _ w, Next tt (upd_ghost (notes w ++ [n]) (taken w) (retrier w) (stopper w) w)
  | Crash => λ _ w, Blocked
  | OutOfFuel => λ _ w, Fault
  end.

(** An access without its mutex is a fault. *)
Definition perform (i : nat) (a : act) (x : ans a) (w : world) : outcome (reply a) :=
  match guard a with
  | Some l => if bool_decide (owner l w = Some i) then effect i a x w else Fault
  | None => effect i a x w
  end.

(** ** Code *)

Inductive code (A : Type) : Type :=
  | Done (a : A)
  | Act (a : act) (k : reply a → code A).
Arguments Done {A} a.
Arguments Act {A} a k.

Fixpoint code_bind {A B} (f : A → code B) (p : code A) : code B :=
  match p with
  | Done a => f a
  | Act a k => Act a (λ r, code_bind f (k r))
  end.
#[export] Instance code_mret : MRet code := λ A a, Done a.
#[export] Instance code_mbind : MBind code := λ A B f p, code_bind f p.

Definition atom (a : act) : code (reply a) := Act a (λ r, Done r).

(** Handlers and restart processing, whose operations do not touch the client. *)
Fixpoint outside {A} (p : prog A) : code A :=
  match p with
  | Ret a => Done a
  | Do o k => Act (Outside o) (λ r, outside (k r))
  end.

Fixpoint each {A} (f : A → code unit) (l : list A) : code unit :=
  match l with
  | [] => mret tt
  | x :: l => _ ← f x; each f l
  end.

(** The goroutines of the client and of its callers. *)
Inductive goroutine :=
  | GStart
  | GSetup
  | GRetry
  | GStop
  | GWait
  | GPublish (subject data : string) (msgID : option string)
  | GLag.

(** ** The methods *)

Definition drainTimeout : Z := 5 * Second.
Definition shutdownDrainTimeout : Z := 5 * Second.
Definition requestStreamRetryInterval : Z := 2 * Second.
Definition requestStreamRetryTimeout : Z := 30 * Second.

Section Methods.
Context (cfg : ClientConfig).
(** [drainCancelTopic], and the restart processing main.go's callback runs. *)
Context (drain : prog unit) (restart : fun_ (option error)).

Definition topics : TopicNames := DeriveTopicNames (cc_AgentName cfg) (cc_TopicName cfg).

Definition lock (l : mutex) : code unit := atom (Lock l).
Definition unlock (l : mutex) : code unit := atom (Unlock l).
(** [defer mu.Unlock()] *)
Definition locked {A} (l : mutex) (body : code A) : code A := _ ← lock l; r ← body; _ ← unlock l; mret r.

Definition retry_stream : js_request := CreateOrUpdateStream (mkStream (RetryStream topics) [Retry topics]).
Definition health_stream : js_request := CreateOrUpdateStream (mkStream "dcm-health" [SubjectHealth]).
Definition main_consumer : js_request :=
  CreateOrUpdateConsumer RequestStreamName
    (mkConsumer (MainConsumer topics) (Main topics) AckExplicitPolicy (cc_AckWait cfg) (cc_MaxDeliver cfg)).
Definition cancel_consumer : js_request :=
  CreateOrUpdateConsumer RequestStreamName
    (mkConsumer (CancelConsumer topics) (Cancel topics) AckExplicitPolicy (cc_CancelAckWait cfg) 0).
Definition retry_consumer : js_request :=
  CreateOrUpdateConsumer (RetryStream topics) (mkConsumer (RetryConsumer topics) "" AckExplicitPolicy (cc_AckWait cfg) 0).

Definition request (context : string) (r : js_request) : code (option error) :=
  e ← atom (Request r);
  mret (match e : option js_error with Some e => Some (EWrap context (js_text e)) | None => None end).

Definition initInternalStreams : code (option error) :=
  e ← request "failed to create retry stream" retry_stream;
  match e with
  | Some e => mret (Some e)
  | None => request "failed to create health stream" health_stream
  end.

(** Two seconds lie between two attempts and the last is made after the
    deadline of thirty, so there are at most seventeen. *)
Definition request_attempts : nat := 17.

Fixpoint create_loop (fuel : nat) (deadline : Z) (r : js_request) (durable : string) : code (result string) :=
  match fuel with
  | O => _ ← atom OutOfFuel; mret (Ok durable)
  | S fuel =>
      e ← atom (Request r);
      match e : option js_error with
      | None => mret (Ok durable)
      | Some e =>
          t ← atom Now;
          if deadline <? (t : Z) then mret (Err (EWrap ("timed out waiting for stream " +:+ Quote RequestStreamName) (js_text e)))
          else
            t ← atom Now;
            stop ← atom (SleepOrStop ((t : Z) + requestStreamRetryInterval));
            if stop : bool then mret (Err (ENew "client stopped")) else create_loop fuel deadline r durable
      end
  end.

(** The context is [context.Background()], which is never done. *)
Definition createRequestConsumer (durable filterSubject : string) (ackWait maxDeliver : Z) : code (result string) :=
  t ← atom Now;
  create_loop request_attempts ((t : Z) + requestStreamRetryTimeout)
    (CreateOrUpdateConsumer RequestStreamName (mkConsumer durable filterSubject AckExplicitPolicy ackWait maxDeliver)) durable.

Definition initConsumers : code (result (string * string)) :=
  m ← createRequestConsumer (MainConsumer topics) (Main topics) (cc_AckWait cfg) (cc_MaxDeliver cfg);
  match m with
  | Err e => mret (Err (EWrap "failed to create main consumer" e))
  | Ok m =>
      c ← createRequestConsumer (CancelConsumer topics) (Cancel topics) (cc_CancelAckWait cfg) 0;
      match c with
      | Err e => mret (Err (EWrap "failed to create cancel consumer" e))
      | Ok c =>
          e ← request "failed to create retry consumer" retry_consumer;
          match e with
          | Some e => mret (Err e)
          | None => _ ← locked Mu (atom (WriteMainCons m)); mret (Ok (m, c))
          end
      end
  end.

Definition isConsuming : code bool := locked Mu (atom ReadConsuming).

Definition begin_locked : code (option error) :=
  k ← atom ReadConsuming;
  s ← (if k : bool then mret true else atom LoadStopped);
  if s : bool then mret None
  else
    cons ← atom ReadCons;
    match cons : option string * option string with
    | (Some m, Some c) =>
        x ← atom (Consume c);
        match x : result nat with
        | Err e => mret (Some e)
        | Ok cancelCC =>
            y ← atom (Consume m);
            match y : result nat with
            | Err e => _ ← atom (StopLoop cancelCC); mret (Some e)
            | Ok mainCC =>
                s ← atom LoadStopped;
                if s : bool then _ ← atom (StopLoop cancelCC); _ ← atom (StopLoop mainCC); mret None
                else _ ← atom (AppendConsumers cancelCC mainCC); mret None
            end
        end
    | _ => mret None
    end.

Definition beginConsuming : code (option error) := locked Mu begin_locked.

Definition StartConsuming : code unit := _ ← atom StoreConsumeRequested; _ ← beginConsuming; mret tt.

(** The callback main.go registers; an unrecovered panic ends the process. *)
Definition ready_callback : code unit :=
  _ ← atom (Noted ReadyCalled);
  x ← outside restart;
  match x with
  | Panicked => atom Crash
  | Val _ => _ ← atom (Noted RestartDone); StartConsuming
  end.

Definition finishSetup : code bool :=
  q ← (if cc_DeferConsume cfg then atom LoadConsumeRequested else mret true);
  if negb q then
    r ← atom HasReady;
    _ ← (if r : bool then ready_callback else mret tt);
    q ← atom LoadConsumeRequested;
    if q : bool then isConsuming else mret true
  else
    e ← beginConsuming;
    mret (match e with Some _ => false | None => true end).

Definition setupStreamsAndConsume : code bool :=
  e ← atom NewJetStream;
  match e : option error with
  | Some _ => mret false
  | None =>
      e ← initInternalStreams;
      match e with
      | Some _ => mret false
      | None =>
          r ← initConsumers;
          match r with
          | Err _ => mret false
          | Ok (mainCons, cancelCons) =>
              _ ← outside drain;
              _ ← lock Mu;
              s ← atom LoadStopped;
              if s : bool then _ ← unlock Mu; mret false
              else _ ← atom (WriteSetup mainCons cancelCons); _ ← unlock Mu; finishSetup
          end
      end
  end.

Definition attempt_locked : code bool :=
  d ← atom ReadSetupDone;
  s ← (if d : bool then mret true else atom LoadStopped);
  if s : bool then mret true
  else
    ok ← setupStreamsAndConsume;
    if ok : bool then _ ← atom WriteSetupDone; mret true else mret false.

Definition attemptSetup : code bool := locked SetupMu attempt_locked.

(** The goroutines a function starts as its last action. *)
Definition doSetup : code (list goroutine) :=
  ok ← attemptSetup;
  if ok : bool then mret []
  else
    alreadyRetrying ← locked SetupMu (atom SwapRetrying);
    mret (if alreadyRetrying : bool then [] else [GRetry]).

Definition clear_retrying : code unit := locked SetupMu (atom ClearRetrying).

(** One round; it goes on as [GRetry]. *)
Definition retrySetupInBackground : code (list goroutine) :=
  t ← atom Now;
  stop ← atom (SleepOrStop ((t : Z) + requestStreamRetryTimeout));
  if stop : bool then _ ← clear_retrying; mret []
  else
    ok ← attemptSetup;
    if ok : bool then _ ← clear_retrying; mret [] else mret [GRetry].

(** Start of the client; the callbacks it registers are [Callback] below. *)
Definition Start : code (option error * list goroutine) :=
  h ← atom HasHandlers;
  if negb (h : bool) then mret (Some (ENew "handlers must be set before Start"), [])
  else
    e ← atom Connect;
    match e : option error with
    | Some e => mret (Some (EWrap "failed to connect to NATS" e), [])
    | None =>
        _ ← locked Mu (atom WriteConn);
        b ← atom ConnIsConnected;
        if b : bool then _ ← atom (StoreConnected true); mret (None, [GSetup]) else mret (None, [])
    end.

Definition wait_closed (timeout : Z) (id : nat) : code unit := t ← atom Now; atom (WaitClosed id ((t : Z) + timeout)).

(** The function [stopOnce] runs. *)
Definition Stop : code unit :=
  _ ← atom StoreStopped;
  _ ← atom CloseStopCh;
  cs ← locked Mu (atom TakeConsumers);
  let '(consumers, conn) := (cs : list nat * bool) in
  _ ← each (λ id, atom (DrainLoop id)) consumers;
  _ ← each (wait_closed shutdownDrainTimeout) consumers;
  _ ← each (wait_closed drainTimeout) consumers;
  _ ← (if conn then atom CloseConn else mret tt);
  atom (StoreConnected false).

(** One round of the loop; [None]: not yet. *)
Definition WaitUntilReady : code (option bool) :=
  ready ← locked Mu (atom ReadJS);
  if ready : bool then mret (Some true)
  else d ← atom TickOrDone; mret (if d : bool then Some false else None).

(** [Publish] without, [PublishWithMsgID] with a message id. *)
Definition publish (subject data : string) (msgID : option string) : code (option error) :=
  j ← locked Mu (atom ReadJS);
  if j : bool then atom (JSPublish subject data msgID) else mret (Some (ENew "jetstream not initialized")).
Definition Publish (subject data : string) : code (option error) := publish subject data None.
Definition PublishWithMsgID (subject msgID data : string) : code (option error) := publish subject data (Some msgID).

(** [int64(NumPending) + int64(NumAckPending)]: the first is a uint64, the
    second an int. *)
Definition lag_of (info : Z * Z) : Z := wrap64 (wrap64 info.1 + info.2).

Definition ConsumerLag : code Z :=
  cons ← locked Mu (atom ReadCons);
  match (cons : option string * option string).1 with
  | None => mret 0
  | Some d =>
      info ← atom (ConsumerInfo d);
      match info : result (Z * Z) with
      | Ok info => mret (lag_of info)
      | Err _ => cached ← atom (CachedInfo d); mret (lag_of cached)
      end
  end.

Definition body (g : goroutine) : code (list goroutine) :=
  match g with
  | GStart => r ← Start; mret r.2
  | GSetup => doSetup
  | GRetry => retrySetupInBackground
  | GStop => _ ← Stop; mret []
  | GWait => r ← WaitUntilReady; mret (match r with Some _ => [] | None => [GWait] end)
  | GPublish s d id => _ ← publish s d id; mret []
  | GLag => _ ← ConsumerLag; mret []
  end.

(** ** The system *)

(** A goroutine: what it runs, and what of it is left. *)
Record thread := mkThread { role : goroutine; left_ : option (code (list goroutine)) }.
Record system := mkSystem { threads : list thread; sys : world; faulted : bool }.

Definition spawn (g : goroutine) : thread := mkThread g (Some (body g)).

(** The scheduler's choices: a goroutine acts, with the answers it gets; time
    passes; a loop has finished its messages; the NATS library reports a
    (re)connection or a disconnection; Stop or another method is called. *)
Inductive choice :=
  | Run (i : nat) (ρ : ∀ a, ans a)
  | Tick (d : Z)
  | Drained (id : nat)
  | Callback (up : bool)
  | CallStop
  | CallWait
  | CallPublish (subject data : string) (msgID : option string)
  | CallLag.

(** A goroutine that ends is replaced by the first it starts. *)
Definition end_thread (i : nat) (t : thread) (gs : list goroutine) (ts : list thread) : list thread :=
  match gs with
  | [] => <[i := mkThread (role t) None]> ts
  | g :: gs => <[i := spawn g]> ts ++ (spawn <$> gs)
  end.

Definition step (s : system) (c : choice) : system :=
  let ts := threads s in
  let w := sys s in
  match c with
  | Run i ρ =>
      match ts !! i with
      | Some t =>
          match left_ t with
          | Some (Done gs) => mkSystem (end_thread i t gs ts) w (faulted s)
          | Some (Act a k) =>
              match perform i a (ρ a) w with
              | Blocked => s
              | Fault => mkSystem ts w true
              | Next r w' => mkSystem (<[i := mkThread (role t) (Some (k r))]> ts) w' (faulted s)
              end
          | None => s
          end
      | None => s
      end
  | Tick d => mkSystem ts (upd_now (now w + Z.max 0 d) w) (faulted s)
  | Drained id => mkSystem ts (upd_loops (alter close_drained id (loops w)) w) (faulted s)
  | Callback up =>
      if dialed w then
        mkSystem (if up then ts ++ [spawn GSetup] else ts)
          (upd_cl (λ c, set_atomics up (stopped c) (consumeRequested c) (stopCh c) c) w) (faulted s)
      else s
  | CallStop =>
      match stopper w with
      | None =>
          if conn (cl w) then
            mkSystem (ts ++ [spawn GStop]) (upd_ghost (notes w) (taken w) (retrier w) (Some (length ts)) w) (faulted s)
          else s
      | Some _ => s
      end
  | CallWait => mkSystem (ts ++ [spawn GWait]) w (faulted s)
  | CallPublish sub d id => mkSystem (ts ++ [spawn (GPublish sub d id)]) w (faulted s)
  | CallLag => mkSystem (ts ++ [spawn GLag]) w (faulted s)
  end.

(** The client as main.go wires it, about to be started. *)
Definition wired : client := SetOnSetupReady (SetCancelHandler (SetMainHandler NewClient)).
Definition fresh_world (t : Z) : world := mkWorld wired None None [] false false [] [] [] t [] false None None.
Definition started (t : Z) : system := mkSystem [spawn GStart] (fresh_world t) false.

Definition run (t : Z) (cs : list choice) : system := fold_left step cs (started t).

End Methods.
