(* ===== verification/ClientSpec.v ===== *)
(** * Properties of the messaging client's life cycle

    The rely-guarantee logic for the goroutines of [Client], the invariant they
    keep, and what follows for every interleaving. *)

From S2P Require Import Prelude GoStrings Backoff Provider FileStore Json Effects Routing Topics Retry Samples Messaging Client.
#[local] Open Scope string_scope.
#[local] Open Scope Z_scope.

Create HintDb stab.

Section Logic.
Context (cfg : ClientConfig).
Abbreviation topics := (topics cfg).

(** ** The invariant *)

Definition topology : list js_request :=
  [retry_stream cfg; health_stream; main_consumer cfg; cancel_consumer cfg; retry_consumer cfg].

Definition idle (w : world) : Prop := ∀ id l, loops w !! id = Some l → lp_state l = Closed.
Definition running (w : world) (a b : nat) : Prop :=
  loops w !! a = Some (mkLoop (CancelConsumer topics) Consuming) ∧ loops w !! b = Some (mkLoop (MainConsumer topics) Consuming) ∧
  ∀ id l, loops w !! id = Some l → id ≠ a → id ≠ b → lp_state l = Closed.

(** What [mu] guards, when nobody holds it. *)
Definition mu_inv (w : world) : Prop :=
  if taken w then consumers (cl w) = []
  else if consuming (cl w) then ∃ a b, consumers (cl w) = [a; b] ∧ running w a b
  else consumers (cl w) = [] ∧ idle w.

(** What [setupMu] guards. *)
Definition setup_inv (w : world) : Prop :=
  (retrying (cl w) = true ↔ retrier w ≠ None) ∧ (consumeRequested (cl w) = false → notes w = []).

Record inv (w : world) : Prop := {
  i_mu : mu w = None → mu_inv w;
  i_setup : setupMu w = None → setup_inv w;
  i_taken : taken w = true → stopped (cl w) = true ∧ stopper w ≠ None;
  i_ch : stopCh (cl w) = true → stopped (cl w) = true;
  i_one : ∀ d id id', loops w !! id = Some (mkLoop d Consuming) → loops w !! id' = Some (mkLoop d Consuming) → id = id';
  i_requested : loops w ≠ [] → consumeRequested (cl w) = true;
  i_notes : consumeRequested (cl w) = true → notes w = [ReadyCalled; RestartDone];
  i_done : setupDone (cl w) = true → consuming (cl w) = true ∨ stopped (cl w) = true;
  i_asked : ∀ r, r ∈ asked w → r ∈ topology;
  i_js : js (cl w) = true → ∀ r, r ∈ topology → r ∈ accepted w;
  i_main : ∀ m, mainCons (cl w) = Some m → m = MainConsumer topics;
  i_cancel : ∀ c, cancelCons (cl w) = Some c → c = CancelConsumer topics;
  i_ready : onSetupReady (cl w) = true;
  i_drain : taken w = false → ∀ id l t, loops w !! id = Some l → lp_state l ≠ Draining t;
  i_since : ∀ id l t, loops w !! id = Some l → lp_state l = Draining t → t ≤ now w;
  i_prefix : notes w `prefix_of` [ReadyCalled; RestartDone]
}.

(** The set-up is done, not wanted any more, or in the hands of the background
    retry. *)
Definition attended (w : world) : Prop := setupDone (cl w) = true ∨ stopped (cl w) = true ∨ retrier w ≠ None.

(** ** What only grows *)

(** Stop has done its work: no loop takes messages, the connection is closed,
    and the handlers had ten seconds to finish. *)
Definition stopped_for_good (w : world) : Prop :=
  taken w = true ∧ conn_closed w = true ∧
  ∀ id l, loops w !! id = Some l → lp_state l = Closed ∨ ∃ t, lp_state l = Draining t ∧ t + 10 * Second ≤ now w.

Record mono (w w' : world) : Prop := {
  m_stopped : stopped (cl w) = true → stopped (cl w') = true;
  m_ch : stopCh (cl w) = true → stopCh (cl w') = true;
  m_requested : consumeRequested (cl w) = true → consumeRequested (cl w') = true;
  m_done : setupDone (cl w) = true → setupDone (cl w') = true;
  m_consuming : consuming (cl w) = true → consuming (cl w') = true;
  m_conn : conn (cl w) = true → conn (cl w') = true;
  m_js : js (cl w) = true → js (cl w') = true;
  m_main : is_Some (mainCons (cl w)) → is_Some (mainCons (cl w'));
  m_cancel : is_Some (cancelCons (cl w)) → is_Some (cancelCons (cl w'));
  m_taken : taken w = true → taken w' = true;
  m_live : taken w = true → ∀ id l, loops w' !! id = Some l → ∃ l0, loops w !! id = Some l0 ∧ (lp_state l = Consuming → l0 = l);
  m_loop : ∀ id l, loops w !! id = Some l → ∃ l', loops w' !! id = Some l' ∧
    (lp_state l = Closed → lp_state l' = Closed) ∧
    (∀ t, lp_state l = Draining t → lp_state l' = Draining t ∨ lp_state l' = Closed);
  m_accepted : ∀ r, r ∈ accepted w → r ∈ accepted w';
  m_now : now w ≤ now w';
  m_closed : conn_closed w = true → conn_closed w' = true;
  m_close : conn_closed w' = true → conn_closed w = true ∨ stopped_for_good w';
  m_attended : attended w → attended w'
}.

(** What goroutine [j] can rely on the others to leave alone. *)
Record keeps (j : nat) (w w' : world) : Prop := {
  k_mu : mu w = Some j → mu w' = Some j ∧ taken w' = taken w ∧ (taken w = false → loops w' = loops w) ∧
    (conn (cl w'), js (cl w'), mainCons (cl w'), cancelCons (cl w'), consumers (cl w'), consuming (cl w')) =
    (conn (cl w), js (cl w), mainCons (cl w), cancelCons (cl w), consumers (cl w), consuming (cl w));
  k_setup : setupMu w = Some j → setupMu w' = Some j ∧ notes w' = notes w ∧ retrier w' = retrier w ∧
    (setupDone (cl w'), retrying (cl w'), consumeRequested (cl w')) =
    (setupDone (cl w), retrying (cl w), consumeRequested (cl w));
  k_retrier : retrier w = Some j ↔ retrier w' = Some j;
  k_stopper : stopper w = Some j → stopper w' = Some j ∧ taken w' = taken w
}.

Definition rely (j : nat) (w w' : world) : Prop := mono w w' ∧ keeps j w w'.
(** What goroutine [i] may do. *)
Definition guar (i : nat) (w w' : world) : Prop := inv w' ∧ mono w w' ∧ ∀ j, j ≠ i → keeps j w w'.

Lemma stopped_for_good_grows w w' : mono w w' → stopped_for_good w → stopped_for_good w'.
Proof.
  intros Hm (Ht & Hc & H). split; [by apply (m_taken _ _ Hm)|]. split; [by apply (m_closed _ _ Hm)|]. intros id l Hl.
  destruct (m_live _ _ Hm Ht _ _ Hl) as (l0 & H0 & E). destruct (m_loop _ _ Hm _ _ H0) as (l' & Hl' & Hcl & Hdr).
  rewrite Hl in Hl'. injection Hl' as <-. pose proof (m_now _ _ Hm). destruct (H _ _ H0) as [Hs|(t & Hs & Hn)]; [by left; auto|].
  destruct (Hdr _ Hs); [right; exists t; split; [done|lia]|by left].
Qed.

Lemma mono_refl w : mono w w.
Proof. split; eauto 6; lia. Qed.
Lemma keeps_refl j w : keeps j w w.
Proof. split; eauto 6. Qed.
Lemma mono_trans w1 w2 w3 : mono w1 w2 → mono w2 w3 → mono w1 w3.
Proof.
  intros M1 M2. pose proof (stopped_for_good_grows _ _ M2) as Hg. destruct M1, M2. split; eauto; [| |lia|].
  { intros Ht id l H3. destruct (m_live1 (m_taken0 Ht) _ _ H3) as (l2 & H2 & E2). destruct (m_live0 Ht _ _ H2) as (l1 & H1 & E1).
    exists l1. split; [done|]. intros Hc. rewrite (E2 Hc) in E1. auto. }
  { intros id l H1. destruct (m_loop0 _ _ H1) as (l2 & H2 & Hc & Hd). destruct (m_loop1 _ _ H2) as (l3 & H3 & Hc' & Hd').
  exists l3. split; [done|]. split; [auto|]. intros t Ht. destruct (Hd _ Ht); eauto. }
  intros H3. destruct (m_close1 H3) as [H2|]; [|by right]. destruct (m_close0 H2); auto.
Qed.
Lemma keeps_trans j w1 w2 w3 : keeps j w1 w2 → keeps j w2 w3 → keeps j w1 w3.
Proof.
  intros [A1 A2 A3 A4] [B1 B2 B3 B4]. split.
  - intros H1. destruct (A1 H1) as (H2 & Ht & Hl & E). destruct (B1 H2) as (H3 & Ht' & Hl' & E').
    split_and!; try congruence. intros Hf. rewrite Hl' by congruence. auto.
  - intros H1. destruct (A2 H1) as (H2 & Hn & Hr & E). destruct (B2 H2) as (H3 & Hn' & Hr' & E'). split_and!; congruence.
  - by rewrite A3.
  - intros H1. destruct (A4 H1) as [H2 E]. destruct (B4 H2). split; congruence.
Qed.
Lemma rely_refl j w : rely j w w.
Proof. split; [apply mono_refl|apply keeps_refl]. Qed.
Lemma rely_trans j w1 w2 w3 : rely j w1 w2 → rely j w2 w3 → rely j w1 w3.
Proof. intros [] []. split; [by eapply mono_trans|by eapply keeps_trans]. Qed.
Lemma guar_refl i w : inv w → guar i w w.
Proof. intros. split; [done|]. split; [apply mono_refl|]. intros. apply keeps_refl. Qed.

(** ** The logic *)

Fixpoint wp {A} (i : nat) (p : code A) (Q : A → world → Prop) (w : world) : Prop :=
  match p with
  | Done a => ∀ w', rely i w w' → inv w' → Q a w'
  | Act a k => ∀ w', rely i w w' → inv w' → ∀ x,
      match perform i a x w' with
      | Blocked => True
      | Fault => False
      | Next r w'' => guar i w' w'' ∧ wp i (k r) Q w''
      end
  end.

Lemma wp_later {A} i (p : code A) Q w : (∀ w', rely i w w' → inv w' → wp i p Q w') → wp i p Q w.
Proof.
  destruct p as [a|a k]; simpl; intros H w' Hr Hi.
  - by apply (H w' Hr Hi w' (rely_refl _ _)).
  - intros x. by apply (H w' Hr Hi w' (rely_refl _ _) Hi).
Qed.
Lemma wp_rely {A} i (p : code A) Q w w' : rely i w w' → wp i p Q w → wp i p Q w'.
Proof. destruct p as [a|a k]; simpl; intros Hr H w'' Hr'; by apply H; eapply rely_trans. Qed.

Lemma wp_bind {A B} i (p : code A) (f : A → code B) Q w : wp i p (λ a w, wp i (f a) Q w) w → wp i (p ≫= f) Q w.
Proof.
  change (p ≫= f) with (code_bind f p). revert w. induction p as [a|a k IH]; intros w H; simpl in *.
  - by apply wp_later.
  - intros w' Hr Hi x. specialize (H w' Hr Hi x). destruct (perform i a x w') as [| |r w'']; [done..|].
    destruct H as [Hg H]. split; [done|]. by apply IH.
Qed.
Lemma wp_mono {A} i (p : code A) (Q Q' : A → world → Prop) w : (∀ a w, inv w → Q a w → Q' a w) → wp i p Q w → wp i p Q' w.
Proof.
  intros HQ. revert w. induction p as [a|a k IH]; intros w H; simpl in *; [by auto|].
  intros w' Hr Hi x. specialize (H w' Hr Hi x). destruct (perform i a x w') as [| |r w'']; [done..|].
  destruct H as [Hg H]. split; [done|]. by apply IH.
Qed.

(** Assertions no other goroutine can falsify. *)
Definition stable (i : nat) (P : world → Prop) : Prop := ∀ w w', rely i w w' → inv w' → P w → P w'.

Definition triple {A} (i : nat) (P : world → Prop) (p : code A) (Q : A → world → Prop) : Prop :=
  ∀ w, inv w → P w → wp i p Q w.

Lemma triple_bind {A B} i P (p : code A) R (f : A → code B) Q :
  triple i P p R → (∀ a, triple i (R a) (f a) Q) → triple i P (p ≫= f) Q.
Proof.
  intros Hp Hf w Hi HP. apply wp_bind. eapply wp_mono; [|by apply Hp]. intros a w' Hi' HR. by apply Hf.
Qed.
Lemma triple_ret {A} i (P : world → Prop) (a : A) Q : stable i P → (∀ w, inv w → P w → Q a w) → triple i P (mret a) Q.
Proof. intros HP HQ w Hi Hw w' Hr Hi'. apply HQ; [done|]. by eapply HP. Qed.
Lemma triple_conseq {A} i (P P' : world → Prop) (p : code A) (Q Q' : A → world → Prop) :
  (∀ w, inv w → P w → P' w) → (∀ a w, inv w → Q' a w → Q a w) → triple i P' p Q' → triple i P p Q.
Proof. intros HP HQ H w Hi Hw. eapply wp_mono; [|apply H; auto]. auto. Qed.

Lemma triple_atom i a (P : world → Prop) Q : stable i P → (∀ r, stable i (Q r)) →
  (∀ w x, inv w → P w → match perform i a x w with Blocked => True | Fault => False | Next r w' => guar i w w' ∧ Q r w' end) →
  triple i P (atom a) Q.
Proof.
  intros HP HQ H w Hi Hw w' Hr Hi' x. specialize (H w' x Hi'). destruct (perform i a x w') as [| |r w'']; [done| |].
  - apply H. by eapply HP.
  - destruct H as [Hg Hq]; [by eapply HP|]. split; [done|]. intros w3 Hr3 Hi3. by eapply HQ.
Qed.

(** ** The actions keep what the others rely on *)

Definition l_inv (l : mutex) (w : world) : Prop := match l with Mu => mu_inv w | SetupMu => setup_inv w end.

Ltac guar_start :=
  let Hi := fresh in intros Hi; intros; split; [destruct Hi; split|split; [split|intros ??; split]]; simpl in *.
Ltac guar_solve :=
  guar_start; eauto 4; try congruence; try lia; try (by intros ? l ?; exists l; split_and!; eauto);
  try (by intros ?? l ?; exists l);
  try (by unfold attended; simpl; tauto); try (by split; congruence);
  try (by intros; split; [done|]; match goal with H : _ → _ ∧ ?A |- ?A => apply H end).

Lemma guar_lock i l w : inv w → owner l w = None → guar i w (set_owner l (Some i) w).
Proof. destruct l; guar_solve. Qed.
Lemma guar_unlock i l w : inv w → owner l w = Some i → l_inv l w → guar i w (set_owner l None w).
Proof. destruct l; guar_solve. Qed.

Lemma guar_connected i b w : inv w → guar i w (upd_cl (λ c, set_atomics b (stopped c) (consumeRequested c) (stopCh c) c) w).
Proof. guar_solve. Qed.
Lemma guar_stopped i w : inv w → guar i w (upd_cl (λ c, set_atomics (connected c) true (consumeRequested c) (stopCh c) c) w).
Proof. guar_solve. Qed.
Lemma guar_stop_ch i w : inv w → stopped (cl w) = true →
  guar i w (upd_cl (λ c, set_atomics (connected c) (stopped c) (consumeRequested c) true c) w).
Proof. guar_solve. Qed.
Lemma guar_requested i w : inv w → setupMu w = Some i → notes w = [ReadyCalled; RestartDone] →
  guar i w (upd_cl (λ c, set_atomics (connected c) (stopped c) true (stopCh c) c) w).
Proof. guar_solve. Qed.
Lemma guar_noted i n w : inv w → setupMu w = Some i → consumeRequested (cl w) = false →
  (notes w ++ [n])%list `prefix_of` [ReadyCalled; RestartDone] →
  guar i w (upd_ghost (notes w ++ [n]) (taken w) (retrier w) (stopper w) w).
Proof. guar_solve. Qed.
Lemma guar_done i w : inv w → setupMu w = Some i → consuming (cl w) = true ∨ stopped (cl w) = true →
  guar i w (upd_cl (λ c, set_setup true (retrying c) c) w).
Proof. guar_solve. Qed.
Lemma guar_swap i w : inv w → setupMu w = Some i → (retrying (cl w) = true ↔ retrier w ≠ None) →
  guar i w (upd_ghost (notes w) (taken w) (if retrying (cl w) then retrier w else Some i) (stopper w)
              (upd_cl (λ c, set_setup (setupDone c) true c) w)).
Proof.
  intros Hi Hs Hr. assert (retrying (cl w) = true ∧ retrier w ≠ None ∨ retrying (cl w) = false ∧ retrier w = None) as [[E E2]|[E E2]].
  { destruct (retrying (cl w)); [left; split; [done|by apply Hr]|right]. split; [done|]. destruct (retrier w); [|done].
    assert (false = true) by (by apply Hr). done. }
  - rewrite E. clear Hr. revert Hi. guar_solve.
  - rewrite E. clear Hr. revert Hi. guar_solve.
Qed.
Lemma guar_clear i w : inv w → setupMu w = Some i → retrier w = Some i → setupDone (cl w) = true ∨ stopped (cl w) = true →
  guar i w (upd_ghost (notes w) (taken w) None (stopper w) (upd_cl (λ c, set_setup (setupDone c) false c) w)).
Proof. guar_solve. Qed.
Lemma guar_conn i w : inv w → mu w = Some i →
  guar i w (upd_cl (λ c, set_mu true (js c) (mainCons c) (cancelCons c) (consumers c) (consuming c) c) w).
Proof. guar_solve. Qed.
Lemma guar_main i w : inv w → mu w = Some i →
  guar i w (upd_cl (λ c, set_mu (conn c) (js c) (Some (MainConsumer topics)) (cancelCons c) (consumers c) (consuming c) c) w).
Proof. guar_solve. Qed.
Lemma guar_setup i w : inv w → mu w = Some i → (∀ r, r ∈ topology → r ∈ accepted w) →
  guar i w (upd_cl (λ c, set_mu true true (Some (MainConsumer topics)) (Some (CancelConsumer topics)) (consumers c) (consuming c) c) w).
Proof. guar_solve. Qed.
Lemma guar_append i a b w : inv w → mu w = Some i → 
  guar i w (upd_cl (λ c, set_mu (conn c) (js c) (mainCons c) (cancelCons c) (consumers c ++ [a; b]) true c) w).
Proof. guar_solve. Qed.
Lemma guar_take i w : inv w → mu w = Some i → stopper w = Some i → stopped (cl w) = true →
  guar i w (upd_ghost (notes w) true (retrier w) (stopper w)
    (upd_cl (λ c, set_mu (conn c) (js c) (mainCons c) (cancelCons c) [] (consuming c) c) w)).
Proof. guar_solve. Qed.
Lemma guar_conns i d (cd : bool) w :
  inv w → (conn_closed w = true → cd = true) → (cd = true → conn_closed w = true ∨ stopped_for_good (upd_conn d cd w)) →
  guar i w (upd_conn d cd w).
Proof. guar_solve. Qed.
Lemma guar_request i r (ok : bool) w : inv w → r ∈ topology →
  guar i w (upd_js (asked w ++ [r]) (if ok then accepted w ++ [r] else accepted w) (published w) w).
Proof.
  destruct ok; guar_solve; try (intros ? [?|?%list_elem_of_singleton]%elem_of_app; subst; by auto);
    intros; apply elem_of_app; eauto.
Qed.
Lemma guar_published i p w : inv w → guar i w (upd_js (asked w) (accepted w) p w).
Proof. guar_solve. Qed.

Lemma guar_tick i d w : inv w → 0 ≤ d → guar i w (upd_now (now w + d) w).
Proof. guar_solve. intros id l t Hl Hd. specialize (i_since0 _ _ _ Hl Hd). lia. Qed.
Lemma guar_stopper i j w : inv w → stopper w = None → guar i w (upd_ghost (notes w) (taken w) (retrier w) (Some j) w).
Proof. guar_solve. Qed.

Lemma guar_consume i d w : inv w → mu w = Some i → taken w = false → consumeRequested (cl w) = true →
  (∀ id, loops w !! id ≠ Some (mkLoop d Consuming)) → guar i w (upd_loops (loops w ++ [mkLoop d Consuming]) w).
Proof.
  intros Hi Hm Ht Hq Hd. revert Hi. guar_solve.
  - intros d' id id' [[_ H1]|[-> H1]]%lookup_snoc_Some [[_ H2]|[-> H2]]%lookup_snoc_Some; simplify_eq/=; try done; try (by eauto);
      exfalso; by eapply Hd.
  - intros _ id l t [[_ H1]|[-> <-]]%lookup_snoc_Some; eauto.
  - intros id l t [[_ H1]|[-> <-]]%lookup_snoc_Some; [eauto|done].
  - intros id l Hl. exists l. split; [by apply lookup_app_l_Some|]. auto.
Qed.

(** A loop stops taking messages. *)
Definition fades (f : loop → loop) : Prop := ∀ l,
  (lp_state l = Closed → lp_state (f l) = Closed) ∧
  (∀ t, lp_state l = Draining t → lp_state (f l) = Draining t ∨ lp_state (f l) = Closed) ∧
  (lp_state (f l) = Consuming → f l = l).

Lemma close_fades : fades close_loop.
Proof. intros [d []]; simpl; split_and!; naive_solver. Qed.
Lemma drain_fades t : fades (drain_loop t).
Proof. intros [d []]; simpl; split_and!; naive_solver. Qed.
Lemma close_drained_fades : fades close_drained.
Proof. intros [d []]; simpl; split_and!; naive_solver. Qed.

Lemma lookup_alter_loop f id (ls : list loop) k l : alter f id ls !! k = Some l →
  ∃ l0, ls !! k = Some l0 ∧ l = if decide (k = id) then f l0 else l0.
Proof.
  destruct (decide (k = id)) as [->|Hn].
  - rewrite list_lookup_alter_eq. intros (l0 & -> & ->)%fmap_Some. by exists l0.
  - rewrite list_lookup_alter_ne by done. by exists l.
Qed.

Lemma fades_live f id (ls : list loop) k l : fades f → alter f id ls !! k = Some l → lp_state l = Consuming → ls !! k = Some l.
Proof.
  intros Hf (l0 & H0 & ->)%lookup_alter_loop. case_decide; [|done]. intros Hs. destruct (Hf l0) as (_ & _ & Hc). by rewrite (Hc Hs).
Qed.

Lemma guar_fade i f id w : inv w → fades f → (∀ l t, lp_state (f l) = Draining t → lp_state l = Draining t ∨ t ≤ now w) →
  mu w = Some i ∧ taken w = false ∧ (∀ l t, lp_state (f l) ≠ Draining t) ∨ taken w = true →
  guar i w (upd_loops (alter f id (loops w)) w).
Proof.
  intros Hi Hf Hn Hw.
  assert (∀ d k, alter f id (loops w) !! k = Some (mkLoop d Consuming) → loops w !! k = Some (mkLoop d Consuming)) as Hlive.
  { intros d k Hk. by eapply fades_live. }
  revert Hi. guar_solve.
  - intros Hm. unfold mu_inv. simpl. destruct Hw as [[Hw _]|Hw]; [congruence|]. specialize (i_mu0 Hm).
    unfold mu_inv in i_mu0. rewrite Hw in i_mu0 |- *. done.
  - intros He. apply i_requested0. intros E. by rewrite E in He.
  - intros Ht k l t (l0 & H0 & ->)%lookup_alter_loop. destruct Hw as [(_ & _ & Hd)|]; [|congruence]. case_decide; eauto.
  - intros k l t (l0 & H0 & ->)%lookup_alter_loop. case_decide; [|eauto]. intros Hs. destruct (Hn _ _ Hs); eauto.
  - intros _ k l Hk. pose proof Hk as (l0 & H0 & _)%lookup_alter_loop. exists l0. split; [done|]. intros Hs.
    eapply fades_live in Hk; [|done..]. congruence.
  - intros k l Hk. destruct (decide (k = id)) as [->|Hne].
    + exists (f l). rewrite list_lookup_alter_eq, Hk. destruct (Hf l) as (? & ? & _). done.
    + exists l. rewrite list_lookup_alter_ne by done. auto.
  - intros Hm. destruct Hw as [(Hw & _)|Hw]; [congruence|]. split_and!; congruence.
Qed.

Lemma close_not_draining l t : lp_state (close_loop l) ≠ Draining t.
Proof. done. Qed.

(** ** Stable assertions *)

Lemma stable_and i P Q : stable i P → stable i Q → stable i (λ w, P w ∧ Q w).
Proof. intros HP HQ w w' Hr Hi []. split; eauto. Qed.
Lemma stable_or i P Q : stable i P → stable i Q → stable i (λ w, P w ∨ Q w).
Proof. intros HP HQ w w' Hr Hi []; [left|right]; eauto. Qed.
Lemma stable_imp i (A : Prop) P : stable i P → stable i (λ w, A → P w).
Proof. intros HP w w' Hr Hi H HA. eauto. Qed.
Lemma stable_all {A} i (P : A → world → Prop) : (∀ x, stable i (P x)) → stable i (λ w, ∀ x, P x w).
Proof. intros HP w w' Hr Hi H x. by eapply HP. Qed.
Lemma stable_pure i (A : Prop) : stable i (λ _, A).
Proof. by intros w w' Hr Hi. Qed.
Lemma stable_if i (b : bool) P Q : stable i P → stable i Q → stable i (λ w, if b then P w else Q w).
Proof. by destruct b. Qed.

Lemma stable_stopped i : stable i (λ w, stopped (cl w) = true).
Proof. intros w w' [[] _] _. auto. Qed.
Lemma stable_requested i : stable i (λ w, consumeRequested (cl w) = true).
Proof. intros w w' [[] _] _. auto. Qed.
Lemma stable_done i : stable i (λ w, setupDone (cl w) = true).
Proof. intros w w' [[] _] _. auto. Qed.
Lemma stable_consuming i : stable i (λ w, consuming (cl w) = true).
Proof. intros w w' [[] _] _. auto. Qed.
Lemma stable_conn i : stable i (λ w, conn (cl w) = true).
Proof. intros w w' [[] _] _. auto. Qed.
Lemma stable_main i : stable i (λ w, is_Some (mainCons (cl w))).
Proof. intros w w' [[] _] _. auto. Qed.
Lemma stable_cancel i : stable i (λ w, is_Some (cancelCons (cl w))).
Proof. intros w w' [[] _] _. auto. Qed.
Lemma stable_taken i : stable i (λ w, taken w = true).
Proof. intros w w' [[] _] _. auto. Qed.
Lemma stable_closed i : stable i (λ w, conn_closed w = true).
Proof. intros w w' [[] _] _. auto. Qed.
Lemma stable_accepted i r : stable i (λ w, r ∈ accepted w).
Proof. intros w w' [[] _] _. auto. Qed.
Lemma stable_now i t : stable i (λ w, t ≤ now w).
Proof. intros w w' [[] _] _ H. lia. Qed.
Lemma stable_attended i : stable i attended.
Proof. intros w w' [[] _] _. auto. Qed.

(** The goroutine is, or is not, the background retry. *)
Definition own (i : nat) (b : bool) (w : world) : Prop := retrier w = Some i ↔ b = true.
Lemma stable_own i b : stable i (own i b).
Proof. intros w w' [_ []] _. unfold own. by rewrite k_retrier0. Qed.

(** It holds [setupMu]; [q], [n]: the request to consume and the notes. *)
Definition setting_up (i : nat) (b : bool) (w : world) : Prop :=
  setupMu w = Some i ∧ own i b w ∧ (retrying (cl w) = true ↔ retrier w ≠ None).
Definition noted (i : nat) (b q : bool) (n : list note) (w : world) : Prop :=
  setting_up i b w ∧ consumeRequested (cl w) = q ∧ notes w = n.
Lemma stable_setting_up i b : stable i (setting_up i b).
Proof.
  intros w w' [_ []] _ (H1 & H2 & H3). unfold setting_up, own in *. destruct (k_setup0 H1) as (-> & _ & -> & [= _ -> _]). auto.
Qed.
Lemma stable_noted i b q n : stable i (noted i b q n).
Proof.
  intros w w' Hr Hi (H1 & H2 & H3). split; [by eapply stable_setting_up|]. destruct Hr as [_ []], H1 as (H1 & _).
  destruct (k_setup0 H1) as (_ & -> & _ & [= _ _ ->]). auto.
Qed.

(** It holds [mu]. *)
Lemma stable_mu i : stable i (λ w, mu w = Some i).
Proof. intros w w' [_ []] _ H. by destruct (k_mu0 H). Qed.
Lemma stable_mu_inv i : stable i (λ w, mu w = Some i ∧ mu_inv w).
Proof.
  intros w w' [_ []] _ [H H']. destruct (k_mu0 H) as (-> & Ht & Hl & [= _ _ _ _ Hc Hk]). split; [done|].
  unfold mu_inv, running, idle in *. rewrite Ht, Hc, Hk. destruct (taken w); [done|]. by rewrite Hl.
Qed.
(** It is starting the loops, which so far are as [φ] says. *)
Definition starting (i : nat) (φ : list loop → Prop) (w : world) : Prop :=
  mu w = Some i ∧ taken w = false ∧ consuming (cl w) = false ∧ consumers (cl w) = [] ∧ φ (loops w).
Lemma stable_starting i φ : stable i (starting i φ).
Proof.
  intros w w' [_ []] _ (H & Ht & Hk & Hc & HP). destruct (k_mu0 H) as (? & Ht' & Hl & [= _ _ _ _ Hc' Hk']).
  unfold starting. rewrite Ht', Hc', Hk', Hl by done. auto.
Qed.

End Logic.

#[export] Hint Resolve stable_and stable_or stable_imp stable_all stable_pure stable_if stable_stopped stable_requested stable_done
  stable_consuming stable_conn stable_main stable_cancel stable_taken stable_closed stable_accepted stable_now stable_attended
  stable_own stable_setting_up stable_noted stable_mu stable_mu_inv stable_starting : stab.

(** ** The methods *)

Ltac stab := intros; cbv beta; auto 20 with stab.

Section Methods.
Context (cfg : ClientConfig) (drain : prog unit) (restart : fun_ (option error)).
Abbreviation inv := (inv cfg).
Abbreviation stable := (stable cfg).
Abbreviation triple := (triple cfg).
Abbreviation guar := (guar cfg).
Abbreviation topics := (topics cfg).

(** A mutex is taken with what it guards, and given back. *)
Lemma triple_lock i l P : stable i P → (∀ w, P w → P (set_owner l (Some i) w)) → stable i (λ w, owner l w = Some i ∧ l_inv cfg l w) →
  triple i P (lock l) (λ _ w, P w ∧ owner l w = Some i ∧ l_inv cfg l w).
Proof.
  intros HP Hown Hl. apply triple_atom; [done|intros; by apply stable_and|]. intros w x Hi Hw. cbn.
  destruct (owner l w) eqn:Eo; [done|]. split; [by apply guar_lock|]. split; [auto|].
  destruct l; simpl in *; (split; [done|]); [by apply (i_mu _ _ Hi)|by apply (i_setup _ _ Hi)].
Qed.

Lemma triple_unlock i l P Q : stable i P → (∀ r, stable i (Q r)) →
  (∀ w, inv w → P w → owner l w = Some i ∧ l_inv cfg l w ∧ Q tt (set_owner l None w)) →
  triple i P (unlock l) Q.
Proof.
  intros HP HQ H. apply triple_atom; [done|done|]. intros w x Hi Hw. unfold perform. cbn.
  destruct (H w Hi Hw) as (Ho & Hl & Hq). rewrite bool_decide_eq_true_2 by done. split; [by apply guar_unlock|done].
Qed.

Lemma triple_locked {A} i l (P : world → Prop) (p : code A) Q' Q :
  stable i P → (∀ w, P w → P (set_owner l (Some i) w)) → stable i (λ w, owner l w = Some i ∧ l_inv cfg l w) →
  (∀ a, stable i (Q' a)) → (∀ a, stable i (Q a)) →
  triple i (λ w, P w ∧ owner l w = Some i ∧ l_inv cfg l w) p Q' →
  (∀ a w, inv w → Q' a w → owner l w = Some i ∧ l_inv cfg l w ∧ Q a (set_owner l None w)) →
  triple i P (locked l p) Q.
Proof.
  intros HP Hown Hl HQ' HQ Hp H. eapply triple_bind; [by apply triple_lock|]. intros []. eapply triple_bind; [exact Hp|]. intros a.
  eapply triple_bind; [apply (triple_unlock i l (Q' a) (λ _, Q a)); [done|done|apply H]|]. intros []. by apply triple_ret.
Qed.

Lemma stable_setup_inv i : stable i (λ w, setupMu w = Some i ∧ setup_inv w).
Proof.
  intros w w' [_ []] _ [H [H1 H2]]. unfold setup_inv. destruct (k_setup0 H) as (-> & -> & -> & [= _ -> ->]). auto.
Qed.
Hint Resolve stable_setup_inv : stab.

Lemma triple_if {A} i P (b : bool) (p q : code A) Q : (b = true → triple i P p Q) → (b = false → triple i P q Q) →
  triple i P (if b then p else q) Q.
Proof. destruct b; auto. Qed.

(** What only grows need not be tracked. *)
Lemma triple_frame {A} i (M P : world → Prop) (p : code A) Q : (∀ w w', mono w w' → M w → M w') →
  triple i P p Q → triple i (λ w, P w ∧ M w) p (λ a w, Q a w ∧ M w).
Proof.
  intros HM H w Hi [HP Hw]. specialize (H w Hi HP). clear HP Hi. revert w Hw H. induction p as [a|a k IH]; intros w Hw H; simpl in *.
  - intros w' Hr Hi'. split; [auto|]. by eapply HM; [apply Hr|].
  - intros w' Hr Hi' x. specialize (H w' Hr Hi' x). destruct (perform i a x w') as [| |r w'']; [done..|].
    destruct H as [Hg H]. split; [done|]. apply IH; [|done]. eapply HM; [apply Hg|]. by eapply HM; [apply Hr|].
Qed.
Lemma stopped_grows w w' : mono w w' → stopped (cl w) = true → stopped (cl w') = true.
Proof. by intros []. Qed.

(** An action that only looks. *)
Lemma triple_look i a P Q : stable i P → (∀ r, stable i (Q r)) → guard a = None →
  (∀ w x, inv w → P w → match effect i a x w with Blocked => True | Fault => False | Next r w' => w' = w ∧ Q r w end) →
  triple i P (atom a) Q.
Proof.
  intros HP HQ Hg H. apply triple_atom; [done|done|]. intros w x Hi Hw. unfold perform. rewrite Hg. specialize (H w x Hi Hw).
  destruct (effect i a x w) as [| |r w']; [done..|]. destruct H as [-> H]. split; [by apply guar_refl|done].
Qed.
Lemma triple_read i l a P Q : stable i P → (∀ r, stable i (Q r)) → guard a = Some l →
  (∀ w x, inv w → P w → owner l w = Some i ∧ match effect i a x w with Blocked => True | Fault => False | Next r w' => w' = w ∧ Q r w end) →
  triple i P (atom a) Q.
Proof.
  intros HP HQ Hg H. apply triple_atom; [done|done|]. intros w x Hi Hw. unfold perform. rewrite Hg.
  destruct (H w x Hi Hw) as [Ho H']. rewrite bool_decide_eq_true_2 by done.
  destruct (effect i a x w) as [| |r w']; [done..|]. destruct H' as [-> H']. split; [by apply guar_refl|done].
Qed.

Lemma triple_outside {A} i P (p : prog A) : stable i P → triple i P (outside p) (λ _ w, P w).
Proof.
  intros HP. induction p as [a|o k IH]; [by apply triple_ret|]. intros w Hi Hw w' Hr Hi' x. cbn.
  split; [by apply guar_refl|]. apply IH; [done|]. by eapply HP.
Qed.

(** *** Starting to consume *)

Lemma durables_differ : CancelConsumer topics ≠ MainConsumer topics.
Proof. intros H%app_inj_prefix. discriminate. Qed.

Definition all_closed (ls : list loop) : Prop := ∀ id l, ls !! id = Some l → lp_state l = Closed.
Definition one_open (a : nat) (ls : list loop) : Prop :=
  ls !! a = Some (mkLoop (CancelConsumer topics) Consuming) ∧ ∀ id l, ls !! id = Some l → id ≠ a → lp_state l = Closed.
Definition both_open (a b : nat) (ls : list loop) : Prop :=
  ls !! a = Some (mkLoop (CancelConsumer topics) Consuming) ∧ ls !! b = Some (mkLoop (MainConsumer topics) Consuming) ∧
  ∀ id l, ls !! id = Some l → id ≠ a → id ≠ b → lp_state l = Closed.

Lemma open_one ls : all_closed ls → one_open (length ls) (ls ++ [mkLoop (CancelConsumer topics) Consuming]).
Proof.
  intros H. split; [by apply lookup_snoc_Some; right|]. intros id l [[_ Hl]|[-> _]]%lookup_snoc_Some Hn; [eauto|done].
Qed.
Lemma open_both a ls : one_open a ls → both_open a (length ls) (ls ++ [mkLoop (MainConsumer topics) Consuming]).
Proof.
  intros [H1 H2]. split; [by apply lookup_app_l_Some|]. split; [by apply lookup_snoc_Some; right|].
  intros id l [[_ Hl]|[-> _]]%lookup_snoc_Some ??; [eauto|done].
Qed.
Lemma close_one a ls : one_open a ls → all_closed (alter close_loop a ls).
Proof. intros [_ H] id l (l0 & H0 & ->)%lookup_alter_loop. case_decide; [done|eauto]. Qed.
Lemma close_both a b ls : both_open a b ls → all_closed (alter close_loop b (alter close_loop a ls)).
Proof.
  intros (_ & _ & H) id l (l0 & (l1 & H1 & ->)%lookup_alter_loop & ->)%lookup_alter_loop. do 2 case_decide; try done. eauto.
Qed.

(** The set-up has been asked to consume, from consumers that exist. *)
Definition wanted (i : nat) (b : bool) (w : world) : Prop :=
  setting_up i b w ∧ consumeRequested (cl w) = true ∧ is_Some (mainCons (cl w)) ∧ is_Some (cancelCons (cl w)).
Lemma stable_wanted i b : stable i (wanted i b).
Proof. unfold wanted. stab. Qed.
Lemma stable_mu_consuming i k : stable i (λ w, mu w = Some i ∧ consuming (cl w) = k).
Proof. intros w w' [_ []] _ [H <-]. destruct (k_mu0 H) as (-> & _ & _ & [= _ _ _ _ _ ->]). done. Qed.
Hint Resolve stable_wanted stable_mu_consuming : stab.

Lemma starting_closed i w : starting i all_closed w → mu_inv cfg w.
Proof. intros (_ & Ht & Hk & Hc & H). unfold mu_inv. by rewrite Ht, Hk. Qed.

Lemma triple_consume i b φ d : (∀ ls id, φ ls → ls !! id ≠ Some (mkLoop d Consuming)) →
  triple i (λ w, wanted i b w ∧ starting i φ w) (atom (Consume d))
    (λ r w, wanted i b w ∧ match r : result nat with
       | Err _ => starting i φ w
       | Ok a => starting i (λ ls, ∃ ls0, φ ls0 ∧ a = length ls0 ∧ ls = (ls0 ++ [mkLoop d Consuming])%list) w
       end).
Proof.
  intros Hd. apply triple_atom; [stab|intros []; stab|]. intros w [e|] Hi [HW HS]; cbn; [split; [by apply guar_refl|done]|].
  destruct HS as (Hm & Ht & Hk & Hc & HP). pose proof HW as (_ & Hq & _). split; [by apply guar_consume; eauto|].
  split; [exact HW|]. do 4 (split; [done|]). by exists (loops w).
Qed.

Lemma triple_stop_loop i b φ id :
  triple i (λ w, wanted i b w ∧ starting i φ w) (atom (StopLoop id))
    (λ _ w, wanted i b w ∧ starting i (λ ls, ∃ ls0, φ ls0 ∧ ls = alter close_loop id ls0) w).
Proof.
  apply triple_atom; [stab|intros; stab|]. intros w x Hi [HW (Hm & Ht & Hk & Hc & HP)]. cbn.
  split; [apply guar_fade; [done|apply close_fades|done|by left]|]. split; [exact HW|].
  do 4 (split; [done|]). by exists (loops w).
Qed.

Lemma starting_mono i (φ ψ : list loop → Prop) w : (∀ ls, φ ls → ψ ls) → starting i φ w → starting i ψ w.
Proof. intros H (? & ? & ? & ? & ?). repeat split; auto. Qed.

(** The loops are started. *)
Lemma open_loops_ok i b (Q : option error → world → Prop) :
  (∀ e w, wanted i b w → mu w = Some i → mu_inv cfg w → (e = None → consuming (cl w) = true ∨ stopped (cl w) = true) → Q e w) →
  triple i (λ w, wanted i b w ∧ starting i all_closed w)
    (x ← atom (Consume (CancelConsumer topics));
     match x : result nat with
     | Err e => mret (Some e)
     | Ok cancelCC =>
         y ← atom (Consume (MainConsumer topics));
         match y : result nat with
         | Err e => _ ← atom (StopLoop cancelCC); mret (Some e)
         | Ok mainCC =>
             s ← atom LoadStopped;
             if s : bool then _ ← atom (StopLoop cancelCC); _ ← atom (StopLoop mainCC); mret None
             else _ ← atom (AppendConsumers cancelCC mainCC); mret None
         end
     end) Q.
Proof.
  intros HQ. eapply triple_bind; [apply (triple_consume i b all_closed); by intros ls id H Hl; apply H in Hl|]. intros [a|e].
  2:{ apply triple_ret; [stab|]. intros w _ [HW HS]. apply HQ; [done|apply HS|by eapply starting_closed|done]. }
  eapply triple_bind.
  { eapply triple_conseq; [| |apply (triple_consume i b (one_open a))]; [|done|].
    - intros w _ [HW HS]. split; [done|]. eapply starting_mono; [|exact HS]. intros ls (ls0 & Hc & -> & ->). by apply open_one.
    - intros ls id [H1 H2] Hl. destruct (decide (id = a)) as [->|Hn]; [|by apply H2 in Hl].
      rewrite H1 in Hl. injection Hl as Hd. by apply durables_differ. }
  intros [m|e]; cbv beta iota.
  2:{ eapply triple_bind; [apply triple_stop_loop|]. intros []. apply triple_ret; [stab|]. intros w _ [HW HS].
      apply HQ; [done|apply HS| |done]. eapply starting_closed, starting_mono, HS. intros ls (ls0 & H & ->). by apply close_one. }
  eapply triple_bind.
  { apply (triple_look _ LoadStopped _ (λ (s : bool) w, (wanted i b w ∧ starting i (both_open a m) w) ∧ (s = true → stopped (cl w) = true)));
      [stab|intros; stab|done|]. intros w x Hi [HW HS]. cbn. split; [done|]. split; [|done]. split; [done|].
    eapply starting_mono, HS. intros ls (ls0 & H & -> & ->). by apply open_both. }
  intros [|]; cbv beta iota.
  - eapply triple_conseq with (P' := λ w, (wanted i b w ∧ starting i (both_open a m) w) ∧ stopped (cl w) = true);
      [intros w _ [H Hs]; auto|intros e w _ H; exact H|].
    eapply triple_bind; [apply triple_frame; [apply stopped_grows|apply triple_stop_loop]|]. intros [].
    eapply triple_bind; [apply triple_frame; [apply stopped_grows|apply triple_stop_loop]|]. intros [].
    apply triple_ret; [stab|]. intros w _ [[HW HS] Hs]. apply HQ; [done|apply HS| |by right].
    eapply starting_closed, starting_mono, HS. intros ls (ls1 & (ls0 & H & ->) & ->). by apply close_both.
  - eapply triple_bind.
    { apply (triple_atom _ _ (AppendConsumers a m) _ (λ _ w, wanted i b w ∧ (mu w = Some i ∧ mu_inv cfg w) ∧ consuming (cl w) = true)); [stab|intros; stab|].
      intros w [] Hi [[HW (Hm & Ht & Hk & Hc & HP)] _]. unfold perform. cbn. rewrite bool_decide_eq_true_2 by done.
      split; [by apply guar_append|]. split; [exact HW|]. split; [|done]. split; [done|].
      unfold mu_inv. simpl. rewrite Ht, Hc. by exists a, m. }
    intros []. apply triple_ret; [stab|]. intros w _ (HW & [Hm Hmi] & Hk). apply HQ; auto.
Qed.

Lemma begin_locked_ok i b :
  triple i (λ w, wanted i b w ∧ mu w = Some i ∧ mu_inv cfg w) begin_locked
    (λ e w, wanted i b w ∧ (mu w = Some i ∧ mu_inv cfg w) ∧ (e = None → consuming (cl w) = true ∨ stopped (cl w) = true)).
Proof.
  eapply triple_bind.
  { apply (triple_read _ Mu ReadConsuming _ (λ (k : bool) w, wanted i b w ∧ (mu w = Some i ∧ mu_inv cfg w) ∧ mu w = Some i ∧ consuming (cl w) = k));
      [stab|intros; stab|done|]. by intros w x Hi (HW & Hm & HI). }
  intros k. eapply triple_bind.
  { instantiate (1 := λ (s : bool) w, wanted i b w ∧ (mu w = Some i ∧ mu_inv cfg w) ∧
      if s then consuming (cl w) = true ∨ stopped (cl w) = true else starting i all_closed w).
    apply triple_if; intros ->.
    - apply triple_ret; [stab|]. intros w _ (HW & HM & _ & Hk). auto.
    - apply (triple_look _ LoadStopped); [stab|intros []; stab|done|]. intros w x Hi (HW & HM & _ & Hk). cbn. split; [done|].
      split; [done|]. split; [done|]. destruct (stopped (cl w)) eqn:Es; [by right|].
      destruct HM as [Hm HI]. unfold mu_inv in HI. destruct (taken w) eqn:Et; [apply (i_taken _ _ Hi) in Et as [? _]; congruence|].
      rewrite Hk in HI. destruct HI. by repeat split. }
  intros [|]; cbv beta iota; [apply triple_ret; [stab|]; by intros w _ (HW & HM & Hk)|].
  eapply triple_bind.
  { apply (triple_read _ Mu ReadCons _ (λ r w, (r = (Some (MainConsumer topics), Some (CancelConsumer topics))) ∧
      wanted i b w ∧ starting i all_closed w)); [stab|intros; stab|done|]. intros w x Hi (HW & [Hm _] & HS). cbn.
    split; [done|]. split; [done|]. split; [|done]. destruct HW as (_ & _ & [m Em] & [c Ec]). rewrite Em, Ec.
    by rewrite (i_main _ _ Hi _ Em), (i_cancel _ _ Hi _ Ec). }
  intros r w Hi [-> H]. revert w Hi H. apply open_loops_ok. auto 6.
Qed.

Lemma beginConsuming_ok i b :
  triple i (wanted i b) beginConsuming (λ e w, wanted i b w ∧ (e = None → consuming (cl w) = true ∨ stopped (cl w) = true)).
Proof.
  eapply triple_locked; [stab|done|apply stable_mu_inv| | |apply begin_locked_ok|]; [intros; stab|intros; stab|].
  by intros e w _ (HW & [Hm HI] & He).
Qed.

(** *** Finishing the set-up *)

Definition has_cons (w : world) : Prop := is_Some (mainCons (cl w)) ∧ is_Some (cancelCons (cl w)).
Lemma has_cons_grows w w' : mono w w' → has_cons w → has_cons w'.
Proof. intros [] []. split; auto. Qed.
Lemma stable_has_cons i : stable i has_cons.
Proof. unfold has_cons. stab. Qed.
Hint Resolve stable_has_cons : stab.

Lemma triple_noted i b n k : (n ++ [k])%list `prefix_of` [ReadyCalled; RestartDone] →
  triple i (noted i b false n) (atom (Noted k)) (λ _, noted i b false (n ++ [k])).
Proof.
  intros Hp. apply triple_atom; [stab|stab|]. intros w [] Hi (HS & Hq & Hn). cbn.
  split; [apply guar_noted; [done|apply HS|done|by rewrite Hn]|].
  split; [exact HS|]. split; [done|]. cbn. by rewrite Hn.
Qed.

Lemma StartConsuming_ok i b :
  triple i (λ w, noted i b false [ReadyCalled; RestartDone] w ∧ has_cons w) StartConsuming (λ _, wanted i b).
Proof.
  eapply triple_bind.
  { apply (triple_atom _ _ StoreConsumeRequested _ (λ _, wanted i b)); [stab|stab|]. intros w [] Hi [(HS & Hq & Hn) Hc]. cbn.
    split; [apply guar_requested; [done|apply HS|done]|]. split; [exact HS|]. by split. }
  intros []. eapply triple_bind; [apply beginConsuming_ok|]. intros e. apply triple_ret; [stab|]. by intros w _ [].
Qed.

Lemma ready_callback_ok i b : triple i (λ w, noted i b false [] w ∧ has_cons w) (ready_callback restart) (λ _, wanted i b).
Proof.
  eapply triple_bind; [apply triple_frame; [apply has_cons_grows|apply triple_noted; by exists [RestartDone]]|]. intros [].
  eapply triple_bind; [apply triple_outside; stab|]. intros [v|]; cbv beta iota.
  2:{ apply triple_atom; [stab|stab|]. done. }
  eapply triple_bind; [apply triple_frame; [apply has_cons_grows|apply triple_noted; done]|]. intros []. apply StartConsuming_ok.
Qed.

Lemma wanted_setup_inv i b w : wanted i b w → setup_inv w.
Proof. intros ((_ & _ & H) & Hq & _). split; [done|]. congruence. Qed.

Lemma isConsuming_ok i b : triple i (wanted i b) isConsuming (λ k w, wanted i b w ∧ (k = true → consuming (cl w) = true)).
Proof.
  eapply triple_locked with (Q' := λ (k : reply ReadConsuming) w, wanted i b w ∧ (mu w = Some i ∧ mu_inv cfg w) ∧ mu w = Some i ∧ consuming (cl w) = k);
    [stab|done|apply stable_mu_inv|stab|stab| |].
  - apply (triple_read _ Mu ReadConsuming); [stab|stab|done|]. by intros w x Hi (HW & Hm & HI).
  - intros k w _ (HW & [Hm HI] & _ & Hk). split; [done|]. split; [done|]. split; [exact HW|]. cbn. congruence.
Qed.

Definition prepared (i : nat) (b : bool) (w : world) : Prop := setting_up i b w ∧ setupMu w = Some i ∧ setup_inv w.
Lemma stable_prepared i b : stable i (prepared i b).
Proof. unfold prepared. stab. Qed.
Hint Resolve stable_prepared : stab.

Lemma wanted_prepared i b w : wanted i b w → prepared i b w.
Proof. intros H. pose proof H as [HS _]. split; [done|]. split; [apply HS|]. by eapply wanted_setup_inv. Qed.

Lemma finishSetup_ok i b : cc_DeferConsume cfg = true →
  triple i (λ w, prepared i b w ∧ has_cons w) (finishSetup cfg restart)
    (λ r w, prepared i b w ∧ (r = true → consuming (cl w) = true ∨ stopped (cl w) = true)).
Proof.
  intros Hd. unfold finishSetup. rewrite Hd. eapply triple_bind.
  { apply (triple_look _ LoadConsumeRequested _ (λ (q : bool) w, if q then wanted i b w else noted i b false [] w ∧ has_cons w));
      [stab|intros []; stab|done|]. intros w x Hi [(HS & _ & _ & HN) Hc]. cbn. split; [done|].
    destruct (consumeRequested (cl w)) eqn:Eq; [by split|]. split; [|done]. split; [done|]. auto. }
  intros [|]; cbv beta iota zeta; simpl negb; cbv iota.
  - eapply triple_bind; [apply beginConsuming_ok|]. intros e. apply triple_ret; [stab|]. intros w _ [HW He].
    split; [by apply wanted_prepared|]. destruct e; [done|auto].
  - eapply triple_bind.
    { apply (triple_look _ HasReady _ (λ (r : bool) w, r = true ∧ noted i b false [] w ∧ has_cons w)); [stab|stab|done|].
      intros w x Hi H. cbn. split; [done|]. split; [apply (i_ready _ _ Hi)|done]. }
    intros r. eapply triple_bind.
    { instantiate (1 := λ _, wanted i b). intros w Hi [-> H]. by apply ready_callback_ok. }
    intros []. eapply triple_bind.
    { apply (triple_look _ LoadConsumeRequested _ (λ (q : bool) w, q = true ∧ wanted i b w)); [stab|stab|done|].
      intros w x Hi H. cbn. split; [done|]. split; [apply H|done]. }
    intros q w Hi [-> H]. revert w Hi H. eapply triple_conseq; [intros w _ H; exact H| |apply isConsuming_ok].
    intros k w _ [HW Hk]. split; [by apply wanted_prepared|auto].
Qed.

(** *** Streams and consumers *)

Section Requests.
Context (i : nat) (P : world → Prop) (HP : stable i P) (Hjs : ∀ w a b p, P w → P (upd_js a b p w)).
#[local] Hint Resolve HP : stab.

Lemma triple_request r : r ∈ topology cfg →
  triple i P (atom (Request r)) (λ e w, P w ∧ (e = None → r ∈ accepted w)).
Proof using HP Hjs.
  intros Hr. apply triple_atom; [stab|stab|]. intros w e Hi Hw. cbn. split.
  - pose proof (guar_request cfg i r (match e with Some _ => false | None => true end) w Hi Hr) as Hg. by destruct e.
  - split; [by apply Hjs|]. intros ->. cbn. by apply elem_of_app; right; apply list_elem_of_singleton.
Qed.

Lemma request_ok context r : r ∈ topology cfg →
  triple i P (request context r) (λ e w, P w ∧ (e = None → r ∈ accepted w)).
Proof using HP Hjs.
  intros Hr. eapply triple_bind; [by apply triple_request|]. intros e. apply triple_ret; [stab|].
  intros w _ [Hw He]. split; [done|]. by destruct e; intros; auto.
Qed.

Lemma triple_now c : triple i (λ w, P w ∧ c ≤ now w) (atom Now) (λ t w, (P w ∧ (t : Z) ≤ now w) ∧ c ≤ (t : Z)).
Proof using HP.
  apply triple_look; [stab|stab|done|]. intros w x Hi [Hw Hc]. cbn. split; [done|]. split; [|done]. split; [done|]. lia.
Qed.

(** The loop ends within its fuel: two attempts are two seconds apart. *)
Lemma create_loop_ok n deadline r durable : r ∈ topology cfg →
  triple i (λ w, P w ∧ deadline + 4 * Second - 2 * Second * Z.of_nat (S n) ≤ now w) (create_loop (S n) deadline r durable)
    (λ x w, P w ∧ ∀ d, x = Ok d → d = durable ∧ r ∈ accepted w).
Proof using HP Hjs.
  intros Hr. induction n as [|n IH].
  all: cbn [create_loop]; eapply triple_bind.
  1, 3: apply triple_frame; [|by apply triple_request]; by intros w w' [] ?; lia.
  all: intros [e|]; cbv beta iota;
    [|apply triple_ret; [stab|]; intros w _ [[Hw He] _]; split; [done|]; intros d [= <-]; auto].
  all: eapply triple_bind.
  1, 3: eapply triple_conseq; [| |apply triple_now]; [intros w _ [[Hw _] Ht]; split; [done|exact Ht]|intros t w _ H; exact H].
  all: intros t; cbv beta; apply triple_if; intros Ht; [apply triple_ret; [stab|]; intros w _ [[Hw _] _]; split; [done|discriminate]|].
  - intros w _ [_ Hc]. unfold Second, Millisecond in *. lia.
  - intros w Hi [H Hc]. revert w Hi H. eapply triple_bind; [apply (triple_now t)|]. intros t' w Hi [H Hc']. revert w Hi H.
    eapply triple_bind.
    { apply (triple_look _ (SleepOrStop (t' + requestStreamRetryInterval)) _
        (λ (stop : bool) w, P w ∧ (stop = false → t' + requestStreamRetryInterval ≤ now w))); [stab|stab|done|].
      intros w x Hi [Hw _]. cbn. destruct x; [by destruct (stopCh (cl w))|]. destruct (_ <=? _) eqn:Et; [|done].
      split; [done|]. split; [done|]. lia. }
    intros [|]; cbv beta iota; [apply triple_ret; [stab|]; intros w _ [Hw _]; split; [done|discriminate]|].
    eapply triple_conseq; [|intros x w _ H; exact H|exact IH]. intros w _ [Hw Hs]. split; [done|]. specialize (Hs eq_refl).
    unfold requestStreamRetryInterval in Hs. lia.
Qed.

Lemma createRequestConsumer_ok durable filter ackWait maxDeliver :
  let r := CreateOrUpdateConsumer RequestStreamName (mkConsumer durable filter AckExplicitPolicy ackWait maxDeliver) in
  r ∈ topology cfg →
  triple i P (createRequestConsumer durable filter ackWait maxDeliver) (λ x w, P w ∧ ∀ d, x = Ok d → d = durable ∧ r ∈ accepted w).
Proof using HP Hjs.
  intros r Hr. eapply triple_bind.
  { apply (triple_look _ Now _ (λ t w, P w ∧ (t : Z) ≤ now w)); [stab|stab|done|]. by intros w x Hi Hw. }
  intros t. eapply triple_conseq; [|intros x w _ H; exact H|by apply create_loop_ok]. intros w _ [Hw Ht]. split; [done|].
  unfold requestStreamRetryTimeout. lia.
Qed.

Lemma initInternalStreams_ok :
  triple i P (initInternalStreams cfg) (λ e w, P w ∧ (e = None → retry_stream cfg ∈ accepted w ∧ health_stream ∈ accepted w)).
Proof using HP Hjs.
  eapply triple_bind; [apply request_ok; by left|]. intros [e|]; cbv beta iota.
  { apply triple_ret; [stab|]. by intros w _ [Hw _]. }
  eapply triple_conseq; [| |apply (triple_frame _ (λ w, retry_stream cfg ∈ accepted w)); [|apply request_ok; by do 2 constructor]].
  - intros w _ [Hw He]. auto.
  - intros e w _ [[Hw He] Hr]. auto.
  - intros w w' []. auto.
Qed.
End Requests.

Definition accepts (rs : list js_request) (w : world) : Prop := ∀ r, r ∈ rs → r ∈ accepted w.
Lemma accepts_grows rs w w' : mono w w' → accepts rs w → accepts rs w'.
Proof. intros [] H r Hr. auto. Qed.
Lemma stable_accepts i rs : stable i (accepts rs).
Proof. unfold accepts. stab. Qed.
Hint Resolve stable_accepts : stab.
Lemma accepts_snoc rs r w : accepts rs w → r ∈ accepted w → accepts (rs ++ [r]) w.
Proof. intros H Hr r' [?|Hs%list_elem_of_singleton]%elem_of_app; [auto|by rewrite Hs]. Qed.

Lemma WriteMainCons_ok i b :
  triple i (prepared i b) (locked Mu (atom (WriteMainCons (MainConsumer topics)))) (λ _, prepared i b).
Proof.
  eapply triple_locked with (Q' := λ _ w, prepared i b w ∧ mu w = Some i ∧ mu_inv cfg w); [stab|done|apply stable_mu_inv|stab|stab| |].
  - apply triple_atom; [stab|stab|]. intros w [] Hi (Hp & Hm & HI). unfold perform. cbn in Hm |- *. rewrite bool_decide_eq_true_2 by done.
    split; [by apply guar_main|]. done.
  - by intros [] w _ (Hp & Hm & HI).
Qed.

Lemma initConsumers_ok i b :
  triple i (prepared i b) (initConsumers cfg)
    (λ x w, prepared i b w ∧ ∀ mc, x = Ok mc → mc = (MainConsumer topics, CancelConsumer topics) ∧
       accepts [main_consumer cfg; cancel_consumer cfg; retry_consumer cfg] w).
Proof.
  assert (∀ w a c p, prepared i b w → prepared i b (upd_js a c p w)) as Hjs by done.
  eapply triple_bind; [apply createRequestConsumer_ok; [stab|done|by do 3 constructor]|]. intros [m|e]; cbv beta iota.
  2:{ apply triple_ret; [stab|]. by intros w _ [Hw _]. }
  eapply triple_bind.
  { eapply (triple_conseq _ _ _ (λ w, prepared i b w ∧ m = MainConsumer topics ∧ accepts [main_consumer cfg] w)).
    - intros w _ [Hw H]. destruct (H m eq_refl) as [-> Hr]. split; [done|]. split; [done|]. intros r Hs%list_elem_of_singleton. by rewrite Hs.
    - intros x w _ H. exact H.
    - apply triple_frame; [intros w w' Hm [-> H]; split; [done|by eapply accepts_grows]|].
      apply createRequestConsumer_ok; [stab|done|by do 4 constructor]. }
  intros [c|e]; cbv beta iota.
  2:{ apply triple_ret; [stab|]. by intros w _ [[Hw _] _]. }
  eapply triple_bind.
  { eapply (triple_conseq _ _ _ (λ w, prepared i b w ∧ (m = MainConsumer topics ∧ c = CancelConsumer topics) ∧ accepts [main_consumer cfg; cancel_consumer cfg] w)).
    - intros w _ [[Hw H] [-> Ha]]. destruct (H c eq_refl) as [-> Hr]. split; [done|]. split; [done|]. by apply (accepts_snoc [_]).
    - intros x w _ H. exact H.
    - apply triple_frame; [intros w w' Hm [? H]; split; [done|by eapply accepts_grows]|].
      apply request_ok; [stab|done|by do 5 constructor]. }
  intros [e|]; cbv beta iota.
  { apply triple_ret; [stab|]. by intros w _ [[Hw _] _]. }
  intros w Hi [[Hw Hr] [[-> ->] Ha]]. specialize (Hr eq_refl).
  assert (accepts [main_consumer cfg; cancel_consumer cfg; retry_consumer cfg] w) as Hall by (by apply (accepts_snoc [_; _])).
  clear Hr Ha. pose proof (conj Hw Hall) as H. clear Hw Hall. revert w Hi H.
  eapply triple_bind; [apply triple_frame; [apply accepts_grows|apply WriteMainCons_ok]|]. intros []. apply triple_ret; [stab|].
  intros w _ [Hw Ha]. split; [done|]. by intros mc [= <-].
Qed.

(** *** One attempt *)

Context (Hdefer : cc_DeferConsume cfg = true).

Lemma WriteSetup_ok i b :
  triple i (λ w, prepared i b w ∧ accepts (topology cfg) w)
    (_ ← lock Mu;
     s ← atom LoadStopped;
     if s : bool then _ ← unlock Mu; mret false
     else _ ← atom (WriteSetup (MainConsumer topics) (CancelConsumer topics)); _ ← unlock Mu; finishSetup cfg restart)
    (λ r w, prepared i b w ∧ (r = true → consuming (cl w) = true ∨ stopped (cl w) = true)).
Proof using Hdefer.
  eapply triple_bind; [apply (triple_lock i Mu); [stab|done|apply stable_mu_inv]|]. intros []. eapply triple_bind.
  { apply (triple_look _ LoadStopped _ (λ _ w, (prepared i b w ∧ accepts (topology cfg) w) ∧ mu w = Some i ∧ mu_inv cfg w)); [|stab|done|done].
    apply stable_and; [stab|apply stable_mu_inv]. }
  intros [|]; cbv beta iota.
  - eapply triple_bind; [apply (triple_unlock i Mu _ (λ _, prepared i b)); [stab|stab|]|].
    { by intros w _ ([Hp _] & Hm & HI). }
    intros []. apply triple_ret; [stab|]. done.
  - eapply triple_bind.
    { apply (triple_atom _ _ (WriteSetup (MainConsumer topics) (CancelConsumer topics)) _
        (λ _ w, (prepared i b w ∧ has_cons w) ∧ mu w = Some i ∧ mu_inv cfg w)); [stab|stab|].
      intros w [] Hi ([Hp Ha] & Hm & HI). unfold perform. cbn. rewrite bool_decide_eq_true_2 by done.
      split; [by apply guar_setup|]. split; [|done]. split; [done|]. by split; eexists. }
    intros []. eapply triple_bind; [apply (triple_unlock i Mu _ (λ _ w, prepared i b w ∧ has_cons w)); [stab|stab|]|].
    { by intros w _ (H & Hm & HI). }
    intros []. by apply finishSetup_ok.
Qed.

Lemma setupStreamsAndConsume_ok i b :
  triple i (prepared i b) (setupStreamsAndConsume cfg drain restart)
    (λ r w, prepared i b w ∧ (r = true → consuming (cl w) = true ∨ stopped (cl w) = true)).
Proof using Hdefer.
  eapply triple_bind; [apply (triple_look _ NewJetStream _ (λ _, prepared i b)); [stab|stab|done|done]|].
  intros [e|]; cbv beta iota; [apply triple_ret; [stab|]; done|].
  eapply triple_bind; [apply initInternalStreams_ok; [stab|done]|]. intros [e|]; cbv beta iota.
  { apply triple_ret; [stab|]. by intros w _ [Hp _]. }
  eapply triple_bind.
  { eapply (triple_conseq _ _ _ (λ w, prepared i b w ∧ accepts [retry_stream cfg; health_stream] w)).
    - intros w _ [Hp H]. destruct (H eq_refl). split; [done|]. intros r [->|Hr%list_elem_of_singleton]%elem_of_cons; [done|by rewrite Hr].
    - intros x w _ H. exact H.
    - apply triple_frame; [apply accepts_grows|apply initConsumers_ok]. }
  intros [[m c]|e]; cbv beta iota.
  2:{ apply triple_ret; [stab|]. by intros w _ [[Hp _] _]. }
  intros w Hi [[Hp Hc] Ha]. destruct (Hc _ eq_refl) as [[= -> ->] Ha'].
  assert (accepts (topology cfg) w) as Hall.
  { intros r [Hr|Hr]%(elem_of_app [retry_stream cfg; health_stream]); [by apply Ha|by apply Ha']. }
  pose proof (conj Hp Hall) as H. clear Hp Hc Ha Ha' Hall. revert w Hi H.
  eapply triple_bind; [apply triple_outside; stab|]. intros []. apply WriteSetup_ok.
Qed.

Definition settled (w : world) : Prop := setupDone (cl w) = true ∨ stopped (cl w) = true.
Lemma stable_settled i : stable i settled.
Proof. unfold settled. stab. Qed.
Hint Resolve stable_settled : stab.

Lemma attempt_locked_ok i b :
  triple i (prepared i b) (attempt_locked cfg drain restart) (λ r w, prepared i b w ∧ (r = true → settled w)).
Proof using Hdefer.
  eapply triple_bind.
  { apply (triple_read _ SetupMu ReadSetupDone _ (λ (d : bool) w, prepared i b w ∧ (d = true → setupDone (cl w) = true))); [stab|stab|done|].
    intros w x Hi Hp. split; [apply Hp|]. done. }
  intros d. eapply triple_bind.
  { instantiate (1 := λ (s : bool) w, prepared i b w ∧ (s = true → settled w)). apply triple_if; intros ->.
    - apply triple_ret; [stab|]. intros w _ [Hp Hd]. split; [done|]. left. auto.
    - apply (triple_look _ LoadStopped); [stab|stab|done|]. intros w x Hi [Hp _]. split; [done|]. split; [done|]. by right. }
  intros [|]; cbv beta iota; [apply triple_ret; [stab|]; done|].
  eapply triple_conseq; [intros w _ [Hp _]; exact Hp|intros x w _ H; exact H|].
  eapply triple_bind; [apply setupStreamsAndConsume_ok|]. intros [|]; cbv beta iota; [|apply triple_ret; [stab|]; by intros w _ [Hp _]].
  eapply triple_bind.
  { apply (triple_atom _ _ WriteSetupDone _ (λ _ w, prepared i b w ∧ settled w)); [stab|stab|].
    intros w [] Hi [Hp Hc]. unfold perform. cbn. rewrite bool_decide_eq_true_2 by apply Hp. split; [apply guar_done; [done|apply Hp|auto]|].
    split; [exact Hp|]. by left. }
  intros []. apply triple_ret; [stab|]. by intros w _ [].
Qed.

Lemma triple_setup_locked {A} i b (p : code A) (Q : A → world → Prop) : (∀ a, stable i (Q a)) → 
  triple i (prepared i b) p (λ a w, prepared i b w ∧ Q a w) → (∀ a w, Q a w → Q a (set_owner SetupMu None w)) →
  triple i (own i b) (locked SetupMu p) (λ a w, own i b w ∧ Q a w).
Proof.
  intros HQ Hp HQ'. eapply triple_locked with (Q' := λ a w, prepared i b w ∧ Q a w); [stab|done|apply stable_setup_inv|stab|stab| |].
  - eapply triple_conseq; [|intros x w _ H; exact H|exact Hp]. intros w _ (Ho & Hs & HI). cbn in *.
    split; [split; [done|split; [done|apply HI]]|done].
  - intros a w _ [((Hs & Ho & Hr) & _ & HI) Hq]. auto.
Qed.

Lemma attemptSetup_ok i b : triple i (own i b) (attemptSetup cfg drain restart) (λ r w, own i b w ∧ (r = true → settled w)).
Proof using Hdefer. apply triple_setup_locked; [stab|apply attempt_locked_ok|done]. Qed.

(** *** The goroutines *)

Lemma SwapRetrying_ok i :
  triple i (own i false) (locked SetupMu (atom SwapRetrying)) (λ old w, own i (negb old) w ∧ attended w).
Proof.
  eapply triple_locked with (Q' := λ (old : reply SwapRetrying) w, setupMu w = Some i ∧ setup_inv w ∧ own i (negb old) w ∧ attended w);
    [stab|done|apply stable_setup_inv| |stab| |].
  - intros old w w' Hr Hi (H1 & H2 & H3 & H4). pose proof (stable_setup_inv i w w' Hr Hi (conj H1 H2)) as [? ?].
    split; [done|]. split; [done|]. split; [by eapply stable_own|by eapply stable_attended].
  - apply triple_atom; [apply stable_and; [stab|apply stable_setup_inv]|..].
    + intros old w w' Hr Hi (H1 & H2 & H3 & H4). pose proof (stable_setup_inv i w w' Hr Hi (conj H1 H2)) as [? ?].
      split; [done|]. split; [done|]. split; [by eapply stable_own|by eapply stable_attended].
    + intros w [] Hi (Ho & Hs & HI). cbn in Hs. unfold perform. cbn. rewrite bool_decide_eq_true_2 by done.
      split; [apply guar_swap; [done|done|apply HI]|]. destruct HI as [HR HN]. split; [done|].
      assert (retrying (cl w) = true → retrier w ≠ None) as HR' by apply HR. unfold setup_inv, own, attended in *. cbn.
      destruct (retrying (cl w)); cbn; split_and!; auto; naive_solver.
  - by intros old w _ (H1 & H2 & H3 & H4).
Qed.

Lemma doSetup_ok i :
  triple i (own i false) (doSetup cfg drain restart)
    (λ gs w, attended w ∧ (gs = [] ∧ own i false w ∨ gs = [GRetry] ∧ own i true w)).
Proof using Hdefer.
  eapply triple_bind; [apply attemptSetup_ok|]. intros [|]; cbv beta iota.
  - apply triple_ret; [stab|]. intros w _ [Ho Hs]. split; [destruct (Hs eq_refl); [by left|by right; left]|auto].
  - eapply triple_conseq; [intros w _ [Ho _]; exact Ho|intros x w _ H; exact H|].
    eapply triple_bind; [apply SwapRetrying_ok|]. intros old. apply triple_ret; [stab|]. intros w _ [Ho Ha]. destruct old; auto.
Qed.

Lemma clear_retrying_ok i : triple i (λ w, own i true w ∧ settled w) clear_retrying (λ _ w, own i false w ∧ settled w).
Proof.
  eapply triple_locked with (Q' := λ _ w, (own i false w ∧ settled w) ∧ setupMu w = Some i ∧ setup_inv w);
    [stab|done|apply stable_setup_inv|stab|stab| |].
  - apply triple_atom; [apply stable_and; [stab|apply stable_setup_inv]|stab|].
    intros w [] Hi ((Ho & Hse) & Hs & HR & HN). cbn in Hs. unfold perform. cbn. rewrite bool_decide_eq_true_2 by done.
    split; [apply guar_clear; [done|done|by apply Ho|done]|]. unfold own, setup_inv. cbn. split; [by split|]. by split_and!.
  - by intros [] w _ ((Ho & Hs) & Hm & HI).
Qed.

Lemma retrySetupInBackground_ok i :
  triple i (own i true) (retrySetupInBackground cfg drain restart)
    (λ gs w, gs = [] ∧ own i false w ∧ attended w ∨ gs = [GRetry] ∧ own i true w).
Proof using Hdefer.
  assert (∀ w, settled w → attended w) as Hsa by (intros w [|]; [by left|by right; left]).
  eapply triple_bind; [apply (triple_look _ Now _ (λ _, own i true)); [stab|stab|done|done]|]. intros t. eapply triple_bind.
  { apply (triple_look _ (SleepOrStop (t + requestStreamRetryTimeout)) _ (λ (s : bool) w, own i true w ∧ (s = true → settled w)));
      [stab|stab|done|]. intros w [|] Hi Ho; cbn.
    - destruct (stopCh (cl w)) eqn:E; [|done]. split; [done|]. split; [done|]. intros _. right. by apply (i_ch _ _ Hi).
    - by destruct (_ <=? _). }
  intros [|]; cbv beta iota.
  - eapply triple_conseq; [intros w _ [Ho Hs]; exact (conj Ho (Hs eq_refl))|intros x w _ H; exact H|].
    eapply triple_bind; [apply clear_retrying_ok|]. intros []. apply triple_ret; [stab|]. intros w _ [Ho Hs]. left. auto.
  - eapply triple_conseq; [intros w _ [Ho _]; exact Ho|intros x w _ H; exact H|].
    eapply triple_bind; [apply attemptSetup_ok|]. intros [|]; cbv beta iota.
    + eapply triple_conseq; [intros w _ [Ho Hs]; exact (conj Ho (Hs eq_refl))|intros x w _ H; exact H|].
      eapply triple_bind; [apply clear_retrying_ok|]. intros []. apply triple_ret; [stab|]. intros w _ [Ho Hs]. left. auto.
    + apply triple_ret; [stab|]. intros w _ [Ho _]. by right.
Qed.

(** A short critical section that reads. *)
Lemma read_mu_ok i b a : guard a = Some Mu →
  (∀ w x, match effect i a x w with Next _ w' => w' = w | Blocked => True | Fault => False end) →
  triple i (own i b) (locked Mu (atom a)) (λ _, own i b).
Proof.
  intros Hg Ha. eapply triple_locked with (Q' := λ _ w, own i b w ∧ mu w = Some i ∧ mu_inv cfg w); [stab|done|apply stable_mu_inv|stab|stab| |].
  - apply (triple_read _ Mu); [stab|stab|done|]. intros w x Hi (Ho & Hm & HI). split; [done|]. specialize (Ha w x).
    by destruct (effect i a x w).
  - by intros r w _ (Ho & Hm & HI).
Qed.

Lemma Start_ok i : triple i (own i false) Start (λ r w, own i false w ∧ (r.2 = [] ∨ r.2 = [GSetup])).
Proof.
  eapply triple_bind; [apply (triple_look _ HasHandlers _ (λ _, own i false)); [stab|stab|done|done]|].
  intros [|]; cbn [negb]; [|apply triple_ret; [stab|auto]].
  eapply triple_bind.
  { apply (triple_atom _ _ Connect _ (λ _, own i false)); [stab|stab|]. intros w [e|] Hi Ho; cbn; [split; [by apply guar_refl|done]|].
    split; [by apply guar_conns; auto|done]. }
  intros [e|]; cbv beta iota; [apply triple_ret; [stab|auto]|]. eapply triple_bind.
  { eapply triple_locked with (Q' := λ _ w, own i false w ∧ mu w = Some i ∧ mu_inv cfg w) (Q := λ _, own i false);
      [stab|done|apply stable_mu_inv|stab|stab| |by intros [] w _ (Ho & Hm & HI)].
    apply triple_atom; [stab|stab|]. intros w [] Hi (Ho & Hm & HI). cbn in Hm. unfold perform. cbn. rewrite bool_decide_eq_true_2 by done.
    split; [by apply guar_conn|done]. }
  intros []. eapply triple_bind; [apply (triple_look _ ConnIsConnected _ (λ _, own i false)); [stab|stab|done|done]|].
  intros [|]; cbv beta iota; [|apply triple_ret; [stab|auto]]. eapply triple_bind.
  { apply (triple_atom _ _ (StoreConnected true) _ (λ _, own i false)); [stab|stab|]. intros w [] Hi Ho. cbn.
    split; [by apply guar_connected|done]. }
  intros []. apply triple_ret; [stab|auto].
Qed.

Lemma WaitUntilReady_ok i : triple i (own i false) WaitUntilReady (λ _, own i false).
Proof.
  eapply triple_bind; [by apply read_mu_ok|]. intros [|]; cbv beta iota; [by apply triple_ret; [stab|]|].
  eapply triple_bind; [apply (triple_look _ TickOrDone _ (λ _, own i false)); [stab|stab|done|done]|]. intros d. by apply triple_ret; [stab|].
Qed.
Lemma publish_ok i subject data msgID : triple i (own i false) (publish subject data msgID) (λ _, own i false).
Proof.
  eapply triple_bind; [by apply read_mu_ok|]. intros [|]; cbv beta iota; [|by apply triple_ret; [stab|]].
  apply triple_atom; [stab|stab|]. intros w [e|] Hi Ho; cbn; (split; [|done]); [by apply guar_refl|by apply guar_published].
Qed.
Lemma ConsumerLag_ok i : triple i (own i false) ConsumerLag (λ _, own i false).
Proof.
  eapply triple_bind; [by apply read_mu_ok|]. intros [[d|] c]; cbn [fst]; [|by apply triple_ret; [stab|]].
  eapply triple_bind; [apply (triple_look _ (ConsumerInfo d) _ (λ _, own i false)); [stab|stab|done|done]|].
  intros [info|e]; cbv beta iota; [by apply triple_ret; [stab|]|].
  eapply triple_bind; [apply (triple_look _ (CachedInfo d) _ (λ _, own i false)); [stab|stab|done|done]|].
  intros info. by apply triple_ret; [stab|].
Qed.

(** *** Stop *)

Definition stopping (i : nat) (b : bool) (w : world) : Prop := stopper w = Some i ∧ taken w = b.
Lemma stable_stopping i b : stable i (stopping i b).
Proof. intros w w' [_ []] _ [H Ht]. destruct (k_stopper0 H) as [H' Ht']. split; congruence. Qed.
Hint Resolve stable_stopping : stab.

(** No loop is open but those of [cs], none takes messages but those of [rem]. *)
Definition open_in (cs rem : list nat) (w : world) : Prop :=
  taken w = true ∧ ∀ id l, loops w !! id = Some l → (lp_state l ≠ Closed → id ∈ cs) ∧ (lp_state l = Consuming → id ∈ rem).
Lemma open_in_grows cs rem w w' : mono w w' → open_in cs rem w → open_in cs rem w'.
Proof.
  intros [] [Ht H]. split; [auto|]. intros id l Hl. destruct (m_live0 Ht _ _ Hl) as (l0 & H0 & E). destruct (H _ _ H0) as [H1 H2].
  split; [|intros Hs; apply H2; by rewrite (E Hs)]. intros Hn. apply H1. intros Hc. destruct (m_loop0 _ _ H0) as (l' & Hl' & Hcl & _).
  apply Hn. rewrite Hl in Hl'. injection Hl' as <-. auto.
Qed.
Lemma stable_open_in i cs rem : stable i (open_in cs rem).
Proof. intros w w' [Hm _] _. by apply open_in_grows. Qed.
Hint Resolve stable_open_in : stab.

Lemma TakeConsumers_ok i :
  triple i (λ w, stopping i false w ∧ conn (cl w) = true ∧ stopped (cl w) = true ∧ own i false w)
    (locked Mu (atom TakeConsumers)) (λ r w, own i false w ∧ r.2 = true ∧ open_in r.1 r.1 w).
Proof.
  eapply triple_locked with (Q' := λ r w, (own i false w ∧ r.2 = true ∧ open_in r.1 r.1 w) ∧ mu w = Some i ∧ mu_inv cfg w);
    [stab|done|apply stable_mu_inv|stab|stab| |by intros r w _ (Ho & Hm & HI)].
  apply triple_atom; [apply stable_and; [stab|apply stable_mu_inv]|stab|].
  intros w [] Hi (([Hst Ht] & Hc & Hs & Ho) & Hm & HI). cbn in Hm. unfold perform. cbn. rewrite bool_decide_eq_true_2 by done.
  split; [by apply guar_take|]. unfold l_inv, mu_inv in HI. rewrite Ht in HI. split; [|done]. split; [exact Ho|]. split; [done|].
  split; [done|]. intros id l Hl. cbn in Hl |- *. destruct (consuming (cl w)).
  - destruct HI as (a & m & -> & Ha & Hb & Hall).
    assert (lp_state l ≠ Closed → id ∈ [a; m]) as Hin; [|split; [done|intros E; apply Hin; by rewrite E]].
    intros Hn. destruct (decide (id = a)) as [->|]; [by left|]. destruct (decide (id = m)) as [->|]; [by right; left|].
    by destruct Hn; eapply Hall.
  - destruct HI as [-> Hidle]. rewrite (Hidle _ _ Hl). done.
Qed.

Lemma drain_loops_ok i cs rem :
  triple i (λ w, own i false w ∧ open_in cs rem w) (each (λ id, atom (DrainLoop id)) rem) (λ _ w, own i false w ∧ open_in cs [] w).
Proof.
  induction rem as [|id rem IH]; cbn [each]; [apply triple_ret; [stab|auto]|].
  eapply (triple_bind _ _ _ _ (λ _ w, own i false w ∧ open_in cs rem w)); [|intros []; exact IH].
  apply triple_atom; [stab|stab|]. intros w [] Hi [Ho [Ht H]]. cbn. split.
  - apply guar_fade; [done|apply drain_fades| |by right]. intros [d []] t; cbn; [intros [= <-]; right; lia|by left|done].
  - split; [exact Ho|]. split; [exact Ht|]. cbn. intros k l (l0 & H0 & ->)%lookup_alter_loop. destruct (H _ _ H0) as [H1 H2].
    case_decide as Hk; [subst k|].
    + destruct l0 as [d []]; cbn in *; (split; [|try done]); intros Hn; auto.
    + split; [done|]. intros Hc. by apply H2, elem_of_cons in Hc as [?|?].
Qed.

(** The loop is closed, or drains since [c] at the latest. *)
Definition drains_since (cs : list nat) (c : Z) (id : nat) (w : world) : Prop :=
  open_in cs [] w ∧ ∀ l t, loops w !! id = Some l → lp_state l = Draining t → t ≤ c.

Lemma draining_back cs w w' id l t : mono w w' → open_in cs [] w → loops w' !! id = Some l → lp_state l = Draining t →
  ∃ l0, loops w !! id = Some l0 ∧ lp_state l0 = Draining t.
Proof.
  intros Hm [Ht Ho] Hl Hd. destruct (m_live _ _ Hm Ht _ _ Hl) as (l0 & H0 & _). exists l0. split; [done|].
  destruct (m_loop _ _ Hm _ _ H0) as (l' & Hl' & Hc & Hdr). rewrite Hl in Hl'. injection Hl' as <-.
  destruct (lp_state l0) as [|t0|] eqn:E.
  - destruct (Ho _ _ H0) as [_ Hn]. by apply Hn in E as ?%elem_of_nil.
  - destruct (Hdr _ eq_refl); congruence.
  - rewrite (Hc eq_refl) in Hd. done.
Qed.
Lemma drains_since_grows cs c id w w' : mono w w' → drains_since cs c id w → drains_since cs c id w'.
Proof.
  intros Hm [Ho H]. split; [by eapply open_in_grows|]. intros l t Hl Hd.
  destruct (draining_back _ _ _ _ _ _ Hm Ho Hl Hd) as (l0 & ? & ?). eauto.
Qed.
Lemma stable_drains_since i cs c id : stable i (drains_since cs c id).
Proof. intros w w' [Hm _] _. by apply drains_since_grows. Qed.

(** The loop is closed, or has had [k] to finish its messages. *)
Definition graced (cs : list nat) (k : Z) (id : nat) (w : world) : Prop := drains_since cs (now w - k) id w.
Lemma graced_grows cs k id w w' : mono w w' → graced cs k id w → graced cs k id w'.
Proof.
  intros Hm Hg. destruct (drains_since_grows _ _ _ _ _ Hm Hg) as [Ho H]. split; [done|]. intros l t Hl Hd. specialize (H l t Hl Hd).
  pose proof (m_now _ _ Hm). lia.
Qed.
Lemma stable_graced i cs k id : stable i (graced cs k id).
Proof. intros w w' [Hm _] _. by apply graced_grows. Qed.
Hint Resolve stable_drains_since stable_graced : stab.

Lemma wait_closed_ok i cs k d id :
  triple i (λ w, own i false w ∧ graced cs k id w) (wait_closed d id) (λ _ w, own i false w ∧ graced cs (k + d) id w).
Proof.
  eapply triple_bind.
  { apply (triple_look _ Now _ (λ (t0 : Z) w, own i false w ∧ drains_since cs (t0 - k) id w)); [stab|stab|done|]. by intros w x Hi H. }
  intros t0. apply triple_look; [stab|stab|done|]. intros w x Hi [Ho Hd]. cbn.
  destruct (loop_is_closed w id || (t0 + d <=? now w)) eqn:E; [|done]. split; [done|]. split; [done|]. destruct Hd as [Hop Hd].
  split; [done|]. intros l t Hl Hs. apply orb_true_iff in E as [E|E].
  - unfold loop_is_closed in E. rewrite Hl, Hs in E. done.
  - specialize (Hd l t Hl Hs). lia.
Qed.

Lemma wait_all_ok i cs k d ids :
  triple i (λ w, own i false w ∧ ∀ id, id ∈ ids → graced cs k id w) (each (wait_closed d) ids)
    (λ _ w, own i false w ∧ ∀ id, id ∈ ids → graced cs (k + d) id w).
Proof.
  induction ids as [|id ids IH]; cbn [each].
  { apply triple_ret; [stab|]. intros w _ [Ho _]. split; [done|]. by intros id ?%elem_of_nil. }
  eapply triple_bind.
  { eapply (triple_conseq _ _ _ (λ w, (own i false w ∧ graced cs k id w) ∧ ∀ id, id ∈ ids → graced cs k id w)).
    - intros w _ [Ho H]. split; [split; [done|apply H; by left]|]. intros id' Hid. apply H. by right.
    - intros x w _ H. exact H.
    - apply triple_frame; [|apply wait_closed_ok]. intros w w' Hm H id' Hid. eapply graced_grows; eauto. }
  intros []. eapply (triple_conseq _ _ _ (λ w, (own i false w ∧ ∀ id, id ∈ ids → graced cs k id w) ∧ graced cs (k + d) id w)).
  3:{ apply triple_frame; [intros w w'; apply graced_grows|exact IH]. }
  - intros w _ [[Ho Hg] H]. auto.
  - intros x w _ [[Ho H] Hg]. split; [done|]. intros id' [->|Hid]%elem_of_cons; auto.
Qed.

Lemma stable_stopped_for_good i : stable i stopped_for_good.
Proof. intros w w' [Hm _] _. by apply stopped_for_good_grows. Qed.
Hint Resolve stable_stopped_for_good : stab.

Lemma Stop_ok i :
  triple i (λ w, own i false w ∧ stopping i false w ∧ conn (cl w) = true) Stop (λ _ w, own i false w ∧ stopped_for_good w).
Proof.
  eapply triple_bind.
  { apply (triple_atom _ _ StoreStopped _ (λ _ w, stopping i false w ∧ conn (cl w) = true ∧ stopped (cl w) = true ∧ own i false w)); [stab|stab|].
    intros w [] Hi (Ho & Hs & Hc). cbn. split; [by apply guar_stopped|done]. }
  intros []. eapply triple_bind.
  { apply (triple_atom _ _ CloseStopCh _ (λ _ w, stopping i false w ∧ conn (cl w) = true ∧ stopped (cl w) = true ∧ own i false w)); [stab|stab|].
    intros w [] Hi (Hs & Hc & Hst & Ho). cbn. split; [by apply guar_stop_ch|done]. }
  intros []. eapply triple_bind; [apply TakeConsumers_ok|]. intros [cs cn]; cbn [fst snd].
  intros w Hi (Ho & -> & Hop). pose proof (conj Ho Hop) as H. clear Ho Hop. revert w Hi H.
  eapply triple_bind; [apply drain_loops_ok|]. intros [].
  eapply triple_bind.
  { eapply (triple_conseq _ _ _ (λ w, (own i false w ∧ ∀ id, id ∈ cs → graced cs 0 id w) ∧ open_in cs [] w)).
    3:{ apply triple_frame; [intros w w'; apply open_in_grows|apply wait_all_ok]. }
    - intros w Hi [Ho Hop]. split; [|done]. split; [done|]. intros id _. split; [done|]. intros l t Hl Hd.
      pose proof (i_since _ _ Hi _ _ _ Hl Hd). lia.
    - intros x w _ H. exact H. }
  intros []. eapply triple_bind; [apply triple_frame; [intros w w'; apply open_in_grows|apply wait_all_ok]|]. intros [].
  eapply triple_bind.
  { apply (triple_atom _ _ CloseConn _ (λ _ w, own i false w ∧ stopped_for_good w)); [stab|stab|].
    intros w [] Hi ([Ho Hg] & [Ht Hop]). cbn.
    assert (stopped_for_good (upd_conn (dialed w) true w)) as Hs; [|split; [by apply guar_conns; auto|done]].
    split; [done|]. split; [done|]. cbn. intros id l Hl. destruct (Hop _ _ Hl) as [H1 H2].
    destruct (lp_state l) as [|t|] eqn:E; [by specialize (H2 eq_refl) as ?%elem_of_nil| |by left].
    right. exists t. split; [done|]. destruct (Hg id (H1 ltac:(done))) as [_ Hd]. specialize (Hd l t Hl E).
    unfold shutdownDrainTimeout, drainTimeout in Hd. lia. }
  intros []. apply triple_atom; [stab|stab|]. intros w [] Hi [Ho Hs]. cbn. split; [by apply guar_connected|done].
Qed.

(** ** Every interleaving *)

Definition sets_up (g : goroutine) : bool := match g with GSetup | GRetry => true | _ => false end.

Definition pre (g : goroutine) (i : nat) (w : world) : Prop :=
  match g with
  | GRetry => own i true w
  | GStop => own i false w ∧ stopping i false w ∧ conn (cl w) = true
  | _ => own i false w
  end.
Definition post (g : goroutine) (i : nat) (gs : list goroutine) (w : world) : Prop :=
  match gs with
  | [] => own i false w ∧ (sets_up g = true → attended w) ∧ (g = GStop → stopped_for_good w)
  | [g'] => pre g' i w ∧ g' ≠ GStop
  | _ => False
  end.

Lemma body_ok g i : triple i (pre g i) (body cfg drain restart g) (post g i).
Proof using Hdefer.
  destruct g; cbn [pre body].
  - eapply triple_bind; [apply Start_ok|]. intros r. apply triple_ret; [stab|]. intros w _ [Ho [-> | ->]]; cbn; split_and!; by auto.
  - eapply triple_conseq; [intros w _ H; exact H| |apply doSetup_ok]. intros gs w _ (Ha & [[-> Ho]|[-> Ho]]); cbn; split_and!; by auto.
  - eapply triple_conseq; [intros w _ H; exact H| |apply retrySetupInBackground_ok].
    intros gs w _ [(-> & Ho & Ha)|[-> Ho]]; cbn; split_and!; by auto.
  - eapply triple_bind; [apply Stop_ok|]. intros []. apply triple_ret; [stab|]. intros w _ [Ho Hs]. cbn; split_and!; by auto.
  - eapply triple_bind; [apply WaitUntilReady_ok|]. intros [|]; apply triple_ret; [stab| |stab|]; intros w _ Ho; cbn; split_and!; by auto.
  - eapply triple_bind; [apply publish_ok|]. intros e. apply triple_ret; [stab|]. intros w _ Ho. cbn; split_and!; by auto.
  - eapply triple_bind; [apply ConsumerLag_ok|]. intros n. apply triple_ret; [stab|]. intros w _ Ho. cbn; split_and!; by auto.
Qed.

Record sound (s : system) : Prop := {
  s_fault : faulted s = false;
  s_inv : inv (sys s);
  s_wp : ∀ i t p, threads s !! i = Some t → left_ t = Some p → wp cfg i p (post (role t) i) (sys s);
  s_retrier : ∀ i, retrier (sys s) = Some i → ∃ t p, threads s !! i = Some t ∧ left_ t = Some p;
  s_attended : ∀ i t, threads s !! i = Some t → sets_up (role t) = true → left_ t = None → attended (sys s);
  s_stopped : ∀ i t, threads s !! i = Some t → role t = GStop → left_ t = None → stopped_for_good (sys s);
  s_closed : conn_closed (sys s) = true → stopped_for_good (sys s)
}.

(** A change by nobody of the pool. *)
Lemma sound_env ts w w' : sound (mkSystem ts w false) → (∀ i, guar i w w') → sound (mkSystem ts w' false).
Proof.
  intros [_ Hi Hwp Hr Ha Hs Hcl] Hg. cbn in *. destruct (Hg 0%nat) as (Hi' & Hm & _).
  assert (∀ j, keeps j w w') as Hk. { intros j. destruct (Hg (S j)) as (_ & _ & H). apply H. lia. }
  split; cbn; [done|done|..].
  - intros i t p Ht Hp. eapply wp_rely; [split; [done|apply Hk]|]. eauto.
  - intros i Hi0. apply Hr. by apply (k_retrier _ _ _ (Hk i)).
  - intros i t ???. eapply m_attended; eauto.
  - intros i t ???. eapply stopped_for_good_grows; eauto.
  - intros [Hc|]%(m_close _ _ Hm); [|done]. eapply stopped_for_good_grows; eauto.
Qed.

Lemma sound_spawn ts w g : sound (mkSystem ts w false) → (retrier w ≠ Some (length ts) → pre g (length ts) w) →
  sound (mkSystem (ts ++ [spawn cfg drain restart g]) w false).
Proof using Hdefer.
  intros [_ Hi Hwp Hr Ha Hs Hcl] Hp. cbn in *.
  assert (pre g (length ts) w) as Hpre.
  { apply Hp. intros (t & p & Ht & _)%Hr. apply lookup_lt_Some in Ht. lia. }
  split; cbn; [done|done|..].
  - intros i t p [[_ Ht]|[-> <-]]%lookup_snoc_Some Hl; [eauto|]. injection Hl as <-. by apply body_ok.
  - intros i (t & p & Ht & Hl)%Hr. exists t, p. split; [by apply lookup_app_l_Some|done].
  - intros i t [[_ Ht]|[-> <-]]%lookup_snoc_Some ??; [eauto|done].
  - intros i t [[_ Ht]|[-> <-]]%lookup_snoc_Some ??; [eauto|done].
  - done.
Qed.

(** A goroutine has ended. *)
Lemma sound_end ts w i t gs : sound (mkSystem ts w false) → ts !! i = Some t → left_ t = Some (Done gs) →
  sound (mkSystem (end_thread cfg drain restart i t gs ts) w false).
Proof using Hdefer.
  intros [_ Hi Hwp Hr Ha Hs Hcl] Ht Hl. cbn in *. pose proof (Hwp _ _ _ Ht Hl w (rely_refl _ _) Hi) as HP.
  pose proof (lookup_lt_Some _ _ _ Ht) as Hlt. unfold end_thread. destruct gs as [|g [|??]]; [| |done]; cbn in HP.
  - destruct HP as (Ho & Hat & Hst). split; cbn; [done|done|..].
    + intros j t' p [(-> & <- & _)|[Hn Hj]]%list_lookup_insert_Some Hp; [done|eauto].
    + intros j Hj. destruct (decide (j = i)) as [->|Hn]; [by apply Ho in Hj|]. rewrite list_lookup_insert_ne by done. auto.
    + intros j t' [(-> & <- & _)|[Hn Hj]]%list_lookup_insert_Some ??; cbn in *; eauto.
    + intros j t' [(-> & <- & _)|[Hn Hj]]%list_lookup_insert_Some ??; cbn in *; eauto.
    + done.
  - destruct HP as (Hpre & Hst). rewrite app_nil_r. split; cbn; [done|done|..].
    + intros j t' p [(-> & <- & _)|[Hn Hj]]%list_lookup_insert_Some Hp; [|eauto]. injection Hp as <-. by apply body_ok.
    + intros j Hj. destruct (decide (j = i)) as [->|Hn].
      * exists (spawn cfg drain restart g), (body cfg drain restart g). by rewrite list_lookup_insert_eq.
      * rewrite list_lookup_insert_ne by done. auto.
    + intros j t' [(-> & <- & _)|[Hn Hj]]%list_lookup_insert_Some ??; [done|eauto].
    + intros j t' [(-> & <- & _)|[Hn Hj]]%list_lookup_insert_Some ??; [done|eauto].
    + done.
Qed.

(** A goroutine acts. *)
Lemma sound_act ts w i t a k x : sound (mkSystem ts w false) → ts !! i = Some t → left_ t = Some (Act a k) →
  match perform i a x w with
  | Blocked => True
  | Fault => False
  | Next r w' => sound (mkSystem (<[i := mkThread (role t) (Some (k r))]> ts) w' false)
  end.
Proof.
  intros [_ Hi Hwp Hr Ha Hs Hcl] Ht Hl. cbn in *. pose proof (Hwp _ _ _ Ht Hl w (rely_refl _ _) Hi x) as HP.
  pose proof (lookup_lt_Some _ _ _ Ht) as Hlt. destruct (perform i a x w) as [| |r w']; [done..|].
  destruct HP as ((Hi' & Hm & Hk) & HP). split; cbn; [done|done|..].
  - intros j t' p [(-> & <- & _)|[Hn Hj]]%list_lookup_insert_Some Hp; [by injection Hp as <-|].
    eapply wp_rely; [split; [done|by apply Hk]|]. eauto.
  - intros j Hj. destruct (decide (j = i)) as [->|Hn].
    + exists (mkThread (role t) (Some (k r))), (k r). by rewrite list_lookup_insert_eq.
    + rewrite list_lookup_insert_ne by done. apply Hr. by apply (k_retrier _ _ _ (Hk j Hn)).
  - intros j t' [(-> & <- & _)|[Hn Hj]]%list_lookup_insert_Some ??; [done|]. eapply m_attended; eauto.
  - intros j t' [(-> & <- & _)|[Hn Hj]]%list_lookup_insert_Some ??; [done|]. eapply stopped_for_good_grows; eauto.
  - intros [Hc|]%(m_close _ _ Hm); [|done]. eapply stopped_for_good_grows; eauto.
Qed.

Lemma guar_drained i id w : inv w → guar i w (upd_loops (alter close_drained id (loops w)) w).
Proof.
  intros Hi. destruct (taken w) eqn:Et.
  - apply guar_fade; [done|apply close_drained_fades| |by right]. intros [d []] t; cbn; [by left|done|by left].
  - assert (alter close_drained id (loops w) = loops w) as ->; [|destruct w; by apply guar_refl].
    apply list_eq. intros k. destruct (alter close_drained id (loops w) !! k) as [l|] eqn:E.
    + apply lookup_alter_loop in E as (l0 & H0 & ->). rewrite H0. f_equal. case_decide; [|done].
      pose proof (i_drain _ _ Hi Et) as Hd. destruct l0 as [d [|t|]]; cbn; try done. by destruct (Hd k _ t H0).
    + symmetry. apply lookup_ge_None. apply lookup_ge_None in E. by rewrite length_alter in E.
Qed.

Lemma sound_step s c : sound s → sound (step cfg drain restart s c).
Proof using Hdefer.
  intros Hs. pose proof (s_fault _ Hs) as Hf. destruct s as [ts w f]. cbn in Hf. subst f. pose proof (s_inv _ Hs) as Hi. cbn in Hi.
  destruct c as [i ρ|d|id|up| | |sub da mid|]; cbn [step threads sys faulted].
  - destruct (ts !! i) as [t|] eqn:Et; [|done]. destruct (left_ t) as [[gs|a k]|] eqn:El; [by apply sound_end| |done].
    pose proof (sound_act _ _ _ _ _ _ (ρ a) Hs Et El) as Ha. by destruct (perform i a (ρ a) w).
  - apply (sound_env _ w); [done|]. intros i. apply guar_tick; [done|lia].
  - apply (sound_env _ w); [done|]. intros i. by apply guar_drained.
  - destruct (dialed w); [|done].
    assert (sound (mkSystem ts (upd_cl (λ c, set_atomics up (stopped c) (consumeRequested c) (stopCh c) c) w) false)) as Hs'.
    { apply (sound_env _ w); [done|]. intros i. by apply guar_connected. }
    destruct up; [|done]. apply sound_spawn; [done|]. intros Hn. by split.
  - destruct (stopper w) eqn:Est; [done|]. destruct (conn (cl w)) eqn:Ec; [|done].
    assert (taken w = false) as Ht. { destruct (taken w) eqn:E; [|done]. by apply (i_taken _ _ Hi) in E as [_ ?]. }
    apply sound_spawn.
    + apply (sound_env _ w); [done|]. intros i. by apply guar_stopper.
    + intros Hn. cbn. split; [by split|]. by split.
  - apply sound_spawn; [done|]. intros Hn. by split.
  - apply sound_spawn; [done|]. intros Hn. by split.
  - apply sound_spawn; [done|]. intros Hn. by split.
Qed.

Lemma sound_started t : sound (started cfg drain restart t).
Proof using Hdefer.
  apply (sound_spawn [] (fresh_world t)); [|intros; by split]. split; cbn; try done; [|by intros i ? ??..].
  split; cbn; try done; [by intros r ?%elem_of_nil|apply prefix_nil].
Qed.

Lemma sound_run t cs : sound (run cfg drain restart t cs).
Proof using Hdefer.
  unfold run. generalize (sound_started t). generalize (started cfg drain restart t). induction cs as [|c cs IH]; intros s Hs; [done|].
  cbn [fold_left]. apply IH. by apply sound_step.
Qed.

End Methods.

(** ** An attempt on its own *)

Section Solo.
Context (ρ : ∀ a, ans a).

(** A goroutine that runs while the others wait. *)
Fixpoint solo {A} (i : nat) (p : code A) (w : world) : option (A * world) :=
  match p with
  | Done a => Some (a, w)
  | Act a k => match perform i a (ρ a) w with Next r w' => solo i (k r) w' | _ => None end
  end.

(** What a program of the handlers returns under these answers. *)
Fixpoint value {A} (p : prog A) : A :=
  match p with
  | Ret a => a
  | Do o k => value (k (ρ (Outside o)))
  end.

(** The broker does what it is asked to. *)
Record cooperative : Prop := {
  co_new : ρ NewJetStream = None;
  co_request : ∀ r, ρ (Request r) = None;
  co_consume : ∀ d, ρ (Consume d) = None
}.

Lemma solo_bind {A B} i (p : code A) (f : A → code B) w :
  solo i (p ≫= f) w = match solo i p w with Some (a, w') => solo i (f a) w' | None => None end.
Proof.
  change (p ≫= f) with (code_bind f p). revert w. induction p as [a|a k IH]; intros w; cbn; [done|].
  destruct (perform i a (ρ a) w) as [| |r w']; [done..|]. apply IH.
Qed.
Lemma solo_outside {A} i (p : prog A) w : solo i (outside p) w = Some (value p, w).
Proof. induction p as [a|o k IH]; cbn; [done|apply IH]. Qed.

Context (Hco : cooperative).
Context (cfg : ClientConfig) (drain : prog unit) (restart : fun_ (option error)) (i : nat).
Context (Hdefer : cc_DeferConsume cfg = true) (Hval : ∃ v, value restart = Val v).

(** Loops can be started whenever [mu] is free. *)
Lemma solo_begin w : mu w = None → stopped (cl w) = false → is_Some (mainCons (cl w)) → is_Some (cancelCons (cl w)) →
  ∃ w', solo i beginConsuming w = Some (None, w') ∧ consuming (cl w') = true ∧ mu w' = None ∧
    setupMu w' = setupMu w ∧ consumeRequested (cl w') = consumeRequested (cl w) ∧ stopped (cl w') = false.
Proof using Hco.
  intros Hm Hs [m Em] [c Ec]. destruct w as [[] ????????????]. cbn in *. subst.
  assert (bool_decide (Some i = Some i) = true) as Hb by (by apply bool_decide_eq_true_2).
  destruct consuming; repeat (unfold perform; cbn; rewrite ?Hb, ?(co_consume Hco)); by eexists.
Qed.

Ltac act1 := unfold atom; cbn [solo]; unfold perform at 1; cbn [guard effect].

Lemma solo_locked {A} l (p : code A) w : owner l w = None →
  solo i (locked l p) w =
  match solo i p (set_owner l (Some i) w) with
  | Some (a, w') => if bool_decide (owner l w' = Some i) then Some (a, set_owner l None w') else None
  | None => None
  end.
Proof.
  intros Ho. unfold locked. rewrite solo_bind. unfold lock. act1. rewrite Ho.
  rewrite solo_bind. destruct (solo i p (set_owner l (Some i) w)) as [[a w']|]; [|done].
  rewrite solo_bind. unfold unlock. act1.
  by destruct (bool_decide (owner l w' = Some i)).
Qed.

Lemma solo_finish w : onSetupReady (cl w) = true → mu w = None → stopped (cl w) = false → has_cons w →
  ∃ w', solo i (finishSetup cfg restart) w = Some (true, w') ∧ consuming (cl w') = true ∧ mu w' = None ∧ setupMu w' = setupMu w.
Proof using Hco Hdefer Hval.
  intros Hr Hm Hs [H1 H2]. unfold finishSetup. rewrite Hdefer, solo_bind. act1.
  destruct (consumeRequested (cl w)) eqn:Eq; cbn [negb].
  - destruct (solo_begin w Hm Hs H1 H2) as (w' & Hw & Hk & Hm' & Hs' & _). rewrite solo_bind, Hw. by exists w'.
  - rewrite solo_bind. act1. rewrite Hr. cbv beta iota.
    rewrite solo_bind. unfold ready_callback. rewrite solo_bind. act1. cbv beta iota.
    rewrite solo_bind, solo_outside. destruct Hval as [v ->]. cbv beta iota.
    rewrite solo_bind. act1. cbv beta iota.
    unfold StartConsuming. rewrite solo_bind. act1. cbv beta iota.
    rewrite solo_bind. edestruct solo_begin as (w' & Hw & Hk & Hm' & Hs' & Hq' & _); [| | | |rewrite Hw]; [done..|]. cbv beta iota.
    cbn [solo mret code_mret]. rewrite solo_bind. act1.
    assert (consumeRequested (cl w') = true) as -> by exact Hq'. cbv beta iota. unfold isConsuming. rewrite solo_locked by done. act1.
    rewrite bool_decide_eq_true_2 by done. cbn. rewrite bool_decide_eq_true_2 by done. rewrite Hk. by eexists.
Qed.

(** The broker's side has changed at most. *)
Definition alike (w w' : world) : Prop := cl w' = cl w ∧ mu w' = mu w ∧ setupMu w' = setupMu w.

Lemma solo_requested context r w : ∃ w', solo i (request context r) w = Some (None, w') ∧ alike w w'.
Proof using Hco. eexists. unfold request. rewrite solo_bind. act1. rewrite (co_request Hco). by split. Qed.
Lemma solo_create d f aw md w : ∃ w', solo i (createRequestConsumer d f aw md) w = Some (Ok d, w') ∧ alike w w'.
Proof using Hco.
  eexists. unfold createRequestConsumer. rewrite solo_bind. act1. unfold request_attempts. cbn [create_loop].
  rewrite solo_bind. act1. rewrite (co_request Hco). by split.
Qed.
Lemma solo_streams w : ∃ w', solo i (initInternalStreams cfg) w = Some (None, w') ∧ alike w w'.
Proof using Hco.
  unfold initInternalStreams. rewrite solo_bind. destruct (solo_requested "failed to create retry stream" (retry_stream cfg) w) as (w1 & -> & H1 & H2 & H3).
  destruct (solo_requested "failed to create health stream" health_stream w1) as (w2 & -> & H4 & H5 & H6). exists w2.
  split; [done|]. split; [congruence|]. split; congruence.
Qed.
Lemma solo_consumers w : mu w = None → ∃ w', solo i (initConsumers cfg) w = Some (Ok (MainConsumer (topics cfg), CancelConsumer (topics cfg)), w') ∧
  mu w' = None ∧ setupMu w' = setupMu w ∧ stopped (cl w') = stopped (cl w) ∧ onSetupReady (cl w') = onSetupReady (cl w).
Proof using Hco.
  intros Hm. unfold initConsumers. rewrite solo_bind.
  destruct (solo_create (MainConsumer (topics cfg)) (Main (topics cfg)) (cc_AckWait cfg) (cc_MaxDeliver cfg) w) as (w1 & -> & H1 & H2 & H3).
  cbv beta iota. rewrite solo_bind.
  destruct (solo_create (CancelConsumer (topics cfg)) (Cancel (topics cfg)) (cc_CancelAckWait cfg) 0 w1) as (w2 & -> & H4 & H5 & H6).
  cbv beta iota. rewrite solo_bind.
  destruct (solo_requested "failed to create retry consumer" (retry_consumer cfg) w2) as (w3 & -> & H7 & H8 & H9).
  cbv beta iota. rewrite solo_bind, solo_locked by (cbn; congruence). act1. rewrite bool_decide_eq_true_2 by done. cbv beta iota.
  rewrite bool_decide_eq_true_2 by done. eexists. split; [done|]. cbn. split; [done|]. split; [congruence|]. rewrite H7, H4, H1. done.
Qed.

Lemma solo_attempt w : inv cfg w → mu w = None → setupMu w = None → stopped (cl w) = false →
  ∃ w', solo i (attemptSetup cfg drain restart) w = Some (true, w') ∧ consuming (cl w') = true.
Proof using Hco Hdefer Hval.
  intros Hi Hm Hsm Hs. unfold attemptSetup. rewrite solo_locked by done. unfold attempt_locked. rewrite solo_bind. act1.
  rewrite bool_decide_eq_true_2 by done. cbn [set_owner]. destruct (setupDone (cl w)) eqn:Ed.
  - exists (set_owner SetupMu None (set_owner SetupMu (Some i) w)). cbn. rewrite Ed. cbn. rewrite bool_decide_eq_true_2 by done.
    split; [done|]. destruct (i_done _ _ Hi Ed); congruence.
  - cbn [setupDone upd_locks cl]. rewrite Ed. cbv beta iota. rewrite solo_bind. act1. cbn [upd_locks cl]. rewrite Hs. cbv beta iota.
    rewrite solo_bind. unfold setupStreamsAndConsume. rewrite solo_bind. act1. rewrite (co_new Hco). cbv beta iota.
    rewrite solo_bind. destruct (solo_streams (upd_locks (mu w) (Some i) w)) as (w1 & -> & H1 & H2 & H3). cbv beta iota.
    rewrite solo_bind. destruct (solo_consumers w1) as (w2 & -> & H4 & H5 & H6 & H7); [by rewrite H2|]. cbv beta iota.
    rewrite solo_bind, solo_outside. cbv beta iota. rewrite solo_bind. unfold lock. act1. cbn [owner]. rewrite H4. cbv beta iota.
    rewrite solo_bind. act1. cbn [set_owner upd_locks cl]. rewrite H6, H1. cbn [upd_locks cl]. rewrite Hs. cbv beta iota.
    rewrite solo_bind. act1. rewrite bool_decide_eq_true_2 by done. cbv beta iota.
    rewrite solo_bind. unfold unlock. act1. rewrite bool_decide_eq_true_2 by done. cbv beta iota.
    match goal with |- context [solo i (finishSetup cfg restart) ?w3] => destruct (solo_finish w3) as (w4 & -> & H8 & H9 & H10) end.
    + cbn. rewrite H7, H1. apply (i_ready _ _ Hi).
    + done.
    + cbn. by rewrite H6, H1.
    + by split; eexists.
    + assert (setupMu w4 = Some i) as Hi4 by (rewrite H10; cbn; rewrite H5, H3; done). cbv beta iota.
      rewrite solo_bind. act1. rewrite bool_decide_eq_true_2 by done. cbn. rewrite bool_decide_eq_true_2 by done. by eexists.
Qed.
End Solo.

(** ** The theorems *)

Section Theorems.
Context (cfg : ClientConfig) (drain : prog unit) (restart : fun_ (option error)) (t : Z).
Abbreviation run := (run cfg drain restart t).

Lemma retry_stream_own : RetryStream (topics cfg) ≠ RequestStreamName.
Proof.
  intros H%(f_equal (λ s, last (chars s))). unfold RetryStream in H. rewrite chars_app, last_app in H. discriminate.
Qed.

(** C15: the messaging client consumes safely, whatever the interleaving of
    connection callbacks, set-up attempts, background retries, calls of its
    methods and Stop, and whatever the broker answers.  No guarded field is
    accessed without its mutex, and the wait for the control plane's stream
    ends within its bound.  At most one consume loop per durable consumer ever
    takes messages.  The restart callback runs at most once, and no loop is
    started before its processing has returned.  While the client counts itself
    as consuming and is not being stopped, both loops run.  The set-up is
    recorded as done only when it consumes or was stopped.  JetStream is
    offered to the publishers only once all streams and consumers have been
    accepted, and the agent never creates or changes a stream of the control
    plane.  (The client is wired as main.go does, with a validated topic name.) *)
Theorem client_consumption_safe cs :
  cc_DeferConsume cfg = true → ValidateTopicName (Base (topics cfg)) = None →
  let s := run cs in
  let w := sys s in
  faulted s = false ∧
  (∀ d id id', loops w !! id = Some (mkLoop d Consuming) → loops w !! id' = Some (mkLoop d Consuming) → id = id') ∧
  notes w `prefix_of` [ReadyCalled; RestartDone] ∧ (loops w ≠ [] → notes w = [ReadyCalled; RestartDone]) ∧
  (consuming (cl w) = true → mu w = None → taken w = false → ∃ a b, running cfg w a b) ∧
  (setupDone (cl w) = true → consuming (cl w) = true ∨ stopped (cl w) = true) ∧
  (js (cl w) = true → ∀ r, r ∈ topology cfg → r ∈ accepted w) ∧
  (∀ c, CreateOrUpdateStream c ∈ asked w → st_Name c ≠ RequestStreamName ∧ Forall (λ s, captured_by_requests s = false) (st_Subjects c)).
Proof.
  intros Hd Hv s w. pose proof (sound_run cfg drain restart Hd t cs) as Hs.
  assert (inv cfg w) as Hi by apply (s_inv _ _ Hs).
  split; [apply (s_fault _ _ Hs)|]. split; [apply (i_one _ _ Hi)|]. split; [apply (i_prefix _ _ Hi)|]. split; [|split; [|split; [|split]]].
  - intros Hl. apply (i_notes _ _ Hi), (i_requested _ _ Hi), Hl.
  - intros Hk Hm Ht. pose proof (i_mu _ _ Hi Hm) as HI. unfold mu_inv in HI. rewrite Ht, Hk in HI. destruct HI as (a & b & _ & H). eauto.
  - apply (i_done _ _ Hi).
  - apply (i_js _ _ Hi).
  - intros c Hc%(i_asked _ _ Hi). unfold topology in Hc. set_unfold in Hc. destruct Hc as [Hc|[Hc|Hc]]; [| |naive_solver].
    + injection Hc as ->. split; [apply retry_stream_own|]. apply Forall_singleton. by apply retry_not_captured.
    + injection Hc as ->. split; [done|]. by apply Forall_singleton.
Qed.





(** C17: the set-up is never abandoned.  Once a connection has been reported, in
    every interleaving the set-up is done, the client stopped, or a goroutine
    that is setting up or waits to retry still runs.  And from every reachable
    state in which nobody holds a mutex and the client is not stopped, an
    attempt with a broker that accepts the requests ends, succeeds and leaves
    the client consuming. *)
Theorem client_setup_retried cs ρ j :
  cc_DeferConsume cfg = true →
  let s := run cs in
  let w := sys s in
  ((∃ i th, threads s !! i = Some th ∧ sets_up (role th) = true) →
   setupDone (cl w) = true ∨ stopped (cl w) = true ∨
   ∃ i th p, threads s !! i = Some th ∧ left_ th = Some p ∧ (sets_up (role th) = true ∨ retrier w = Some i)) ∧
  (cooperative ρ → (∃ v, value ρ restart = Val v) → mu w = None → setupMu w = None → stopped (cl w) = false →
   ∃ w', solo ρ j (attemptSetup cfg drain restart) w = Some (true, w') ∧ consuming (cl w') = true).
Proof.
  intros Hd s w. pose proof (sound_run cfg drain restart Hd t cs) as Hs. split.
  - intros (i & th & Ht & Hr). destruct (left_ th) as [p|] eqn:El; [right; right; exists i, th, p; auto|].
    destruct (s_attended _ _ Hs i th Ht Hr El) as [?|[?|Hre]]; [auto|auto|]. right. right.
    destruct (retrier (sys s)) as [k|] eqn:Ek; [|done]. destruct (s_retrier _ _ Hs k Ek) as (t' & p & Ht' & Hp).
    exists k, t', p. auto.
  - intros Hco Hval Hm Hsm Hst. apply solo_attempt; try done. apply (s_inv _ _ Hs).
Qed.

End Theorems.

(** ** A run *)

Module ClientRun.
Import Client.

Definition cfg : ClientConfig := mkClientConfig "nats://nats" "" "agent" Second Second 5 Second Second 0 0 0 true.
Definition drain : prog unit :=
  drainCancelTopic cfg (topics cfg) 25 0 (HandleCancel sample_decode sample_router 0).
Definition restart : fun_ (option error) :=
  ProcessOnRestart ∅ sample_url sample_jitter sample_decode sample_processor (λ l, l) 0 (λ _, 1%nat).

(** Nothing is waiting on the topics. *)
Definition quiet (o : op) : resp o :=
  match o return resp o with
  | St (LockAdd _ | ClaimAdd _ | ClaimContains _ | DenyConsume _ | DenyContains _) => false
  | St (LockRemove _ | ClaimRemove _ | DenyAdd _ | RetryMuLock | RetryMuUnlock) => tt
  | St (CtxErr _ | CtxOrTimer _ _) => None
  | Ex (RegistryLookup _) => None
  | Ex (StoreByName _ | StoreByID _) => Ok None
  | Ex (TrackerGet _) => None
  | Ex (Effects.Publish _ _ | EmitCE _ _ | MsgDo _ _) => None
  | Ex (CallStart _) => tt
  | Ex (CallEnd _) => CallReturned None
  | Ex (MsgMetadata _) => Ok 0
  | Ex JSReady => true
  | Ex (ConsumerPending _ _) => Ok 0
  | Ex (FetchBatch _ _ _) => Ok ([], None)
  end.

(** The broker works, does not know the control plane's stream yet, or refuses
    everything. *)
Inductive broker := Up | NoStream | Down.
Definition answers (b : broker) (a : act) : ans a :=
  match a return ans a with
  | Connect | Consume _ | JSPublish _ _ _ => None
  | NewJetStream => match b with Down => Some (ENew "refused") | _ => None end
  | Request (CreateOrUpdateConsumer _ _) => match b with Up => None | _ => Some ErrStreamNotFound end
  | Request _ => None
  | ConnIsConnected => true
  | SleepOrStop _ | TickOrDone => false
  | ConsumerInfo _ => Ok (3, 1)
  | CachedInfo _ => (0, 0)
  | Outside o => quiet o
  | _ => tt
  end.

Definition steps (n : nat) (b : broker) (i : nat) : list choice := replicate n (Run i (answers b)).

(** Start and the set-up it starts, while the control plane has no stream; two
    seconds later it has one. *)
Definition consumes : list choice := (steps 20 NoStream 0 ++ [Tick (2 * Second)] ++ steps 100 Up 0)%list.
(** Stop, while the handlers hang. *)
Definition stops : list choice :=
  (consumes ++ [CallStop] ++ steps 7 Up 1 ++ mjoin (replicate 4 (steps 1 Up 1 ++ [Tick (5 * Second)] ++ steps 1 Up 1)) ++ steps 10 Up 1)%list.
(** The first attempt fails. *)
Definition fails : list choice := steps 40 Down 0.

Lemma restarts : ∃ v, value (answers Up) restart = Val v.
Proof. by eexists. Qed.
Lemma works : cooperative (answers Up).
Proof. split; [done| |done]. by intros []. Qed.

Lemma client_consumption_safe_witness :
  let w := sys (run cfg drain restart 0 consumes) in
  setupDone (cl w) = true ∧ notes w = [ReadyCalled; RestartDone] ∧ (∃ a b, running cfg w a b) ∧
  ∀ r, r ∈ topology cfg → r ∈ accepted w.
Proof.
  destruct (client_consumption_safe cfg drain restart 0 consumes eq_refl ltac:(by vm_compute)) as (_ & _ & _ & Hn & Hr & _ & Hj & _).
  split; [by vm_compute|]. split; [apply Hn; by vm_compute|]. split; [apply Hr; by vm_compute|]. apply Hj. by vm_compute.
Defined.

(** Stop waits four times five seconds for handlers that hang. *)
Lemma stop_waits_twenty_seconds :
  now (sys (run cfg drain restart 0 consumes)) = 2 * Second ∧
  (last (threads (run cfg drain restart 0 stops)) ≫= left_) = None ∧ now (sys (run cfg drain restart 0 stops)) = 22 * Second ∧
  conn_closed (sys (run cfg drain restart 0 (take (length stops - 12) stops))) = false.
Proof. by vm_compute. Qed.


Lemma client_setup_retried_witness :
  let w := sys (run cfg drain restart 0 fails) in
  (∃ i th p, threads (run cfg drain restart 0 fails) !! i = Some th ∧ left_ th = Some p ∧ (sets_up (role th) = true ∨ retrier w = Some i)) ∧
  ∃ w', solo (answers Up) 0 (attemptSetup cfg drain restart) w = Some (true, w') ∧ consuming (cl w') = true.
Proof.
  destruct (client_setup_retried cfg drain restart 0 fails (answers Up) 0 eq_refl) as [H1 H2]. split.
  - assert (role <$> (threads (run cfg drain restart 0 fails) !! 0%nat) = Some GRetry) as (th & Hth & Hr)%fmap_Some by (by vm_compute).
    assert (stopped (cl (sys (run cfg drain restart 0 fails))) = false) as Hs by (by vm_compute).
    assert (setupDone (cl (sys (run cfg drain restart 0 fails))) = false) as Hd by (by vm_compute).
    assert (sets_up (role th) = true) as Hu by (by rewrite <- Hr).
    destruct (H1 (ex_intro _ 0%nat (ex_intro _ th (conj Hth Hu)))) as [H|[H|H]];
      [rewrite Hd in H; discriminate|rewrite Hs in H; discriminate|exact H].
  - apply H2; [exact works|exact restarts|by vm_compute..].
Defined.
End ClientRun.
