(* ===== verification/Server.v ===== *)
(** * HTTP server: life cycle, validator set-up, token validator

    Models the rest of internal/apiserver/server.go: the edit of the OpenAPI
    document before the request validator gets it, and the life of [Run] from
    listening to the end of the graceful shutdown.  The middlewares and routes
    [Run] chains are [Http.chain] and [Api.serve].  Also models [NewOIDCValidator] of
    internal/auth/jwt.go, which main.go calls for the authentication middleware. *)

From S2P Require Import Prelude GoStrings Json Codec Http Config.
#[local] Open Scope string_scope.
#[local] Open Scope Z_scope.

(** ** stripHandlerValidatedConstraints *)

Record Schema := mkSchema {
  sc_Pattern : string; sc_MinLength : Z; sc_MaxLength : option Z; sc_Extensions : gmap string json
}.

(** An OpenAPI document: the schemas as objects with addresses (parameters
    share them through references), and per path and method the parameters,
    each by the address of its schema; [None]: one of the pointers is nil. *)
Record OpenAPI := mkOpenAPI {
  oa_schemas : list Schema;
  oa_paths : list (string * list (string * list (option nat)))
}.

Definition validated_by_handler (s : Schema) : bool :=
  match sc_Extensions s !! "x-validated-by" with
  | Some (JString v) => v =s? "handler"
  | _ => false
  end.

Definition strip_schema (s : Schema) : Schema :=
  if validated_by_handler s then mkSchema "" 0 None (sc_Extensions s) else s.

Definition strip_parameters (params : list (option nat)) (h : list Schema) : list Schema :=
  fold_left (λ h p, match p with Some a => alter strip_schema a h | None => h end) params h.

Definition stripHandlerValidatedConstraints (spec : OpenAPI) : OpenAPI :=
  mkOpenAPI (fold_left (λ h pathItem, fold_left (λ h op, strip_parameters op.2 h) pathItem.2 h) (oa_paths spec) (oa_schemas spec))
    (oa_paths spec).

(** All parameters, in the order of the loops. *)
Definition parameters (spec : OpenAPI) : list (option nat) := pathItem ← oa_paths spec; op ← pathItem.2; op.2.

Lemma strip_schema_idemp s : strip_schema (strip_schema s) = strip_schema s.
Proof.
  unfold strip_schema. destruct (validated_by_handler s) eqn:E; [|by rewrite E].
  by replace (validated_by_handler (mkSchema "" 0 None (sc_Extensions s))) with (validated_by_handler s) by done; rewrite E.
Qed.

Lemma strip_parameters_lookup params h a s : h !! a = Some s →
  strip_parameters params h !! a = Some (if decide (Some a ∈ params) then strip_schema s else s).
Proof.
  revert h s. induction params as [|p params IH]; intros h s Hs; [by rewrite decide_False by (by intros ?%elem_of_nil)|].
  cbn [strip_parameters fold_left]. destruct p as [b|].
  - destruct (decide (b = a)) as [->|Hn].
    + erewrite (IH _ (strip_schema s)) by (by rewrite list_lookup_alter_eq, Hs). rewrite (decide_True (P := Some a ∈ Some a :: params)) by by left.
      case_decide; [by rewrite strip_schema_idemp|done].
    + erewrite (IH _ s) by (by rewrite list_lookup_alter_ne). f_equal. destruct (decide (Some a ∈ params)).
      * by rewrite decide_True by by right.
      * by rewrite decide_False by (intros [[= ->]|?]%elem_of_cons; done).
  - erewrite (IH _ s) by done. f_equal. destruct (decide (Some a ∈ params)).
    + by rewrite decide_True by by right.
    + by rewrite decide_False by (intros [?|?]%elem_of_cons; done).
Qed.

Lemma strip_flat spec : oa_schemas (stripHandlerValidatedConstraints spec) = strip_parameters (parameters spec) (oa_schemas spec).
Proof.
  unfold stripHandlerValidatedConstraints, parameters. cbn. generalize (oa_schemas spec). induction (oa_paths spec) as [|[p ops] l IH]; intros h; [done|].
  cbn. rewrite IH. unfold strip_parameters. rewrite fold_left_app. f_equal. clear IH l. revert h.
  induction ops as [|[m ps] ops IH]; intros h; [done|]. cbn. by rewrite IH, fold_left_app.
Qed.

(** Exactly the schemas that a parameter refers to and that are marked as
    validated by the handler lose their constraints, in whatever order paths
    and operations are visited. *)
Theorem strip_exact spec a s : oa_schemas spec !! a = Some s →
  oa_schemas (stripHandlerValidatedConstraints spec) !! a =
  Some (if decide (Some a ∈ parameters spec) then strip_schema s else s).
Proof. intros Hs. rewrite strip_flat. by apply strip_parameters_lookup. Qed.

(** ** NewOIDCValidator *)

Definition defaultOIDCDiscoveryTimeout : Z := 5 * Second.
Definition defaultOIDCHTTPTimeout : Z := 10 * Second.

Record OIDCConfig := mkOIDCConfig { ClientID : string; SkipClientIDCheck : bool }.

Section OIDC.
(** The go-oidc library: discovery under a deadline with a client of a given
    timeout, and the verifier of a provider. *)
Context {Provider Verifier : Type} (NewProvider : Z → Z → string → string + Provider) (provider_Verifier : Provider → OIDCConfig → Verifier).

Definition NewOIDCValidator (issuerURL audience : string) (httpClient : option Z) (discoveryTimeout : Z) : string + Verifier :=
  let clientTimeout := default defaultOIDCHTTPTimeout httpClient in
  let discoveryTimeout := if discoveryTimeout <=? 0 then defaultOIDCDiscoveryTimeout else discoveryTimeout in
  match NewProvider discoveryTimeout clientTimeout issuerURL with
  | inl e => inl ("OIDC discovery for " ++ Quote issuerURL ++ ": " ++ e)
  | inr provider => inr (provider_Verifier provider (mkOIDCConfig audience (audience =s? "")))
  end.

(** The authentication main.go sets up; [inr None]: disabled. *)
Definition authentication (c : AuthConfig) : string + option Verifier :=
  if au_Disabled c then inr None
  else match NewOIDCValidator (au_IssuerURL c) (au_Audience c) None 0 with inl e => inl e | inr v => inr (Some v) end.
End OIDC.

(** ** Run

    [Run] starts a goroutine that serves and sends the outcome on a channel of
    capacity one, and waits for the context or the channel.  Of net/http the
    model has the accept loop of Serve, which takes a connection from the
    listener and only then enters it among the server's connections, and the
    connections, which live on when Serve returns: each is busy or idle
    (kept alive between two requests).  Shutdown closes the listener and, at
    each of its polls, the idle connections. *)

Module Server.

(** How Serve ended, as the goroutine sends it: [None] for [ErrServerClosed]. *)
Definition outcome : Type := option string.

(** Where Run is: at the select, in Shutdown until a deadline, at the receive
    after it, returned. *)
Inductive place := AtSelect | InShutdown (deadline : Z) | AtReceive | RunReturned (r : outcome).
Inductive goroutine := Serving | Sending (v : outcome) | Ended.

(** [taken]: Serve has taken a connection it has not entered yet; [busy]:
    connections with a request in progress, or new ones that have not sent one;
    [idle]: kept-alive connections; [shutting]: Shutdown was called; [forced]:
    Close was called. *)
Record state := mkState {
  at_ : place;
  serve : goroutine;
  serveCh : option outcome;
  done : bool;
  shutting : bool;
  forced : bool;
  taken : bool;
  busy : nat;
  idle : nat;
  now : Z
}.

(** What the rest of the world does: the context is cancelled; Serve takes a
    connection, and enters it; a kept-alive connection sends a request; a request
    is answered (or a new connection given up); a kept-alive connection is
    closed by the client; accepting fails; Serve sees that it is shut down; the
    goroutine sends; Run goes on (at a select with two ready cases, whether it
    takes the context); time passes. *)
Inductive event :=
  | Cancelled | Accept | Enter | Request | Answered | Hangup | AcceptFails (e : string) | ServeSees | Send
  | Go (prefer_ctx : bool) | Tick (d : Z).

Section Run.
Context (shutdownTimeout : Z).

Definition set_at (p : place) (s : state) : state :=
  mkState p (serve s) (serveCh s) (done s) (shutting s) (forced s) (taken s) (busy s) (idle s) (now s).
Definition set_serve (g : goroutine) (ch : option outcome) (s : state) : state :=
  mkState (at_ s) g ch (done s) (shutting s) (forced s) (taken s) (busy s) (idle s) (now s).
Definition set_conns (tk : bool) (b i : nat) (s : state) : state :=
  mkState (at_ s) (serve s) (serveCh s) (done s) (shutting s) (forced s) tk b i (now s).

(** [<-serveCh] *)
Definition receive (s : state) : state :=
  match serveCh s with
  | Some v => set_serve (serve s) None (set_at (RunReturned v) s)
  | None => s
  end.

(** A poll of Shutdown closes the idle connections; Shutdown returns when none
    is left (its error, if any, is that of closing the listener and only
    logged) or at its deadline; then the server is closed, which ends all
    connections entered. *)
Definition go (prefer_ctx : bool) (s : state) : state :=
  match at_ s with
  | AtSelect =>
      if done s && (prefer_ctx || bool_decide (serveCh s = None)) then
        mkState (InShutdown (now s + shutdownTimeout)) (serve s) (serveCh s) true true (forced s)
          (taken s) (busy s) (idle s) (now s)
      else receive s
  | InShutdown deadline =>
      if (busy s =? 0)%nat then set_at AtReceive (set_conns (taken s) 0 0 s)
      else if deadline <=? now s then
        mkState AtReceive (serve s) (serveCh s) (done s) true true (taken s) 0 0 (now s)
      else set_conns (taken s) (busy s) 0 s
  | AtReceive => receive s
  | RunReturned _ => s
  end.

Definition step (s : state) (e : event) : state :=
  let down := shutting s || forced s in
  match e with
  | Cancelled =>
      mkState (at_ s) (serve s) (serveCh s) true (shutting s) (forced s) (taken s) (busy s) (idle s) (now s)
  | Accept =>
      match serve s with
      | Serving => if down || taken s then s else set_conns true (busy s) (idle s) s
      | _ => s
      end
  | Enter =>
      match serve s with
      | Serving => if taken s then set_conns false (S (busy s)) (idle s) s else s
      | _ => s
      end
  | Request => match idle s with S i => set_conns (taken s) (S (busy s)) i s | O => s end
  | Answered =>
      match busy s with S b => set_conns (taken s) b (if down then idle s else S (idle s)) s | O => s end
  | Hangup => set_conns (taken s) (busy s) (pred (idle s)) s
  | AcceptFails e =>
      match serve s with
      | Serving => if down || taken s then s else set_serve (Sending (Some e)) (serveCh s) s
      | _ => s
      end
  | ServeSees =>
      match serve s with
      | Serving => if down && negb (taken s) then set_serve (Sending None) (serveCh s) s else s
      | _ => s
      end
  | Send =>
      match serve s with
      | Sending v => match serveCh s with None => set_serve Ended (Some v) s | Some _ => s end
      | _ => s
      end
  | Go b => go b s
  | Tick d =>
      mkState (at_ s) (serve s) (serveCh s) (done s) (shutting s) (forced s) (taken s) (busy s) (idle s)
        (now s + Z.max 0 d)
  end.

(** [spec]: what [GetSpec] gives; without the document [Run] returns at once,
    with no goroutine started. *)
Definition Run (spec : string + OpenAPI) (t : Z) : state :=
  match spec with
  | inl e => mkState (RunReturned (Some e)) Ended None false false false false 0 0 t
  | inr _ => mkState AtSelect Serving None false false false false 0 0 t
  end.
Definition life (spec : string + OpenAPI) (t : Z) (es : list event) : state := fold_left step es (Run spec t).

(** What holds at every point of the life of Run.  Once Shutdown is over, the
    only connection left is the one Serve had taken when it began. *)
Record inv (s : state) : Prop := {
  i_ch : serveCh s ≠ None → serve s = Ended;
  i_ret : ∀ r, at_ s = RunReturned r → serve s = Ended;
  i_late : serve s = Ended → serveCh s ≠ None ∨ ∃ r, at_ s = RunReturned r;
  i_none : serve s = Sending None ∨ serveCh s = Some None ∨ at_ s = RunReturned None → shutting s = true;
  i_after : shutting s = true → done s = true ∧ at_ s ≠ AtSelect;
  i_before : (∃ d, at_ s = InShutdown d) ∨ at_ s = AtReceive → shutting s = true;
  i_quiet : shutting s = true → (∃ d, at_ s = InShutdown d) ∨ (busy s + (if taken s then 1 else 0) ≤ 1)%nat ∧ idle s = 0%nat;
  i_forced : forced s = true → shutting s = true;
  i_taken : taken s = true → serve s = Serving;
  i_deadline : ∀ d, at_ s = InShutdown d → d ≤ now s + shutdownTimeout
}.

Lemma Run_inv spec t : inv (Run spec t).
Proof. destruct spec; split; cbn; try done; naive_solver. Qed.

Ltac inv_solve :=
  split; cbn in *; try done; try congruence; try (by intros; subst; auto);
  try (by intros [?|[?|?]]; subst; try congruence; auto); try (by intros [[? ?]|?]; subst; try congruence; eauto).

(** The goroutine that serves is still at work. *)
Lemma serve_inv p v ch dn sh fo tk b i t :
  inv (mkState p Serving ch dn sh fo tk b i t) → tk = false → (v = None → sh = true) →
  inv (mkState p (Sending v) ch dn sh fo tk b i t).
Proof.
  intros [H1 H2 H3 H4 H5 H6 H7 H8 H9 H10] -> Hv. cbn in *. inv_solve.
  - intros Hc. by specialize (H1 Hc).
  - intros r Hr. by specialize (H2 r Hr).
  - intros [[= ->]|[?|?]]; auto.
Qed.

(** The connections change. *)
Lemma conns_inv p g ch dn sh fo tk b i t tk' b' i' :
  inv (mkState p g ch dn sh fo tk b i t) → (tk' = true → g = Serving) →
  (sh = true → (b' + (if tk' then 1 else 0) ≤ b + (if tk then 1 else 0) + i ∧ i' ≤ i)%nat ∧
    ((b + (if tk then 1 else 0) ≤ 1)%nat → i = 0%nat → (b' + (if tk' then 1 else 0) ≤ 1)%nat)) →
  inv (mkState p g ch dn sh fo tk' b' i' t).
Proof.
  intros [H1 H2 H3 H4 H5 H6 H7 H8 H9 H10] Ht Hb. cbn in *. inv_solve.
  intros Hs. destruct (Hb Hs) as [[_ ?] Hb']. destruct (H7 Hs) as [?|[? ?]]; [auto|]. right. split; [auto|lia].
Qed.

Lemma go_inv b s : inv s → inv (go b s).
Proof.
  intros Hi. destruct s as [p g ch dn sh fo tk n i t]. pose proof Hi as [H1 H2 H3 H4 H5 H6 H7 H8 H9 H10]. cbn in *.
  assert (∀ v, p = AtSelect ∨ p = AtReceive → ch = Some v → inv (mkState (RunReturned v) g None dn sh fo tk n i t)) as Hret.
  { intros v Hp ->. assert (g = Ended) as -> by (by apply H1). inv_solve.
    - intros _. right. by eexists.
    - intros [?|[?|[= ->]]]; [done..|]. auto.
    - intros Hs. split; [|done]. by apply H5.
    - intros Hs. destruct (H7 Hs) as [[d ->]|?]; [by destruct Hp|auto]. }
  unfold go. cbn. destruct p as [|d| |r].
  - destruct (dn && (b || bool_decide (ch = None))) eqn:E.
    + inv_solve.
      * intros Hg. destruct (H3 Hg) as [?|[r Hr]]; [by left|done].
      * intros _. left. by eexists.
      * intros d [= <-]. lia.
    + unfold receive. cbn. destruct ch; [apply Hret; auto|done].
  - assert (sh = true) as -> by (apply H6; left; by eexists).
    destruct (n =? 0)%nat eqn:En; [|destruct (d <=? t)].
    + inv_solve.
      * intros Hg. destruct (H3 Hg) as [?|[r Hr]]; [by left|done].
      * intros _. split; [by apply H5|done].
      * intros _. right. split; [by destruct tk; cbn; lia|done].
    + inv_solve.
      * intros Hg. destruct (H3 Hg) as [?|[r Hr]]; [by left|done].
      * intros _. split; [by apply H5|done].
      * intros _. right. split; [by destruct tk; cbn; lia|done].
    + apply (conns_inv _ _ _ _ _ _ _ _ _ _ _ _ _ Hi); [done|]. intros _. lia.
  - unfold receive. cbn. destruct ch; [apply Hret; auto|done].
  - done.
Qed.

Lemma step_inv s e : inv s → inv (step s e).
Proof.
  intros Hi. destruct e as [| | | | | |e| | |b|d]; [..|by apply go_inv|];
    destruct s as [p g ch dn sh fo tk n i t]; pose proof Hi as [H1 H2 H3 H4 H5 H6 H7 H8 H9 H10]; cbn in *.
  - inv_solve. intros Hs. by destruct (H5 Hs).
  - destruct g; [|done..]. destruct sh; [done|]. cbn. destruct (fo || tk); [done|]. by apply (conns_inv _ _ _ _ _ _ _ _ _ _ _ _ _ Hi).
  - destruct g; [|done..]. destruct tk; [|done]. apply (conns_inv _ _ _ _ _ _ _ _ _ _ _ _ _ Hi); [done|]. lia.
  - destruct i as [|i]; [done|]. apply (conns_inv _ _ _ _ _ _ _ _ _ _ _ _ _ Hi); [done|]. lia.
  - destruct n as [|n]; [done|]. apply (conns_inv _ _ _ _ _ _ _ _ _ _ _ _ _ Hi); [done|].
    intros ->. cbn. destruct tk; lia.
  - apply (conns_inv _ _ _ _ _ _ _ _ _ _ _ _ _ Hi); [done|]. lia.
  - destruct g; [|done..]. destruct (_ || _) eqn:E; [done|]. apply orb_false_iff in E as [_ ->]. by apply serve_inv.
  - destruct g; [|done..]. destruct (_ && _) eqn:E; [|done]. apply andb_true_iff in E as [E Et].
    apply serve_inv; [done|by destruct tk|]. intros _. apply orb_true_iff in E as [->| ->]; auto.
  - destruct g as [|v|]; [done| |done]. destruct ch; [done|]. inv_solve.
    + intros [?|[[= ->]|?]]; [done|auto|auto].
    + intros Ht. by specialize (H9 Ht).
  - inv_solve. intros d' Hd. specialize (H10 _ Hd). lia.
Qed.

Lemma steps_inv es s : inv s → inv (fold_left step es s).
Proof. revert s. induction es as [|e es IH]; intros s Hs; [done|]. cbn. apply IH. by apply step_inv. Qed.
Lemma life_inv spec t es : inv (life spec t es).
Proof. apply steps_inv, Run_inv. Qed.

(** A property every step keeps holds from then on. *)
Lemma steps_keep (P : state → Prop) es s :
  (∀ s e, inv s → P s → P (step s e)) → inv s → P s → P (fold_left step es s).
Proof. intros HP. revert s. induction es as [|e es IH]; intros s Hi Hs; [done|]. cbn. apply IH; [by apply step_inv|by apply HP]. Qed.

(** No connection comes in once the goroutine has ended. *)
Lemma ended_keeps n s e : inv s → serve s = Ended ∧ (busy s + idle s ≤ n)%nat →
  serve (step s e) = Ended ∧ (busy (step s e) + idle (step s e) ≤ n)%nat.
Proof.
  intros _ [Hs Hn]. destruct e; cbn; rewrite ?Hs; cbn; try (split; [done|lia]); unfold go, receive;
    repeat case_match; cbn; split; try done; lia.
Qed.

Definition returned (s : state) : Prop := ∃ r, at_ s = RunReturned r.

Lemma returned_keeps s e : returned s → returned (step s e).
Proof. intros [r Hr]. exists r. destruct e; cbn; try done; unfold go; rewrite ?Hr; repeat case_match; done. Qed.

Lemma shutting_keeps s e : shutting s = true → shutting (step s e) = true.
Proof. intros Hs. destruct e; cbn; try done; unfold go, receive; repeat case_match; done. Qed.

(** *** From the cancellation to the end *)

(** Run has seen the cancellation, and Shutdown ends at [d] at the latest. *)
Definition left_select (d : Z) (s : state) : Prop :=
  returned s ∨ at_ s ≠ AtSelect ∧ ∀ d', at_ s = InShutdown d' → d' ≤ d.
(** Shutdown is over. *)
Definition shut_down (s : state) : Prop := returned s ∨ at_ s = AtReceive.
(** ... and Serve holds no connection, has returned, and the outcome is sent. *)
Definition unburdened (s : state) : Prop := returned s ∨ at_ s = AtReceive ∧ taken s = false.
Definition served (s : state) : Prop := returned s ∨ at_ s = AtReceive ∧ serve s ≠ Serving.
Definition sent (s : state) : Prop := returned s ∨ at_ s = AtReceive ∧ serveCh s ≠ None.

Lemma left_select_keeps d s e : inv s → left_select d s → left_select d (step s e).
Proof.
  intros Hi [Hr|[Hs Hd]]; [left; by apply returned_keeps|].
  destruct e; try (by right; cbn; repeat case_match). unfold left_select, returned. cbn. unfold go, receive.
  destruct (at_ s) as [|d'| |r] eqn:E; [done| | |eauto].
  - repeat case_match; cbn; right; split; try done; rewrite ?E; try done; intros ? [= <-]; auto.
  - destruct (serveCh s); cbn; [left; eauto|right]. rewrite E. split; done.
Qed.

Lemma receive_keeps s e : inv s → at_ s = AtReceive → returned (step s e) ∨ at_ (step s e) = AtReceive.
Proof.
  intros Hi Hs. destruct e; cbn; try (by right; repeat case_match). unfold go, receive. rewrite Hs.
  destruct (serveCh s); [left; by eexists|by right].
Qed.

Lemma shut_down_keeps s e : inv s → shut_down s → shut_down (step s e).
Proof. intros Hi [Hr|Hs]; [left; by apply returned_keeps|by apply receive_keeps]. Qed.

Lemma unburdened_keeps s e : inv s → unburdened s → unburdened (step s e).
Proof.
  intros Hi [Hr|[Hs Ht]]; [left; by apply returned_keeps|].
  assert (shutting s = true) as Hsh by (apply (i_before _ Hi); auto).
  destruct (receive_keeps s e Hi Hs) as [|Hs']; [by left|]. right. split; [done|].
  destruct e; cbn; rewrite ?Hsh; cbn; try done; unfold go, receive; repeat case_match; try done.
Qed.

Lemma served_keeps s e : inv s → served s → served (step s e).
Proof.
  intros Hi [Hr|[Hs Ht]]; [left; by apply returned_keeps|].
  destruct (receive_keeps s e Hi Hs) as [|Hs']; [by left|]. right. split; [done|].
  destruct e; cbn; try done; unfold go, receive; repeat case_match; cbn; congruence.
Qed.

Lemma sent_keeps s e : inv s → sent s → sent (step s e).
Proof.
  intros Hi [Hr|[Hs Ht]]; [left; by apply returned_keeps|].
  destruct (receive_keeps s e Hi Hs) as [|Hs']; [by left|]. right. split; [done|].
  destruct e; cbn; try done; unfold go, receive; try rewrite Hs; repeat case_match; cbn; try congruence.
  revert Hs'. cbn. unfold go, receive. rewrite Hs. by case_match.
Qed.

(** What one action of the goroutine or of Run then achieves. *)
Lemma go_leaves b s : inv s → done s = true → left_select (now s + shutdownTimeout) (step s (Go b)).
Proof.
  intros Hi Hd. assert (at_ s = AtSelect ∨ at_ s ≠ AtSelect) as [Ha|Ha] by (destruct (at_ s); auto).
  - unfold left_select, returned. cbn. unfold go, receive. rewrite Ha, Hd. destruct (serveCh s) as [v|]; cbn.
    + destruct b; cbn; [right; split; [done|]; intros ? [= <-]; lia|left; by eexists].
    + rewrite orb_true_r. right. split; [done|]. intros ? [= <-]. lia.
  - apply left_select_keeps; [done|]. right. split; [done|]. intros d Hd'. by apply (i_deadline _ Hi).
Qed.
Lemma go_over d b s : inv s → left_select d s → d ≤ now s → shut_down (step s (Go b)).
Proof.
  intros Hi [Hr|[Hs Hd]] Hn; [left; by apply returned_keeps|]. unfold shut_down, returned. cbn. unfold go, receive.
  destruct (at_ s) as [|d'| |r] eqn:E; [done| | |eauto].
  - specialize (Hd d' eq_refl). repeat case_match; cbn; auto. breflect. lia.
  - destruct (serveCh s); cbn; eauto.
Qed.
Lemma enter_over s : inv s → shut_down s → unburdened (step s Enter).
Proof.
  intros Hi [Hr|Hs]; [left; by apply returned_keeps|]. right. cbn. destruct (taken s) eqn:Et.
  - by rewrite (i_taken _ Hi Et).
  - destruct (serve s); done.
Qed.
Lemma sees_over s : inv s → unburdened s → served (step s ServeSees).
Proof.
  intros Hi [Hr|[Hs Ht]]; [left; by apply returned_keeps|]. right.
  assert (shutting s = true) as Hsh by (apply (i_before _ Hi); auto). cbn. rewrite Hsh, Ht. cbn.
  destruct (serve s) eqn:E; cbn; rewrite ?E; done.
Qed.
Lemma send_over s : inv s → served s → sent (step s Send).
Proof.
  intros Hi [Hr|[Hs Hg]]; [left; by apply returned_keeps|]. right. cbn. destruct (serve s) as [|v|] eqn:E; [done| |].
  - destruct (serveCh s) eqn:Ec; cbn; rewrite ?Ec; done.
  - split; [done|]. destruct (i_late _ Hi E) as [?|[r ?]]; [done|congruence].
Qed.
Lemma go_returns b s : sent s → returned (step s (Go b)).
Proof.
  intros [Hr|[Hs Hc]]; [by apply returned_keeps|]. unfold returned. cbn. unfold go, receive. rewrite Hs.
  destruct (serveCh s); [by eexists|done].
Qed.

(** The time that passes. *)
Fixpoint elapsed (es : list event) : Z :=
  match es with [] => 0 | Tick d :: es => Z.max 0 d + elapsed es | _ :: es => elapsed es end.

Lemma elapsed_now es s : now (fold_left step es s) = now s + elapsed es.
Proof.
  revert s. induction es as [|e es IH]; intros s; cbn [fold_left]; [cbn; lia|]. rewrite IH.
  destruct e; cbn; try lia; try (repeat case_match; cbn; lia). unfold go, receive. repeat case_match; cbn; lia.
Qed.

(** A schedule in which, with anything else in between: Run takes a step, the
    shutdown timeout passes, Run takes a step, Serve enters the connection it has
    taken and sees the shutdown, the goroutine sends and Run receives. *)
Inductive runs_on : list event → Prop :=
  runs_on_intro l0 b0 l1 b1 l2 l3 l4 l5 b2 l6 :
    shutdownTimeout ≤ elapsed l1 →
    runs_on (l0 ++ [Go b0] ++ l1 ++ [Go b1] ++ l2 ++ [Enter] ++ l3 ++ [ServeSees] ++ l4 ++ [Send] ++ l5 ++ [Go b2] ++ l6).

Lemma done_keeps s e : done s = true → done (step s e) = true.
Proof. intros Hs. destruct e; cbn; try done; unfold go, receive; repeat case_match; done. Qed.

Ltac inv_steps := repeat (apply step_inv || apply steps_inv).

Lemma runs_on_returns es s : inv s → done s = true → runs_on es → returned (fold_left step es s).
Proof.
  intros Hi Hd [l0 b0 l1 b1 l2 l3 l4 l5 b2 l6 Hl]. rewrite !fold_left_app. cbn [fold_left].
  apply steps_keep; [intros; by apply returned_keeps|by inv_steps|]. apply go_returns.
  apply steps_keep; [intros; by apply sent_keeps|by inv_steps|]. apply send_over; [by inv_steps|].
  apply steps_keep; [intros; by apply served_keeps|by inv_steps|]. apply sees_over; [by inv_steps|].
  apply steps_keep; [intros; by apply unburdened_keeps|by inv_steps|]. apply enter_over; [by inv_steps|].
  apply steps_keep; [intros; by apply shut_down_keeps|by inv_steps|].
  set (s0 := fold_left step l0 s). assert (inv s0 ∧ done s0 = true) as [Hi0 Hd0].
  { split; [by apply steps_inv|]. apply steps_keep; [intros; by apply done_keeps|done..]. }
  apply (go_over (now s0 + shutdownTimeout)); [by inv_steps| |].
  - apply (steps_keep (left_select (now s0 + shutdownTimeout)));
      [intros; by apply left_select_keeps|by apply step_inv|by apply go_leaves].
  - rewrite elapsed_now. replace (now (step s0 (Go b0))) with (now s0 + elapsed [Go b0]) by (by rewrite <-(elapsed_now [Go b0] s0)).
    cbn. lia.
Qed.

(** C25: the HTTP server shuts down completely and in time.  Once the context is
    cancelled, Run returns: in every schedule in which Run, Serve and its
    goroutine get to take their steps and the shutdown timeout passes once, with
    any requests, connections and delays in between, even if no request is ever
    answered.  When Run has returned, the goroutine that serves has ended and no
    connection comes in any more.  When it returns after a shutdown (always, if
    without an error) no kept-alive connection is left, and no busy one either
    except the one Serve had taken from the listener when the shutdown began and
    entered later (net/http does not look back); all others were answered or
    closed, and none is kept alive afterwards.  Nothing of this is stated when
    Serve itself fails (see [serve_failure_leaves_connections]). *)
Theorem server_shutdown spec t es es' :
  let s := life spec t es in
  let s' := life spec t (es ++ es') in
  (done s = true → runs_on es' → returned s') ∧
  (∀ r, at_ s = RunReturned r →
     serve s = Ended ∧ (busy s' + idle s' ≤ busy s + idle s)%nat ∧
     (r = None → shutting s = true) ∧
     (shutting s = true → done s = true ∧ (busy s ≤ 1)%nat ∧ idle s' = 0%nat)).
Proof.
  intros s s'. pose proof (life_inv spec t es : inv s) as Hi. unfold s', life. rewrite fold_left_app.
  change (fold_left step es (Run spec t)) with s. split; [intros; by apply runs_on_returns|].
  intros r Hr. pose proof (i_ret _ Hi r Hr) as He. split; [done|].
  split; [apply (steps_keep (λ x, serve x = Ended ∧ (busy x + idle x ≤ busy s + idle s)%nat) es' s); [apply ended_keeps|done|split; [done|lia]]|].
  split; [intros ->; apply (i_none _ Hi); auto|]. intros Hs. split; [by apply (i_after _ Hi)|].
  assert (∀ x, inv x → returned x ∧ shutting x = true → (busy x ≤ 1 ∧ idle x = 0)%nat) as Hq.
  { intros x Hx [[r' Hr'] Hsx]. destruct (i_quiet _ Hx Hsx) as [[d Hd]|[? ?]]; [congruence|lia]. }
  split; [apply (Hq s Hi); split; [by eexists|done]|]. apply Hq; [by apply steps_inv|].
  apply steps_keep; [|done|split; [by eexists|done]]. intros x e _ [? ?]. split; [by apply returned_keeps|by apply shutting_keeps].
Qed.

(** When Serve fails, Run returns its error without Shutdown or Close: a
    kept-alive connection goes on being served. *)
Theorem serve_failure_leaves_connections :
  let s := life (inr (mkOpenAPI [] [])) 0 [Accept; Enter; Answered; AcceptFails "accept"; Send; Go true] in
  at_ s = RunReturned (Some "accept") ∧ idle s = 1%nat ∧ busy (step s Request) = 1%nat.
Proof. done. Qed.

End Run.

(** A shutdown with a request that is never answered. *)
Lemma server_shutdown_witness :
  returned (life 5 (inr (mkOpenAPI [] [])) 0 ([Accept; Enter; Cancelled] ++
    ([] ++ [Go true] ++ [Tick 3; Request; Tick 2] ++ [Go true] ++ [] ++ [Enter] ++ [] ++ [ServeSees] ++ [] ++ [Send] ++ [] ++ [Go true] ++ []))).
Proof.
  apply (server_shutdown 5 (inr (mkOpenAPI [] [])) 0 [Accept; Enter; Cancelled]); [done|]. by apply runs_on_intro.
Defined.
End Server.
