(* ===== verification/Main.v ===== *)
(** * The process: from start to exit

    Models [mainRun] and [run] of cmd/environment-agent/main.go as a whole: the
    steps in their order, the early returns, the deferred functions and the
    exit code.  The checks and the wiring are those of [Agent.start]; how the HTTP
    server ends (the life of [Server.Run]) is an input. *)

From S2P Require Import Prelude GoStrings Provider Effects Json Routing Topics Messaging Config Agent.
#[local] Open Scope string_scope.
#[local] Open Scope Z_scope.

(** What has to be given back before the process exits. *)
Inductive resource := Signals | Listener | EmbeddedSPs | MessagingClient | HealthMonitor | RegistrarTask.
#[export] Instance resource_eq_dec : EqDecision resource.
Proof. solve_decision. Defined.

Inductive main_event :=
  | Acquired (r : resource)
  | Released (r : resource)
  | StoppedRetries         (* retryProcessor.Stop has returned *)
  | LoadedPersisted
  | SetHandlers            (* SetMainHandler, SetCancelHandler *)
  | SetReadyCallback       (* SetOnSetupReady *)
  | WiredTransitions       (* healthMonitor.SetOnTransition *)
  | WiredChanges           (* providerSvc.SetOnChange *)
  | WaitedReady            (* msgClient.WaitUntilReady has returned *)
  | RegisteredEmbedded
  | StartedEmbedded
  | Kicked                 (* registrar.NotifyServiceTypeChange *)
  | Served.                (* srv.Run has returned *)
#[export] Instance main_event_eq_dec : EqDecision main_event.
Proof. solve_decision. Defined.

(** ** Functions with deferred calls *)

(** What happened, and the deferred functions, the last registered first. *)
Record frame := mkFrame { trace : list main_event; deferred_ : list (list main_event) }.
(** A step gives a value, or the function returns a code ([inr]). *)
Definition step (A : Type) : Type := frame → (A + Z) * frame.

Definition sret {A} (a : A) : step A := λ f, (inl a, f).
Definition return_ {A} (code : Z) : step A := λ f, (inr code, f).
Definition sbind {A B} (m : step A) (k : A → step B) : step B := λ f,
  match m f with
  | (inl a, f') => k a f'
  | (inr code, f') => (inr code, f')
  end.
Definition tell (e : main_event) : step unit := λ f, (inl tt, mkFrame (trace f ++ [e]) (deferred_ f)).
Definition defer (l : list main_event) : step unit := λ f, (inl tt, mkFrame (trace f) (l :: deferred_ f)).
(** [if err != nil { ...; return 1 }] *)
Definition fail_if (e : option error) : step unit := match e with Some _ => return_ 1 | None => sret tt end.
Definition when (b : bool) (m : step unit) : step unit := if b then m else sret tt.

(** A call: its body, then the deferred functions. *)
Definition call (m : step Z) : step Z := λ f,
  let '(r, f') := m (mkFrame (trace f) []) in
  let code := match r with inl c | inr c => c end in
  (inl code, mkFrame (trace f' ++ mjoin (deferred_ f')) (deferred_ f)).

Declare Scope main_scope.
Notation "m ;; k" := (sbind m (λ _, k)) (at level 100, k at level 200, right associativity) : main_scope.
#[local] Open Scope main_scope.

(** ** main.go *)

Section Run.
Context (url_Parse : string → result URL) (decode_event : string → option Event).

(** [run] once the messaging client has started.  [bundles]: some embedded
    provider is enabled; [served]: how srv.Run ends. *)
Definition run_started (c : AppConfig) (bundles : bool) (served : option string) : step Z :=
  fail_if (newDCMClient url_Parse (dc_RegistrationURL (app_DCM c)));;
  tell WiredTransitions;;
  tell WiredChanges;;
  tell WaitedReady;;
  tell RegisteredEmbedded;;
  when bundles (tell StartedEmbedded);;
  tell (Acquired HealthMonitor);;
  defer [Released HealthMonitor];;
  tell Kicked;;
  tell (Acquired RegistrarTask);;
  defer [Released RegistrarTask];;
  tell Served;;
  match served with
  | Some _ => return_ 1
  | None => sret 0
  end.

(** A panic runs the deferred functions and exits with 2. *)
Definition run (su : Startup) (loaded : result AppConfig) (bundles : bool) (served : option string) : step Z :=
  match loaded with
  | Err _ => return_ 1
  | Ok c =>
      fail_if (Validate url_Parse c);;
      fail_if (ValidateHandlerAckWaitInvariant c);;
      fail_if (ValidateCancelHandlerAckWaitInvariant c);;
      fail_if (if au_Disabled (app_Auth c) then None else su_oidc su);;
      fail_if (su_listen su);;
      tell (Acquired Listener);;
      defer [Released Listener];;
      fail_if (su_store su);;
      fail_if (su_loaded su);;
      tell LoadedPersisted;;
      match setupMessaging c with
      | Err _ => return_ 1
      | Ok (client, client_topics, topics) =>
          fail_if (su_embedded su);;
          when bundles (tell (Acquired EmbeddedSPs);; defer [Released EmbeddedSPs]);;
          match wire decode_event c client client_topics topics with
          | Panicked => return_ 2
          | Val _ =>
              tell SetHandlers;;
              tell SetReadyCallback;;
              fail_if (su_connect su);;
              tell (Acquired MessagingClient);;
              defer [Released MessagingClient; StoppedRetries];;
              run_started c bundles served
          end
      end
  end.

Definition mainRun (su : Startup) (loaded : result AppConfig) (bundles : bool) (served : option string) : step Z :=
  tell (Acquired Signals);; defer [Released Signals];; call (run su loaded bundles served).

(** The process: the exit code and everything that happened. *)
Definition process (su : Startup) (loaded : result AppConfig) (bundles : bool) (served : option string) : Z * list main_event :=
  match call (mainRun su loaded bundles served) (mkFrame [] []) with
  | (inl code, f) | (inr code, f) => (code, trace f)
  end.

(** ** What is acquired is released *)

(** The resources held after [tr], the last acquired first; [None]: something
    was released that was not the last acquired. *)
Fixpoint held (stack : list resource) (tr : list main_event) : option (list resource) :=
  match tr with
  | [] => Some stack
  | Acquired r :: tr => held (r :: stack) tr
  | Released r :: tr =>
      match stack with
      | r' :: stack => if decide (r = r') then held stack tr else None
      | [] => None
      end
  | _ :: tr => held stack tr
  end.

(** No [b] happens before the first [a]. *)
Fixpoint before (a b : main_event) (tr : list main_event) : bool :=
  match tr with
  | [] => true
  | e :: tr => if decide (e = b) then false else if decide (e = a) then true else before a b tr
  end.

(** The order main.go's comments ask for; after a wait, bounded, for messaging
    to be ready, the embedded providers are registered. *)
Definition wired_in_order (tr : list main_event) : bool :=
  before SetHandlers (Acquired MessagingClient) tr && before SetReadyCallback (Acquired MessagingClient) tr &&
  before LoadedPersisted (Acquired MessagingClient) tr &&
  before WiredTransitions RegisteredEmbedded tr && before WiredChanges RegisteredEmbedded tr && before WaitedReady RegisteredEmbedded tr &&
  before WiredTransitions (Acquired HealthMonitor) tr && before RegisteredEmbedded Kicked tr && before (Acquired RegistrarTask) Served tr.

(** Once everything has been started, nothing is given back before the HTTP
    server has ended. *)
Definition served_first (tr : list main_event) : bool :=
  bool_decide (Served ∉ tr) ||
  before Served StoppedRetries tr &&
  forallb (λ r, before Served (Released r) tr) [Signals; Listener; EmbeddedSPs; MessagingClient; HealthMonitor; RegistrarTask].

(** The retry processor is stopped right after the messaging client, each time
    the client is, and at no other time. *)
Fixpoint retries_stopped (tr : list main_event) : bool :=
  match tr with
  | [] => true
  | Released MessagingClient :: StoppedRetries :: tr => retries_stopped tr
  | Released MessagingClient :: _ | StoppedRetries :: _ => false
  | _ :: tr => retries_stopped tr
  end.

(** Runs the process to its end, then decides what its trace has to satisfy. *)
Ltac ran :=
  match goal with |- context [call ?m ?f] => let v := eval vm_compute in (call m f) in change (call m f) with v end;
  cbv beta iota; cbn [trace];
  split; [vm_compute; reflexivity|]; split; [vm_compute; reflexivity|]; split; [vm_compute; reflexivity|];
  split; [vm_compute; reflexivity|].
(** ... when it does not end well. *)
Ltac ended := ran; split; [discriminate|intros [? [? ?]]; discriminate].

(** C24: the process starts in order and gives everything back, on every path.
    Whatever step of start-up fails, and however the HTTP server ends: each
    resource that was acquired is given back exactly once by a deferred function
    before the process exits, in reverse order (so the registrar and the health
    monitor end before the messaging client they use, and that before the embedded
    providers its handlers call); the retry processor, which nothing starts, is
    stopped exactly when the messaging client had been started, right after the
    client, hence after registrar and health monitor and before the embedded
    providers are closed; nothing is released or stopped while the server still
    runs; handlers and callbacks are wired before the component that calls them
    starts.  The exit code is 0 exactly when start-up succeeded and the server
    ended without error. *)
Theorem process_orderly su loaded bundles served :
  let '(code, tr) := process su loaded bundles served in
  held [] tr = Some [] ∧ retries_stopped tr = true ∧ wired_in_order tr = true ∧ served_first tr = true ∧
  (code = 0 ↔ served = None ∧ ∃ wi, start url_Parse decode_event su loaded = Val (Ok wi)).
Proof.
  unfold process, mainRun, run, run_started, start. destruct loaded as [c|e]; [|ended].
  generalize (Validate url_Parse c) as v1, (ValidateHandlerAckWaitInvariant c) as v2, (ValidateCancelHandlerAckWaitInvariant c) as v3,
    (if au_Disabled (app_Auth c) then None else su_oidc su) as v4, (su_listen su) as v5, (su_store su) as v6, (su_loaded su) as v7,
    (newDCMClient url_Parse (dc_RegistrationURL (app_DCM c))) as v8, (su_connect su) as v9, (su_embedded su) as v10, (setupMessaging c) as m.
  intros. destruct v1; [ended|]. destruct v2; [ended|]. destruct v3; [ended|]. destruct v4; [ended|]. destruct v5; [ended|].
  destruct v6; [ended|]. destruct v7; [ended|]. destruct m as [[[client ct] topics]|]; [|ended]. destruct v10; [ended|].
  generalize (wire decode_event c client ct topics) as w. intros.
  destruct w as [wi|]; [|destruct bundles; ended]. destruct v9; [destruct bundles; ended|]. destruct v8; [destruct bundles; ended|].
  destruct served; [destruct bundles; ended|].
  destruct bundles; ran; (split; [by eauto|done]).
Qed.
End Run.
